(* ===== verification/_CoqProject ===== *)
-Q . S2P
Prelude.v
Float64.v
Json.v
Protocol.v
Intent.v
Channel.v
Safety.v
HttpHelpers.v
WsCodec.v
WsCodecProperties.v
HttpClient.v
TimeSync.v
TimeSyncProperties.v
Socket.v
HttpWire.v
WebSocket.v
WebSocketProperties.v
WebSocketClient.v
WebSocketClientProperties.v
Signaling.v
SignalingSessions.v
SignalingLimits.v
SignalingMessages.v
SignalingPosts.v
SignalingServer.v
SignalingService.v
SignalingFrames.v
SignalingAuthority.v
SignalingDemo.v
HttpWireProperties.v
Handshake.v
SignalingGrants.v
SignalingRevocation.v
SignalingReaper.v
SignalingMail.v
SignalingCommands.v
SignalingDelivery.v
Config.v
Adapter.v
AdapterProperties.v
ControlService.v
ServiceSafety.v
ServiceCalls.v
ServiceMoves.v
ServiceProperties.v
ServiceProfiles.v
CanSignal.v
Vcu.v
VcuProperties.v
VcuMachine.v
VcuLiveness.v
SpeedControl.v
ChassisBridge.v
ChassisCycle.v
ChassisApi.v
ChassisSafety.v
ChassisStops.v
ChassisRuns.v
ChassisCalls.v
ChassisProvenance.v
ChassisLink.v
Driver.v
DriverControl.v
DriverSignaling.v
DriverSessions.v
DriverConsole.v
DriverLocks.v
DriverSending.v
DriverDemo.v
DriverProperties.v
MediaSignaling.v
VehicleRuntime.v
VehicleControl.v
VehicleCameras.v
VehicleThreads.v
VehicleFrames.v
VehicleStops.v
VehicleAdmission.v
VehicleDelivery.v
VehicleProperties.v
