(* ===== verification/Prelude.v ===== *)
(** * Verification of MineTeleop's control plane and vehicle control path

    MineTeleop drives mining vehicles remotely. The signaling server in the cloud logs drivers
    and vehicles in, grants a driver the control of a vehicle as a session, and passes the
    messages of the session on (src/cpp/src/server.cpp). The driver's console, a program beside
    the driver's browser, logs in, asks for a session and turns what the browser wants into
    control commands at a fixed rate (the same file); the vehicle process checks and limits the
    commands (src/cpp) and hands them to an adapter. Around it the vehicle's media runtime
    (src/cpp/src/webrtc_media.cpp) receives the commands, and takes control away when a camera,
    the connection or a pipeline fails; the adapter of a real vehicle loads the
    chassis control bridge (src/deployments/chassis-control-bridge), a library that turns
    intents into CAN frames for the vehicle control unit (VCU) every 20 ms. This development
    models that path, from the grant of control to the frames on the bus, as functions that
    compute, and proves who may hold control, what stops the vehicle and what may move it.

    ** Parts

    File                                Models
    ----                                ------
    [Prelude]                           exceptions, the state monad, record updates,
                                        unsigned wrap-around; the preservation
                                        judgement [keeps]
    [Float64]                           the C++ [double], bit-exact, with ordering lemmas
    [Json]                              the interface of the JSON library
    [Protocol]                          core: messages, [validate], [to_json], [from_json]
    [Intent]                            core: [NativeControlIntentStore]
    [Channel]                           core: mailbox, [ControlReceiver]; the window of
                                        unacknowledged packets (detail/)
    [Safety]                            core: [SafetyStateMachine], deceleration profile
    [HttpHelpers]                       server: URLs, numbers, responses, errors; theorems
    [WsCodec], [WsCodecProperties]      websocket: base64, UTF-8, URLs, accept key; theorems
    [HttpClient]                        http: JSON requests and the errors of responses
    [TimeSync], [TimeSyncProperties]    http: [SynchronizedClock]; its error
    [Socket]                            websocket: the loops around [send] and [recv]
    [HttpWire]                          server: [parse_request], [send_http_response]
    [WebSocket], [WebSocketProperties]  websocket: frames, [ServerWebSocketConnection];
                                        what a client sends arrives
    [WebSocketClient],                  websocket: [WebSocketClient]; what a server sends
    [WebSocketClientProperties]         arrives
    [Signaling]                         server: the server's records and members, and its
                                        machine ([SignalingHost]: clocks, random bytes, files)
    [SignalingSessions]                 server: credentials, the session life cycle, mobile
                                        approvals, the cleanup of what has expired
    [SignalingLimits]                   server: login failures, the API window
    [SignalingMessages]                 server: admission, mailboxes, polls, acknowledgements
    [SignalingPosts]                    server: the POST requests
    [SignalingServer]                   server: GET, phones, logs, the dispatch, the errors
    [SignalingService]                  server: construction, reaper, websocket sessions;
                                        [server_step]
    [SignalingFrames]                   what each of its functions leaves alone
    [SignalingDemo]                     a machine and a server for the witnesses
    [HttpWireProperties], [Handshake]   a request as it is read; the WebSocket handshake
    [SignalingAuthority],               their theorems: grants; revocation and cleanup; the
    [SignalingGrants],                  reaper that fails; mailboxes, commands, delivery
    [SignalingRevocation],
    [SignalingReaper],
    [SignalingMail],
    [SignalingCommands],
    [SignalingDelivery]
    [Config]                            core: [load_vehicle_config]
    [Adapter], [AdapterProperties]      core: the adapter interface, the mock, the
                                        adapter of the chassis library
    [ControlService]                    core: [VehicleControlService]
    [ServiceSafety], [ServiceCalls],    its theorems: what keeps its state; what it asks the
    [ServiceMoves],                     adapter and does with the safety machine; commands and
    [ServiceProperties],                stops; profiles
    [ServiceProfiles]
    [CanSignal]                         vcu: CAN frames, bit fields, physical encoding
    [Vcu]                               vcu: [ParallelController], [OperatorIdleParking]
    [VcuProperties], [VcuMachine],      its theorems
    [VcuLiveness]
    [SpeedControl]                      bridge header: torque, PID and watchdog arithmetic
    [ChassisBridge]                     bridge: [BridgeRuntime], its state and calls
    [ChassisCycle]                      bridge: the I/O thread's control cycle
    [ChassisApi]                        bridge: the exported C functions
    [ChassisSafety], [ChassisStops],    its theorems
    [ChassisRuns], [ChassisCalls],
    [ChassisProvenance]
    [ChassisLink]                       the adapter on the bridge's functions
    [Driver]                            server: [DriverConsoleRuntime], its members, locks and
                                        connections
    [DriverControl]                     server: the intent, the sender, the control lease
    [DriverSignaling]                   server: the console's signaling connection, WebRTC
                                        messages
    [DriverSessions]                    server: login, vehicles, opening and ending sessions
    [DriverConsole]                     server: profile, status, events, the export of logs, the
                                        console's routes
    [DriverLocks], [DriverSending],     their theorems: locks; what is sent; the rest
    [DriverProperties]
    [DriverDemo]                        a machine and a console for the witnesses
    [MediaSignaling]                    webrtc_media: the vehicle's signaling client, the latch of
                                        a critical camera, the classes of errors
    [VehicleRuntime]                    webrtc_media: the members of the media runtime and its
                                        machine ([RuntimeHost])
    [VehicleControl]                    webrtc_media: control messages, deliveries
    [VehicleCameras]                    webrtc_media: when control runs and what ends it
    [VehicleThreads]                    webrtc_media: its threads, [runtime_steps]
    [VehicleFrames], [VehicleStops],    their theorems: what each step leaves alone; the end of
    [VehicleAdmission],                 control; what is admitted; emergency stops; a machine
    [VehicleDelivery],                  and a vehicle process for the witnesses
    [VehicleProperties]

    "core" is src/cpp/src/core.cpp with its header, and so "server", "websocket", "http"
    and "vcu"; "bridge" is chassis_control_bridge.cpp, "bridge header"
    mine_teleop_chassis_bridge.h.  A class is a record of its members and a member
    function a definition of the same name; [Class_method] where two classes share one.

    ** How the parts meet

    - A command that arrives goes [ControlReceiver] -> [SafetyStateMachine] -> limits ->
      [VehicleAdapter] inside [VehicleControlService] ([receive_command]).  The adapter
      is the class [VehicleAdapter], and the service's theorems hold for any instance,
      whatever it throws and whenever.
    - [DynamicLibraryVehicleAdapter] is an instance over the class [ChassisPlatform], the
      library's functions and the loader.  [bridge_library] (ChassisLink) makes the
      modelled bridge an instance of it.
    - The bridge calls [ParallelController] ([Vcu]) under its mutex: [ingest] per frame
      received, [vcu_tick] per cycle.
    - The signaling server is [SignalingProcess], its members and its machine.  One
      [server_step] is a rate check, a request, a websocket event or a pass of the reaper;
      [server_run] is a list of them, between which the machine may change in any way.  The
      request that starts an export of logs takes the server's mutex twice: its second
      section is also a step of its own ([SrvBeginExport]), so that others may run before it.
      What a driver sends is stored by [enqueue_signaling_message] and polled by the
      vehicle, whose [ControlReceiver] compares the same control token again.
    - A vehicle and a driver reach the server over a WebSocket: the client's request
      ([client_connect]) is read by [parse_request], accepted by [ws_handshake] and answered
      by [switching_protocols]; then [send_json] of one end is [receive_json] of the other.
      Both ends work on the system calls of [SocketApi], the client through libcurl
      ([CurlApi]).
    - The driver console ([DriverProcess]) is one thread in the company of others: it takes
      and gives back its mutexes as the code does ([lock_guard]), and before a lock is had and
      where members without a mutex are read the other threads run ([others_run]), which may
      change every member that no held mutex guards ([shielded]).  [drv_trace] records the locks
      for the theorems; the locks are the fourteen mutexes of the runtime and the one of an
      export of logs.  Its command is made by [sample_command] from the store of [Intent],
      sent through [WebSocketApi], stored by the server and read by [ControlCommand_from_json].
    - The vehicle process ([VehicleProcess]) is the media runtime around a
      [VehicleControlService].  Its threads share one mutex for control: a body under it is one
      [runtime_step], and an execution is a list of steps ([runtime_steps]); the functions made
      of several steps let the others run between them ([threads_run]).  The flags that have no
      lock may be raised whenever they are looked at ([flags_seen]).
    - Every member function of the other concurrent objects holds one mutex for its whole body,
      so an interleaving of threads is a sequence of these functions. Runs are lists of
      operations ([intent_step], [vcu_step], [bridge_step]; the service's list of [SvcStart]
      and the others), and statements about runs are inductions over them.

    ** What is shown

    - Control is exclusive and guarded: one open session per vehicle ([exclusive_authority]),
      granted in one way ([grant_guarded]), never regained ([authority_only_falls]), and gone
      at once when a driver is revoked ([revocation_complete]) or something expires
      ([cleanup_leaves_current]), except while the audit log cannot be written: then the reaper
      ends in an exception and leaves the sessions open ([reaper_can_die]).
    - Messages: a waiting command is authorised ([commands_authorised]), a message is stored
      once ([message_stored_once]), in order ([cursors_ordered]), and an acknowledgement
      removes only what was delivered ([acknowledged_was_delivered]).
    - The driver console: every command it sends is authorised, whatever its other threads do
      ([sends_only_authorised]), and read by the vehicle as it was meant
      ([sampled_command_read_back], [prepared_profile_read_back]); its threads never wait in a
      circle ([lock_graph_acyclic]); a failure withdraws control, and no sample of the intent
      shows motion until the driver confirms ([failure_withdraws_control]); deliveries are taken once ([deliveries_appended_once]); but
      a clock that fails its check is used ([time_sync_gate_opens]).
    - The vehicle's media runtime: what reaches the service is admitted
      ([native_command_admitted]); an emergency stop gets from a delivery to the actuators
      ([estop_delivery_stops_vehicle]) in the gear that was frozen ([frozen_gear_held]); the
      failure of a critical camera ends control for the session ([camera_failure_ends_control],
      [camera_inhibition_lasts]); no adapter is let go of while it drives
      ([adapters_stopped_before_release]); what the console sends is understood
      ([console_command_scanned]).
    - Motion needs every guard: an ordinary command reaches the actuators only through a
      started service, the receiver, an open safety machine, an active profile and its limits,
      and an adapter that reports no stop and the feedback required
      ([command_actuation_guarded]); the bridge asks for torque only with every latch
      open, the profile active and fresh feedback ([bridge_traction_guarded]); the
      controller transmits torque only when open ([torque_only_when_open]).
    - Stops stop, at once and until they are cleared: [estop_always_latches],
      [latched_never_actuates], [latch_closes_traction], [watchdogs_brake],
      [bridge_latch_holds], [withdrawn_until_intent], [emergency_brakes_every_wheel],
      [timeout_tick_revokes], [safety_latch], [intent_estop_sticky]; their cause stays
      recorded ([first_stop_cause]).
    - Authority: the controller is armed by one accepted request and the evidence of every
      phase since ([authority_has_evidence]); [session_request_exact],
      [receiver_accepts_admissible], [receiver_no_replay], [reset_estop_guarded],
      [legacy_open_no_traction].
    - Refinement: each operation of the service takes exactly the steps of its safety machine
      that [service_moves] lists ([service_refines_safety]), the controller only the edges of its phase diagram
      ([vcu_step_refines_edges]), a command or a stop given to the adapter is the one the
      bridge stores ([adapter_command_reaches_bridge], [adapter_stop_reaches_bridge]).
    - Errors leave no half-made change: [profile_install_exact],
      [profile_request_installs_or_keeps], [apply_reports], [profile_answers_print].
    - Bounds and invariants: [speed_pid_bounded], [limited_command_bounds],
      [bridge_request_bounded], [intent_within_profile], [commands_always_valid],
      [profile_normalized], [loaded_config_ok].
    - The connection: the handshake opens the session the client means ([handshake_agrees]),
      messages arrive whole in both directions, whatever the network does to their pieces
      ([client_message_received], [server_message_received]), no larger than
      allowed ([oversized_frame_refused]); times agree up to [offset_error_bounded], though
      not up to what is reported ([uncertainty_exceeded]).
    - Round trips and shapes: [signal_roundtrip], [wire_roundtrip], [cycle_frames_fixed],
      [stoull_reads_back], [base64_roundtrip], [url_roundtrip] (but [path_decoded_twice]);
      equivalence: [path_parts_splits], [valid_utf8_exact].
    - Termination: [disarming_terminates].

    ** Conventions

    A [double] is a [spec_float] at precision 53; an integer is a [Z], with the wrap of its
    width written out where the code lets it wrap ([u64], the bridge's sequence numbers, the
    CAN counters). Time is an argument. Most loops run over a list or a fixed number of wheels
    and frames. The console waits for an approval in [rounds] (1,202 are enough for its ten
    minutes at half a second each) and reads a burst of messages of any length ([burst]). A
    loop that reads or writes a socket takes at least a character per round, so it is given as
    many rounds as characters; [receive_json] is given a number of frames, since a peer may
    send control frames for ever, and the client's loops a number of times libcurl may ask to
    be called again. Third-party code is a class of its operations: [JsonApi] (nlohmann::json,
    with the laws [JsonLaws]), [YamlApi] (yaml-cpp), the dynamic loader and SocketCAN
    ([ChassisPlatform]), ChassisControl, the vendor's library (an argument of the cycle: what
    it answers, a fault included), the system calls of a socket ([SocketApi]), libcurl
    ([CurlApi], [HttpTransport]), [std::sort] ([SampleSort]), the machine of the server
    ([SignalingHost], with [HashLaws]: an iteration over a hash map visits each entry once),
    its session logs ([SessionLogs]); of the console its other threads ([ThreadApi]), the calls
    of its WebSockets ([WebSocketApi]; [WebSocketClient] models the class behind them), its
    pages and the worker of a log export ([ConsoleHost]); of the media runtime the data channel, its output and
    new adapters ([RuntimeHost]) and the steps of its other threads ([VehicleThreads]). Each class has an instance that
    computes, and the witnesses run on it.

    ** Not modelled

    - Logging, and the members that only rate-limit or label it: they decide nothing.
    - Memory: null pointers are options where the C functions test for them; lifetime of
      the loaded library is the order of the calls.
    - ChassisControl (third-party), the CAN socket and the protocol log of the bridge
      (system calls).
    - Of the server: the listener and its threads, the log files and their rotation, the
      control trace, host and port; the session logs and the upload queue.
    - Of the driver console: the pages and their assets, the threads that collect the archives
      of an export and write the control trace (neither holds a lock when it takes another),
      [load_driver_config].
    - Of the media runtime: the GStreamer pipelines, SDP and ICE, codecs and their fallback,
      recording, the control trace (webrtc_media.cpp, media.cpp, video.cpp): they touch control
      only through the steps of [VehicleThreads].
    - The programs under apps/ and the launcher, which wire the parts together; of
      mine_teleop.cpp only what the service loop does about errors ([media_loop_retries]). *)

From Stdlib Require Import ZArith Lia.
From Stdlib Require Export Ascii String Sorted.
From stdpp Require Export base numbers option strings pretty list gmap.

#[export] Set Default Goal Selector "!".
Open Scope Z_scope.

(** ** Prelude

    What every component of the development shares:

    - [exn], [result] and the state monad [M]: C++ exceptions as values, and a
      member function as a state transformer whose mutations survive a throw;
    - [keeps], the syntax-directed preservation judgement, with its tactic and
      its hint database [keeps];
    - record update notation [r <| f := v |>];
    - unsigned wrap-around [u64] and friends, C++ integer bounds;
    - [std::to_string] on integers, string predicates;
    - small lemmas on booleans, lists and options. *)

(** ** Exceptions *)

(** A scalar in the JSON object a [Conflict] carries. *)
Inductive detail : Type :=
| DetailString (value : string)
| DetailInt (value : Z)      (* std::int64_t *)
| DetailUint (value : Z).    (* std::uint64_t *)

(** The exception types the modelled code throws or catches.  [ForeignException]
    is anything that is not a [std::exception] (only [catch (...)] stops it); the three
    before it are those of the driver's clients, the five before them those of the
    signaling server. *)
Inductive exn : Type :=
| InvalidArgument (message : string)
| RuntimeError (message : string)
| LogicError (message : string)
| LengthError (message : string)
| OutOfRange (message : string)
| JsonException (message : string)
| YamlException (message : string)
| VehicleAdapterControlRejected (issue_code : string) (result_code : Z)
| Unauthorized (message : string)
| ServiceUnavailable (message : string)
| Conflict (message issue_code : string) (details : list (string * detail))
| NotFound (message : string)
| TooManyRequests (message : string) (retry_after_ms : Z)
| HttpStatusError (status : Z) (message issue_code response_body : string)
| HttpTransportError (message : string)
| SignalingRejected (message : string)
| ForeignException.

(** [catch (const std::exception&)] stops this exception. *)
Definition is_std_exception (e : exn) : bool :=
  match e with ForeignException => false | _ => true end.

(** [std::exception::what()] *)
Definition what (e : exn) : string :=
  match e with
  | InvalidArgument m | RuntimeError m | LogicError m | LengthError m | OutOfRange m | JsonException m
  | YamlException m | Unauthorized m | ServiceUnavailable m | NotFound m
  | Conflict m _ _ | TooManyRequests m _ | HttpStatusError _ m _ _ | HttpTransportError m
  | SignalingRejected m => m
  | VehicleAdapterControlRejected _ code =>
      "vehicle adapter rejected control with code " +:+ pretty code
  | ForeignException => ""
  end.

(** ** Fallible computations *)

Inductive result (A : Type) : Type :=
| Ok (value : A)
| Throw (e : exn).
Arguments Ok {A} value.
Arguments Throw {A} e.

Definition is_ok {A} (r : result A) : bool :=
  match r with Ok _ => true | Throw _ => false end.

#[global] Instance result_ret : MRet result := fun A a => Ok a.
#[global] Instance result_bind : MBind result := fun A B f r =>
  match r with Ok a => f a | Throw e => Throw e end.
#[global] Instance result_fmap : FMap result := fun A B f r =>
  match r with Ok a => Ok (f a) | Throw e => Throw e end.

(** [if (cond) throw e;] *)
Definition throw_if (cond : bool) (e : exn) : result unit :=
  if cond then Throw e else Ok tt.

(** [try { r } catch (const Json::exception& e) { throw f(e.what()) }] *)
Definition rethrow_json {A} (f : string -> exn) (r : result A) : result A :=
  match r with
  | Throw (JsonException m) => Throw (f m)
  | _ => r
  end.

(** [f] on every element, in order, up to the first failure. *)
Fixpoint map_result {A B} (f : A -> result B) (xs : list A) : result (list B) :=
  match xs with
  | [] => Ok []
  | x :: xs => y ← f x; ys ← map_result f xs; Ok (y :: ys)
  end.

(** The loop [for (x : xs) acc = f(acc, x)] whose body may throw. *)
Fixpoint fold_result {A B} (f : A -> B -> result A) (acc : A) (xs : list B) : result A :=
  match xs with
  | [] => Ok acc
  | x :: xs => acc' ← f acc x; fold_result f acc' xs
  end.

(** ** Stateful computations *)

Definition M (S A : Type) : Type := S -> result A * S.

#[global] Instance M_ret {S} : MRet (M S) := fun A a s => (Ok a, s).
#[global] Instance M_bind {S} : MBind (M S) := fun A B f m s =>
  match m s with
  | (Ok a, s') => f a s'
  | (Throw e, s') => (Throw e, s')
  end.

Definition get {S} : M S S := fun s => (Ok s, s).
Definition gets {S A} (f : S -> A) : M S A := fun s => (Ok (f s), s).
Definition put {S} (s' : S) : M S unit := fun _ => (Ok tt, s').
Definition modify {S} (f : S -> S) : M S unit := fun s => (Ok tt, f s).
Definition throw {S A} (e : exn) : M S A := fun s => (Throw e, s).
Definition lift {S A} (r : result A) : M S A := fun s => (r, s).

(** [try { m } catch (...) { h }]: mutations made by [m] before it threw stay. *)
Definition try_catch {S A} (m : M S A) (h : exn -> M S A) : M S A := fun s =>
  match m s with
  | (Ok a, s') => (Ok a, s')
  | (Throw e, s') => h e s'
  end.

(** [try { m } catch (const std::exception&) { h }] *)
Definition try_catch_std {S A} (m : M S A) (h : exn -> M S A) : M S A :=
  try_catch m (fun e => if is_std_exception e then h e else throw e).

Definition when {S} (b : bool) (m : M S unit) : M S unit :=
  if b then m else mret tt.

(** Run a computation on a part of the state. *)
Definition zoom {S T A} (proj : S -> T) (upd : T -> S -> S) (m : M T A) : M S A := fun s =>
  match m (proj s) with (r, t) => (r, upd t s) end.

(** [keeps I m]: running [m] from a state that satisfies [I] ends, normally or
    by an exception, in a state that satisfies [I]. *)
Definition keeps {S A} (I : S -> Prop) (m : M S A) : Prop :=
  forall s, I s -> I (m s).2.

(** [keeps_ok I m P]: moreover a normal result satisfies [P]. *)
Definition ensures {S A} (I : S -> Prop) (m : M S A) (P : A -> S -> Prop) : Prop :=
  forall s, I s -> match m s with (Ok a, s') => P a s' | _ => True end.

(** ** Record update *)

(** A record is [Settable] when its fields are listed; [p <| f := v |>] then
    replaces field [f]. *)
Class Settable (R : Type) := settable_eta : R -> R.
Class Setter {R E : Type} (p : R -> E) := set_field : (E -> E) -> R -> R.
Arguments set_field {R E} p {_} f r : simpl nomatch.

Definition rec_pure {R A} (x : A) : R -> A := fun _ => x.
Definition rec_ap {R A B} (g : R -> A -> B) (p : R -> A) : R -> B := fun r => g r (p r).

Notation "'fields!' mk < f1 ; .. ; fn >" :=
  (rec_ap .. (rec_ap (rec_pure mk) f1) .. fn)
  (at level 0, mk at level 9, f1 at level 9, fn at level 9, only parsing).

Ltac solve_setter :=
  match goal with
  | |- @Setter ?R ?E ?p =>
      let eta := constr:(@settable_eta R _) in
      let inst := match eta with @settable_eta _ ?i => i end in
      let rec head t := match t with ?f _ => head f | _ => t end in
      let h := head inst in
      let e := eval cbv beta delta [h rec_pure rec_ap] in inst in
      let pat := eval pattern p in e in
      match pat with
      | ?body _ =>
          let s := constr:(fun (f : E -> E) => body (fun r => f (p r))) in
          let s := eval cbv beta in s in
          exact s
      end
  end.
#[global] Hint Extern 0 (Setter _) => solve_setter : typeclass_instances.

Declare Scope prog_scope.
Delimit Scope prog_scope with prog.
Notation "r <| p := v |>" := (set_field p (fun _ => v) r)
  (at level 1, left associativity, p at level 9, v at level 200,
   format "r  <| p  :=  v |>").
Notation "r <| p ::= f |>" := (set_field p f r)
  (at level 1, left associativity, p at level 9, f at level 200,
   format "r  <| p  ::=  f |>").

(** ** Machine integers *)

Definition u8 (z : Z) : Z := z mod 2 ^ 8.
Definition u32 (z : Z) : Z := z mod 2 ^ 32.
Definition u64 (z : Z) : Z := z mod 2 ^ 64.

Definition is_u64 (z : Z) : bool := (0 <=? z) && (z <? 2 ^ 64).
Definition is_i64 (z : Z) : bool := (- 2 ^ 63 <=? z) && (z <? 2 ^ 63).
Definition is_i32 (z : Z) : bool := (- 2 ^ 31 <=? z) && (z <? 2 ^ 31).

(** ** Strings *)

Definition string_empty (s : string) : bool := String.eqb s "".
Definition to_string_Z (z : Z) : string := pretty z.

(** [s] is one of [xs] (membership in a constant [unordered_set]). *)
Definition string_in (s : string) (xs : list string) : bool :=
  existsb (String.eqb s) xs.

(** [s.find_first_of(chars) != npos] *)
Definition has_any (chars s : string) : bool :=
  existsb (fun c => existsb (Ascii.eqb c) (list_ascii_of_string chars)) (list_ascii_of_string s).

(** ** Lemmas: fallible computations *)
Lemma result_bind_ok {A B} (r : result A) (f : A -> result B) b :
  r ≫= f = Ok b <-> exists a, r = Ok a /\ f a = Ok b.
Proof.
  destruct r as [a | e]; simpl; split.
  - intros H; exists a; auto.
  - intros (a' & E & H). by injection E as ->.
  - discriminate.
  - intros (a & E & _). discriminate.
Qed.

Lemma throw_if_ok b e : throw_if b e = Ok tt <-> b = false.
Proof. destruct b; simpl; split; congruence. Qed.

Lemma throw_if_seq {B} b e (k : result B) v :
  (throw_if b e ≫= fun _ => k) = Ok v <-> b = false /\ k = Ok v.
Proof. destruct b; simpl; split; intros H; [discriminate | by destruct H | auto | by destruct H]. Qed.

Lemma rethrow_json_ok {A} f (r : result A) a : rethrow_json f r = Ok a <-> r = Ok a.
Proof. destruct r as [x | []]; simpl; split; congruence. Qed.

(** A loop whose body always succeeds is a fold. *)
Lemma fold_result_total {A B} (f : A -> B -> result A) (g : A -> B -> A) acc xs :
  (forall a b, f a b = Ok (g a b)) -> fold_result f acc xs = Ok (foldl g acc xs).
Proof.
  intros Hf. revert acc. induction xs as [| x xs IH]; intros acc; simpl; [done |].
  rewrite Hf. simpl. apply IH.
Qed.

(** A loop invariant of a throwing loop. *)
Lemma fold_result_inv {A B} (f : A -> B -> result A) (I : A -> Prop) acc xs acc' :
  I acc -> (forall a b a', I a -> f a b = Ok a' -> I a') ->
  fold_result f acc xs = Ok acc' -> I acc'.
Proof.
  intros H0 Hstep. revert acc H0.
  induction xs as [| x xs IH]; simpl; intros acc H0 E; [by injection E as <- |].
  apply result_bind_ok in E as (a & Ea & E). eauto.
Qed.

Lemma fold_result_app {A B} (f : A -> B -> result A) acc xs ys :
  fold_result f acc (xs ++ ys) = (acc' ← fold_result f acc xs; fold_result f acc' ys).
Proof.
  revert acc. induction xs as [| x xs IH]; intros acc; simpl; [done |].
  destruct (f acc x); simpl; [apply IH | done].
Qed.

(** ** Lemmas: runs *)
Lemma bind_run {S A B} (m : M S A) (f : A -> M S B) s a s' : m s = (Ok a, s') -> (m ≫= f) s = f a s'.
Proof. intros E. unfold mbind, M_bind. by rewrite E. Qed.

(** ** Lemmas: preservation *)

Section keeps.
Context {S : Type} (I : S -> Prop).

Lemma keeps_ret {A} (a : A) : keeps I (mret a).
Proof. intros s H. exact H. Qed.

Lemma keeps_throw {A} e : keeps I (throw (A := A) e).
Proof. intros s H. exact H. Qed.

Lemma keeps_lift {A} (r : result A) : keeps I (lift r).
Proof. intros s H. exact H. Qed.

Lemma keeps_get : keeps I get.
Proof. intros s H. exact H. Qed.

Lemma keeps_gets {A} (f : S -> A) : keeps I (gets f).
Proof. intros s H. exact H. Qed.

Lemma keeps_modify f : (forall s, I s -> I (f s)) -> keeps I (modify f).
Proof. intros Hf s H. exact (Hf s H). Qed.

Lemma keeps_bind {A B} (m : M S A) (f : A -> M S B) :
  keeps I m -> (forall a, keeps I (f a)) -> keeps I (m ≫= f).
Proof.
  intros Hm Hf s H. specialize (Hm s H). unfold mbind, M_bind.
  destruct (m s) as [[a | e] s']; simpl in *; [by apply Hf | done].
Qed.

Lemma keeps_try {A} (m : M S A) h :
  keeps I m -> (forall e, keeps I (h e)) -> keeps I (try_catch m h).
Proof.
  intros Hm Hh s H. specialize (Hm s H). unfold try_catch.
  destruct (m s) as [[a | e] s']; simpl in *; [done | by apply Hh].
Qed.

Lemma keeps_try_std {A} (m : M S A) h :
  keeps I m -> (forall e, keeps I (h e)) -> keeps I (try_catch_std m h).
Proof.
  intros Hm Hh. apply keeps_try; [done | intros e].
  destruct (is_std_exception e); [apply Hh | apply keeps_throw].
Qed.

Lemma keeps_when b m : keeps I m -> keeps I (when b m).
Proof. intros H. destruct b; [done | apply keeps_ret]. Qed.

Lemma keeps_zoom {T A} proj (upd : T -> S -> S) (m : M T A) :
  (forall s, I s -> I (upd (m (proj s)).2 s)) -> keeps I (zoom proj upd m).
Proof.
  intros Hm s H. specialize (Hm s H). unfold zoom.
  by destruct (m (proj s)) as [r t].
Qed.

Lemma keeps_if {A} (b : bool) (m1 m2 : M S A) :
  (b = true -> keeps I m1) -> (b = false -> keeps I m2) -> keeps I (if b then m1 else m2).
Proof. destruct b; auto. Qed.
End keeps.

(** [leads I J m]: from [I], [m] ends (normally or not) in [J]. *)
Definition leads {S A} (I J : S -> Prop) (m : M S A) : Prop :=
  forall s, I s -> J (m s).2.

Section leads.
Context {S : Type} (I J : S -> Prop).

Lemma leads_keeps {A} (m : M S A) : keeps I m -> (forall s, I s -> J s) -> leads I J m.
Proof. intros Hm Hij s H. by apply Hij, Hm. Qed.

Lemma leads_weaken {A} (I' : S -> Prop) (m : M S A) :
  (forall s, I s -> I' s) -> leads I' J m -> leads I J m.
Proof. intros Hi Hm s H. by apply Hm, Hi. Qed.

(** The first step stays within [I]; what follows leads on. *)
Lemma leads_bind {A B} (m : M S A) (f : A -> M S B) :
  (forall s, I s -> J s) -> keeps I m -> (forall a, leads I J (f a)) -> leads I J (m ≫= f).
Proof.
  intros Hij Hm Hf s H. specialize (Hm s H). unfold mbind, M_bind.
  destruct (m s) as [[a | e] s']; simpl in *; [by apply Hf | by apply Hij].
Qed.

(** The first step leads on; what follows stays there. *)
Lemma leads_then {A B} (m : M S A) (f : A -> M S B) :
  leads I J m -> (forall a, keeps J (f a)) -> leads I J (m ≫= f).
Proof.
  intros Hm Hf s H. specialize (Hm s H). unfold mbind, M_bind.
  destruct (m s) as [[a | e] s']; simpl in *; [by apply Hf | done].
Qed.

(** A step whose answer is known to satisfy [P]. *)
Lemma leads_ensures {A B} (P : A -> S -> Prop) (m : M S A) (f : A -> M S B) :
  (forall s, I s -> match m s with (Ok a, s') => P a s' | (Throw _, s') => J s' end) ->
  (forall a, leads (P a) J (f a)) -> leads I J (m ≫= f).
Proof.
  intros Hm Hf s H. specialize (Hm s H). unfold mbind, M_bind.
  destruct (m s) as [[a | e] s']; simpl in *; [by apply Hf | done].
Qed.

(** What is read is the state itself. *)
Lemma leads_get {B} (f : S -> M S B) :
  (forall s, I s -> leads (fun s' => s' = s) J (f s)) -> leads I J (get ≫= f).
Proof. intros Hf s H. by apply (Hf s H). Qed.

Lemma keeps_get_bind {B} (f : S -> M S B) :
  (forall s, I s -> keeps I (f s)) -> keeps I (get ≫= f).
Proof. intros Hf s H. exact (Hf s H s H). Qed.

Lemma keeps_gets_bind {A B} (g : S -> A) (f : A -> M S B) :
  (forall s, I s -> keeps I (f (g s))) -> keeps I (gets g ≫= f).
Proof. intros Hf s H. exact (Hf s H s H). Qed.

(** The handler only runs after an exception. *)
Lemma leads_try {A} (m : M S A) h :
  leads I J m -> (forall e, keeps J (h e)) -> leads I J (try_catch m h).
Proof.
  intros Hm Hh s H. specialize (Hm s H). unfold try_catch.
  destruct (m s) as [[a | e] s']; simpl in *; [done | by apply Hh].
Qed.
End leads.

(** [hoare P m Q E]: from [P], a normal end of [m] satisfies [Q] with its answer
    and an exception leaves [E]. *)
Definition hoare {S A} (P : S -> Prop) (m : M S A) (Q : A -> S -> Prop) (E : S -> Prop) : Prop :=
  forall s, P s -> match m s with (Ok a, s') => Q a s' | (Throw _, s') => E s' end.

Section hoare.
Context {S : Type}.
Implicit Types P E : S -> Prop.

Lemma hoare_conseq {A} P P' (m : M S A) Q Q' E E' :
  (forall s, P s -> P' s) -> (forall a s, Q' a s -> Q a s) -> (forall s, E' s -> E s) ->
  hoare P' m Q' E' -> hoare P m Q E.
Proof.
  intros HP HQ HE Hm s H. specialize (Hm s (HP s H)). destruct (m s) as [[] ?]; auto.
Qed.

Lemma hoare_pre {A} P P' (m : M S A) Q E :
  (forall s, P s -> P' s) -> hoare P' m Q E -> hoare P m Q E.
Proof. intros HP. by apply hoare_conseq. Qed.

Lemma hoare_bind {A B} P R (m : M S A) (f : A -> M S B) Q E :
  hoare P m R E -> (forall a, hoare (R a) (f a) Q E) -> hoare P (m ≫= f) Q E.
Proof.
  intros Hm Hf s H. specialize (Hm s H). unfold mbind, M_bind.
  destruct (m s) as [[a | e] s']; [by apply Hf | done].
Qed.

Lemma hoare_ret {A} P (a : A) Q E : (forall s, P s -> Q a s) -> hoare P (mret a) Q E.
Proof. intros H s Hs. by apply H. Qed.

Lemma hoare_keeps {A} P (m : M S A) : keeps P m -> hoare P m (fun _ => P) P.
Proof. intros Hm s H. specialize (Hm s H). by destruct (m s) as [[] ?]. Qed.

(** A step that keeps [P], then the rest. *)
Lemma hoare_keeps_bind {A B} P (m : M S A) (f : A -> M S B) Q E :
  keeps P m -> (forall s, P s -> E s) -> (forall a, hoare P (f a) Q E) -> hoare P (m ≫= f) Q E.
Proof.
  intros Hm HE Hf. apply (hoare_bind P (fun _ => P)); [| done].
  apply (hoare_conseq P P m (fun _ => P) (fun _ => P) E P); auto using hoare_keeps.
Qed.

Lemma hoare_get {B} P (f : S -> M S B) Q E :
  (forall s, P s -> hoare (fun s' => s' = s) (f s) Q E) -> hoare P (get ≫= f) Q E.
Proof. intros Hf s H. by apply (Hf s H). Qed.

Lemma hoare_gets {A B} P (g : S -> A) (f : A -> M S B) Q E :
  (forall s, P s -> hoare (fun s' => s' = s) (f (g s)) Q E) -> hoare P (gets g ≫= f) Q E.
Proof. intros Hf s H. by apply (Hf s H). Qed.

Lemma hoare_modify {B} P (g : S -> S) (f : unit -> M S B) Q E R :
  (forall s, P s -> R (g s)) -> hoare R (f tt) Q E -> hoare P (modify g ≫= f) Q E.
Proof. intros Hg Hf s H. apply Hf. by apply Hg. Qed.

Lemma hoare_lift {A B} P (r : result A) (f : A -> M S B) Q E :
  (forall s e, P s -> r = Throw e -> E s) -> (forall a, r = Ok a -> hoare P (f a) Q E) ->
  hoare P (lift r ≫= f) Q E.
Proof.
  intros He Hf s H. unfold mbind, M_bind, lift. destruct r as [a | e]; [by apply Hf | by eapply He].
Qed.

(** A pure conjunct of the precondition. *)
Lemma hoare_pure {A} P (phi : Prop) (m : M S A) Q E :
  (phi -> hoare P m Q E) -> hoare (fun s => P s /\ phi) m Q E.
Proof. intros H s [Hs Hphi]. by apply H. Qed.

Lemma hoare_state {A} P (m : M S A) (J : S -> Prop) :
  hoare P m (fun _ => J) J <-> leads P J m.
Proof.
  split; intros H s Hs; specialize (H s Hs); destruct (m s) as [[] ?]; done.
Qed.
End hoare.

Create HintDb keeps.
#[export] Hint Resolve keeps_ret keeps_throw keeps_lift keeps_get keeps_gets : keeps.

(** One syntax-directed step of a preservation proof, and its iteration. *)
Ltac keeps_step :=
  match goal with
  | |- forall _, _ => intro
  | |- keeps _ (mret _) => apply keeps_ret
  | |- keeps _ (mbind get _) => apply keeps_get_bind
  | |- keeps _ (mbind (gets _) _) => apply keeps_gets_bind
  | |- keeps _ (mbind _ _) => apply keeps_bind
  | |- keeps _ (try_catch_std _ _) => apply keeps_try_std
  | |- keeps _ (try_catch _ _) => apply keeps_try
  | |- keeps _ (when _ _) => apply keeps_when
  | |- keeps _ (if ?b then _ else _) => let E := fresh "E" in destruct b eqn:E
  | |- keeps _ (match ?x with _ => _ end) => let E := fresh "E" in destruct x eqn:E
  | |- keeps _ _ => solve [eauto with keeps]
  end.
Ltac keeps_auto := repeat keeps_step.

(** ** Lemmas: integers *)
Lemma u64_small z : 0 <= z < 2 ^ 64 -> u64 z = z.
Proof. apply Z.mod_small. Qed.

Lemma u64_range z : 0 <= u64 z < 2 ^ 64.
Proof. apply Z.mod_pos_bound. lia. Qed.

(** ** Boolean goals *)

(** Turns the boolean tests of the code into the propositions they decide. *)
Ltac bool_prop :=
  repeat match goal with
  | H : andb _ _ = true |- _ => apply andb_true_iff in H as [? ?]
  | H : orb _ _ = false |- _ => apply orb_false_iff in H as [? ?]
  | H : negb _ = true |- _ => apply negb_true_iff in H
  | H : negb _ = false |- _ => apply negb_false_iff in H
  | H : Z.ltb _ _ = true |- _ => apply Z.ltb_lt in H
  | H : Z.ltb _ _ = false |- _ => apply Z.ltb_ge in H
  | H : Z.leb _ _ = true |- _ => apply Z.leb_le in H
  | H : Z.leb _ _ = false |- _ => apply Z.leb_gt in H
  | H : Z.eqb _ _ = true |- _ => apply Z.eqb_eq in H
  | H : Z.eqb _ _ = false |- _ => apply Z.eqb_neq in H
  | H : String.eqb _ _ = true |- _ => apply String.eqb_eq in H
  | H : String.eqb _ _ = false |- _ => apply String.eqb_neq in H
  end.

(** Runs every [if]/[match] of the goal by case analysis, keeping equations. *)
Ltac split_cases :=
  repeat (case_match; simplify_eq/=; try done).

(** Runs a monadic body on a state: unfolds the combinators and reduces. *)
Ltac run_monad :=
  unfold mbind, M_bind, mret, M_ret, lift, get, gets, put, modify, throw, when, zoom,
    try_catch_std, try_catch in *; simpl in *.
