(* ===== verification/Float64.v ===== *)
(** Float64: the C++ [double] as an IEEE 754 binary64 datum.

    A double is a [spec_float] of the standard library, and every operation is
    the correctly rounded one of precision 53 and exponent bound 1024, so the
    definitions compute bit-exactly (round to nearest, ties to even).  NaN is a
    value, comparisons with it are false, and [std::isfinite], [std::clamp],
    [std::min], [std::max], [std::abs], [std::floor] and [std::llround] are
    those of the C++ standard library.

    The second half gives the ordering lemmas: a comparison key in [Z * Z * Z]
    turns every goal about comparisons, minima and clamps into linear
    arithmetic (tactic [double_order]). *)
From Stdlib Require Export SpecFloat.
From S2P Require Export Prelude.

Definition double : Type := spec_float.

(** Equality of data (it tells [+0] from [-0], and NaN equals itself). *)
#[global] Instance double_eq_dec : EqDecision double.
Proof.
  intros x y. unfold Decision.
  decide equality; first [apply Bool.bool_dec | apply Pos.eq_dec | apply Z.eq_dec].
Defined.

(** ** Arithmetic *)

Definition d_add (x y : double) : double := SFadd 53 1024 x y.
Definition d_sub (x y : double) : double := SFsub 53 1024 x y.
Definition d_mul (x y : double) : double := SFmul 53 1024 x y.
Definition d_div (x y : double) : double := SFdiv 53 1024 x y.
Definition d_neg (x : double) : double := SFopp x.
Definition d_abs (x : double) : double := SFabs x.

(** Conversion of an integer, rounded to nearest. *)
Definition d_of_Z (z : Z) : double := binary_normalize 53 1024 z 0 false.

(** The literal [m / 10^k]: one correctly rounded division of exact integers,
    hence the nearest double of the decimal for [|m| < 2^53] and [k <= 22]. *)
Definition d_lit (m k : Z) : double := d_div (d_of_Z m) (d_of_Z (10 ^ k)).

Arguments d_add : simpl never.
Arguments d_sub : simpl never.
Arguments d_mul : simpl never.
Arguments d_div : simpl never.
Arguments d_of_Z : simpl never.
Arguments d_lit : simpl never.

Definition d_zero : double := S754_zero false.
Definition d_one : double := d_of_Z 1.

(** ** Comparison and classification *)

Definition d_is_nan (x : double) : bool :=
  match x with S754_nan => true | _ => false end.

(** [std::isfinite] *)
Definition d_isfinite (x : double) : bool :=
  match x with S754_zero _ | S754_finite _ _ _ => true | _ => false end.

Definition d_lt (x y : double) : bool := SFltb x y.
Definition d_le (x y : double) : bool := SFleb x y.
Definition d_eq (x y : double) : bool := SFeqb x y.
(** C++ [x != y]: true when either is NaN. *)
Definition d_neq (x y : double) : bool := negb (d_eq x y).

Arguments d_lt : simpl never.
Arguments d_le : simpl never.
Arguments d_eq : simpl never.
Arguments d_neq : simpl never.

Declare Scope double_scope.
Delimit Scope double_scope with D.
Infix "⊕" := d_add (at level 50, left associativity) : double_scope.
Infix "⊖" := d_sub (at level 50, left associativity) : double_scope.
Infix "⊗" := d_mul (at level 40, left associativity) : double_scope.
Infix "⊘" := d_div (at level 40, left associativity) : double_scope.
Infix "<ᵈ" := d_lt (at level 70) : double_scope.
Infix "≤ᵈ" := d_le (at level 70) : double_scope.
Notation "x >ᵈ y" := (d_lt y x) (at level 70, only parsing) : double_scope.
Notation "x ≥ᵈ y" := (d_le y x) (at level 70, only parsing) : double_scope.
Infix "=ᵈ" := d_eq (at level 70) : double_scope.
Infix "≠ᵈ" := d_neq (at level 70) : double_scope.
Open Scope double_scope.

(** ** Standard library functions *)

(** [std::min(a, b)]: [(b < a) ? b : a]. *)
Definition d_min (a b : double) : double := if b <ᵈ a then b else a.
(** [std::max(a, b)]: [(a < b) ? b : a]. *)
Definition d_max (a b : double) : double := if a <ᵈ b then b else a.
(** [std::clamp(v, lo, hi)]: [(v < lo) ? lo : (hi < v) ? hi : v]. *)
Definition d_clamp (v lo hi : double) : double :=
  if v <ᵈ lo then lo else if hi <ᵈ v then hi else v.

(** The integer part towards minus infinity of a finite value. *)
Definition d_floor_Z (x : double) : Z :=
  match x with
  | S754_finite s m e =>
      let n := cond_Zopp s (Zpos m) in
      if 0 <=? e then n * 2 ^ e else n / 2 ^ (- e)
  | _ => 0
  end.

(** [std::floor] *)
Definition d_floor (x : double) : double :=
  match x with
  | S754_finite _ _ e => if 0 <=? e then x else d_of_Z (d_floor_Z x)
  | _ => x
  end.

(** Nearest integer, halves away from zero, of a finite value. *)
Definition d_round_Z (x : double) : Z :=
  match x with
  | S754_finite s m e =>
      cond_Zopp s
        (if 0 <=? e then Zpos m * 2 ^ e
         else (2 * Zpos m + 2 ^ (- e)) / (2 * 2 ^ (- e)))
  | _ => 0
  end.

(** [std::llround].  When the argument is not finite or the rounded value does
    not fit in a [long long] the standard leaves the result unspecified; the
    value given here, [LLONG_MIN], is what x86-64 computes. *)
Definition d_llround (x : double) : Z :=
  if d_isfinite x && is_i64 (d_round_Z x) then d_round_Z x else - 2 ^ 63.

(** Six fractional digits of [n / 10^6]. *)
Definition fraction_digits (n : Z) : string :=
  let d k := pretty ((n / 10 ^ k) mod 10) in
  String.append (d 5) (String.append (d 4) (String.append (d 3)
    (String.append (d 2) (String.append (d 1) (d 0))))).

(** [m * 2^e * 10^6] rounded to nearest, ties to even. *)
Definition d_micro (m e : Z) : Z :=
  let n := m * 10 ^ 6 in
  if 0 <=? e then n * 2 ^ e
  else
    let d := 2 ^ (- e) in
    let q := n / d in
    match 2 * (n mod d) ?= d with
    | Lt => q
    | Gt => q + 1
    | Eq => if Z.even q then q else q + 1
    end.

(** [std::to_string(double)], i.e. [printf("%f")]. *)
Definition to_string_D (x : double) : string :=
  let sign (s : bool) := if s then "-" else "" in
  match x with
  | S754_nan => "nan"
  | S754_infinity s => String.append (sign s) "inf"
  | S754_zero s => String.append (sign s) "0.000000"
  | S754_finite s m e =>
      let n := d_micro (Zpos m) e in
      String.append (sign s)
        (String.append (pretty (n / 10 ^ 6)) (String.append "." (fraction_digits n)))
  end.

(** ** The comparison key *)

Definition d_class (x : double) : Z :=
  match x with
  | S754_infinity true => -2
  | S754_finite true _ _ => -1
  | S754_finite false _ _ => 1
  | S754_infinity false => 2
  | _ => 0
  end.
Definition d_expo (x : double) : Z :=
  match x with S754_finite s _ e => cond_Zopp s e | _ => 0 end.
Definition d_mant (x : double) : Z :=
  match x with S754_finite s m _ => cond_Zopp s (Zpos m) | _ => 0 end.

Definition d_klt (x y : double) : bool :=
  (d_class x <? d_class y) ||
  (d_class x =? d_class y) &&
  ((d_expo x <? d_expo y) || (d_expo x =? d_expo y) && (d_mant x <? d_mant y)).
Definition d_keq (x y : double) : bool :=
  (d_class x =? d_class y) && (d_expo x =? d_expo y) && (d_mant x =? d_mant y).

(** ** Ordering lemmas *)
Lemma pos_compare_cont_eq m1 m2 : Pos.compare_cont Eq m1 m2 = Pos.compare m1 m2.
Proof. reflexivity. Qed.

Lemma d_lt_key x y :
  (x <ᵈ y) = negb (d_is_nan x) && negb (d_is_nan y) && d_klt x y.
Proof.
  unfold d_lt, SFltb, SFcompare, d_klt, d_class, d_expo, d_mant.
  destruct x as [[] | [] | | [] m e], y as [[] | [] | | [] m' e']; simpl; try done.
  - rewrite pos_compare_cont_eq. destruct (Z.compare_spec e e'), (Pos.compare_spec m m'); simpl; lia.
  - rewrite pos_compare_cont_eq. destruct (Z.compare_spec e e'), (Pos.compare_spec m m'); simpl; lia.
Qed.

Lemma d_eq_key x y :
  (x =ᵈ y) = negb (d_is_nan x) && negb (d_is_nan y) && d_keq x y.
Proof.
  unfold d_eq, SFeqb, SFcompare, d_keq, d_class, d_expo, d_mant.
  destruct x as [[] | [] | | [] m e], y as [[] | [] | | [] m' e']; simpl; try done.
  - rewrite pos_compare_cont_eq. destruct (Z.compare_spec e e'), (Pos.compare_spec m m'); simpl;
      destruct (Pos.eqb_spec m m'); lia.
  - rewrite pos_compare_cont_eq. destruct (Z.compare_spec e e'), (Pos.compare_spec m m'); simpl;
      destruct (Pos.eqb_spec m m'); lia.
Qed.

Lemma d_le_lt_eq x y : (x ≤ᵈ y) = (x <ᵈ y) || (x =ᵈ y).
Proof.
  unfold d_le, d_lt, d_eq, SFleb, SFltb, SFeqb.
  by destruct (SFcompare x y) as [[] |].
Qed.

Lemma d_isfinite_not_nan x : d_isfinite x = true -> d_is_nan x = false.
Proof. by destruct x. Qed.

(** Replaces every comparison by its key and closes the goal by arithmetic.
    Comparisons may stand in hypotheses and in the goal; NaN-freeness comes from
    the comparisons themselves or from [d_isfinite]/[d_is_nan] hypotheses. *)
Ltac double_order :=
  repeat match goal with
  | H : d_isfinite ?x = true |- _ => apply d_isfinite_not_nan in H
  end;
  unfold d_neq in *; rewrite ?d_le_lt_eq, ?d_lt_key, ?d_eq_key in *;
  repeat match goal with
  | H : context [d_is_nan ?x] |- _ => destruct (d_is_nan x); simpl in *; try done
  | |- context [d_is_nan ?x] => destruct (d_is_nan x); simpl in *; try done
  end;
  unfold d_klt, d_keq in *; lia.

Lemma d_le_refl x : d_is_nan x = false -> (x ≤ᵈ x) = true.
Proof. intros H. double_order. Qed.

Lemma d_eq_refl x : d_isfinite x = true -> (x =ᵈ x) = true.
Proof. intros H. double_order. Qed.

Lemma d_le_trans x y z : (x ≤ᵈ y) = true -> (y ≤ᵈ z) = true -> (x ≤ᵈ z) = true.
Proof. intros H1 H2. double_order. Qed.

Lemma d_lt_le x y : (x <ᵈ y) = true -> (x ≤ᵈ y) = true.
Proof. intros H. double_order. Qed.

Lemma d_lt_le_trans x y z : (x <ᵈ y) = true -> (y ≤ᵈ z) = true -> (x <ᵈ z) = true.
Proof. intros H1 H2. double_order. Qed.

Lemma d_le_lt_trans x y z : (x ≤ᵈ y) = true -> (y <ᵈ z) = true -> (x <ᵈ z) = true.
Proof. intros H1 H2. double_order. Qed.

Lemma d_not_lt_le x y :
  d_is_nan x = false -> d_is_nan y = false -> (x <ᵈ y) = false -> (y ≤ᵈ x) = true.
Proof. intros H1 H2 H3. double_order. Qed.

Lemma d_le_not_lt x y : (x ≤ᵈ y) = true -> (y <ᵈ x) = false.
Proof. intros H. double_order. Qed.

Lemma d_le_not_nan x y : (x ≤ᵈ y) = true -> d_is_nan x = false /\ d_is_nan y = false.
Proof. intros H. split; double_order. Qed.

Lemma d_lt_irrefl x : (x <ᵈ x) = false.
Proof. double_order. Qed.

(** [v] is [w], or a value the code found equal to it. *)
Lemma d_same_le_l v w c b : v = w \/ (w =ᵈ c) = true /\ v = c -> (w ≤ᵈ b) = true -> (v ≤ᵈ b) = true.
Proof. intros [-> | [E ->]] H; double_order. Qed.

Lemma d_same_le_r v w c b : v = w \/ (w =ᵈ c) = true /\ v = c -> (b ≤ᵈ w) = true -> (b ≤ᵈ v) = true.
Proof. intros [-> | [E ->]] H; double_order. Qed.

Lemma d_min_le_l a b :
  d_is_nan a = false -> d_is_nan b = false -> (d_min a b ≤ᵈ a) = true.
Proof. intros Ha Hb. unfold d_min. destruct (b <ᵈ a) eqn:E; double_order. Qed.

Lemma d_min_le_r a b :
  d_is_nan a = false -> d_is_nan b = false -> (d_min a b ≤ᵈ b) = true.
Proof. intros Ha Hb. unfold d_min. destruct (b <ᵈ a) eqn:E; double_order. Qed.

Lemma d_min_glb a b c :
  (c ≤ᵈ a) = true -> (c ≤ᵈ b) = true -> (c ≤ᵈ d_min a b) = true.
Proof. intros Ha Hb. unfold d_min. destruct (b <ᵈ a) eqn:E; double_order. Qed.

Lemma d_min_cases a b : d_min a b = a \/ d_min a b = b.
Proof. unfold d_min. destruct (b <ᵈ a); auto. Qed.

Lemma d_clamp_bounds v lo hi :
  d_is_nan v = false -> (lo ≤ᵈ hi) = true ->
  (lo ≤ᵈ d_clamp v lo hi) = true /\ (d_clamp v lo hi ≤ᵈ hi) = true.
Proof.
  intros Hv H. unfold d_clamp.
  destruct (v <ᵈ lo) eqn:E1; [| destruct (hi <ᵈ v) eqn:E2]; split; double_order.
Qed.

Lemma d_clamp_id v lo hi :
  (lo ≤ᵈ v) = true -> (v ≤ᵈ hi) = true -> d_clamp v lo hi = v.
Proof.
  intros H1 H2. unfold d_clamp.
  by rewrite (d_le_not_lt _ _ H1), (d_le_not_lt _ _ H2).
Qed.

Lemma d_clamp_cases v lo hi :
  d_clamp v lo hi = v \/ d_clamp v lo hi = lo \/ d_clamp v lo hi = hi.
Proof. unfold d_clamp. destruct (v <ᵈ lo), (hi <ᵈ v); auto. Qed.

(** A value between finite bounds is finite. *)
Lemma d_between_finite lo v hi :
  d_isfinite lo = true -> d_isfinite hi = true ->
  (lo ≤ᵈ v) = true -> (v ≤ᵈ hi) = true -> d_isfinite v = true.
Proof.
  intros Hlo Hhi H1 H2.
  destruct v as [s | [] | | s m e]; try done.
  - by destruct lo as [[] | [] | | [] m e].
  - by destruct hi as [[] | [] | | [] m e].
Qed.

(** ** Signs of quotients and products *)
Lemma iter_pos_inv {B} (f : B -> B) (P : B -> Prop) n : forall x,
  (forall x, P x -> P (f x)) -> P x -> P (SpecFloat.iter_pos f n x).
Proof. induction n; simpl; auto. Qed.

Lemma shr_1_nonneg r : 0 <= shr_m r -> 0 <= shr_m (shr_1 r).
Proof. destruct r as [[| [p | p |] | [p | p |]] ? ?]; simpl; lia. Qed.

Lemma shr_fexp_nonneg m e l : 0 <= m -> 0 <= shr_m (shr_fexp 53 1024 m e l).1.
Proof.
  intros Hm. unfold shr_fexp, shr.
  assert (H : 0 <= shr_m (shr_record_of_loc m l)) by (by destruct l as [| []]).
  destruct (_ - _); simpl; try done.
  apply (iter_pos_inv shr_1 (fun r => 0 <= shr_m r)); auto using shr_1_nonneg.
Qed.

(** Rounding a non-negative magnitude gives a non-negative number, not NaN. *)
Lemma round_aux_nonneg m e l :
  0 <= m -> (d_zero ≤ᵈ binary_round_aux 53 1024 false m e l) = true.
Proof.
  intros Hm. unfold binary_round_aux.
  pose proof (shr_fexp_nonneg m e l Hm) as H1.
  destruct (shr_fexp 53 1024 m e l) as [r1 e1]; simpl in H1.
  set (m' := round_nearest_even _ _).
  assert (H2 : 0 <= m').
  { unfold m', round_nearest_even.
    destruct (loc_of_shr_record r1) as [| []]; [lia | | lia | lia].
    destruct (Z.even _); lia. }
  pose proof (shr_fexp_nonneg m' e1 loc_Exact H2) as H3.
  destruct (shr_fexp 53 1024 m' e1 loc_Exact) as [r2 e2]; simpl in H3.
  destruct (shr_m r2); [done | | lia]. by destruct (_ <=? _).
Qed.

Lemma d_div_nonneg a b :
  d_isfinite a = true -> d_isfinite b = true ->
  (d_zero ≤ᵈ a) = true -> (d_zero <ᵈ b) = true -> (d_zero ≤ᵈ a ⊘ b) = true.
Proof.
  intros Ha Hb H1 H2. unfold d_div, SFdiv.
  destruct a as [sa | | | [] ma ea]; try done; destruct b as [sb | | | [] mb eb]; try done.
  unfold SFdiv_core_binary. cbv zeta.
  match goal with |- context [Z.div_eucl ?m (Zpos mb)] => assert (Hm : 0 <= m) end.
  { destruct (_ - _); [lia | apply Z.shiftl_nonneg; lia | lia]. }
  match goal with |- context [Z.div_eucl ?m (Zpos mb)] => revert Hm; generalize m end.
  intros m Hm. destruct (Z.div_eucl m (Zpos mb)) as [q r] eqn:E. apply round_aux_nonneg.
  replace q with (m / Zpos mb) by (unfold Z.div; by rewrite E).
  apply Z.div_pos; lia.
Qed.

Lemma d_mul_nonneg a b :
  d_isfinite a = true -> d_isfinite b = true ->
  (d_zero ≤ᵈ a) = true -> (d_zero ≤ᵈ b) = true -> (d_zero ≤ᵈ a ⊗ b) = true.
Proof.
  intros Ha Hb H1 H2. unfold d_mul, SFmul.
  destruct a as [sa | | | [] ma ea]; try done; destruct b as [sb | | | [] mb eb]; try done.
  by apply round_aux_nonneg.
Qed.

Lemma d_neg_le_self a : (d_zero ≤ᵈ a) = true -> (d_neg a ≤ᵈ a) = true.
Proof. by destruct a as [[] | [] | | [] ma ea]. Qed.
