(* ===== verification/Json.v ===== *)
(** Json: the interface the code uses of its JSON library.

    nlohmann::json is third-party code, so a JSON value is an abstract type and
    each operation the sources call is a method of the class [JsonApi].  The
    class [JsonLaws] states the documented behaviour the round-trip theorems
    rely on: what [at] finds in an object literal or after [value[key] = v], and
    that a stored value is read back by the [get] of its type.  [JsonModel] is
    an instance of both (association lists), which shows that the laws can hold
    and lets the witnesses compute. *)
From S2P Require Export Float64.

(** [assoc k kvs]: the value stored under [k]. *)
Fixpoint assoc {A} (k : string) (kvs : list (string * A)) : option A :=
  match kvs with
  | [] => None
  | (k', v) :: kvs => if String.eqb k k' then Some v else assoc k kvs
  end.

Class JsonApi : Type := {
  json : Type;
  (* construction *)
  j_null : json;
  j_bool : bool -> json;
  j_int : Z -> json;            (* from int, std::int64_t *)
  j_uint : Z -> json;           (* from std::uint64_t, std::size_t *)
  j_double : double -> json;
  j_string : string -> json;
  j_array : list json -> json;  (* from std::array, Json::array() + push_back *)
  j_object : list (string * json) -> json;
  j_set : string -> json -> json -> json;     (* value[key] = v *)
  j_parse : string -> result json;            (* Json::parse *)
  j_dump : json -> result string;             (* value.dump(), which rejects invalid UTF-8 *)
  (* inspection *)
  is_object : json -> bool;
  is_null : json -> bool;
  is_string : json -> bool;
  is_boolean : json -> bool;
  is_array : json -> bool;
  is_number : json -> bool;
  is_number_integer : json -> bool;
  is_number_unsigned : json -> bool;
  j_contains : string -> json -> bool;
  j_lt_int : json -> Z -> bool;  (* value < n *)
  j_gt_int : json -> Z -> bool;  (* value > n *)
  j_at : string -> json -> result json;
  j_items : json -> list (string * json);
  j_elements : json -> list json;
  value_string : string -> string -> json -> result string;
  value_bool : string -> bool -> json -> result bool;
  value_uint64 : string -> Z -> json -> result Z;
  value_json : string -> json -> json -> result json;
  get_int : json -> result Z;
  get_uint64 : json -> result Z;
  get_int64 : json -> result Z;
  get_double : json -> result double;
  get_string : json -> result string;
  get_bool : json -> result bool;
}.

Class JsonLaws {J : JsonApi} : Prop := {
  is_object_object kvs : is_object (j_object kvs) = true;
  is_object_set k v j : is_object j = true -> is_object (j_set k v j) = true;
  j_at_object k kvs v :
    NoDup kvs.*1 -> assoc k kvs = Some v -> j_at k (j_object kvs) = Ok v;
  j_at_set k v j k' :
    is_object j = true -> j_at k' (j_set k v j) = if String.eqb k' k then Ok v else j_at k' j;
  j_items_object kvs : NoDup kvs.*1 -> Permutation (j_items (j_object kvs)) kvs;
  value_string_at k d j v :
    is_object j = true -> j_at k j = Ok v -> value_string k d j = get_string v;
  value_bool_at k d j v :
    is_object j = true -> j_at k j = Ok v -> value_bool k d j = get_bool v;
  value_uint64_at k d j v :
    is_object j = true -> j_at k j = Ok v -> value_uint64 k d j = get_uint64 v;
  get_int_int z : is_i32 z = true -> get_int (j_int z) = Ok z;
  get_uint64_uint z : is_u64 z = true -> get_uint64 (j_uint z) = Ok z;
  get_int64_int z : is_i64 z = true -> get_int64 (j_int z) = Ok z;
  get_double_double d : get_double (j_double d) = Ok d;
  get_string_string s : get_string (j_string s) = Ok s;
  get_bool_bool b : get_bool (j_bool b) = Ok b;
  get_bool_boolean v : is_boolean v = true -> exists b, get_bool v = Ok b;
  is_boolean_bool b : is_boolean (j_bool b) = true;
  j_contains_at k j v : j_at k j = Ok v -> j_contains k j = true;
  is_number_integer_int z : is_number_integer (j_int z) = true;
  j_lt_int_int z n : j_lt_int (j_int z) n = (z <? n);
  j_gt_int_int z n : j_gt_int (j_int z) n = (n <? z);
  is_null_null : is_null j_null = true;
  is_null_object kvs : is_null (j_object kvs) = false;
}.

(** [for (auto& [key, field] : fields) value[key] = field;] *)
Definition j_set_all {J : JsonApi} (fields : list (string * json)) (j : json) : json :=
  foldl (fun j kv => j_set kv.1 kv.2 j) j fields.

(** ** An instance: association lists *)

Module JsonModel.

Inductive value : Type :=
| JNull
| JBool (b : bool)
| JInt (z : Z)
| JDouble (d : double)
| JString (s : string)
| JArray (vs : list value)
| JObject (kvs : list (string * value)).

Definition type_error {A} : result A :=
  Throw (JsonException "[json.exception.type_error.302] type mismatch").

Fixpoint set_key (k : string) (v : value) (kvs : list (string * value)) :=
  match kvs with
  | [] => [(k, v)]
  | (k', v') :: kvs => if String.eqb k k' then (k, v) :: kvs else (k', v') :: set_key k v kvs
  end.

Definition at_key (k : string) (j : value) : result value :=
  match j with
  | JObject kvs =>
      match assoc k kvs with
      | Some v => Ok v
      | None => Throw (JsonException "[json.exception.out_of_range.403] key not found")
      end
  | _ => type_error
  end.

Definition as_Z (j : value) : result Z := match j with JInt z => Ok z | _ => type_error end.
Definition as_string (j : value) : result string :=
  match j with JString s => Ok s | _ => type_error end.
Definition as_bool (j : value) : result bool :=
  match j with JBool b => Ok b | _ => type_error end.
Definition as_double (j : value) : result double :=
  match j with JDouble d => Ok d | JInt z => Ok (d_of_Z z) | _ => type_error end.

(** [value.value(key, fallback)]: the fallback when the key is missing. *)
Definition value_or {A} (get : value -> result A) (k : string) (d : A) (j : value) : result A :=
  match j with
  | JObject kvs => match assoc k kvs with Some v => get v | None => Ok d end
  | _ => type_error
  end.

(** *** Text: a compact printer and a parser without escapes; a double is printed as its mantissa
    and its binary exponent *)

Definition quote : ascii := "034"%char.
Definition quoted (s : string) : string := String quote (s +:+ String quote "").

Definition comma_separated (xs : list string) : string :=
  match xs with [] => "" | x :: xs => foldl (fun acc y => acc +:+ "," +:+ y) x xs end.

Definition digits_of (d : double) : string :=
  match d with
  | S754_zero s => (if s then "-" else "") +:+ "0.0"
  | S754_finite s m e => (if s then "-" else "") +:+ pretty (Npos m) +:+ "p" +:+ pretty e
  | _ => "null"
  end.

Fixpoint print (j : value) : string :=
  match j with
  | JNull => "null"
  | JBool b => if b then "true" else "false"
  | JInt z => pretty z
  | JDouble d => digits_of d
  | JString s => quoted s
  | JArray vs => "[" +:+ comma_separated (map print vs) +:+ "]"
  | JObject kvs =>
      "{" +:+ comma_separated (map (fun kv => quoted kv.1 +:+ ":" +:+ print kv.2) kvs) +:+ "}"
  end.

Fixpoint skip_space (s : list ascii) : list ascii :=
  match s with
  | c :: s' => if Ascii.eqb c " "%char then skip_space s' else s
  | [] => []
  end.

Fixpoint read_string (s : list ascii) : option (string * list ascii) :=
  match s with
  | [] => None
  | c :: s =>
      if Ascii.eqb c quote then Some (""%string, s)
      else '(rest, s) ← read_string s; Some (String c rest, s)
  end.

Definition digit_value (c : ascii) : option Z :=
  let n := Z.of_nat (nat_of_ascii c) in
  if (48 <=? n) && (n <=? 57) then Some (n - 48) else None.

Fixpoint read_digits (acc : Z) (s : list ascii) : Z * list ascii :=
  match s with
  | c :: s' => match digit_value c with Some d => read_digits (10 * acc + d) s' | None => (acc, s) end
  | [] => (acc, [])
  end.

Definition strip (word : string) (s : list ascii) : option (list ascii) :=
  let w := list_ascii_of_string word in
  if decide (take (length w) s = w) then Some (drop (length w) s) else None.

(** The exponent of a [digits_of]. *)
Definition read_exponent (s : list ascii) : option (Z * list ascii) :=
  match strip "-" s with
  | Some s => let '(e, rest) := read_digits 0 s in Some (- e, rest)
  | None => Some (read_digits 0 s)
  end.

Definition read_number (s : list ascii) : option (value * list ascii) :=
  let '(negative, s) :=
    match s with c :: s' => if Ascii.eqb c "-"%char then (true, s') else (false, s) | [] => (false, s) end in
  match s with
  | c :: _ =>
      match digit_value c with
      | Some _ =>
          let '(z, rest) := read_digits 0 s in
          match strip ".0" rest, strip "p" rest with
          | Some rest, _ =>
              let d := if z =? 0 then S754_zero false else d_of_Z z in
              Some (JDouble (if negative : bool then d_neg d else d), rest)
          | _, Some rest =>
              '(e, rest) ← read_exponent rest; Some (JDouble (S754_finite negative (Z.to_pos z) e), rest)
          | _, _ => Some (JInt (if negative : bool then - z else z), rest)
          end
      | None => None
      end
  | [] => None
  end.

Definition read_constant (s : list ascii) : option (value * list ascii) :=
  match strip "null" s, strip "true" s, strip "false" s with
  | Some s, _, _ => Some (JNull, s)
  | _, Some s, _ => Some (JBool true, s)
  | _, _, Some s => Some (JBool false, s)
  | _, _, _ => read_number s
  end.

Fixpoint read_value (fuel : nat) (s : list ascii) : option (value * list ascii) :=
  match fuel with
  | O => None
  | S fuel =>
      match skip_space s with
      | c :: s' =>
          if Ascii.eqb c "{"%char then
            match strip "}" s' with
            | Some s => Some (JObject [], s)
            | None => '(kvs, s) ← read_members fuel s'; Some (JObject kvs, s)
            end
          else if Ascii.eqb c "["%char then
            match strip "]" s' with
            | Some s => Some (JArray [], s)
            | None => '(vs, s) ← read_elements fuel s'; Some (JArray vs, s)
            end
          else if Ascii.eqb c quote then '(text, s) ← read_string s'; Some (JString text, s)
          else read_constant (c :: s')
      | [] => None
      end
  end
with read_members (fuel : nat) (s : list ascii) : option (list (string * value) * list ascii) :=
  match fuel with
  | O => None
  | S fuel =>
      s ← strip (String quote "") (skip_space s);
      '(k, s) ← read_string s;
      s ← strip ":" (skip_space s);
      '(v, s) ← read_value fuel s;
      match strip "," (skip_space s) with
      | Some s => '(kvs, s) ← read_members fuel s; Some ((k, v) :: kvs, s)
      | None => s ← strip "}" (skip_space s); Some ([(k, v)], s)
      end
  end
with read_elements (fuel : nat) (s : list ascii) : option (list value * list ascii) :=
  match fuel with
  | O => None
  | S fuel =>
      '(v, s) ← read_value fuel s;
      match strip "," (skip_space s) with
      | Some s => '(vs, s) ← read_elements fuel s; Some (v :: vs, s)
      | None => s ← strip "]" (skip_space s); Some ([v], s)
      end
  end.

Definition parse (text : string) : result value :=
  match read_value (S (String.length text)) (list_ascii_of_string text) with
  | Some (v, []) => Ok v
  | _ => Throw (JsonException "[json.exception.parse_error.101] parse error")
  end.

Definition contains_key (k : string) (j : value) : bool :=
  match j with JObject kvs => bool_decide (is_Some (assoc k kvs)) | _ => false end.

#[global] Instance api : JsonApi := {|
  json := value;
  j_null := JNull; j_bool := JBool; j_int := JInt; j_uint := JInt;
  j_double := JDouble; j_string := JString; j_array := JArray; j_object := JObject;
  j_set k v j :=
    match j with
    | JObject kvs => JObject (set_key k v kvs)
    | JNull => JObject [(k, v)]
    | _ => j
    end;
  j_parse := parse;
  j_dump j := Ok (print j);
  is_object j := match j with JObject _ => true | _ => false end;
  is_null j := match j with JNull => true | _ => false end;
  is_string j := match j with JString _ => true | _ => false end;
  is_boolean j := match j with JBool _ => true | _ => false end;
  is_array j := match j with JArray _ => true | _ => false end;
  is_number j := match j with JInt _ | JDouble _ => true | _ => false end;
  is_number_integer j := match j with JInt _ => true | _ => false end;
  is_number_unsigned j := match j with JInt z => 0 <=? z | _ => false end;
  j_contains := contains_key;
  j_lt_int j n := match j with JInt z => z <? n | _ => false end;
  j_gt_int j n := match j with JInt z => n <? z | _ => false end;
  j_at := at_key;
  j_items j := match j with JObject kvs => kvs | _ => [] end;
  j_elements j := match j with JArray vs => vs | _ => [] end;
  value_string := value_or as_string;
  value_bool := value_or as_bool;
  value_uint64 := value_or as_Z;
  value_json := value_or Ok;
  get_int := as_Z; get_uint64 := as_Z; get_int64 := as_Z;
  get_double := as_double; get_string := as_string; get_bool := as_bool;
|}.

Lemma assoc_set_key k v kvs k' :
  assoc k' (set_key k v kvs) = if String.eqb k' k then Some v else assoc k' kvs.
Proof.
  induction kvs as [| [k2 v2] kvs IH]; simpl; [done |].
  destruct (String.eqb_spec k k2) as [<- | Hk]; simpl.
  - by destruct (String.eqb k' k).
  - destruct (String.eqb_spec k' k2) as [-> | Hk2]; [| done].
    by rewrite (proj2 (String.eqb_neq k2 k) (not_eq_sym Hk)).
Qed.

#[global] Instance laws : @JsonLaws api.
Proof.
  split; try done; simpl.
  - by intros k v [].
  - intros k kvs v _ H. by rewrite H.
  - intros k v [] k' H; try done. simpl. rewrite assoc_set_key. by destruct (String.eqb k' k).
  - intros k d [] v; try done. simpl. by destruct (assoc k kvs); intros _ [= <-].
  - intros k d [] v; try done. simpl. by destruct (assoc k kvs); intros _ [= <-].
  - intros k d [] v; try done. simpl. by destruct (assoc k kvs); intros _ [= <-].
  - intros []; try done. by eexists.
  - intros k [] v; try done. simpl. by destruct (assoc k kvs).
Qed.

End JsonModel.

(** ** Lemmas on objects *)

Section laws.
Context {J : JsonApi} {L : JsonLaws}.

Lemma is_object_set_all fields j :
  is_object j = true -> is_object (j_set_all fields j) = true.
Proof.
  revert j. induction fields as [| [k v] fields IH]; intros j H; simpl; [done |].
  apply IH. by apply is_object_set.
Qed.

(** A key the loop assigns once is read back. *)
Lemma j_at_set_all_in fields j k v :
  is_object j = true -> NoDup fields.*1 -> (k, v) ∈ fields ->
  j_at k (j_set_all fields j) = Ok v.
Proof.
  revert j. induction fields as [| [k2 v2] fields IH]; intros j Hj Hnd Hin.
  - by apply not_elem_of_nil in Hin.
  - rewrite fmap_cons in Hnd. apply NoDup_cons in Hnd as [Hn Hnd]. simpl in Hn |- *.
    apply elem_of_cons in Hin as [[= -> ->] | Hin].
    + clear IH. assert (Hj' : is_object (j_set k2 v2 j) = true) by by apply is_object_set.
      assert (Ha : j_at k2 (j_set k2 v2 j) = Ok v2).
      { rewrite j_at_set by done. by rewrite String.eqb_refl. }
      revert Hj' Ha. generalize (j_set k2 v2 j). clear Hj Hnd.
      induction fields as [| [k3 v3] fields IH]; intros j' Hj' Ha; simpl; [done |].
      rewrite fmap_cons in Hn. apply not_elem_of_cons in Hn as [Hk Hn].
      apply IH; [done | by apply is_object_set |].
      rewrite j_at_set by done. simpl in Hk.
      by rewrite (proj2 (String.eqb_neq k2 k3) Hk).
    + apply IH; auto. by apply is_object_set.
Qed.

(** A key the loop does not assign keeps its value. *)
Lemma j_at_set_all_out fields j k :
  is_object j = true -> k ∉ fields.*1 -> j_at k (j_set_all fields j) = j_at k j.
Proof.
  revert j. induction fields as [| [k2 v2] fields IH]; intros j Hj Hn; simpl; [done |].
  rewrite fmap_cons in Hn. apply not_elem_of_cons in Hn as [Hk Hn]. simpl in Hk.
  rewrite IH by (try apply is_object_set; done).
  rewrite j_at_set by done. by rewrite (proj2 (String.eqb_neq k k2) Hk).
Qed.
End laws.
