(* ===== verification/Protocol.v ===== *)
(** Protocol: the wire messages of the control channel
    (cpp/include/mine_teleop/core.hpp, cpp/src/core.cpp): session states,
    protocol metadata, control commands, and the session control profile with
    its request and result.  Each message has its [validate], [to_json] and
    [from_json]; the theorems are the round trips and what a validated message
    guarantees. *)
From S2P Require Export Json.

(** ** Constants (core.hpp:20-33, core.cpp:40-50) *)

Definition kProtocolVersion : Z := 1.
Definition kMaxVehicleTelemetryHistory : nat := 1024.
Definition kDefaultFullScaleMotorTorqueNm : double := d_lit 640 0.
Definition kMaxFullScaleMotorTorqueNm : double := d_lit 640 0.
Definition kDefaultMotorTorqueRiseRateNmPerSecond : double := d_zero.
Definition kMaxMotorTorqueRiseRateNmPerSecond : double := d_lit 32000 0.
Definition kDefaultMaxBrakePressureBar : double := d_lit 3276 1.
Definition kMaxOrdinaryBrakePressureBar : double := d_lit 3276 1.
Definition kMaxEmergencyBrakePressureBar : double := d_lit 4095 1.
Definition kSessionControlProfileMaxAgeMs : Z := 2000.
Definition kSessionControlProfileVersion : Z := 4.

Definition d_3_6 : double := d_lit 36 1.
Definition kChassisControlMaxTargetSpeedMps : double := d_lit 20 0.
Definition kChassisControlMaxTargetSpeedKph : double :=
  kChassisControlMaxTargetSpeedMps ⊗ d_3_6.
Definition kChassisControlMaxSteeringAngleDeg : double := d_lit 30 0.
Definition kMinSpeedFeedbackTimeoutMs : Z := 20.
Definition kMaxSpeedFeedbackTimeoutMs : Z := 500.
Definition kMinSpeedPidMaxDtMs : Z := 20.
Definition kMaxSpeedPidMaxDtMs : Z := 200.
Definition kMaxSpeedPidGain : double := d_lit 100 0.
Definition kMaxSpeedPidDerivativeFilterTauMs : double := d_lit 2000 0.
Definition kMaxHardOverspeedMarginKph : double := d_lit 36 0.
(** The tolerance literal [1e-9]. *)
Definition d_1e_9 : double := d_lit 1 9.

(** ** Helpers *)

Definition require_finite_range (value minimum maximum : double) (label : string) : result unit :=
  throw_if (negb (d_isfinite value) || (value <ᵈ minimum) || (value >ᵈ maximum))
    (InvalidArgument
       (label +:+ " must be a finite value in [" +:+ to_string_D minimum +:+ ", " +:+
        to_string_D maximum +:+ "]")).

Definition allowed_gears : list string := ["P"; "R"; "N"; "D"].

(** ** Session states *)

Inductive SessionState : Type :=
| Offline | Online | Reserved | Connecting | Active | Degraded | Stopping | Closed.

#[global] Instance SessionState_eq_dec : EqDecision SessionState.
Proof. solve_decision. Defined.

Definition SessionState_to_string (state : SessionState) : string :=
  match state with
  | Offline => "offline"
  | Online => "online"
  | Reserved => "reserved"
  | Connecting => "connecting"
  | Active => "active"
  | Degraded => "degraded"
  | Stopping => "stopping"
  | Closed => "closed"
  end.

Definition session_state_from_string (value : string) : result SessionState :=
  if String.eqb value "offline" then Ok Offline
  else if String.eqb value "online" then Ok Online
  else if String.eqb value "reserved" then Ok Reserved
  else if String.eqb value "connecting" then Ok Connecting
  else if String.eqb value "active" then Ok Active
  else if String.eqb value "degraded" then Ok Degraded
  else if String.eqb value "stopping" then Ok Stopping
  else if String.eqb value "closed" then Ok Closed
  else Throw (InvalidArgument "unsupported session state").

(** ** Protocol metadata *)

Record ProtocolMetadata := mkProtocolMetadata {
  md_protocol_version : Z;
  md_vehicle_id : string;
  md_driver_id : string;
  md_session_id : string;
  md_seq : Z;
  md_sent_at_utc_ms : Z;
}.

Definition ProtocolMetadata_validate (m : ProtocolMetadata) : result unit :=
  throw_if (negb (md_protocol_version m =? kProtocolVersion))
    (InvalidArgument "unsupported protocol_version");;
  throw_if (string_empty (md_vehicle_id m)) (InvalidArgument "vehicle_id is required");;
  throw_if (string_empty (md_driver_id m)) (InvalidArgument "driver_id is required");;
  throw_if (string_empty (md_session_id m)) (InvalidArgument "session_id is required");;
  throw_if (md_seq m =? 0) (InvalidArgument "seq must be positive");;
  throw_if (md_sent_at_utc_ms m <? 0)
    (InvalidArgument "sent_at_utc_ms must be non-negative").

Section ProtocolMetadata_json.
Context {J : JsonApi}.

Definition ProtocolMetadata_to_json (m : ProtocolMetadata) : json :=
  j_object
    [("protocol_version", j_int (md_protocol_version m));
     ("vehicle_id", j_string (md_vehicle_id m));
     ("driver_id", j_string (md_driver_id m));
     ("session_id", j_string (md_session_id m));
     ("seq", j_uint (md_seq m));
     ("sent_at_utc_ms", j_int (md_sent_at_utc_ms m))].

Definition ProtocolMetadata_from_json (value : json) : result ProtocolMetadata :=
  throw_if (negb (is_object value))
    (InvalidArgument "protocol message must be a JSON object");;
  metadata ←
    rethrow_json (fun what => InvalidArgument ("invalid protocol metadata: " +:+ what))
      (protocol_version ← j_at "protocol_version" value ≫= get_int;
       vehicle_id ← j_at "vehicle_id" value ≫= get_string;
       driver_id ← j_at "driver_id" value ≫= get_string;
       session_id ← j_at "session_id" value ≫= get_string;
       seq ← j_at "seq" value ≫= get_uint64;
       sent_at_utc_ms ← j_at "sent_at_utc_ms" value ≫= get_int64;
       mret (mkProtocolMetadata protocol_version vehicle_id driver_id session_id seq
               sent_at_utc_ms));
  ProtocolMetadata_validate metadata;;
  mret metadata.
End ProtocolMetadata_json.

(** ** Control command *)

Record ControlCommand := mkControlCommand {
  cmd_protocol_version : Z;
  cmd_vehicle_id : string;
  cmd_driver_id : string;
  cmd_session_id : string;
  cmd_seq : Z;
  cmd_sent_at_utc_ms : Z;
  cmd_gear : string;
  cmd_steering : double;
  cmd_throttle : double;
  cmd_brake : double;
  cmd_estop : bool;
  cmd_control_token : string;
  cmd_operator_active : bool;
}.

#[global] Instance eta_ControlCommand : Settable ControlCommand :=
  fields! mkControlCommand
    <cmd_protocol_version; cmd_vehicle_id; cmd_driver_id; cmd_session_id; cmd_seq;
     cmd_sent_at_utc_ms; cmd_gear; cmd_steering; cmd_throttle; cmd_brake; cmd_estop;
     cmd_control_token; cmd_operator_active>.

Definition ControlCommand_metadata (c : ControlCommand) : ProtocolMetadata :=
  mkProtocolMetadata (cmd_protocol_version c) (cmd_vehicle_id c) (cmd_driver_id c)
    (cmd_session_id c) (cmd_seq c) (cmd_sent_at_utc_ms c).

Definition ControlCommand_validate (c : ControlCommand) : result unit :=
  ProtocolMetadata_validate (ControlCommand_metadata c);;
  throw_if (string_empty (cmd_control_token c)) (InvalidArgument "control_token is required");;
  throw_if (negb (string_in (cmd_gear c) allowed_gears))
    (InvalidArgument "gear must be one of P/R/N/D");;
  require_finite_range (cmd_steering c) (d_lit (-1) 0) d_one "steering";;
  require_finite_range (cmd_throttle c) d_zero d_one "throttle";;
  require_finite_range (cmd_brake c) d_zero d_one "brake".

Section ControlCommand_json.
Context {J : JsonApi}.

Definition ControlCommand_to_json (c : ControlCommand) : json :=
  let value := ProtocolMetadata_to_json (ControlCommand_metadata c) in
  let value := j_set "type" (j_string "control_command") value in
  let value := j_set "gear" (j_string (cmd_gear c)) value in
  let value := j_set "steering" (j_double (cmd_steering c)) value in
  let value := j_set "throttle" (j_double (cmd_throttle c)) value in
  let value := j_set "brake" (j_double (cmd_brake c)) value in
  let value := j_set "estop" (j_bool (cmd_estop c)) value in
  let value := j_set "operator_active" (j_bool (cmd_operator_active c)) value in
  j_set "control_token" (j_string (cmd_control_token c)) value.

Definition ControlCommand_from_json (value : json) : result ControlCommand :=
  throw_if (negb (is_object value))
    (InvalidArgument "control command must be a JSON object");;
  type ← value_string "type" "" value;
  throw_if (negb (String.eqb type "control_command"))
    (InvalidArgument "type must be control_command");;
  command ←
    rethrow_json (fun what => InvalidArgument ("invalid control command: " +:+ what))
      (metadata ← ProtocolMetadata_from_json value;
       gear ← j_at "gear" value ≫= get_string;
       steering ← j_at "steering" value ≫= get_double;
       throttle ← j_at "throttle" value ≫= get_double;
       brake ← j_at "brake" value ≫= get_double;
       estop ← value_bool "estop" false value;
       operator_active ← value_bool "operator_active" false value;
       control_token ← j_at "control_token" value ≫= get_string;
       mret (mkControlCommand (md_protocol_version metadata) (md_vehicle_id metadata)
               (md_driver_id metadata) (md_session_id metadata) (md_seq metadata)
               (md_sent_at_utc_ms metadata) gear steering throttle brake estop
               control_token operator_active));
  ControlCommand_validate command;;
  mret command.
End ControlCommand_json.

(** ** Session control profile *)

Record SessionControlProfile := mkSessionControlProfile {
  prof_profile_version : Z;
  prof_target_speed_kph : double;
  prof_max_motor_torque_nm : double;
  prof_max_brake_pressure_bar : double;
  prof_service_brake_pressure_bar : double;
  prof_hard_brake_pressure_bar : double;
  prof_max_steering_angle_deg : double;
  prof_speed_pid_kp : double;
  prof_speed_pid_ki : double;
  prof_speed_pid_kd : double;
  prof_speed_pid_derivative_filter_tau_ms : double;
  prof_speed_pid_max_dt_ms : Z;
  prof_motor_torque_rise_rate_nm_per_s : double;
  prof_parking_idle_timeout_ms : Z;
}.

#[global] Instance eta_SessionControlProfile : Settable SessionControlProfile :=
  fields! mkSessionControlProfile
    <prof_profile_version; prof_target_speed_kph; prof_max_motor_torque_nm;
     prof_max_brake_pressure_bar; prof_service_brake_pressure_bar;
     prof_hard_brake_pressure_bar; prof_max_steering_angle_deg; prof_speed_pid_kp;
     prof_speed_pid_ki; prof_speed_pid_kd; prof_speed_pid_derivative_filter_tau_ms;
     prof_speed_pid_max_dt_ms; prof_motor_torque_rise_rate_nm_per_s;
     prof_parking_idle_timeout_ms>.

(** [SessionControlProfile{}] with its default member initialisers. *)
Definition SessionControlProfile_default : SessionControlProfile := {|
  prof_profile_version := kSessionControlProfileVersion;
  prof_target_speed_kph := d_zero;
  prof_max_motor_torque_nm := d_zero;
  prof_max_brake_pressure_bar := d_zero;
  prof_service_brake_pressure_bar := d_zero;
  prof_hard_brake_pressure_bar := d_zero;
  prof_max_steering_angle_deg := d_zero;
  prof_speed_pid_kp := d_one;
  prof_speed_pid_ki := d_lit 2 1;
  prof_speed_pid_kd := d_zero;
  prof_speed_pid_derivative_filter_tau_ms := d_lit 100 0;
  prof_speed_pid_max_dt_ms := 100;
  prof_motor_torque_rise_rate_nm_per_s := kDefaultMotorTorqueRiseRateNmPerSecond;
  prof_parking_idle_timeout_ms := 500;
|}.

Definition SessionControlProfile_validate (p : SessionControlProfile) : result unit :=
  throw_if ((prof_parking_idle_timeout_ms p <? 0) || (1000 <? prof_parking_idle_timeout_ms p))
    (InvalidArgument "parking_idle_timeout_ms must be in [0, 1000]");;
  throw_if (negb (prof_profile_version p =? kSessionControlProfileVersion))
    (InvalidArgument "session control profile version must be 4");;
  require_finite_range (prof_target_speed_kph p) d_zero kChassisControlMaxTargetSpeedKph
    "target_speed_kph";;
  require_finite_range (prof_max_motor_torque_nm p) d_zero kMaxFullScaleMotorTorqueNm
    "max_motor_torque_nm";;
  require_finite_range (prof_max_brake_pressure_bar p) d_zero kMaxOrdinaryBrakePressureBar
    "max_brake_pressure_bar";;
  require_finite_range (prof_service_brake_pressure_bar p) d_zero kMaxOrdinaryBrakePressureBar
    "service_brake_pressure_bar";;
  require_finite_range (prof_hard_brake_pressure_bar p) d_zero kMaxOrdinaryBrakePressureBar
    "hard_brake_pressure_bar";;
  throw_if ((prof_service_brake_pressure_bar p >ᵈ prof_hard_brake_pressure_bar p) ||
            (prof_hard_brake_pressure_bar p >ᵈ prof_max_brake_pressure_bar p))
    (InvalidArgument "brake pressure must satisfy service <= hard <= max");;
  require_finite_range (prof_max_steering_angle_deg p) d_zero
    kChassisControlMaxSteeringAngleDeg "max_steering_angle_deg";;
  require_finite_range (prof_speed_pid_kp p) d_zero kMaxSpeedPidGain "speed_pid_kp";;
  throw_if (prof_speed_pid_kp p ≤ᵈ d_zero) (InvalidArgument "speed_pid_kp must be positive");;
  require_finite_range (prof_speed_pid_ki p) d_zero kMaxSpeedPidGain "speed_pid_ki";;
  require_finite_range (prof_speed_pid_kd p) d_zero kMaxSpeedPidGain "speed_pid_kd";;
  require_finite_range (prof_speed_pid_derivative_filter_tau_ms p) d_zero
    kMaxSpeedPidDerivativeFilterTauMs "speed_pid_derivative_filter_tau_ms";;
  throw_if ((prof_speed_pid_max_dt_ms p <? kMinSpeedPidMaxDtMs) ||
            (kMaxSpeedPidMaxDtMs <? prof_speed_pid_max_dt_ms p))
    (InvalidArgument "speed_pid_max_dt_ms must be in [20, 200]");;
  require_finite_range (prof_motor_torque_rise_rate_nm_per_s p) d_zero
    kMaxMotorTorqueRiseRateNmPerSecond "motor_torque_rise_rate_nm_per_s".

(** The defaulted [operator==] of the struct: member-wise C++ [==]. *)
Definition SessionControlProfile_eqb (p q : SessionControlProfile) : bool :=
  (prof_profile_version p =? prof_profile_version q) &&
  (prof_target_speed_kph p =ᵈ prof_target_speed_kph q) &&
  (prof_max_motor_torque_nm p =ᵈ prof_max_motor_torque_nm q) &&
  (prof_max_brake_pressure_bar p =ᵈ prof_max_brake_pressure_bar q) &&
  (prof_service_brake_pressure_bar p =ᵈ prof_service_brake_pressure_bar q) &&
  (prof_hard_brake_pressure_bar p =ᵈ prof_hard_brake_pressure_bar q) &&
  (prof_max_steering_angle_deg p =ᵈ prof_max_steering_angle_deg q) &&
  (prof_speed_pid_kp p =ᵈ prof_speed_pid_kp q) &&
  (prof_speed_pid_ki p =ᵈ prof_speed_pid_ki q) &&
  (prof_speed_pid_kd p =ᵈ prof_speed_pid_kd q) &&
  (prof_speed_pid_derivative_filter_tau_ms p =ᵈ prof_speed_pid_derivative_filter_tau_ms q) &&
  (prof_speed_pid_max_dt_ms p =? prof_speed_pid_max_dt_ms q) &&
  (prof_motor_torque_rise_rate_nm_per_s p =ᵈ prof_motor_torque_rise_rate_nm_per_s q) &&
  (prof_parking_idle_timeout_ms p =? prof_parking_idle_timeout_ms q).

Section SessionControlProfile_json.
Context {J : JsonApi}.

(** The members of the object, in the order of the initialiser list. *)
Definition SessionControlProfile_fields (p : SessionControlProfile) : list (string * json) :=
  [("profile_version", j_int (prof_profile_version p));
   ("parking_idle_timeout_ms", j_int (prof_parking_idle_timeout_ms p));
   ("target_speed_kph", j_double (prof_target_speed_kph p));
   ("max_motor_torque_nm", j_double (prof_max_motor_torque_nm p));
   ("max_brake_pressure_bar", j_double (prof_max_brake_pressure_bar p));
   ("service_brake_pressure_bar", j_double (prof_service_brake_pressure_bar p));
   ("hard_brake_pressure_bar", j_double (prof_hard_brake_pressure_bar p));
   ("max_steering_angle_deg", j_double (prof_max_steering_angle_deg p));
   ("speed_pid_kp", j_double (prof_speed_pid_kp p));
   ("speed_pid_ki", j_double (prof_speed_pid_ki p));
   ("speed_pid_kd", j_double (prof_speed_pid_kd p));
   ("speed_pid_derivative_filter_tau_ms",
    j_double (prof_speed_pid_derivative_filter_tau_ms p));
   ("speed_pid_max_dt_ms", j_int (prof_speed_pid_max_dt_ms p));
   ("motor_torque_rise_rate_nm_per_s",
    j_double (prof_motor_torque_rise_rate_nm_per_s p))].

Definition SessionControlProfile_to_json (p : SessionControlProfile) : result json :=
  SessionControlProfile_validate p;;
  mret (j_object (SessionControlProfile_fields p)).

Definition SessionControlProfile_from_json (value : json) : result SessionControlProfile :=
  throw_if (negb (is_object value))
    (InvalidArgument "session control profile must be a JSON object");;
  profile ←
    rethrow_json (fun what => InvalidArgument ("invalid session control profile: " +:+ what))
      (parking ← j_at "parking_idle_timeout_ms" value;
       throw_if (negb (is_number_integer parking) || j_lt_int parking 0 || j_gt_int parking 1000)
         (InvalidArgument "parking_idle_timeout_ms must be an integer");;
       parking_idle_timeout_ms ← get_int parking;
       profile_version ← j_at "profile_version" value ≫= get_int;
       target_speed_kph ← j_at "target_speed_kph" value ≫= get_double;
       max_motor_torque_nm ← j_at "max_motor_torque_nm" value ≫= get_double;
       max_brake_pressure_bar ← j_at "max_brake_pressure_bar" value ≫= get_double;
       service_brake_pressure_bar ← j_at "service_brake_pressure_bar" value ≫= get_double;
       hard_brake_pressure_bar ← j_at "hard_brake_pressure_bar" value ≫= get_double;
       max_steering_angle_deg ← j_at "max_steering_angle_deg" value ≫= get_double;
       speed_pid_kp ← j_at "speed_pid_kp" value ≫= get_double;
       speed_pid_ki ← j_at "speed_pid_ki" value ≫= get_double;
       speed_pid_kd ← j_at "speed_pid_kd" value ≫= get_double;
       tau ← j_at "speed_pid_derivative_filter_tau_ms" value ≫= get_double;
       speed_pid_max_dt_ms ← j_at "speed_pid_max_dt_ms" value ≫= get_int;
       rise_rate ← j_at "motor_torque_rise_rate_nm_per_s" value ≫= get_double;
       mret (mkSessionControlProfile profile_version target_speed_kph max_motor_torque_nm
               max_brake_pressure_bar service_brake_pressure_bar hard_brake_pressure_bar
               max_steering_angle_deg speed_pid_kp speed_pid_ki speed_pid_kd tau
               speed_pid_max_dt_ms rise_rate parking_idle_timeout_ms));
  SessionControlProfile_validate profile;;
  mret profile.
End SessionControlProfile_json.

(** ** Session control profile request *)

Record SessionControlProfileRequest := mkSessionControlProfileRequest {
  req_protocol_version : Z;
  req_vehicle_id : string;
  req_driver_id : string;
  req_session_id : string;
  req_seq : Z;
  req_sent_at_utc_ms : Z;
  req_control_token : string;
  req_profile : SessionControlProfile;
}.

Definition SessionControlProfileRequest_metadata (r : SessionControlProfileRequest) :
    ProtocolMetadata :=
  mkProtocolMetadata (req_protocol_version r) (req_vehicle_id r) (req_driver_id r)
    (req_session_id r) (req_seq r) (req_sent_at_utc_ms r).

Definition SessionControlProfileRequest_validate (r : SessionControlProfileRequest) :
    result unit :=
  ProtocolMetadata_validate (SessionControlProfileRequest_metadata r);;
  throw_if (string_empty (req_control_token r)) (InvalidArgument "control_token is required");;
  SessionControlProfile_validate (req_profile r).

Section SessionControlProfileRequest_json.
Context {J : JsonApi}.

Definition SessionControlProfileRequest_to_json (r : SessionControlProfileRequest) :
    result json :=
  SessionControlProfileRequest_validate r;;
  let value := ProtocolMetadata_to_json (SessionControlProfileRequest_metadata r) in
  let value := j_set "type" (j_string "session_control_profile") value in
  let value := j_set "control_token" (j_string (req_control_token r)) value in
  profile_json ← SessionControlProfile_to_json (req_profile r);
  mret (j_set_all (j_items profile_json) value).

Definition SessionControlProfileRequest_from_json (value : json) :
    result SessionControlProfileRequest :=
  let wrong := InvalidArgument "type must be session_control_profile" in
  (if negb (is_object value) then Throw wrong
   else type ← value_string "type" "" value;
        throw_if (negb (String.eqb type "session_control_profile")) wrong);;
  request ←
    rethrow_json
      (fun what => InvalidArgument ("invalid session control profile request: " +:+ what))
      (metadata ← ProtocolMetadata_from_json value;
       control_token ← j_at "control_token" value ≫= get_string;
       profile ← SessionControlProfile_from_json value;
       mret (mkSessionControlProfileRequest (md_protocol_version metadata)
               (md_vehicle_id metadata) (md_driver_id metadata) (md_session_id metadata)
               (md_seq metadata) (md_sent_at_utc_ms metadata) control_token profile));
  SessionControlProfileRequest_validate request;;
  mret request.
End SessionControlProfileRequest_json.

(** ** Session control profile result *)

Record SessionControlProfileResult := mkSessionControlProfileResult {
  res_protocol_version : Z;
  res_vehicle_id : string;
  res_driver_id : string;
  res_session_id : string;
  res_seq : Z;
  res_sent_at_utc_ms : Z;
  res_accepted : bool;
  res_idempotent : bool;
  res_applied_revision : Z;
  res_reason : string;
  res_effective_profile : option SessionControlProfile;
}.

#[global] Instance eta_SessionControlProfileResult : Settable SessionControlProfileResult :=
  fields! mkSessionControlProfileResult
    <res_protocol_version; res_vehicle_id; res_driver_id; res_session_id; res_seq;
     res_sent_at_utc_ms; res_accepted; res_idempotent; res_applied_revision; res_reason;
     res_effective_profile>.

Definition SessionControlProfileResult_metadata (r : SessionControlProfileResult) :
    ProtocolMetadata :=
  mkProtocolMetadata (res_protocol_version r) (res_vehicle_id r) (res_driver_id r)
    (res_session_id r) (res_seq r) (res_sent_at_utc_ms r).

Definition SessionControlProfileResult_validate (r : SessionControlProfileResult) :
    result unit :=
  ProtocolMetadata_validate (SessionControlProfileResult_metadata r);;
  throw_if (string_empty (res_reason r)) (InvalidArgument "profile result reason is required");;
  match res_effective_profile r with
  | Some profile => SessionControlProfile_validate profile
  | None => mret tt
  end;;
  throw_if (res_accepted r && negb (bool_decide (is_Some (res_effective_profile r))))
    (InvalidArgument "accepted profile result requires an effective profile");;
  throw_if (res_accepted r && negb (res_applied_revision r =? res_seq r))
    (InvalidArgument "accepted profile result requires applied_revision equal to seq");;
  throw_if (negb (res_accepted r) && negb (res_applied_revision r =? 0))
    (InvalidArgument "rejected profile result requires applied_revision zero").

Section SessionControlProfileResult_json.
Context {J : JsonApi}.

Definition SessionControlProfileResult_to_json (r : SessionControlProfileResult) :
    result json :=
  SessionControlProfileResult_validate r;;
  let value := ProtocolMetadata_to_json (SessionControlProfileResult_metadata r) in
  let value := j_set "event" (j_string "session_control_profile_result") value in
  let value := j_set "last_request_seq" (j_uint (res_seq r)) value in
  let value := j_set "active"
                 (j_bool (bool_decide (is_Some (res_effective_profile r)))) value in
  let value := j_set "accepted" (j_bool (res_accepted r)) value in
  let value := j_set "idempotent" (j_bool (res_idempotent r)) value in
  let value := j_set "applied_revision" (j_uint (res_applied_revision r)) value in
  let value := j_set "reason" (j_string (res_reason r)) value in
  effective ← match res_effective_profile r with
              | Some profile => SessionControlProfile_to_json profile
              | None => mret j_null
              end;
  mret (j_set "effective_profile" effective value).

Definition SessionControlProfileResult_from_json (value : json) :
    result SessionControlProfileResult :=
  let wrong := InvalidArgument "event must be session_control_profile_result" in
  (if negb (is_object value) then Throw wrong
   else event ← value_string "event" "" value;
        throw_if (negb (String.eqb event "session_control_profile_result")) wrong);;
  parsed ←
    rethrow_json
      (fun what => InvalidArgument ("invalid session control profile result: " +:+ what))
      (metadata ← ProtocolMetadata_from_json value;
       last_request_seq ← j_at "last_request_seq" value ≫= get_uint64;
       active ← j_at "active" value ≫= get_bool;
       accepted ← j_at "accepted" value ≫= get_bool;
       idempotent ← j_at "idempotent" value ≫= get_bool;
       applied_revision ← j_at "applied_revision" value ≫= get_uint64;
       reason ← j_at "reason" value ≫= get_string;
       effective ← j_at "effective_profile" value;
       effective_profile ←
         (if is_null effective then mret None
          else profile ← SessionControlProfile_from_json effective; mret (Some profile));
       mret (last_request_seq, active,
             mkSessionControlProfileResult (md_protocol_version metadata)
               (md_vehicle_id metadata) (md_driver_id metadata) (md_session_id metadata)
               (md_seq metadata) (md_sent_at_utc_ms metadata) accepted idempotent
               applied_revision reason effective_profile));
  let '(last_request_seq, active, parsed_result) := parsed in
  throw_if (negb (last_request_seq =? res_seq parsed_result))
    (InvalidArgument
       "session control profile result last_request_seq does not match seq");;
  throw_if (negb (Bool.eqb active (bool_decide (is_Some (res_effective_profile parsed_result)))))
    (InvalidArgument
       "session control profile result active flag does not match effective_profile");;
  SessionControlProfileResult_validate parsed_result;;
  mret parsed_result.
End SessionControlProfileResult_json.

(** ** What a validated message guarantees *)
Lemma require_finite_range_ok v lo hi label :
  require_finite_range v lo hi label = Ok tt <->
  d_isfinite v = true /\ (v <ᵈ lo) = false /\ (v >ᵈ hi) = false.
Proof.
  unfold require_finite_range. rewrite throw_if_ok.
  rewrite !orb_false_iff, negb_false_iff. tauto.
Qed.

Lemma require_finite_range_bounds v lo hi label :
  d_is_nan lo = false -> d_is_nan hi = false ->
  require_finite_range v lo hi label = Ok tt ->
  d_isfinite v = true /\ (lo ≤ᵈ v) = true /\ (v ≤ᵈ hi) = true.
Proof.
  intros Hlo Hhi H. apply require_finite_range_ok in H as (Hf & H1 & H2).
  pose proof (d_isfinite_not_nan _ Hf). eauto using d_not_lt_le.
Qed.

(** Between finite bounds the check is exactly the two comparisons. *)
Lemma require_finite_range_view v lo hi label :
  d_isfinite lo = true -> d_isfinite hi = true ->
  require_finite_range v lo hi label =
    if (lo ≤ᵈ v) && (v ≤ᵈ hi) then Ok tt
    else Throw (InvalidArgument
       (label +:+ " must be a finite value in [" +:+ to_string_D lo +:+ ", " +:+
        to_string_D hi +:+ "]")).
Proof.
  intros Hlo Hhi. unfold require_finite_range, throw_if.
  destruct ((lo ≤ᵈ v) && (v ≤ᵈ hi)) eqn:E.
  - bool_prop. rewrite (d_between_finite lo v hi) by done.
    by rewrite !d_le_not_lt by done.
  - destruct (d_isfinite v) eqn:Hf; [| done]. simpl.
    pose proof (d_isfinite_not_nan _ Hf). pose proof (d_isfinite_not_nan _ Hlo).
    pose proof (d_isfinite_not_nan _ Hhi).
    destruct (v <ᵈ lo) eqn:E1, (v >ᵈ hi) eqn:E2; try done.
    by rewrite !d_not_lt_le in E by done.
Qed.

Lemma result_seq_ok (r k : result unit) : (r ;; k) = Ok tt <-> r = Ok tt /\ k = Ok tt.
Proof.
  rewrite result_bind_ok. split.
  - intros ([] & H1 & H2). auto.
  - intros [H1 H2]. eauto.
Qed.

(** Splits [validate x = Ok tt] into one hypothesis per check. *)
Ltac validated :=
  repeat match goal with
  | H : (_ ;; _) = Ok tt |- _ => apply result_seq_ok in H as [? H]
  | H : throw_if _ _ = Ok tt |- _ => apply throw_if_ok in H
  | H : require_finite_range _ _ _ _ = Ok tt |- _ =>
      apply require_finite_range_bounds in H as (? & ? & ?); [| reflexivity | reflexivity]
  end.

(** The parts of a request or a parsed object that make up the metadata. *)
Lemma ProtocolMetadata_validate_ok m :
  ProtocolMetadata_validate m = Ok tt <->
  md_protocol_version m = kProtocolVersion /\ md_vehicle_id m <> "" /\
  md_driver_id m <> "" /\ md_session_id m <> "" /\ md_seq m <> 0 /\
  0 <= md_sent_at_utc_ms m.
Proof.
  unfold ProtocolMetadata_validate. rewrite !result_seq_ok, !throw_if_ok.
  unfold string_empty. rewrite negb_false_iff, Z.eqb_eq, !String.eqb_neq, Z.eqb_neq, Z.ltb_ge.
  tauto.
Qed.

(** ** Round trips *)

Section roundtrip.
Context {J : JsonApi} {L : JsonLaws}.

(** [value] is an object that holds the members of [m]. *)
Definition has_metadata (value : json) (m : ProtocolMetadata) : Prop :=
  is_object value = true /\
  j_at "protocol_version" value = Ok (j_int (md_protocol_version m)) /\
  j_at "vehicle_id" value = Ok (j_string (md_vehicle_id m)) /\
  j_at "driver_id" value = Ok (j_string (md_driver_id m)) /\
  j_at "session_id" value = Ok (j_string (md_session_id m)) /\
  j_at "seq" value = Ok (j_uint (md_seq m)) /\
  j_at "sent_at_utc_ms" value = Ok (j_int (md_sent_at_utc_ms m)).

Definition metadata_keys : list string :=
  ["protocol_version"; "vehicle_id"; "driver_id"; "session_id"; "seq"; "sent_at_utc_ms"].

(** The members fit the C++ fields they are stored in. *)
Definition metadata_typed (m : ProtocolMetadata) : bool :=
  is_i32 (md_protocol_version m) && is_u64 (md_seq m) && is_i64 (md_sent_at_utc_ms m).

(** [value] is an object that holds the members of [p]. *)
Definition has_profile (value : json) (p : SessionControlProfile) : Prop :=
  is_object value = true /\
  forall k v, assoc k (SessionControlProfile_fields p) = Some v -> j_at k value = Ok v.

Definition profile_typed (p : SessionControlProfile) : bool :=
  is_i32 (prof_profile_version p) && is_i32 (prof_parking_idle_timeout_ms p) &&
  is_i32 (prof_speed_pid_max_dt_ms p).

Lemma has_metadata_to_json m : has_metadata (ProtocolMetadata_to_json m) m.
Proof.
  unfold has_metadata, ProtocolMetadata_to_json.
  split; [apply is_object_object |].
  repeat split; (apply j_at_object; [| reflexivity]); by apply (bool_decide_unpack _).
Qed.

Lemma has_metadata_set value m k v :
  string_in k metadata_keys = false -> has_metadata value m -> has_metadata (j_set k v value) m.
Proof.
  unfold has_metadata. intros Hk (Ho & H1 & H2 & H3 & H4 & H5 & H6).
  simpl in Hk. rewrite !orb_false_iff in Hk. destruct Hk as (K1 & K2 & K3 & K4 & K5 & K6 & _).
  split; [by apply is_object_set |].
  rewrite !j_at_set by done. rewrite !(String.eqb_sym _ k), K1, K2, K3, K4, K5, K6. auto 10.
Qed.

Lemma ProtocolMetadata_from_json_has value m :
  has_metadata value m -> metadata_typed m = true -> ProtocolMetadata_validate m = Ok tt ->
  ProtocolMetadata_from_json value = Ok m.
Proof.
  intros (Ho & H1 & H2 & H3 & H4 & H5 & H6) Ht Hv.
  unfold metadata_typed in Ht. bool_prop.
  unfold ProtocolMetadata_from_json. rewrite Ho, H1, H2, H3, H4, H5, H6. simpl.
  rewrite get_int_int, !get_string_string, get_uint64_uint, get_int64_int by done. simpl.
  destruct m; simpl in *. by rewrite Hv.
Qed.

Lemma has_profile_fields p : has_profile (j_object (SessionControlProfile_fields p)) p.
Proof.
  split; [apply is_object_object |]. intros k v Hin.
  apply j_at_object; [by apply (bool_decide_unpack _) | exact Hin].
Qed.

Lemma SessionControlProfile_from_json_has value p :
  has_profile value p -> profile_typed p = true -> SessionControlProfile_validate p = Ok tt ->
  SessionControlProfile_from_json value = Ok p.
Proof.
  intros [Ho Hf] Ht Hv. unfold profile_typed in Ht. bool_prop.
  assert (Hpark : (prof_parking_idle_timeout_ms p <? 0) = false /\
                  (1000 <? prof_parking_idle_timeout_ms p) = false).
  { apply result_seq_ok in Hv as [Hv _]. apply throw_if_ok, orb_false_iff in Hv. done. }
  destruct Hpark as [Hp1 Hp2].
  unfold SessionControlProfile_from_json. rewrite Ho. simpl.
  repeat match goal with
  | |- context [j_at ?k value] => rewrite (Hf k _ eq_refl); simpl
  end.
  rewrite is_number_integer_int, j_lt_int_int, j_gt_int_int, Hp1, Hp2. simpl.
  rewrite !get_int_int, !get_double_double by done. simpl.
  destruct p; simpl in *. by rewrite Hv.
Qed.

Lemma assoc_elem_of {A} k (v : A) kvs : assoc k kvs = Some v -> (k, v) ∈ kvs.
Proof.
  induction kvs as [| [k' v'] kvs IH]; simpl; [done |].
  destruct (String.eqb_spec k k') as [<- |]; intros H.
  - injection H as <-. apply list_elem_of_here.
  - apply list_elem_of_further. auto.
Qed.

Lemma has_profile_set_all value fields p :
  is_object value = true -> Permutation fields (SessionControlProfile_fields p) ->
  has_profile (j_set_all fields value) p.
Proof.
  intros Ho HP. split; [by apply is_object_set_all |]. intros k v Hk.
  apply j_at_set_all_in; [done | |].
  - rewrite HP. by apply (bool_decide_unpack _).
  - rewrite HP. by apply assoc_elem_of.
Qed.

Lemma has_metadata_set_all value fields m :
  (forall k, k ∈ metadata_keys -> k ∉ fields.*1) ->
  has_metadata value m -> has_metadata (j_set_all fields value) m.
Proof.
  intros Hk (Ho & H). split; [by apply is_object_set_all |].
  rewrite !j_at_set_all_out by (try done; apply Hk; by apply (bool_decide_unpack _)).
  exact H.
Qed.

(** [json_lookup]: reads a key of an object built by [j_set]. *)
Local Ltac json_object :=
  repeat first [apply is_object_set | apply is_object_object | apply is_object_set_all].
Local Ltac json_lookup :=
  repeat (rewrite j_at_set by json_object; cbn [String.eqb Ascii.eqb Bool.eqb]).
Local Ltac json_metadata :=
  repeat (apply has_metadata_set; [reflexivity |]); apply has_metadata_to_json.

(** [value] holds the members of [c] under their keys. *)
Definition has_command (value : json) (c : ControlCommand) : Prop :=
  has_metadata value (ControlCommand_metadata c) /\
  j_at "type" value = Ok (j_string "control_command") /\ j_at "gear" value = Ok (j_string (cmd_gear c)) /\
  j_at "steering" value = Ok (j_double (cmd_steering c)) /\
  j_at "throttle" value = Ok (j_double (cmd_throttle c)) /\
  j_at "brake" value = Ok (j_double (cmd_brake c)) /\ j_at "estop" value = Ok (j_bool (cmd_estop c)) /\
  j_at "operator_active" value = Ok (j_bool (cmd_operator_active c)) /\
  j_at "control_token" value = Ok (j_string (cmd_control_token c)).

Lemma has_command_to_json c : has_command (ControlCommand_to_json c) c.
Proof.
  unfold has_command. split; [json_metadata |]. unfold ControlCommand_to_json. cbv zeta.
  split_and!; by json_lookup.
Qed.

Definition command_keys : list string :=
  metadata_keys ++
  ["type"; "gear"; "steering"; "throttle"; "brake"; "estop"; "operator_active"; "control_token"].

(** Other keys do not matter. *)
Lemma has_command_set_all value fields c :
  (forall k, k ∈ command_keys -> k ∉ fields.*1) -> has_command value c -> has_command (j_set_all fields value) c.
Proof.
  intros Hk (Hm & H). split; [apply has_metadata_set_all; [| done]; intros k Hin; apply Hk, elem_of_app; by left |].
  rewrite !j_at_set_all_out by (first [apply Hm | apply Hk; by apply (bool_decide_unpack _)]). exact H.
Qed.

Lemma ControlCommand_from_json_has value c :
  has_command value c -> metadata_typed (ControlCommand_metadata c) = true ->
  ControlCommand_validate c = Ok tt -> ControlCommand_from_json value = Ok c.
Proof.
  intros (Hm & Htype & Hgear & Hsteering & Hthrottle & Hbrake & Hestop & Hactive & Htoken) Ht Hv.
  unfold ControlCommand_from_json.
  assert (Hmv : ProtocolMetadata_validate (ControlCommand_metadata c) = Ok tt)
    by (by apply result_seq_ok in Hv as [? _]).
  rewrite (proj1 Hm). simpl. rewrite (value_string_at "type" "" value _ (proj1 Hm) Htype).
  rewrite get_string_string. simpl.
  rewrite (ProtocolMetadata_from_json_has value _ Hm Ht Hmv). simpl.
  rewrite (value_bool_at "estop" false value _ (proj1 Hm) Hestop).
  rewrite (value_bool_at "operator_active" false value _ (proj1 Hm) Hactive).
  rewrite Hgear, Hsteering, Hthrottle, Hbrake, Htoken. simpl.
  rewrite !get_string_string, !get_double_double, !get_bool_bool. simpl.
  destruct c; simpl in *. by rewrite Hv.
Qed.

(** Printing a well-typed, valid control command and parsing it back is the
    identity. *)
Lemma ControlCommand_json_roundtrip (c : ControlCommand) :
  metadata_typed (ControlCommand_metadata c) = true ->
  ControlCommand_validate c = Ok tt ->
  ControlCommand_from_json (ControlCommand_to_json c) = Ok c.
Proof. apply ControlCommand_from_json_has, has_command_to_json. Qed.

(** An object with the members of a request under their keys reads as the request. *)
Lemma SessionControlProfileRequest_from_json_has value r :
  has_metadata value (SessionControlProfileRequest_metadata r) ->
  j_at "type" value = Ok (j_string "session_control_profile") ->
  j_at "control_token" value = Ok (j_string (req_control_token r)) -> has_profile value (req_profile r) ->
  metadata_typed (SessionControlProfileRequest_metadata r) = true -> profile_typed (req_profile r) = true ->
  SessionControlProfileRequest_validate r = Ok tt ->
  SessionControlProfileRequest_from_json value = Ok r.
Proof.
  intros Hm Htype Htok Hp Ht Hpt Hv. pose proof Hv as Hv'. unfold SessionControlProfileRequest_validate in Hv'.
  apply result_seq_ok in Hv' as [Hmv Hv']. apply result_seq_ok in Hv' as [_ Hpv].
  unfold SessionControlProfileRequest_from_json. rewrite (proj1 Hm). cbn [negb].
  rewrite (value_string_at "type" "" _ _ (proj1 Hm) Htype), get_string_string. simpl.
  rewrite (ProtocolMetadata_from_json_has _ _ Hm Ht Hmv). simpl.
  rewrite Htok. simpl. rewrite get_string_string. simpl.
  rewrite (SessionControlProfile_from_json_has _ _ Hp Hpt Hpv). simpl.
  destruct r; simpl in *. by rewrite Hv.
Qed.

Lemma SessionControlProfileRequest_json_roundtrip (r : SessionControlProfileRequest) :
  metadata_typed (SessionControlProfileRequest_metadata r) = true ->
  profile_typed (req_profile r) = true ->
  SessionControlProfileRequest_validate r = Ok tt ->
  (SessionControlProfileRequest_to_json r ≫= SessionControlProfileRequest_from_json) = Ok r.
Proof.
  intros Ht Hpt Hv. unfold SessionControlProfileRequest_to_json.
  pose proof Hv as Hv'. unfold SessionControlProfileRequest_validate in Hv'.
  apply result_seq_ok in Hv' as [_ Hv']. apply result_seq_ok in Hv' as [_ Hpv].
  rewrite Hv. unfold SessionControlProfile_to_json. rewrite Hpv.
  change (mret ?x) with (Ok x). cbn [mbind result_bind].
  set (items := j_items _). set (base := j_set "control_token" _ _).
  assert (HP : Permutation items (SessionControlProfile_fields (req_profile r)))
    by (apply j_items_object; by apply (bool_decide_unpack _)).
  assert (Hb : is_object base = true) by (unfold base, ProtocolMetadata_to_json; json_object).
  assert (Hout : forall k, k ∈ metadata_keys ++ ["type"; "control_token"] -> k ∉ items.*1).
  { intros k Hk. rewrite HP. revert k Hk. apply Forall_forall. by apply (bool_decide_unpack _). }
  apply SessionControlProfileRequest_from_json_has; try done.
  - apply has_metadata_set_all; [| json_metadata]. intros k Hk. apply Hout. apply elem_of_app. by left.
  - rewrite j_at_set_all_out by (try done; apply Hout; set_solver).
    unfold base, ProtocolMetadata_to_json. by json_lookup.
  - rewrite j_at_set_all_out by (try done; apply Hout; set_solver).
    unfold base, ProtocolMetadata_to_json. by json_lookup.
  - by apply has_profile_set_all.
Qed.

Lemma SessionControlProfileResult_json_roundtrip (r : SessionControlProfileResult) :
  metadata_typed (SessionControlProfileResult_metadata r) = true ->
  is_u64 (res_applied_revision r) = true ->
  (forall p, res_effective_profile r = Some p -> profile_typed p = true) ->
  SessionControlProfileResult_validate r = Ok tt ->
  (SessionControlProfileResult_to_json r ≫= SessionControlProfileResult_from_json) = Ok r.
Proof.
  intros Ht Hrev Hpt Hv. unfold SessionControlProfileResult_to_json. rewrite Hv.
  pose proof Hv as Hv'. unfold SessionControlProfileResult_validate in Hv'.
  apply result_seq_ok in Hv' as [Hmv Hv']. apply result_seq_ok in Hv' as [_ Hv'].
  apply result_seq_ok in Hv' as [Hpv _].
  assert (Heff : exists effective,
    (match res_effective_profile r with
     | Some p => SessionControlProfile_to_json p
     | None => mret j_null
     end = Ok effective) /\
    ((if is_null effective then mret None
      else (profile ← SessionControlProfile_from_json effective; mret (Some profile))) =
     Ok (res_effective_profile r))).
  { destruct (res_effective_profile r) as [p |] eqn:Ep.
    - unfold SessionControlProfile_to_json. rewrite Hpv. eexists; split; [done |].
      rewrite is_null_object.
      by rewrite (SessionControlProfile_from_json_has _ p (has_profile_fields p) (Hpt p eq_refl) Hpv).
    - eexists; split; [done |]. by rewrite is_null_null. }
  destruct Heff as (effective & E1 & E2). cbn [mbind result_bind]. rewrite E1.
  change (mret ?x) with (Ok x). cbn [mbind result_bind].
  set (value := j_set "effective_profile" _ _).
  assert (Hm : has_metadata value (SessionControlProfileResult_metadata r)) by json_metadata.
  unfold SessionControlProfileResult_from_json. rewrite (proj1 Hm). cbn [negb].
  rewrite (value_string_at "event" "" _ (j_string "session_control_profile_result"));
    [| apply Hm | unfold value, ProtocolMetadata_to_json; by json_lookup].
  rewrite get_string_string. simpl.
  rewrite (ProtocolMetadata_from_json_has _ _ Hm Ht Hmv). simpl.
  unfold value, ProtocolMetadata_to_json. json_lookup. cbn [mbind result_bind].
  assert (Hseq : is_u64 (res_seq r) = true) by (unfold metadata_typed in Ht; by bool_prop).
  rewrite !get_uint64_uint, !get_bool_bool, get_string_string by done. cbn [mbind result_bind].
  rewrite E2. cbn [mbind result_bind rethrow_json mret result_ret res_seq res_effective_profile].
  rewrite Z.eqb_refl, Bool.eqb_reflx. cbn [negb throw_if mbind result_bind].
  destruct r; simpl in *. by rewrite Hv.
Qed.
End roundtrip.

(** ** Properties *)

(** Session states.  Parsing accepts exactly the printed names: every state
    prints to a name that parses back to it, and every name that parses is the
    printed form of the state it parses to (so distinct states have distinct
    names). *)
Theorem session_state_roundtrip (name : string) (state : SessionState) :
  session_state_from_string name = Ok state <-> name = SessionState_to_string state.
Proof.
  unfold session_state_from_string. split.
  - repeat match goal with
      | |- context [String.eqb name ?n] => destruct (String.eqb_spec name n) as [-> |]
      end; intros H; congruence || (injection H as <-; reflexivity).
  - intros ->. by destruct state.
Qed.

(** A command whose requests are in the ranges the vehicle expects. *)
Record command_in_range (c : ControlCommand) : Prop := {
  cir_version : cmd_protocol_version c = 1;
  cir_ids : cmd_vehicle_id c <> "" /\ cmd_driver_id c <> "" /\ cmd_session_id c <> "" /\
            cmd_control_token c <> "";
  cir_seq : cmd_seq c <> 0;
  cir_sent : 0 <= cmd_sent_at_utc_ms c;
  cir_gear : cmd_gear c ∈ ["P"; "R"; "N"; "D"];
  cir_finite : d_isfinite (cmd_steering c) && d_isfinite (cmd_throttle c) &&
               d_isfinite (cmd_brake c) = true;
  cir_steering : (d_lit (-1) 0 ≤ᵈ cmd_steering c) && (cmd_steering c ≤ᵈ d_one) = true;
  cir_throttle : (d_zero ≤ᵈ cmd_throttle c) && (cmd_throttle c ≤ᵈ d_one) = true;
  cir_brake : (d_zero ≤ᵈ cmd_brake c) && (cmd_brake c ≤ᵈ d_one) = true;
}.

Lemma string_in_elem_of s xs : string_in s xs = true <-> s ∈ xs.
Proof.
  unfold string_in. rewrite existsb_exists. split.
  - intros (x & Hin & E). apply String.eqb_eq in E as ->. by apply list_elem_of_In.
  - intros Hin. exists s. split; [by apply list_elem_of_In | apply String.eqb_refl].
Qed.

(** What validation promises. *)
Lemma ControlCommand_validate_range (c : ControlCommand) :
  ControlCommand_validate c = Ok tt -> command_in_range c.
Proof.
  intros Hv. unfold ControlCommand_validate in Hv.
  apply result_seq_ok in Hv as [Hm Hv]. apply ProtocolMetadata_validate_ok in Hm. simpl in Hm.
  apply result_seq_ok in Hv as [Htok Hv]. apply result_seq_ok in Hv as [Hgear Hv].
  apply throw_if_ok, String.eqb_neq in Htok. apply throw_if_ok, negb_false_iff in Hgear.
  apply string_in_elem_of in Hgear. validated.
  destruct Hm as (M1 & M2 & M3 & M4 & M5 & M6).
  split; try done; repeat (apply andb_true_intro; split); done.
Qed.

(** Parsing is validation.  Whatever the JSON text and library, a command
    that [from_json] returns is versioned, identified, sequenced, names one of
    the four gears, and carries finite steering in [-1, 1] and throttle and
    brake in [0, 1]: no NaN and no infinity gets through. *)
Theorem parsed_command_in_range {J : JsonApi} (value : json) (c : ControlCommand) :
  ControlCommand_from_json value = Ok c -> command_in_range c.
Proof.
  unfold ControlCommand_from_json. intros H.
  apply throw_if_seq in H as [_ H]. apply result_bind_ok in H as (type & _ & H).
  apply throw_if_seq in H as [_ H]. apply result_bind_ok in H as (c' & _ & H).
  apply result_bind_ok in H as ([] & Hv & H). injection H as ->.
  by apply ControlCommand_validate_range.
Qed.

Definition command_json_example (throttle : double) : JsonModel.value :=
  @ControlCommand_to_json JsonModel.api
    (mkControlCommand 1 "v" "d" "s" 7 1000 "D" (d_lit (-5) 1) throttle d_zero false "tok" true).

Lemma parsed_command_in_range_witness :
  exists c, @ControlCommand_from_json JsonModel.api (command_json_example (d_lit 25 2)) = Ok c /\
    command_in_range c.
Proof.
  eexists. split; [vm_compute; reflexivity |].
  apply (@parsed_command_in_range JsonModel.api (command_json_example (d_lit 25 2))).
  vm_compute. reflexivity.
Defined.

(** A profile within the limits every vehicle enforces. *)
Record profile_in_range (p : SessionControlProfile) : Prop := {
  pir_version : prof_profile_version p = 4;
  pir_speed : (d_zero ≤ᵈ prof_target_speed_kph p) &&
              (prof_target_speed_kph p ≤ᵈ kChassisControlMaxTargetSpeedKph) = true;
  pir_torque : (d_zero ≤ᵈ prof_max_motor_torque_nm p) &&
               (prof_max_motor_torque_nm p ≤ᵈ d_lit 640 0) = true;
  pir_brake : (d_zero ≤ᵈ prof_service_brake_pressure_bar p) &&
              (prof_service_brake_pressure_bar p ≤ᵈ prof_hard_brake_pressure_bar p) &&
              (prof_hard_brake_pressure_bar p ≤ᵈ prof_max_brake_pressure_bar p) &&
              (prof_max_brake_pressure_bar p ≤ᵈ d_lit 3276 1) = true;
  pir_steering : (d_zero ≤ᵈ prof_max_steering_angle_deg p) &&
                 (prof_max_steering_angle_deg p ≤ᵈ d_lit 30 0) = true;
  pir_kp : (d_zero <ᵈ prof_speed_pid_kp p) && (prof_speed_pid_kp p ≤ᵈ d_lit 100 0) = true;
  pir_ki : (d_zero ≤ᵈ prof_speed_pid_ki p) && (prof_speed_pid_ki p ≤ᵈ d_lit 100 0) = true;
  pir_kd : (d_zero ≤ᵈ prof_speed_pid_kd p) && (prof_speed_pid_kd p ≤ᵈ d_lit 100 0) = true;
  pir_dt : 20 <= prof_speed_pid_max_dt_ms p <= 200;
  pir_idle : 0 <= prof_parking_idle_timeout_ms p <= 1000;
}.

Lemma d_not_le_lt a b :
  d_is_nan a = false -> d_is_nan b = false -> (a ≤ᵈ b) = false -> (b <ᵈ a) = true.
Proof. double_order. Qed.

Lemma SessionControlProfile_validate_range (p : SessionControlProfile) :
  SessionControlProfile_validate p = Ok tt -> profile_in_range p.
Proof.
  intros Hv. unfold SessionControlProfile_validate in Hv. validated. bool_prop.
  split; try done; try (repeat (apply andb_true_intro; split); try done); try lia.
  - apply d_not_lt_le; [by apply d_isfinite_not_nan .. | done].
  - apply d_not_lt_le; [by apply d_isfinite_not_nan .. | done].
  - apply d_not_le_lt; [by apply d_isfinite_not_nan | done | done].
Qed.

(** A valid profile has no NaN: the defaulted comparison finds it equal to itself. *)
Lemma SessionControlProfile_eqb_refl (p : SessionControlProfile) :
  SessionControlProfile_validate p = Ok tt -> SessionControlProfile_eqb p p = true.
Proof.
  intros Hv. unfold SessionControlProfile_validate in Hv. validated.
  unfold SessionControlProfile_eqb. by rewrite !Z.eqb_refl, !d_eq_refl.
Qed.

(** Profile requests.  A session-profile request that parses carries a
    profile inside the vehicle-independent envelope: speed, torque and steering
    limits bounded by the hardware, ordered service, hard and maximum brake
    pressures, PID gains in range with a strictly positive proportional gain. *)
Theorem parsed_profile_in_range {J : JsonApi} (value : json) (r : SessionControlProfileRequest) :
  SessionControlProfileRequest_from_json value = Ok r -> profile_in_range (req_profile r).
Proof.
  unfold SessionControlProfileRequest_from_json. intros H.
  apply result_bind_ok in H as ([] & _ & H). apply result_bind_ok in H as (r' & _ & H).
  apply result_bind_ok in H as ([] & Hv & H). injection H as ->.
  apply result_seq_ok in Hv as [_ Hv]. apply result_seq_ok in Hv as [_ Hv].
  by apply SessionControlProfile_validate_range.
Qed.

Definition profile_request_example : SessionControlProfileRequest :=
  mkSessionControlProfileRequest 1 "v" "d" "s" 3 1000 "tok"
    (mkSessionControlProfile 4 (d_lit 30 0) (d_lit 200 0) (d_lit 100 0) (d_lit 40 0) (d_lit 80 0)
       (d_lit 25 0) d_one (d_lit 2 1) d_zero (d_lit 100 0) 100 d_zero 500).

Definition profile_json_example : JsonModel.value :=
  match @SessionControlProfileRequest_to_json JsonModel.api profile_request_example with
  | Ok v => v
  | Throw _ => JsonModel.JNull
  end.

Lemma parsed_profile_in_range_witness : profile_in_range (req_profile profile_request_example).
Proof.
  apply (@parsed_profile_in_range JsonModel.api profile_json_example profile_request_example).
  vm_compute. reflexivity.
Defined.

(** The wire format.  For every JSON library that reads back what it stored,
    printing and parsing is the identity on valid messages whose fields fit
    their C++ types: control commands, session-profile requests and
    session-profile results, the optional effective profile included. *)
Theorem wire_roundtrip {J : JsonApi} (L : JsonLaws) :
  (forall c, metadata_typed (ControlCommand_metadata c) = true ->
     ControlCommand_validate c = Ok tt ->
     ControlCommand_from_json (ControlCommand_to_json c) = Ok c) /\
  (forall r, metadata_typed (SessionControlProfileRequest_metadata r) = true ->
     profile_typed (req_profile r) = true -> SessionControlProfileRequest_validate r = Ok tt ->
     (SessionControlProfileRequest_to_json r ≫= SessionControlProfileRequest_from_json) = Ok r) /\
  (forall r, metadata_typed (SessionControlProfileResult_metadata r) = true ->
     is_u64 (res_applied_revision r) = true ->
     (forall p, res_effective_profile r = Some p -> profile_typed p = true) ->
     SessionControlProfileResult_validate r = Ok tt ->
     (SessionControlProfileResult_to_json r ≫= SessionControlProfileResult_from_json) = Ok r).
Proof.
  split_and!.
  - apply ControlCommand_json_roundtrip.
  - apply SessionControlProfileRequest_json_roundtrip.
  - apply SessionControlProfileResult_json_roundtrip.
Qed.

Lemma wire_roundtrip_witness :
  let c := mkControlCommand 1 "v" "d" "s" 7 1000 "D" (d_lit (-5) 1) d_one d_zero false "tok" true in
  let r := profile_request_example in
  let res := mkSessionControlProfileResult 1 "v" "d" "s" 3 1100 true false 3 "accepted"
               (Some (req_profile r)) in
  @ControlCommand_from_json JsonModel.api (@ControlCommand_to_json JsonModel.api c) = Ok c /\
  (@SessionControlProfileRequest_to_json JsonModel.api r ≫=
   @SessionControlProfileRequest_from_json JsonModel.api) = Ok r /\
  (@SessionControlProfileResult_to_json JsonModel.api res ≫=
   @SessionControlProfileResult_from_json JsonModel.api) = Ok res.
Proof.
  intros c r res.
  destruct (@wire_roundtrip JsonModel.api JsonModel.laws) as (H1 & H2 & H3).
  split_and!.
  - apply H1; vm_compute; reflexivity.
  - apply H2; vm_compute; reflexivity.
  - apply H3.
    + vm_compute. reflexivity.
    + vm_compute. reflexivity.
    + intros p E. apply (inj Some) in E as <-. vm_compute. reflexivity.
    + vm_compute. reflexivity.
Defined.
