(* ===== verification/Intent.v ===== *)
(** Intent: the native control intent store (core.hpp:82-141, core.cpp:1069-1171).

    The store holds the latest browser input.  [update] and [sample] are
    the mutex-protected member functions, [invalidate] and [reset] the other two
    mutators; each runs atomically, so an execution is a sequence of them
    ([intent_step], [intent_reachable]).  The theorems: an emergency stop is
    sticky until [reset], input that needs a fresh neutral is never sampled as
    motion, expired motion stays withdrawn until a neutral intent is accepted,
    and the sequence number of a browser page never goes back. *)
From S2P Require Export Protocol.

Record NativeControlIntent := mkNativeControlIntent {
  int_ui_instance_id : string;
  int_intent_seq : Z;
  int_gear : string;
  int_steering : double;
  int_throttle : double;
  int_brake : double;
  int_estop : bool;
}.

#[global] Instance eta_NativeControlIntent : Settable NativeControlIntent :=
  fields! mkNativeControlIntent
    <int_ui_instance_id; int_intent_seq; int_gear; int_steering; int_throttle; int_brake;
     int_estop>.

(** The default member initialisers of the struct. *)
Definition NativeControlIntent_default : NativeControlIntent :=
  mkNativeControlIntent "" 0 "N" d_zero d_zero d_zero false.

(** [std::isalnum] in the C locale, or a dash or an underscore. *)
Definition ui_instance_id_char (c : ascii) : bool :=
  let n := Ascii.nat_of_ascii c in
  ((48 <=? n) && (n <=? 57) || (65 <=? n) && (n <=? 90) || (97 <=? n) && (n <=? 122) ||
   (n =? 45) || (n =? 95))%nat.

Definition NativeControlIntent_validate (i : NativeControlIntent) : result unit :=
  throw_if (string_empty (int_ui_instance_id i) ||
            (128 <? String.length (int_ui_instance_id i))%nat ||
            negb (forallb ui_instance_id_char (String.list_ascii_of_string (int_ui_instance_id i))))
    (InvalidArgument "ui_instance_id is invalid");;
  throw_if (int_intent_seq i =? 0) (InvalidArgument "intent_seq must be positive");;
  throw_if (negb (string_in (int_gear i) allowed_gears))
    (InvalidArgument "intent gear must be one of P/R/N/D");;
  require_finite_range (int_steering i) (d_lit (-1) 0) d_one "intent steering";;
  require_finite_range (int_throttle i) d_zero d_one "intent throttle";;
  require_finite_range (int_brake i) d_zero d_one "intent brake".

Definition is_neutral (i : NativeControlIntent) : bool :=
  negb (int_estop i) && (d_abs (int_steering i) ≤ᵈ d_1e_9) && (int_throttle i ≤ᵈ d_1e_9) &&
  (int_brake i ≤ᵈ d_1e_9).

(** The defaulted [operator==]. *)
Definition NativeControlIntent_eqb (i j : NativeControlIntent) : bool :=
  String.eqb (int_ui_instance_id i) (int_ui_instance_id j) &&
  (int_intent_seq i =? int_intent_seq j) && String.eqb (int_gear i) (int_gear j) &&
  (int_steering i =ᵈ int_steering j) && (int_throttle i =ᵈ int_throttle j) &&
  (int_brake i =ᵈ int_brake j) && Bool.eqb (int_estop i) (int_estop j).

Record NativeControlIntentUpdate := mkNativeControlIntentUpdate {
  upd_accepted : bool;
  upd_duplicate : bool;
  upd_requires_fresh_input : bool;
  upd_reason : string;
}.

Record NativeControlIntentSample := mkNativeControlIntentSample {
  smp_active : bool;
  smp_fresh : bool;
  smp_requires_fresh_input : bool;
  smp_intent : NativeControlIntent;
}.

Record NativeControlIntentStore := mkNativeControlIntentStore {
  st_lease_ms : Z;
  st_latest : option NativeControlIntent;
  st_received_at_monotonic_ms : Z;
  st_requires_fresh_input : bool;
  st_estop_latched : bool;
}.

#[global] Instance eta_NativeControlIntentStore : Settable NativeControlIntentStore :=
  fields! mkNativeControlIntentStore
    <st_lease_ms; st_latest; st_received_at_monotonic_ms; st_requires_fresh_input;
     st_estop_latched>.

(** The constructor. *)
Definition NativeControlIntentStore_new (lease_ms : Z) : result NativeControlIntentStore :=
  throw_if ((lease_ms <? 100) || (1000 <? lease_ms))
    (InvalidArgument "native control intent lease must be between 100ms and 1000ms");;
  mret (mkNativeControlIntentStore lease_ms None 0 true false).

(** Lines 1112-1117 of [update]: the sticky ESTOP normalisation. *)
Definition normalize_estop (latched : bool) (intent : NativeControlIntent) : NativeControlIntent :=
  if latched || int_estop intent then
    intent <| int_estop := true |> <| int_steering := d_zero |> <| int_throttle := d_zero |>
           <| int_brake := d_zero |>
  else intent.

Definition update (incoming : NativeControlIntent) (received_at_monotonic_ms : Z) :
    M NativeControlIntentStore NativeControlIntentUpdate :=
  lift (NativeControlIntent_validate incoming);;
  lift (throw_if (received_at_monotonic_ms <? 0)
          (InvalidArgument "intent receive time must be non-negative"));;
  self ← get;
  let incoming_estop := int_estop incoming in
  let incoming_neutral := is_neutral incoming in
  let intent := normalize_estop (st_estop_latched self) incoming in
  let same_ui :=
    match st_latest self with
    | Some latest => String.eqb (int_ui_instance_id latest) (int_ui_instance_id intent)
    | None => false
    end in
  let on_latest (f : NativeControlIntent -> bool) :=
    match st_latest self with Some latest => f latest | None => false end in
  when (bool_decide (is_Some (st_latest self)) && negb same_ui)
    (modify (fun s => s <| st_requires_fresh_input := true |>));;
  requires_fresh_input ← gets st_requires_fresh_input;
  if same_ui && on_latest (fun latest => int_intent_seq intent <? int_intent_seq latest) then
    mret (mkNativeControlIntentUpdate false false requires_fresh_input "old_intent_seq")
  else if same_ui && on_latest (fun latest =>
            (int_intent_seq intent =? int_intent_seq latest) &&
            negb (NativeControlIntent_eqb intent latest)) then
    mret (mkNativeControlIntentUpdate false false requires_fresh_input "intent_seq_conflict")
  else if requires_fresh_input && negb incoming_neutral && negb incoming_estop then
    mret (mkNativeControlIntentUpdate false
            (same_ui && on_latest (fun latest => int_intent_seq intent =? int_intent_seq latest))
            true "fresh_neutral_required")
  else
    let duplicate :=
      same_ui && on_latest (fun latest => int_intent_seq intent =? int_intent_seq latest) in
    when (requires_fresh_input && incoming_neutral)
      (modify (fun s => s <| st_requires_fresh_input := false |>));;
    when (int_estop intent) (modify (fun s => s <| st_estop_latched := true |>));;
    modify (fun s => s <| st_latest := Some intent |>
                       <| st_received_at_monotonic_ms := received_at_monotonic_ms |>);;
    requires_fresh_input ← gets st_requires_fresh_input;
    mret (mkNativeControlIntentUpdate true duplicate requires_fresh_input
            (if duplicate then "refreshed" else "accepted")).

Definition sample (now_monotonic_ms : Z) :
    M NativeControlIntentStore NativeControlIntentSample :=
  lift (throw_if (now_monotonic_ms <? 0)
          (InvalidArgument "intent sample time must be non-negative"));;
  self ← get;
  match st_latest self with
  | None => mret (mkNativeControlIntentSample false false true NativeControlIntent_default)
  | Some latest =>
      let age_ms := Z.max 0 (now_monotonic_ms - st_received_at_monotonic_ms self) in
      let fresh := age_ms <? st_lease_ms self in
      when (negb fresh && negb (is_neutral latest) && negb (int_estop latest))
        (modify (fun s => s <| st_requires_fresh_input := true |>));;
      requires_fresh_input ← gets st_requires_fresh_input;
      let effective :=
        if requires_fresh_input && negb (int_estop latest) then
          latest <| int_steering := d_zero |> <| int_throttle := d_zero |>
                 <| int_brake := d_zero |>
        else latest in
      mret (mkNativeControlIntentSample true fresh requires_fresh_input
              (effective <| int_estop := st_estop_latched self |>))
  end.

Definition invalidate : M NativeControlIntentStore unit :=
  modify (fun s => s <| st_requires_fresh_input := true |>).

Definition reset : M NativeControlIntentStore unit :=
  modify (fun s => s <| st_latest := None |> <| st_received_at_monotonic_ms := 0 |>
                     <| st_requires_fresh_input := true |> <| st_estop_latched := false |>).

(** ** Executions *)

(** One atomic call on the store, by any thread. *)
Inductive intent_op : Type :=
| OpUpdate (intent : NativeControlIntent) (at_ms : Z)
| OpSample (at_ms : Z)
| OpInvalidate
| OpReset.

Definition intent_step (op : intent_op) (s : NativeControlIntentStore) :
    NativeControlIntentStore :=
  match op with
  | OpUpdate intent t => (update intent t s).2
  | OpSample t => (sample t s).2
  | OpInvalidate => (invalidate s).2
  | OpReset => (reset s).2
  end.

Inductive intent_reachable (lease_ms : Z) : NativeControlIntentStore -> Prop :=
| intent_init s :
    NativeControlIntentStore_new lease_ms = Ok s -> intent_reachable lease_ms s
| intent_next op s :
    intent_reachable lease_ms s -> intent_reachable lease_ms (intent_step op s).

(** The actuation fields are all the zero literal. *)
Definition no_actuation (i : NativeControlIntent) : bool :=
  bool_decide (int_steering i = d_zero) && bool_decide (int_throttle i = d_zero) &&
  bool_decide (int_brake i = d_zero).

Arguments normalize_estop : simpl never.
Arguments is_neutral : simpl never.
Arguments NativeControlIntent_eqb : simpl never.
Arguments NativeControlIntent_validate : simpl never.

(** ** The store invariant *)

(** A latched ESTOP is visible in the stored intent, an ESTOP intent is latched
    and carries no actuation, and the stored intent is valid. *)
Record store_ok (s : NativeControlIntentStore) : Prop := {
  ok_latched : st_estop_latched s = true -> is_Some (st_latest s);
  ok_estop i : st_latest s = Some i ->
    int_estop i = st_estop_latched s /\
    (int_estop i = true -> no_actuation i = true);
  ok_valid i : st_latest s = Some i -> NativeControlIntent_validate i = Ok tt;
}.

Lemma normalize_estop_ok latched i :
  NativeControlIntent_validate i = Ok tt ->
  let i' := normalize_estop latched i in
  int_estop i' = latched || int_estop i /\
  (int_estop i' = true -> no_actuation i' = true) /\
  NativeControlIntent_validate i' = Ok tt /\
  int_ui_instance_id i' = int_ui_instance_id i /\ int_intent_seq i' = int_intent_seq i /\
  int_gear i' = int_gear i.
Proof.
  intros H. unfold normalize_estop. destruct (latched || int_estop i) eqn:E; simpl.
  - split_and!; try done. unfold NativeControlIntent_validate in *.
    apply result_seq_ok in H as [H1 H]. apply result_seq_ok in H as [H2 H].
    apply result_seq_ok in H as [H3 _].
    repeat (apply result_seq_ok; split); first [exact H1 | exact H2 | exact H3 | reflexivity].
  - apply orb_false_iff in E as [-> E]. rewrite E. split_and!; done.
Qed.

(** [update] in one view: a throw or a rejection leaves the stored intent, an
    acceptance stores the normalised one. *)
Lemma update_view i t s :
  let s1 := (update i t s).2 in
  let replaced := match st_latest s with
                  | Some l => negb (String.eqb (int_ui_instance_id l) (int_ui_instance_id i))
                  | None => false
                  end in
  let required := st_requires_fresh_input s || replaced in
  st_lease_ms s1 = st_lease_ms s /\
  match (update i t s).1 with
  | Throw _ => s1 = s
  | Ok u =>
      if upd_accepted u then
        NativeControlIntent_validate i = Ok tt /\ 0 <= t /\
        (required = true -> is_neutral i = true \/ int_estop i = true) /\
        (forall l, st_latest s = Some l -> int_ui_instance_id l = int_ui_instance_id i ->
           int_intent_seq l <= int_intent_seq i /\
           upd_duplicate u = (int_intent_seq i =? int_intent_seq l) /\
           (upd_duplicate u = true ->
            NativeControlIntent_eqb (normalize_estop (st_estop_latched s) i) l = true)) /\
        st_latest s1 = Some (normalize_estop (st_estop_latched s) i) /\
        st_received_at_monotonic_ms s1 = t /\
        st_requires_fresh_input s1 = required && negb (is_neutral i) /\
        st_estop_latched s1 = st_estop_latched s || int_estop i
      else
        st_latest s1 = st_latest s /\ st_estop_latched s1 = st_estop_latched s /\
        st_received_at_monotonic_ms s1 = st_received_at_monotonic_ms s /\
        st_requires_fresh_input s1 = required
  end.
Proof.
  unfold update. destruct (NativeControlIntent_validate i) as [[] | e] eqn:Hv; [| run_monad; done].
  destruct (Z.ltb_spec t 0) as [Ht | Ht]; [run_monad; done |].
  destruct (normalize_estop_ok (st_estop_latched s) i Hv) as (He & _ & _ & Hui & Hseq & _).
  run_monad. revert He Hui Hseq. generalize (normalize_estop (st_estop_latched s) i) as n.
  intros n He Hui Hseq. rewrite Hui, Hseq, He.
  destruct (st_latest s) as [l |] eqn:El; simpl.
  - destruct (String.eqb_spec (int_ui_instance_id l) (int_ui_instance_id i)) as [Hu | Hu]; simpl.
    + destruct (Z.ltb_spec (int_intent_seq i) (int_intent_seq l)); simpl;
        [rewrite ?orb_false_r; done |].
      destruct (Z.eqb_spec (int_intent_seq i) (int_intent_seq l)) as [Hs | Hs]; simpl;
        [destruct (NativeControlIntent_eqb n l) eqn:En; simpl; [| rewrite ?orb_false_r; done] |];
        destruct (st_requires_fresh_input s) eqn:Er, (is_neutral i) eqn:En', (int_estop i) eqn:Ei,
          (st_estop_latched s) eqn:El'; simpl;
        rewrite ?El, ?Er, ?El'; split_and!; try done; auto;
        intros ? [= <-] _; (split_and!; [lia | | ]); try done; lia.
    + destruct (st_requires_fresh_input s) eqn:Er, (is_neutral i) eqn:En', (int_estop i) eqn:Ei,
          (st_estop_latched s) eqn:El'; simpl;
        rewrite ?El, ?Er, ?El'; split_and!; try done; auto; by intros ? [= <-].
  - destruct (st_requires_fresh_input s) eqn:Er, (is_neutral i) eqn:En', (int_estop i) eqn:Ei,
          (st_estop_latched s) eqn:El'; simpl;
        rewrite ?El, ?Er, ?El'; split_and!; try done; auto.
Qed.

Lemma update_store_ok i t s : store_ok s -> store_ok (update i t s).2.
Proof.
  intros Hs. pose proof (update_view i t s) as [_ H].
  destruct (update i t s).1 as [u | e]; [| by rewrite H].
  destruct (upd_accepted u).
  - destruct H as (Hv & _ & _ & _ & Hl & _ & _ & He).
    destruct (normalize_estop_ok (st_estop_latched s) i Hv) as (E1 & E2 & E3 & _).
    split; rewrite ?Hl, ?He; [by eauto | | by intros ? [= <-]].
    intros ? [= <-]. rewrite E1. by rewrite <- E1.
  - destruct H as (Hl & He & _). destruct Hs as [H1 H2 H3].
    split; rewrite ?Hl, ?He; auto.
Qed.

(** What one sample does: it only ever raises the fresh-input requirement. *)
Lemma sample_view t s :
  let s1 := (sample t s).2 in
  let expired :=
    match st_latest s with
    | Some l => (0 <=? t) && negb (Z.max 0 (t - st_received_at_monotonic_ms s) <? st_lease_ms s) &&
                negb (is_neutral l) && negb (int_estop l)
    | None => false
    end in
  s1 = s <| st_requires_fresh_input := st_requires_fresh_input s || expired |> /\
  (0 <= t -> match st_latest s with
             | None => (sample t s).1 =
                       Ok (mkNativeControlIntentSample false false true NativeControlIntent_default)
             | Some l => exists smp, (sample t s).1 = Ok smp /\ smp_active smp = true /\
                 smp_requires_fresh_input smp = st_requires_fresh_input s || expired /\
                 int_estop (smp_intent smp) = st_estop_latched s /\
                 (if (st_requires_fresh_input s || expired) && negb (int_estop l)
                  then no_actuation (smp_intent smp) = true
                  else smp_intent smp = l <| int_estop := st_estop_latched s |>)
             end).
Proof.
  unfold sample. destruct s as [lease latest recv req latched]; simpl.
  destruct (Z.ltb_spec t 0) as [Ht | Ht].
  { run_monad. split; [| lia]. rewrite (proj2 (Z.leb_gt 0 t)) by done.
    destruct latest; by rewrite orb_false_r. }
  rewrite (proj2 (Z.leb_le 0 t)) by done. run_monad.
  destruct latest as [l |]; simpl; [| by rewrite orb_false_r].
  destruct (negb (Z.max 0 (t - recv) <? lease) && negb (is_neutral l) && negb (int_estop l)); simpl.
  - rewrite orb_true_r. split; [done |]. intros _. eexists; split_and!; try done.
    by destruct (int_estop l).
  - rewrite orb_false_r. split; [done |]. intros _. eexists; split_and!; try done.
    by destruct req, (int_estop l).
Qed.

Lemma sample_store_ok t s : store_ok s -> store_ok (sample t s).2.
Proof.
  intros [H1 H2 H3]. destruct (sample_view t s) as [-> _]. by split; simpl.
Qed.

Lemma intent_step_store_ok op s : store_ok s -> store_ok (intent_step op s).
Proof.
  intros Hs. destruct op as [i t | t | |]; simpl.
  - by apply update_store_ok.
  - by apply sample_store_ok.
  - destruct Hs as [H1 H2 H3]. by split; simpl.
  - by split; simpl.
Qed.

Lemma intent_reachable_ok lease s : intent_reachable lease s -> store_ok s.
Proof.
  induction 1 as [s H | op s _ IH]; [| by apply intent_step_store_ok].
  unfold NativeControlIntentStore_new in H. apply throw_if_seq in H as [_ [= <-]].
  by split; simpl.
Qed.

(** Operations that are not [reset] keep a latched ESTOP. *)
Lemma intent_step_latched op s :
  op <> OpReset -> st_estop_latched s = true -> st_estop_latched (intent_step op s) = true.
Proof.
  intros Hop Hl. destruct op as [i t | t | |]; simpl; try done.
  - pose proof (update_view i t s) as [_ H].
    destruct (update i t s).1 as [u | e]; [| by rewrite H].
    destruct (upd_accepted u); [| by destruct H as (_ & -> & _)].
    destruct H as (_ & _ & _ & _ & _ & _ & _ & ->). by rewrite Hl.
  - by destruct (sample_view t s) as [-> _].
Qed.

(** Operations that do not submit a neutral intent keep the fresh-input
    requirement. *)
Lemma intent_step_required op s :
  (forall i t, op = OpUpdate i t -> is_neutral i = false) ->
  st_requires_fresh_input s = true -> st_requires_fresh_input (intent_step op s) = true.
Proof.
  intros Hop Hr. destruct op as [i t | t | |]; simpl; try done.
  - specialize (Hop i t eq_refl). pose proof (update_view i t s) as [_ H].
    destruct (update i t s).1 as [u | e]; [| by rewrite H].
    destruct (upd_accepted u).
    + destruct H as (_ & _ & _ & _ & _ & _ & -> & _). by rewrite Hr, Hop.
    + destruct H as (_ & _ & _ & ->). by rewrite Hr.
  - destruct (sample_view t s) as [-> _]. simpl. by rewrite Hr.
Qed.

Lemma intent_steps_required ops s :
  (forall i t, OpUpdate i t ∈ ops -> is_neutral i = false) ->
  st_requires_fresh_input s = true ->
  st_requires_fresh_input (foldl (flip intent_step) s ops) = true.
Proof.
  revert s. induction ops as [| op ops IH]; intros s Hops Hr; simpl; [done |].
  apply IH; [intros i t H; apply (Hops i t); by right |].
  apply intent_step_required; [| done]. intros i t ->. apply (Hops i t). by left.
Qed.

Lemma intent_steps_reachable lease ops s :
  intent_reachable lease s -> intent_reachable lease (foldl (flip intent_step) s ops).
Proof.
  revert s. induction ops as [| op ops IH]; intros s H; simpl; [done |].
  by apply IH, intent_next.
Qed.

Lemma no_actuation_estop l b : no_actuation (l <| int_estop := b |>) = no_actuation l.
Proof. done. Qed.

(** A sample that still requires fresh input, or reports ESTOP, carries no
    steering, throttle or brake. *)
Lemma sample_no_actuation s t smp :
  store_ok s -> (sample t s).1 = Ok smp ->
  smp_requires_fresh_input smp = true \/ int_estop (smp_intent smp) = true ->
  no_actuation (smp_intent smp) = true.
Proof.
  intros Hs E Hcase. destruct (Z.ltb_spec t 0) as [Ht | Ht].
  { unfold sample in E. rewrite (proj2 (Z.ltb_lt t 0) Ht) in E. done. }
  pose proof (proj2 (sample_view t s) Ht) as V.
  destruct (st_latest s) as [l |] eqn:El; [| rewrite V in E; by injection E as <-].
  destruct V as (smp' & E' & _ & Hr & He & Hif). rewrite E in E'. injection E' as <-.
  destruct (ok_estop s Hs l El) as [Hel Hna].
  destruct (int_estop l) eqn:Hl.
  - rewrite andb_false_r in Hif. rewrite Hif, no_actuation_estop. by apply Hna.
  - rewrite andb_true_r, <- Hr in Hif. destruct (smp_requires_fresh_input smp); [done |].
    destruct Hcase as [? | Hc]; [done |]. congruence.
Qed.

(** ** Properties *)

(** ESTOP is sticky.  Once an emergency stop is latched in a reachable
    store, then whatever calls follow, in any order and from any browser page,
    as long as none is [reset], every sample is active, reports estop and
    carries no steering, throttle or brake. *)
Theorem intent_estop_sticky (lease : Z) (s : NativeControlIntentStore)
    (ops : list intent_op) (t : Z) :
  intent_reachable lease s -> st_estop_latched s = true -> OpReset ∉ ops -> 0 <= t ->
  exists smp, (sample t (foldl (flip intent_step) s ops)).1 = Ok smp /\
    smp_active smp = true /\ int_estop (smp_intent smp) = true /\
    no_actuation (smp_intent smp) = true.
Proof.
  intros Hreach Hl Hops Ht. set (s' := foldl _ s ops).
  assert (Hok : store_ok s') by (eapply intent_reachable_ok, intent_steps_reachable; done).
  assert (Hl' : st_estop_latched s' = true).
  { unfold s'. clear Hok s' Hreach. revert s Hl.
    induction ops as [| op ops IH]; intros s Hl; simpl; [done |].
    apply not_elem_of_cons in Hops as [Hop Hops].
    apply IH; [done |]. by apply intent_step_latched. }
  destruct (ok_latched s' Hok Hl') as [l El].
  pose proof (proj2 (sample_view t s') Ht) as V. rewrite El in V.
  destruct V as (smp & E & Ha & _ & He & _). rewrite Hl' in He.
  exists smp. split_and!; try done. by apply (sample_no_actuation s' t smp Hok E); right.
Qed.

Definition intent_example (seq : Z) (throttle : double) (estop : bool) : NativeControlIntent :=
  mkNativeControlIntent "page-1" seq "D" d_zero throttle d_zero estop.

Definition store_example (ops : list intent_op) : NativeControlIntentStore :=
  foldl (flip intent_step) (mkNativeControlIntentStore 200 None 0 true false) ops.

Lemma intent_estop_sticky_witness :
  exists smp,
    (sample 20 (store_example
                  [OpUpdate (intent_example 1 d_one true) 5;
                   OpUpdate (intent_example 2 d_one false) 10; OpInvalidate])).1 = Ok smp /\
    smp_active smp = true /\ int_estop (smp_intent smp) = true /\
    no_actuation (smp_intent smp) = true.
Proof.
  apply (intent_estop_sticky 200 (store_example [OpUpdate (intent_example 1 d_one true) 5])
           [OpUpdate (intent_example 2 d_one false) 10; OpInvalidate] 20).
  - apply intent_next, intent_init. reflexivity.
  - vm_compute. reflexivity.
  - rewrite !not_elem_of_cons. split_and!; [discriminate | discriminate | apply not_elem_of_nil].
  - lia.
Defined.

(** Fail closed.  Motion that expired, was invalidated or belongs to a
    replaced page stays withdrawn: from a reachable store that requires fresh
    input, however the calls interleave, as long as nobody submits a neutral
    intent, every sample still requires fresh input and carries no actuation. *)
Theorem intent_fail_closed (lease : Z) (s : NativeControlIntentStore)
    (ops : list intent_op) (t : Z) :
  intent_reachable lease s -> st_requires_fresh_input s = true ->
  (forall i t', OpUpdate i t' ∈ ops -> is_neutral i = false) -> 0 <= t ->
  exists smp, (sample t (foldl (flip intent_step) s ops)).1 = Ok smp /\
    smp_requires_fresh_input smp = true /\ no_actuation (smp_intent smp) = true.
Proof.
  intros Hreach Hr Hops Ht. set (s' := foldl _ s ops).
  assert (Hok : store_ok s') by (eapply intent_reachable_ok, intent_steps_reachable; done).
  assert (Hr' : st_requires_fresh_input s' = true) by by apply intent_steps_required.
  pose proof (proj2 (sample_view t s') Ht) as V.
  destruct (st_latest s') as [l |] eqn:El; [| eauto].
  destruct V as (smp & E & _ & Hq & _). rewrite Hr' in Hq.
  exists smp. split_and!; try done. by apply (sample_no_actuation s' t smp Hok E); left.
Qed.

Lemma intent_fail_closed_witness :
  exists smp,
    (sample 600 (store_example
                   [OpUpdate (intent_example 1 d_zero false) 5;
                    OpUpdate (intent_example 2 d_one false) 10; OpSample 300;
                    OpUpdate (intent_example 3 d_one false) 310])).1 = Ok smp /\
    smp_requires_fresh_input smp = true /\ no_actuation (smp_intent smp) = true.
Proof.
  apply (intent_fail_closed 200
           (store_example [OpUpdate (intent_example 1 d_zero false) 5;
                           OpUpdate (intent_example 2 d_one false) 10; OpSample 300])
           [OpUpdate (intent_example 3 d_one false) 310] 600).
  - do 3 apply intent_next. apply intent_init. reflexivity.
  - vm_compute. reflexivity.
  - intros i t H. apply elem_of_cons in H as [[= -> _] | H]; [vm_compute; reflexivity |].
    by apply not_elem_of_nil in H.
  - lia.
Defined.

(** The input lease.  Sampling a reachable store whose stored intent moves
    the vehicle, once its age has reached the lease, raises the fresh-input
    requirement and yields no actuation; before that it yields the intent. *)
Theorem intent_lease_expiry (lease : Z) (s : NativeControlIntentStore)
    (i : NativeControlIntent) (t : Z) :
  intent_reachable lease s -> st_latest s = Some i -> is_neutral i = false ->
  int_estop i = false -> st_requires_fresh_input s = false -> 0 <= t ->
  exists smp, (sample t s).1 = Ok smp /\ smp_active smp = true /\
    (if Z.max 0 (t - st_received_at_monotonic_ms s) <? st_lease_ms s
     then smp_intent smp = i /\ (sample t s).2 = s
     else no_actuation (smp_intent smp) = true /\
          st_requires_fresh_input (sample t s).2 = true).
Proof.
  intros Hreach El Hn He Hr Ht. pose proof (intent_reachable_ok _ _ Hreach) as Hok.
  destruct (sample_view t s) as [E2 V]. specialize (V Ht).
  rewrite El in E2, V. rewrite Hn, He, Hr, (proj2 (Z.leb_le 0 t) Ht) in E2, V.
  destruct V as (smp & E & Ha & Hq & Hes & Hif). exists smp.
  pose proof (proj1 (ok_estop s Hok i El)) as Hli.
  destruct (Z.max 0 (t - st_received_at_monotonic_ms s) <? st_lease_ms s) eqn:Hage.
  - split_and!; try done.
    + simpl in Hif. rewrite Hif, <- Hli. by destruct i.
    + rewrite E2. destruct s; simpl in *. by rewrite Hr.
  - split_and!; try done. by rewrite E2.
Qed.

Lemma intent_lease_expiry_witness :
  let s := store_example [OpUpdate (intent_example 1 d_zero false) 5;
                          OpUpdate (intent_example 2 d_one false) 10] in
  exists smp, (sample 210 s).1 = Ok smp /\ smp_active smp = true /\
    (if Z.max 0 (210 - st_received_at_monotonic_ms s) <? st_lease_ms s
     then smp_intent smp = intent_example 2 d_one false /\ (sample 210 s).2 = s
     else no_actuation (smp_intent smp) = true /\
          st_requires_fresh_input (sample 210 s).2 = true).
Proof.
  intros s. apply (intent_lease_expiry 200 s (intent_example 2 d_one false) 210).
  - do 2 apply intent_next. apply intent_init. reflexivity.
  - vm_compute. reflexivity.
  - vm_compute. reflexivity.
  - vm_compute. reflexivity.
  - vm_compute. reflexivity.
  - lia.
Defined.

(** Replay protection of intents.  An accepted update from the page whose
    intent is stored never goes back in sequence, an equal sequence number is
    accepted only as a duplicate of the stored intent, and a rejected or
    throwing update leaves the stored intent, its time and the ESTOP latch. *)
Theorem intent_update_sequence (s : NativeControlIntentStore) (i l : NativeControlIntent)
    (t : Z) :
  st_latest s = Some l -> int_ui_instance_id l = int_ui_instance_id i ->
  let (r, s') := update i t s in
  match r with
  | Ok u =>
      if upd_accepted u then
        int_intent_seq l <= int_intent_seq i /\
        upd_duplicate u = (int_intent_seq i =? int_intent_seq l) /\
        (upd_duplicate u = true ->
         NativeControlIntent_eqb (normalize_estop (st_estop_latched s) i) l = true) /\
        st_latest s' = Some (normalize_estop (st_estop_latched s) i)
      else st_latest s' = Some l /\
           st_received_at_monotonic_ms s' = st_received_at_monotonic_ms s /\
           st_estop_latched s' = st_estop_latched s
  | Throw _ => s' = s
  end.
Proof.
  intros El Hui. pose proof (update_view i t s) as [_ H].
  destruct (update i t s) as [[u | e] s']; simpl in *; [| done].
  destruct (upd_accepted u).
  - destruct H as (_ & _ & _ & Hseq & Hl & _). by destruct (Hseq l El Hui) as (? & ? & ?).
  - destruct H as (Hl & He & Hrv & _). rewrite Hl, He, Hrv. done.
Qed.

Lemma intent_update_sequence_witness :
  let s := store_example [OpUpdate (intent_example 1 d_zero false) 5] in
  let (r, s') := update (intent_example 1 d_zero false) 9 s in
  match r with
  | Ok u =>
      if upd_accepted u then
        1 <= 1 /\ upd_duplicate u = (1 =? 1) /\
        (upd_duplicate u = true ->
         NativeControlIntent_eqb (intent_example 1 d_zero false)
           (intent_example 1 d_zero false) = true) /\
        st_latest s' = Some (intent_example 1 d_zero false)
      else st_latest s' = Some (intent_example 1 d_zero false) /\
           st_received_at_monotonic_ms s' = 5 /\ st_estop_latched s' = false
  | Throw _ => s' = s
  end.
Proof.
  intros s.
  apply (intent_update_sequence s (intent_example 1 d_zero false) (intent_example 1 d_zero false) 9).
  - vm_compute. reflexivity.
  - reflexivity.
Defined.
