(* ===== verification/Channel.v ===== *)
(** Channel: what a control command passes through before it reaches the
    vehicle (core.hpp:234-303, core.cpp:1464-1556) and the driver-side window of
    unacknowledged packets (detail/native_control_acknowledgement_window.hpp).

    - [LatestControlCommandMailbox]: capacity one, the latest command wins;
    - [ControlReceiver]: identity, authority, replay, freshness and gap checks;
    - [NativeControlAcknowledgementWindow]: age of the oldest unacknowledged
      packet.

    Theorems: accounting of the mailbox; the exact acceptance condition of the
    receiver, strict increase of accepted sequence numbers over any run, and
    re-arming after a gap; the window holds exactly the unacknowledged packets. *)
From S2P Require Export Protocol.

(** ** Mailbox *)

Record LatestControlCommandMailbox := mkLatestControlCommandMailbox {
  mb_latest : option ControlCommand;
  mb_dropped_count : Z;
}.

#[global] Instance eta_LatestControlCommandMailbox : Settable LatestControlCommandMailbox :=
  fields! mkLatestControlCommandMailbox <mb_latest; mb_dropped_count>.

Definition mailbox_empty : LatestControlCommandMailbox := mkLatestControlCommandMailbox None 0.

Definition publish (command : ControlCommand) : M LatestControlCommandMailbox unit :=
  lift (ControlCommand_validate command);;
  latest ← gets mb_latest;
  when (bool_decide (is_Some latest))
    (modify (fun s => s <| mb_dropped_count := u64 (mb_dropped_count s + 1) |>));;
  modify (fun s => s <| mb_latest := Some command |>).

Definition pop_latest : M LatestControlCommandMailbox (option ControlCommand) :=
  command ← gets mb_latest;
  modify (fun s => s <| mb_latest := None |>);;
  mret command.

Definition mailbox_pending_count (s : LatestControlCommandMailbox) : Z :=
  match mb_latest s with Some _ => 1 | None => 0 end.

Definition dropped_count (s : LatestControlCommandMailbox) : Z := mb_dropped_count s.

(** ** Receiver *)

Record ReceiveResult := mkReceiveResult {
  rr_accepted : bool;
  rr_reason : string;
  rr_command : option ControlCommand;
  rr_warnings : list string;
  rr_issue_code : string;
}.

#[global] Instance eta_ReceiveResult : Settable ReceiveResult :=
  fields! mkReceiveResult <rr_accepted; rr_reason; rr_command; rr_warnings; rr_issue_code>.

(** The value [{false, reason, std::nullopt, warnings}]. *)
Definition rejected (reason : string) (warnings : list string) : ReceiveResult :=
  mkReceiveResult false reason None warnings "".

Record ControlReceiver := mkControlReceiver {
  rcv_vehicle_id : string;
  rcv_driver_id : string;
  rcv_session_id : string;
  rcv_max_command_gap_ms : Z;
  rcv_protocol_version : Z;
  rcv_control_authority : bool;
  rcv_control_token : string;
  rcv_timestamp_warning_skew_ms : Z;
  rcv_last_seq : option Z;
  rcv_last_valid_receive_ms : option Z;
}.

#[global] Instance eta_ControlReceiver : Settable ControlReceiver :=
  fields! mkControlReceiver
    <rcv_vehicle_id; rcv_driver_id; rcv_session_id; rcv_max_command_gap_ms;
     rcv_protocol_version; rcv_control_authority; rcv_control_token;
     rcv_timestamp_warning_skew_ms; rcv_last_seq; rcv_last_valid_receive_ms>.

(** The constructor. *)
Definition ControlReceiver_new (vehicle_id driver_id session_id : string)
    (max_command_gap_ms protocol_version : Z) (control_authority : bool)
    (control_token : string) (timestamp_warning_skew_ms : Z) : result ControlReceiver :=
  throw_if (string_empty vehicle_id || string_empty driver_id || string_empty session_id)
    (InvalidArgument "vehicle_id, driver_id, and session_id are required");;
  throw_if ((max_command_gap_ms <=? 0) || (timestamp_warning_skew_ms <? 0))
    (InvalidArgument "control receiver timing values are invalid");;
  mret (mkControlReceiver vehicle_id driver_id session_id max_command_gap_ms protocol_version
          control_authority control_token timestamp_warning_skew_ms None None).

Definition accept (command : ControlCommand) (receive_time_ms : Z) :
    M ControlReceiver ReceiveResult :=
  lift (throw_if (receive_time_ms <? 0) (InvalidArgument "receive_time_ms must be non-negative"));;
  self ← get;
  match ControlCommand_validate command with
  | Throw error => mret (rejected ("invalid_command:" +:+ what error) [])
  | Ok _ =>
  if negb (cmd_protocol_version command =? rcv_protocol_version self) then
    mret (rejected "wrong_protocol_version" [])
  else if negb (String.eqb (cmd_vehicle_id command) (rcv_vehicle_id self)) then
    mret (rejected "wrong_vehicle" [])
  else if negb (String.eqb (cmd_driver_id command) (rcv_driver_id self)) then
    mret (rejected "wrong_driver" [])
  else if negb (String.eqb (cmd_session_id command) (rcv_session_id self)) then
    mret (rejected "wrong_session" [])
  else if negb (rcv_control_authority self) then
    mret (rejected "control_authority_missing" [])
  else if negb (String.eqb (cmd_control_token command) (rcv_control_token self)) then
    mret (rejected "control_token_invalid" [])
  else if match rcv_last_seq self with
          | Some last => cmd_seq command <=? last
          | None => false
          end then
    mret (rejected "old_seq" [])
  else
    let timestamp_delta_ms := receive_time_ms - cmd_sent_at_utc_ms command in
    if negb (cmd_estop command) && (rcv_max_command_gap_ms self <? timestamp_delta_ms) then
      mret (rejected "command_age_exceeded" [])
    else if negb (cmd_estop command) && (timestamp_delta_ms <? - rcv_max_command_gap_ms self) then
      mret (rejected "command_timestamp_in_future" [])
    else if match rcv_last_valid_receive_ms self with
            | Some last => receive_time_ms <? last
            | None => false
            end then
      mret (rejected "receive_time_reversed" [])
    else if match rcv_last_valid_receive_ms self with
            | Some last => (rcv_max_command_gap_ms self <? receive_time_ms - last) &&
                           negb (cmd_estop command)
            | None => false
            end then
      modify (fun s => s <| rcv_last_valid_receive_ms := Some receive_time_ms |>);;
      mret (rejected "command_gap_exceeded" [])
    else
      modify (fun s => s <| rcv_last_seq := Some (cmd_seq command) |>
                         <| rcv_last_valid_receive_ms := Some receive_time_ms |>);;
      mret (mkReceiveResult true "accepted" (Some command)
              (if rcv_timestamp_warning_skew_ms self <?
                    Z.abs (receive_time_ms - cmd_sent_at_utc_ms command)
               then ["driver_timestamp_skew"] else []) "")
  end.

(** ** Acknowledgement window *)

(** The deque of (sequence, sent_monotonic_ms), oldest first. *)
Definition NativeControlAcknowledgementWindow : Type := list (Z * Z).

Definition window_reset : M NativeControlAcknowledgementWindow unit := put [].

Definition note_sent (sequence sent_monotonic_ms : Z) :
    M NativeControlAcknowledgementWindow unit :=
  pending ← get;
  lift (throw_if ((sequence =? 0) ||
                  match last pending with Some (back, _) => sequence <=? back | None => false end)
          (InvalidArgument "native control acknowledgement sequences must increase"));;
  put (pending ++ [(sequence, sent_monotonic_ms)]).

(** The [while] loop that pops the front. *)
Fixpoint pop_through (sequence : Z) (pending : NativeControlAcknowledgementWindow) :
    NativeControlAcknowledgementWindow :=
  match pending with
  | (front, sent) :: rest => if front <=? sequence then pop_through sequence rest else pending
  | [] => []
  end.

Definition acknowledge_through (sequence : Z) : M NativeControlAcknowledgementWindow unit :=
  modify (pop_through sequence).

Definition oldest_sequence (pending : NativeControlAcknowledgementWindow) : Z :=
  match pending with (front, _) :: _ => front | [] => 0 end.

Definition oldest_age_ms (now_monotonic_ms : Z) (pending : NativeControlAcknowledgementWindow) : Z :=
  match pending with
  | (_, sent) :: _ => if now_monotonic_ms <=? sent then 0 else now_monotonic_ms - sent
  | [] => 0
  end.

Definition window_pending_count (pending : NativeControlAcknowledgementWindow) : nat :=
  length pending.

Arguments ControlCommand_validate : simpl never.

(** ** Executions *)

Inductive mailbox_op : Type :=
| Publish (command : ControlCommand)
| Pop.

(** The mailbox after a call, with the number of commands it took in and out. *)
Definition mailbox_step (acc : LatestControlCommandMailbox * (Z * Z)) (op : mailbox_op) :
    LatestControlCommandMailbox * (Z * Z) :=
  let '(s, (taken, delivered)) := acc in
  match op with
  | Publish command =>
      match publish command s with
      | (Ok _, s') => (s', (taken + 1, delivered))
      | (Throw _, s') => (s', (taken, delivered))
      end
  | Pop =>
      match pop_latest s with
      | (Ok (Some _), s') => (s', (taken, delivered + 1))
      | (_, s') => (s', (taken, delivered))
      end
  end.

Definition mailbox_run (ops : list mailbox_op) : LatestControlCommandMailbox * (Z * Z) :=
  foldl mailbox_step (mailbox_empty, (0, 0)) ops.

(** The sequence numbers accepted over a run of the receive path. *)
Fixpoint accepted_seqs (packets : list (ControlCommand * Z)) (s : ControlReceiver) : list Z :=
  match packets with
  | [] => []
  | (command, t) :: packets =>
      match accept command t s with
      | (Ok r, s') =>
          if rr_accepted r then cmd_seq command :: accepted_seqs packets s'
          else accepted_seqs packets s'
      | (Throw _, s') => accepted_seqs packets s'
      end
  end.

(** ** The acceptance condition *)

(** When a command received at [t] is admissible. *)
Record admissible (s : ControlReceiver) (c : ControlCommand) (t : Z) : Prop := {
  adm_valid : ControlCommand_validate c = Ok tt;
  adm_version : cmd_protocol_version c = rcv_protocol_version s;
  adm_vehicle : cmd_vehicle_id c = rcv_vehicle_id s;
  adm_driver : cmd_driver_id c = rcv_driver_id s;
  adm_session : cmd_session_id c = rcv_session_id s;
  adm_authority : rcv_control_authority s = true;
  adm_token : cmd_control_token c = rcv_control_token s;
  adm_seq : forall last, rcv_last_seq s = Some last -> last < cmd_seq c;
  adm_age : cmd_estop c = false ->
            - rcv_max_command_gap_ms s <= t - cmd_sent_at_utc_ms c <= rcv_max_command_gap_ms s;
  adm_time : forall last, rcv_last_valid_receive_ms s = Some last -> last <= t;
  adm_gap : forall last, rcv_last_valid_receive_ms s = Some last -> cmd_estop c = false ->
            t - last <= rcv_max_command_gap_ms s;
}.

(** Every answer of [accept], in one statement. *)
Lemma accept_view c t s :
  0 <= t ->
  exists r, (accept c t s).1 = Ok r /\
    (rr_accepted r = true ->
       admissible s c t /\ rr_command r = Some c /\
       (accept c t s).2 = s <| rcv_last_seq := Some (cmd_seq c) |>
                            <| rcv_last_valid_receive_ms := Some t |>) /\
    (rr_accepted r = false ->
       ~ admissible s c t /\ rr_command r = None /\
       rcv_last_seq (accept c t s).2 = rcv_last_seq s /\
       (accept c t s).2 =
         if String.eqb (rr_reason r) "command_gap_exceeded"
         then s <| rcv_last_valid_receive_ms := Some t |> else s).
Proof.
  intros Ht. unfold accept. rewrite (proj2 (Z.ltb_ge t 0) Ht). run_monad.
  repeat match goal with
  | |- context [match ControlCommand_validate c with _ => _ end] =>
      destruct (ControlCommand_validate c) as [[] | e] eqn:Hv
  | |- context [(if ?b then _ else _) _] => destruct b eqn:?
  end; simpl; eexists; (split; [reflexivity |]); simpl; (split; intros Hacc; [| split]);
    try discriminate Hacc; try done; try (split_and!; auto; done).
  all: try (intros [A1 A2 A3 A4 A5 A6 A7 A8 A9 A10 A11]; bool_prop; try congruence).
  all: repeat match goal with
       | H : match ?o with Some _ => _ | None => _ end = _ |- _ => destruct o eqn:?; try done
       end; bool_prop.
  all: try (specialize (A8 _ eq_refl)); try (specialize (A10 _ eq_refl));
       try (specialize (A11 _ eq_refl)); try specialize (A9 ltac:(assumption)); try lia.
  all: try (specialize (A11 ltac:(assumption)); lia).
  all: split_and!; try done; split; try done.
  all: try (intros He; rewrite He in *; simpl in *; lia).
  all: intros last Hlast; simplify_eq; try lia.
  all: intros He; rewrite He in *; simpl in *; lia.
Qed.

Lemma accept_iff c t s :
  0 <= t ->
  exists r, (accept c t s).1 = Ok r /\ (rr_accepted r = true <-> admissible s c t).
Proof.
  intros Ht. destruct (accept_view c t s Ht) as (r & E & Hyes & Hno).
  exists r. split; [done |]. destruct (rr_accepted r).
  - split; [| done]. intros _. by apply Hyes.
  - split; [done |]. intros H. exfalso. by apply Hno in H.
Qed.

(** ** Properties *)

(** C37. The receiver accepts a command exactly when it is valid, carries the
    session's protocol version, vehicle, driver, session and token under control
    authority, has a sequence number above the last accepted one, does not go
    back in receive time and (unless it is an emergency stop) is at most the
    command gap old, ahead, or after the last one.  An accepted command is
    returned unchanged and recorded; a refused one returns no command and never
    moves the sequence number. *)
Theorem receiver_accepts_admissible (c : ControlCommand) (t : Z) (s : ControlReceiver) :
  0 <= t ->
  exists r, (accept c t s).1 = Ok r /\
    (rr_accepted r = true <-> admissible s c t) /\
    rr_command r = (if rr_accepted r then Some c else None) /\
    rcv_last_seq (accept c t s).2 = (if rr_accepted r then Some (cmd_seq c) else rcv_last_seq s).
Proof.
  intros Ht. destruct (accept_view c t s Ht) as (r & E & Hyes & Hno).
  exists r. split; [done |]. destruct (rr_accepted r).
  - destruct (Hyes eq_refl) as (Ha & Hc & ->). done.
  - destruct (Hno eq_refl) as (Ha & Hc & Hs & _). split_and!; try done.
Qed.

Definition receiver_example : ControlReceiver :=
  mkControlReceiver "v" "d" "s" 200 1 true "tok" 5000 None None.

Definition command_example (seq sent : Z) (throttle : double) (estop : bool) : ControlCommand :=
  mkControlCommand 1 "v" "d" "s" seq sent "D" d_zero throttle d_zero estop "tok" true.

Lemma receiver_accepts_admissible_witness :
  let c := command_example 7 1000 d_one false in
  exists r, (accept c 1100 receiver_example).1 = Ok r /\
    (rr_accepted r = true <-> admissible receiver_example c 1100) /\
    rr_command r = (if rr_accepted r then Some c else None) /\
    rcv_last_seq (accept c 1100 receiver_example).2 =
      (if rr_accepted r then Some (cmd_seq c) else rcv_last_seq receiver_example).
Proof. intros c. apply (receiver_accepts_admissible c 1100 receiver_example). lia. Defined.

Lemma accept_negative_time c t s : t < 0 -> (accept c t s).2 = s.
Proof. intros H. unfold accept. by rewrite (proj2 (Z.ltb_lt t 0) H). Qed.

(** What is accepted later lies above what was accepted before. *)
Lemma accepted_seqs_above packets s last :
  rcv_last_seq s = Some last -> Forall (fun q => last < q) (accepted_seqs packets s).
Proof.
  revert s last. induction packets as [| [c t] packets IH]; intros s last Hs; simpl; [done |].
  destruct (Z.lt_ge_cases t 0) as [Ht | Ht].
  { pose proof (accept_negative_time c t s Ht). unfold accept in *.
    rewrite (proj2 (Z.ltb_lt t 0) Ht) in *. simpl in *. by apply IH. }
  destruct (accept_view c t s Ht) as (r & E & Hyes & Hno).
  destruct (accept c t s) as [r' s'] eqn:Ea; simpl in *. subst r'.
  destruct (rr_accepted r).
  - destruct (Hyes eq_refl) as (Ha & _ & ->). pose proof (adm_seq _ _ _ Ha last Hs).
    constructor; [done |].
    eapply Forall_impl; [apply (IH _ (cmd_seq c)); done | simpl; lia].
  - destruct (Hno eq_refl) as (_ & _ & Hs' & _). apply IH. by rewrite Hs'.
Qed.

(** No replay.  Over any sequence of packets, duplicated, reordered or late,
    the accepted sequence numbers strictly increase; so no command is ever
    applied twice. *)
Theorem receiver_no_replay (packets : list (ControlCommand * Z)) (s : ControlReceiver) :
  StronglySorted Z.lt (accepted_seqs packets s).
Proof.
  revert s. induction packets as [| [c t] packets IH]; intros s; simpl; [constructor |].
  destruct (Z.lt_ge_cases t 0) as [Ht | Ht].
  { unfold accept. rewrite (proj2 (Z.ltb_lt t 0) Ht). simpl. apply IH. }
  destruct (accept_view c t s Ht) as (r & E & Hyes & Hno).
  destruct (accept c t s) as [r' s'] eqn:Ea; simpl in *. subst r'.
  destruct (rr_accepted r); [| apply IH].
  destruct (Hyes eq_refl) as (_ & _ & ->). constructor; [apply IH |].
  by apply accepted_seqs_above.
Qed.

(** Recovery after a gap.  The first command after a gap longer than allowed
    is dropped, but it re-arms the timing: a next command that is admissible up
    to the gap check and arrives within the gap of the dropped one is accepted. *)
Theorem receiver_gap_recovers (c c' : ControlCommand) (t t' : Z) (s : ControlReceiver)
    (r : ReceiveResult) :
  0 <= t -> (accept c t s).1 = Ok r -> rr_reason r = "command_gap_exceeded" ->
  rr_accepted r = false ->
  admissible (s <| rcv_last_valid_receive_ms := None |>) c' t' ->
  t <= t' <= t + rcv_max_command_gap_ms s ->
  exists r', (accept c' t' (accept c t s).2).1 = Ok r' /\ rr_accepted r' = true.
Proof.
  intros Ht E Hr Hacc [A1 A2 A3 A4 A5 A6 A7 A8 A9 A10 A11] Hgap.
  destruct (accept_view c t s Ht) as (r0 & E0 & _ & Hno). rewrite E in E0. injection E0 as <-.
  destruct (Hno Hacc) as (_ & _ & _ & Hs). rewrite Hr in Hs. simpl in Hs. rewrite Hs.
  destruct (accept_iff c' t' (s <| rcv_last_valid_receive_ms := Some t |>)) as (r' & E' & Hiff);
    [lia |].
  exists r'. split; [done |]. apply Hiff. simpl in *.
  split; simpl; auto; intros last [= <-]; lia.
Qed.

Lemma receiver_gap_recovers_witness :
  let s := receiver_example <| rcv_last_seq := Some 3 |>
                            <| rcv_last_valid_receive_ms := Some 1000 |> in
  let c := command_example 4 2000 d_one false in
  let c' := command_example 5 2050 d_one false in
  exists r', (accept c' 2050 (accept c 2000 s).2).1 = Ok r' /\ rr_accepted r' = true.
Proof.
  intros s c c'.
  apply (receiver_gap_recovers c c' 2000 2050 s (rejected "command_gap_exceeded" [])).
  - lia.
  - vm_compute. reflexivity.
  - reflexivity.
  - reflexivity.
  - split; simpl; try done; try (vm_compute; reflexivity); try lia.
    intros last [= <-]. lia.
  - simpl. lia.
Defined.

(** Accounting of the mailbox.  After any sequence of calls, what was taken
    in is what was delivered, plus what was dropped (a 64-bit counter), plus the
    at most one command still pending. *)
Theorem mailbox_accounting (ops : list mailbox_op) :
  let '(s, (taken, delivered)) := mailbox_run ops in
  u64 taken = u64 (delivered + dropped_count s + mailbox_pending_count s) /\
  0 <= mailbox_pending_count s <= 1.
Proof.
  unfold mailbox_run.
  assert (H : forall acc, (let '(s, (taken, delivered)) := acc in
      u64 taken = u64 (delivered + dropped_count s + mailbox_pending_count s)) ->
    let '(s, (taken, delivered)) := foldl mailbox_step acc ops in
      u64 taken = u64 (delivered + dropped_count s + mailbox_pending_count s)).
  { induction ops as [| op ops IH]; intros acc Hacc; simpl; [done |].
    apply IH. destruct acc as [s [tk dl]], s as [latest dropped], op as [c |]; simpl.
    - unfold publish. destruct (ControlCommand_validate c) as [[] | e]; run_monad; [| done].
      unfold dropped_count, mailbox_pending_count, u64 in *; simpl in *.
      destruct latest; simpl.
      + replace (dl + (dropped + 1) mod 2 ^ 64 + 1) with
          ((dropped + 1) mod 2 ^ 64 + (dl + 1)) by lia.
        rewrite Zplus_mod_idemp_l. rewrite <- Zplus_mod_idemp_l, Hacc, Zplus_mod_idemp_l.
        f_equal. lia.
      + rewrite <- Zplus_mod_idemp_l, Hacc, Zplus_mod_idemp_l. f_equal. lia.
    - unfold pop_latest, dropped_count, mailbox_pending_count, u64 in *. run_monad.
      destruct latest; simpl in *; rewrite Hacc; f_equal; lia. }
  specialize (H (mailbox_empty, (0, 0)) eq_refl).
  destruct (foldl mailbox_step _ ops) as [s [tk dl]]. split; [done |].
  unfold mailbox_pending_count. destruct (mb_latest s); lia.
Qed.

(** Latest only.  A valid published command replaces whatever was pending;
    the next [pop_latest] returns exactly it and empties the mailbox.  An invalid
    command throws and changes nothing. *)
Theorem mailbox_latest_wins (c : ControlCommand) (s : LatestControlCommandMailbox) :
  match ControlCommand_validate c with
  | Ok _ => (publish c s).1 = Ok tt /\
            pop_latest (publish c s).2 =
              (Ok (Some c), (publish c s).2 <| mb_latest := None |>)
  | Throw e => publish c s = (Throw e, s)
  end.
Proof.
  unfold publish. destruct (ControlCommand_validate c) as [[] | e]; run_monad; [| done].
  by destruct (mb_latest s).
Qed.

(** ** The acknowledgement window *)

(** The window is well formed: sequence numbers are positive, fit in 64 bits and
    strictly increase from the front. *)
Definition window_ok (w : NativeControlAcknowledgementWindow) : Prop :=
  Forall (fun e => 0 < e.1) w /\ StronglySorted (fun e e' => e.1 < e'.1) w.

Lemma filter_id_Forall {A} (P : A -> Prop) `{!forall x, Decision (P x)} (xs : list A) :
  Forall P xs -> filter P xs = xs.
Proof.
  induction 1 as [| x xs Hx _ IH]; [done |].
  rewrite filter_cons, decide_True by done. by rewrite IH.
Qed.

Lemma pop_through_filter n (w : list (Z * Z)) :
  window_ok w -> pop_through n w = filter (fun e => n < e.1) (w : list (Z * Z)).
Proof.
  intros [_ Hs]. induction Hs as [| [q t] w Hs IH Hall]; [done |].
  cbn [pop_through]. rewrite filter_cons. destruct (Z.leb_spec q n) as [Hq | Hq].
  - rewrite decide_False by (simpl; lia). exact IH.
  - rewrite decide_True by (simpl; lia). f_equal. symmetry. apply filter_id_Forall.
    eapply Forall_impl; [exact Hall |]. simpl. lia.
Qed.

Lemma pop_through_ok n w : window_ok w -> window_ok (pop_through n w).
Proof.
  intros [Hp Hs]. induction Hs as [| [q t] w Hs IH Hall]; simpl; [by repeat constructor |].
  inversion Hp; subst. destruct (q <=? n); [by apply IH |].
  split; [done | by constructor].
Qed.

Lemma last_ok (w : NativeControlAcknowledgementWindow) e b :
  window_ok w -> last w = Some b -> e ∈ w -> e.1 <= b.1.
Proof.
  intros [_ Hs] Hl Hin. induction Hs as [| x w Hs IH Hall]; [by apply not_elem_of_nil in Hin |].
  destruct w as [| y w].
  - injection Hl as ->. apply list_elem_of_singleton in Hin as ->. lia.
  - apply elem_of_cons in Hin as [-> | Hin]; [| by apply IH].
    rewrite Forall_forall in Hall.
    assert (Hb : b ∈ y :: w) by (apply last_Some_elem_of; exact Hl).
    specialize (Hall b Hb). lia.
Qed.

(** The acknowledgement window.  From a well-formed window, [note_sent] of
    an unsigned sequence number either throws and changes nothing (zero, or not
    above the newest) or appends the packet; [acknowledge_through] keeps exactly
    the packets above the acknowledged sequence, in order, so the age reported
    afterwards is that of the oldest packet that really is unacknowledged.
    Every result is well formed. *)
Theorem window_exact (w : list (Z * Z)) (sequence sent now : Z) :
  window_ok w -> 0 <= sequence ->
  (match (note_sent sequence sent w).1 with
   | Ok _ => (note_sent sequence sent w).2 = w ++ [(sequence, sent)] /\
             Forall (fun e => e.1 < sequence) w
   | Throw _ => (note_sent sequence sent w).2 = w
   end) /\
  window_ok (note_sent sequence sent w).2 /\
  (acknowledge_through sequence w).2 = filter (fun e => sequence < e.1) w /\
  window_ok (acknowledge_through sequence w).2 /\
  (forall q t rest, filter (fun e => sequence < e.1) w = (q, t) :: rest ->
     oldest_sequence (acknowledge_through sequence w).2 = q /\
     oldest_age_ms now (acknowledge_through sequence w).2 = Z.max 0 (now - t)).
Proof.
  intros Hw Hpos. pose proof (pop_through_filter sequence w Hw) as Hf.
  assert (Hnote : match (note_sent sequence sent w).1 with
    | Ok _ => (note_sent sequence sent w).2 = w ++ [(sequence, sent)] /\
              sequence <> 0 /\ Forall (fun e => e.1 < sequence) w
    | Throw _ => (note_sent sequence sent w).2 = w
    end).
  { unfold note_sent. run_monad. destruct (Z.eqb_spec sequence 0); simpl; [done |].
    destruct (last w) as [[b tb] |] eqn:El; simpl.
    - destruct (Z.leb_spec sequence b); simpl; [done |]. split_and!; try done.
      apply Forall_forall. intros e He. pose proof (last_ok w e _ Hw El He). simpl in *. lia.
    - apply last_None in El as ->. done. }
  split_and!.
  - destruct ((note_sent sequence sent w).1); tauto.
  - destruct ((note_sent sequence sent w).1); [| by rewrite Hnote].
    destruct Hnote as (-> & Hnz & Hlt), Hw as [Hp Hs]. split.
    + apply Forall_app. split; [done |]. constructor; [simpl; lia | constructor].
    + clear -Hs Hlt. induction Hs as [| x w Hs IH Hall]; simpl; [by repeat constructor |].
      inversion Hlt; subst. constructor; [by apply IH |].
      apply Forall_app. split; [done |]. by repeat constructor.
  - done.
  - by apply pop_through_ok.
  - intros q t rest E. simpl. rewrite Hf, E. simpl. split; [done |].
    destruct (Z.leb_spec now t); lia.
Qed.

Lemma window_exact_witness :
  let w := [(1, 100); (2, 150); (5, 160)] in
  (match (note_sent 2 500 w).1 with
   | Ok _ => (note_sent 2 500 w).2 = w ++ [(2, 500)] /\ Forall (fun e => e.1 < 2) w
   | Throw _ => (note_sent 2 500 w).2 = w
   end) /\
  window_ok (note_sent 2 500 w).2 /\
  (acknowledge_through 2 w).2 = filter (fun e => 2 < e.1) w /\
  window_ok (acknowledge_through 2 w).2 /\
  (forall q t rest, filter (fun e => 2 < e.1) w = (q, t) :: rest ->
     oldest_sequence (acknowledge_through 2 w).2 = q /\
     oldest_age_ms 900 (acknowledge_through 2 w).2 = Z.max 0 (900 - t)).
Proof.
  intros w. apply (window_exact w 2 500 900).
  - split; repeat constructor; simpl; lia.
  - lia.
Defined.
