(* ===== verification/Safety.v ===== *)
(** Safety: the vehicle's safety state machine (core.hpp:282-378,
    core.cpp:85-143 and 1558-1682).

    - [DecelerationStage] and [normalize_and_validate_deceleration_profile]: the
      staged braking profile;
    - [VehicleStopSource], [VehicleStopReason], [VehicleStopContext]: why a stop
      was commanded;
    - [SafetyStateMachine]: command watchdog, emergency-stop and fault latches.
      No member function throws after construction, so each transition is a
      function on the record; [reset_estop] and [reset_to_standby] also answer.

    Theorems: a normalised profile is well formed; the latches are left only
    through a confirmed local reset; no throttle after the degraded timeout;
    the brake of a timeout never decreases and reaches the full brake. *)
From S2P Require Export Channel.

(** ** Braking profile *)

Record DecelerationStage := mkDecelerationStage {
  stage_after_ms : Z;
  stage_brake : double;
}.

#[global] Instance eta_DecelerationStage : Settable DecelerationStage :=
  fields! mkDecelerationStage <stage_after_ms; stage_brake>.

(** [kBrakeComparisonTolerance] *)
Definition kBrakeComparisonTolerance : double := d_1e_9.

Definition vehicle_normalized_brake_request (session_normalized_brake
    session_max_brake_pressure_bar vehicle_max_brake_pressure_bar : double) : result double :=
  require_finite_range session_normalized_brake d_zero d_one "session_normalized_brake";;
  require_finite_range vehicle_max_brake_pressure_bar d_zero kMaxOrdinaryBrakePressureBar
    "vehicle_max_brake_pressure_bar";;
  require_finite_range session_max_brake_pressure_bar d_zero vehicle_max_brake_pressure_bar
    "session_max_brake_pressure_bar";;
  mret (if vehicle_max_brake_pressure_bar >ᵈ d_zero
        then session_normalized_brake ⊗ session_max_brake_pressure_bar
               ⊘ vehicle_max_brake_pressure_bar
        else d_zero).

(** The loop of [normalize_and_validate_deceleration_profile]: the stages still
    to visit, with [previous_after_ms] and [previous_brake]. *)
Fixpoint normalize_stages (previous_after_ms : Z) (previous_brake : double)
    (profile : list DecelerationStage) : result (list DecelerationStage) :=
  match profile with
  | [] => mret []
  | stage :: rest =>
      throw_if (stage_after_ms stage <? 0)
        (InvalidArgument "deceleration after_ms must be non-negative");;
      throw_if ((0 <=? previous_after_ms) && (stage_after_ms stage <=? previous_after_ms))
        (InvalidArgument "deceleration after_ms values must be strictly increasing");;
      require_finite_range (stage_brake stage) d_zero d_one "deceleration brake";;
      throw_if (stage_brake stage ⊕ kBrakeComparisonTolerance <ᵈ previous_brake)
        (InvalidArgument "deceleration brake stages must be non-decreasing");;
      let stage := if stage_brake stage <ᵈ previous_brake
                   then stage <| stage_brake := previous_brake |> else stage in
      rest ← normalize_stages (stage_after_ms stage) (stage_brake stage) rest;
      mret (stage :: rest)
  end.

(** [profile.back().brake = brake] *)
Fixpoint set_back_brake (brake : double) (profile : list DecelerationStage) :
    list DecelerationStage :=
  match profile with
  | [] => []
  | [stage] => [stage <| stage_brake := brake |>]
  | stage :: rest => stage :: set_back_brake brake rest
  end.

Definition normalize_and_validate_deceleration_profile (profile : list DecelerationStage) :
    result (list DecelerationStage) :=
  match profile with
  | [] => Throw (InvalidArgument "deceleration profile must not be empty")
  | front :: _ =>
      throw_if (negb (stage_after_ms front =? 0))
        (InvalidArgument "deceleration profile must start at after_ms 0");;
      profile ← normalize_stages (-1) d_zero profile;
      throw_if
        match last profile with
        | Some back => d_abs (stage_brake back ⊖ d_one) >ᵈ kBrakeComparisonTolerance
        | None => false
        end
        (InvalidArgument "deceleration profile must end with full safety brake 1.0");;
      mret (set_back_brake d_one profile)
  end.

(** ** Outputs and stop contexts *)

Record ControlOutput := mkControlOutput {
  out_gear : string;
  out_steering : double;
  out_throttle : double;
  out_brake : double;
  out_estop : bool;
  out_full_emergency_brake : bool;
}.

#[global] Instance eta_ControlOutput : Settable ControlOutput :=
  fields! mkControlOutput
    <out_gear; out_steering; out_throttle; out_brake; out_estop; out_full_emergency_brake>.

(** The value [ControlOutput{}]. *)
Definition ControlOutput_default : ControlOutput :=
  mkControlOutput "N" d_zero d_zero d_zero false false.

Inductive VehicleStopSource : Type :=
| SourceNone | DriverPage | Session | Watchdog | SoftwareFault | PhysicalEmergency
| SourceUnknown.

Inductive VehicleStopReason : Type :=
| ReasonNone | OperatorEstop | VcuHandshakeDisconnect | DriverDisconnect | SessionLost
| ControlApplyTimeout | OuterControlTimeout | FeedbackTimeout | ControlApplyFailed
| ChassisControlFault | CanReceiveFailed | CanSendFailed | IoThreadException | HardOverspeed
| OppositeDirectionMotion | ArmingMotion | ControlCommandInvalid | PhysicalEmergencySwitch
| HandshakeRevoked | CriticalCameraFailed | MediaPipelineFailed | VcuStateFault
| SessionProfileRequired | CanFeedbackMissing | AdapterSafetyStatusUnavailable
| LegacyUnspecified.

#[global] Instance VehicleStopSource_eq_dec : EqDecision VehicleStopSource.
Proof. solve_decision. Defined.
#[global] Instance VehicleStopReason_eq_dec : EqDecision VehicleStopReason.
Proof. solve_decision. Defined.

(** The underlying [std::uint32_t] values. *)
Definition VehicleStopSource_value (source : VehicleStopSource) : Z :=
  match source with
  | SourceNone => 0 | DriverPage => 1 | Session => 2 | Watchdog => 3 | SoftwareFault => 4
  | PhysicalEmergency => 5 | SourceUnknown => 255
  end.

Definition VehicleStopReason_value (reason : VehicleStopReason) : Z :=
  match reason with
  | ReasonNone => 0 | OperatorEstop => 1 | VcuHandshakeDisconnect => 2 | DriverDisconnect => 3
  | SessionLost => 4 | ControlApplyTimeout => 5 | OuterControlTimeout => 6
  | FeedbackTimeout => 7 | ControlApplyFailed => 8 | ChassisControlFault => 9
  | CanReceiveFailed => 10 | CanSendFailed => 11 | IoThreadException => 12
  | HardOverspeed => 13 | OppositeDirectionMotion => 14 | ArmingMotion => 15
  | ControlCommandInvalid => 16 | PhysicalEmergencySwitch => 17 | HandshakeRevoked => 18
  | CriticalCameraFailed => 19 | MediaPipelineFailed => 20 | VcuStateFault => 21
  | SessionProfileRequired => 22 | CanFeedbackMissing => 23
  | AdapterSafetyStatusUnavailable => 24 | LegacyUnspecified => 255
  end.

Record VehicleStopContext := mkVehicleStopContext {
  stop_source : VehicleStopSource;
  stop_reason : VehicleStopReason;
}.

(** ** State machine *)

Inductive SafetyState : Type :=
| SafetyInit | SafetyStandby | SafetyControlActive | SafetyDegraded | SafetyTimeoutBrake
| SafetyEstop | SafetyFault.

#[global] Instance SafetyState_eq_dec : EqDecision SafetyState.
Proof. solve_decision. Defined.

Definition SafetyState_to_string (state : SafetyState) : string :=
  match state with
  | SafetyInit => "INIT"
  | SafetyStandby => "STANDBY"
  | SafetyControlActive => "CONTROL_ACTIVE"
  | SafetyDegraded => "DEGRADED"
  | SafetyTimeoutBrake => "TIMEOUT_BRAKE"
  | SafetyEstop => "ESTOP"
  | SafetyFault => "FAULT"
  end.

Record SafetyStateMachine := mkSafetyStateMachine {
  sm_degraded_timeout_ms : Z;
  sm_control_timeout_ms : Z;
  sm_profile : list DecelerationStage;
  sm_state : SafetyState;
  sm_last_valid_command : option ControlCommand;
  sm_last_valid_receive_ms : option Z;
  sm_timeout_entered_ms : option Z;
}.

#[global] Instance eta_SafetyStateMachine : Settable SafetyStateMachine :=
  fields! mkSafetyStateMachine
    <sm_degraded_timeout_ms; sm_control_timeout_ms; sm_profile; sm_state;
     sm_last_valid_command; sm_last_valid_receive_ms; sm_timeout_entered_ms>.

(** The constructor. *)
Definition SafetyStateMachine_new (degraded_timeout_ms control_timeout_ms : Z)
    (profile : list DecelerationStage) : result SafetyStateMachine :=
  throw_if ((degraded_timeout_ms <=? 0) || (control_timeout_ms <=? degraded_timeout_ms))
    (InvalidArgument "control timeout must be greater than degraded timeout");;
  profile ← normalize_and_validate_deceleration_profile profile;
  mret (mkSafetyStateMachine degraded_timeout_ms control_timeout_ms profile SafetyInit
          None None None).

Definition mark_ready (s : SafetyStateMachine) : SafetyStateMachine :=
  if decide (sm_state s = SafetyInit) then s <| sm_state := SafetyStandby |> else s.

Definition on_valid_command (command : ControlCommand) (timestamp_ms : Z)
    (s : SafetyStateMachine) : SafetyStateMachine :=
  if cmd_estop command then
    s <| sm_last_valid_command := Some command |>
      <| sm_last_valid_receive_ms := Some timestamp_ms |>
      <| sm_state := SafetyEstop |>
  else if decide (sm_state s = SafetyEstop \/ sm_state s = SafetyFault) then s
  else
    s <| sm_last_valid_command := Some command |>
      <| sm_last_valid_receive_ms := Some timestamp_ms |>
      <| sm_timeout_entered_ms := None |>
      <| sm_state := SafetyControlActive |>.

Definition safety_tick (timestamp_ms : Z) (s : SafetyStateMachine) : SafetyStateMachine :=
  match sm_state s, sm_last_valid_receive_ms s with
  | SafetyInit, _ | SafetyStandby, _ | SafetyEstop, _ | SafetyFault, _ | _, None => s
  | state, Some last =>
      let elapsed := timestamp_ms - last in
      if sm_control_timeout_ms s <=? elapsed then
        (if decide (state = SafetyTimeoutBrake) then s
         else s <| sm_timeout_entered_ms := Some timestamp_ms |>)
          <| sm_state := SafetyTimeoutBrake |>
      else if sm_degraded_timeout_ms s <=? elapsed then s <| sm_state := SafetyDegraded |>
      else s
  end.

(** The loop of [brake_for_timeout] from the value chosen so far. *)
Definition choose_stage (elapsed : Z) (chosen : double) (profile : list DecelerationStage) :
    double :=
  foldl (fun chosen stage =>
           if stage_after_ms stage <=? elapsed then stage_brake stage else chosen)
        chosen profile.

Definition brake_for_timeout (timestamp_ms : Z) (s : SafetyStateMachine) : double :=
  let entered := default timestamp_ms (sm_timeout_entered_ms s) in
  choose_stage (timestamp_ms - entered) d_zero (sm_profile s).

Definition current_output (timestamp_ms : Z) (s : SafetyStateMachine) : ControlOutput :=
  let gear := match sm_last_valid_command s with Some c => cmd_gear c | None => "N" end in
  let steering :=
    match sm_last_valid_command s with Some c => cmd_steering c | None => d_zero end in
  match sm_state s with
  | SafetyControlActive =>
      match sm_last_valid_command s with
      | Some c => mkControlOutput gear steering (cmd_throttle c) (cmd_brake c) false false
      | None => ControlOutput_default
      end
  | SafetyDegraded =>
      mkControlOutput gear steering d_zero
        (match sm_last_valid_command s with Some c => cmd_brake c | None => d_zero end)
        false false
  | SafetyTimeoutBrake =>
      let brake := brake_for_timeout timestamp_ms s in
      mkControlOutput gear d_zero d_zero brake false (brake ≥ᵈ d_one)
  | SafetyEstop => mkControlOutput gear d_zero d_zero d_one true true
  | SafetyFault => mkControlOutput gear d_zero d_zero d_one false true
  | SafetyInit | SafetyStandby => ControlOutput_default
  end.

Definition enter_standby (s : SafetyStateMachine) : SafetyStateMachine :=
  s <| sm_last_valid_command := None |>
    <| sm_last_valid_receive_ms := None |>
    <| sm_timeout_entered_ms := None |>
    <| sm_state := SafetyStandby |>.

Definition safety_reset_estop (local_confirmed : bool) (authorized_by : string) :
    M SafetyStateMachine bool :=
  state ← gets sm_state;
  if bool_decide (state <> SafetyEstop) || negb local_confirmed || string_empty authorized_by
  then mret false
  else modify enter_standby;; mret true.

Definition reset_to_standby : M SafetyStateMachine bool :=
  state ← gets sm_state;
  if decide (state = SafetyEstop \/ state = SafetyFault) then mret false
  else modify enter_standby;; mret true.

Definition mark_fault (s : SafetyStateMachine) : SafetyStateMachine :=
  s <| sm_state := SafetyFault |>.

(** ** Executions *)

Inductive safety_op : Type :=
| OpMarkReady
| OpCommand (command : ControlCommand) (timestamp_ms : Z)
| OpTick (timestamp_ms : Z)
| OpResetEstop (local_confirmed : bool) (authorized_by : string)
| OpResetToStandby
| OpMarkFault.

Definition safety_step (op : safety_op) (s : SafetyStateMachine) : SafetyStateMachine :=
  match op with
  | OpMarkReady => mark_ready s
  | OpCommand command t => on_valid_command command t s
  | OpTick t => safety_tick t s
  | OpResetEstop confirmed by_ => (safety_reset_estop confirmed by_ s).2
  | OpResetToStandby => (reset_to_standby s).2
  | OpMarkFault => mark_fault s
  end.

Definition safety_run (ops : list safety_op) (s : SafetyStateMachine) : SafetyStateMachine :=
  foldl (fun s op => safety_step op s) s ops.

(** A confirmed, authorised local reset. *)
Definition is_local_reset (op : safety_op) : bool :=
  match op with
  | OpResetEstop confirmed by_ => confirmed && negb (string_empty by_)
  | _ => false
  end.

(** The machine is latched. *)
Definition latched (s : SafetyStateMachine) : Prop :=
  sm_state s = SafetyEstop \/ sm_state s = SafetyFault.

(** The machines the program can build and drive. *)
Inductive safety_reachable : SafetyStateMachine -> Prop :=
| reach_new degraded timeout profile s :
    SafetyStateMachine_new degraded timeout profile = Ok s -> safety_reachable s
| reach_step op s : safety_reachable s -> safety_reachable (safety_step op s).

(** ** Lemmas: the braking profile *)

(** A stage is followed by a later one that brakes at least as hard. *)
Definition stage_before (a b : DecelerationStage) : Prop :=
  stage_after_ms a < stage_after_ms b /\ (stage_brake a ≤ᵈ stage_brake b) = true.

(** A well-formed braking profile: starts at once, strictly later stages, never
    weaker, within [0, 1], and ending with the full brake. *)
Record profile_ok (profile : list DecelerationStage) : Prop := {
  po_front : exists front rest, profile = front :: rest /\ stage_after_ms front = 0;
  po_sorted : StronglySorted stage_before profile;
  po_range : Forall (fun stage => 0 <= stage_after_ms stage /\
                (d_zero ≤ᵈ stage_brake stage) = true /\
                (stage_brake stage ≤ᵈ d_one) = true) profile;
  po_back : exists stages back, profile = stages ++ [back] /\ stage_brake back = d_one;
}.

Lemma normalize_stages_ok profile : forall after brake profile',
  normalize_stages after brake profile = Ok profile' ->
  -1 <= after -> (d_zero ≤ᵈ brake) = true -> (brake ≤ᵈ d_one) = true ->
  StronglySorted stage_before profile' /\
  Forall (fun stage => after < stage_after_ms stage /\ (brake ≤ᵈ stage_brake stage) = true /\
                       (stage_brake stage ≤ᵈ d_one) = true) profile' /\
  map stage_after_ms profile' = map stage_after_ms profile.
Proof.
  induction profile as [| [a b] profile IH]; simpl; intros after brake profile' H Ha Hb0 Hb1.
  { injection H as <-. by repeat constructor. }
  apply throw_if_seq in H as [H1 H]. apply throw_if_seq in H as [H2 H].
  apply result_bind_ok in H as ([] & H3 & H). apply throw_if_seq in H as [_ H].
  apply require_finite_range_bounds in H3 as (Hf & Hlo & Hhi); [| done | done].
  simpl in *. set (stage := if b <ᵈ brake then _ else _) in H.
  assert (Hs : stage_after_ms stage = a) by (unfold stage; by destruct (b <ᵈ brake)).
  assert (Hsb : (brake ≤ᵈ stage_brake stage) = true /\ (stage_brake stage ≤ᵈ d_one) = true).
  { unfold stage. destruct (b <ᵈ brake) eqn:E; simpl; split; double_order. }
  destruct Hsb as [Hsb1 Hsb2]. clearbody stage.
  apply result_bind_ok in H as (rest & Hrest & H). injection H as <-.
  assert (Haft : after < a) by (bool_prop; destruct (Z.leb_spec 0 after); simpl in *; bool_prop; lia).
  apply IH in Hrest as (Hsort & Hall & Hmap); [| lia | by eapply d_le_trans | done].
  split_and!.
  - constructor; [done |]. eapply Forall_impl; [exact Hall |].
    intros st (? & ? & ?). split; [lia | done].
  - constructor; [split_and!; [lia | done | done] |].
    eapply Forall_impl; [exact Hall |]. intros st (? & ? & ?).
    split_and!; [lia | by eapply d_le_trans | done].
  - simpl. by rewrite Hmap, Hs.
Qed.

Lemma set_back_brake_app brake stages back :
  set_back_brake brake (stages ++ [back]) = stages ++ [back <| stage_brake := brake |>].
Proof.
  induction stages as [| stage stages IH]; [done |]. simpl. rewrite IH.
  by destruct (stages ++ [back]) eqn:E; [destruct stages |].
Qed.

Lemma StronglySorted_app_one {A} (R : A -> A -> Prop) xs y :
  StronglySorted R (xs ++ [y]) <-> StronglySorted R xs /\ Forall (fun x => R x y) xs.
Proof.
  induction xs as [| x xs IH]; simpl.
  { split; intros; repeat constructor. }
  split.
  - inversion 1 as [| ? ? Hs Hall]; subst. apply IH in Hs as [Hs Hy].
    apply Forall_app in Hall as [Hx Hxy]. inversion Hxy; subst.
    split; by constructor.
  - intros [Hs Hy]. inversion Hs; subst. inversion Hy; subst.
    constructor; [by apply IH |]. apply Forall_app. by repeat constructor.
Qed.

Lemma normalize_profile_ok profile profile' :
  normalize_and_validate_deceleration_profile profile = Ok profile' ->
  profile_ok profile' /\ map stage_after_ms profile' = map stage_after_ms profile.
Proof.
  unfold normalize_and_validate_deceleration_profile.
  destruct profile as [| front profile]; [done |]. intros H.
  apply throw_if_seq in H as [Hz H]. apply result_bind_ok in H as (p & Hp & H).
  apply throw_if_seq in H as [_ H]. injection H as <-. bool_prop.
  apply normalize_stages_ok in Hp as (Hs & Hall & Hmap); [| lia | done | done].
  destruct p as [| back stages _] using rev_ind; [done |].
  rewrite set_back_brake_app. apply StronglySorted_app_one in Hs as [Hs Hb].
  apply Forall_app in Hall as [Hall Hback]. inversion Hback as [| ? ? (B1 & B2 & B3) _]; subst.
  assert (Hmap' : map stage_after_ms (stages ++ [back <| stage_brake := d_one |>]) =
                  map stage_after_ms (front :: profile)).
  { rewrite <- Hmap. by rewrite !map_app. }
  split; [| done]. split.
  - clear -Hmap' Hz. destruct (stages ++ _) as [| f r]; [done |].
    exists f, r. split; [done |]. simpl in Hmap'. congruence.
  - apply StronglySorted_app_one. split; [done |].
    rewrite Forall_forall in *. intros st Hin. destruct (Hb st Hin).
    destruct (Hall st Hin) as (? & ? & ?). by split.
  - apply Forall_app. split; [| repeat constructor; simpl; lia || done].
    eapply Forall_impl; [exact Hall |]. intros st (? & ? & ?). split_and!; [lia | done | done].
  - by eexists stages, _.
Qed.

(** The chosen brake is monotone in the elapsed time. *)
Lemma choose_stage_mono profile : forall e e' c c',
  e <= e' -> StronglySorted stage_before profile ->
  Forall (fun stage => (c' ≤ᵈ stage_brake stage) = true) profile ->
  (c ≤ᵈ c') = true ->
  (choose_stage e c profile ≤ᵈ choose_stage e' c' profile) = true.
Proof.
  induction profile as [| st profile IH]; simpl; intros e e' c c' He Hs Hall Hc; [done |].
  inversion Hs as [| ? ? Hs' Hst]; inversion Hall as [| ? ? Hc' Hall']; subst.
  assert (Hst' : Forall (fun st' => (stage_brake st ≤ᵈ stage_brake st') = true) profile).
  { eapply Forall_impl; [exact Hst |]. by intros ? []. }
  destruct (d_le_not_nan _ _ Hc') as [_ Hnan].
  destruct (Z.leb_spec (stage_after_ms st) e), (Z.leb_spec (stage_after_ms st) e'); try lia;
    apply IH; auto using d_le_refl; by eapply d_le_trans.
Qed.

Lemma choose_stage_back stages back e c :
  stage_after_ms back <= e -> choose_stage e c (stages ++ [back]) = stage_brake back.
Proof.
  intros H. unfold choose_stage. rewrite foldl_app. simpl.
  by rewrite (proj2 (Z.leb_le _ _) H).
Qed.

Lemma choose_stage_range profile : forall e c,
  Forall (fun stage => (d_zero ≤ᵈ stage_brake stage) = true /\
                       (stage_brake stage ≤ᵈ d_one) = true) profile ->
  (d_zero ≤ᵈ c) = true -> (c ≤ᵈ d_one) = true ->
  (d_zero ≤ᵈ choose_stage e c profile) = true /\ (choose_stage e c profile ≤ᵈ d_one) = true.
Proof.
  induction profile as [| st profile IH]; simpl; intros e c Hall H0 H1; [done |].
  inversion Hall as [| ? ? [] ?]; subst. by destruct (_ <=? e); apply IH.
Qed.

(** ** Lemmas: reachable machines *)

(** What holds of every reachable machine: the profile and the timeouts are
    those the constructor checked, a driving state remembers its command and its
    time, and a timeout remembers when it began. *)
Record machine_ok (s : SafetyStateMachine) : Prop := {
  mo_profile : profile_ok (sm_profile s);
  mo_timeouts : 0 < sm_degraded_timeout_ms s < sm_control_timeout_ms s;
  mo_driving : match sm_state s with
               | SafetyControlActive | SafetyDegraded | SafetyTimeoutBrake =>
                   is_Some (sm_last_valid_command s) /\ is_Some (sm_last_valid_receive_ms s)
               | _ => True
               end;
  mo_entered : sm_state s = SafetyTimeoutBrake -> is_Some (sm_timeout_entered_ms s);
}.

Lemma safety_new_ok degraded timeout profile s :
  SafetyStateMachine_new degraded timeout profile = Ok s ->
  machine_ok s /\ sm_state s = SafetyInit.
Proof.
  unfold SafetyStateMachine_new. intros H. apply throw_if_seq in H as [Ht H].
  apply result_bind_ok in H as (p & Hp & H). injection H as <-. bool_prop.
  apply normalize_profile_ok in Hp as [Hp _]. split; [| done]. by split.
Qed.

Local Ltac solve_machine_ok :=
  split; simpl; try done; try (by split; eauto); intros; try discriminate; eauto.

Lemma safety_step_ok op s : machine_ok s -> machine_ok (safety_step op s).
Proof.
  intros [Hp Ht Hd He]. destruct s as [dt ct p st c r e]; simpl in *.
  destruct op as [| cmd t | t | confirmed by_ | |]; simpl.
  - unfold mark_ready. case_decide; solve_machine_ok.
  - unfold on_valid_command. simpl. destruct (cmd_estop cmd); [solve_machine_ok |].
    case_decide; solve_machine_ok.
  - unfold safety_tick; simpl. destruct st, r as [r |]; try solve [solve_machine_ok].
    all: destruct (ct <=? _); [| destruct (dt <=? _)]; solve_machine_ok.
  - unfold safety_reset_estop. run_monad.
    destruct (bool_decide _ || _ || _); solve_machine_ok.
  - unfold reset_to_standby. run_monad. case_decide; solve_machine_ok.
  - solve_machine_ok.
Qed.

Lemma safety_reachable_ok s : safety_reachable s -> machine_ok s.
Proof. induction 1; [by eapply safety_new_ok | by apply safety_step_ok]. Qed.

(** The configuration never changes. *)
Lemma safety_step_config op s :
  sm_degraded_timeout_ms (safety_step op s) = sm_degraded_timeout_ms s /\
  sm_control_timeout_ms (safety_step op s) = sm_control_timeout_ms s /\
  sm_profile (safety_step op s) = sm_profile s.
Proof.
  destruct s as [dt ct p st c r e], op as [| cmd t | t | confirmed by_ | |]; simpl.
  - unfold mark_ready. by case_decide.
  - unfold on_valid_command. destruct (cmd_estop cmd); [done |]. by case_decide.
  - unfold safety_tick; simpl.
    destruct st, r; try done; destruct (ct <=? _); try done; by destruct (dt <=? _).
  - unfold safety_reset_estop. run_monad. by destruct (bool_decide _ || _ || _).
  - unfold reset_to_standby. run_monad. by case_decide.
  - done.
Qed.

Lemma safety_reset_estop_view confirmed by_ s :
  safety_reset_estop confirmed by_ s =
    if bool_decide (sm_state s = SafetyEstop) && confirmed && negb (string_empty by_)
    then (Ok true, enter_standby s) else (Ok false, s).
Proof.
  unfold safety_reset_estop. run_monad.
  destruct (decide (sm_state s = SafetyEstop)) as [E | E].
  - rewrite E. rewrite bool_decide_false, bool_decide_true by tauto.
    by destruct confirmed, (string_empty by_).
  - rewrite bool_decide_true, bool_decide_false by done. done.
Qed.

Lemma safety_step_latched op s :
  latched s -> is_local_reset op = false -> latched (safety_step op s).
Proof.
  intros Hl Hr. destruct op as [| cmd t | t | confirmed by_ | |]; simpl.
  - unfold mark_ready. case_decide as E; [| done]. destruct Hl; congruence.
  - unfold on_valid_command. destruct (cmd_estop cmd); [by left |]. by rewrite decide_True.
  - destruct s as [dt ct p st c r e]. unfold latched, safety_tick in *; simpl in *.
    destruct Hl as [-> | ->], r; simpl; auto.
  - simpl in Hr. rewrite safety_reset_estop_view.
    by rewrite <- andb_assoc, Hr, andb_false_r.
  - unfold reset_to_standby. run_monad. by rewrite decide_True.
  - by right.
Qed.

Lemma safety_run_latched ops s :
  latched s -> forallb (fun op => negb (is_local_reset op)) ops = true ->
  latched (safety_run ops s).
Proof.
  revert s. induction ops as [| op ops IH]; intros s Hl H; simpl in *; [done |].
  bool_prop. apply IH; [by apply safety_step_latched | done].
Qed.

(** Ticks alone, in time order, from a driving state. *)
Lemma ticks_timeout ts : forall s r t1,
  sm_state s = SafetyControlActive \/ sm_state s = SafetyDegraded ->
  sm_last_valid_receive_ms s = Some r ->
  StronglySorted Z.le ts -> t1 ∈ ts -> r + sm_control_timeout_ms s <= t1 ->
  exists te, te <= t1 /\
    safety_run (map OpTick ts) s =
      s <| sm_timeout_entered_ms := Some te |> <| sm_state := SafetyTimeoutBrake |>.
Proof.
  induction ts as [| t ts IH]; intros s r t1 Hs Hr Hsort Hin Ht1; [by apply not_elem_of_nil in Hin |].
  inversion Hsort as [| ? ? Hsort' Hall]; subst. simpl.
  destruct s as [dt ct p st c r' e]; simpl in *. subst r'.
  destruct (Z.leb_spec ct (t - r)) as [Hct | Hct].
  - exists t. split.
    { apply elem_of_cons in Hin as [-> | Hin]; [lia |].
      rewrite Forall_forall in Hall. by apply Hall. }
    assert (Hrun : forall ts', Forall (Z.le t) ts' ->
      safety_run (map OpTick ts') (mkSafetyStateMachine dt ct p SafetyTimeoutBrake c (Some r) (Some t)) =
      mkSafetyStateMachine dt ct p SafetyTimeoutBrake c (Some r) (Some t)).
    { induction 1 as [| t' ts' Hle _ IH']; simpl; [done |].
      unfold safety_tick; simpl. rewrite (proj2 (Z.leb_le ct (t' - r))) by lia. exact IH'. }
    replace (safety_tick t _) with
      (mkSafetyStateMachine dt ct p SafetyTimeoutBrake c (Some r) (Some t)).
    { exact (Hrun ts Hall). }
    unfold safety_tick; simpl.
    rewrite (proj2 (Z.leb_le _ _) Hct). by destruct Hs as [-> | ->].
  - apply elem_of_cons in Hin as [-> | Hin]; [lia |].
    assert (Hstep : exists st', (st' = SafetyControlActive \/ st' = SafetyDegraded) /\
      safety_tick t (mkSafetyStateMachine dt ct p st c (Some r) e) =
      mkSafetyStateMachine dt ct p st' c (Some r) e).
    { unfold safety_tick; simpl. rewrite (proj2 (Z.leb_gt _ _) Hct).
      destruct Hs as [-> | ->], (dt <=? t - r); eauto. }
    destruct Hstep as (st' & Hst' & ->).
    destruct (IH (mkSafetyStateMachine dt ct p st' c (Some r) e) r t1) as (te & Hte & Hrun);
      try done.
    exists te. by rewrite Hrun.
Qed.

(** ** Properties *)

(** Latches.  Once the machine is in ESTOP or FAULT, no sequence of
    commands, ticks, readiness signals, faults or standby requests takes it out,
    only a confirmed and authorised local reset can; and while latched the
    output is the full emergency brake with neither throttle nor steering. *)
Theorem safety_latch (ops : list safety_op) (s : SafetyStateMachine) (t : Z) :
  latched s -> forallb (fun op => negb (is_local_reset op)) ops = true ->
  latched (safety_run ops s) /\
  exists gear estop,
    current_output t (safety_run ops s) = mkControlOutput gear d_zero d_zero d_one estop true.
Proof.
  intros Hl H. pose proof (safety_run_latched ops s Hl H) as Hr. split; [done |].
  unfold current_output. destruct Hr as [-> | ->]; eauto.
Qed.

Definition stages_example : list DecelerationStage :=
  [mkDecelerationStage 0 (d_lit 3 1); mkDecelerationStage 400 (d_lit 6 1);
   mkDecelerationStage 900 d_one].

Definition machine_example (state : SafetyState) (received : option Z) : SafetyStateMachine :=
  mkSafetyStateMachine 300 800 stages_example state
    (match received with Some t => Some (command_example 1 t d_one false) | None => None end)
    received None.

Lemma safety_latch_witness :
  let ops := [OpCommand (command_example 9 1000 d_one false) 1000; OpTick 5000;
              OpResetEstop false "operator"; OpResetToStandby; OpMarkReady] in
  let s := machine_example SafetyEstop (Some 900) in
  latched (safety_run ops s) /\
  exists gear estop,
    current_output 5000 (safety_run ops s) =
      mkControlOutput gear d_zero d_zero d_one estop true.
Proof. intros ops s. apply (safety_latch ops s 5000); [by left | reflexivity]. Defined.

(** Leaving the latch.  [reset_estop] answers [true] exactly in ESTOP with a
    local confirmation and a non-empty authoriser; it then forgets the last
    command and its time and stands by with the neutral output, and otherwise
    it changes nothing.  In particular FAULT is never reset by it. *)
Theorem safety_reset_exact (confirmed : bool) (by_ : string) (s : SafetyStateMachine) (t : Z) :
  let '(answer, s') := safety_reset_estop confirmed by_ s in
  (answer = Ok true <-> sm_state s = SafetyEstop /\ confirmed = true /\ by_ <> "") /\
  (answer = Ok true -> s' = enter_standby s /\ current_output t s' = ControlOutput_default) /\
  (answer <> Ok true -> answer = Ok false /\ s' = s).
Proof.
  rewrite safety_reset_estop_view. unfold string_empty.
  destruct (decide (sm_state s = SafetyEstop)) as [E | E];
    [rewrite bool_decide_true by done | rewrite bool_decide_false by done];
    destruct confirmed, (String.eqb_spec by_ ""); simpl; split_and!; try done; naive_solver.
Qed.

(** No stale throttle.  For every reachable machine and every time [t], if
    the output right after [tick t] asks for throttle, then the machine is in
    CONTROL_ACTIVE and a valid command that asked for exactly that throttle was
    received less than the degraded timeout before [t]. *)
Theorem safety_no_stale_throttle (s : SafetyStateMachine) (t : Z) :
  safety_reachable s ->
  out_throttle (current_output t (safety_tick t s)) <> d_zero ->
  sm_state s = SafetyControlActive /\
  exists c r, sm_last_valid_command s = Some c /\ sm_last_valid_receive_ms s = Some r /\
    t - r < sm_degraded_timeout_ms s /\
    out_throttle (current_output t (safety_tick t s)) = cmd_throttle c.
Proof.
  intros Hr. apply safety_reachable_ok in Hr as [_ _ Hd _].
  destruct s as [dt ct p st c r e]; unfold safety_tick, current_output; simpl in *.
  destruct st, r as [r |]; simpl; try done; try by (destruct Hd as [_ [? [=]]]).
  all: destruct (Z.leb_spec ct (t - r)), (Z.leb_spec dt (t - r)); simpl; try done.
  all: destruct c as [c |]; simpl; try done; eauto 10.
Qed.

Lemma safety_reachable_ops ops s : safety_reachable s -> safety_reachable (safety_run ops s).
Proof.
  revert s. induction ops as [| op ops IH]; intros s H; simpl; [done |]. by apply IH, reach_step.
Qed.

Definition machine_initial : SafetyStateMachine :=
  mkSafetyStateMachine 300 800 stages_example SafetyInit None None None.

Lemma machine_initial_reachable : safety_reachable machine_initial.
Proof. apply (reach_new 300 800 stages_example). vm_compute. reflexivity. Defined.

Lemma safety_no_stale_throttle_witness :
  let s := safety_run [OpMarkReady; OpCommand (command_example 1 1000 d_one false) 1000]
             machine_initial in
  sm_state s = SafetyControlActive /\
  exists c r, sm_last_valid_command s = Some c /\ sm_last_valid_receive_ms s = Some r /\
    1100 - r < sm_degraded_timeout_ms s /\
    out_throttle (current_output 1100 (safety_tick 1100 s)) = cmd_throttle c.
Proof.
  intros s. apply (safety_no_stale_throttle s 1100).
  - apply safety_reachable_ops, machine_initial_reachable.
  - vm_compute. discriminate.
Defined.

(** The timeout brake.  From a reachable driving machine whose last valid
    command came at [r], let ticks run in time order with some tick [t1] at or
    after [r] plus the control timeout.  Then the machine is in TIMEOUT_BRAKE,
    holds neither throttle nor steering, its brake never decreases with time,
    and from [t1] plus the last stage's delay on it is the full emergency
    brake, whatever the configured stages. *)
Theorem safety_timeout_brakes (s : SafetyStateMachine) (r t1 : Z) (ts : list Z)
    (back : DecelerationStage) :
  safety_reachable s ->
  sm_state s = SafetyControlActive \/ sm_state s = SafetyDegraded ->
  sm_last_valid_receive_ms s = Some r ->
  StronglySorted Z.le ts -> t1 ∈ ts -> r + sm_control_timeout_ms s <= t1 ->
  last (sm_profile s) = Some back ->
  let s' := safety_run (map OpTick ts) s in
  sm_state s' = SafetyTimeoutBrake /\
  (forall t, out_throttle (current_output t s') = d_zero /\
             out_steering (current_output t s') = d_zero) /\
  (forall t t', t <= t' ->
     (out_brake (current_output t s') ≤ᵈ out_brake (current_output t' s')) = true) /\
  (forall t, t1 + stage_after_ms back <= t ->
     out_brake (current_output t s') = d_one /\
     out_full_emergency_brake (current_output t s') = true).
Proof.
  intros Hreach Hs Hr Hsort Hin Ht1 Hback s'.
  apply safety_reachable_ok in Hreach as [[_ Psort Prange (stages & b & Pb & Pone)] _ _ _].
  destruct (ticks_timeout ts s r t1 Hs Hr Hsort Hin Ht1) as (te & Hte & Hrun).
  subst s'. rewrite Hrun. unfold current_output, brake_for_timeout. simpl.
  rewrite Pb, last_snoc in Hback. injection Hback as <-.
  split_and!; try done.
  - intros t t' Ht. apply choose_stage_mono; [lia | done | | done].
    eapply Forall_impl; [exact Prange |]. by intros ? (? & ? & ?).
  - intros t Ht. rewrite Pb, choose_stage_back by lia. by rewrite Pone.
Qed.

Lemma safety_timeout_brakes_witness :
  let s := safety_run [OpMarkReady; OpCommand (command_example 1 1000 d_one false) 1000]
             machine_initial in
  let s' := safety_run (map OpTick [1100; 1350; 1850; 2500]) s in
  sm_state s' = SafetyTimeoutBrake /\
  (forall t, out_throttle (current_output t s') = d_zero /\
             out_steering (current_output t s') = d_zero) /\
  (forall t t', t <= t' ->
     (out_brake (current_output t s') ≤ᵈ out_brake (current_output t' s')) = true) /\
  (forall t, 1850 + 900 <= t ->
     out_brake (current_output t s') = d_one /\
     out_full_emergency_brake (current_output t s') = true).
Proof.
  intros s. apply (safety_timeout_brakes s 1000 1850 [1100; 1350; 1850; 2500]
    (mkDecelerationStage 900 d_one)).
  - apply safety_reachable_ops, machine_initial_reachable.
  - left. reflexivity.
  - reflexivity.
  - repeat first [lia | constructor].
  - by apply (bool_decide_unpack _).
  - simpl. lia.
  - reflexivity.
Defined.

(** Profile normalisation.  A braking profile the constructor accepts keeps
    its stage times and becomes well formed: it starts at 0 ms, its stages come
    strictly later and never brake less than the one before (rounding slack is
    removed), every brake lies in [0, 1] and the last is exactly 1.0. *)
Theorem profile_normalized (profile profile' : list DecelerationStage) :
  normalize_and_validate_deceleration_profile profile = Ok profile' ->
  profile_ok profile' /\ map stage_after_ms profile' = map stage_after_ms profile.
Proof. apply normalize_profile_ok. Qed.

Lemma profile_normalized_witness :
  let p := [mkDecelerationStage 0 (d_lit 5 1);
            mkDecelerationStage 100 (d_lit 4999999999 10);
            mkDecelerationStage 300 (d_lit 9999999999 10)] in
  let p' := [mkDecelerationStage 0 (d_lit 5 1); mkDecelerationStage 100 (d_lit 5 1);
             mkDecelerationStage 300 d_one] in
  profile_ok p' /\ map stage_after_ms p' = map stage_after_ms p.
Proof. intros p p'. apply (profile_normalized p p'). vm_compute. reflexivity. Defined.

(** A session brake on the vehicle's scale.  For admissible pressures the
    normalised request is the share of the vehicle's pressure that the session
    asks for, zero on a vehicle without brake pressure; anything out of range
    (NaN and infinities included) throws [std::invalid_argument]. *)
Theorem normalized_brake_request_exact (b session vehicle : double) :
  let admissible := (d_zero ≤ᵈ b) && (b ≤ᵈ d_one) && (d_zero ≤ᵈ session) &&
    (session ≤ᵈ vehicle) && (vehicle ≤ᵈ kMaxOrdinaryBrakePressureBar) in
  match vehicle_normalized_brake_request b session vehicle with
  | Ok x => admissible = true /\
            x = (if d_zero <ᵈ vehicle then (b ⊗ session) ⊘ vehicle else d_zero)
  | Throw e => admissible = false /\ exists m, e = InvalidArgument m
  end.
Proof.
  cbv zeta. unfold vehicle_normalized_brake_request.
  rewrite !(require_finite_range_view b), !(require_finite_range_view vehicle) by done.
  destruct ((d_zero ≤ᵈ b) && (b ≤ᵈ d_one)); simpl; [| by eauto].
  destruct (d_zero ≤ᵈ vehicle) eqn:E2; simpl.
  2: { split; [| eauto].
       destruct (d_zero ≤ᵈ session) eqn:E3, (session ≤ᵈ vehicle) eqn:E4; try done.
       by rewrite (d_le_trans _ _ _ E3 E4) in E2. }
  destruct (vehicle ≤ᵈ kMaxOrdinaryBrakePressureBar) eqn:E3; simpl.
  2: { split; [by rewrite andb_false_r | eauto]. }
  rewrite require_finite_range_view
    by (done || by apply (d_between_finite d_zero _ kMaxOrdinaryBrakePressureBar)).
  destruct (d_zero ≤ᵈ session), (session ≤ᵈ vehicle); simpl; eauto.
Qed.
