(* ===== verification/HttpHelpers.v ===== *)
(** HttpHelpers: requests, responses and the small parsers of the signaling server
    (server.hpp:31-55, server.cpp:277-620, 838-906 and 1638-1655).

    - [HttpRequest], [ServerResponse]; URL decoding, path splitting, credentials;
    - the readers of JSON fields: [required_string], [required_uint64] and the others;
    - [sanitize_log_value], what the audit log may contain;
    - [path_parts] is: split at the slashes, drop the empty pieces, decode the rest
      ([path_parts_splits]); decimal text read back gives the number it was printed from
      ([stoull_reads_back]). *)
From S2P Require Export Protocol.

(** ** Characters and strings *)

Definition chars (s : string) : list ascii := list_ascii_of_string s.
Definition of_chars (s : list ascii) : string := string_of_list_ascii s.

(** [std::tolower] of the C locale. *)
Definition to_lower (c : ascii) : ascii :=
  let n := nat_of_ascii c in
  if (65 <=? n)%nat && (n <=? 90)%nat then ascii_of_nat (n + 32) else c.

Definition lower (value : string) : string := of_chars (map to_lower (chars value)).

(** [" \t\r\n"] *)
Definition trimmed_char (c : ascii) : bool :=
  existsb (Ascii.eqb c) [" "%char; "009"%char; "013"%char; "010"%char].

Fixpoint drop_while (p : ascii -> bool) (s : list ascii) : list ascii :=
  match s with
  | c :: s' => if p c then drop_while p s' else s
  | [] => []
  end.

Definition trim (value : string) : string :=
  of_chars (rev (drop_while trimmed_char (rev (drop_while trimmed_char (chars value))))).

Fixpoint list_starts_with (prefix s : list ascii) : bool :=
  match prefix, s with
  | [], _ => true
  | p :: prefix, c :: s => Ascii.eqb p c && list_starts_with prefix s
  | _ :: _, [] => false
  end.

Definition starts_with (prefix s : string) : bool := list_starts_with (chars prefix) (chars s).

(** [s.find(word) != npos] *)
Fixpoint list_contains (word s : list ascii) : bool :=
  list_starts_with word s || match s with [] => false | _ :: s => list_contains word s end.

Definition string_contains (word s : string) : bool := list_contains (chars word) (chars s).

(** [s.find(word)] *)
Fixpoint find_text (word s : list ascii) : option nat :=
  if list_starts_with word s then Some O
  else match s with [] => None | _ :: s => S <$> find_text word s end.

Definition http_newline : list ascii := ["013"%char; "010"%char].
Definition http_blank_line : list ascii := http_newline ++ http_newline.

Definition crlf_text : string := of_chars http_newline.

(** The text before the first [separator] and, when there is one, the text after it. *)
Fixpoint break_at (separator : ascii) (s : list ascii) : list ascii * option (list ascii) :=
  match s with
  | [] => ([], None)
  | c :: s =>
      if Ascii.eqb c separator then ([], Some s)
      else let '(piece, rest) := break_at separator s in (c :: piece, rest)
  end.

(** The pieces of [s] between separators: one more than there are separators. *)
Fixpoint split_on (separator : ascii) (s : list ascii) : list (list ascii) :=
  match s with
  | [] => [[]]
  | c :: s =>
      if Ascii.eqb c separator then [] :: split_on separator s
      else match split_on separator s with
           | piece :: pieces => (c :: piece) :: pieces
           | [] => [[c]]
           end
  end.

Definition hex_digit (value : ascii) : Z :=
  let n := Z.of_nat (nat_of_ascii value) in
  if (48 <=? n) && (n <=? 57) then n - 48
  else if (97 <=? n) && (n <=? 102) then n - 97 + 10
  else if (65 <=? n) && (n <=? 70) then n - 65 + 10
  else -1.

(** ** URLs *)

Fixpoint url_decode_chars (value : list ascii) : result (list ascii) :=
  match value with
  | [] => Ok []
  | c :: rest =>
      if Ascii.eqb c "+"%char then tail ← url_decode_chars rest; Ok (" "%char :: tail)
      else
        match rest with
        | h :: l :: rest' =>
            if Ascii.eqb c "%"%char then
              let high := hex_digit h in
              let low := hex_digit l in
              throw_if ((high <? 0) || (low <? 0)) (InvalidArgument "invalid URL encoding");;
              tail ← url_decode_chars rest';
              Ok (ascii_of_nat (Z.to_nat (Z.lor (Z.shiftl high 4) low)) :: tail)
            else tail ← url_decode_chars rest; Ok (c :: tail)
        | _ => tail ← url_decode_chars rest; Ok (c :: tail)
        end
  end.

Definition url_decode (value : string) : result string :=
  decoded ← url_decode_chars (chars value); Ok (of_chars decoded).

(** The loop of [path_parts]; every round consumes a character. *)
Fixpoint path_parts_loop (fuel : nat) (path : list ascii) : result (list string) :=
  match fuel with
  | O => Ok []
  | S fuel =>
      match drop_while (Ascii.eqb "/"%char) path with
      | [] => Ok []
      | path =>
          let '(piece, rest) := break_at "/"%char path in
          part ← url_decode (of_chars piece);
          match rest with
          | None => Ok [part]
          | Some rest => parts ← path_parts_loop fuel rest; Ok (part :: parts)
          end
      end
  end.

Definition path_parts (path : string) : result (list string) :=
  path_parts_loop (S (String.length path)) (chars path).

(** ** Requests and responses *)

Record HttpRequest := mkHttpRequest {
  http_method : string;
  http_target : string;
  http_peer_address : string;
  http_path : string;
  http_query : gmap string string;
  http_headers : gmap string string;
  http_body : string;
}.

#[global] Instance eta_HttpRequest : Settable HttpRequest :=
  fields! mkHttpRequest
    <http_method; http_target; http_peer_address; http_path; http_query; http_headers;
     http_body>.

Record ServerResponse := mkServerResponse {
  resp_status : Z;
  resp_content_type : string;
  resp_body : string;
  resp_headers : list (string * string);
}.

#[global] Instance eta_ServerResponse : Settable ServerResponse :=
  fields! mkServerResponse <resp_status; resp_content_type; resp_body; resp_headers>.

Definition query_value (request : HttpRequest) (key : string) : string :=
  default "" (http_query request !! key).

Definition credential_value (request : HttpRequest) (query_key header_name : string) : string :=
  match http_headers request !! header_name with
  | Some value => if negb (string_empty value) then value else query_value request query_key
  | None => query_value request query_key
  end.

Definition message_key (session_id recipient : string) : string :=
  session_id +:+ String "031"%char recipient.

Definition emplace_header (name value : string) (response : ServerResponse) : ServerResponse :=
  response <| resp_headers ::= fun headers => headers ++ [(name, value)] |>.

Definition add_request_id_header (request_id : string) (response : ServerResponse) :
    ServerResponse :=
  emplace_header "X-Request-ID" request_id response.

(** ** Numbers in text *)

(** [isspace] of the C locale. *)
Definition is_space (c : ascii) : bool :=
  let n := nat_of_ascii c in (n =? 32)%nat || ((9 <=? n)%nat && (n <=? 13)%nat).

Fixpoint decimal_digits (acc : Z) (count : nat) (s : list ascii) : Z * nat :=
  match s with
  | c :: s' =>
      let n := Z.of_nat (nat_of_ascii c) in
      if (48 <=? n) && (n <=? 57) then decimal_digits (10 * acc + (n - 48)) (S count) s'
      else (acc, count)
  | [] => (acc, count)
  end.

(** What [std::stoull] and [std::stoll] read in base ten: a sign, the magnitude and the
    number of characters consumed; nothing when there is no digit. *)
Definition scan_decimal (text : string) : option (bool * Z * nat) :=
  let all := chars text in
  let after_space := drop_while is_space all in
  let spaces := (length all - length after_space)%nat in
  let '(negative, signs, rest) :=
    match after_space with
    | c :: s =>
        if Ascii.eqb c "-"%char then (true, 1%nat, s)
        else if Ascii.eqb c "+"%char then (false, 1%nat, s) else (false, 0%nat, after_space)
    | [] => (false, 0%nat, [])
    end in
  let '(magnitude, count) := decimal_digits 0 0 rest in
  if (count =? 0)%nat then None
  else Some (negative, magnitude, (spaces + signs + count)%nat).

(** [std::stoull(text, &consumed)]: a minus sign negates modulo 2^64. *)
Definition stoull (text : string) : result (Z * nat) :=
  match scan_decimal text with
  | None => Throw (InvalidArgument "stoull")
  | Some (negative, magnitude, consumed) =>
      if 2 ^ 64 <=? magnitude then Throw (OutOfRange "stoull")
      else Ok (u64 (if negative : bool then - magnitude else magnitude), consumed)
  end.

Definition stoll (text : string) : result (Z * nat) :=
  match scan_decimal text with
  | None => Throw (InvalidArgument "stoll")
  | Some (negative, magnitude, consumed) =>
      let value := if negative : bool then - magnitude else magnitude in
      if is_i64 value then Ok (value, consumed) else Throw (OutOfRange "stoll")
  end.

(** ** JSON *)

Section json.
Context {J : JsonApi}.

Definition HttpRequest_json_body (request : HttpRequest) : result json :=
  if string_empty (http_body request) then Ok (j_object [])
  else
    rethrow_json (fun what => InvalidArgument ("invalid JSON body: " +:+ what))
      (value ← j_parse (http_body request);
       throw_if (negb (is_object value)) (InvalidArgument "JSON body must be an object");;
       Ok value).

Definition ServerResponse_json (status : Z) (value : json) : result ServerResponse :=
  body ← j_dump value;
  Ok (mkServerResponse status "application/json; charset=utf-8" body []).

Definition detail_json (d : detail) : json :=
  match d with
  | DetailString s => j_string s
  | DetailInt z => j_int z
  | DetailUint z => j_uint z
  end.

(** [body.update(details)] *)
Definition j_update (details : list (string * detail)) (body : json) : json :=
  j_set_all (map (fun kv => (kv.1, detail_json kv.2)) details) body.

Definition too_many_requests_response (message : string) (retry_after_ms : Z) :
    result ServerResponse :=
  response ← ServerResponse_json 429
               (j_object [("error", j_string message); ("retry_after_ms", j_int retry_after_ms)]);
  let retry_after_seconds :=
    Z.quot retry_after_ms 1000 + (if Z.rem retry_after_ms 1000 =? 0 then 0 else 1) in
  Ok (emplace_header "Cache-Control" "no-store"
        (emplace_header "Retry-After" (to_string_Z (Z.max 1 retry_after_seconds)) response)).

Definition required_string (key : string) (value : json) : result string :=
  let failure := Throw (InvalidArgument (key +:+ " must be a non-empty string")) in
  if negb (j_contains key value) then failure
  else
    field ← j_at key value;
    if negb (is_string field) then failure
    else
      text ← get_string field;
      if string_empty text then failure else Ok text.

Definition optional_string (key : string) (value : json) : result string :=
  if negb (j_contains key value) then Ok ""
  else
    field ← j_at key value;
    if is_null field then Ok ""
    else
      throw_if (negb (is_string field)) (InvalidArgument (key +:+ " must be a string"));;
      get_string field.

(** A positive integer written as text, if [text] is one as a whole. *)
Definition positive_text (text : string) : option Z :=
  match stoull text with
  | Ok (parsed, consumed) =>
      if (0 <? parsed) && (consumed =? String.length text)%nat then Some parsed else None
  | Throw _ => None
  end.

(** The value when the field holds an integer type, and whether its sign was read. *)
Definition required_uint64 (key : string) (value : json) : result Z :=
  throw_if (negb (j_contains key value)) (InvalidArgument (key +:+ " is required"));;
  field ← j_at key value;
  if is_number_unsigned field then get_uint64 field
  else
    signed ← (if is_number_integer field
              then parsed ← get_int64 field; Ok (if 0 <? parsed then Some parsed else None)
              else Ok None);
    match signed with
    | Some parsed => Ok parsed
    | None =>
        text ← (if is_string field then text ← get_string field; Ok (positive_text text)
                else Ok None);
        match text with
        | Some parsed => Ok parsed
        | None => Throw (InvalidArgument (key +:+ " must be a positive integer"))
        end
    end.

Definition required_int64 (key : string) (value : json) : result Z :=
  let failure := Throw (InvalidArgument (key +:+ " must be an integer")) in
  if negb (j_contains key value) then failure
  else field ← j_at key value; if is_number_integer field then get_int64 field else failure.

Definition required_nonnegative_uint64 (key : string) (value : json) : result Z :=
  let failure := Throw (InvalidArgument (key +:+ " must be a non-negative integer")) in
  if negb (j_contains key value) then failure
  else
    field ← j_at key value;
    if negb (is_number_integer field) then failure
    else if is_number_unsigned field then get_uint64 field
    else parsed ← get_int64 field; if parsed <? 0 then failure else Ok parsed.

Definition required_nonnegative_number (key : string) (value : json) : result double :=
  let failure := Throw (InvalidArgument (key +:+ " must be a non-negative number")) in
  if negb (j_contains key value) then failure
  else
    field ← j_at key value;
    if negb (is_number field) then failure
    else
      parsed ← get_double field;
      if negb (d_isfinite parsed) || (parsed <ᵈ d_zero) then failure else Ok parsed.

(** The lambda [required_boolean] of the WebRTC report. *)
Definition required_boolean (key : string) (value : json) : result bool :=
  let failure := Throw (InvalidArgument (key +:+ " must be a boolean")) in
  if negb (j_contains key value) then failure
  else field ← j_at key value; if is_boolean field then get_bool field else failure.

(** ** What the audit log may contain *)

Definition sensitive_log_key (key : string) : bool :=
  let key := lower key in
  existsb (fun word => string_contains word key)
    ["password"; "token"; "secret"; "credential"; "authorization"; "cookie"; "private_key";
     "api_key"].

(** [depth] counts down from seven levels. *)
Fixpoint sanitize_levels (depth : nat) (value : json) : json :=
  match depth with
  | O => j_string "[depth-limited]"
  | S depth =>
      if is_object value then
        j_set_all
          (map (fun kv => (kv.1, if sensitive_log_key kv.1 then j_string "[redacted]"
                                 else sanitize_levels depth kv.2))
             (take 64 (j_items value)))
          (j_object [])
      else if is_array value then
        j_array (map (sanitize_levels depth) (take 64 (j_elements value)))
      else
        match (if is_string value then get_string value else Throw (JsonException "")) with
        | Ok text => j_string (of_chars (take 1024 (chars text)))
        | Throw _ => value
        end
  end.

Definition sanitize_log_value (value : json) : json := sanitize_levels 7 value.
End json.

(** ** The parsers against what they are meant to compute *)

(** ** Paths *)

Definition nonempty {A} (xs : list A) : bool := match xs with [] => false | _ => true end.

(** The reference: the non-empty pieces between slashes, each decoded. *)
Definition path_pieces (path : list ascii) : list string :=
  map of_chars (List.filter nonempty (split_on "/"%char path)).

Lemma path_pieces_slashes path :
  path_pieces (drop_while (Ascii.eqb "/"%char) path) = path_pieces path.
Proof.
  induction path as [| c path IH]; [done |]. cbn [drop_while].
  destruct (Ascii.eqb_spec "/"%char c) as [<- |]; [| done].
  rewrite IH. unfold path_pieces. by simpl.
Qed.

Lemma break_at_split c s :
  split_on c s = (break_at c s).1 ::
                 match (break_at c s).2 with None => [] | Some rest => split_on c rest end.
Proof.
  induction s as [| a s IH]; [done |]. simpl. destruct (Ascii.eqb a c); [done |].
  rewrite IH. by destruct (break_at c s).
Qed.

Lemma break_at_rest c s rest :
  (break_at c s).2 = Some rest -> (length rest < length s)%nat.
Proof.
  revert rest. induction s as [| a s IH]; intros rest; simpl; [done |].
  destruct (Ascii.eqb a c); [intros [= <-]; simpl; lia |].
  destruct (break_at c s) as [piece rest'] eqn:E. simpl. intros ->. specialize (IH rest eq_refl). lia.
Qed.

Lemma drop_while_shorter p s : (length (drop_while p s) <= length s)%nat.
Proof. induction s as [| c s IH]; simpl; [done |]. destruct (p c); simpl; lia. Qed.

Lemma drop_while_head p s : match drop_while p s with c :: _ => p c = false | [] => True end.
Proof. induction s as [| c s IH]; simpl; [done |]. by destruct (p c) eqn:E. Qed.

Lemma path_parts_loop_splits fuel path :
  (length path < fuel)%nat -> path_parts_loop fuel path = map_result url_decode (path_pieces path).
Proof.
  revert path. induction fuel as [| fuel IH]; intros path Hf; [lia |].
  cbn [path_parts_loop]. rewrite <- path_pieces_slashes.
  pose proof (drop_while_shorter (Ascii.eqb "/"%char) path) as Hl.
  pose proof (drop_while_head (Ascii.eqb "/"%char) path) as Hh.
  destruct (drop_while _ path) as [| c s]; [done |].
  unfold path_pieces. rewrite break_at_split.
  destruct (break_at "/"%char (c :: s)) as [piece rest] eqn:E. cbn [fst snd].
  assert (Hp : nonempty piece = true).
  { simpl in E. rewrite Ascii.eqb_sym, Hh in E. destruct (break_at _ s). by injection E as <- <-. }
  cbn [List.filter]. rewrite Hp. cbn [map map_result]. destruct (url_decode (of_chars piece)) as [part | e]; [| done].
  unfold mbind, result_bind. destruct rest as [rest |]; [| done].
  rewrite IH; [done |]. pose proof (break_at_rest "/"%char (c :: s) rest) as H. rewrite E in H.
  specialize (H eq_refl). simpl in *. lia.
Qed.

Lemma chars_length s : length (chars s) = String.length s.
Proof. induction s as [| c s IH]; simpl; [done | by rewrite <- IH]. Qed.

Lemma chars_app s t : chars (s +:+ t) = chars s ++ chars t.
Proof. induction s as [| c s IH]; simpl; [done | by rewrite <- IH]. Qed.

(** The loop of [path_parts] computes what it is meant to: the path is cut at its
    slashes, the empty pieces are dropped and every piece is decoded, the first bad
    encoding being the error; the fuel of the loop is always enough. *)
Theorem path_parts_splits path :
  path_parts path = map_result url_decode (path_pieces (chars path)).
Proof. apply path_parts_loop_splits. rewrite chars_length. lia. Qed.

(** ** Decimal text *)
Lemma pretty_digit x :
  (x < 10)%N ->
  let n := Z.of_nat (nat_of_ascii (pretty_N_char x)) in
  48 <= n <= 57 /\ n - 48 = Z.of_N x.
Proof.
  intros Hx. assert (x = 0 \/ x = 1 \/ x = 2 \/ x = 3 \/ x = 4 \/ x = 5 \/ x = 6 \/ x = 7 \/
    x = 8 \/ x = 9)%N as H by lia.
  repeat destruct H as [-> | H]; subst; vm_compute; split_and!; congruence.
Qed.

Lemma decimal_digits_cons acc k x s :
  (x < 10)%N ->
  decimal_digits acc k (pretty_N_char x :: s) = decimal_digits (10 * acc + Z.of_N x) (S k) s.
Proof.
  intros Hx. destruct (pretty_digit x Hx) as [[H1 H2] H3]. cbn [decimal_digits]. cbv zeta.
  apply Z.leb_le in H1, H2. rewrite H1, H2, H3. done.
Qed.

(** The digits of [x] shift what was read before and add [x]. *)
Lemma decimal_digits_pretty x :
  exists n, forall acc k s,
    decimal_digits acc k (chars (pretty_N_go x s)) =
      decimal_digits (acc * 10 ^ Z.of_nat n + Z.of_N x) (k + n) (chars s) /\
    String.length (pretty_N_go x s) = (n + String.length s)%nat.
Proof.
  induction (N.lt_wf_0 x) as [x _ IH].
  destruct (decide (x = 0)%N) as [-> | Hx].
  { exists 0%nat. intros acc k s. rewrite pretty_N_go_0. split; [f_equal; lia | done]. }
  destruct (IH (x `div` 10)%N) as [n Hn]; [apply N.div_lt; lia |].
  exists (S n). intros acc k s. rewrite pretty_N_go_step by lia.
  destruct (Hn acc k (String (pretty_N_char (x `mod` 10)) s)) as [H1 H2].
  split; [| rewrite H2; simpl; lia]. rewrite H1. cbn [chars list_ascii_of_string].
  change (list_ascii_of_string s) with (chars s).
  rewrite decimal_digits_cons by (apply N.mod_lt; lia).
  f_equal; [| lia]. rewrite Nat2Z.inj_succ, Z.pow_succ_r by lia.
  rewrite (N.div_mod x 10) at 3 by lia. lia.
Qed.

(** Reading a printed number: its value, and all its characters. *)
Lemma decimal_digits_to_string z :
  0 <= z -> decimal_digits 0 0 (chars (to_string_Z z)) = (z, String.length (to_string_Z z)).
Proof.
  intros Hz. destruct z as [| p | p]; [done | | lia].
  change (to_string_Z (Z.pos p)) with (pretty_N_go (N.pos p) "").
  destruct (decimal_digits_pretty (N.pos p)) as [n Hn]. destruct (Hn 0 0%nat ""%string) as [-> ->].
  simpl. f_equal; lia.
Qed.

Lemma to_string_digits z :
  0 <= z -> exists c s, chars (to_string_Z z) = c :: s /\
    48 <= Z.of_nat (nat_of_ascii c) <= 57.
Proof.
  intros Hz. pose proof (decimal_digits_to_string z Hz) as H.
  destruct (chars (to_string_Z z)) as [| c s] eqn:E.
  - injection H as <- _. discriminate E.
  - exists c, s. split; [done |]. cbn [decimal_digits] in H. cbv zeta in H.
    destruct (_ && _) eqn:Ed; [bool_prop; lia |]. injection H as _ H.
    rewrite <- chars_length, E in H. discriminate H.
Qed.

(** A number printed in decimal and read with [std::stoull] comes back, with every
    character consumed: cursors and generations survive the query string. *)
Theorem stoull_reads_back z :
  0 <= z < 2 ^ 64 -> stoull (to_string_Z z) = Ok (z, String.length (to_string_Z z)).
Proof.
  intros [Hz Hm]. destruct (to_string_digits z Hz) as (c & s & E & Hc).
  unfold stoull, scan_decimal. rewrite E. cbn [drop_while].
  assert (is_space c = false) as ->.
  { unfold is_space. apply orb_false_iff. split; [apply Nat.eqb_neq; lia |].
    apply andb_false_iff. right. apply Nat.leb_gt. lia. }
  destruct (Ascii.eqb_spec c "-"%char) as [-> |]; [by destruct Hc as [[] _] |].
  destruct (Ascii.eqb_spec c "+"%char) as [-> |]; [by destruct Hc as [[] _] |].
  rewrite <- E, decimal_digits_to_string by done.
  destruct (String.length (to_string_Z z)) as [| m] eqn:En.
  { rewrite <- chars_length, E in En. discriminate En. }
  rewrite Nat.sub_diag. simpl. destruct (Z.leb_spec (2 ^ 64) z); [lia |].
  by rewrite u64_small.
Qed.

Lemma stoull_reads_back_witness : stoull (to_string_Z 4096) = Ok (4096, 4%nat).
Proof. refine (stoull_reads_back 4096 _). lia. Defined.
