(* ===== verification/WsCodec.v ===== *)
(** WsCodec: the encodings of websocket.cpp (lines 102-405).

    - base64, UTF-8, close codes, URL encoding, response headers;
    - [websocket_accept_key], the answer to a handshake, and [signaling_websocket_url], the
      address a client connects to. *)
From S2P Require Export HttpHelpers.

(** [static_cast<unsigned char>] of a character, and back. *)
Definition byte_of (c : ascii) : Z := Z.of_nat (nat_of_ascii c).
Definition char_of (b : Z) : ascii := ascii_of_nat (Z.to_nat b).
Definition bytes_of (s : string) : list Z := map byte_of (chars s).
Definition text_of (bytes : list Z) : string := of_chars (map char_of bytes).

(** ** Base64

    server.cpp:608-625 holds a second copy of [base64_encode]. *)

Definition base64_alphabet : list ascii :=
  chars "ABCDEFGHIJKLMNOPQRSTUVWXYZabcdefghijklmnopqrstuvwxyz0123456789+/".

Definition base64_char (block shift : Z) : ascii :=
  nth (Z.to_nat (Z.land (Z.shiftr block shift) 0x3f)) base64_alphabet "="%char.

(** A block of up to three bytes, and its four characters. *)
Definition base64_block (first second third : Z) : Z :=
  Z.lor (Z.lor (Z.shiftl first 16) (Z.shiftl second 8)) third.

Fixpoint base64_encode_bytes (data : list Z) : list ascii :=
  match data with
  | [] => []
  | [a] =>
      let block := base64_block a 0 0 in
      [base64_char block 18; base64_char block 12; "="%char; "="%char]
  | [a; b] =>
      let block := base64_block a b 0 in
      [base64_char block 18; base64_char block 12; base64_char block 6; "="%char]
  | a :: b :: c :: data =>
      let block := base64_block a b c in
      base64_char block 18 :: base64_char block 12 :: base64_char block 6 ::
      base64_char block 0 :: base64_encode_bytes data
  end.

Definition base64_encode (data : list Z) : string := of_chars (base64_encode_bytes data).

Definition base64_digit (c : ascii) : Z :=
  let value := byte_of c in
  if (65 <=? value) && (value <=? 90) then value - 65
  else if (97 <=? value) && (value <=? 122) then value - 97 + 26
  else if (48 <=? value) && (value <=? 57) then value - 48 + 52
  else if value =? 43 then 62
  else if value =? 47 then 63
  else -1.

Definition invalid_base64 : exn := InvalidArgument "invalid base64".

Definition is_padding (c : ascii) : bool := Ascii.eqb c "="%char.

(** Four characters; [last] when nothing follows. *)
Definition base64_decode_block (last : bool) (c0 c1 c2 c3 : ascii) : result (list Z) :=
  let third_padding := is_padding c2 in
  let fourth_padding := is_padding c3 in
  throw_if (is_padding c0 || is_padding c1 || (third_padding && negb fourth_padding) ||
            (negb last && (third_padding || fourth_padding))) invalid_base64;;
  let first := base64_digit c0 in
  let second := base64_digit c1 in
  let third := if third_padding then 0 else base64_digit c2 in
  let fourth := if fourth_padding then 0 else base64_digit c3 in
  throw_if ((first <? 0) || (second <? 0) || (third <? 0) || (fourth <? 0)) invalid_base64;;
  let block :=
    Z.lor (Z.lor (Z.lor (Z.shiftl first 18) (Z.shiftl second 12)) (Z.shiftl third 6)) fourth in
  Ok ([Z.land (Z.shiftr block 16) 0xff] ++
      (if third_padding then [] else [Z.land (Z.shiftr block 8) 0xff]) ++
      (if fourth_padding then [] else [Z.land block 0xff])).

Fixpoint base64_decode_chars (encoded : list ascii) : result (list Z) :=
  match encoded with
  | [] => Ok []
  | c0 :: c1 :: c2 :: c3 :: encoded =>
      let last := match encoded with [] => true | _ => false end in
      decoded ← base64_decode_block last c0 c1 c2 c3;
      rest ← base64_decode_chars encoded;
      Ok (decoded ++ rest)
  | _ => Throw invalid_base64
  end.

Definition base64_decode (encoded : string) : result (list Z) :=
  throw_if (string_empty encoded || negb (Z.of_nat (String.length encoded) mod 4 =? 0)) invalid_base64;;
  base64_decode_chars (chars encoded).

(** ** UTF-8 *)

Definition within (low high byte : Z) : bool := (low <=? byte) && (byte <=? high).
Definition continuation (byte : Z) : bool := within 0x80 0xbf byte.

Fixpoint valid_utf8_bytes (value : list Z) : bool :=
  match value with
  | [] => true
  | first :: value =>
      if first <=? 0x7f then valid_utf8_bytes value
      else if within 0xc2 0xdf first then
        match value with
        | second :: value => if continuation second then valid_utf8_bytes value else false
        | [] => false
        end
      else if within 0xe0 0xef first then
        match value with
        | second :: third :: value =>
            if negb (continuation third) ||
               ((first =? 0xe0) && negb (within 0xa0 0xbf second)) ||
               ((first =? 0xed) && negb (within 0x80 0x9f second)) ||
               (negb (first =? 0xe0) && negb (first =? 0xed) && negb (continuation second))
            then false else valid_utf8_bytes value
        | _ => false
        end
      else if within 0xf0 0xf4 first then
        match value with
        | second :: third :: fourth :: value =>
            if negb (continuation third) || negb (continuation fourth) ||
               ((first =? 0xf0) && negb (within 0x90 0xbf second)) ||
               ((first =? 0xf4) && negb (within 0x80 0x8f second)) ||
               (negb (first =? 0xf0) && negb (first =? 0xf4) && negb (continuation second))
            then false else valid_utf8_bytes value
        | _ => false
        end
      else false
  end.

Definition valid_utf8 (value : string) : bool := valid_utf8_bytes (bytes_of value).

(** ** Frames: codes *)

Definition valid_websocket_close_code (code : Z) : bool :=
  if within 3000 4999 code then true
  else if (code <? 1000) || (1014 <? code) then false
  else negb (code =? 1004) && negb (code =? 1005) && negb (code =? 1006).

Definition validate_websocket_close_payload (payload : string) : result unit :=
  match chars payload with
  | [] => Ok tt
  | [_] => Throw (InvalidArgument "websocket close payload must be empty or include a status code")
  | high :: low :: reason =>
      let code := Z.lor (Z.shiftl (byte_of high) 8) (byte_of low) in
      throw_if (negb (valid_websocket_close_code code))
        (InvalidArgument "invalid websocket close status code");;
      throw_if (negb (valid_utf8 (of_chars reason)))
        (InvalidArgument "websocket close reason must be valid UTF-8")
  end.

Definition supported_websocket_opcode (opcode : Z) : bool :=
  (opcode =? 1) || (opcode =? 8) || (opcode =? 9) || (opcode =? 10).

(** ** URLs *)

Definition is_alnum (b : Z) : bool := within 48 57 b || within 65 90 b || within 97 122 b.

Definition hex_upper (digit : Z) : ascii := nth (Z.to_nat digit) (chars "0123456789ABCDEF") "0"%char.

Definition url_encode_char (c : ascii) : list ascii :=
  if is_alnum (byte_of c) || existsb (Ascii.eqb c) (chars "-_.~") then [c]
  else ["%"%char; hex_upper (Z.shiftr (byte_of c) 4); hex_upper (Z.land (byte_of c) 0x0f)].

Definition url_encode (value : string) : string :=
  of_chars (concat (map url_encode_char (chars value))).

(** [if (s.starts_with(prefix)) s.replace(0, prefix.size(), replacement)] *)
Definition replace_prefix (prefix replacement s : string) : string :=
  if starts_with prefix s
  then replacement +:+ of_chars (drop (String.length prefix) (chars s)) else s.

Definition ends_with (suffix s : string) : bool :=
  list_starts_with (rev (chars suffix)) (rev (chars s)).

(** [s.resize(s.size() - suffix.size())] *)
Definition without_suffix (suffix s : string) : string :=
  of_chars (take (String.length s - String.length suffix) (chars s)).

Definition without_slashes (s : string) : string :=
  of_chars (rev (drop_while (Ascii.eqb "/"%char) (rev (chars s)))).

Definition signaling_websocket_url (signaling_url session_id participant
    connection_generation : string) : result string :=
  throw_if (string_empty session_id || string_empty participant)
    (InvalidArgument "websocket signaling identity is required");;
  let origin := replace_prefix "http://" "ws://" signaling_url in
  let origin := replace_prefix "https://" "wss://" origin in
  throw_if (negb (starts_with "ws://" origin) && negb (starts_with "wss://" origin))
    (InvalidArgument "websocket signaling URL must use ws, wss, http, or https");;
  let origin :=
    if ends_with "/signaling" origin then without_suffix "/signaling" origin else origin in
  let origin := without_slashes origin in
  let url := origin +:+ "/signaling/" +:+ url_encode session_id +:+ "/ws?participant=" +:+
             url_encode participant in
  Ok (if string_empty connection_generation then url
      else url +:+ "&connection_generation=" +:+ url_encode connection_generation).

(** ** Handshake *)

Definition kWebSocketGuid : string := "258EAFA5-E914-47DA-95CA-C5AB0DC85B11".

(** With the SHA-1 of OpenSSL, which may fail. *)
Definition websocket_accept_key (sha1 : string -> result (list Z)) (client_key : string) :
    result string :=
  match base64_decode client_key with
  | Ok nonce =>
      if Z.of_nat (length nonce) =? 16 then
        digest ← sha1 (client_key +:+ kWebSocketGuid);
        Ok (base64_encode digest)
      else Throw (InvalidArgument "Sec-WebSocket-Key must be a base64-encoded 16-byte value")
  | Throw _ =>
      Throw (InvalidArgument "Sec-WebSocket-Key must be a base64-encoded 16-byte value")
  end.
