(* ===== verification/WsCodecProperties.v ===== *)
(** WsCodecProperties: the encodings are faithful.

    - base64 gives back the bytes ([base64_roundtrip]);
    - the UTF-8 test accepts exactly the encodings of Unicode scalar values
      ([valid_utf8_exact]);
    - what a client writes into a URL is what the server reads out of it
      ([url_roundtrip]). *)
From S2P Require Export WsCodec.

(** ** Bytes *)

Definition is_byte (b : Z) : Prop := 0 <= b < 256.

Lemma byte_of_range c : is_byte (byte_of c).
Proof. unfold is_byte, byte_of. pose proof (nat_ascii_bounded c). lia. Qed.

Lemma char_of_byte c : char_of (byte_of c) = c.
Proof. unfold char_of, byte_of. rewrite Nat2Z.id. apply ascii_nat_embedding. Qed.

Lemma byte_of_char b : is_byte b -> byte_of (char_of b) = b.
Proof. intros [H1 H2]. unfold char_of, byte_of. rewrite nat_ascii_embedding; lia. Qed.

Lemma chars_of l : chars (of_chars l) = l.
Proof. apply list_ascii_of_string_of_list_ascii. Qed.

Lemma of_chars_chars s : of_chars (chars s) = s.
Proof. apply string_of_list_ascii_of_string. Qed.

(** Disjoint bits add up. *)
Lemma lor_add k a b : 0 <= k -> a mod 2 ^ k = 0 -> 0 <= b < 2 ^ k -> Z.lor a b = a + b.
Proof.
  intros Hk Ha Hb. assert (H : Z.land a b = 0).
  { apply Z.bits_inj'. intros n Hn. rewrite Z.land_spec, Z.bits_0. destruct (Z.lt_ge_cases n k).
    - replace (Z.testbit a n) with false; [done |]. symmetry.
      rewrite <- (Z.mod_pow2_bits_low a k n) by lia. by rewrite Ha, Z.bits_0.
    - replace (Z.testbit b n) with false; [by rewrite andb_false_r |]. symmetry.
      rewrite <- (Z.mod_small b (2 ^ k)) by lia. apply Z.mod_pow2_bits_high. lia. }
  rewrite <- Z.lxor_lor by done. symmetry. by apply Z.add_nocarry_lxor.
Qed.

(** Replaces the innermost [Z.lor], whose right operand is below [bound = 2 ^ k]. *)
Ltac lor_sum k bound :=
  match goal with
  | |- context [Z.lor ?a ?b] =>
      lazymatch a with
      | context [Z.lor _ _] => fail
      | _ => rewrite (lor_add k a b) by
               (change (2 ^ k) with bound; Z.to_euclidean_division_equations; lia)
      end
  end.

Lemma land_mod x k : 0 <= k -> Z.land x (Z.ones k) = x mod 2 ^ k.
Proof. apply Z.land_ones. Qed.

(** ** Base64 *)
Lemma base64_block_sum a b c :
  is_byte a -> is_byte b -> is_byte c -> base64_block a b c = a * 65536 + b * 256 + c.
Proof.
  unfold is_byte, base64_block. intros. rewrite !Z.shiftl_mul_pow2 by lia.
  change (2 ^ 16) with 65536. change (2 ^ 8) with 256.
  lor_sum 16 65536.
  lor_sum 8 256.
  done.
Qed.

Definition sextet (block shift : Z) : Z := Z.land (Z.shiftr block shift) 0x3f.

Lemma sextet_mod block shift : 0 <= shift -> sextet block shift = block / 2 ^ shift mod 64.
Proof. intros. unfold sextet. rewrite (land_mod _ 6) by lia. by rewrite Z.shiftr_div_pow2. Qed.

Lemma sextet_range block shift : 0 <= sextet block shift < 64.
Proof. unfold sextet. rewrite (land_mod _ 6) by lia. by apply Z.mod_pos_bound. Qed.

Lemma base64_char_digit block shift :
  is_padding (base64_char block shift) = false /\ base64_digit (base64_char block shift) = sextet block shift.
Proof.
  unfold base64_char. fold (sextet block shift). pose proof (sextet_range block shift) as H.
  set (n := sextet block shift) in *. clearbody n.
  assert (Hall : forallb (fun k => let c := nth k base64_alphabet "="%char in
            negb (is_padding c) && (base64_digit c =? Z.of_nat k)) (seq 0 64) = true)
    by (vm_compute; reflexivity).
  rewrite forallb_forall in Hall. specialize (Hall (Z.to_nat n)). cbv zeta in Hall.
  rewrite Z2Nat.id in Hall by lia. destruct (proj1 (andb_true_iff _ _) (Hall ltac:(apply in_seq; lia))) as [H1 H2].
  split; [by apply negb_true_iff | by apply Z.eqb_eq].
Qed.

(** The sextets of a block put together again. *)
Lemma sextets_block block : 0 <= block < 16777216 ->
  Z.lor (Z.lor (Z.lor (Z.shiftl (sextet block 18) 18) (Z.shiftl (sextet block 12) 12))
    (Z.shiftl (sextet block 6) 6)) (sextet block 0) = block.
Proof.
  intros H. rewrite !sextet_mod by lia. rewrite !Z.shiftl_mul_pow2 by lia.
  change (2 ^ 18) with 262144. change (2 ^ 12) with 4096. change (2 ^ 6) with 64. change (2 ^ 0) with 1.
  lor_sum 18 262144.
  lor_sum 12 4096.
  lor_sum 6 64.
  Z.to_euclidean_division_equations; lia.
Qed.

Lemma octet_mod block shift : 0 <= shift ->
  Z.land (Z.shiftr block shift) 0xff = block / 2 ^ shift mod 256.
Proof. intros. rewrite (land_mod _ 8) by lia. by rewrite Z.shiftr_div_pow2. Qed.

Lemma sextets_nonneg block :
  (sextet block 18 <? 0) || (sextet block 12 <? 0) || (sextet block 6 <? 0) || (sextet block 0 <? 0) = false.
Proof.
  pose proof (sextet_range block) as H. rewrite !(proj2 (Z.ltb_ge _ 0)) by apply H. done.
Qed.

Lemma block_bytes a b c : is_byte a -> is_byte b -> is_byte c ->
  let block := base64_block a b c in
  Z.land (Z.shiftr block 16) 0xff = a /\ Z.land (Z.shiftr block 8) 0xff = b /\ Z.land block 0xff = c /\
  0 <= block < 16777216 /\ (c = 0 -> sextet block 0 = 0) /\ (b = 0 -> c = 0 -> sextet block 6 = 0).
Proof.
  intros Ha Hb Hc. cbv zeta. rewrite <- (Z.shiftr_0_r (base64_block a b c)) at 3.
  rewrite !octet_mod, !sextet_mod by lia. rewrite base64_block_sum by done. unfold is_byte in *.
  change (2 ^ 16) with 65536. change (2 ^ 8) with 256. change (2 ^ 6) with 64. change (2 ^ 0) with 1.
  split_and!; intros; Z.to_euclidean_division_equations; lia.
Qed.

(** One block, decoded: as many bytes as it was made of. *)
Lemma decode_block_3 last a b c : is_byte a -> is_byte b -> is_byte c ->
  let block := base64_block a b c in
  base64_decode_block last (base64_char block 18) (base64_char block 12) (base64_char block 6)
    (base64_char block 0) = Ok [a; b; c].
Proof.
  intros Ha Hb Hc block. destruct (block_bytes a b c Ha Hb Hc) as (E1 & E2 & E3 & Hr & _).
  fold block in E1, E2, E3, Hr.
  unfold base64_decode_block.
  destruct (base64_char_digit block 18) as [-> ->]. destruct (base64_char_digit block 12) as [-> ->].
  destruct (base64_char_digit block 6) as [-> ->]. destruct (base64_char_digit block 0) as [-> ->].
  rewrite sextets_nonneg, sextets_block by done. rewrite andb_false_r. cbn [negb orb andb throw_if mbind result_bind].
  by rewrite E1, E2, E3.
Qed.

Lemma decode_block_2 a b : is_byte a -> is_byte b ->
  let block := base64_block a b 0 in
  base64_decode_block true (base64_char block 18) (base64_char block 12) (base64_char block 6)
    "="%char = Ok [a; b].
Proof.
  intros Ha Hb block. assert (Hc : is_byte 0) by by unfold is_byte.
  destruct (block_bytes a b 0 Ha Hb Hc) as (E1 & E2 & _ & Hr & E0 & _).
  fold block in E1, E2, Hr, E0.
  unfold base64_decode_block. change (is_padding "="%char) with true.
  destruct (base64_char_digit block 18) as [-> ->]. destruct (base64_char_digit block 12) as [-> ->].
  destruct (base64_char_digit block 6) as [-> ->]. cbv iota.
  pose proof (sextets_nonneg block) as Hn. pose proof (sextets_block block Hr) as Hl.
  rewrite E0 in Hn, Hl by done. rewrite Hn, Hl.
  cbn [negb orb andb throw_if mbind result_bind]. by rewrite E1, E2.
Qed.

Lemma decode_block_1 a : is_byte a ->
  let block := base64_block a 0 0 in
  base64_decode_block true (base64_char block 18) (base64_char block 12) "="%char "="%char = Ok [a].
Proof.
  intros Ha block. assert (Hc : is_byte 0) by by unfold is_byte.
  destruct (block_bytes a 0 0 Ha Hc Hc) as (E1 & _ & _ & Hr & E0 & E6).
  fold block in E1, Hr, E0, E6.
  unfold base64_decode_block. change (is_padding "="%char) with true.
  destruct (base64_char_digit block 18) as [-> ->]. destruct (base64_char_digit block 12) as [-> ->].
  cbv iota.
  pose proof (sextets_nonneg block) as Hn. pose proof (sextets_block block Hr) as Hl.
  rewrite E0, E6 in Hn, Hl by done.
  rewrite Hn, Hl. cbn [negb orb andb throw_if mbind result_bind]. by rewrite E1.
Qed.

(** Base64 keeps the bytes.  What [base64_encode] makes of any non-empty bytes,
    [base64_decode] accepts and turns back into them: a handshake nonce is never refused. *)
Theorem base64_roundtrip bytes :
  Forall is_byte bytes -> bytes <> [] -> base64_decode (base64_encode bytes) = Ok bytes.
Proof.
  intros Hb Hne. unfold base64_decode, base64_encode. rewrite <- chars_length, chars_of.
  assert (H : exists n, length (base64_encode_bytes bytes) = (4 * n)%nat /\
            base64_decode_chars (base64_encode_bytes bytes) = Ok bytes /\
            (bytes = [] <-> base64_encode_bytes bytes = [])).
  { clear Hne. induction bytes as [bytes IH] using (induction_ltof1 _ length). unfold ltof in IH.
    destruct bytes as [| a [| b [| c bytes]]].
    - by exists 0%nat.
    - apply Forall_cons in Hb as [Ha _]. exists 1%nat. split; [done |]. split; [| done].
      cbn [base64_encode_bytes base64_decode_chars]. cbv zeta. by rewrite decode_block_1.
    - apply Forall_cons in Hb as [Ha [Hb _]%Forall_cons]. exists 1%nat. split; [done |]. split; [| done].
      cbn [base64_encode_bytes base64_decode_chars]. cbv zeta. by rewrite decode_block_2.
    - apply Forall_cons in Hb as [Ha [Hb [Hc Hr]%Forall_cons]%Forall_cons].
      destruct (IH bytes) as (n & Hn & Hd & _); [simpl; lia | done |]. exists (S n).
      cbn [base64_encode_bytes]. cbv zeta. split; [cbn [length]; lia |]. split; [| done].
      cbn [base64_decode_chars]. rewrite decode_block_3, Hd by done. done. }
  destruct H as (n & Hn & Hd & He). rewrite Hn.
  assert (Hs : string_empty (of_chars (base64_encode_bytes bytes)) = false).
  { destruct (base64_encode_bytes bytes) eqn:E; [| done]. by destruct (Hne (proj2 He eq_refl)). }
  rewrite Hs. replace (Z.of_nat (4 * n) mod 4) with 0 by (Z.to_euclidean_division_equations; lia). exact Hd.
Qed.

Lemma base64_roundtrip_witness : base64_decode (base64_encode [3; 232; 77; 0]) = Ok [3; 232; 77; 0].
Proof.
  apply (base64_roundtrip [3; 232; 77; 0]); [| discriminate].
  repeat (apply Forall_cons; split; [unfold is_byte; lia |]). apply Forall_nil_2.
Defined.

(** ** UTF-8 *)

(** The Unicode scalar values, and how RFC 3629 writes one. *)
Definition scalar_value (c : Z) : Prop := 0 <= c < 0xd800 \/ 0xe000 <= c <= 0x10ffff.

Definition utf8_encode (c : Z) : list Z :=
  if c <? 0x80 then [c]
  else if c <? 0x800 then [0xc0 + c / 64; 0x80 + c mod 64]
  else if c <? 0x10000 then [0xe0 + c / 4096; 0x80 + c / 64 mod 64; 0x80 + c mod 64]
  else [0xf0 + c / 262144; 0x80 + c / 4096 mod 64; 0x80 + c / 64 mod 64; 0x80 + c mod 64].

Lemma within_iff low high b : within low high b = true <-> low <= b <= high.
Proof. unfold within. rewrite andb_true_iff, !Z.leb_le. done. Qed.

Lemma within_false low high b : within low high b = false <-> b < low \/ high < b.
Proof. unfold within. rewrite andb_false_iff, !Z.leb_gt. done. Qed.

(** Decides the tests of [valid_utf8_bytes] that linear arithmetic decides. *)
Ltac utf8_tests :=
  repeat match goal with
  | |- context [?a <=? ?b] =>
      first [rewrite (proj2 (Z.leb_le a b)) by lia | rewrite (proj2 (Z.leb_gt a b)) by lia]
  | |- context [?a =? ?b] =>
      first [rewrite (proj2 (Z.eqb_eq a b)) by lia | rewrite (proj2 (Z.eqb_neq a b)) by lia]
  end; cbn [negb andb orb].

Ltac utf8_less :=
  repeat match goal with
  | |- context [?a <? ?b] =>
      first [rewrite (proj2 (Z.ltb_lt a b)) by lia | rewrite (proj2 (Z.ltb_ge a b)) by lia]
  end.

(** A scalar value's encoding passes. *)
Lemma utf8_accepts c rest : scalar_value c ->
  valid_utf8_bytes (utf8_encode c ++ rest) = valid_utf8_bytes rest.
Proof.
  unfold scalar_value, utf8_encode. intros Hc.
  destruct (Z.ltb_spec c 0x80); [cbn [app valid_utf8_bytes]; by utf8_tests |].
  set (q1 := c / 64). set (r0 := c mod 64). set (q2 := c / 4096). set (r1 := q1 mod 64).
  set (q3 := c / 262144). set (r2 := q2 mod 64).
  assert (E1 : c = 64 * q1 + r0 /\ 0 <= r0 < 64) by (unfold q1, r0; Z.to_euclidean_division_equations; lia).
  assert (E2 : q1 = 64 * q2 + r1 /\ 0 <= r1 < 64)
    by (unfold q2, r1, q1; Z.to_euclidean_division_equations; lia).
  assert (E3 : q2 = 64 * q3 + r2 /\ 0 <= r2 < 64)
    by (unfold q3, r2, q2; Z.to_euclidean_division_equations; lia).
  clearbody q1 r0 q2 r1 q3 r2.
  destruct (Z.ltb_spec c 0x800); [cbn [app valid_utf8_bytes]; unfold continuation, within; by utf8_tests |].
  destruct (Z.ltb_spec c 0x10000); cbn [app valid_utf8_bytes]; unfold continuation, within; utf8_tests.
  - destruct (Z.eq_dec q2 0); [by utf8_tests |]. destruct (Z.eq_dec q2 13); by utf8_tests.
  - destruct (Z.eq_dec q3 0); [by utf8_tests |]. destruct (Z.eq_dec q3 4); by utf8_tests.
Qed.

(** The encoding, byte by byte. *)
Lemma utf8_2 b0 b1 : 0xc2 <= b0 <= 0xdf -> 0x80 <= b1 <= 0xbf ->
  utf8_encode ((b0 - 0xc0) * 64 + (b1 - 0x80)) = [b0; b1].
Proof.
  intros. unfold utf8_encode. utf8_less. repeat f_equal; Z.to_euclidean_division_equations; lia.
Qed.

Lemma utf8_3 b0 b1 b2 : 0xe0 <= b0 <= 0xef -> 0x80 <= b1 <= 0xbf -> 0x80 <= b2 <= 0xbf ->
  (b0 = 0xe0 -> 0xa0 <= b1) ->
  utf8_encode ((b0 - 0xe0) * 4096 + (b1 - 0x80) * 64 + (b2 - 0x80)) = [b0; b1; b2].
Proof.
  intros. assert (0x800 <= (b0 - 0xe0) * 4096 + (b1 - 0x80) * 64 + (b2 - 0x80)) by lia.
  unfold utf8_encode. utf8_less. repeat f_equal; Z.to_euclidean_division_equations; lia.
Qed.

Lemma utf8_4 b0 b1 b2 b3 : 0xf0 <= b0 <= 0xf4 -> 0x80 <= b1 <= 0xbf -> 0x80 <= b2 <= 0xbf ->
  0x80 <= b3 <= 0xbf -> (b0 = 0xf0 -> 0x90 <= b1) ->
  utf8_encode ((b0 - 0xf0) * 262144 + (b1 - 0x80) * 4096 + (b2 - 0x80) * 64 + (b3 - 0x80)) =
  [b0; b1; b2; b3].
Proof.
  intros. assert (0x10000 <= (b0 - 0xf0) * 262144 + (b1 - 0x80) * 4096 + (b2 - 0x80) * 64 + (b3 - 0x80)) by lia.
  unfold utf8_encode. utf8_less. repeat f_equal; Z.to_euclidean_division_equations; lia.
Qed.

(** What passes begins with such an encoding. *)
Lemma utf8_first value : Forall is_byte value -> valid_utf8_bytes value = true -> value <> [] ->
  exists c rest, scalar_value c /\ value = utf8_encode c ++ rest /\ valid_utf8_bytes rest = true.
Proof.
  destruct value as [| b0 value]; [done |]. intros Hb Hv _. apply Forall_cons in Hb as [Hf _].
  unfold is_byte in Hf. cbn [valid_utf8_bytes] in Hv. unfold continuation, within in Hv.
  destruct (Z.leb_spec b0 0x7f).
  { exists b0, value. unfold utf8_encode, scalar_value. rewrite (proj2 (Z.ltb_lt b0 0x80)) by lia. auto with lia. }
  destruct (_ && _) eqn:E2 in Hv; [| destruct (_ && _) eqn:E3 in Hv; [| destruct (_ && _) eqn:E4 in Hv; [| done]]].
  - destruct value as [| b1 value]; [done |]. destruct (_ && _) eqn:E1 in Hv; [| done]. bool_prop.
    eexists _, value. split; [| split; [by rewrite (utf8_2 b0 b1) by lia | done]]. left. lia.
  - destruct value as [| b1 [| b2 value]]; [done | done |]. destruct (_ || _) eqn:E1 in Hv; [done |].
    assert (0x80 <= b1 <= 0xbf /\ 0x80 <= b2 <= 0xbf /\ (b0 = 0xe0 -> 0xa0 <= b1) /\ (b0 = 0xed -> b1 <= 0x9f))
      by (bool_prop; lia).
    eexists _, value. split; [| split; [by rewrite (utf8_3 b0 b1 b2) by lia | done]].
    bool_prop. unfold scalar_value. destruct (Z.lt_ge_cases b0 0xee); [destruct (Z.eq_dec b0 0xed); left | right]; lia.
  - destruct value as [| b1 [| b2 [| b3 value]]]; [done | done | done |]. destruct (_ || _) eqn:E1 in Hv; [done |].
    assert (0x80 <= b1 <= 0xbf /\ 0x80 <= b2 <= 0xbf /\ 0x80 <= b3 <= 0xbf /\ (b0 = 0xf0 -> 0x90 <= b1) /\
            (b0 = 0xf4 -> b1 <= 0x8f)) by (bool_prop; lia).
    eexists _, value. split; [| split; [by rewrite (utf8_4 b0 b1 b2 b3) by lia | done]].
    bool_prop. right. lia.
Qed.

(** C34. The UTF-8 test is exact.  It accepts a text if and only if its bytes are the
    RFC 3629 encodings of some Unicode scalar values: nothing overlong, no surrogate,
    nothing above U+10FFFF, nothing cut off. *)
Theorem valid_utf8_exact value :
  valid_utf8 value = true <->
  exists scalars, Forall scalar_value scalars /\ bytes_of value = concat (map utf8_encode scalars).
Proof.
  unfold valid_utf8. assert (Hb : Forall is_byte (bytes_of value)).
  { apply Forall_forall. intros b Hb. apply list_elem_of_fmap in Hb as (c & -> & _). apply byte_of_range. }
  revert Hb. generalize (bytes_of value) as bytes. clear value. intros bytes Hb. split.
  - induction bytes as [bytes IH] using (induction_ltof1 _ length). unfold ltof in IH. intros Hv.
    destruct bytes as [| b bytes]; [by exists [] |].
    destruct (utf8_first (b :: bytes) Hb Hv) as (c & rest & Hc & E & Hr); [done |].
    assert (Hl : (length rest < length (b :: bytes))%nat).
    { rewrite E, length_app. unfold utf8_encode. repeat destruct (_ <? _); simpl; lia. }
    destruct (IH rest Hl) as (cs & Hcs & Er); [| done |].
    + rewrite E in Hb. by apply Forall_app in Hb as [_ ?].
    + exists (c :: cs). split; [by constructor |]. by rewrite E, Er.
  - intros (cs & Hcs & ->). clear Hb. induction Hcs as [| c cs Hc _ IH]; [done |].
    cbn [map concat]. by rewrite utf8_accepts.
Qed.

(** ** URLs *)
Lemma url_decode_cons c rest : c <> "+"%char -> c <> "%"%char ->
  url_decode_chars (c :: rest) = (tail ← url_decode_chars rest; Ok (c :: tail)).
Proof.
  intros Hp Hc. cbn [url_decode_chars]. apply Ascii.eqb_neq in Hp, Hc. rewrite Hp.
  destruct rest as [| h [| l rest]]; [done | done |]. by rewrite Hc.
Qed.

Lemma hex_upper_digit d : 0 <= d < 16 -> hex_digit (hex_upper d) = d.
Proof.
  intros H. assert (Hall : forallb (fun k => hex_digit (hex_upper (Z.of_nat k)) =? Z.of_nat k) (seq 0 16) = true)
    by (vm_compute; reflexivity).
  rewrite forallb_forall in Hall. specialize (Hall (Z.to_nat d)). rewrite Z2Nat.id in Hall by lia.
  apply Z.eqb_eq, Hall, in_seq. lia.
Qed.

(** A character as it is written is read back. *)
Lemma url_char_read c rest :
  url_decode_chars (url_encode_char c ++ rest) = (tail ← url_decode_chars rest; Ok (c :: tail)).
Proof.
  unfold url_encode_char. destruct (_ || _) eqn:E.
  - apply url_decode_cons; intros ->; vm_compute in E; discriminate E.
  - pose proof (byte_of_range c) as Hb. unfold is_byte in Hb.
    assert (Hh : 0 <= Z.shiftr (byte_of c) 4 < 16)
      by (rewrite Z.shiftr_div_pow2 by lia; change (2 ^ 4) with 16; Z.to_euclidean_division_equations; lia).
    assert (Hl : 0 <= Z.land (byte_of c) 0x0f < 16)
      by (rewrite (land_mod _ 4) by lia; apply Z.mod_pos_bound; lia).
    cbn [app url_decode_chars]. rewrite !hex_upper_digit by done. change (Ascii.eqb "%" "+") with false.
    change (Ascii.eqb "%" "%") with true. cbv iota zeta.
    rewrite !(proj2 (Z.ltb_ge _ 0)) by lia. cbn [orb throw_if mbind result_bind].
    replace (Z.lor (Z.shiftl (Z.shiftr (byte_of c) 4) 4) (Z.land (byte_of c) 15)) with (byte_of c).
    + fold (char_of (byte_of c)). by rewrite char_of_byte.
    + rewrite Z.shiftl_mul_pow2 by lia. rewrite (lor_add 4);
        [| lia | apply Z.mod_mul; lia | exact Hl]. rewrite (land_mod _ 4), Z.shiftr_div_pow2 by lia.
      change (2 ^ 4) with 16. Z.to_euclidean_division_equations; lia.
Qed.

(** A written text is read back, whatever follows. *)
Lemma url_text_read s rest : url_decode_chars (concat (map url_encode_char s) ++ rest) =
  (tail ← url_decode_chars rest; Ok (s ++ tail)).
Proof.
  induction s as [| c s IH]; cbn [map concat].
  - cbn [app]. by destruct (url_decode_chars rest).
  - rewrite <- app_assoc, url_char_read, IH. by destruct (url_decode_chars rest).
Qed.

(** What a client writes into a URL is what the server reads.  Decoding undoes encoding
    for every text, of whatever characters. *)
Theorem url_roundtrip value : url_decode (url_encode value) = Ok value.
Proof.
  unfold url_decode, url_encode. rewrite chars_of, <- (app_nil_r (concat _)), url_text_read.
  simpl. by rewrite app_nil_r, of_chars_chars.
Qed.
