(* ===== verification/HttpClient.v ===== *)
(** HttpClient: JSON over HTTP (http.cpp:41-65, 103-218 and 318-328).

    - [HttpTransport]: libcurl's transfer and its escaping of URLs;
    - [request], [get_json], [post_json_response]; [decode_json_response], the errors a
      response stands for; [normalize_signaling_http_url].

    The options of a transfer that do not show in its answer (proxy, certificates,
    timeouts) are left out; one mutex makes each request one step. *)
From S2P Require Export WsCodec.

Record HttpResponse := mkHttpResponse { hr_status : Z; hr_body : string }.

(** What libcurl is asked to send: the header lines are complete. *)
Record HttpExchange := mkHttpExchange {
  hx_method : string;
  hx_url : string;
  hx_body : string;
  hx_headers : list string;
}.

(** [http_perform] answers with the text of an error or a response; [curl_escape] is
    [curl_easy_escape], nothing when it fails. *)
Class HttpTransport (W : Type) : Type := {
  http_perform : HttpExchange -> W -> (string + HttpResponse) * W;
  curl_escape : string -> option string;
}.

Definition HttpClient_new (timeout_ms : Z) (resolve_entries : list string) : result unit :=
  throw_if (timeout_ms <=? 0) (InvalidArgument "HTTP timeout must be positive");;
  throw_if (existsb (fun entry => string_empty entry || has_any crlf_text entry) resolve_entries)
    (InvalidArgument "HTTP resolve entry is invalid").

(** [body.substr(0, size)] *)
Definition first_chars (size : nat) (s : string) : string := of_chars (take size (chars s)).

Definition http_header_lines (headers : list (string * string)) : result (list string) :=
  map_result (fun header =>
    throw_if (string_empty header.1 || has_any (":" +:+ crlf_text) header.1 || has_any crlf_text header.2)
      (InvalidArgument "HTTP header contains unsupported characters");;
    Ok (header.1 +:+ ": " +:+ header.2)) headers.

Section json.
Context {J : JsonApi}.

(** The [issue_code] of an error body, when it is a JSON object that has one. *)
Definition issue_code_of (body : string) : string :=
  match value ← j_parse body;
        (if is_object value then value_string "issue_code" "" value else Ok ""%string) with
  | Ok issue_code => issue_code
  | Throw _ => ""
  end.

Definition decode_json_response (response : HttpResponse) : result json :=
  let status := hr_status response in
  let body := hr_body response in
  if (status <? 200) || (300 <=? status) then
    Throw (HttpStatusError status
             ("HTTP request failed with status " +:+ to_string_Z status +:+ ": " +:+ first_chars 512 body)
             (issue_code_of body) (first_chars 4096 body))
  else
    rethrow_json (fun what => RuntimeError ("invalid JSON response: " +:+ what))
      (value ← j_parse body;
       throw_if (negb (is_object value)) (RuntimeError "expected JSON object response");;
       Ok value).
End json.

Section client.
Context {J : JsonApi} {W : Type} {Http : HttpTransport W}.

(** [curl_easy_perform] and the status of the response. *)
Definition transfer (exchange : HttpExchange) : M W HttpResponse := fun w =>
  match http_perform exchange w with
  | (inl detail, w) => (Throw (HttpTransportError ("HTTP request failed: " +:+ detail)), w)
  | (inr response, w) => (Ok response, w)
  end.

Definition request (method url body : string) (headers : list (string * string)) : M W HttpResponse :=
  lift (throw_if (negb (starts_with "http://" url) && negb (starts_with "https://" url))
          (InvalidArgument "HTTP URL must use http or https"));;
  lines ← lift (http_header_lines headers);
  let post := String.eqb method "POST" in
  let lines := if post then lines ++ ["Content-Type: application/json"%string] else lines in
  transfer (mkHttpExchange method url (if post then body else "") lines).

Definition http_get (url : string) (headers : list (string * string)) : M W HttpResponse :=
  request "GET" url "" headers.

Definition post_json (url : string) (payload : json) : M W HttpResponse :=
  body ← lift (j_dump payload); request "POST" url body [].

Definition get_json (url : string) (headers : list (string * string)) : M W json :=
  response ← http_get url headers; lift (decode_json_response response).

Definition post_json_response (url : string) (payload : json) : M W json :=
  response ← post_json url payload; lift (decode_json_response response).

Definition client_url_encode (value : string) : result string :=
  match curl_escape value with
  | Some encoded => Ok encoded
  | None => Throw (RuntimeError "curl_easy_escape failed")
  end.
End client.

Definition normalize_signaling_http_url (url : string) : result string :=
  let value := replace_prefix "ws://" "http://" url in
  let value := replace_prefix "wss://" "https://" value in
  let value := if ends_with "/signaling" value then without_suffix "/signaling" value else value in
  let value := without_slashes value in
  throw_if (negb (starts_with "http://" value) && negb (starts_with "https://" value))
    (InvalidArgument "signaling URL must use ws, wss, http, or https");;
  Ok value.
