(* ===== verification/TimeSync.v ===== *)
(** TimeSync: the clock synchronised with the signaling server (http.hpp:46-70,
    http.cpp:220-316).

    - [TimeSyncStatus] and [SynchronizedClock];
    - [synchronize]: four timestamps per sample, the median offset of the three fastest;
    - [synchronized_now_ms], [from_local_system_ms], [refresh_due].

    Times are 64-bit milliseconds far from their bounds, so differences are exact. *)
From S2P Require Export HttpClient.
From stdpp Require Export sorting.
Open Scope Z_scope.

Record TimeSyncStatus := mkTimeSyncStatus {
  ts_synchronized : bool;
  ts_offset_ms : Z;
  ts_round_trip_ms : Z;
  ts_uncertainty_ms : Z;
  ts_synchronized_at_local_ms : Z;
  ts_sample_count : Z;
}.

Definition TimeSyncStatus_default : TimeSyncStatus := mkTimeSyncStatus false 0 0 0 0 0.

Definition acceptable (status : TimeSyncStatus) (max_uncertainty_ms : Z) : bool :=
  (0 <=? max_uncertainty_ms) && ts_synchronized status &&
  (ts_uncertainty_ms status <=? max_uncertainty_ms).

Definition TimeSyncStatus_to_json {J : JsonApi} (status : TimeSyncStatus) : json :=
  j_object [("time_domain", j_string "signaling_server");
            ("synchronized", j_bool (ts_synchronized status));
            ("offset_ms", j_int (ts_offset_ms status));
            ("round_trip_ms", j_int (ts_round_trip_ms status));
            ("uncertainty_ms", j_int (ts_uncertainty_ms status));
            ("synchronized_at_local_ms", j_int (ts_synchronized_at_local_ms status));
            ("sample_count", j_int (ts_sample_count status))].

(** The anchor of the steady clock counts nanoseconds. *)
Record SynchronizedClock := mkSynchronizedClock {
  sc_status : TimeSyncStatus;
  sc_steady_anchor_ns : Z;
  sc_synchronized_anchor_ms : Z;
}.

Definition SynchronizedClock_new : SynchronizedClock := mkSynchronizedClock TimeSyncStatus_default 0 0.

Record Sample := mkSample { smp_offset_ms : Z; smp_round_trip_ms : Z }.

(** From the four timestamps of an exchange. *)
Definition sample_of (client_send server_receive server_send client_receive : Z) : Sample :=
  mkSample (((server_receive - client_send) + (server_send - client_receive)) ÷ 2)
           (Z.max 0 (client_receive - client_send - (server_send - server_receive))).

(** [std::sort]: the order of equal elements is not specified. *)
Class SampleSort : Type := { sort_samples : list Sample -> list Sample }.

Class SampleSortLaws {Sort : SampleSort} : Prop := {
  sort_samples_perm xs : Permutation (sort_samples xs) xs;
  sort_samples_sorted xs :
    StronglySorted (fun a b => smp_round_trip_ms a <= smp_round_trip_ms b) (sort_samples xs);
}.

Definition front (xs : list Sample) : Sample := hd (mkSample 0 0) xs.

(** The status the samples give; sorted integers are the same however they are sorted. *)
Definition status_of {Sort : SampleSort} (samples : list Sample) (at_local_ms : Z) : TimeSyncStatus :=
  let samples := sort_samples samples in
  let offsets := merge_sort Z.le (map smp_offset_ms (take (Nat.min 3 (length samples)) samples)) in
  let selected_offset_ms := nth (length offsets / 2) offsets 0 in
  let offset_spread_ms :=
    foldl (fun spread offset => Z.max spread (Z.abs (offset - selected_offset_ms))) 0 offsets in
  let round_trip_ms := smp_round_trip_ms (front samples) in
  mkTimeSyncStatus true selected_offset_ms round_trip_ms
    (Z.max ((round_trip_ms + 1) ÷ 2) offset_spread_ms) at_local_ms (Z.of_nat (length samples)).

(** The clocks of the machine. *)
Class ClockApi (W : Type) : Type := {
  clk_now_ms : W -> Z * W;
  clk_steady_ns : W -> Z * W;
}.

Section clock.
Context {J : JsonApi} {W : Type} {Http : HttpTransport W} {Clock : ClockApi W} {Sort : SampleSort}.

Definition system_now_ms : M W Z := fun w => let '(now, w) := clk_now_ms w in (Ok now, w).
Definition steady_now_ns : M W Z := fun w => let '(now, w) := clk_steady_ns w in (Ok now, w).

Definition json_int64 (key : string) (value : json) : result Z := field ← j_at key value; get_int64 field.

Definition take_sample (origin : string) : M W Sample :=
  client_send_ms ← system_now_ms;
  response ← get_json (origin +:+ "/time?client_send_ms=" +:+ to_string_Z client_send_ms) [];
  client_receive_ms ← system_now_ms;
  echoed_client_send_ms ← lift (json_int64 "client_send_ms" response);
  server_receive_ms ← lift (json_int64 "server_receive_ms" response);
  server_send_ms ← lift (json_int64 "server_send_ms" response);
  lift (throw_if (negb (echoed_client_send_ms =? client_send_ms) || (server_send_ms <? server_receive_ms))
          (RuntimeError "signaling time endpoint returned an invalid four-timestamp sample"));;
  mret (sample_of client_send_ms server_receive_ms server_send_ms client_receive_ms).

Fixpoint take_samples (origin : string) (count : nat) : M W (list Sample) :=
  match count with
  | O => mret []
  | S count => sample ← take_sample origin; samples ← take_samples origin count; mret (sample :: samples)
  end.

(** The clock is replaced as a whole, or stays as it is when something throws. *)
Definition synchronize (signaling_origin : string) (sample_count : Z) : M W SynchronizedClock :=
  lift (throw_if ((sample_count <? 3) || (15 <? sample_count))
          (InvalidArgument "time sync sample count must be between 3 and 15"));;
  origin ← lift (normalize_signaling_http_url signaling_origin);
  samples ← take_samples origin (Z.to_nat sample_count);
  synchronized_at ← system_now_ms;
  let next := status_of samples synchronized_at in
  next_steady_anchor ← steady_now_ns;
  mret (mkSynchronizedClock next next_steady_anchor (ts_synchronized_at_local_ms next + ts_offset_ms next)).

(** [duration_cast<milliseconds>(steady_clock::now() - steady_anchor_)] *)
Definition since_anchor (clock : SynchronizedClock) : M W Z :=
  now ← steady_now_ns; mret ((now - sc_steady_anchor_ns clock) ÷ 1000000).

(** [SynchronizedClock::now_ms] *)
Definition synchronized_now_ms (clock : SynchronizedClock) : M W Z :=
  if negb (ts_synchronized (sc_status clock)) then system_now_ms
  else elapsed ← since_anchor clock; mret (sc_synchronized_anchor_ms clock + elapsed).

Definition from_local_system_ms (clock : SynchronizedClock) (local_time_ms : Z) : Z :=
  if ts_synchronized (sc_status clock) then local_time_ms + ts_offset_ms (sc_status clock) else local_time_ms.

Definition refresh_due (clock : SynchronizedClock) (interval_ms : Z) : M W bool :=
  lift (throw_if (interval_ms <=? 0) (InvalidArgument "time sync refresh interval must be positive"));;
  if negb (ts_synchronized (sc_status clock)) then mret true
  else elapsed ← since_anchor clock; mret (interval_ms <=? elapsed).
End clock.
