(* ===== verification/TimeSyncProperties.v ===== *)
(** TimeSyncProperties: how far the synchronised clock may be off.

    - [offset_error_bounded]: at most twice the reported uncertainty;
    - [uncertainty_exceeded]: the reported uncertainty itself is not a bound. *)
From S2P Require Export TimeSync.

(** An exchange with a server whose clock is [theta] ahead, that took [d1] there, [p] in
    the server and [d2] back, and started at [t]. *)
Definition honest (theta : Z) (s : Sample) : Prop :=
  exists t d1 p d2, 0 <= d1 /\ 0 <= p /\ 0 <= d2 /\
    s = sample_of t (t + theta + d1) (t + theta + d1 + p) (t + d1 + p + d2).

(** A sample is off by at most half its round trip. *)
Lemma honest_error theta s : honest theta s ->
  0 <= smp_round_trip_ms s /\ Z.abs (smp_offset_ms s - theta) <= (smp_round_trip_ms s + 1) ÷ 2.
Proof.
  intros (t & d1 & p & d2 & H1 & Hp & H2 & ->). unfold sample_of. cbn [smp_offset_ms smp_round_trip_ms].
  replace (t + theta + d1 - t + (t + theta + d1 + p - (t + d1 + p + d2))) with (2 * theta + d1 - d2) by lia.
  replace (t + d1 + p + d2 - t - (t + theta + d1 + p - (t + theta + d1))) with (d1 + d2) by lia.
  rewrite Z.max_r by lia. split; [lia |]. Z.to_euclidean_division_equations. lia.
Qed.

Lemma spread_from selected offsets : forall spread,
  spread <= foldl (fun spread offset => Z.max spread (Z.abs (offset - selected))) spread offsets /\
  Forall (fun offset => Z.abs (offset - selected) <=
            foldl (fun spread offset => Z.max spread (Z.abs (offset - selected))) spread offsets) offsets.
Proof.
  induction offsets as [| o offsets IH]; intros spread; [split; [simpl; lia | constructor] |].
  cbn [foldl]. destruct (IH (Z.max spread (Z.abs (o - selected)))) as [H1 H2].
  split; [lia |]. constructor; [lia | exact H2].
Qed.

Section properties.
Context {Sort : SampleSort} {Laws : SampleSortLaws}.

(** The best sample counts among the offsets, so the median is near it. *)
Lemma status_error theta samples at_local_ms :
  samples <> [] -> Forall (honest theta) samples ->
  let status := status_of samples at_local_ms in
  Z.abs (ts_offset_ms status - theta) <= 2 * ts_uncertainty_ms status /\
  Forall (fun s => ts_round_trip_ms status <= smp_round_trip_ms s) samples.
Proof.
  intros Hne Hh. unfold status_of. cbv zeta. cbn [ts_offset_ms ts_uncertainty_ms ts_round_trip_ms].
  pose proof (sort_samples_perm samples) as Hp. pose proof (sort_samples_sorted samples) as Hs.
  destruct (sort_samples samples) as [| best rest] eqn:E.
  { apply Permutation_nil in Hp. done. }
  cbn [front hd]. assert (Hall : Forall (honest theta) (best :: rest)) by by rewrite Hp.
  apply Forall_cons in Hall as [Hb _]. apply honest_error in Hb as [Hr Hb].
  replace (take (Nat.min 3 (length (best :: rest))) (best :: rest))
    with (best :: take (Nat.min 2 (length rest)) rest) by done.
  cbn [map]. set (offsets := merge_sort Z.le _).
  assert (Hin : smp_offset_ms best ∈ offsets).
  { unfold offsets. rewrite merge_sort_Permutation. by left. }
  set (selected := nth _ offsets 0).
  destruct (spread_from selected offsets 0) as [_ Hspread].
  rewrite Forall_forall in Hspread. specialize (Hspread _ Hin). split; [lia |].
  rewrite <- Hp. constructor; [lia |]. by apply StronglySorted_inv in Hs as [_ ?].
Qed.
End properties.

(** ** The machine *)

(** The client's clock shows [time]; the server's is [theta] ahead of it.  An answer of the
    server was made after the request was sent and before it was received. *)
Record time_server {J : JsonApi} {W : Type} {Http : HttpTransport W} {Clock : ClockApi W}
    (theta : Z) (time : W -> Z) : Prop := {
  tsv_clock w : (clk_now_ms w).1 = time w /\ time w <= time (clk_now_ms w).2;
  tsv_answer url w value w' receive send : get_json url [] w = (Ok value, w') ->
    json_int64 "server_receive_ms" value = Ok receive -> json_int64 "server_send_ms" value = Ok send ->
    time w + theta <= receive /\ send <= time w' + theta;
}.

Section machine.
Context {J : JsonApi} {W : Type} {Http : HttpTransport W} {Clock : ClockApi W} {Sort : SampleSort}.
Context (theta : Z) (time : W -> Z) (T : time_server theta time).

Lemma take_sample_honest origin w s w' : take_sample origin w = (Ok s, w') -> honest theta s.
Proof.
  unfold take_sample. unfold mbind, M_bind, system_now_ms, lift, mret, M_ret.
  destruct (tsv_clock _ _ T w) as [E1 L1]. destruct (clk_now_ms w) as [t w1]. cbn [fst snd] in *.
  destruct (get_json _ [] w1) as [[response | e] w2] eqn:Eg; [| discriminate].
  destruct (tsv_clock _ _ T w2) as [E2 L2]. destruct (clk_now_ms w2) as [t' w3]. cbn [fst snd] in *.
  destruct (json_int64 "client_send_ms" response) as [echoed | e]; [| discriminate].
  destruct (json_int64 "server_receive_ms" response) as [receive | e] eqn:Er; [| discriminate].
  destruct (json_int64 "server_send_ms" response) as [send | e] eqn:Es; [| discriminate].
  unfold throw_if. destruct (_ || _) eqn:Eb; [discriminate |]. intros [= <- _].
  apply orb_false_iff in Eb as [_ Eb%Z.ltb_ge].
  destruct (tsv_answer _ _ T _ w1 response w2 receive send Eg Er Es) as [Ha Hb].
  exists t, (receive - theta - t), (send - receive), (t' - (send - theta)).
  split; [lia |]. split; [lia |]. split; [lia |]. f_equal; lia.
Qed.

Lemma take_samples_honest origin count : forall w samples w',
  take_samples origin count w = (Ok samples, w') ->
  length samples = count /\ Forall (honest theta) samples.
Proof.
  induction count as [| count IH]; intros w samples w'; cbn [take_samples].
  { intros [= <- _]. by split. }
  unfold mbind, M_bind, mret, M_ret. destruct (take_sample origin w) as [[s | e] w1] eqn:E; [| discriminate].
  destruct (take_samples origin count w1) as [[rest | e] w2] eqn:E2; [| discriminate].
  intros [= <- _]. destruct (IH _ _ _ E2) as [Hl Hh]. split; [simpl; lia |].
  constructor; [by eapply take_sample_honest | done].
Qed.
End machine.

(** C33. How far a synchronisation may be off.  When the server's clock is [theta] ahead and
    every answer is made between its request and its receipt, whatever the delays in either
    direction, a synchronisation that succeeds took all its samples and has found [theta] up
    to twice the uncertainty it reports, and the clock it leaves starts at the local time
    plus that offset. *)
Theorem offset_error_bounded {J : JsonApi} {W : Type} {Http : HttpTransport W} {Clock : ClockApi W}
    {Sort : SampleSort} {Laws : SampleSortLaws} theta time origin count (w w' : W) clock :
  time_server theta time -> synchronize origin count w = (Ok clock, w') ->
  let status := sc_status clock in
  ts_synchronized status = true /\ ts_sample_count status = count /\ 3 <= count <= 15 /\
  Z.abs (ts_offset_ms status - theta) <= 2 * ts_uncertainty_ms status /\
  sc_synchronized_anchor_ms clock = ts_synchronized_at_local_ms status + ts_offset_ms status.
Proof.
  intros T. unfold synchronize. unfold mbind, M_bind, lift, mret, M_ret, system_now_ms, steady_now_ns, throw_if.
  destruct (_ || _) eqn:Eb; [discriminate |]. apply orb_false_iff in Eb as [H3%Z.ltb_ge H15%Z.ltb_ge].
  destruct (normalize_signaling_http_url origin) as [base | e]; [| discriminate].
  destruct (take_samples base (Z.to_nat count) w) as [[samples | e] w1] eqn:E; [| discriminate].
  destruct (clk_now_ms w1) as [at_local w2]. destruct (clk_steady_ns w2) as [anchor w3]. intros [= <- _].
  destruct (take_samples_honest theta time T _ _ _ _ _ E) as [Hl Hh]. cbv zeta. cbn [sc_status sc_synchronized_anchor_ms].
  destruct (status_error theta samples at_local) as [He _]; [by intros -> ; simpl in Hl; lia | done |].
  split; [done |]. split; [| by split_and!].
  unfold status_of. cbn [ts_sample_count]. rewrite (Permutation_length (sort_samples_perm samples)). lia.
Qed.

(** The uncertainty a synchronisation reports is not a bound on its error.  Three
    exchanges with a server whose clock agrees, of 10, 20 and 20 ms, all of it on the way
    there: the offset is off by 10 ms and the uncertainty is said to be 5 ms. *)
Theorem uncertainty_exceeded {Sort : SampleSort} {Laws : SampleSortLaws} at_local_ms :
  let samples := [sample_of 0 10 10 10; sample_of 100 120 120 120; sample_of 200 220 220 220] in
  let status := status_of samples at_local_ms in
  Forall (honest 0) samples /\ ts_offset_ms status = 10 /\ ts_uncertainty_ms status = 5.
Proof.
  intros samples status. split.
  { repeat (apply Forall_cons; split); [exists 0, 10, 0, 0 | exists 100, 20, 0, 0 | exists 200, 20, 0, 0 |
      by apply Forall_nil_2]; (split; [lia |]; split; [lia |]; split; [lia | reflexivity]). }
  assert (E : sort_samples samples = samples).
  { apply (StronglySorted_unique_strong (fun a b => smp_round_trip_ms a <= smp_round_trip_ms b)).
    - intros a b Ha Hb H1 H2. rewrite sort_samples_perm in Ha.
      unfold samples in *. rewrite !list_elem_of_In in *. cbn in Ha, Hb.
      repeat destruct Ha as [<- | Ha]; repeat destruct Hb as [<- | Hb]; try done; cbn in *; lia.
    - apply sort_samples_sorted.
    - repeat constructor; cbn; lia.
    - apply sort_samples_perm. }
  unfold status, status_of. rewrite E. by split.
Qed.

(** ** A server seven milliseconds ahead *)

(** The state counts the requests made, one every 100 ms; the fourth fails. *)
Definition demo_answer (k : nat) : string + HttpResponse :=
  if (k <? 3)%nat then
    let t := 100 * Z.of_nat k in
    inr (mkHttpResponse 200 (JsonModel.print (JsonModel.JObject
      [("client_send_ms", JsonModel.JInt t); ("server_receive_ms", JsonModel.JInt (t + 7 + 60));
       ("server_send_ms", JsonModel.JInt (t + 7 + 70))]%string)))
  else inl "down"%string.

#[global] Instance demo_time_http : HttpTransport nat := {|
  http_perform _ k := (demo_answer k, S k);
  curl_escape value := Some value;
|}.

#[global] Instance demo_time_clock : ClockApi nat := {|
  clk_now_ms k := (100 * Z.of_nat k, k);
  clk_steady_ns k := (100000000 * Z.of_nat k, k);
|}.

Definition faster (a b : Sample) : Prop := smp_round_trip_ms a <= smp_round_trip_ms b.

#[global] Instance faster_dec : RelDecision faster.
Proof. intros a b. unfold faster. apply _. Defined.
#[global] Instance faster_total : Total faster.
Proof. intros a b. unfold faster. lia. Qed.
#[global] Instance faster_trans : Transitive faster.
Proof. intros a b c. unfold faster. lia. Qed.

#[global] Instance demo_sort : SampleSort := {| sort_samples := merge_sort faster |}.

#[global] Instance demo_sort_laws : SampleSortLaws.
Proof. split; intros xs; [apply merge_sort_Permutation | exact (StronglySorted_merge_sort faster xs)]. Qed.

Lemma demo_time_server : time_server (J := JsonModel.api) 7 (fun k => 100 * Z.of_nat k).
Proof.
  split.
  - intros k. split; [done | simpl; lia].
  - intros url k value k' receive send. unfold get_json, http_get, request, transfer, mbind, M_bind, lift.
    destruct (throw_if _ _) as [[] | e]; [| discriminate]. cbn [http_header_lines map_result http_perform demo_time_http].
    destruct (demo_answer k) as [detail | response] eqn:Ea; [discriminate |].
    destruct (decode_json_response response) as [decoded | e] eqn:E; [| discriminate]. intros [= -> <-] Hr Hs.
    destruct k as [| [| [| k]]]; [| | | discriminate Ea]; injection Ea as <-; vm_compute in E; injection E as <-;
      vm_compute in Hr, Hs; injection Hr as <-; injection Hs as <-; lia.
Qed.

Lemma offset_error_bounded_witness : exists clock k,
  synchronize (J := JsonModel.api) "ws://cloud:8765" 3 0%nat = (Ok clock, k) /\
  Z.abs (ts_offset_ms (sc_status clock) - 7) <= 2 * ts_uncertainty_ms (sc_status clock).
Proof.
  destruct (synchronize (J := JsonModel.api) "ws://cloud:8765" 3 0%nat) as [[clock | e] k] eqn:E;
    [| vm_compute in E; discriminate E].
  exists clock, k. split; [reflexivity |].
  apply (offset_error_bounded (J := JsonModel.api) 7 (fun k => 100 * Z.of_nat k) "ws://cloud:8765" 3 0%nat k clock
           demo_time_server E).
Defined.
