(* ===== verification/Socket.v ===== *)
(** Socket: the system calls of a connected socket and the loops around them
    (websocket.cpp:86-90 and 271-339).

    - [SocketApi]: [poll], [send], [recv] and the monotonic clock; a call that a signal
      interrupts is repeated, by the code and here by the class;
    - [wait_socket], [socket_send_all], [socket_receive_exact];
    - [delivers]: a peer whose bytes arrive in order and in time, in pieces of any size. *)
From S2P Require Export HttpHelpers.

(** A call fails with the text of its error, or answers: [poll] whether the socket is ready
    within the milliseconds, [send] how many characters it took, [recv] what it got (nothing
    when the peer has closed).  The clock counts nanoseconds. *)
Class SocketApi (W : Type) : Type := {
  sock_poll : bool -> Z -> W -> (string + bool) * W;
  sock_send : list ascii -> W -> (string + nat) * W;
  sock_recv : nat -> W -> (string + list ascii) * W;
  sock_steady_ns : W -> Z * W;
}.

Section socket.
Context {W : Type} {Sock : SocketApi W}.

(** [steady_clock::now()] *)
Definition sock_now : M W Z := fun w => let '(now, w) := sock_steady_ns w in (Ok now, w).

Definition socket_buffer_size (size : nat) : nat := Nat.min size (Z.to_nat (2 ^ 31 - 1)).

(** [write] chooses between the two kinds of readiness. *)
Definition wait_socket (write : bool) (timeout_ms : Z) : M W bool := fun w =>
  let bounded := Z.min (Z.max timeout_ms 0) (2 ^ 31 - 1) in
  match sock_poll write bounded w with
  | (inl error, w) => (Throw (RuntimeError ("poll failed: " +:+ error)), w)
  | (inr ready, w) => (Ok ready, w)
  end.

(** Every round sends a character or throws, so there are at most as many as characters.
    [failed] and [closed] are the texts of the two errors. *)
Fixpoint send_loop (failed closed : string) (rounds : nat) (value : list ascii) : M W unit :=
  match value, rounds with
  | [], _ | _, O => mret tt
  | _, S rounds => fun w =>
      match sock_send (take (socket_buffer_size (length value)) value) w with
      | (inl error, w) => (Throw (RuntimeError (failed +:+ error)), w)
      | (inr O, w) => (Throw (RuntimeError closed), w)
      | (inr sent, w) => send_loop failed closed rounds (drop sent value) w
      end
  end.

Definition socket_send_all (value : list ascii) : M W unit :=
  send_loop "websocket send failed: " "websocket closed while sending" (length value) value.

(** Waits for the socket until the deadline, in nanoseconds. *)
Definition wait_until (write : bool) (deadline : Z) : M W bool :=
  now ← sock_now;
  if deadline <=? now then mret false
  else wait_socket write ((deadline - now) ÷ 1000000).

(** [None] when the peer closes first; every round receives a character. *)
Fixpoint receive_loop (rounds size : nat) (deadline : Z) (output : list ascii) :
    M W (option (list ascii)) :=
  match size, rounds with
  | O, _ | _, O => mret (Some output)
  | _, S rounds =>
      ready ← wait_until false deadline;
      if negb ready then throw (RuntimeError "websocket frame timed out")
      else fun w =>
        match sock_recv (socket_buffer_size size) w with
        | (inl error, w) => (Throw (RuntimeError ("websocket receive failed: " +:+ error)), w)
        | (inr [], w) => (Ok None, w)
        | (inr received, w) =>
            receive_loop rounds (size - length received) deadline (output ++ received) w
        end
  end.

Definition socket_receive_exact (size : nat) (deadline : Z) : M W (option (list ascii)) :=
  receive_loop size size deadline [].
End socket.

(** ** A peer that delivers *)

(** [delivers stream w]: what the peer has sent and not yet been read is [stream].  Reading
    gets some of it, in order; sending and looking take nothing; the clock stays within
    [[start, finish)]. *)
Record transport {W : Type} {Sock : SocketApi W} (delivers : list ascii -> W -> Prop)
    (start finish : Z) : Prop := {
  tr_poll stream w write timeout : delivers stream w -> stream <> [] \/ write = true ->
    exists w', sock_poll write timeout w = (inr true, w') /\ delivers stream w';
  tr_clock stream w : delivers stream w ->
    start <= (sock_steady_ns w).1 < finish /\ delivers stream (sock_steady_ns w).2;
  tr_recv stream w size : delivers stream w -> stream <> [] -> (0 < size)%nat ->
    exists chunk rest w', sock_recv size w = (inr chunk, w') /\ stream = chunk ++ rest /\
      chunk <> [] /\ (length chunk <= size)%nat /\ delivers rest w';
  tr_send stream w value : delivers stream w -> value <> [] ->
    exists sent w', sock_send value w = (inr (S sent), w') /\ (S sent <= length value)%nat /\
      delivers stream w';
}.

Section transport.
Context {W : Type} {Sock : SocketApi W} (delivers : list ascii -> W -> Prop) (start finish : Z).
Context (T : transport delivers start finish).

Lemma buffer_size_pos size : (0 < size)%nat -> (0 < socket_buffer_size size <= size)%nat.
Proof.
  intros H. unfold socket_buffer_size. split; [| lia]. apply Nat.min_glb_lt; [done |].
  change (2 ^ 31 - 1) with 2147483647. lia.
Qed.

Lemma wait_until_ready write deadline stream w :
  delivers stream w -> stream <> [] \/ write = true -> finish <= deadline ->
  exists w', wait_until write deadline w = (Ok true, w') /\ delivers stream w'.
Proof.
  intros Hd Hs Hf. unfold wait_until, sock_now, mbind, M_bind.
  destruct (tr_clock _ _ _ T stream w Hd) as [Hc Hd1]. destruct (sock_steady_ns w) as [now w1]. simpl in *.
  rewrite (proj2 (Z.leb_gt deadline now)) by lia. unfold wait_socket.
  set (timeout := Z.min _ _). destruct (tr_poll _ _ _ T stream w1 write timeout Hd1 Hs) as (w2 & E & Hd2).
  rewrite E. by exists w2.
Qed.

(** What is asked for is received, whatever the pieces, and the rest stays. *)
Lemma receive_loop_ok data : forall rounds output stream w deadline,
  delivers (data ++ stream) w -> finish <= deadline -> (length data <= rounds)%nat ->
  exists w', receive_loop rounds (length data) deadline output w = (Ok (Some (output ++ data)), w') /\
             delivers stream w'.
Proof.
  induction data as [data IH] using (induction_ltof1 _ length). unfold ltof in IH.
  intros rounds output stream w deadline Hd Hf Hr. destruct data as [| c data].
  { exists w. rewrite app_nil_r. by destruct rounds. }
  destruct rounds as [| rounds]; [simpl in Hr; lia |].
  remember (c :: data) as all eqn:Ea. assert (Hl : length all = S (length data)) by by rewrite Ea.
  rewrite Hl. cbn [receive_loop]. unfold mbind, M_bind.
  destruct (wait_until_ready false deadline (all ++ stream) w Hd) as (w1 & E1 & Hd1);
    [left; by rewrite Ea | done |]. rewrite E1. cbn [negb].
  destruct (buffer_size_pos (S (length data))) as [Hb1 Hb2]; [lia |].
  destruct (tr_recv _ _ _ T (all ++ stream) w1 (socket_buffer_size (S (length data))) Hd1) as
    (chunk & rest & w2 & E2 & Es & Hne & Hlen & Hd2); [by rewrite Ea | lia |].
  rewrite E2. destruct chunk as [| d chunk]; [done |]. set (got := d :: chunk) in *.
  assert (Hp : got = take (length got) all).
  { apply (f_equal (take (length got))) in Es. rewrite take_app_length, take_app_le in Es by lia.
    by symmetry. }
  set (left := drop (length got) all).
  pose proof (take_drop (length got) all) as Hall. rewrite <- Hp in Hall. fold left in Hall. symmetry in Hall.
  assert (Hrest : rest = left ++ stream).
  { rewrite Hall, <- app_assoc in Es. by apply app_inv_head in Es. }
  assert (Hll : length left = (S (length data) - length got)%nat) by (unfold left; rewrite length_drop; lia).
  rewrite <- Hll. destruct (IH left) with (rounds := rounds) (output := output ++ got) (stream := stream)
    (w := w2) (deadline := deadline) as (w3 & E3 & Hd3); [unfold got in *; simpl in *; lia | by rewrite <- Hrest | done |
    unfold got in *; simpl in *; lia |].
  exists w3. split; [| done]. rewrite E3, <- app_assoc. by rewrite <- Hall.
Qed.

Lemma socket_receive_ok data stream w deadline :
  delivers (data ++ stream) w -> finish <= deadline ->
  exists w', socket_receive_exact (length data) deadline w = (Ok (Some data), w') /\ delivers stream w'.
Proof. intros Hd Hf. by apply (receive_loop_ok data). Qed.

Lemma send_loop_ok failed closed stream : forall rounds value w,
  delivers stream w -> (length value <= rounds)%nat ->
  exists w', send_loop failed closed rounds value w = (Ok tt, w') /\ delivers stream w'.
Proof.
  induction rounds as [| rounds IH]; intros value w Hd Hl.
  - exists w. by destruct value.
  - destruct value as [| c value]; [by exists w |].
    remember (c :: value) as all eqn:Ea. assert (Hne : all <> []) by by rewrite Ea.
    assert (E : send_loop failed closed (S rounds) all = fun w =>
      match sock_send (take (socket_buffer_size (length all)) all) w with
      | (inl error, w) => (Throw (RuntimeError (failed +:+ error)), w)
      | (inr O, w) => (Throw (RuntimeError closed), w)
      | (inr sent, w) => send_loop failed closed rounds (drop sent all) w
      end) by by rewrite Ea.
    rewrite E. destruct (buffer_size_pos (length all)) as [Hb _]; [rewrite Ea; simpl; lia |].
    destruct (tr_send _ _ _ T stream w (take (socket_buffer_size (length all)) all)) as (sent & w1 & E1 & Hs & Hd1);
      [done | |].
    { rewrite Ea in *. simpl in Hb. by destruct (socket_buffer_size _); [lia |]. }
    rewrite E1. apply IH; [done |]. rewrite length_drop. lia.
Qed.

Lemma socket_send_ok value stream w : delivers stream w ->
  exists w', socket_send_all value w = (Ok tt, w') /\ delivers stream w'.
Proof. intros Hd. by apply send_loop_ok. Qed.
End transport.
