(* ===== verification/HttpWire.v ===== *)
(** HttpWire: requests and responses on the wire (server.cpp:831-876, 897-972 and
    1725-1743).

    - [parse_request]: reading the headers, the request line, the body, the query;
    - [send_http_response];
    - [serve_client], a connection from its request to its answer.

    Reading repeats until something is complete; every round that goes on has read a
    character, so the rounds given ([kMaxHeaders], the length of the body) are enough. *)
From S2P Require Export Socket.

(** ** Texts *)

Definition status_reason (status : Z) : string :=
  if status =? 200 then "OK" else if status =? 201 then "Created"
  else if status =? 400 then "Bad Request" else if status =? 401 then "Unauthorized"
  else if status =? 404 then "Not Found" else if status =? 405 then "Method Not Allowed"
  else if status =? 409 then "Conflict" else if status =? 410 then "Gone"
  else if status =? 413 then "Payload Too Large" else if status =? 429 then "Too Many Requests"
  else if status =? 500 then "Internal Server Error" else "Response".

Definition header_line (header : string * string) : string :=
  header.1 +:+ ": " +:+ header.2 +:+ crlf_text.

Definition response_header (response : ServerResponse) : string :=
  "HTTP/1.1 " +:+ to_string_Z (resp_status response) +:+ " " +:+
  status_reason (resp_status response) +:+ crlf_text +:+
  "Content-Type: " +:+ resp_content_type response +:+ crlf_text +:+
  "Content-Length: " +:+ to_string_Z (Z.of_nat (String.length (resp_body response))) +:+ crlf_text +:+
  "Connection: close" +:+ crlf_text +:+
  foldr (fun header rest => header_line header +:+ rest) "" (resp_headers response) +:+ crlf_text.

(** [line >> word]: white space is skipped, then the word is taken. *)
Fixpoint take_word (s : list ascii) : list ascii * list ascii :=
  match s with
  | [] => ([], [])
  | c :: rest =>
      if is_space c then ([], s) else let '(word, rest) := take_word rest in (c :: word, rest)
  end.

Definition next_word (s : list ascii) : list ascii * list ascii := take_word (drop_while is_space s).

Definition parse_request_line (line : list ascii) : result (string * string) :=
  let '(method, line) := next_word (chars (trim (of_chars line))) in
  let '(target, line) := next_word line in
  let '(version, _) := next_word line in
  throw_if (string_empty (of_chars version) || negb (starts_with "HTTP/1." (of_chars version)))
    (InvalidArgument "invalid HTTP request line");;
  Ok (of_chars method, of_chars target).

Definition parse_header (headers : gmap string string) (line : list ascii) :
    result (gmap string string) :=
  let header := trim (of_chars line) in
  if string_empty header then Ok headers
  else
    match break_at ":"%char (chars header) with
    | (_, None) => Throw (InvalidArgument "invalid HTTP header")
    | (name, Some value) => Ok (<[lower (trim (of_chars name)) := trim (of_chars value)]> headers)
    end.

Fixpoint parse_headers (headers : gmap string string) (lines : list (list ascii)) :
    result (gmap string string) :=
  match lines with
  | [] => Ok headers
  | line :: lines => headers ← parse_header headers line; parse_headers headers lines
  end.

Definition read_content_length (headers : gmap string string) : result Z :=
  let invalid := InvalidArgument "invalid Content-Length header" in
  match headers !! "content-length"%string with
  | None => Ok 0
  | Some text =>
      match stoull text with
      | Throw _ => Throw invalid
      | Ok (length, consumed) =>
          throw_if (negb (consumed =? String.length text)%nat) invalid;; Ok length
      end
  end.

Fixpoint parse_query (query : gmap string string) (items : list (list ascii)) :
    result (gmap string string) :=
  match items with
  | [] => Ok query
  | [] :: items => parse_query query items
  | item :: items =>
      let '(name, value) := break_at "="%char item in
      value ← match value with None => Ok ""%string | Some value => url_decode (of_chars value) end;
      name ← url_decode (of_chars name);
      parse_query (<[name := value]> query) items
  end.

(** The path and the query of a target. *)
Definition parse_target (target : string) : result (string * gmap string string) :=
  let '(path, query) := break_at "?"%char (chars target) in
  path ← url_decode (of_chars path);
  query ← match query with
          | None => Ok ∅
          | Some query => parse_query ∅ (split_on "&"%char query)
          end;
  Ok (path, query).

(** ** Reading a request *)

Definition kMaxHeaders : Z := 64 * 1024.
Definition kWireBuffer : nat := 16 * 1024.

Section wire.
Context {W : Type} {Sock : SocketApi W}.

Definition receive_some (closed : string) : M W (list ascii) := fun w =>
  match sock_recv (socket_buffer_size kWireBuffer) w with
  | (inl error, w) => (Throw (RuntimeError ("recv failed: " +:+ error)), w)
  | (inr [], w) => (Throw (InvalidArgument closed), w)
  | (inr received, w) => (Ok received, w)
  end.

(** What is read when the blank line has come, and where that line is. *)
Fixpoint read_headers (rounds : nat) (wire : list ascii) : M W (nat * list ascii) :=
  match find_text http_blank_line wire, rounds with
  | Some header_end, _ => mret (header_end, wire)
  | None, O => throw (InvalidArgument "HTTP headers too large")
  | None, S rounds =>
      received ← receive_some "client closed before sending HTTP headers";
      let wire := wire ++ received in
      if kMaxHeaders <? Z.of_nat (length wire) then throw (InvalidArgument "HTTP headers too large")
      else read_headers rounds wire
  end.

Fixpoint read_body (rounds : nat) (content_length : Z) (body : list ascii) : M W (list ascii) :=
  match rounds with
  | O => mret body
  | S rounds =>
      if content_length <=? Z.of_nat (length body) then mret body
      else
        received ← receive_some "client closed before sending HTTP body";
        read_body rounds content_length (body ++ received)
  end.

(** The request line and the headers; an empty block has no line. *)
Definition parse_header_block (block : list ascii) :
    result (string * string * gmap string string) :=
  match block, split_on "010"%char block with
  | [], _ | _, [] => Throw (InvalidArgument "missing HTTP request line")
  | _, request_line :: lines =>
      '(method, target) ← parse_request_line request_line;
      headers ← parse_headers ∅ lines;
      Ok (method, target, headers)
  end.

Definition parse_request (max_body_bytes : Z) : M W HttpRequest :=
  '(header_end, wire) ← read_headers (S (Z.to_nat kMaxHeaders)) [];
  '(method, target, headers) ← lift (parse_header_block (take header_end wire));
  content_length ← lift (read_content_length headers);
  lift (throw_if (max_body_bytes <? content_length) (LengthError "request body too large"));;
  body ← read_body (Z.to_nat content_length) content_length (drop (header_end + 4) wire);
  '(path, query) ← lift (parse_target target);
  mret (mkHttpRequest method target "" path query headers
          (of_chars (take (Z.to_nat content_length) body))).

(** ** Answering *)

Definition send_all (value : string) : M W unit :=
  send_loop "send failed: " "connection closed while sending response"
    (String.length value) (chars value).

Definition send_http_response (response : ServerResponse) : M W unit :=
  send_all (response_header response);;
  send_all (resp_body response).

(** What the server says before the connection is a WebSocket. *)
Definition switching_protocols (accept request_id : string) : string :=
  "HTTP/1.1 101 Switching Protocols" +:+ crlf_text +:+ "Upgrade: websocket" +:+ crlf_text +:+
  "Connection: Upgrade" +:+ crlf_text +:+ "Sec-WebSocket-Accept: " +:+ accept +:+ crlf_text +:+
  "X-Request-ID: " +:+ request_id +:+ crlf_text +:+ crlf_text.

(** A connection: the handlers are those the server was given; the WebSocket handler says
    whether it took the connection over. *)
Definition serve_client {J : JsonApi} (max_body_bytes : Z) (peer_address : W -> string)
    (websocket_handler : option (HttpRequest -> M W bool))
    (handler : HttpRequest -> M W ServerResponse) : M W unit :=
  let refused (status : Z) (e : exn) : M W (option ServerResponse) :=
    response ← lift (ServerResponse_json status (j_object [("error", j_string (what e))]));
    mret (Some response) in
  let served : M W (option ServerResponse) :=
    request ← parse_request max_body_bytes;
    peer ← gets peer_address;
    let request := request <| http_peer_address := peer |> in
    taken ← match websocket_handler with
            | None => mret false
            | Some websocket_handler => websocket_handler request
            end;
    if (taken : bool) then mret None
    else response ← handler request; mret (Some response) in
  response ← try_catch served (fun e =>
    match e with
    | LengthError _ => refused 413 e
    | InvalidArgument _ => refused 400 e
    | ForeignException => throw e
    | _ => refused 500 e
    end);
  match response with
  | None => mret tt
  | Some response => try_catch_std (send_http_response response) (fun _ => mret tt)
  end.
End wire.
