(* ===== verification/WebSocket.v ===== *)
(** WebSocket: the server's end of a WebSocket connection (websocket.cpp:418-538 and
    the frame of the client, 632-654).

    - frames: [server_frame], [client_frame], masking;
    - [ServerWebSocketConnection]: [send_frame], [send_json], [send_close] and
      [receive_json], one frame of which is [receive_frame];
    - [WebSocketApi]: the calls of a client, as those that have one see them. *)
From S2P Require Export WsCodec Socket.

(** [WebSocketReceiveResult], its status and its message in one. *)
Inductive WebSocketReceiveResult {J : JsonApi} : Type :=
| ReceivedMessage (message : json)
| ReceivedTimeout
| ReceivedClosed.

Definition kWebSocketFrameAssemblyTimeout : Z := 5000000000.   (* nanoseconds *)

(** ** Frames *)

(** [static_cast<char>] of an unsigned value. *)
Definition to_char (value : Z) : ascii := char_of (Z.land value 0xff).

(** The length after the opcode; [mask_bit] is 0x80 in what a client sends. *)
Definition frame_length (mask_bit : Z) (size : Z) : list ascii :=
  if size <? 126 then [to_char (Z.lor mask_bit size)]
  else if size <=? 0xffff then
    [to_char (Z.lor mask_bit 126); to_char (Z.shiftr size 8); to_char size]
  else
    to_char (Z.lor mask_bit 127) ::
    map (fun shift => to_char (Z.shiftr size shift)) [56; 48; 40; 32; 24; 16; 8; 0].

Definition frame_opcode (opcode : Z) : ascii := to_char (Z.lor 0x80 (Z.land opcode 0x0f)).

Definition size_of (payload : list ascii) : Z := Z.of_nat (length payload).

(** The frame [ServerWebSocketConnection::send_frame] sends. *)
Definition server_frame (opcode : Z) (payload : list ascii) : list ascii :=
  frame_opcode opcode :: frame_length 0 (size_of payload) ++ payload.

(** [payload[index] ^ mask[index % mask.size()]], from some index on. *)
Fixpoint apply_mask (mask : list Z) (index : nat) (payload : list ascii) : list ascii :=
  match payload with
  | [] => []
  | c :: payload =>
      char_of (Z.lxor (byte_of c) (nth (Nat.modulo index (length mask)) mask 0)) ::
      apply_mask mask (S index) payload
  end.

(** The frame [WebSocketClient::Impl::send_frame] sends, with its random mask. *)
Definition client_frame (mask : list Z) (opcode : Z) (payload : list ascii) : list ascii :=
  frame_opcode opcode :: frame_length 0x80 (size_of payload) ++
  map char_of mask ++ apply_mask mask 0 payload.

(** [for (const auto byte : extended) length = (length << 8) | byte], on 64 bits. *)
Definition read_length (extended : list ascii) : Z :=
  fold_left (fun length c => Z.lor (u64 (Z.shiftl length 8)) (byte_of c)) extended 0.

Definition is_control_opcode (opcode : Z) : bool := (opcode =? 8) || (opcode =? 9) || (opcode =? 10).

(** ** The server *)

Section connection.
Context {J : JsonApi} {W : Type} {Sock : SocketApi W}.
Notation Result := WebSocketReceiveResult.

Definition send_frame (opcode : Z) (payload : list ascii) : M W unit :=
  socket_send_all (server_frame opcode payload).

Definition send_json (value : json) : M W unit :=
  text ← lift (j_dump value);
  send_frame 0x1 (chars text).

Definition send_close (code : Z) (reason : string) : M W unit :=
  lift (throw_if (negb (valid_websocket_close_code code))
          (InvalidArgument "invalid websocket close status code"));;
  lift (throw_if (123 <? Z.of_nat (String.length reason))
          (InvalidArgument "websocket close reason is too long"));;
  lift (throw_if (negb (valid_utf8 reason))
          (InvalidArgument "websocket close reason must be valid UTF-8"));;
  send_frame 0x8 (to_char (Z.shiftr code 8) :: to_char code :: chars reason).

(** [if (!socket_receive_exact(...)) return Closed;] *)
Definition receiving (size : nat) (deadline : Z) (next : list ascii -> M W (option Result)) :
    M W (option Result) :=
  bytes ← socket_receive_exact size deadline;
  match bytes with
  | None => mret (Some ReceivedClosed)
  | Some bytes => next bytes
  end.

Definition invalid {A} (message : string) : M W A := throw (InvalidArgument message).

(** The extended length, when [length] announces one. *)
Definition receiving_length (length deadline : Z) (next : Z -> M W (option Result)) :
    M W (option Result) :=
  if length =? 126 then
    receiving 2 deadline (fun extended =>
      let length := read_length extended in
      if length <? 126 then invalid "websocket frame length is not minimally encoded"
      else next length)
  else if length =? 127 then
    receiving 8 deadline (fun extended =>
      if negb (Z.land (byte_of (hd "000"%char extended)) 0x80 =? 0)
      then invalid "invalid websocket frame length"
      else
        let length := read_length extended in
        if length <=? 0xffff then invalid "websocket frame length is not minimally encoded"
        else next length)
  else next length.

(** What a complete frame does; [None] goes on with the next one. *)
Definition handle_frame (final : bool) (opcode : Z) (payload : list ascii) : M W (option Result) :=
  if opcode =? 8 then
    lift (validate_websocket_close_payload (of_chars payload));;
    send_frame 0x8 payload;;
    mret (Some ReceivedClosed)
  else if opcode =? 9 then
    send_frame 0xa payload;;
    mret None
  else if opcode =? 10 then mret None
  else if negb final then invalid "fragmented websocket messages are not supported"
  else if negb (opcode =? 1) then invalid "only text websocket frames are supported"
  else
    value ← lift (rethrow_json (fun what => InvalidArgument ("invalid websocket JSON: " +:+ what))
                    (value ← j_parse (of_chars payload);
                     throw_if (negb (is_object value))
                       (InvalidArgument "websocket message must be a JSON object");;
                     Ok value));
    mret (Some (ReceivedMessage value)).

Context (max_message_bytes : Z).

(** One round of the loop of [receive_json]. *)
Definition receive_frame (timeout_ms : Z) : M W (option Result) :=
  ready ← wait_socket false timeout_ms;
  if negb ready then mret (Some ReceivedTimeout)
  else
    now ← sock_now;
    let frame_deadline := now + kWebSocketFrameAssemblyTimeout in
    receiving 2 frame_deadline (fun header =>
      let first := byte_of (nth 0 header "000"%char) in
      let second := byte_of (nth 1 header "000"%char) in
      let final := negb (Z.land first 0x80 =? 0) in
      let opcode := Z.land first 0x0f in
      if negb (Z.land first 0x70 =? 0) then invalid "websocket reserved bits are not supported"
      else if Z.land second 0x80 =? 0 then invalid "client websocket frames must be masked"
      else if negb (supported_websocket_opcode opcode) then invalid "unsupported websocket opcode"
      else
        receiving_length (Z.land second 0x7f) frame_deadline (fun length =>
          if is_control_opcode opcode && (negb final || (125 <? length)) then
            invalid "websocket control frames must be complete and no longer than 125 bytes"
          else if max_message_bytes <? length then invalid "websocket message too large"
          else
            receiving 4 frame_deadline (fun mask =>
              receiving (Z.to_nat length) frame_deadline (fun payload =>
                handle_frame final opcode (apply_mask (map byte_of mask) 0 payload))))).

(** [None] while only control frames have come: the loop goes on as long as they do. *)
Fixpoint receive_json (frames : nat) (timeout_ms : Z) : M W (option Result) :=
  match frames with
  | O => mret None
  | S frames =>
      received ← receive_frame timeout_ms;
      match received with
      | Some result => mret (Some result)
      | None => receive_json frames timeout_ms
      end
  end.
End connection.

(** ** The client's calls *)

(** What a client asks of its connection ([WebSocketClient]): [ws_open] constructs and
    connects one, the others work on it and on the machine. *)
Class WebSocketApi {J : JsonApi} (W : Type) : Type := {
  ws : Type;
  ws_open : Z -> list string -> string -> list (string * string) -> M W ws;
  ws_connected : ws -> bool;
  ws_url : ws -> string;
  ws_send_json : json -> Z -> M (ws * W) unit;
  ws_receive_json : Z -> M (ws * W) WebSocketReceiveResult;
  ws_close : M (ws * W) unit;
}.
