(* ===== verification/WebSocketProperties.v ===== *)
(** WebSocketProperties: what one end of a connection sends, the other receives.

    - a client's frame, masked in any way and delivered in any pieces, is the server's
      frame again, after any pings ([client_message_received]);
    - the server takes no more of the stream than one frame of the allowed size
      ([oversized_frame_refused]). *)
From S2P Require Export WebSocket WsCodecProperties.

(** ** Bits of a byte *)

(** A statement about every byte, by looking. *)
Lemma all_bytes (P : Z -> bool) :
  forallb (fun n => P (Z.of_nat n)) (seq 0 256) = true -> forall b, is_byte b -> P b = true.
Proof.
  rewrite forallb_forall. intros H b [H1 H2]. rewrite <- (Z2Nat.id b) by lia. apply H, in_seq. lia.
Qed.

Lemma byte_of_to_char v : byte_of (to_char v) = v mod 256.
Proof.
  unfold to_char. rewrite (land_mod _ 8) by lia. apply byte_of_char. unfold is_byte.
  by apply Z.mod_pos_bound.
Qed.

Lemma lxor_byte a b : is_byte a -> is_byte b -> is_byte (Z.lxor a b).
Proof.
  intros Ha Hb. unfold is_byte. replace (Z.lxor a b) with (Z.lxor a b mod 2 ^ 8); [by apply Z.mod_pos_bound |].
  apply Z.bits_inj'. intros n Hn. destruct (Z.lt_ge_cases n 8).
  - by rewrite Z.mod_pow2_bits_low.
  - rewrite Z.mod_pow2_bits_high by lia. rewrite Z.lxor_spec.
    rewrite <- (Z.mod_small a (2 ^ 8)), <- (Z.mod_small b (2 ^ 8)) by assumption.
    by rewrite !Z.mod_pow2_bits_high by lia.
Qed.

(** ** Masks *)
Lemma nth_mask mask i : Forall is_byte mask -> is_byte (nth i mask 0).
Proof.
  intros H. destruct (nth_in_or_default i mask 0) as [Hi | ->]; [| done].
  by apply (proj1 (Forall_forall _ _) H), list_elem_of_In.
Qed.

Lemma apply_mask_length mask i payload : length (apply_mask mask i payload) = length payload.
Proof. revert i. induction payload as [| c payload IH]; intros i; simpl; [done | by rewrite IH]. Qed.

(** Masking twice gives the payload back. *)
Lemma apply_mask_twice mask i payload : Forall is_byte mask ->
  apply_mask mask i (apply_mask mask i payload) = payload.
Proof.
  intros Hm. revert i. induction payload as [| c payload IH]; intros i; [done |].
  cbn [apply_mask]. rewrite IH. f_equal.
  rewrite byte_of_char by (apply lxor_byte; [apply byte_of_range | by apply nth_mask]).
  rewrite Z.lxor_assoc, Z.lxor_nilpotent, Z.lxor_0_r. apply char_of_byte.
Qed.

Lemma mask_bytes mask : Forall is_byte mask -> map byte_of (map char_of mask) = mask.
Proof. induction 1 as [| b mask Hb _ IH]; [done |]. simpl. by rewrite byte_of_char, IH. Qed.

(** ** Lengths *)

Definition read_step (length : Z) (c : ascii) : Z := Z.lor (u64 (Z.shiftl length 8)) (byte_of c).

Lemma read_step_shift size s above : above = s + 8 -> 0 <= size < 2 ^ 64 -> 0 <= s ->
  read_step (Z.shiftr size above) (to_char (Z.shiftr size s)) = Z.shiftr size s.
Proof.
  intros -> Hs H0. unfold read_step. rewrite byte_of_to_char.
  rewrite !Z.shiftr_div_pow2, Z.shiftl_mul_pow2 by lia. rewrite Z.pow_add_r by lia.
  change (2 ^ 8) with 256. set (p := 2 ^ s). assert (Hp : 0 < p) by (apply Z.pow_pos_nonneg; lia).
  rewrite <- Z.div_div by lia. set (q := size / p).
  assert (Hq : 0 <= q < 2 ^ 64).
  { split; [apply Z.div_pos; lia |]. unfold q. apply Z.div_lt_upper_bound; nia. }
  pose proof (Z.div_mod q 256 ltac:(lia)) as E. pose proof (Z.mod_pos_bound q 256 ltac:(lia)) as Hr.
  rewrite u64_small by lia. rewrite (lor_add 8); [lia | lia | | exact Hr]. apply Z.mod_mul. lia.
Qed.

Lemma read_length_8 size : 0 <= size < 2 ^ 64 ->
  read_length (map (fun shift => to_char (Z.shiftr size shift)) [56; 48; 40; 32; 24; 16; 8; 0]) = size.
Proof.
  intros Hs. unfold read_length. change (fun length c => _) with read_step. cbn [map fold_left].
  assert (H0 : 0 = Z.shiftr size 64).
  { rewrite Z.shiftr_div_pow2 by lia. symmetry. apply Z.div_small. exact Hs. }
  rewrite H0 at 1. by rewrite (read_step_shift size 56), (read_step_shift size 48), (read_step_shift size 40),
    (read_step_shift size 32), (read_step_shift size 24), (read_step_shift size 16),
    (read_step_shift size 8), (read_step_shift size 0), Z.shiftr_0_r by lia.
Qed.

Lemma read_length_2 size : 0 <= size < 2 ^ 16 ->
  read_length [to_char (Z.shiftr size 8); to_char size] = size.
Proof.
  intros Hs. unfold read_length. change (fun length c => _) with read_step. cbn [fold_left].
  assert (H0 : 0 = Z.shiftr size 16).
  { rewrite Z.shiftr_div_pow2 by lia. symmetry. apply Z.div_small. exact Hs. }
  assert (H64 : 0 <= size < 2 ^ 64) by (split; [lia |]; eapply Z.lt_trans; [apply Hs | done]).
  rewrite H0 at 1. rewrite (read_step_shift size 8) by lia.
  rewrite <- (Z.shiftr_0_r size) at 2. by rewrite (read_step_shift size 0), Z.shiftr_0_r by lia.
Qed.

Lemma land_high b : is_byte b ->
  Z.land b 0x80 = (if b <? 128 then 0 else 0x80) /\ Z.land b 0x7f = (if b <? 128 then b else b - 128).
Proof.
  intros Hb. split; apply Z.eqb_eq; revert b Hb.
  - apply (all_bytes (fun b => Z.land b 0x80 =? if b <? 128 then 0 else 0x80)). vm_compute. reflexivity.
  - apply (all_bytes (fun b => Z.land b 0x7f =? if b <? 128 then b else b - 128)). vm_compute. reflexivity.
Qed.

(** The second byte of a frame holds the mask bit and seven bits of length. *)
Lemma second_byte bit n : bit = 0 \/ bit = 0x80 -> 0 <= n < 128 ->
  Z.land (byte_of (to_char (Z.lor bit n))) 0x80 = bit /\
  Z.land (byte_of (to_char (Z.lor bit n))) 0x7f = n.
Proof.
  intros Hb Hn. rewrite byte_of_to_char.
  assert (E : Z.lor bit n = bit + n) by (apply (lor_add 7); [lia | by destruct Hb as [-> | ->] | exact Hn]).
  rewrite E, Z.mod_small by (destruct Hb; lia).
  destruct (land_high (bit + n)) as [-> ->]; [unfold is_byte; destruct Hb; lia |].
  destruct Hb as [-> | ->]; [rewrite (proj2 (Z.ltb_lt _ _)) by lia | rewrite (proj2 (Z.ltb_ge _ _)) by lia]; lia.
Qed.

(** What the header says about a length, in its three forms. *)
Lemma frame_length_view bit size : bit = 0 \/ bit = 0x80 -> 0 <= size < 2 ^ 63 ->
  exists second extended, frame_length bit size = second :: extended /\
    Z.land (byte_of second) 0x80 = bit /\
    (Z.land (byte_of second) 0x7f = size /\ size < 126 /\ extended = [] \/
     Z.land (byte_of second) 0x7f = 126 /\ 126 <= size /\ length extended = 2%nat /\
       read_length extended = size \/
     Z.land (byte_of second) 0x7f = 127 /\ 0xffff < size /\ length extended = 8%nat /\
       read_length extended = size /\ Z.land (byte_of (hd "000"%char extended)) 0x80 = 0).
Proof.
  intros Hb Hs. unfold frame_length. destruct (Z.ltb_spec size 126).
  { destruct (second_byte bit size Hb) as [E1 E2]; [lia |]. by eexists _, []; auto 10. }
  destruct (Z.leb_spec size 0xffff).
  - destruct (second_byte bit 126 Hb) as [E1 E2]; [lia |]. eexists _, _. split; [done |]. split; [done |].
    right. left. rewrite read_length_2 by lia. auto.
  - destruct (second_byte bit 127 Hb) as [E1 E2]; [lia |]. eexists _, _. split; [done |]. split; [done |].
    right. right. rewrite read_length_8 by (split; [lia |]; eapply Z.lt_trans; [apply Hs | done]).
    split_and!; try done. cbn [map hd]. rewrite byte_of_to_char.
    assert (H1 : 0 <= Z.shiftr size 56 < 128).
    { rewrite Z.shiftr_div_pow2 by lia. split; [by apply Z.div_pos; lia |]. apply Z.div_lt_upper_bound; [done |].
      change (2 ^ 56 * 128) with (2 ^ 63). lia. }
    rewrite Z.mod_small by lia. destruct (land_high (Z.shiftr size 56)) as [-> _]; [unfold is_byte; lia |].
    by rewrite (proj2 (Z.ltb_lt _ _)) by lia.
Qed.

(** ** The server receives *)

Section server.
Context {J : JsonApi} {W : Type} {Sock : SocketApi W}.
Context (delivers : list ascii -> W -> Prop) (start finish : Z) (T : transport delivers start finish).
Context (max_message_bytes : Z).

(** A step that is given its bytes goes on with them. *)
Lemma receiving_ok data stream w deadline next :
  delivers (data ++ stream) w -> finish <= deadline ->
  exists w', delivers stream w' /\ receiving (length data) deadline next w = next data w'.
Proof.
  intros Hd Hf. destruct (socket_receive_ok delivers start finish T data stream w deadline Hd Hf) as (w' & E & Hd').
  exists w'. split; [done |]. unfold receiving, mbind, M_bind. by rewrite E.
Qed.

Lemma receiving_length_ok size second extended stream w deadline next :
  frame_length 0x80 size = second :: extended -> 0 <= size < 2 ^ 63 ->
  delivers (extended ++ stream) w -> finish <= deadline ->
  exists w', delivers stream w' /\
    receiving_length (Z.land (byte_of second) 0x7f) deadline next w = next size w'.
Proof.
  intros E Hs Hd Hf. destruct (frame_length_view 0x80 size (or_intror eq_refl) Hs) as (c & e & E' & _ & H).
  rewrite E in E'. injection E' as <- <-. unfold receiving_length.
  destruct H as [(-> & Hlt & ->) | [(-> & Hle & Hl & Hr) | (-> & Hlt & Hl & Hr & Hh)]].
  - rewrite !(proj2 (Z.eqb_neq _ _)) by lia. by exists w.
  - rewrite Z.eqb_refl. rewrite <- Hl. edestruct (receiving_ok extended) as (w' & Hd' & ->); [done | done |].
    exists w'. split; [done |]. cbv zeta. rewrite Hr. by rewrite (proj2 (Z.ltb_ge _ _)) by lia.
  - change (127 =? 126) with false. change (127 =? 127) with true. cbv iota. rewrite <- Hl.
    edestruct (receiving_ok extended) as (w' & Hd' & ->); [done | done |].
    exists w'. split; [done |]. cbv beta. rewrite Hh. cbv zeta iota. rewrite Hr. cbn [Z.eqb negb].
    by rewrite (proj2 (Z.leb_gt _ _)) by lia.
Qed.

Definition known_opcode (opcode : Z) : Prop := opcode = 1 \/ opcode = 8 \/ opcode = 9 \/ opcode = 10.

Lemma opcode_byte opcode : known_opcode opcode ->
  let first := byte_of (frame_opcode opcode) in
  Z.land first 0x80 = 0x80 /\ Z.land first 0x70 = 0 /\ Z.land first 0x0f = opcode /\
  supported_websocket_opcode opcode = true.
Proof. intros [-> | [-> | [-> | ->]]]; repeat split. Qed.

Definition fits (opcode : Z) (payload : list ascii) : Prop :=
  size_of payload < 2 ^ 63 /\ size_of payload <= max_message_bytes /\
  (is_control_opcode opcode = true -> size_of payload <= 125).

(** A client's frame is received as what was sent. *)
Lemma receive_frame_ok mask opcode payload stream w timeout :
  known_opcode opcode -> length mask = 4%nat -> Forall is_byte mask -> fits opcode payload ->
  finish <= start + kWebSocketFrameAssemblyTimeout ->
  delivers (client_frame mask opcode payload ++ stream) w ->
  exists w', delivers stream w' /\
    receive_frame max_message_bytes timeout w = handle_frame true opcode payload w'.
Proof.
  intros Ho Hml Hmb (Hs63 & Hmax & Hctl) Hf Hd. unfold receive_frame.
  assert (Hsz : 0 <= size_of payload) by (unfold size_of; lia).
  destruct (frame_length_view 0x80 (size_of payload) (or_intror eq_refl)) as (second & extended & El & Em & _);
    [lia |].
  unfold client_frame in Hd. rewrite El in Hd. cbn [app] in Hd. rewrite <- !app_assoc in Hd.
  unfold mbind at 1, M_bind at 1. unfold wait_socket at 1. set (t := Z.min _ _).
  edestruct (tr_poll _ _ _ T _ w false t Hd) as (w1 & E1 & Hd1); [by left |]. rewrite E1. cbn [negb].
  unfold mbind at 1, M_bind at 1, sock_now at 1.
  destruct (tr_clock _ _ _ T _ w1 Hd1) as [Hc Hd2]. destruct (sock_steady_ns w1) as [now w2]. simpl in Hc, Hd2.
  cbv zeta. set (deadline := now + _). assert (Hdl : finish <= deadline) by (unfold deadline; lia).
  change (receiving (W := W) 2) with (receiving (J := J) (W := W) (length [frame_opcode opcode; second])).
  edestruct (receiving_ok [frame_opcode opcode; second]) as (w3 & Hd3 & ->); [exact Hd2 | exact Hdl |].
  cbv beta. cbn [nth]. destruct (opcode_byte opcode Ho) as (F1 & F2 & F3 & F4). rewrite F1, F2, F3, F4, Em.
  change (0x80 =? 0) with false. change (0 =? 0) with true. cbn [negb].
  edestruct (receiving_length_ok (size_of payload) second extended) as (w4 & Hd4 & ->);
    [exact El | lia | exact Hd3 | exact Hdl |]. cbv beta. cbn [negb orb].
  replace (is_control_opcode opcode && (125 <? size_of payload)) with false
    by (symmetry; apply andb_false_iff; destruct (is_control_opcode opcode); [right; apply Z.ltb_ge; auto | by left]).
  rewrite (proj2 (Z.ltb_ge _ _)) by lia.
  assert (Hm4 : length (map char_of mask) = 4%nat) by by rewrite length_map.
  rewrite <- Hm4. edestruct (receiving_ok (map char_of mask)) as (w5 & Hd5 & ->); [exact Hd4 | exact Hdl |].
  assert (Hpl : length (apply_mask mask 0 payload) = Z.to_nat (size_of payload))
    by (unfold size_of; rewrite apply_mask_length; lia).
  rewrite <- Hpl. edestruct (receiving_ok (apply_mask mask 0 payload)) as (w6 & Hd6 & ->);
    [exact Hd5 | exact Hdl |].
  exists w6. split; [done |]. by rewrite mask_bytes, apply_mask_twice.
Qed.

(** A frame as a client may send it: its mask, opcode and payload. *)
Definition frame_sent (frame : list Z * Z * list ascii) : list ascii :=
  let '(mask, opcode, payload) := frame in client_frame mask opcode payload.

(** A ping or a pong. *)
Definition keepalive (frame : list Z * Z * list ascii) : Prop :=
  let '(mask, opcode, payload) := frame in
  (opcode = 9 \/ opcode = 10) /\ length mask = 4%nat /\ Forall is_byte mask /\ fits opcode payload.

Lemma keepalive_passed frame stream w timeout :
  keepalive frame -> finish <= start + kWebSocketFrameAssemblyTimeout ->
  delivers (frame_sent frame ++ stream) w ->
  exists w', delivers stream w' /\ receive_frame max_message_bytes timeout w = (Ok None, w').
Proof.
  destruct frame as [[mask opcode] payload]. intros (Ho & Hml & Hmb & Hfit) Hf Hd.
  destruct (receive_frame_ok mask opcode payload stream w timeout) as (w1 & Hd1 & ->); auto.
  { unfold known_opcode. tauto. }
  destruct Ho as [-> | ->]; [| by exists w1]. unfold handle_frame. cbn [Z.eqb Pos.eqb]. unfold send_frame.
  destruct (socket_send_ok delivers start finish T (server_frame 10 payload) stream w1 Hd1) as (w2 & E & Hd2).
  exists w2. split; [done |]. unfold mbind, M_bind. by rewrite E.
Qed.

Lemma receive_json_next frames timeout (w w' : W) : receive_frame max_message_bytes timeout w = (Ok None, w') ->
  receive_json max_message_bytes (S frames) timeout w = receive_json max_message_bytes frames timeout w'.
Proof. intros E. cbn [receive_json]. unfold mbind, M_bind. by rewrite E. Qed.
End server.

(** C31. A client's message arrives.  Whatever the mask and the pieces it is delivered in,
    and after any number of pings and pongs, [receive_json] of the server returns the JSON
    object whose text the client framed, and leaves the rest of the stream unread.  (All in
    time: the clock moves by less than the five seconds a frame may take.) *)
Theorem client_message_received {J : JsonApi} {W : Type} {Sock : SocketApi W} delivers start finish
    max_message_bytes controls mask text value stream (w : W) timeout :
  transport delivers start finish -> finish <= start + kWebSocketFrameAssemblyTimeout ->
  Forall (keepalive max_message_bytes) controls ->
  length mask = 4%nat -> Forall is_byte mask ->
  size_of (chars text) < 2 ^ 63 -> size_of (chars text) <= max_message_bytes ->
  j_parse text = Ok value -> is_object value = true ->
  delivers (concat (map frame_sent controls) ++ client_frame mask 1 (chars text) ++ stream) w ->
  exists w', delivers stream w' /\
    receive_json max_message_bytes (S (length controls)) timeout w = (Ok (Some (ReceivedMessage value)), w').
Proof.
  intros T Hf Hcs Hml Hmb H63 Hmax Hp Ho. revert w.
  induction Hcs as [| frame controls Hk Hcs IH]; intros w Hd.
  - destruct (receive_frame_ok delivers start finish T max_message_bytes mask 1 (chars text) stream w timeout)
      as (w1 & Hd1 & E); auto; [by left | done |].
    exists w1. split; [done |]. cbn [length receive_json]. unfold mbind at 1, M_bind at 1. rewrite E.
    unfold handle_frame. cbn [Z.eqb Pos.eqb negb]. rewrite of_chars_chars. rewrite Hp.
    cbn [mbind result_bind]. rewrite Ho. reflexivity.
  - cbn [map concat] in Hd. rewrite <- app_assoc in Hd.
    destruct (keepalive_passed delivers start finish T max_message_bytes frame _ w timeout Hk Hf Hd) as (w1 & Hd1 & E).
    destruct (IH w1 Hd1) as (w2 & Hd2 & E2). exists w2. split; [done |].
    cbn [length]. by rewrite (receive_json_next _ _ _ _ _ E).
Qed.

(** A frame that is too large is refused at its header.  When a client announces more
    than the limit, [receive_json] throws having read the header and the length only: of the
    payload nothing is read and for it nothing is allocated. *)
Theorem oversized_frame_refused {J : JsonApi} {W : Type} {Sock : SocketApi W} delivers start finish
    max_message_bytes size stream (w : W) timeout :
  transport delivers start finish -> finish <= start + kWebSocketFrameAssemblyTimeout ->
  0 <= max_message_bytes < size -> size < 2 ^ 63 ->
  delivers (frame_opcode 1 :: frame_length 0x80 size ++ stream) w ->
  exists w', delivers stream w' /\
    receive_json max_message_bytes 1 timeout w =
      (Throw (InvalidArgument "websocket message too large"), w').
Proof.
  intros T Hf Hm Hs Hd.
  destruct (frame_length_view 0x80 size (or_intror eq_refl)) as (second & extended & El & Em & _); [lia |].
  rewrite El in Hd. cbn [app] in Hd. cbn [receive_json]. unfold mbind at 1, M_bind at 1. unfold receive_frame.
  unfold mbind at 1, M_bind at 1. unfold wait_socket at 1. set (t := Z.min _ _).
  edestruct (tr_poll _ _ _ T _ w false t Hd) as (w1 & E1 & Hd1); [by left |]. rewrite E1. cbn [negb].
  unfold mbind at 1, M_bind at 1, sock_now at 1.
  destruct (tr_clock _ _ _ T _ w1 Hd1) as [Hc Hd2]. destruct (sock_steady_ns w1) as [now w2]. simpl in Hc, Hd2.
  cbv zeta. set (deadline := now + _). assert (Hdl : finish <= deadline) by (unfold deadline; lia).
  change (receiving (W := W) 2) with (receiving (J := J) (W := W) (length [frame_opcode 1; second])).
  edestruct (receiving_ok delivers start finish T [frame_opcode 1; second]) as (w3 & Hd3 & ->);
    [exact Hd2 | exact Hdl |].
  cbv beta. cbn [nth]. destruct (opcode_byte 1) as (F1 & F2 & F3 & F4); [by left |]. rewrite F1, F2, F3, F4, Em.
  change (0x80 =? 0) with false. change (0 =? 0) with true. cbn [negb].
  edestruct (receiving_length_ok delivers start finish T size second extended) as (w4 & Hd4 & ->);
    [exact El | lia | exact Hd3 | exact Hdl |]. cbv beta. change (is_control_opcode 1) with false. cbn [andb].
  rewrite (proj2 (Z.ltb_lt _ _)) by lia. by exists w4.
Qed.

(** ** A pipe, for the witnesses *)

(** What is still to be received, in pieces, and what was sent. *)
Record Pipe := mkPipe { pipe_chunks : list (list ascii); pipe_sent : list ascii }.

Definition pipe_recv (size : nat) (p : Pipe) : (string + list ascii) * Pipe :=
  match pipe_chunks p with
  | [] => (inr [], p)
  | chunk :: chunks =>
      if (length chunk <=? size)%nat then (inr chunk, mkPipe chunks (pipe_sent p))
      else (inr (take size chunk), mkPipe (drop size chunk :: chunks) (pipe_sent p))
  end.

#[global] Instance pipe_socket : SocketApi Pipe := {|
  sock_poll _ _ p := (inr true, p);
  sock_send value p := (inr (length value), mkPipe (pipe_chunks p) (pipe_sent p ++ value));
  sock_recv := pipe_recv;
  sock_steady_ns p := (0, p);
|}.

Definition pipe_delivers (stream : list ascii) (p : Pipe) : Prop :=
  concat (pipe_chunks p) = stream /\ Forall (fun chunk => chunk <> []) (pipe_chunks p).

Lemma pipe_transport : transport pipe_delivers 0 1.
Proof.
  split.
  - intros stream p write timeout H _. by exists p.
  - intros stream p H. by split.
  - intros stream p size [Hc Hn] Hs Hsize. simpl. unfold pipe_recv.
    destruct (pipe_chunks p) as [| chunk chunks] eqn:E; [by simpl in Hc; subst |].
    apply Forall_cons in Hn as [Hne Hn]. cbn [concat] in Hc.
    destruct (Nat.leb_spec (length chunk) size).
    + exists chunk, (concat chunks). eexists. split; [done |]. split; [done |]. split; [done |]. by split.
    + exists (take size chunk), (drop size chunk ++ concat chunks). eexists.
      split; [done |]. split; [by rewrite app_assoc, take_drop |].
      split; [by destruct size, chunk; simpl in *; try lia |]. split; [rewrite length_take; lia |].
      split; [done |]. cbn [pipe_chunks]. constructor; [| done].
      intros Hd. apply (f_equal length) in Hd. rewrite length_drop in Hd. simpl in Hd. lia.
  - intros stream p value H Hv. destruct value as [| c value]; [done |]. simpl.
    exists (length value). eexists. split; [done |]. split; [lia | exact H].
Qed.

Definition demo_mask : list Z := [0x37; 0xfa; 0x21; 0x3d].
Definition demo_text : string := JsonModel.print (j_object [("event", j_string "hello")]).
Definition demo_wire : list ascii :=
  client_frame demo_mask 9 (chars "are you there?") ++ client_frame demo_mask 1 (chars demo_text).

(** A text that comes a character at a time. *)
Definition trickle (s : list ascii) : Pipe := mkPipe (map (fun c => [c]) s) [].

Lemma trickle_delivers s : pipe_delivers s (trickle s).
Proof.
  split; cbn [pipe_chunks trickle].
  - induction s as [| c s IH]; simpl; [done | by rewrite IH].
  - apply Forall_fmap, Forall_forall. done.
Qed.

Lemma client_message_received_witness :
  exists value p, receive_json (J := JsonModel.api) 1000 2 50 (trickle demo_wire) =
                    (Ok (Some (ReceivedMessage value)), p) /\ pipe_delivers [] p.
Proof.
  destruct (j_parse demo_text) as [value | e] eqn:Ep; [| vm_compute in Ep; discriminate Ep].
  destruct (client_message_received (J := JsonModel.api) pipe_delivers 0 1 1000
              [(demo_mask, 9, chars "are you there?")] demo_mask demo_text value [] (trickle demo_wire) 50)
    as (p & Hd & E).
  - exact pipe_transport.
  - vm_compute. discriminate.
  - repeat constructor; vm_compute; try discriminate; auto.
  - reflexivity.
  - repeat constructor; vm_compute; discriminate.
  - vm_compute. reflexivity.
  - vm_compute. discriminate.
  - exact Ep.
  - vm_compute in Ep. injection Ep as <-. reflexivity.
  - exact (trickle_delivers demo_wire).
  - exists value, p. split; [exact E | exact Hd].
Defined.

Lemma oversized_frame_refused_witness :
  exists p, receive_json (J := JsonModel.api) 1000 1 50
              (mkPipe [frame_opcode 1 :: frame_length 0x80 70000] []) =
              (Throw (InvalidArgument "websocket message too large"), p).
Proof.
  destruct (oversized_frame_refused (J := JsonModel.api) pipe_delivers 0 1 1000 70000 []
              (mkPipe [frame_opcode 1 :: frame_length 0x80 70000] []) 50) as (p & _ & E).
  - exact pipe_transport.
  - vm_compute. discriminate.
  - lia.
  - lia.
  - split; [reflexivity | repeat constructor; discriminate].
  - exists p. exact E.
Defined.
