(* ===== verification/WebSocketClient.v ===== *)
(** WebSocketClient: the client's end of a WebSocket connection (websocket.cpp:365-382 and
    540-881).

    - [CurlApi]: libcurl's connection and the random source;
    - [client_connect]: the handshake; [client_send_json], [client_receive_json],
      [client_close].

    libcurl answers "again" while nothing moves and the client waits for the socket, until
    a deadline; [rounds] bounds how often that may happen in one call.  Options of libcurl
    that do not show in its answers (proxy, certificates, timeouts) are left out. *)
From S2P Require Export WebSocket.

Inductive curl_result (A : Type) : Type :=
| CurlOk (a : A)
| CurlAgain
| CurlError (message : string).
Arguments CurlOk {A} a.
Arguments CurlAgain {A}.
Arguments CurlError {A} message.

Record UrlParts := mkUrlParts { url_host : string; url_port : string; url_path : string; url_query : string }.

(** [curl_parse_url] is [curl_url_set] with the parts read back, nothing for a bad URL;
    [curl_connect] opens the connection of a URL. *)
Class CurlApi (W : Type) : Type := {
  curl_parse_url : string -> option UrlParts;
  curl_connect : string -> W -> (string + unit) * W;
  curl_send : list ascii -> W -> curl_result nat * W;
  curl_recv : nat -> W -> curl_result (list ascii) * W;
  curl_random_bytes : nat -> M W (list Z);
  curl_sha1 : string -> result (list Z);
}.

(** [impl_] and its members; not [connected] when there is none. *)
Record WebSocketClient := mkWebSocketClient {
  wsc_connected : bool;
  wsc_buffered : list ascii;
  wsc_max_message_bytes : Z;
  wsc_peer_closed : bool;
  wsc_timeout_ms : Z;
  wsc_url : string;
}.

#[global] Instance eta_WebSocketClient : Settable WebSocketClient :=
  fields! mkWebSocketClient
    <wsc_connected; wsc_buffered; wsc_max_message_bytes; wsc_peer_closed; wsc_timeout_ms; wsc_url>.

Definition kClientMaxMessageBytes : Z := 8 * 1024 * 1024.

(** A fresh [Impl]. *)
Definition reset_impl (connected : bool) (c : WebSocketClient) : WebSocketClient :=
  c <| wsc_connected := connected |> <| wsc_buffered := [] |>
    <| wsc_max_message_bytes := kClientMaxMessageBytes |> <| wsc_peer_closed := false |>.

(** ** Texts *)

(** The lines up to the first empty one; [s] starts after a line end. *)
Fixpoint header_lines (rounds : nat) (s : list ascii) : list (list ascii) :=
  match rounds, find_text http_newline s with
  | S rounds, Some (S n) => take (S n) s :: header_lines rounds (drop (S n + 2) s)
  | _, _ => []
  end.

Definition parse_header_line (headers : gmap string string) (line : list ascii) : gmap string string :=
  match break_at ":"%char line with
  | (name, Some value) => <[lower (trim (of_chars name)) := trim (of_chars value)]> headers
  | (_, None) => headers
  end.

Definition parse_http_headers (response : list ascii) : gmap string string :=
  match find_text http_newline response with
  | None => ∅
  | Some first_end =>
      foldl parse_header_line ∅ (header_lines (length response) (drop (first_end + 2) response))
  end.

Definition reserved_headers : list string :=
  ["host"; "upgrade"; "connection"; "sec-websocket-key"; "sec-websocket-version"; "user-agent"].

(** The constructor; [connect] makes its [Impl] from the same entries, so it never refuses
    them again. *)
Definition WebSocketClient_new (timeout_ms : Z) (resolve_entries : list string) :
    result WebSocketClient :=
  throw_if (timeout_ms <=? 0) (InvalidArgument "websocket timeout must be positive");;
  throw_if (existsb (fun entry => string_empty entry || has_any crlf_text entry) resolve_entries)
    (InvalidArgument "websocket resolve entry is invalid");;
  Ok (mkWebSocketClient false [] kClientMaxMessageBytes false timeout_ms "").

(** The header lines of the caller; [seen] holds the names so far. *)
Fixpoint render_headers (seen : list string) (headers : list (string * string)) : result string :=
  match headers with
  | [] => Ok ""%string
  | (name, value) :: headers =>
      let canonical_name := lower name in
      throw_if (string_empty name || has_any (":" +:+ crlf_text) name || has_any crlf_text value ||
                string_in canonical_name reserved_headers || string_in canonical_name seen)
        (InvalidArgument "websocket header is invalid or reserved");;
      rest ← render_headers (canonical_name :: seen) headers;
      Ok (name +:+ ": " +:+ value +:+ crlf_text +:+ rest)
  end.

Definition handshake_request (parts : UrlParts) (key headers : string) : string :=
  let host := url_host parts in
  let authority_host :=
    if string_contains ":" host then "[" +:+ host +:+ "]" else host in
  let authority :=
    if string_empty (url_port parts) then authority_host else authority_host +:+ ":" +:+ url_port parts in
  let path := if string_empty (url_path parts) then "/"%string else url_path parts in
  let target :=
    path +:+ (if string_empty (url_query parts) then ""%string else "?" +:+ url_query parts) in
  "GET " +:+ target +:+ " HTTP/1.1" +:+ crlf_text +:+ "Host: " +:+ authority +:+ crlf_text +:+
  "Upgrade: websocket" +:+ crlf_text +:+ "Connection: Upgrade" +:+ crlf_text +:+
  "Sec-WebSocket-Key: " +:+ key +:+ crlf_text +:+ "Sec-WebSocket-Version: 13" +:+ crlf_text +:+
  "User-Agent: mine-teleop-websocket/0.2" +:+ crlf_text +:+ headers +:+ crlf_text.

(** What the answer must say: the status line, then the headers. *)
Definition check_status_line (response : list ascii) : result unit :=
  let upgrade_failed line := RuntimeError ("websocket upgrade failed: " +:+ of_chars line) in
  match find_text http_newline response with
  | None => Throw (upgrade_failed response)
  | Some line_end =>
      let line := take line_end response in
      throw_if (negb (list_contains (chars " 101 ") line)) (upgrade_failed line)
  end.

(** The key is hashed only when the rest is as it should be; the hash may fail. *)
Definition check_handshake (sha1 : string -> result (list Z)) (key : string) (response : list ascii) :
    result bool :=
  let headers := parse_http_headers response in
  match headers !! "upgrade"%string, headers !! "connection"%string,
        headers !! "sec-websocket-accept"%string with
  | Some upgrade, Some connection, Some accept =>
      if negb (String.eqb (lower upgrade) "websocket") ||
         negb (string_contains "upgrade" (lower connection)) then Ok false
      else expected ← websocket_accept_key sha1 key; Ok (String.eqb accept expected)
  | _, _, _ => Ok false
  end.

(** ** The client *)

Record ClientProcess (W : Type) := mkClientProcess { cp_client : WebSocketClient; cp_host : W }.
Arguments mkClientProcess {W}.
Arguments cp_client {W}.
Arguments cp_host {W}.

#[global] Instance eta_ClientProcess W : Settable (ClientProcess W) :=
  fields! (@mkClientProcess W) <cp_client; cp_host>.

Section client.
Context {J : JsonApi} {W : Type} {Sock : SocketApi W} {Curl : CurlApi W}.
Notation C := (ClientProcess W).
Notation Result := WebSocketReceiveResult.
Context (rounds : nat).

Definition on_network {A} (m : M W A) : M C A := zoom cp_host (fun w p => p <| cp_host := w |>) m.
Definition network_call {A} (f : W -> A * W) : M C A :=
  on_network (fun w => let '(a, w) := f w in (Ok a, w)).
Definition client : M C WebSocketClient := gets cp_client.
Definition client_update (f : WebSocketClient -> WebSocketClient) : M C unit :=
  modify (fun p => p <| cp_client ::= f |>).

Definition failed {A} (message : string) : M C A := throw (RuntimeError message).

Definition deadline_in (timeout_ms : Z) : M C Z :=
  now ← on_network sock_now; mret (now + timeout_ms * 1000000).

(** [Impl::send_all]; a round sends a character or waits. *)
Fixpoint client_send_loop (budget : nat) (value : list ascii) (deadline : Z) : M C unit :=
  match value, budget with
  | [], _ => mret tt
  | _, O => failed "websocket send timed out"
  | _, S budget =>
      result ← network_call (curl_send value);
      match result with
      | CurlOk O => failed "websocket closed while sending"
      | CurlOk count => client_send_loop budget (drop count value) deadline
      | CurlError message => failed ("websocket send failed: " +:+ message)
      | CurlAgain =>
          ready ← on_network (wait_until true deadline);
          if (ready : bool) then client_send_loop budget value deadline
          else failed "websocket send timed out"
      end
  end.

Definition client_send_all (value : list ascii) (timeout_ms : Z) : M C unit :=
  deadline ← deadline_in timeout_ms;
  client_send_loop (rounds + length value) value deadline.

Definition kReadBuffer : nat := 16 * 1024.

(** [Impl::read_more]: whether something came before the deadline. *)
Fixpoint read_more (budget : nat) (deadline : Z) : M C bool :=
  match budget with
  | O => mret false
  | S budget =>
      result ← network_call (curl_recv kReadBuffer);
      match result with
      | CurlOk [] => client_update (fun c => c <| wsc_peer_closed := true |>);; mret false
      | CurlOk received => client_update (fun c => c <| wsc_buffered ::= fun b => b ++ received |>);; mret true
      | CurlError message => failed ("websocket receive failed: " +:+ message)
      | CurlAgain =>
          ready ← on_network (wait_until false deadline);
          if (ready : bool) then read_more budget deadline else mret false
      end
  end.

(** Every round of [ensure_bytes] that goes on has read a character. *)
Fixpoint ensure_loop (reads size : nat) (deadline : Z) : M C bool :=
  c ← client;
  if (size <=? length (wsc_buffered c))%nat then mret true
  else
    match reads with
    | O => mret false
    | S reads =>
        more ← read_more (S rounds) deadline;
        if (more : bool) then ensure_loop reads size deadline else mret false
    end.

Definition ensure_bytes (size : nat) (deadline : Z) : M C bool := ensure_loop size size deadline.

Definition client_send_frame (opcode : Z) (payload : list ascii) (timeout_ms : Z) : M C unit :=
  mask ← on_network (curl_random_bytes 4);
  client_send_all (client_frame mask opcode payload) timeout_ms.

Definition client_close : M C unit :=
  c ← client;
  when (wsc_connected c)
    (try_catch_std (client_send_frame 0x8 (map char_of [0x03; 0xe8]) 250) (fun _ => mret tt));;
  client_update (fun c => reset_impl false c <| wsc_url := ""%string |>).

Definition client_send_json (value : json) (timeout_ms : Z) : M C unit :=
  c ← client;
  lift (throw_if (negb (wsc_connected c)) (RuntimeError "websocket is not connected"));;
  lift (throw_if (timeout_ms <=? 0) (InvalidArgument "websocket send timeout must be positive"));;
  lift (throw_if (negb (is_object value)) (InvalidArgument "websocket JSON message must be an object"));;
  text ← lift (j_dump value);
  client_send_frame 0x1 (chars text) timeout_ms.

(** [if (!ensure_bytes(size)) throw ...("incomplete websocket frame");], and the buffer. *)
Definition needing (size : nat) (deadline : Z) : M C (list ascii) :=
  enough ← ensure_bytes size deadline;
  if negb enough then failed "incomplete websocket frame"
  else c ← client; mret (wsc_buffered c).

(** The length and the size of the header it ends. *)
Definition client_frame_length (length deadline : Z) : M C (Z * nat) :=
  if length =? 126 then
    buffered ← needing 4 deadline;
    let length := read_length (take 2 (drop 2 buffered)) in
    if length <? 126 then failed "websocket frame length is not minimally encoded"
    else mret (length, 4%nat)
  else if length =? 127 then
    buffered ← needing 10 deadline;
    if negb (Z.land (byte_of (nth 2 buffered "000"%char)) 0x80 =? 0)
    then failed "invalid websocket frame length"
    else
      let length := read_length (take 8 (drop 2 buffered)) in
      if length <=? 0xffff then failed "websocket frame length is not minimally encoded"
      else mret (length, 10%nat)
  else mret (length, 2%nat).

(** What a complete frame does; [None] goes on with the next one. *)
Definition client_handle_frame (final : bool) (opcode : Z) (payload : list ascii) :
    M C (option Result) :=
  if opcode =? 8 then
    lift (match validate_websocket_close_payload (of_chars payload) with
          | Throw (InvalidArgument message) => Throw (RuntimeError message)
          | checked => checked
          end);;
    client_close;;
    mret (Some ReceivedClosed)
  else if opcode =? 9 then
    c ← client;
    client_send_frame 0xa payload (wsc_timeout_ms c);;
    mret None
  else if opcode =? 10 then mret None
  else if negb final then failed "fragmented websocket messages are not supported"
  else if negb (opcode =? 1) then failed "only text websocket frames are supported"
  else
    value ← lift (rethrow_json (fun what => RuntimeError ("invalid websocket JSON: " +:+ what))
                    (value ← j_parse (of_chars payload);
                     throw_if (negb (is_object value))
                       (RuntimeError "websocket message must be a JSON object");;
                     Ok value));
    mret (Some (ReceivedMessage value)).

(** One round of the loop of [receive_json]. *)
Definition client_receive_frame (deadline : Z) : M C (option Result) :=
  started ← ensure_bytes 2 deadline;
  c ← client;
  if negb started then
    if wsc_peer_closed c then client_close;; mret (Some ReceivedClosed)
    else mret (Some ReceivedTimeout)
  else
    let first := byte_of (nth 0 (wsc_buffered c) "000"%char) in
    let second := byte_of (nth 1 (wsc_buffered c) "000"%char) in
    let final := negb (Z.land first 0x80 =? 0) in
    let opcode := Z.land first 0x0f in
    if negb (Z.land first 0x70 =? 0) then failed "websocket server used unsupported reserved bits"
    else if negb (Z.land second 0x80 =? 0) then failed "websocket server frame must not be masked"
    else if negb (supported_websocket_opcode opcode)
    then failed "websocket server used an unsupported opcode"
    else
      '(length, header_size) ← client_frame_length (Z.land second 0x7f) deadline;
      if is_control_opcode opcode && (negb final || (125 <? length))
      then failed "invalid websocket control frame"
      else if wsc_max_message_bytes c <? length then failed "websocket message too large"
      else if 2 ^ 64 - 1 - Z.of_nat header_size <? length
      then failed "websocket frame length is unsupported"
      else
        buffered ← needing (header_size + Z.to_nat length) deadline;
        let payload := take (Z.to_nat length) (drop header_size buffered) in
        client_update (fun c => c <| wsc_buffered ::= drop (header_size + Z.to_nat length) |>);;
        client_handle_frame final opcode payload.

Fixpoint client_receive_loop (frames : nat) (deadline : Z) : M C (option Result) :=
  match frames with
  | O => mret None
  | S frames =>
      received ← client_receive_frame deadline;
      match received with
      | Some result => mret (Some result)
      | None => client_receive_loop frames deadline
      end
  end.

(** [None] while only control frames have come. *)
Definition client_receive_json (frames : nat) (timeout_ms : Z) : M C (option Result) :=
  c ← client;
  lift (throw_if (negb (wsc_connected c)) (RuntimeError "websocket is not connected"));;
  deadline ← deadline_in timeout_ms;
  client_receive_loop frames deadline.

(** ** The handshake *)

(** [close(); throw e;] *)
Definition close_and_throw {A} (e : exn) : M C A := client_close;; throw e.
Definition or_close {A} (r : result A) : M C A :=
  match r with Ok a => mret a | Throw e => close_and_throw e end.

(** Reads until the blank line; every round that goes on has read a character, and there
    is a limit. *)
Fixpoint read_response (reads : nat) (deadline : Z) : M C (list ascii) :=
  c ← client;
  match find_text http_blank_line (wsc_buffered c), reads with
  | Some n, _ =>
      client_update (fun c => c <| wsc_buffered ::= drop (n + 4) |>);;
      mret (take (n + 4) (wsc_buffered c))
  | None, O => close_and_throw (RuntimeError "websocket handshake headers are too large")
  | None, S reads =>
      if 64 * 1024 <? size_of (wsc_buffered c)
      then close_and_throw (RuntimeError "websocket handshake headers are too large")
      else
        more ← read_more (S rounds) deadline;
        if (more : bool) then read_response reads deadline
        else close_and_throw (RuntimeError "websocket handshake timed out")
  end.

Definition client_connect (url : string) (request_headers : list (string * string)) : M C unit :=
  client_close;;
  lift (throw_if (negb (starts_with "ws://" url) && negb (starts_with "wss://" url))
          (InvalidArgument "websocket URL must use ws or wss"));;
  client_update (fun c => c <| wsc_url := url |>);;
  let transport_url := replace_prefix "wss://" "https://" (replace_prefix "ws://" "http://" url) in
  match curl_parse_url transport_url with
  | None => throw (InvalidArgument "invalid websocket URL")
  | Some parts =>
      lift (throw_if (string_empty (url_host parts))
              (InvalidArgument "websocket URL host is required"));;
      connected ← network_call (curl_connect transport_url);
      match connected with
      | inl message =>
          client_update (reset_impl false);;
          close_and_throw (RuntimeError ("websocket connect failed: " +:+ message))
      | inr _ =>
          client_update (reset_impl true);;
          nonce ← on_network (curl_random_bytes 16);
          let key := base64_encode nonce in
          headers ← or_close (render_headers [] request_headers);
          c ← client;
          client_send_all (chars (handshake_request parts key headers)) (wsc_timeout_ms c);;
          deadline ← deadline_in (wsc_timeout_ms c);
          response ← read_response (64 * 1024 + 2) deadline;
          or_close (check_status_line response);;
          agreed ← lift (check_handshake curl_sha1 key response);
          or_close (throw_if (negb agreed) (RuntimeError "websocket upgrade response is invalid"))
      end
  end.
End client.
