(* ===== verification/WebSocketClientProperties.v ===== *)
(** WebSocketClientProperties: what the server frames, the client receives
    ([server_message_received]). *)
From S2P Require Export WebSocketClient WebSocketProperties.

(** [delivers stream waits w]: what the server has sent and not yet been read is [stream], and
    libcurl answers "again" at most [waits] more times, to a call that receives or sends.
    Otherwise a receiving call gets some of the stream, in order, and a sending one takes some
    of the text.  The socket becomes ready while there is something to receive or to send, and
    the clock stays within [[start, finish)]. *)
Record curl_transport {W : Type} {Sock : SocketApi W} {Curl : CurlApi W}
    (delivers : list ascii -> nat -> W -> Prop) (start finish : Z) : Prop := {
  ct_recv stream waits w : delivers stream waits w -> stream <> [] ->
    (exists chunk rest w', curl_recv kReadBuffer w = (CurlOk chunk, w') /\ stream = chunk ++ rest /\
       chunk <> [] /\ delivers rest waits w') \/
    (exists left w', waits = S left /\ curl_recv kReadBuffer w = (CurlAgain, w') /\ delivers stream left w');
  ct_send stream waits w value : delivers stream waits w -> value <> [] ->
    (exists sent w', curl_send value w = (CurlOk (S sent), w') /\ delivers stream waits w') \/
    (exists left w', waits = S left /\ curl_send value w = (CurlAgain, w') /\ delivers stream left w');
  ct_poll stream waits w write timeout : delivers stream waits w -> stream <> [] \/ write = true ->
    exists w', sock_poll write timeout w = (inr true, w') /\ delivers stream waits w';
  ct_clock stream waits w : delivers stream waits w ->
    start <= (sock_steady_ns w).1 < finish /\ delivers stream waits (sock_steady_ns w).2;
  ct_random stream waits w : delivers stream waits w ->
    exists mask w', curl_random_bytes 4 w = (Ok mask, w') /\ delivers stream waits w';
}.

Section client.
Context {J : JsonApi} {W : Type} {Sock : SocketApi W} {Curl : CurlApi W} (rounds : nat).
Context (delivers : list ascii -> nat -> W -> Prop) (start finish : Z) (T : curl_transport delivers start finish).
Notation C := (ClientProcess W).

(** A connected client before which [stream] lies, buffered or still to come, with no more
    answers "again" than [rounds]; its timeout is long enough. *)
Definition before (stream : list ascii) (p : C) : Prop :=
  wsc_connected (cp_client p) = true /\
  wsc_max_message_bytes (cp_client p) = kClientMaxMessageBytes /\
  finish <= start + wsc_timeout_ms (cp_client p) * 1000000 /\
  exists pending waits, stream = wsc_buffered (cp_client p) ++ pending /\ (waits <= rounds)%nat /\
    delivers pending waits (cp_host p).

(** Waiting for a socket that becomes ready. *)
Lemma network_ready write deadline pending waits (p : C) :
  delivers pending waits (cp_host p) -> pending <> [] \/ write = true -> finish <= deadline ->
  exists w, on_network (wait_until write deadline) p = (Ok true, p <| cp_host := w |>) /\
            delivers pending waits w.
Proof.
  intros Hd Hs Hf. unfold on_network, zoom, wait_until, sock_now, mbind, M_bind.
  destruct (ct_clock _ _ _ T _ _ _ Hd) as [Hc Hd1]. destruct (sock_steady_ns (cp_host p)) as [now w1]. simpl in *.
  rewrite (proj2 (Z.leb_gt deadline now)) by lia. unfold wait_socket.
  set (timeout := Z.min _ _). destruct (ct_poll _ _ _ T _ _ w1 write timeout Hd1 Hs) as (w2 & E & Hd2).
  rewrite E. by exists w2.
Qed.

(** [read_more] keeps asking until something has come. *)
Lemma read_more_ok pending deadline : pending <> [] -> finish <= deadline ->
  forall waits budget p, delivers pending waits (cp_host p) -> (waits < budget)%nat ->
  exists chunk rest left w,
    read_more budget deadline p =
      (Ok true, p <| cp_client ::= fun c => c <| wsc_buffered ::= fun b => b ++ chunk |> |> <| cp_host := w |>) /\
    pending = chunk ++ rest /\ chunk <> [] /\ (left <= waits)%nat /\ delivers rest left w.
Proof.
  intros Hne Hf. induction waits as [waits IH] using lt_wf_ind. intros budget p Hd Hb.
  destruct budget as [| budget]; [lia |]. cbn [read_more]. unfold mbind at 1, M_bind at 1.
  unfold network_call, on_network at 1, zoom at 1.
  destruct (ct_recv _ _ _ T pending waits (cp_host p) Hd Hne) as
    [(chunk & rest & w & -> & Ep & Hcn & Hd1) | (left & w & -> & -> & Hd1)].
  - destruct chunk as [| c chunk]; [done |]. exists (c :: chunk), rest, waits, w. split_and!; [by destruct p | done ..].
  - unfold mbind at 1, M_bind at 1.
    destruct (network_ready false deadline pending left (p <| cp_host := w |>)) as (w' & -> & Hd2); auto.
    set (q := p <| cp_host := w |> <| cp_host := w' |>).
    destruct (IH left ltac:(lia) budget q Hd2 ltac:(lia)) as
      (chunk & rest & left' & w2 & E & Ep & Hcn & Hl & Hd3).
    exists chunk, rest, left', w2. split_and!; [| done | done | lia | done]. rewrite E. by destruct p.
Qed.

Lemma ensure_loop_ok stream deadline size : finish <= deadline -> forall reads p,
  before stream p -> (size <= length stream)%nat ->
  (size <= reads + length (wsc_buffered (cp_client p)))%nat ->
  exists p', ensure_loop rounds reads size deadline p = (Ok true, p') /\ before stream p' /\
             (size <= length (wsc_buffered (cp_client p')))%nat.
Proof.
  intros Hf. induction reads as [| reads IH]; intros p Hb Hs Hr; cbn [ensure_loop]; unfold mbind at 1, M_bind at 1;
    unfold client at 1, gets at 1; destruct (Nat.leb_spec size (length (wsc_buffered (cp_client p))));
    [by exists p | lia | by exists p |].
  destruct Hb as (Hc & Hm & Ht & pending & waits & Es & Hw & Hd). assert (Hne : pending <> []).
  { intros ->. rewrite Es, app_nil_r in Hs. lia. }
  destruct (read_more_ok pending deadline Hne Hf waits (S rounds) p Hd ltac:(lia)) as
    (chunk & rest & left & w1 & E1 & Ep & Hcn & Hl & Hd1).
  unfold mbind at 1, M_bind at 1. rewrite E1. apply IH; [| done |].
  - split; [exact Hc |]. split; [exact Hm |]. split; [exact Ht |]. exists rest, left.
    split; [simpl; by rewrite <- app_assoc, <- Ep |]. split; [lia | exact Hd1].
  - simpl. rewrite length_app. destruct chunk; [done | simpl; lia].
Qed.

Lemma ensure_ok stream deadline size p : finish <= deadline -> before stream p -> (size <= length stream)%nat ->
  exists p', ensure_bytes rounds size deadline p = (Ok true, p') /\ before stream p' /\
             (size <= length (wsc_buffered (cp_client p')))%nat.
Proof. intros Hf Hb Hs. apply (ensure_loop_ok stream); [done | done | done | lia]. Qed.

(** The first [size] characters of the buffer are then those of the stream. *)
Lemma buffered_take stream size p : before stream p -> (size <= length (wsc_buffered (cp_client p)))%nat ->
  take size (wsc_buffered (cp_client p)) = take size stream.
Proof. intros (_ & _ & _ & pending & waits & -> & _) Hs. by rewrite take_app_le. Qed.

Lemma needing_ok stream deadline size p : finish <= deadline -> before stream p -> (size <= length stream)%nat ->
  exists p', needing rounds size deadline p = (Ok (wsc_buffered (cp_client p')), p') /\ before stream p' /\
             (size <= length (wsc_buffered (cp_client p')))%nat.
Proof.
  intros Hf Hb Hs. destruct (ensure_ok stream deadline size p Hf Hb Hs) as (p1 & E & Hb1 & Hs1).
  exists p1. split; [| done]. unfold needing, mbind, M_bind. by rewrite E.
Qed.

Lemma buffered_nth stream size k d p : before stream p -> (size <= length (wsc_buffered (cp_client p)))%nat ->
  (k < size)%nat -> nth k (wsc_buffered (cp_client p)) d = nth k stream d.
Proof. intros (_ & _ & _ & pending & waits & -> & _) Hs Hk. by rewrite app_nth1 by lia. Qed.

(** A frame that is in the buffer is taken out of it. *)
Lemma buffered_frame header payload stream p : before (header ++ payload ++ stream) p ->
  (length header + length payload <= length (wsc_buffered (cp_client p)))%nat ->
  take (length payload) (drop (length header) (wsc_buffered (cp_client p))) = payload /\
  before stream (p <| cp_client ::= fun c =>
    c <| wsc_buffered ::= drop (length header + length payload) |> |>).
Proof.
  intros (Hc & Hm & Ht & pending & waits & E & Hd) Hl. set (b := wsc_buffered (cp_client p)) in *.
  assert (Eb : b = header ++ payload ++ drop (length header + length payload) b /\
               stream = drop (length header + length payload) b ++ pending).
  { rewrite app_assoc in E. split.
    - rewrite app_assoc, <- (take_drop (length header + length payload) b) at 1. f_equal.
      rewrite <- (take_app_le b pending) by lia. rewrite <- E. apply take_app_length'. by rewrite length_app.
    - rewrite <- drop_app_le by lia. rewrite <- E. symmetry. apply drop_app_length'. by rewrite length_app. }
  destruct Eb as [Eb Es]. split.
  - rewrite Eb, drop_app_length. apply take_app_length.
  - split; [exact Hc |]. split; [exact Hm |]. split; [exact Ht |]. exists pending, waits. by split.
Qed.

Lemma client_frame_length_ok first second extended size rest deadline p :
  finish <= deadline ->
  frame_length 0 size = second :: extended -> 0 <= size < 2 ^ 63 ->
  before (first :: second :: extended ++ rest) p ->
  exists p', client_frame_length rounds (Z.land (byte_of second) 0x7f) deadline p =
               (Ok (size, (2 + length extended)%nat), p') /\
             before (first :: second :: extended ++ rest) p'.
Proof.
  intros Hf E Hs Hb. destruct (frame_length_view 0 size (or_introl eq_refl) Hs) as (c & e & E' & _ & H).
  rewrite E in E'. injection E' as <- <-. unfold client_frame_length.
  destruct H as [(-> & Hlt & ->) | [(-> & Hle & Hl & Hr) | (-> & Hlt & Hl & Hr & Hh)]].
  - rewrite !(proj2 (Z.eqb_neq _ _)) by lia. by exists p.
  - rewrite Z.eqb_refl. unfold mbind at 1, M_bind at 1.
    destruct (needing_ok _ deadline 4 p Hf Hb) as (p1 & -> & Hb1 & Hs1); [simpl; rewrite length_app; lia |].
    assert (Ee : take 2 (drop 2 (wsc_buffered (cp_client p1))) = extended).
    { rewrite <- (take_drop 4 (wsc_buffered (cp_client p1))), (buffered_take _ 4 p1 Hb1 Hs1).
      destruct extended as [| a [| b [|]]]; try discriminate Hl. done. }
    rewrite Ee. cbv zeta. rewrite Hr. rewrite (proj2 (Z.ltb_ge _ _)) by lia. rewrite Hl. by exists p1.
  - change (127 =? 126) with false. change (127 =? 127) with true. cbv iota.
    unfold mbind at 1, M_bind at 1.
    destruct (needing_ok _ deadline 10 p Hf Hb) as (p1 & -> & Hb1 & Hs1); [simpl; rewrite length_app; lia |].
    rewrite (buffered_nth _ 10 2 _ p1 Hb1 Hs1) by lia.
    assert (Ee : take 8 (drop 2 (wsc_buffered (cp_client p1))) = extended).
    { rewrite <- (take_drop 10 (wsc_buffered (cp_client p1))), (buffered_take _ 10 p1 Hb1 Hs1).
      do 8 (destruct extended as [| ? extended]; [discriminate Hl |]). by destruct extended. }
    rewrite Ee. cbv zeta. rewrite Hr.
    replace (nth 2 (first :: second :: extended ++ rest) "000"%char) with (hd "000"%char extended)
      by (by destruct extended).
    rewrite Hh. cbn [Z.eqb negb]. rewrite (proj2 (Z.leb_gt _ _)) by lia. rewrite Hl. by exists p1.
Qed.

Lemma extended_length size second extended : frame_length 0 size = second :: extended ->
  (length extended <= 8)%nat.
Proof. unfold frame_length. repeat destruct (_ : bool); intros [= _ <-]; simpl; lia. Qed.

(** A server's frame is received as what was sent. *)
Lemma client_receive_frame_ok opcode payload stream deadline p :
  finish <= deadline -> known_opcode opcode -> fits kClientMaxMessageBytes opcode payload ->
  before (server_frame opcode payload ++ stream) p ->
  exists p', before stream p' /\
    client_receive_frame rounds deadline p = client_handle_frame rounds true opcode payload p'.
Proof.
  intros Hf Ho (Hs63 & Hmax & Hctl) Hb. unfold client_receive_frame.
  assert (Hsz : 0 <= size_of payload) by (unfold size_of; lia).
  destruct (frame_length_view 0 (size_of payload) (or_introl eq_refl)) as (second & extended & El & Em & _); [lia |].
  unfold server_frame in Hb. rewrite El in Hb. cbn [app] in Hb. rewrite <- app_assoc in Hb.
  set (whole := frame_opcode opcode :: second :: extended ++ payload ++ stream) in *.
  unfold mbind at 1, M_bind at 1.
  destruct (ensure_ok whole deadline 2 p Hf Hb) as (p1 & -> & Hb1 & Hs1); [unfold whole; simpl; lia |].
  unfold mbind at 1, M_bind at 1, client at 1, gets at 1. cbn [negb]. cbv zeta.
  rewrite (buffered_nth whole 2 0 _ p1 Hb1 Hs1), (buffered_nth whole 2 1 _ p1 Hb1 Hs1) by lia.
  change (nth 0 whole "000"%char) with (frame_opcode opcode). change (nth 1 whole "000"%char) with second.
  destruct (opcode_byte opcode Ho) as (F1 & F2 & F3 & F4).
  rewrite F1, F2, F3, F4, Em. cbn [Z.eqb negb].
  unfold mbind at 1, M_bind at 1.
  destruct (client_frame_length_ok (frame_opcode opcode) second extended (size_of payload) (payload ++ stream) deadline p1
              Hf El ltac:(lia) Hb1) as (p2 & -> & Hb2). cbn [orb].
  replace (is_control_opcode opcode && (125 <? size_of payload)) with false
    by (symmetry; apply andb_false_iff; destruct (is_control_opcode opcode); [right; apply Z.ltb_ge; auto | by left]).
  destruct Hb1 as (_ & Hmx & _). rewrite Hmx. rewrite (proj2 (Z.ltb_ge kClientMaxMessageBytes _)) by lia.
  pose proof (extended_length _ _ _ El) as Hel.
  unfold kClientMaxMessageBytes in Hmax.
  rewrite (proj2 (Z.ltb_ge (2 ^ 64 - 1 - _) _)) by lia.
  replace (Z.to_nat (size_of payload)) with (length payload) by (unfold size_of; lia).
  unfold mbind at 1, M_bind at 1.
  destruct (needing_ok whole deadline (2 + length extended + length payload) p2 Hf Hb2) as (p3 & -> & Hb3 & Hs3);
    [unfold whole; simpl; rewrite !length_app; lia |].
  unfold mbind at 1, M_bind at 1, client_update at 1, modify at 1.
  change whole with ((frame_opcode opcode :: second :: extended) ++ payload ++ stream) in Hb3.
  destruct (buffered_frame _ payload stream p3 Hb3) as [Et Hb4]; [exact Hs3 |].
  change (2 + length extended)%nat with (length (frame_opcode opcode :: second :: extended)).
  eexists. split; [exact Hb4 |]. by rewrite Et.
Qed.

(** Sending takes nothing of what is to be received. *)
Lemma client_send_loop_ok stream deadline : finish <= deadline -> forall budget value waits p,
  wsc_connected (cp_client p) = true ->
  wsc_max_message_bytes (cp_client p) = kClientMaxMessageBytes ->
  finish <= start + wsc_timeout_ms (cp_client p) * 1000000 ->
  (exists pending, stream = wsc_buffered (cp_client p) ++ pending /\ delivers pending waits (cp_host p)) ->
  (waits <= rounds)%nat -> (waits + length value <= budget)%nat ->
  exists p', client_send_loop budget value deadline p = (Ok tt, p') /\ before stream p'.
Proof.
  intros Hf. induction budget as [| budget IH]; intros value waits p Hc Hm Ht (pending & E & Hd) Hw Hl;
    (destruct value as [| c value];
     [exists p; split; [done |]; split; [done |]; split; [done |]; split; [done |]; by exists pending, waits |]);
    [simpl in Hl; lia |].
  cbn [client_send_loop]. unfold mbind at 1, M_bind at 1. unfold network_call, on_network at 1, zoom at 1.
  destruct (ct_send _ _ _ T pending waits (cp_host p) (c :: value) Hd ltac:(done)) as
    [(sent & w1 & -> & Hd1) | (left & w1 & -> & -> & Hd1)].
  - apply (IH _ waits); try done; [by exists pending |]. rewrite length_drop. simpl in *. lia.
  - unfold mbind at 1, M_bind at 1.
    destruct (network_ready true deadline pending left (p <| cp_host := w1 |>)) as (w2 & -> & Hd2); auto.
    apply (IH _ left); try done; [by exists pending | lia | simpl in *; lia].
Qed.

Lemma deadline_ok timeout stream p : before stream p ->
  exists deadline p', deadline_in timeout p = (Ok deadline, p') /\ before stream p' /\
    cp_client p' = cp_client p /\ start + timeout * 1000000 <= deadline.
Proof.
  intros (Hc & Hm & Ht & pending & waits & E & Hw & Hd).
  unfold deadline_in, on_network, zoom, sock_now, mbind, M_bind, mret, M_ret.
  destruct (ct_clock _ _ _ T pending waits _ Hd) as [Hn Hd2]. destruct (sock_steady_ns (cp_host p)) as [now w].
  simpl in Hn. eexists _, _. split; [reflexivity |]. split; [| split; [done | lia]].
  split; [exact Hc |]. split; [exact Hm |]. split; [exact Ht |]. by exists pending, waits.
Qed.

Lemma client_send_frame_ok opcode payload stream p : before stream p ->
  exists p', client_send_frame rounds opcode payload (wsc_timeout_ms (cp_client p)) p = (Ok tt, p') /\
             before stream p'.
Proof.
  intros (Hc & Hm & Ht & pending & waits & E & Hw & Hd). unfold client_send_frame. unfold mbind at 1, M_bind at 1.
  unfold on_network at 1, zoom at 1. destruct (ct_random _ _ _ T pending waits _ Hd) as (mask & w1 & -> & Hd1).
  unfold client_send_all. unfold mbind at 1, M_bind at 1.
  destruct (deadline_ok (wsc_timeout_ms (cp_client p)) stream (p <| cp_host := w1 |>)) as
    (deadline & p1 & -> & Hb1 & Ec & Hdl).
  { split; [exact Hc |]. split; [exact Hm |]. split; [exact Ht |]. by exists pending, waits. }
  destruct Hb1 as (Hc1 & Hm1 & Ht1 & pending1 & waits1 & E1 & Hw1 & Hd2).
  apply (client_send_loop_ok stream deadline) with (waits := waits1); try done; [lia | by exists pending1 | lia].
Qed.

(** A ping or a pong of the server. *)
Definition server_keepalive (frame : Z * list ascii) : Prop :=
  (frame.1 = 9 \/ frame.1 = 10) /\ fits kClientMaxMessageBytes frame.1 frame.2.

Lemma server_keepalive_passed frame stream deadline p :
  finish <= deadline -> server_keepalive frame -> before (server_frame frame.1 frame.2 ++ stream) p ->
  exists p', before stream p' /\ client_receive_frame rounds deadline p = (Ok None, p').
Proof.
  destruct frame as [opcode payload]. intros Hf (Ho & Hfit) Hb. cbn [fst snd] in *.
  destruct (client_receive_frame_ok opcode payload stream deadline p) as (p1 & Hb1 & ->); auto.
  { unfold known_opcode. tauto. }
  destruct Ho as [-> | ->]; [| by exists p1]. unfold client_handle_frame. cbn [Z.eqb Pos.eqb].
  unfold mbind at 1, M_bind at 1, client at 1, gets at 1.
  destruct (client_send_frame_ok 10 payload stream p1 Hb1) as (p2 & E & Hb2).
  exists p2. split; [done |]. unfold mbind, M_bind. by rewrite E.
Qed.
End client.

(** C32. The server's message arrives.  However the network cuts the stream, however often
    libcurl answers "again" before a piece (or the answer to a ping) gets through, whatever is
    buffered already, and after any number of pings and pongs, [receive_json] of the client
    returns the JSON object whose text the server framed, and the rest of the stream stays
    for the next call.  (All in time: the clock moves by less than the timeouts of the call
    and of the client, and [rounds] is at least the number of answers "again".) *)
Theorem server_message_received {J : JsonApi} {W : Type} {Sock : SocketApi W} {Curl : CurlApi W} rounds
    delivers start finish controls text value stream (p : ClientProcess W) timeout :
  curl_transport delivers start finish -> finish <= start + timeout * 1000000 ->
  Forall server_keepalive controls ->
  size_of (chars text) <= kClientMaxMessageBytes ->
  j_parse text = Ok value -> is_object value = true ->
  before rounds delivers start finish
    (concat (map (fun frame => server_frame frame.1 frame.2) controls) ++
     server_frame 1 (chars text) ++ stream) p ->
  exists p', before rounds delivers start finish stream p' /\
    client_receive_json rounds (S (length controls)) timeout p = (Ok (Some (ReceivedMessage value)), p').
Proof.
  intros T Hf Hcs Hmax Hp Ho Hb. unfold client_receive_json.
  unfold mbind at 1, M_bind at 1, client at 1, gets at 1. rewrite (proj1 Hb). cbn [negb throw_if].
  unfold mbind at 1, M_bind at 1, lift at 1. unfold mbind at 1, M_bind at 1.
  destruct (deadline_ok rounds delivers start finish T timeout _ p Hb) as (deadline & p0 & -> & Hb0 & _ & Hdl).
  assert (Hfd : finish <= deadline) by lia. clear p Hb Hdl.
  revert p0 Hb0. induction Hcs as [| frame controls Hk Hcs IH]; intros p Hb.
  - destruct (client_receive_frame_ok rounds delivers start finish T 1 (chars text) stream deadline p) as
      (p1 & Hb1 & E); [done | by left | | exact Hb |].
    { split; [| by split]. unfold kClientMaxMessageBytes in Hmax. eapply Z.le_lt_trans; [exact Hmax | done]. }
    exists p1. split; [done |]. cbn [length client_receive_loop]. unfold mbind at 1, M_bind at 1. rewrite E.
    unfold client_handle_frame. cbn [Z.eqb Pos.eqb negb]. rewrite of_chars_chars, Hp.
    cbn [mbind result_bind]. rewrite Ho. reflexivity.
  - cbn [map concat] in Hb. rewrite <- app_assoc in Hb.
    destruct (server_keepalive_passed rounds delivers start finish T frame _ deadline p Hfd Hk Hb) as (p1 & Hb1 & E).
    destruct (IH p1 Hb1) as (p2 & Hb2 & E2). exists p2. split; [done |].
    cbn [length]. cbn [client_receive_loop]. unfold mbind at 1, M_bind at 1. rewrite E. exact E2.
Qed.

(** The pipe of [WebSocketProperties], as libcurl sees it: an empty piece is an answer "again". *)
#[global] Instance pipe_curl : CurlApi Pipe := {|
  curl_parse_url _ := Some (mkUrlParts "cloud" "8080" "/" "");
  curl_connect _ p := (inr tt, p);
  curl_send value p := (CurlOk (length value), mkPipe (pipe_chunks p) (pipe_sent p ++ value));
  curl_recv size p :=
    match pipe_chunks p with
    | [] :: chunks => (CurlAgain, mkPipe chunks (pipe_sent p))
    | _ => match pipe_recv size p with
           | (inl message, p) => (CurlError message, p)
           | (inr got, p) => (CurlOk got, p)
           end
    end;
  curl_random_bytes n := mret (take n demo_mask);
  curl_sha1 _ := Ok [];
|}.

Definition empty_pieces (chunks : list (list ascii)) : nat :=
  length (List.filter (fun chunk => negb (nonempty chunk)) chunks).

Definition pipe_hesitates (stream : list ascii) (waits : nat) (p : Pipe) : Prop :=
  concat (pipe_chunks p) = stream /\ (empty_pieces (pipe_chunks p) <= waits)%nat.

Lemma pipe_curl_transport : curl_transport pipe_hesitates 0 1.
Proof.
  split.
  - intros stream waits p [Hc Hw] Hs. unfold empty_pieces in Hw.
    cbn [curl_recv pipe_curl]. unfold pipe_recv. destruct (pipe_chunks p) as [| [| c chunk] chunks] eqn:E.
    + by simpl in Hc; subst.
    + right. simpl in Hw. destruct waits as [| left]; [lia |]. exists left. eexists. split; [done |].
      split; [done |]. split; [exact Hc |]. simpl. unfold empty_pieces. lia.
    + left. cbn [concat] in Hc. simpl in Hw. destruct (Nat.leb_spec (length (c :: chunk)) kReadBuffer).
      * exists (c :: chunk), (concat chunks). eexists. split; [done |]. split; [done |]. split; [done |].
        by split.
      * exists (take kReadBuffer (c :: chunk)), (drop kReadBuffer (c :: chunk) ++ concat chunks). eexists.
        split; [done |]. split; [by rewrite app_assoc, take_drop |]. split.
        { intros Ht. apply (f_equal length) in Ht. rewrite length_take in Ht.
          assert (Hk : (0 < kReadBuffer)%nat) by (apply Nat.ltb_lt; vm_compute; reflexivity).
          cbn [length] in Ht. lia. }
        split; [done |]. cbn [pipe_chunks]. unfold empty_pieces. cbn [List.filter].
        assert (Hne : drop kReadBuffer (c :: chunk) <> []).
        { intros Hd. apply (f_equal length) in Hd. rewrite length_drop in Hd. cbn [length] in *. lia. }
        by destruct (drop kReadBuffer (c :: chunk)).
  - intros stream waits p value H Hv. left. destruct value as [| c value]; [done |]. simpl.
    exists (length value). eexists. split; [done | exact H].
  - intros stream waits p write timeout H _. by exists p.
  - intros stream waits p H. by split.
  - intros stream waits p H. eexists _, p. by split.
Qed.

(** A character at a time, and nothing before each. *)
Definition hesitate (s : list ascii) : Pipe := mkPipe (flat_map (fun c => [[]; [c]]) s) [].

Lemma hesitate_hesitates s : pipe_hesitates s (length s) (hesitate s).
Proof.
  split; cbn [pipe_chunks hesitate]; [induction s as [| c s IH]; simpl; [done | by rewrite IH] |].
  unfold empty_pieces. induction s as [| c s IH]; simpl in *; [done | lia].
Qed.

Definition demo_client (wire : list ascii) : ClientProcess Pipe :=
  mkClientProcess (mkWebSocketClient true [] kClientMaxMessageBytes false 5000 "ws://cloud:8080/") (hesitate wire).

Definition demo_server_wire : list ascii :=
  server_frame 9 (chars "ping") ++ server_frame 1 (chars demo_text).

Lemma server_message_received_witness :
  exists value p, client_receive_json (J := JsonModel.api) 100 2 50 (demo_client demo_server_wire) =
                    (Ok (Some (ReceivedMessage value)), p) /\ before 100 pipe_hesitates 0 1 [] p.
Proof.
  destruct (j_parse demo_text) as [value | e] eqn:Ep; [| vm_compute in Ep; discriminate Ep].
  destruct (server_message_received (J := JsonModel.api) 100 pipe_hesitates 0 1 [(9, chars "ping")] demo_text value []
              (demo_client demo_server_wire) 50) as (p & Hb & E).
  - exact pipe_curl_transport.
  - lia.
  - repeat constructor; vm_compute; try discriminate; auto.
  - vm_compute. discriminate.
  - exact Ep.
  - vm_compute in Ep. injection Ep as <-. reflexivity.
  - split; [reflexivity |]. split; [reflexivity |]. split; [cbn; lia |].
    exists demo_server_wire, (length demo_server_wire). split; [vm_compute; reflexivity |].
    split; [vm_compute; lia |]. exact (hesitate_hesitates demo_server_wire).
  - exists value, p. split; [exact E | exact Hb].
Defined.
