(* ===== verification/Signaling.v ===== *)
(** Signaling: the data of the signaling server (server.hpp:83-283,
    server.cpp:684-691, 1810-1858 and 2460-2523).

    - [SignalingServerConfig] and the records of [SignalingService];
    - [SignalingHost]: the clocks, the random bytes, the audit log's file operations,
      the address parser of the system and the order in which hash maps are visited;
    - [audit], [random_token] and the JSON forms.

    [SignalingState] holds the members the mutex guards; [SignalingProcess] adds those of
    the audit log, the request id of the running thread and the machine.  The trace of
    native commands ([AsyncControlTrace]) is diagnostics that may drop records and never
    answers; it is not modelled. *)
From S2P Require Export HttpHelpers.
From S2P Require Import WsCodec.

(** ** Configuration *)

Record SignalingServerConfig := mkSignalingServerConfig {
  sgc_driver_passwords : gmap string string;
  sgc_device_tokens : gmap string string;
  sgc_driver_vehicle_permissions : gmap string (gset string);
  sgc_admin_token : string;
  sgc_mobile_app_password : string;
  sgc_mobile_approval_vehicles : gset string;
  sgc_mobile_approval_timeout_ms : Z;
  sgc_approver_token_ttl_ms : Z;
  sgc_token_ttl_ms : Z;
  sgc_control_token_ttl_ms : Z;
  sgc_vehicle_heartbeat_timeout_ms : Z;
  sgc_driver_heartbeat_timeout_ms : Z;
  sgc_connection_reaper_interval_ms : Z;
  sgc_login_max_failures : Z;
  sgc_login_failure_window_ms : Z;
  sgc_login_lockout_ms : Z;
  sgc_api_rate_limit_requests : Z;
  sgc_api_rate_limit_window_ms : Z;
  sgc_api_rate_limit_max_sources : Z;
  sgc_trusted_proxy_addresses : list string;
  sgc_stun_urls : list string;
  sgc_turn_urls : list string;
  sgc_turn_realm : string;
  sgc_turn_static_auth_secret : string;
  sgc_turn_credential_ttl_seconds : Z;
  sgc_max_signaling_payload_bytes : Z;
  sgc_max_sdp_bytes : Z;
  sgc_max_ice_candidate_bytes : Z;
  sgc_signaling_message_ttl_ms : Z;
  sgc_native_control_message_ttl_ms : Z;
  sgc_native_control_trace_commands : bool;
  sgc_audit_log_path : string;
  sgc_audit_log_max_bytes : Z;
  sgc_audit_log_files : Z;
  sgc_audit_log_rotation_interval_ms : Z;
  sgc_audit_log_retention_days : Z;
}.

#[global] Instance eta_SignalingServerConfig : Settable SignalingServerConfig :=
  fields! mkSignalingServerConfig
    <sgc_driver_passwords; sgc_device_tokens; sgc_driver_vehicle_permissions; sgc_admin_token;
     sgc_mobile_app_password; sgc_mobile_approval_vehicles; sgc_mobile_approval_timeout_ms;
     sgc_approver_token_ttl_ms; sgc_token_ttl_ms; sgc_control_token_ttl_ms;
     sgc_vehicle_heartbeat_timeout_ms; sgc_driver_heartbeat_timeout_ms;
     sgc_connection_reaper_interval_ms; sgc_login_max_failures; sgc_login_failure_window_ms;
     sgc_login_lockout_ms; sgc_api_rate_limit_requests; sgc_api_rate_limit_window_ms;
     sgc_api_rate_limit_max_sources; sgc_trusted_proxy_addresses; sgc_stun_urls; sgc_turn_urls;
     sgc_turn_realm; sgc_turn_static_auth_secret; sgc_turn_credential_ttl_seconds;
     sgc_max_signaling_payload_bytes; sgc_max_sdp_bytes; sgc_max_ice_candidate_bytes;
     sgc_signaling_message_ttl_ms; sgc_native_control_message_ttl_ms;
     sgc_native_control_trace_commands; sgc_audit_log_path; sgc_audit_log_max_bytes;
     sgc_audit_log_files; sgc_audit_log_rotation_interval_ms; sgc_audit_log_retention_days>.

(** The default member initializers. *)
Definition SignalingServerConfig_default : SignalingServerConfig := {|
  sgc_driver_passwords := {["driver-console-001" := "dev-password"]};
  sgc_device_tokens := {["vehicle-001" := "dev-device-secret"]};
  sgc_driver_vehicle_permissions := {["driver-console-001" := {["vehicle-001"]}]};
  sgc_admin_token := "";
  sgc_mobile_app_password := "";
  sgc_mobile_approval_vehicles := ∅;
  sgc_mobile_approval_timeout_ms := 120 * 1000;
  sgc_approver_token_ttl_ms := 12 * 60 * 60 * 1000;
  sgc_token_ttl_ms := 30 * 60 * 1000;
  sgc_control_token_ttl_ms := 5 * 60 * 1000;
  sgc_vehicle_heartbeat_timeout_ms := 15 * 1000;
  sgc_driver_heartbeat_timeout_ms := 15 * 1000;
  sgc_connection_reaper_interval_ms := 250;
  sgc_login_max_failures := 5;
  sgc_login_failure_window_ms := 60 * 1000;
  sgc_login_lockout_ms := 5 * 60 * 1000;
  sgc_api_rate_limit_requests := 600;
  sgc_api_rate_limit_window_ms := 60 * 1000;
  sgc_api_rate_limit_max_sources := 4096;
  sgc_trusted_proxy_addresses := ["127.0.0.1"; "::1"];
  sgc_stun_urls := ["stun:127.0.0.1:3478"];
  sgc_turn_urls := [];
  sgc_turn_realm := "";
  sgc_turn_static_auth_secret := "";
  sgc_turn_credential_ttl_seconds := 600;
  sgc_max_signaling_payload_bytes := 512 * 1024;
  sgc_max_sdp_bytes := 256 * 1024;
  sgc_max_ice_candidate_bytes := 8 * 1024;
  sgc_signaling_message_ttl_ms := 15 * 1000;
  sgc_native_control_message_ttl_ms := 150;
  sgc_native_control_trace_commands := false;
  sgc_audit_log_path := "";
  sgc_audit_log_max_bytes := 64 * 1024 * 1024;
  sgc_audit_log_files := 5;
  sgc_audit_log_rotation_interval_ms := 60 * 60 * 1000;
  sgc_audit_log_retention_days := 7;
|}.

(** ** Records *)

(** [deadline] is a point of the steady clock, in nanoseconds. *)
Record MobileApproval := mkMobileApproval {
  ap_request_id : string;
  ap_vehicle_id : string;
  ap_driver_id : string;
  ap_state : string;
  ap_decided_by : string;
  ap_session_id : string;
  ap_driver_generation : Z;
  ap_vehicle_generation : Z;
  ap_expires_at_ms : Z;
  ap_deadline : Z;
}.

#[global] Instance eta_MobileApproval : Settable MobileApproval :=
  fields! mkMobileApproval
    <ap_request_id; ap_vehicle_id; ap_driver_id; ap_state; ap_decided_by; ap_session_id;
     ap_driver_generation; ap_vehicle_generation; ap_expires_at_ms; ap_deadline>.

Record DriverToken := mkDriverToken {
  dt_driver_id : string;
  dt_expires_at_ms : Z;
  dt_connection_generation : Z;
}.

Record ConnectionPresence := mkConnectionPresence {
  cp_connection_id : string;
  cp_generation : Z;
  cp_connected_at_ms : Z;
  cp_last_seen_at_ms : Z;
}.

#[global] Instance eta_ConnectionPresence : Settable ConnectionPresence :=
  fields! mkConnectionPresence
    <cp_connection_id; cp_generation; cp_connected_at_ms; cp_last_seen_at_ms>.

Record RelayUsageSample := mkRelayUsageSample {
  ru_sequence : Z;
  ru_bytes_sent : Z;
  ru_bytes_received : Z;
  ru_duration_ms : Z;
}.

Record Session := mkSession {
  sess_session_id : string;
  sess_vehicle_id : string;
  sess_driver_id : string;
  sess_started_at_utc_ms : Z;
  sess_state : SessionState;
  sess_control_token : string;
  sess_control_token_expires_at_ms : Z;
  sess_relay_bytes_sent : Z;
  sess_relay_bytes_received : Z;
  sess_relay_duration_ms : Z;
  sess_relay_usage_samples : Z;
  sess_last_relay_bitrate_kbps : double;
  sess_last_relay_usage_by_actor : gmap string RelayUsageSample;
}.

#[global] Instance eta_Session : Settable Session :=
  fields! mkSession
    <sess_session_id; sess_vehicle_id; sess_driver_id; sess_started_at_utc_ms; sess_state;
     sess_control_token; sess_control_token_expires_at_ms; sess_relay_bytes_sent;
     sess_relay_bytes_received; sess_relay_duration_ms; sess_relay_usage_samples;
     sess_last_relay_bitrate_kbps; sess_last_relay_usage_by_actor>.

Record LoginFailureState := mkLoginFailureState {
  lf_failures : Z;
  lf_window_started_at_ms : Z;
  lf_blocked_until_ms : Z;
}.

#[global] Instance eta_LoginFailureState : Settable LoginFailureState :=
  fields! mkLoginFailureState <lf_failures; lf_window_started_at_ms; lf_blocked_until_ms>.

Record ApiRateState := mkApiRateState {
  ar_requests : Z;
  ar_window_started_at_ms : Z;
  ar_limit_audited : bool;
}.

#[global] Instance eta_ApiRateState : Settable ApiRateState :=
  fields! mkApiRateState <ar_requests; ar_window_started_at_ms; ar_limit_audited>.

Record Message {J : JsonApi} := mkMessage {
  msg_metadata : ProtocolMetadata;
  msg_sender : string;
  msg_recipient : string;
  msg_type : string;
  msg_payload : json;
  msg_queued_at_utc_ms : Z;
  msg_queued_at_monotonic_ms : Z;
  msg_delivery_cursor : Z;
}.
Arguments Message J : clear implicits.
Arguments mkMessage {J}.

Record AcceptedMessage {J : JsonApi} := mkAcceptedMessage {
  am_sequence : Z;
  am_fingerprint : string;
  am_acknowledgement : json;
}.
Arguments AcceptedMessage J : clear implicits.
Arguments mkAcceptedMessage {J}.

(** ** State *)

Record SignalingState {J : JsonApi} := mkSignalingState {
  srv_config : SignalingServerConfig;
  srv_service_instance_id : string;
  srv_driver_tokens : gmap string DriverToken;
  srv_mobile_approvals : gmap string MobileApproval;
  srv_approver_tokens : gmap string DriverToken;
  srv_online_vehicles : gmap string ConnectionPresence;
  srv_online_drivers : gmap string ConnectionPresence;
  srv_revoked_vehicles : gset string;
  srv_revoked_drivers : gset string;
  srv_sessions : gmap string Session;
  srv_messages : gmap string (list (Message J));
  srv_latest_control_messages : gmap string (Message J);
  srv_last_accepted_messages : gmap string (AcceptedMessage J);
  srv_next_delivery_cursors : gmap string Z;
  srv_login_failures : gmap string LoginFailureState;
  srv_approver_login_last_cleanup_ms : Z;
  srv_trusted_proxy_addresses : gset string;
  srv_api_rate_limits : gmap string ApiRateState;
  srv_api_rate_limit_overflow : ApiRateState;
  srv_api_rate_limit_last_cleanup_ms : Z;
  srv_api_rate_limited_requests : Z;
  srv_session_counter : Z;
  srv_connection_generation : Z;
}.
Arguments SignalingState J : clear implicits.
Arguments mkSignalingState {J}.

#[global] Instance eta_SignalingState {J} : Settable (SignalingState J) :=
  fields! mkSignalingState
    <srv_config; srv_service_instance_id; srv_driver_tokens; srv_mobile_approvals;
     srv_approver_tokens; srv_online_vehicles; srv_online_drivers; srv_revoked_vehicles;
     srv_revoked_drivers; srv_sessions; srv_messages; srv_latest_control_messages;
     srv_last_accepted_messages; srv_next_delivery_cursors; srv_login_failures;
     srv_approver_login_last_cleanup_ms; srv_trusted_proxy_addresses; srv_api_rate_limits;
     srv_api_rate_limit_overflow; srv_api_rate_limit_last_cleanup_ms;
     srv_api_rate_limited_requests; srv_session_counter; srv_connection_generation>.

Record SignalingProcess {J : JsonApi} {W : Type} := mkSignalingProcess {
  srv_state : SignalingState J;
  srv_audit_log_period_start_ms : Z;
  srv_audit_log_last_retention_period_ms : Z;
  srv_active_request_id : string;
  srv_host : W;
}.
Arguments SignalingProcess J W : clear implicits.
Arguments mkSignalingProcess {J W}.

#[global] Instance eta_SignalingProcess {J W} : Settable (SignalingProcess J W) :=
  fields! mkSignalingProcess
    <srv_state; srv_audit_log_period_start_ms; srv_audit_log_last_retention_period_ms;
     srv_active_request_id; srv_host>.

(** ** The machine *)

(** Reading a clock cannot fail; the other operations may throw.  The file operations are
    those of the audit log; [host_remember_session] hands a session to the log broker,
    which never throws.  [host_hmac_sha1] is OpenSSL's (nothing when it fails),
    [host_sha1] its digest (which may throw), [inet_canonical] is [inet_pton] followed by
    [inet_ntop], and [hash_items] the order in which an unordered map is visited. *)
Class SignalingHost (J : JsonApi) (W : Type) : Type := {
  host_now_ms : W -> Z * W;
  host_steady_ns : W -> Z * W;
  host_random_bytes : Z -> M W (list Z);
  host_audit_clock : option (M W Z);
  host_existing_log_period : string -> Z -> Z -> M W Z;
  host_archive_jsonl_period : string -> Z -> Z -> M W unit;
  host_prune_jsonl_periods : string -> Z -> Z -> M W unit;
  host_rotate_jsonl_log : string -> Z -> Z -> Z -> M W unit;
  host_append_line : string -> string -> M W unit;
  host_remember_session : json -> W -> W;
  host_hmac_sha1 : string -> string -> option (list Z);
  host_sha1 : string -> result (list Z);
  inet_canonical : string -> option string;
  hash_items : forall {A : Type}, gmap string A -> list (string * A);
}.

(** Every element of a map is visited once. *)
Class HashLaws (J : JsonApi) (W : Type) {H : SignalingHost J W} : Prop := {
  hash_items_perm (A : Type) (m : gmap string A) : Permutation (hash_items m) (map_to_list m);
}.

Section signaling.
Context {J : JsonApi} {W : Type} {Host : SignalingHost J W}.
Notation State := (SignalingState J).
Notation Srv := (SignalingProcess J W).

Definition on_host {A} (m : M W A) : M Srv A :=
  zoom srv_host (fun w p => p <| srv_host := w |>) m.

Definition read_clock (clock : W -> Z * W) : M Srv Z :=
  on_host (fun w => let '(t, w) := clock w in (Ok t, w)).

Definition now_ms : M Srv Z := read_clock host_now_ms.
Definition steady_now : M Srv Z := read_clock host_steady_ns.

Definition monotonic_now_ms : M Srv Z := now ← steady_now; mret (Z.quot now 1000000).

(** The members: read, and written by a function. *)
Definition self : M Srv State := gets srv_state.
Definition srv_update (f : State -> State) : M Srv unit := modify (fun p => p <| srv_state ::= f |>).

(** [for (const auto& x : xs) body(x)] *)
Fixpoint for_each {A} (xs : list A) (body : A -> M Srv unit) : M Srv unit :=
  match xs with
  | [] => mret tt
  | x :: xs => body x;; for_each xs body
  end.

(** ** Random tokens *)

Definition hex_char (n : Z) : ascii :=
  if n <? 10 then ascii_of_nat (Z.to_nat (48 + n)) else ascii_of_nat (Z.to_nat (97 + (n - 10))).

Definition hex_byte (byte : Z) : list ascii := [hex_char (Z.div byte 16); hex_char (byte mod 16)].

Definition random_token (bytes : Z) : M Srv string :=
  lift (throw_if ((bytes =? 0) || (1024 <? bytes))
          (InvalidArgument "random token byte count is invalid"));;
  value ← on_host (host_random_bytes bytes);
  mret (of_chars (flat_map hex_byte value)).

(** The default argument of [random_token]. *)
Definition kRandomTokenBytes : Z := 24.

(** ** The audit log *)

Definition log_period_start (timestamp_ms interval_ms : Z) : result Z :=
  throw_if ((timestamp_ms <? 0) || (interval_ms <=? 0))
    (InvalidArgument "audit log timestamp and rotation interval must be positive");;
  Ok (timestamp_ms - Z.rem timestamp_ms interval_ms).

(** The record, as one line of text. *)
Definition audit_line (event : string) (timestamp_ms : Z) (details : json) : M Srv string :=
  s ← self;
  request_id ← gets srv_active_request_id;
  let record :=
    j_object
      [("event", j_string event); ("sent_at_utc_ms", j_int timestamp_ms);
       ("service_instance_id", j_string (srv_service_instance_id s));
       ("details", sanitize_log_value details)] in
  let record := if string_empty request_id then record
                else j_set "request_id" (j_string request_id) record in
  lift (j_dump record).

(** Moves the log to the current period and prunes the old ones. *)
Definition enter_log_period (config : SignalingServerConfig) (current_period : Z) : M Srv unit :=
  let path := sgc_audit_log_path config in
  started ← gets srv_audit_log_period_start_ms;
  when (started <? 0)
    (period ← on_host (host_existing_log_period path
                         (sgc_audit_log_rotation_interval_ms config) current_period);
     modify (fun p => p <| srv_audit_log_period_start_ms := period |>));;
  started ← gets srv_audit_log_period_start_ms;
  when (negb (started =? current_period))
    (on_host (host_archive_jsonl_period path started (sgc_audit_log_files config));;
     modify (fun p => p <| srv_audit_log_period_start_ms := current_period |>));;
  retention ← gets srv_audit_log_last_retention_period_ms;
  when (negb (retention =? current_period))
    (on_host (host_prune_jsonl_periods path current_period (sgc_audit_log_retention_days config));;
     modify (fun p => p <| srv_audit_log_last_retention_period_ms := current_period |>)).

Definition audit (event : string) (details : json) : M Srv unit :=
  s ← self;
  let config := srv_config s in
  if string_empty (sgc_audit_log_path config) then mret tt
  else
    timestamp_ms ← match host_audit_clock with Some clock => on_host clock | None => now_ms end;
    line ← audit_line event timestamp_ms details;
    let size := Z.of_nat (String.length line) in
    lift (throw_if (u64 (sgc_audit_log_max_bytes config) <=? size)
            (RuntimeError "signaling audit record exceeds configured maximum size"));;
    current_period ←
      lift (log_period_start timestamp_ms (sgc_audit_log_rotation_interval_ms config));
    enter_log_period config current_period;;
    on_host (host_rotate_jsonl_log (sgc_audit_log_path config)
               (u64 (sgc_audit_log_max_bytes config)) (sgc_audit_log_files config) (size + 1));;
    on_host (host_append_line (sgc_audit_log_path config) line).

Definition try_audit (event : string) (details : json) : M Srv bool :=
  try_catch (audit event details;; mret true) (fun _ => mret false).

(** ** JSON forms *)

Definition Session_to_json (include_control_token : bool) (session : Session) : json :=
  let value :=
    j_object
      [("session_id", j_string (sess_session_id session));
       ("vehicle_id", j_string (sess_vehicle_id session));
       ("driver_id", j_string (sess_driver_id session));
       ("state", j_string (SessionState_to_string (sess_state session)));
       ("turn_usage",
        j_object
          [("bytes_sent", j_uint (sess_relay_bytes_sent session));
           ("bytes_received", j_uint (sess_relay_bytes_received session));
           ("relay_bytes_total",
            j_uint (u64 (sess_relay_bytes_sent session + sess_relay_bytes_received session)));
           ("duration_ms", j_uint (sess_relay_duration_ms session));
           ("sample_count", j_uint (sess_relay_usage_samples session));
           ("last_bitrate_kbps", j_double (sess_last_relay_bitrate_kbps session))])] in
  if include_control_token && negb (string_empty (sess_control_token session)) then
    j_set "control_token_expires_at_utc_ms" (j_int (sess_control_token_expires_at_ms session))
      (j_set "control_token" (j_string (sess_control_token session)) value)
  else value.

Definition Message_to_json (message : Message J) : json :=
  j_set_all
    [("sender", j_string (msg_sender message)); ("recipient", j_string (msg_recipient message));
     ("type", j_string (msg_type message)); ("payload", msg_payload message);
     ("queued_at_utc_ms", j_int (msg_queued_at_utc_ms message));
     ("delivery_cursor", j_uint (msg_delivery_cursor message))]
    (ProtocolMetadata_to_json (msg_metadata message)).

(** The fields of [MobileApproval::to_json], at the steady time [now]. *)
Definition approval_details (now : Z) (approval : MobileApproval) : list (string * detail) :=
  [("request_id", DetailString (ap_request_id approval));
   ("vehicle_id", DetailString (ap_vehicle_id approval));
   ("driver_id", DetailString (ap_driver_id approval));
   ("state", DetailString (ap_state approval));
   ("decided_by", DetailString (ap_decided_by approval));
   ("expires_at_utc_ms", DetailInt (ap_expires_at_ms approval));
   ("remaining_ms", DetailInt (Z.max 0 (Z.quot (ap_deadline approval - now) 1000000)))].

Definition details_json (details : list (string * detail)) : json :=
  j_object (map (fun kv => (kv.1, detail_json kv.2)) details).

Definition approval_fields (approval : MobileApproval) : M Srv (list (string * detail)) :=
  now ← steady_now; mret (approval_details now approval).

Definition MobileApproval_to_json (approval : MobileApproval) : M Srv json :=
  fields ← approval_fields approval; mret (details_json fields).

(** [throw Conflict(message, issue_code, approval.to_json())] *)
Definition throw_approval {A} (message issue_code : string) (approval : MobileApproval) :
    M Srv A :=
  fields ← approval_fields approval; throw (Conflict message issue_code fields).
End signaling.
