(* ===== verification/SignalingSessions.v ===== *)
(** SignalingSessions: who is connected, who holds control, and for how long
    (server.cpp:2042-2257 and 2525-2598).

    - the credential checks of drivers, vehicles and actors of a session;
    - the state machine of a session and its closing;
    - the expiry of tokens, leases and heartbeats;
    - the approvals a phone must give before control of some vehicles is granted.

    A [Session&] of the code is the key of the session in [sessions_]. *)
From S2P Require Export Signaling.

Section sessions.
Context {J : JsonApi} {W : Type} {Host : SignalingHost J W}.
Notation State := (SignalingState J).
Notation Srv := (SignalingProcess J W).

(** ** Sessions by reference *)

(** A reference that is always valid in the code; [at] throws otherwise. *)
Definition session_at (id : string) : M Srv Session :=
  s ← self;
  match srv_sessions s !! id with
  | Some session => mret session
  | None => throw (OutOfRange "unordered_map::at")
  end.

Definition update_session (id : string) (f : Session -> Session) : M Srv unit :=
  srv_update (fun s => s <| srv_sessions ::= alter f id |>).

(** [online_drivers_.at(id)] and the other maps of connections. *)
Definition presence_at (map : gmap string ConnectionPresence) (id : string) :
    M Srv ConnectionPresence :=
  match map !! id with
  | Some presence => mret presence
  | None => throw (OutOfRange "unordered_map::at")
  end.

Definition require_active_session (session_id : string) : M Srv Session :=
  s ← self;
  match srv_sessions s !! session_id with
  | None => throw (NotFound "unknown session")
  | Some session =>
      if negb (bool_decide (sess_state session = Active))
      then throw (Conflict "session is not active" "session_not_active" [])
      else mret session
  end.

Definition require_participant (session_id participant : string) : M Srv Session :=
  session ← require_active_session session_id;
  if negb (String.eqb participant (sess_driver_id session)) &&
     negb (String.eqb participant (sess_vehicle_id session))
  then throw (Unauthorized "actor is not current session participant")
  else mret session.

(** ** Credentials *)

Definition validate_driver_token (driver_id token : string) : M Srv unit :=
  s ← self;
  if bool_decide (driver_id ∈ srv_revoked_drivers s) then throw (Unauthorized "driver is revoked")
  else
    match (if string_empty token then None else srv_driver_tokens s !! token) with
    | None => throw (Unauthorized "invalid driver token")
    | Some found =>
        if negb (String.eqb (dt_driver_id found) driver_id)
        then throw (Unauthorized "invalid driver token")
        else
          now ← now_ms;
          if dt_expires_at_ms found <=? now then throw (Unauthorized "driver token expired")
          else
            match srv_online_drivers s !! driver_id with
            | None => throw (Unauthorized "driver connection is no longer current")
            | Some presence =>
                if negb (cp_generation presence =? dt_connection_generation found)
                then throw (Unauthorized "driver connection is no longer current")
                else
                  seen ← now_ms;
                  srv_update (fun s => s <| srv_online_drivers ::=
                    alter (fun p => p <| cp_last_seen_at_ms := seen |>) driver_id |>)
            end
    end.

Definition validate_device_token (vehicle_id token : string) : M Srv unit :=
  s ← self;
  if bool_decide (vehicle_id ∈ srv_revoked_vehicles s)
  then throw (Unauthorized "vehicle is revoked")
  else
    match (if string_empty token then None else sgc_device_tokens (srv_config s) !! vehicle_id) with
    | None => throw (Unauthorized "invalid device token")
    | Some found =>
        if negb (String.eqb found token) then throw (Unauthorized "invalid device token")
        else mret tt
    end.

Definition validate_vehicle_connection (vehicle_id token : string) (connection_generation : Z) :
    M Srv unit :=
  validate_device_token vehicle_id token;;
  s ← self;
  match srv_online_vehicles s !! vehicle_id with
  | None => throw (Conflict "vehicle is offline" "vehicle_offline" [])
  | Some found =>
      if (connection_generation =? 0) || negb (cp_generation found =? connection_generation)
      then throw (Conflict "vehicle connection generation is stale"
                    "vehicle_connection_generation_stale" [])
      else
        seen ← now_ms;
        srv_update (fun s => s <| srv_online_vehicles ::=
          alter (fun p => p <| cp_last_seen_at_ms := seen |>) vehicle_id |>)
  end.

Definition validate_actor_credential (session : Session) (actor : string) (value : json) :
    M Srv unit :=
  if String.eqb actor (sess_driver_id session) then
    token ← lift (optional_string "token" value);
    validate_driver_token actor token
  else if String.eqb actor (sess_vehicle_id session) then
    token ← lift (optional_string "device_token" value);
    generation ← lift (required_uint64 "connection_generation" value);
    validate_vehicle_connection actor token generation
  else throw (Unauthorized "actor is not current session participant").

Definition validate_message_metadata (session : Session) (metadata : ProtocolMetadata) :
    M Srv unit :=
  lift (ProtocolMetadata_validate metadata);;
  lift (throw_if
          (negb (String.eqb (md_vehicle_id metadata) (sess_vehicle_id session)) ||
           negb (String.eqb (md_driver_id metadata) (sess_driver_id session)) ||
           negb (String.eqb (md_session_id metadata) (sess_session_id session)))
          (Unauthorized "protocol metadata does not match current session")).

(** ** Session states *)

Definition transition_allowed (previous next : SessionState) : bool :=
  match previous, next with
  | Online, Reserved => true
  | Reserved, (Connecting | Stopping | Closed) => true
  | Connecting, (Active | Degraded | Stopping | Closed) => true
  | Active, (Degraded | Stopping | Closed) => true
  | Degraded, (Active | Stopping | Closed) => true
  | Stopping, Closed => true
  | _, _ => false
  end.

Definition transition_session (id : string) (next : SessionState) (reason : string) :
    M Srv unit :=
  session ← session_at id;
  let previous := sess_state session in
  if bool_decide (previous = next) then mret tt
  else if negb (transition_allowed previous next) then
    throw (LogicError ("invalid session transition " +:+ SessionState_to_string previous +:+
                       " -> " +:+ SessionState_to_string next))
  else
    update_session id (fun session => session <| sess_state := next |>);;
    audit "session_state_changed"
      (j_object
         [("session_id", j_string (sess_session_id session));
          ("vehicle_id", j_string (sess_vehicle_id session));
          ("driver_id", j_string (sess_driver_id session));
          ("from", j_string (SessionState_to_string previous));
          ("to", j_string (SessionState_to_string next));
          ("reason", j_string reason)]).

Definition remember_log_session (session : Session) (ended_at : Z) : M Srv unit :=
  s ← self;
  let instance := srv_service_instance_id s in
  on_host (modify (host_remember_session
    (j_object
       [("key", j_string (instance +:+ "_" +:+ sess_session_id session));
        ("service_instance_id", j_string instance);
        ("session_id", j_string (sess_session_id session));
        ("driver_id", j_string (sess_driver_id session));
        ("vehicle_id", j_string (sess_vehicle_id session));
        ("started_at_utc_ms", j_int (sess_started_at_utc_ms session));
        ("ended_at_utc_ms", j_int ended_at)]))).

(** The key of the driver's control commands in [last_accepted_messages_]. *)
Definition native_control_key (session_id sender : string) : string :=
  message_key session_id sender +:+ ":native_control".

(** The erasures of [close_session]: the queues and counters of both participants. *)
Definition forget_messages (session : Session) (s : State) : State :=
  let driver_key := message_key (sess_session_id session) (sess_driver_id session) in
  let vehicle_key := message_key (sess_session_id session) (sess_vehicle_id session) in
  let native_key := native_control_key (sess_session_id session) (sess_driver_id session) in
  s <| srv_messages ::= fun m => delete vehicle_key (delete driver_key m) |>
    <| srv_latest_control_messages ::= fun m => delete vehicle_key (delete driver_key m) |>
    <| srv_last_accepted_messages ::=
         fun m => delete native_key (delete vehicle_key (delete driver_key m)) |>
    <| srv_next_delivery_cursors ::= fun m => delete vehicle_key (delete driver_key m) |>.

Definition close_session (id reason : string) : M Srv unit :=
  session ← session_at id;
  if bool_decide (sess_state session = Closed) then mret tt
  else
    update_session id (fun session =>
      session <| sess_control_token := "" |> <| sess_control_token_expires_at_ms := 0 |>);;
    srv_update (forget_messages session);;
    when (negb (bool_decide (sess_state session = Stopping)))
      (transition_session id Stopping reason);;
    transition_session id Closed reason;;
    session ← session_at id;
    ended_at ← now_ms;
    remember_log_session session ended_at.

(** [for (auto& [id, session] : sessions_) if (test(session)) body(session)] *)
Definition for_sessions (test : Session -> bool) (body : string -> M Srv unit) : M Srv unit :=
  s ← self;
  for_each (hash_items (srv_sessions s))
    (fun entry =>
       session ← session_at entry.1;
       when (test session) (body entry.1)).

Definition is_open (session : Session) : bool := negb (bool_decide (sess_state session = Closed)).

Definition close_sessions_for_vehicle (vehicle_id reason : string) : M Srv unit :=
  for_sessions (fun session => String.eqb (sess_vehicle_id session) vehicle_id && is_open session)
    (fun id => close_session id reason).

Definition close_sessions_for_driver (driver_id reason : string) : M Srv unit :=
  for_sessions (fun session => String.eqb (sess_driver_id session) driver_id && is_open session)
    (fun id => close_session id reason).

(** ** Approvals *)

Definition approval_is_live (approval : MobileApproval) : bool :=
  string_in (ap_state approval) ["pending"; "approved"; "rejected"].

Definition set_approval (vehicle_id : string) (approval : MobileApproval) : M Srv unit :=
  srv_update (fun s => s <| srv_mobile_approvals ::= <[vehicle_id := approval]> |>).

(** One of the two parties left, came back or was revoked since the request. *)
Definition approval_orphaned (s : State) (vehicle_id : string) (approval : MobileApproval) : bool :=
  match srv_online_drivers s !! ap_driver_id approval, srv_online_vehicles s !! vehicle_id with
  | Some driver, Some vehicle =>
      negb (cp_generation driver =? ap_driver_generation approval) ||
      negb (cp_generation vehicle =? ap_vehicle_generation approval) ||
      bool_decide (ap_driver_id approval ∈ srv_revoked_drivers s) ||
      bool_decide (vehicle_id ∈ srv_revoked_vehicles s)
  | _, _ => true
  end.

(** The state a live approval must move to, if it has ended. *)
Definition approval_ended (vehicle_id : string) (approval : MobileApproval) :
    M Srv (option string) :=
  s ← self;
  if approval_orphaned s vehicle_id approval then mret (Some "cancelled")
  else
    now ← steady_now;
    mret (if ap_deadline approval <=? now then Some "expired" else None).

Definition cleanup_mobile_approvals : M Srv unit :=
  s ← self;
  for_each (hash_items (srv_mobile_approvals s))
    (fun '(vehicle_id, approval) =>
       if negb (approval_is_live approval) then mret tt
       else
         next ← approval_ended vehicle_id approval;
         match next with
         | None => mret tt
         | Some next =>
             let approval := approval <| ap_state := next |> in
             set_approval vehicle_id approval;;
             details ← MobileApproval_to_json approval;
             try_audit ("mobile_approval_" +:+ next) details;;
             mret tt
         end);;
  timestamp ← now_ms;
  srv_update (fun s => s <| srv_approver_tokens ::=
    filter (fun '(_, token) => (timestamp <? dt_expires_at_ms token) = true) |>).

(** A request that names an approval must name the current one. *)
Definition check_named_approval (driver_id : string) (found : option MobileApproval)
    (request_id : string) : M Srv unit :=
  if string_empty request_id then mret tt
  else
    match found with
    | None => throw (Conflict "连接申请已失效，请重新申请" "mobile_approval_stale" [])
    | Some approval =>
        if negb (String.eqb (ap_request_id approval) request_id) ||
           negb (String.eqb (ap_driver_id approval) driver_id)
        then throw (Conflict "连接申请已失效，请重新申请" "mobile_approval_stale" [])
        else if negb (approval_is_live approval) then
          throw_approval "手机审批已过期或申请已结束，请重新申请连接" "mobile_approval_ended" approval
        else mret tt
    end.

(** Registers a new request; the driver is told to wait. *)
Definition request_mobile_approval (driver_id vehicle_id : string) : M Srv unit :=
  token ← random_token kRandomTokenBytes;
  s ← self;
  driver ← presence_at (srv_online_drivers s) driver_id;
  vehicle ← presence_at (srv_online_vehicles s) vehicle_id;
  now ← now_ms;
  steady ← steady_now;
  let timeout := sgc_mobile_approval_timeout_ms (srv_config s) in
  let approval :=
    mkMobileApproval ("approval-" +:+ token) vehicle_id driver_id "pending" "" ""
      (cp_generation driver) (cp_generation vehicle) (now + timeout)
      (steady + timeout * 1000000) in
  details ← MobileApproval_to_json approval;
  audited ← try_audit "mobile_approval_requested" details;
  if negb audited
  then throw (ServiceUnavailable "audit log unavailable; approval request is disabled")
  else
    set_approval vehicle_id approval;;
    throw_approval "已发送手机审批申请，同意后将自动连接" "mobile_approval_pending" approval.

Definition require_mobile_approval (driver_id vehicle_id request_id : string) : M Srv unit :=
  s ← self;
  if negb (bool_decide (vehicle_id ∈ sgc_mobile_approval_vehicles (srv_config s))) then
    if negb (string_empty request_id)
    then throw (Conflict "车辆审批策略已变化，请重新申请连接" "mobile_approval_stale" [])
    else mret tt
  else
    cleanup_mobile_approvals;;
    s ← self;
    let found := srv_mobile_approvals s !! vehicle_id in
    check_named_approval driver_id found request_id;;
    match found with
    | Some approval =>
        let live := approval_is_live approval in
        if live && negb (String.eqb (ap_driver_id approval) driver_id)
        then throw (Conflict "该车辆已有手机审批申请，请稍后重试" "mobile_approval_busy" [])
        else if live && String.eqb (ap_state approval) "approved" then mret tt
        else if live && String.eqb (ap_state approval) "rejected" then
          throw_approval "手机已拒绝本次申请，请在申请过期后重试" "mobile_approval_rejected" approval
        else if live then
          throw_approval "等待手机审批，同意后将自动连接" "mobile_approval_pending" approval
        else request_mobile_approval driver_id vehicle_id
    | None => request_mobile_approval driver_id vehicle_id
    end.

(** ** Expiry *)

Definition audit_offline (event subject id : string) (generation : Z) (reason : string) :
    M Srv unit :=
  audit event
    (j_object [(subject, j_string id); ("connection_generation", j_uint generation);
               ("reason", j_string reason)]).

(** The loop over [driver_tokens_]. *)
Definition expire_driver_token (timestamp_ms : Z) (entry : string * DriverToken) : M Srv unit :=
  let '(key, token) := entry in
  if timestamp_ms <? dt_expires_at_ms token then mret tt
  else
    let driver_id := dt_driver_id token in
    let generation := dt_connection_generation token in
    srv_update (fun s => s <| srv_driver_tokens ::= delete key |>);;
    s ← self;
    match srv_online_drivers s !! driver_id with
    | None => mret tt
    | Some presence =>
        if negb (cp_generation presence =? generation) then mret tt
        else
          srv_update (fun s => s <| srv_online_drivers ::= delete driver_id |>);;
          close_sessions_for_driver driver_id "driver_token_expired";;
          audit_offline "driver_offline" "driver_id" driver_id generation "token_expired"
    end.

Definition lease_expired (timestamp_ms : Z) (session : Session) : bool :=
  is_open session && (0 <? sess_control_token_expires_at_ms session) &&
  (sess_control_token_expires_at_ms session <=? timestamp_ms).

(** The loop over [sessions_]. *)
Definition expire_leases (timestamp_ms : Z) : M Srv unit :=
  for_sessions (lease_expired timestamp_ms)
    (fun id =>
       close_session id "control_token_expired";;
       session ← session_at id;
       audit "control_authority_expired" (Session_to_json false session)).

(** The loop over [online_vehicles_]. *)
Definition expire_vehicle (timestamp_ms : Z) (entry : string * ConnectionPresence) : M Srv unit :=
  let '(vehicle_id, presence) := entry in
  s ← self;
  if timestamp_ms - cp_last_seen_at_ms presence <?
     sgc_vehicle_heartbeat_timeout_ms (srv_config s) then mret tt
  else
    srv_update (fun s => s <| srv_online_vehicles ::= delete vehicle_id |>);;
    close_sessions_for_vehicle vehicle_id "vehicle_heartbeat_timeout";;
    audit_offline "vehicle_offline" "vehicle_id" vehicle_id (cp_generation presence)
      "heartbeat_timeout".

(** The loop over [online_drivers_]. *)
Definition expire_driver (timestamp_ms : Z) (entry : string * ConnectionPresence) : M Srv unit :=
  let '(driver_id, presence) := entry in
  s ← self;
  if timestamp_ms - cp_last_seen_at_ms presence <?
     sgc_driver_heartbeat_timeout_ms (srv_config s) then mret tt
  else
    let generation := cp_generation presence in
    srv_update (fun s => s <| srv_online_drivers ::= delete driver_id |>
                           <| srv_driver_tokens ::=
      filter (fun '(_, token) =>
        negb (String.eqb (dt_driver_id token) driver_id &&
              (dt_connection_generation token =? generation)) = true) |>);;
    close_sessions_for_driver driver_id "driver_heartbeat_timeout";;
    audit_offline "driver_offline" "driver_id" driver_id generation "heartbeat_timeout".

Definition cleanup_expired_connections (timestamp_ms : Z) : M Srv unit :=
  s ← self;
  for_each (hash_items (srv_driver_tokens s)) (expire_driver_token timestamp_ms);;
  expire_leases timestamp_ms;;
  s ← self;
  for_each (hash_items (srv_online_vehicles s)) (expire_vehicle timestamp_ms);;
  s ← self;
  for_each (hash_items (srv_online_drivers s)) (expire_driver timestamp_ms);;
  cleanup_mobile_approvals.
End sessions.
