(* ===== verification/SignalingLimits.v ===== *)
(** SignalingLimits: how often a source may log in and call the API
    (server.cpp:281-299 and 2323-2458).

    - [request_source]: the address a request is counted under;
    - the login failures of a driver, of unknown drivers and of phones;
    - the request window of every source, with one shared bucket when there are too
      many sources. *)
From S2P Require Export SignalingSessions.

Definition max_i64 : Z := 2 ^ 63 - 1.
Definition max_u64 : Z := 2 ^ 64 - 1.

Section limits.
Context {J : JsonApi} {W : Type} {Host : SignalingHost J W}.
Notation State := (SignalingState J).
Notation Srv := (SignalingProcess J W).

(** ** Addresses *)

Definition canonical_ip_address (value : string) : option string :=
  let value := trim value in
  if string_empty value then None else inet_canonical value.

(** The text after the last comma, or all of it. *)
Definition after_last_comma (value : string) : string :=
  of_chars (rev (break_at ","%char (rev (chars value))).1).

Definition request_source (request : HttpRequest) (s : State) : string :=
  let peer := default "unknown" (canonical_ip_address (http_peer_address request)) in
  if negb (bool_decide (peer ∈ srv_trusted_proxy_addresses s)) then peer
  else
    match http_headers request !! "x-forwarded-for" with
    | None => peer
    | Some forwarded => default peer (canonical_ip_address (after_last_comma forwarded))
    end.

(** ** Logins *)

Definition login_bucket (config : SignalingServerConfig) (driver_id : string) (approver : bool) :
    string :=
  let known_driver :=
    negb approver && bool_decide (is_Some (sgc_driver_passwords config !! driver_id)) in
  if approver then "approver:" +:+ driver_id
  else if known_driver then "driver:" +:+ driver_id else "unknown".

(** A phone's failures that no longer count. *)
Definition approver_failures_expired (config : SignalingServerConfig) (timestamp_ms : Z)
    (entry : string * LoginFailureState) : bool :=
  let '(key, state) := entry in
  starts_with "approver:" key &&
  (if 0 <? lf_blocked_until_ms state then lf_blocked_until_ms state <=? timestamp_ms
   else sgc_login_failure_window_ms config <=? timestamp_ms - lf_window_started_at_ms state).

Definition approver_cleanup_due (timestamp_ms : Z) (s : State) : bool :=
  let last := srv_approver_login_last_cleanup_ms s in
  (last =? 0) || (timestamp_ms <? last) ||
  (sgc_login_failure_window_ms (srv_config s) <=? timestamp_ms - last).

Definition cleanup_approver_logins (timestamp_ms : Z) (s : State) : State :=
  if approver_cleanup_due timestamp_ms s then
    s <| srv_login_failures ::=
           filter (fun e => negb (approver_failures_expired (srv_config s) timestamp_ms e) = true) |>
      <| srv_approver_login_last_cleanup_ms := timestamp_ms |>
  else s.

Definition counted_approver_source (key : string) : bool :=
  starts_with "approver:" key && negb (String.eqb key "approver:<overflow>").

Definition approver_login_bucket (request : HttpRequest) (timestamp_ms : Z) : M Srv string :=
  srv_update (cleanup_approver_logins timestamp_ms);;
  s ← self;
  let source := request_source request s in
  if bool_decide (is_Some (srv_login_failures s !! ("approver:" +:+ source))) then mret source
  else
    let count :=
      length (List.filter (fun e => counted_approver_source e.1)
                (map_to_list (srv_login_failures s))) in
    mret (if Z.of_nat count <? sgc_api_rate_limit_max_sources (srv_config s)
          then source else "<overflow>").

Definition enforce_login_rate_limit (driver_id : string) (timestamp_ms : Z) (approver : bool) :
    M Srv unit :=
  s ← self;
  let bucket := login_bucket (srv_config s) driver_id approver in
  match srv_login_failures s !! bucket with
  | None => mret tt
  | Some state =>
      if timestamp_ms <? lf_blocked_until_ms state
      then throw (TooManyRequests "too many login attempts"
                    (lf_blocked_until_ms state - timestamp_ms))
      else
        when ((0 <? lf_blocked_until_ms state) ||
              (sgc_login_failure_window_ms (srv_config s) <=?
               timestamp_ms - lf_window_started_at_ms state))
          (srv_update (fun s => s <| srv_login_failures ::= delete bucket |>))
  end.

(** The failures after one more, in the window they belong to. *)
Definition next_login_failure (config : SignalingServerConfig) (timestamp_ms : Z)
    (previous : option LoginFailureState) : LoginFailureState :=
  let state := default (mkLoginFailureState 0 0 0) previous in
  let state :=
    if (lf_window_started_at_ms state =? 0) ||
       (sgc_login_failure_window_ms config <=? timestamp_ms - lf_window_started_at_ms state)
    then mkLoginFailureState 0 timestamp_ms 0 else state in
  let state := state <| lf_failures ::= Z.succ |> in
  if sgc_login_max_failures config <=? lf_failures state then
    state <| lf_blocked_until_ms :=
      if max_i64 - timestamp_ms <? sgc_login_lockout_ms config then max_i64
      else timestamp_ms + sgc_login_lockout_ms config |>
  else state.

Definition login_failure_identity (approver known_driver : bool) (driver_id : string) :
    list (string * json) :=
  [(if approver then "approver_id" else "driver_id",
    j_string (if known_driver then driver_id else "<unknown>"));
   (if approver then "recognized_approver" else "recognized_driver", j_bool known_driver)].

Definition source_detail (approver : bool) (driver_id : string) : list (string * json) :=
  if approver then [("source_address", j_string driver_id)] else [].

Definition record_login_failure (driver_id : string) (timestamp_ms : Z) (approver : bool) :
    M Srv unit :=
  s ← self;
  let config := srv_config s in
  let known_driver :=
    negb approver && bool_decide (is_Some (sgc_driver_passwords config !! driver_id)) in
  let bucket := login_bucket config driver_id approver in
  let state := next_login_failure config timestamp_ms (srv_login_failures s !! bucket) in
  let lock_login := sgc_login_max_failures config <=? lf_failures state in
  srv_update (fun s => s <| srv_login_failures ::= <[bucket := state]> |>);;
  let identity := j_object (login_failure_identity approver known_driver driver_id) in
  audit (if approver then "approver_login_failed" else "driver_login_failed")
    (j_set_all (source_detail approver driver_id ++
                [("failure_count", j_int (lf_failures state));
                 ("failure_limit", j_int (sgc_login_max_failures config))]) identity);;
  if negb lock_login then mret tt
  else
    audit (if approver then "approver_login_rate_limited" else "driver_login_rate_limited")
      (j_set_all (source_detail approver driver_id ++
                  [("failure_count", j_int (lf_failures state));
                   ("blocked_until_utc_ms", j_int (lf_blocked_until_ms state))]) identity);;
    throw (TooManyRequests "too many login attempts" (sgc_login_lockout_ms config)).

Definition clear_login_failures (driver_id : string) (approver : bool) : M Srv unit :=
  srv_update (fun s => s <| srv_login_failures ::=
    delete ((if approver then "approver:" else "driver:") +:+ driver_id) |>).

(** ** The API *)

Definition ApiRateState_default : ApiRateState := mkApiRateState 0 0 false.

Definition api_window_expired (config : SignalingServerConfig) (timestamp_ms : Z)
    (state : ApiRateState) : bool :=
  (ar_window_started_at_ms state =? 0) || (timestamp_ms <? ar_window_started_at_ms state) ||
  (sgc_api_rate_limit_window_ms config <=? timestamp_ms - ar_window_started_at_ms state).

Definition cleanup_api_rate_limits (timestamp_ms : Z) (s : State) : State :=
  let expired := api_window_expired (srv_config s) timestamp_ms in
  s <| srv_api_rate_limits ::= filter (fun '(_, state) => negb (expired state) = true) |>
    <| srv_api_rate_limit_overflow ::= fun state =>
         if expired state then ApiRateState_default else state |>
    <| srv_api_rate_limit_last_cleanup_ms := timestamp_ms |>.

Definition api_cleanup_due (timestamp_ms : Z) (s : State) : bool :=
  let last := srv_api_rate_limit_last_cleanup_ms s in
  (last =? 0) || (timestamp_ms <? last) ||
  (sgc_api_rate_limit_window_ms (srv_config s) <=? timestamp_ms - last).

(** The bucket a source is counted in: its own, or the shared one ([None]) when it is new
    and the table is full. *)
Definition api_bucket (source : string) (s : State) : option string :=
  match srv_api_rate_limits s !! source with
  | Some _ => Some source
  | None =>
      if u64 (sgc_api_rate_limit_max_sources (srv_config s)) <=?
         Z.of_nat (size (srv_api_rate_limits s))
      then None else Some source
  end.

Definition api_bucket_state (bucket : option string) (s : State) : ApiRateState :=
  match bucket with
  | Some source => default ApiRateState_default (srv_api_rate_limits s !! source)
  | None => srv_api_rate_limit_overflow s
  end.

Definition set_api_bucket (bucket : option string) (state : ApiRateState) (s : State) : State :=
  match bucket with
  | Some source => s <| srv_api_rate_limits ::= <[source := state]> |>
  | None => s <| srv_api_rate_limit_overflow := state |>
  end.

(** The window after one more request. *)
Definition count_api_request (config : SignalingServerConfig) (timestamp_ms : Z)
    (state : ApiRateState) : ApiRateState :=
  let state := if api_window_expired config timestamp_ms state
               then mkApiRateState 0 timestamp_ms false else state in
  if ar_requests state <? max_i64 then state <| ar_requests ::= Z.succ |> else state.

Definition enforce_api_rate_limit (request : HttpRequest) (timestamp_ms : Z) : M Srv unit :=
  s ← self;
  when (api_cleanup_due timestamp_ms s) (srv_update (cleanup_api_rate_limits timestamp_ms));;
  s ← self;
  let config := srv_config s in
  let source := request_source request s in
  let bucket := api_bucket source s in
  let state := count_api_request config timestamp_ms (api_bucket_state bucket s) in
  srv_update (set_api_bucket bucket state);;
  if ar_requests state <=? sgc_api_rate_limit_requests config then mret tt
  else
    srv_update (fun s =>
      if srv_api_rate_limited_requests s <? max_u64
      then s <| srv_api_rate_limited_requests ::= Z.succ |> else s);;
    let elapsed := Z.max 0 (timestamp_ms - ar_window_started_at_ms state) in
    let retry_after_ms := Z.max 1 (sgc_api_rate_limit_window_ms config - elapsed) in
    when (negb (ar_limit_audited state))
      (srv_update (set_api_bucket bucket (state <| ar_limit_audited := true |>));;
       audit "api_rate_limited"
         (j_object
            [("source_address", j_string (default "<overflow>" bucket));
             ("request_limit", j_int (sgc_api_rate_limit_requests config));
             ("window_ms", j_int (sgc_api_rate_limit_window_ms config));
             ("overflow_bucket", j_bool (negb (bool_decide (is_Some bucket))))]));;
    throw (TooManyRequests "API request rate limit exceeded" retry_after_ms).
End limits.
