(* ===== verification/SignalingMessages.v ===== *)
(** SignalingMessages: the messages of a session on their way to the other participant
    (server.cpp:3036-3370).

    - [enqueue_signaling_message]: who may send what, replays and duplicates, and the two
      kinds of mailbox: a queue per recipient, and one slot for control commands in which
      the latest wins;
    - [take_signaling_messages]: what a poll returns, with the age limits;
    - [acknowledge_signaling_messages]: what a delivery acknowledgement removes. *)
From stdpp Require Export sorting.
From S2P Require Export SignalingLimits.

Section messages.
Context {J : JsonApi} {W : Type} {Host : SignalingHost J W}.
Notation State := (SignalingState J).
Notation Srv := (SignalingProcess J W).

Definition allowed_message_types : list string :=
  ["webrtc_offer"; "webrtc_answer"; "ice_candidate"; "media_capabilities"; "media_fallback";
   "connection_status"; "telemetry"; "media_status"; "session_event"; "control_command"].

Definition is_control (type : string) : bool := String.eqb type "control_command".

(** ** Admission *)

(** Who may send which type to whom. *)
Definition check_route (session : Session) (sender recipient type : string) : result unit :=
  let driver_to_vehicle :=
    String.eqb sender (sess_driver_id session) && String.eqb recipient (sess_vehicle_id session) in
  let vehicle_to_driver :=
    String.eqb sender (sess_vehicle_id session) && String.eqb recipient (sess_driver_id session) in
  throw_if (negb (String.eqb recipient (sess_driver_id session)) &&
            negb (String.eqb recipient (sess_vehicle_id session)))
    (Unauthorized "recipient is not current session participant");;
  throw_if (String.eqb sender recipient)
    (Unauthorized "signaling messages must target the other session participant");;
  throw_if (string_in type ["media_capabilities"; "media_fallback"; "webrtc_answer"] &&
            negb driver_to_vehicle) (Unauthorized (type +:+ " route is invalid"));;
  throw_if (String.eqb type "webrtc_offer" && negb vehicle_to_driver)
    (Unauthorized "webrtc_offer route is invalid");;
  throw_if (is_control type && negb driver_to_vehicle)
    (Unauthorized "control_command route is invalid");;
  throw_if (String.eqb type "ice_candidate" && negb driver_to_vehicle && negb vehicle_to_driver)
    (Unauthorized "ice_candidate route is invalid").

Definition text_size (text : string) : Z := Z.of_nat (String.length text).

(** The payload and its limits. *)
Definition check_payload (config : SignalingServerConfig) (type : string) (value : json) :
    result json :=
  payload ← value_json "payload" (j_object []) value;
  throw_if (negb (is_object payload)) (InvalidArgument "payload must be an object");;
  text ← j_dump payload;
  throw_if (sgc_max_signaling_payload_bytes config <? text_size text)
    (InvalidArgument "signaling payload exceeds configured limit");;
  (if String.eqb type "webrtc_offer" || String.eqb type "webrtc_answer" then
     sdp ← required_string "sdp" payload;
     throw_if (sgc_max_sdp_bytes config <? text_size sdp)
       (InvalidArgument "WebRTC SDP exceeds configured limit");;
     let expected_description :=
       if String.eqb type "webrtc_offer" then "offer" else "answer" in
     description ← value_string "type" "" payload;
     throw_if (negb (String.eqb description expected_description))
       (InvalidArgument "WebRTC SDP type does not match signaling message type")
   else Ok tt);;
  (if String.eqb type "ice_candidate" then
     candidate ← required_string "candidate" payload;
     throw_if (sgc_max_ice_candidate_bytes config <? text_size candidate)
       (InvalidArgument "WebRTC ICE candidate exceeds configured limit")
   else Ok tt);;
  Ok payload.

(** A control command must be the one its wrapper announces, with the session's token. *)
Definition check_control_command (session : Session) (metadata : ProtocolMetadata)
    (payload : json) : result unit :=
  command ← ControlCommand_from_json payload;
  intent_seq ← required_uint64 "intent_seq" payload;
  throw_if (intent_seq =? 0) (InvalidArgument "intent_seq must be positive");;
  fresh ← (if j_contains "intent_fresh" payload
           then field ← j_at "intent_fresh" payload; Ok (is_boolean field) else Ok false);
  throw_if (negb fresh) (InvalidArgument "intent_fresh must be a boolean");;
  throw_if (negb (cmd_protocol_version command =? md_protocol_version metadata) ||
            negb (String.eqb (cmd_vehicle_id command) (md_vehicle_id metadata)) ||
            negb (String.eqb (cmd_driver_id command) (md_driver_id metadata)) ||
            negb (String.eqb (cmd_session_id command) (md_session_id metadata)) ||
            negb (cmd_seq command =? md_seq metadata) ||
            negb (cmd_sent_at_utc_ms command =? md_sent_at_utc_ms metadata))
    (InvalidArgument "control command payload metadata does not match signaling wrapper");;
  throw_if (negb (String.eqb (cmd_control_token command) (sess_control_token session)))
    (Unauthorized "control command token does not match active session").

(** The message a client sent, read and admitted. *)
Record Admitted_message := mkAdmitted {
  ad_sender : string;
  ad_recipient : string;
  ad_type : string;
  ad_metadata : ProtocolMetadata;
  ad_payload : json;
}.

Definition admit_message (session_id : string) (value : json)
    (authenticated_actor : option string) : M Srv Admitted_message :=
  sender ← lift (required_string "sender" value);
  recipient ← lift (required_string "recipient" value);
  type ← lift (required_string "type" value);
  lift (throw_if (negb (string_in type allowed_message_types))
          (InvalidArgument "unsupported signaling message type"));;
  session ← require_participant session_id sender;
  match authenticated_actor with
  | Some actor =>
      lift (throw_if (negb (String.eqb sender actor))
              (Unauthorized "sender is not authenticated websocket participant"))
  | None => validate_actor_credential session sender value
  end;;
  metadata ← lift (ProtocolMetadata_from_json value);
  validate_message_metadata session metadata;;
  lift (check_route session sender recipient type);;
  s ← self;
  payload ← lift (check_payload (srv_config s) type value);
  (if is_control type then lift (check_control_command session metadata payload)
   else mret tt);;
  mret (mkAdmitted sender recipient type metadata payload).

(** ** Sequence numbers *)

Definition sequence_key (session_id : string) (m : Admitted_message) : string :=
  if is_control (ad_type m) then native_control_key session_id (ad_sender m)
  else message_key session_id (ad_sender m).

Definition newline : string := String "010"%char "".

Definition fingerprint_of (m : Admitted_message) : result string :=
  metadata ← j_dump (ProtocolMetadata_to_json (ad_metadata m));
  payload ← j_dump (ad_payload m);
  Ok (ad_recipient m +:+ newline +:+ ad_type m +:+ newline +:+ metadata +:+ newline +:+ payload).

Definition sequence_details (m : Admitted_message) (accepted : AcceptedMessage J) :
    list (string * detail) :=
  [("received_seq", DetailUint (md_seq (ad_metadata m)));
   ("last_accepted_seq", DetailUint (am_sequence accepted))].

(** The answer to a message that is not new: [None] when it is. *)
Definition replayed_message (session_id : string) (m : Admitted_message) (fingerprint : string) :
    M Srv (option json) :=
  s ← self;
  let metadata := ad_metadata m in
  match srv_last_accepted_messages s !! sequence_key session_id m with
  | None => mret None
  | Some accepted =>
      if md_seq metadata <? am_sequence accepted then
        throw (Conflict "signaling message sequence is older than the previous message"
                 "signaling_sequence_older" (sequence_details m accepted))
      else if md_seq metadata =? am_sequence accepted then
        if negb (String.eqb fingerprint (am_fingerprint accepted)) then
          throw (Conflict "signaling message sequence was reused with different content"
                   "signaling_sequence_reused" (sequence_details m accepted))
        else
          let acknowledgement := j_set "duplicate" (j_bool true) (am_acknowledgement accepted) in
          message_id ← lift (value_string "message_id" "" acknowledgement);
          audit "signaling_retry_acknowledged"
            (j_object
               [("session_id", j_string session_id);
                ("vehicle_id", j_string (md_vehicle_id metadata));
                ("driver_id", j_string (md_driver_id metadata));
                ("seq", j_uint (md_seq metadata)); ("sender", j_string (ad_sender m));
                ("recipient", j_string (ad_recipient m));
                ("message_id", j_string message_id)]);;
          mret (Some acknowledgement)
      else mret None
  end.

(** ** The mailboxes *)

(** Puts the message into its mailbox; the number of messages now waiting there. *)
Definition store_message (recipient_key : string) (message : Message J) (s : State) : Z * State :=
  if is_control (msg_type message) then
    (1, s <| srv_latest_control_messages ::= <[recipient_key := message]> |>)
  else
    let queue := default [] (srv_messages s !! recipient_key) ++ [message] in
    (Z.of_nat (length queue), s <| srv_messages ::= <[recipient_key := queue]> |>).

Definition acknowledgement_of (session_id : string) (m : Admitted_message)
    (queued delivery_cursor received_utc queued_utc processing_ms : Z) : json :=
  let seq := md_seq (ad_metadata m) in
  let base :=
    j_object
      [("queued", j_uint queued); ("event", j_string "signaling_ack");
       ("type", j_string (ad_type m)); ("seq", j_uint seq);
       ("message_id",
        j_string (session_id +:+ ":" +:+ ad_sender m +:+ ":" +:+ to_string_Z seq));
       ("delivery_cursor", j_uint delivery_cursor); ("duplicate", j_bool false)] in
  if is_control (ad_type m) then
    j_set_all
      [("cloud_received_at_utc_ms", j_int received_utc);
       ("cloud_queued_at_utc_ms", j_int queued_utc);
       ("cloud_ingress_processing_ms", j_int (Z.max 0 processing_ms))] base
  else base.

(** [++next_delivery_cursors_[recipient_key]] *)
Definition next_cursor (recipient_key : string) : M Srv Z :=
  s ← self;
  let cursor := u64 (default 0 (srv_next_delivery_cursors s !! recipient_key) + 1) in
  srv_update (fun s => s <| srv_next_delivery_cursors ::= <[recipient_key := cursor]> |>);;
  mret cursor.

(** A new message: its cursor, its mailbox, and the record that recognises a repetition. *)
Definition accept_message (session_id : string) (m : Admitted_message) (fingerprint : string)
    (received_utc received_monotonic : Z) : M Srv json :=
  let recipient_key := message_key session_id (ad_recipient m) in
  delivery_cursor ← next_cursor recipient_key;
  queued_utc ← now_ms;
  queued_monotonic ← monotonic_now_ms;
  let message :=
    mkMessage (ad_metadata m) (ad_sender m) (ad_recipient m) (ad_type m) (ad_payload m)
      queued_utc queued_monotonic delivery_cursor in
  s ← self;
  let '(queued, s) := store_message recipient_key message s in
  srv_update (fun _ => s);;
  let acknowledgement :=
    acknowledgement_of session_id m queued delivery_cursor received_utc queued_utc
      (queued_monotonic - received_monotonic) in
  srv_update (fun s => s <| srv_last_accepted_messages ::=
    <[sequence_key session_id m :=
        mkAcceptedMessage (md_seq (ad_metadata m)) fingerprint acknowledgement]> |>);;
  mret acknowledgement.

Definition enqueue_signaling_message (session_id : string) (value : json)
    (authenticated_actor : option string) : M Srv json :=
  received_utc ← now_ms;
  received_monotonic ← monotonic_now_ms;
  m ← admit_message session_id value authenticated_actor;
  fingerprint ← lift (fingerprint_of m);
  replay ← replayed_message session_id m fingerprint;
  match replay with
  | Some acknowledgement => mret acknowledgement
  | None =>
      acknowledgement ← accept_message session_id m fingerprint received_utc received_monotonic;
      when (negb (is_control (ad_type m)))
        (audit (ad_type m)
           (j_object
              [("session_id", j_string session_id);
               ("vehicle_id", j_string (md_vehicle_id (ad_metadata m)));
               ("driver_id", j_string (md_driver_id (ad_metadata m)));
               ("seq", j_uint (md_seq (ad_metadata m))); ("sender", j_string (ad_sender m));
               ("recipient", j_string (ad_recipient m));
               ("transport", j_string (if bool_decide (is_Some authenticated_actor)
                                       then "websocket" else "http"))]));;
      mret acknowledgement
  end.

(** ** Delivery *)

(** The requested types: the comma-separated names, trimmed; all when the text is empty. *)
Definition requested_type (requested_types type : string) : bool :=
  let types :=
    List.filter (fun t => negb (string_empty t))
      (map (fun piece => trim (of_chars piece)) (split_on ","%char (chars requested_types))) in
  string_empty requested_types || string_in type types.

(** [now - queued_at < ttl] *)
Definition message_fresh (now ttl : Z) (message : Message J) : bool :=
  now - msg_queued_at_monotonic_ms message <? ttl.

(** The messages that have not outlived their limits: the control slot, the queue. *)
Definition expire_messages (now : Z) (recipient_key : string) (s : State) : State :=
  let config := srv_config s in
  let s :=
    match srv_latest_control_messages s !! recipient_key with
    | Some message =>
        if message_fresh now (sgc_native_control_message_ttl_ms config) message then s
        else s <| srv_latest_control_messages ::= delete recipient_key |>
    | None => s
    end in
  match srv_messages s !! recipient_key with
  | Some queue =>
      match List.filter (message_fresh now (sgc_signaling_message_ttl_ms config)) queue with
      | [] => s <| srv_messages ::= delete recipient_key |>
      | queue => s <| srv_messages ::= <[recipient_key := queue]> |>
      end
  | None => s
  end.

(** The messages a poll returns, and those a consuming poll leaves. *)
Definition requested_messages (requested : string -> bool) (recipient_key : string) (s : State) :
    list (Message J) :=
  match srv_latest_control_messages s !! recipient_key with
  | Some message => if requested "control_command" then [message] else []
  | None => []
  end ++
  List.filter (fun message => requested (msg_type message))
    (default [] (srv_messages s !! recipient_key)).

Definition consume_messages (requested : string -> bool) (recipient_key : string) (s : State) :
    State :=
  let s :=
    if requested "control_command"
    then s <| srv_latest_control_messages ::= delete recipient_key |> else s in
  match srv_messages s !! recipient_key with
  | Some queue =>
      match List.filter (fun message => negb (requested (msg_type message))) queue with
      | [] => s <| srv_messages ::= delete recipient_key |>
      | remaining => s <| srv_messages ::= <[recipient_key := remaining]> |>
      end
  | None => s
  end.

(** What [value("delivery_cursor", 0)] reads; [to_json] always stores one. *)
Definition json_cursor (value : json) : Z :=
  match value_uint64 "delivery_cursor" 0 value with Ok cursor => cursor | Throw _ => 0 end.

Definition cursor_le (left right : json) : Prop := json_cursor left <= json_cursor right.

#[global] Instance cursor_le_dec left right : Decision (cursor_le left right).
Proof. unfold cursor_le. apply _. Defined.

Definition take_signaling_messages (session_id recipient requested_types : string)
    (consume : bool) : M Srv (list json) :=
  let recipient_key := message_key session_id recipient in
  let requested := requested_type requested_types in
  now ← monotonic_now_ms;
  srv_update (expire_messages now recipient_key);;
  s ← self;
  let values := map Message_to_json (requested_messages requested recipient_key s) in
  when consume (srv_update (consume_messages requested recipient_key));;
  mret (merge_sort cursor_le values).

Definition acknowledge_signaling_messages (session_id recipient : string) (delivery_cursor : Z)
    (control_only : bool) : M Srv Z :=
  let recipient_key := message_key session_id recipient in
  let pending message := delivery_cursor <? msg_delivery_cursor message in
  s ← self;
  let queue := default [] (srv_messages s !! recipient_key) in
  let remaining := List.filter pending queue in
  let from_queue := if control_only then 0 else Z.of_nat (length queue - length remaining) in
  when (negb control_only && bool_decide (is_Some (srv_messages s !! recipient_key)))
    (srv_update (fun s => s <| srv_messages ::=
       match remaining with [] => delete recipient_key | _ => <[recipient_key := remaining]> end |>));;
  match srv_latest_control_messages s !! recipient_key with
  | Some message =>
      if pending message then mret from_queue
      else
        srv_update (fun s => s <| srv_latest_control_messages ::= delete recipient_key |>);;
        mret (from_queue + 1)
  | None => mret from_queue
  end.
End messages.
