(* ===== verification/SignalingPosts.v ===== *)
(** SignalingPosts: the POST requests of the signaling server (server.cpp:3527-4046).

    One definition per endpoint, in the order of [handle_post]; [handle_post] dispatches
    on the path.  The whole body runs under the mutex, after the expired connections were
    cleaned up. *)
From S2P Require Export SignalingMessages.

Section posts.
Context {J : JsonApi} {W : Type} {Host : SignalingHost J W}.
Notation State := (SignalingState J).
Notation Srv := (SignalingProcess J W).

Definition respond (status : Z) (fields : list (string * json)) : M Srv ServerResponse :=
  lift (ServerResponse_json status (j_object fields)).

Definition respond_session (include_control_token : bool) (session : Session) :
    M Srv ServerResponse :=
  lift (ServerResponse_json 200 (Session_to_json include_control_token session)).

Definition not_found_response : M Srv ServerResponse :=
  respond 404 [("error", j_string "not found")].

(** The three ids every record about a session starts with. *)
Definition session_ids (session : Session) : list (string * json) :=
  [("session_id", j_string (sess_session_id session));
   ("vehicle_id", j_string (sess_vehicle_id session));
   ("driver_id", j_string (sess_driver_id session))].

(** ** Administration *)

Definition post_revoke_driver (id : string) : M Srv ServerResponse :=
  s ← self;
  lift (throw_if (bool_decide (sgc_driver_passwords (srv_config s) !! id = None))
          (NotFound "unknown driver"));;
  srv_update (fun s => s <| srv_revoked_drivers ::= fun r => {[id]} ∪ r |>);;
  close_sessions_for_driver id "driver_revoked";;
  srv_update (fun s =>
    s <| srv_online_drivers ::= delete id |>
      <| srv_driver_tokens ::=
           filter (fun '(_, token) => negb (String.eqb (dt_driver_id token) id) = true) |>);;
  audit "driver_revoked" (j_object [("driver_id", j_string id)]);;
  respond 200 [("driver_id", j_string id); ("state", j_string "revoked")].

Definition post_restore_driver (id : string) : M Srv ServerResponse :=
  s ← self;
  lift (throw_if (bool_decide (sgc_driver_passwords (srv_config s) !! id = None))
          (NotFound "unknown driver"));;
  srv_update (fun s => s <| srv_revoked_drivers ::= fun r => r ∖ {[id]} |>);;
  audit "driver_restored" (j_object [("driver_id", j_string id)]);;
  respond 200 [("driver_id", j_string id); ("state", j_string "offline")].

Definition post_revoke_vehicle (id : string) : M Srv ServerResponse :=
  s ← self;
  lift (throw_if (bool_decide (sgc_device_tokens (srv_config s) !! id = None))
          (NotFound "unknown vehicle"));;
  srv_update (fun s => s <| srv_revoked_vehicles ::= fun r => {[id]} ∪ r |>);;
  close_sessions_for_vehicle id "vehicle_revoked";;
  srv_update (fun s => s <| srv_online_vehicles ::= delete id |>);;
  audit "vehicle_revoked" (j_object [("vehicle_id", j_string id)]);;
  respond 200 [("vehicle_id", j_string id); ("state", j_string "revoked")].

Definition post_restore_vehicle (id : string) : M Srv ServerResponse :=
  s ← self;
  lift (throw_if (bool_decide (sgc_device_tokens (srv_config s) !! id = None))
          (NotFound "unknown vehicle"));;
  srv_update (fun s => s <| srv_revoked_vehicles ::= fun r => r ∖ {[id]} |>);;
  audit "vehicle_restored" (j_object [("vehicle_id", j_string id)]);;
  respond 200 [("vehicle_id", j_string id); ("state", j_string "offline")].

Definition post_admin (path : string) (value : json) : M Srv ServerResponse :=
  s ← self;
  let admin_token := sgc_admin_token (srv_config s) in
  lift (throw_if (string_empty admin_token) (Unauthorized "admin API is disabled"));;
  given ← lift (optional_string "admin_token" value);
  lift (throw_if (negb (String.eqb given admin_token)) (Unauthorized "invalid admin token"));;
  object_id ← lift (required_string "id" value);
  if String.eqb path "/admin/revoke/driver" then post_revoke_driver object_id
  else if String.eqb path "/admin/restore/driver" then post_restore_driver object_id
  else if String.eqb path "/admin/revoke/vehicle" then post_revoke_vehicle object_id
  else if String.eqb path "/admin/restore/vehicle" then post_restore_vehicle object_id
  else not_found_response.

(** ** Drivers *)

Definition post_driver_login (value : json) : M Srv ServerResponse :=
  driver_id ← lift (required_string "driver_id" value);
  password ← lift (optional_string "password" value);
  timestamp_ms ← now_ms;
  enforce_login_rate_limit driver_id timestamp_ms false;;
  s ← self;
  (if bool_decide (sgc_driver_passwords (srv_config s) !! driver_id = Some password) then mret tt
   else
     record_login_failure driver_id timestamp_ms false;;
     throw (Unauthorized "invalid driver credentials"));;
  clear_login_failures driver_id false;;
  (if bool_decide (driver_id ∈ srv_revoked_drivers s) then
     audit "driver_login_rejected"
       (j_object [("driver_id", j_string driver_id); ("reason", j_string "driver_revoked")]);;
     throw (Unauthorized "driver is revoked")
   else mret tt);;
  (if bool_decide (is_Some (srv_online_drivers s !! driver_id)) then
     audit "driver_login_rejected"
       (j_object [("driver_id", j_string driver_id);
                  ("reason", j_string "driver_already_online")]);;
     throw (Conflict "driver is already online" "conflict" [])
   else mret tt);;
  let generation := u64 (srv_connection_generation s + 1) in
  srv_update (fun s => s <| srv_connection_generation := generation |>);;
  random ← random_token kRandomTokenBytes;
  let token := "driver-token-" +:+ random in
  let expires_at_ms := timestamp_ms + sgc_token_ttl_ms (srv_config s) in
  srv_update (fun s =>
    s <| srv_driver_tokens ::= <[token := mkDriverToken driver_id expires_at_ms generation]> |>
      <| srv_online_drivers ::=
           <[driver_id := mkConnectionPresence "" generation timestamp_ms timestamp_ms]> |>);;
  audit "driver_login"
    (j_object [("driver_id", j_string driver_id); ("connection_generation", j_uint generation)]);;
  respond 200
    [("token_type", j_string "bearer"); ("token", j_string token);
     ("expires_at_ms", j_int expires_at_ms); ("connection_generation", j_uint generation);
     ("service_instance_id", j_string (srv_service_instance_id s))].

Definition post_driver_heartbeat (value : json) : M Srv ServerResponse :=
  driver_id ← lift (required_string "driver_id" value);
  token ← lift (optional_string "token" value);
  validate_driver_token driver_id token;;
  s ← self;
  presence ← presence_at (srv_online_drivers s) driver_id;
  respond 200
    [("driver_id", j_string driver_id); ("state", j_string "online");
     ("connection_generation", j_uint (cp_generation presence));
     ("last_seen_at_utc_ms", j_int (cp_last_seen_at_ms presence))].

Definition post_driver_logout (value : json) : M Srv ServerResponse :=
  driver_id ← lift (required_string "driver_id" value);
  token ← lift (optional_string "token" value);
  validate_driver_token driver_id token;;
  s ← self;
  presence ← presence_at (srv_online_drivers s) driver_id;
  close_sessions_for_driver driver_id "driver_logout";;
  srv_update (fun s => s <| srv_driver_tokens ::= delete token |>
                         <| srv_online_drivers ::= delete driver_id |>);;
  reason ← lift (optional_string "reason" value);
  audit "driver_logout"
    (j_object [("driver_id", j_string driver_id);
               ("connection_generation", j_uint (cp_generation presence));
               ("reason", j_string reason)]);;
  respond 200 [("driver_id", j_string driver_id); ("state", j_string "offline")].

(** ** Vehicles *)

Definition respond_online (vehicle_id : string) (generation : Z) (policy : string) :
    M Srv ServerResponse :=
  respond 200
    [("vehicle_id", j_string vehicle_id); ("state", j_string "online");
     ("connection_generation", j_uint generation); ("duplicate_policy", j_string policy)].

(** A connection that is not the current one takes its place. *)
Definition vehicle_connects (vehicle_id connection_id : string) (timestamp_ms : Z)
    (current : option ConnectionPresence) : M Srv ServerResponse :=
  match current with
  | None => mret tt
  | Some current =>
      close_sessions_for_vehicle vehicle_id "vehicle_connection_replaced";;
      audit "vehicle_connection_replaced"
        (j_object [("vehicle_id", j_string vehicle_id);
                   ("previous_connection_generation", j_uint (cp_generation current))])
  end;;
  s ← self;
  let generation := u64 (srv_connection_generation s + 1) in
  srv_update (fun s =>
    s <| srv_connection_generation := generation |>
      <| srv_online_vehicles ::=
           <[vehicle_id :=
               mkConnectionPresence connection_id generation timestamp_ms timestamp_ms]> |>);;
  audit "vehicle_online"
    (j_object [("vehicle_id", j_string vehicle_id); ("connection_generation", j_uint generation)]);;
  respond_online vehicle_id generation
    (if bool_decide (is_Some current) then "replace_previous_connection" else "new_connection").

Definition post_vehicle_online (value : json) : M Srv ServerResponse :=
  vehicle_id ← lift (required_string "vehicle_id" value);
  token ← lift (optional_string "device_token" value);
  validate_device_token vehicle_id token;;
  connection_id ← lift (required_string "connection_id" value);
  timestamp_ms ← now_ms;
  s ← self;
  let current := srv_online_vehicles s !! vehicle_id in
  match current with
  | Some presence =>
      if String.eqb (cp_connection_id presence) connection_id then
        srv_update (fun s => s <| srv_online_vehicles ::=
          alter (fun p => p <| cp_last_seen_at_ms := timestamp_ms |>) vehicle_id |>);;
        respond_online vehicle_id (cp_generation presence) "same_connection_refresh"
      else vehicle_connects vehicle_id connection_id timestamp_ms current
  | None => vehicle_connects vehicle_id connection_id timestamp_ms current
  end.

Definition post_vehicle_heartbeat (value : json) : M Srv ServerResponse :=
  vehicle_id ← lift (required_string "vehicle_id" value);
  generation ← lift (required_uint64 "connection_generation" value);
  token ← lift (optional_string "device_token" value);
  validate_vehicle_connection vehicle_id token generation;;
  s ← self;
  presence ← presence_at (srv_online_vehicles s) vehicle_id;
  respond 200
    [("vehicle_id", j_string vehicle_id); ("state", j_string "online");
     ("connection_generation", j_uint generation);
     ("last_seen_at_utc_ms", j_int (cp_last_seen_at_ms presence))].

Definition post_vehicle_offline (value : json) : M Srv ServerResponse :=
  vehicle_id ← lift (required_string "vehicle_id" value);
  generation ← lift (required_uint64 "connection_generation" value);
  token ← lift (optional_string "device_token" value);
  validate_vehicle_connection vehicle_id token generation;;
  srv_update (fun s => s <| srv_online_vehicles ::= delete vehicle_id |>);;
  close_sessions_for_vehicle vehicle_id "vehicle_offline";;
  reason ← lift (optional_string "reason" value);
  audit "vehicle_offline"
    (j_object [("vehicle_id", j_string vehicle_id); ("connection_generation", j_uint generation);
               ("reason", j_string reason)]);;
  respond 200 [("vehicle_id", j_string vehicle_id); ("state", j_string "offline")].

(** ** Control authority *)

(** Closes the session an approval was consumed for, if it is still open. *)
Definition close_approved_session (approval : MobileApproval) : M Srv unit :=
  s ← self;
  if string_empty (ap_session_id approval) then mret tt
  else
    match srv_sessions s !! ap_session_id approval with
    | Some session =>
        when (is_open session) (close_session (ap_session_id approval) "mobile_approval_cancelled")
    | None => mret tt
    end.

Definition post_approval_cancel (value : json) : M Srv ServerResponse :=
  driver_id ← lift (required_string "driver_id" value);
  vehicle_id ← lift (required_string "vehicle_id" value);
  token ← lift (optional_string "token" value);
  validate_driver_token driver_id token;;
  request_id ← lift (required_string "approval_request_id" value);
  s ← self;
  let stale := Conflict "连接申请已失效" "mobile_approval_stale" [] in
  match srv_mobile_approvals s !! vehicle_id with
  | None => throw stale
  | Some approval =>
      if negb (String.eqb (ap_request_id approval) request_id) ||
         negb (String.eqb (ap_driver_id approval) driver_id) then throw stale
      else
        driver ← presence_at (srv_online_drivers s) driver_id;
        if negb (ap_driver_generation approval =? cp_generation driver) then throw stale
        else
          close_approved_session approval;;
          if string_in (ap_state approval) ["pending"; "approved"; "consumed"] then
            let approval := approval <| ap_state := "cancelled" |> in
            set_approval vehicle_id approval;;
            details ← MobileApproval_to_json approval;
            audit "mobile_approval_cancelled" details;;
            body ← MobileApproval_to_json approval;
            lift (ServerResponse_json 200 body)
          else
            body ← MobileApproval_to_json approval;
            lift (ServerResponse_json 200 body)
  end.

Fixpoint zeros_text (n : nat) : string :=
  match n with O => "" | S n => String "0"%char (zeros_text n) end.

(** ["session-" << std::setw(6) << std::setfill('0') << counter] *)
Definition session_id_of (counter : Z) : string :=
  let digits := to_string_Z counter in
  "session-" +:+ zeros_text (6 - String.length digits) +:+ digits.

(** Rejects a driver who may not drive the vehicle, a vehicle that is not there, and one that
    is under control already. *)
Definition check_grant (driver_id vehicle_id : string) : M Srv unit :=
  s ← self;
  let permitted :=
    match sgc_driver_vehicle_permissions (srv_config s) !! driver_id with
    | Some vehicles => bool_decide (vehicle_id ∈ vehicles)
    | None => false
    end in
  (if permitted then mret tt
   else
     audit "session_rejected"
       (j_object [("vehicle_id", j_string vehicle_id); ("driver_id", j_string driver_id);
                  ("reason", j_string "vehicle_not_permitted")]);;
     throw (Unauthorized "driver is not permitted to control this vehicle"));;
  (if bool_decide (is_Some (srv_online_vehicles s !! vehicle_id)) then mret tt
   else throw (Conflict "vehicle is not online" "conflict" []));;
  match List.find (fun e => String.eqb (sess_vehicle_id e.2) vehicle_id && is_open e.2)
          (hash_items (srv_sessions s)) with
  | Some (_, session) =>
      audit "session_rejected"
        (j_object [("vehicle_id", j_string vehicle_id); ("driver_id", j_string driver_id);
                   ("reason", j_string "control_authority_already_granted");
                   ("active_session_id", j_string (sess_session_id session))]);;
      throw (Conflict "control authority already granted" "conflict" [])
  | None => mret tt
  end.

Definition approval_at (vehicle_id : string) : M Srv MobileApproval :=
  s ← self;
  match srv_mobile_approvals s !! vehicle_id with
  | Some approval => mret approval
  | None => throw (OutOfRange "unordered_map::at")
  end.

Definition requires_approval (vehicle_id : string) : M Srv bool :=
  s ← self;
  mret (bool_decide (vehicle_id ∈ sgc_mobile_approval_vehicles (srv_config s))).

(** An approval is checked again after the audit, and then used up. *)
Definition consume_approval (driver_id vehicle_id : string) (value : json) : M Srv unit :=
  approval ← approval_at vehicle_id;
  details ← MobileApproval_to_json approval;
  audited ← try_audit "mobile_approval_consume_preflight" details;
  lift (throw_if (negb audited)
          (ServiceUnavailable "audit log unavailable; approval cannot be consumed"));;
  request_id ← lift (optional_string "approval_request_id" value);
  require_mobile_approval driver_id vehicle_id request_id;;
  approval ← approval_at vehicle_id;
  set_approval vehicle_id (approval <| ap_state := "consumed" |>).

(** Creates the session, in state [Online]; its key. *)
Definition create_session (driver_id vehicle_id : string) : M Srv string :=
  s ← self;
  let counter := u64 (srv_session_counter s + 1) in
  srv_update (fun s => s <| srv_session_counter := counter |>);;
  let id := session_id_of counter in
  started ← now_ms;
  random ← random_token kRandomTokenBytes;
  now ← now_ms;
  let session :=
    mkSession id vehicle_id driver_id started Online ("control-token-" +:+ random)
      (now + sgc_control_token_ttl_ms (srv_config s)) 0 0 0 0 d_zero ∅ in
  srv_update (fun s => s <| srv_sessions ::= <[id := session]> |>);;
  remember_log_session session 0;;
  mret id.

(** The steps to [Active]; any failure closes the session again. *)
Definition activate_session (id driver_id vehicle_id : string) : M Srv unit :=
  try_catch
    (session ← session_at id;
     audit "session_created" (j_object (session_ids session));;
     transition_session id Reserved "control_requested";;
     transition_session id Connecting "participants_authenticated";;
     transition_session id Active "control_authority_granted";;
     required ← requires_approval vehicle_id;
     request_id ← (if required : bool
                   then approval ← approval_at vehicle_id; mret (ap_request_id approval)
                   else mret ""%string);
     granted ← try_audit "control_authority_granted"
                 (j_object (session_ids session ++
                            [("approval_request_id", j_string request_id)]));
     if negb granted then
       close_session id "audit_log_unavailable";;
       throw (ServiceUnavailable "audit log unavailable; control authority was not granted")
     else mret tt)
    (fun _ =>
       update_session id (fun session => session <| sess_state := Closed |>);;
       throw (ServiceUnavailable "audit log unavailable; control authority was not granted")).

Definition post_sessions (value : json) : M Srv ServerResponse :=
  driver_id ← lift (required_string "driver_id" value);
  vehicle_id ← lift (required_string "vehicle_id" value);
  token ← lift (optional_string "token" value);
  validate_driver_token driver_id token;;
  check_grant driver_id vehicle_id;;
  request_id ← lift (optional_string "approval_request_id" value);
  require_mobile_approval driver_id vehicle_id request_id;;
  preflight ← try_audit "control_authority_grant_preflight"
                (j_object [("vehicle_id", j_string vehicle_id);
                           ("driver_id", j_string driver_id)]);
  lift (throw_if (negb preflight)
          (ServiceUnavailable "audit log unavailable; new control authority is disabled"));;
  required ← requires_approval vehicle_id;
  when required (consume_approval driver_id vehicle_id value);;
  id ← create_session driver_id vehicle_id;
  when required
    (approval ← approval_at vehicle_id;
     set_approval vehicle_id (approval <| ap_session_id := id |>));;
  activate_session id driver_id vehicle_id;;
  session ← session_at id;
  respond_session true session.

(** The participant who acts on a session: [require_participant] and its credential. *)
Definition acting_participant (session_id : string) (value : json) : M Srv (string * Session) :=
  actor ← lift (required_string "actor" value);
  session ← require_participant session_id actor;
  validate_actor_credential session actor value;;
  mret (actor, session).

Definition post_renew (session_id : string) (value : json) : M Srv ServerResponse :=
  actor ← lift (required_string "actor" value);
  session ← require_participant session_id actor;
  lift (throw_if (negb (String.eqb actor (sess_driver_id session)))
          (Unauthorized "only the current driver can renew control authority"));;
  validate_actor_credential session actor value;;
  renewed_at_ms ← now_ms;
  s ← self;
  let ttl := sgc_control_token_ttl_ms (srv_config s) in
  let expires_at := if max_i64 - renewed_at_ms <? ttl then max_i64 else renewed_at_ms + ttl in
  update_session session_id (fun session =>
    session <| sess_control_token_expires_at_ms := expires_at |>);;
  audit "control_authority_renewed"
    (j_object (session_ids session ++
               [("previous_expires_at_utc_ms", j_int (sess_control_token_expires_at_ms session));
                ("expires_at_utc_ms", j_int expires_at)]));;
  session ← session_at session_id;
  respond_session true session.

(** [optional_string(value, "reason")], or the default when it is empty. *)
Definition reason_or (fallback : string) (value : json) : result string :=
  reason ← optional_string "reason" value;
  Ok (if string_empty reason then fallback else reason).

Definition post_end (session_id : string) (value : json) : M Srv ServerResponse :=
  acting_participant session_id value;;
  reason ← lift (reason_or "session_end" value);
  close_session session_id reason;;
  session ← session_at session_id;
  audit "session_ended" (Session_to_json false session);;
  respond_session false session.

Definition post_revoke_authority (session_id : string) (value : json) : M Srv ServerResponse :=
  acting_participant session_id value;;
  reason ← lift (reason_or "control_authority_revoked" value);
  close_session session_id reason;;
  session ← session_at session_id;
  reason ← lift (optional_string "reason" value);
  audit "control_authority_revoked"
    (j_object [("session_id", j_string (sess_session_id session)); ("reason", j_string reason)]);;
  respond_session false session.

(** ** Reports *)

Definition respond_event (event : string) (session : Session) : M Srv ServerResponse :=
  respond 200 [("event", j_string event); ("session_id", j_string (sess_session_id session))].

(** The record of a report: the session, the actor and the given fields. *)
Definition report_details (session : Session) (actor : string) (fields : list (string * json)) :
    json :=
  j_object (session_ids session ++ ("actor", j_string actor) :: fields).

Definition allowed_connection_states : list string :=
  ["new"; "connecting"; "connected"; "disconnected"; "failed"; "closed"].
Definition allowed_connection_methods : list string := ["unknown"; "direct"; "STUN"; "TURN"].

Definition post_webrtc_connection (session_id : string) (value : json) : M Srv ServerResponse :=
  '(actor, session) ← acting_participant session_id value;
  state ← lift (required_string "connection_state" value);
  method ← lift (required_string "connection_method" value);
  lift (throw_if (negb (string_in state allowed_connection_states))
          (InvalidArgument "invalid WebRTC connection state"));;
  lift (throw_if (negb (string_in method allowed_connection_methods))
          (InvalidArgument "invalid WebRTC connection method"));;
  turn_in_use ← lift (required_boolean "turn_in_use" value);
  synchronized ← lift (required_boolean "time_sync_synchronized" value);
  acceptable ← lift (required_boolean "time_sync_acceptable" value);
  uncertainty_ms ← lift (required_int64 "time_sync_uncertainty_ms" value);
  sampled_at ← lift (required_int64 "sampled_at_utc_ms" value);
  lift (throw_if (uncertainty_ms <? 0)
          (InvalidArgument "time_sync_uncertainty_ms must be non-negative"));;
  lift (throw_if (sampled_at <=? 0) (InvalidArgument "sampled_at_utc_ms must be positive"));;
  lift (throw_if (negb (Bool.eqb turn_in_use (String.eqb method "TURN")))
          (InvalidArgument "TURN usage does not match the WebRTC connection method"));;
  let details :=
    report_details session actor
      [("connection_state", j_string state); ("connection_method", j_string method);
       ("turn_in_use", j_bool turn_in_use); ("time_sync_synchronized", j_bool synchronized);
       ("time_sync_acceptable", j_bool acceptable);
       ("time_sync_uncertainty_ms", j_int uncertainty_ms);
       ("sampled_at_utc_ms", j_int sampled_at)] in
  let event :=
    if String.eqb state "connected" then "webrtc_connection_succeeded"
    else if String.eqb state "failed" then "webrtc_connection_failed"
    else "webrtc_connection_state" in
  audit event details;;
  when (negb acceptable) (audit "time_sync_anomaly" details);;
  respond_event event session.

Definition post_abnormal_disconnect (session_id : string) (value : json) : M Srv ServerResponse :=
  '(actor, session) ← acting_participant session_id value;
  reason ← lift (required_string "reason" value);
  detected_by ← lift (required_string "detected_by" value);
  audit "abnormal_disconnect"
    (report_details session actor
       [("reason", j_string reason); ("detected_by", j_string detected_by)]);;
  respond_event "abnormal_disconnect" session.

Definition post_diagnostics (session_id : string) (value : json) : M Srv ServerResponse :=
  '(actor, session) ← acting_participant session_id value;
  component ← lift (required_string "component" value);
  rtt_ms ← lift (required_nonnegative_uint64 "rtt_ms" value);
  packet_loss_percent ← lift (required_nonnegative_number "packet_loss_percent" value);
  jitter_ms ← lift (required_nonnegative_uint64 "jitter_ms" value);
  video_latency_ms ← lift (required_nonnegative_uint64 "video_latency_ms" value);
  control_rate_hz ← lift (required_nonnegative_number "control_rate_hz" value);
  lift (throw_if (packet_loss_percent >ᵈ d_lit 100 0)
          (InvalidArgument "packet_loss_percent must not exceed 100"));;
  audit "realtime_diagnostics"
    (report_details session actor
       [("component", j_string component); ("rtt_ms", j_uint rtt_ms);
        ("packet_loss_percent", j_double packet_loss_percent); ("jitter_ms", j_uint jitter_ms);
        ("video_latency_ms", j_uint video_latency_ms);
        ("control_rate_hz", j_double control_rate_hz)]);;
  respond_event "realtime_diagnostics" session.

Definition post_control_timeout (session_id : string) (value : json) : M Srv ServerResponse :=
  '(actor, session) ← acting_participant session_id value;
  lift (throw_if (negb (String.eqb actor (sess_vehicle_id session)))
          (Unauthorized "only the vehicle may report a control timeout"));;
  last_valid ← lift (required_nonnegative_uint64 "last_valid_control_at_utc_ms" value);
  braking_at ← lift (required_nonnegative_uint64 "braking_at_utc_ms" value);
  control_timeout_ms ← lift (required_nonnegative_uint64 "control_timeout_ms" value);
  lift (throw_if (control_timeout_ms =? 0)
          (InvalidArgument "control_timeout_ms must be positive"));;
  lift (throw_if (braking_at <? last_valid)
          (InvalidArgument "braking_at_utc_ms must not precede the last valid control time"));;
  audit "control_timeout"
    (report_details session actor
       [("last_valid_control_at_utc_ms", j_uint last_valid);
        ("braking_at_utc_ms", j_uint braking_at);
        ("control_timeout_ms", j_uint control_timeout_ms)]);;
  respond_event "control_timeout" session.

Definition post_estop (session_id : string) (value : json) : M Srv ServerResponse :=
  '(actor, session) ← acting_participant session_id value;
  reason ← lift (required_string "reason" value);
  control_seq ← lift (required_nonnegative_uint64 "control_seq" value);
  audit "estop"
    (report_details session actor
       [("reason", j_string reason); ("control_seq", j_uint control_seq)]);;
  respond_event "estop" session.

Definition post_turn_relay (session_id : string) (value : json) : M Srv ServerResponse :=
  '(actor, session) ← acting_participant session_id value;
  turn_url ← lift (required_string "turn_url" value);
  relay_candidate ← lift (required_string "relay_candidate" value);
  selected_pair ← lift (required_string "selected_pair" value);
  audit "turn_relay_enabled"
    (report_details session actor
       [("turn_url", j_string turn_url); ("relay_candidate", j_string relay_candidate);
        ("selected_pair", j_string selected_pair)]);;
  respond_event "turn_relay_enabled" session.

(** *** Relay usage *)

(** The totals after a sample, or the reason it does not fit sixty-four bits. *)
Definition add_relay_usage (sample : RelayUsageSample) (session : Session) : result Session :=
  let bytes_sent := ru_bytes_sent sample in
  let bytes_received := ru_bytes_received sample in
  let duration_ms := ru_duration_ms sample in
  throw_if (max_u64 - bytes_received <? bytes_sent)
    (InvalidArgument "TURN usage sample bytes overflow");;
  let sample_bytes := bytes_sent + bytes_received in
  throw_if
    ((max_u64 - sess_relay_bytes_received session <? sess_relay_bytes_sent session) ||
     (max_u64 - sample_bytes <?
      u64 (sess_relay_bytes_sent session + sess_relay_bytes_received session)) ||
     (max_u64 - duration_ms <? sess_relay_duration_ms session) ||
     (sess_relay_usage_samples session =? max_u64))
    (InvalidArgument "TURN usage total overflow");;
  Ok (session
        <| sess_relay_bytes_sent := u64 (sess_relay_bytes_sent session + bytes_sent) |>
        <| sess_relay_bytes_received := u64 (sess_relay_bytes_received session + bytes_received) |>
        <| sess_relay_duration_ms := u64 (sess_relay_duration_ms session + duration_ms) |>
        <| sess_relay_usage_samples := u64 (sess_relay_usage_samples session + 1) |>
        <| sess_last_relay_bitrate_kbps :=
             d_of_Z sample_bytes ⊗ d_lit 8 0 ⊘ d_of_Z duration_ms |>).

Definition same_sample (a b : RelayUsageSample) : bool :=
  (ru_bytes_sent a =? ru_bytes_sent b) && (ru_bytes_received a =? ru_bytes_received b) &&
  (ru_duration_ms a =? ru_duration_ms b).

(** Whether the sample repeats the actor's last one. *)
Definition relay_sample_repeated (session : Session) (actor : string) (sample : RelayUsageSample) :
    result bool :=
  match sess_last_relay_usage_by_actor session !! actor with
  | None => Ok false
  | Some previous =>
      if ru_sequence sample <? ru_sequence previous
      then Throw (Conflict "stale TURN usage sample sequence" "conflict" [])
      else if ru_sequence sample =? ru_sequence previous then
        throw_if (negb (same_sample sample previous))
          (Conflict "TURN usage sample sequence was reused with different content" "conflict" []);;
        Ok true
      else Ok false
  end.

Definition respond_relay_usage (session : Session) (sequence : Z) (duplicate : bool) :
    M Srv ServerResponse :=
  usage ← lift (j_at "turn_usage" (Session_to_json false session));
  respond 200
    [("event", j_string "turn_relay_usage"); ("duplicate", j_bool duplicate);
     ("sample_seq", j_uint sequence); ("turn_usage", usage)].

(** A sample of an authenticated actor. *)
Definition record_turn_usage (session_id actor : string) (session : Session) (value : json) :
    M Srv ServerResponse :=
  sequence ← lift (required_nonnegative_uint64 "sample_seq" value);
  lift (throw_if (sequence =? 0) (InvalidArgument "sample_seq must be positive"));;
  bytes_sent ← lift (required_nonnegative_uint64 "bytes_sent" value);
  bytes_received ← lift (required_nonnegative_uint64 "bytes_received" value);
  duration_ms ← lift (required_nonnegative_uint64 "duration_ms" value);
  lift (throw_if (duration_ms =? 0) (InvalidArgument "duration_ms must be positive"));;
  let sample := mkRelayUsageSample sequence bytes_sent bytes_received duration_ms in
  repeated ← lift (relay_sample_repeated session actor sample);
  if (repeated : bool) then respond_relay_usage session sequence true
  else
    after ← lift (add_relay_usage sample session);
    audit "turn_relay_usage"
      (report_details session actor
         [("sample_seq", j_uint sequence); ("bytes_sent", j_uint bytes_sent);
          ("bytes_received", j_uint bytes_received); ("duration_ms", j_uint duration_ms);
          ("relay_bytes_total",
           j_uint (u64 (sess_relay_bytes_sent after + sess_relay_bytes_received after)));
          ("sample_count", j_uint (sess_relay_usage_samples after));
          ("last_bitrate_kbps", j_double (sess_last_relay_bitrate_kbps after))]);;
    let after := after <| sess_last_relay_usage_by_actor ::= <[actor := sample]> |> in
    update_session session_id (fun _ => after);;
    respond_relay_usage after sequence false.

Definition post_turn_usage (session_id : string) (value : json) : M Srv ServerResponse :=
  '(actor, session) ← acting_participant session_id value;
  record_turn_usage session_id actor session value.

(** ** Dispatch *)

Definition post_session_action (session_id action : string) (value : json) :
    M Srv ServerResponse :=
  if String.eqb action "renew" then post_renew session_id value
  else if String.eqb action "end" then post_end session_id value
  else if String.eqb action "webrtc_connection" then post_webrtc_connection session_id value
  else if String.eqb action "abnormal_disconnect" then post_abnormal_disconnect session_id value
  else if String.eqb action "diagnostics" then post_diagnostics session_id value
  else if String.eqb action "control_timeout" then post_control_timeout session_id value
  else if String.eqb action "estop" then post_estop session_id value
  else if String.eqb action "turn_relay" then post_turn_relay session_id value
  else if String.eqb action "turn_usage" then post_turn_usage session_id value
  else not_found_response.

(** The endpoints named by their whole path, then those named by its parts. *)
Definition dispatch_post (path : string) (parts : list string) (value : json) :
    M Srv ServerResponse :=
  if starts_with "/admin/" path then post_admin path value
  else if String.eqb path "/auth/driver_login" then post_driver_login value
  else if String.eqb path "/auth/driver_heartbeat" then post_driver_heartbeat value
  else if String.eqb path "/auth/driver_logout" then post_driver_logout value
  else if String.eqb path "/vehicles/online" then post_vehicle_online value
  else if String.eqb path "/vehicles/heartbeat" then post_vehicle_heartbeat value
  else if String.eqb path "/vehicles/offline" then post_vehicle_offline value
  else if String.eqb path "/sessions/approval/cancel" then post_approval_cancel value
  else if String.eqb path "/sessions" then post_sessions value
  else
    match parts with
    | [root; session_id; action] =>
        if String.eqb root "sessions" then post_session_action session_id action value
        else if String.eqb root "signaling" && String.eqb action "messages" then
          acknowledgement ← enqueue_signaling_message session_id value None;
          lift (ServerResponse_json 200 acknowledgement)
        else not_found_response
    | [root; session_id; object; action] =>
        if String.eqb root "sessions" && String.eqb object "control_authority" &&
           String.eqb action "revoke"
        then post_revoke_authority session_id value
        else not_found_response
    | _ => not_found_response
    end.

Definition handle_post (request : HttpRequest) : M Srv ServerResponse :=
  value ← lift (HttpRequest_json_body request);
  parts ← lift (path_parts (http_path request));
  now ← now_ms;
  cleanup_expired_connections now;;
  dispatch_post (http_path request) parts value.
End posts.
