(* ===== verification/SignalingServer.v ===== *)
(** SignalingServer: the phone's API and the GET requests of the signaling server
    (server.cpp:1982-2040, 2600-2668 and 3372-3477). *)
From S2P Require Export SignalingPosts.

Section server.
Context {J : JsonApi} {W : Type} {Host : SignalingHost J W}.
Notation State := (SignalingState J).
Notation Srv := (SignalingProcess J W).

Definition sorted_elements (names : gset string) : list string :=
  merge_sort String.le (elements names).

(** ** The phone's API *)

Definition mobile_login (request : HttpRequest) : M Srv ServerResponse :=
  value ← lift (HttpRequest_json_body request);
  timestamp_ms ← now_ms;
  source ← approver_login_bucket request timestamp_ms;
  enforce_login_rate_limit source timestamp_ms true;;
  s ← self;
  let app_password := sgc_mobile_app_password (srv_config s) in
  accepted ←
    (if string_empty app_password then mret false
     else password ← lift (optional_string "password" value);
          mret (String.eqb app_password password));
  (if accepted : bool then mret tt
   else
     record_login_failure source timestamp_ms true;;
     throw (Unauthorized "App 密码错误"));;
  clear_login_failures source true;;
  label ← random_token 12;
  random ← random_token kRandomTokenBytes;
  let id := "app-" +:+ label in
  let token := "approver-token-" +:+ random in
  now ← now_ms;
  let expiry := now + sgc_approver_token_ttl_ms (srv_config s) in
  srv_update (fun s => s <| srv_approver_tokens ::= <[token := mkDriverToken id expiry 0]> |>);;
  audit "approver_login" (j_object [("approver_id", j_string id)]);;
  now ← now_ms;
  respond 200
    [("token", j_string token); ("expires_at_utc_ms", j_int expiry);
     ("remaining_ms", j_int (Z.max 0 (expiry - now)))].

Definition mobile_logout (token id : string) : M Srv ServerResponse :=
  srv_update (fun s => s <| srv_approver_tokens ::= delete token |>);;
  audit "approver_logout" (j_object [("approver_id", j_string id)]);;
  respond 200 [("state", j_string "logged_out")].

(** The approvals of the vehicles that need one, in the order of their names. *)
Fixpoint approvals_json (vehicles : list string) : M Srv (list json) :=
  match vehicles with
  | [] => mret []
  | vehicle :: vehicles =>
      s ← self;
      first ← match srv_mobile_approvals s !! vehicle with
              | Some approval => value ← MobileApproval_to_json approval; mret [value]
              | None => mret []
              end;
      rest ← approvals_json vehicles;
      mret (first ++ rest)
  end.

Definition mobile_requests : M Srv ServerResponse :=
  s ← self;
  requests ← approvals_json (sorted_elements (sgc_mobile_approval_vehicles (srv_config s)));
  respond 200 [("requests", j_array requests)].

(** The approval a phone names, among those of the vehicles that need one. *)
Definition find_approval (request_id : string) (s : State) : option (string * MobileApproval) :=
  List.find (fun e => String.eqb (ap_request_id e.2) request_id &&
                      bool_decide (e.1 ∈ sgc_mobile_approval_vehicles (srv_config s)))
    (hash_items (srv_mobile_approvals s)).

Definition respond_approval (approval : MobileApproval) : M Srv ServerResponse :=
  body ← MobileApproval_to_json approval; lift (ServerResponse_json 200 body).

Definition mobile_decision (approver_id request_id : string) (request : HttpRequest) :
    M Srv ServerResponse :=
  value ← lift (HttpRequest_json_body request);
  decision ← lift (required_string "decision" value);
  lift (throw_if (negb (String.eqb decision "approve") && negb (String.eqb decision "reject"))
          (InvalidArgument "decision must be approve or reject"));;
  s ← self;
  match find_approval request_id s with
  | None => throw (NotFound "审批申请不存在或无权访问")
  | Some (vehicle_id, approval) =>
      let next := if String.eqb decision "approve" then "approved" else "rejected" in
      if String.eqb (ap_state approval) next && String.eqb (ap_decided_by approval) approver_id
      then respond_approval approval
      else if negb (String.eqb (ap_state approval) "pending") then
        throw_approval "申请已处理或失效，请刷新" "mobile_approval_not_pending" approval
      else
        let decided := approval <| ap_state := next |> <| ap_decided_by := approver_id |> in
        details ← MobileApproval_to_json decided;
        audited ← try_audit "mobile_approval_decided" details;
        if negb audited
        then throw (ServiceUnavailable "audit log unavailable; approval decision was not saved")
        else set_approval vehicle_id decided;; respond_approval decided
  end.

Definition handle_mobile_api (request : HttpRequest) : M Srv ServerResponse :=
  cleanup_mobile_approvals;;
  let is_post := String.eqb (http_method request) "POST" in
  let path := http_path request in
  if String.eqb path "/mobile/api/login" && is_post then mobile_login request
  else
    let token := default "" (http_headers request !! "x-mine-teleop-approver-token") in
    s ← self;
    match srv_approver_tokens s !! token with
    | None => throw (Unauthorized "审批登录已失效，请重新登录")
    | Some authenticated =>
        let id := dt_driver_id authenticated in
        if String.eqb path "/mobile/api/logout" && is_post then mobile_logout token id
        else if String.eqb path "/mobile/api/requests" &&
                String.eqb (http_method request) "GET" then mobile_requests
        else
          parts ← lift (path_parts path);
          match parts with
          | [mobile; api; requests; request_id; action] =>
              if String.eqb mobile "mobile" && String.eqb api "api" &&
                 String.eqb requests "requests" && String.eqb action "decision" && is_post
              then mobile_decision id request_id request else not_found_response
          | _ => not_found_response
          end
    end.

(** ** GET requests *)

(** The total of the relayed bytes of every session, saturating. *)
Definition relay_total (sessions : list (string * Session)) : Z :=
  foldl (fun total e =>
    if sess_relay_usage_samples e.2 =? 0 then total
    else
      let session_total := u64 (sess_relay_bytes_sent e.2 + sess_relay_bytes_received e.2) in
      if max_u64 - total <? session_total then max_u64 else total + session_total) 0 sessions.

Definition count_of {A} (test : A -> bool) (map : gmap string A) : Z :=
  Z.of_nat (length (List.filter (fun e => test e.2) (map_to_list map))).

Definition health_alert (code : string) (count : json) : json :=
  j_object [("code", j_string code); ("severity", j_string "warning"); ("count", count)].

Definition health (s : State) (timestamp_ms : Z) : json :=
  let active_sessions :=
    count_of (fun e => bool_decide (sess_state e = Active) || bool_decide (sess_state e = Degraded))
      (srv_sessions s) in
  let locked := count_of (fun e => timestamp_ms <? lf_blocked_until_ms e) (srv_login_failures s) in
  let overflow := srv_api_rate_limit_overflow s in
  let overflow_active :=
    (0 <? ar_window_started_at_ms overflow) &&
    (timestamp_ms - ar_window_started_at_ms overflow <?
     sgc_api_rate_limit_window_ms (srv_config s)) in
  let alerts :=
    (if 0 <? locked then [health_alert "login_lockout_active" (j_int locked)] else []) ++
    (if overflow_active then [health_alert "api_rate_limit_source_capacity" (j_int 1)] else []) in
  let number {A} (map : gmap string A) := j_uint (Z.of_nat (size map)) in
  j_object
    [("status", j_string (match alerts with [] => "ok" | _ => "degraded" end));
     ("runtime", j_string "cpp");
     ("service_instance_id", j_string (srv_service_instance_id s));
     ("alerts", j_array alerts); ("alert_count", j_uint (Z.of_nat (length alerts)));
     ("online_vehicles", number (srv_online_vehicles s));
     ("online_drivers", number (srv_online_drivers s));
     ("active_sessions", j_int active_sessions); ("sessions", number (srv_sessions s));
     ("revoked_vehicles", j_uint (Z.of_nat (size (srv_revoked_vehicles s))));
     ("revoked_drivers", j_uint (Z.of_nat (size (srv_revoked_drivers s))));
     ("login_locked_buckets", j_int locked);
     ("api_rate_limit_tracked_sources", number (srv_api_rate_limits s));
     ("api_rate_limit_overflow_active", j_bool overflow_active);
     ("api_rate_limited_requests", j_uint (srv_api_rate_limited_requests s));
     ("turn_usage_sessions",
      j_uint (count_of (fun e => negb (sess_relay_usage_samples e =? 0)) (srv_sessions s)));
     ("turn_relay_bytes_total", j_uint (relay_total (hash_items (srv_sessions s))))].

Definition get_health : M Srv ServerResponse :=
  timestamp_ms ← now_ms;
  s ← self;
  lift (ServerResponse_json 200 (health s timestamp_ms)).

Definition client_time (text : string) : result Z :=
  throw_if (string_empty text) (InvalidArgument "client_send_ms is required");;
  match stoll text with
  | Ok (parsed, consumed) =>
      throw_if (negb (consumed =? String.length text)%nat)
        (InvalidArgument "client_send_ms must be an integer");;
      Ok parsed
  | Throw _ => Throw (InvalidArgument "client_send_ms must be an integer")
  end.

Definition get_time (request : HttpRequest) : M Srv ServerResponse :=
  server_receive_ms ← now_ms;
  client_send_ms ← lift (client_time (query_value request "client_send_ms"));
  server_send_ms ← now_ms;
  respond 200
    [("time_domain", j_string "signaling_server"); ("client_send_ms", j_int client_send_ms);
     ("server_receive_ms", j_int server_receive_ms); ("server_send_ms", j_int server_send_ms)].

Definition driver_credential (request : HttpRequest) : string :=
  credential_value request "token" "x-mine-teleop-driver-token".
Definition device_credential (request : HttpRequest) : string :=
  credential_value request "device_token" "x-mine-teleop-device-token".

(** [required_uint64(Json{{"connection_generation", query}}, "connection_generation")] *)
Definition query_generation (request : HttpRequest) : result Z :=
  required_uint64 "connection_generation"
    (j_object [("connection_generation",
                j_string (query_value request "connection_generation"))]).

Definition request_credentials (request : HttpRequest) : json :=
  j_object [("token", j_string (driver_credential request));
            ("device_token", j_string (device_credential request));
            ("connection_generation", j_string (query_value request "connection_generation"))].

(** One line of the list of a driver's vehicles. *)
Definition vehicle_summary (s : State) (vehicle_id : string) : json :=
  let revoked := bool_decide (vehicle_id ∈ srv_revoked_vehicles s) in
  let online := negb revoked && bool_decide (is_Some (srv_online_vehicles s !! vehicle_id)) in
  let active := List.find (fun e => String.eqb (sess_vehicle_id e.2) vehicle_id && is_open e.2)
                  (hash_items (srv_sessions s)) in
  let state :=
    if revoked then "revoked"
    else match active with
         | None => if online then "online" else "offline"
         | Some (_, session) => SessionState_to_string (sess_state session)
         end in
  j_object
    [("vehicle_id", j_string vehicle_id); ("state", j_string state); ("online", j_bool online);
     ("controllable", j_bool (online && bool_decide (active = None)));
     ("mobile_approval_required",
      j_bool (bool_decide (vehicle_id ∈ sgc_mobile_approval_vehicles (srv_config s))));
     ("controlled_by",
      j_string (match active with None => "" | Some (_, session) => sess_driver_id session end));
     ("session_id",
      j_string (match active with None => "" | Some (_, session) => sess_session_id session end))].

Definition get_driver_vehicles (driver_id : string) (request : HttpRequest) :
    M Srv ServerResponse :=
  validate_driver_token driver_id (driver_credential request);;
  s ← self;
  let vehicles :=
    match sgc_driver_vehicle_permissions (srv_config s) !! driver_id with
    | Some permitted => map (vehicle_summary s) (sorted_elements permitted)
    | None => []
    end in
  audit "authorized_vehicles_listed"
    (j_object [("driver_id", j_string driver_id);
               ("vehicle_count", j_uint (Z.of_nat (length vehicles)))]);;
  respond 200 [("driver_id", j_string driver_id); ("vehicles", j_array vehicles)].

Definition get_messages (session_id : string) (request : HttpRequest) : M Srv ServerResponse :=
  let recipient := query_value request "recipient" in
  lift (throw_if (string_empty recipient) (InvalidArgument "recipient is required"));;
  session ← require_participant session_id recipient;
  (if String.eqb recipient (sess_driver_id session)
   then validate_driver_token recipient (driver_credential request)
   else
     generation ← lift (query_generation request);
     validate_vehicle_connection recipient (device_credential request) generation);;
  messages ← take_signaling_messages session_id recipient (query_value request "types") true;
  respond 200 [("messages", j_array messages)].

Definition get_vehicle_session (vehicle_id : string) (request : HttpRequest) :
    M Srv ServerResponse :=
  generation ← lift (query_generation request);
  validate_vehicle_connection vehicle_id (device_credential request) generation;;
  s ← self;
  presence ← presence_at (srv_online_vehicles s) vehicle_id;
  match List.find (fun e => String.eqb (sess_vehicle_id e.2) vehicle_id &&
                            bool_decide (sess_state e.2 = Active))
          (hash_items (srv_sessions s)) with
  | Some (_, session) =>
      respond 200
        [("vehicle_id", j_string vehicle_id); ("session_id", j_string (sess_session_id session));
         ("driver_id", j_string (sess_driver_id session));
         ("state", j_string (SessionState_to_string (sess_state session)));
         ("control_token", j_string (sess_control_token session));
         ("control_token_expires_at_utc_ms", j_int (sess_control_token_expires_at_ms session));
         ("connection_generation", j_uint (cp_generation presence))]
  | None =>
      respond 200
        [("vehicle_id", j_string vehicle_id); ("session_id", j_string "");
         ("state", j_string "online");
         ("connection_generation", j_uint (cp_generation presence))]
  end.

(** The participant a GET request about a session speaks for. *)
Definition querying_participant (session_id : string) (request : HttpRequest) : M Srv Session :=
  let actor := query_value request "actor" in
  session ← require_participant session_id actor;
  validate_actor_credential session actor (request_credentials request);;
  mret session.
End server.
