(* ===== verification/SignalingService.v ===== *)
(** SignalingService: the service as a whole (server.cpp:608-629, 684-691, 1860-1980,
    2259-2321, 2670-3034 and 3478-3525).

    - [handle] and [handle_websocket]: dispatch, and exceptions as answers;
    - the constructor and the reaper;
    - [server_op] and [server_step]: what may happen between two acquisitions of the
      mutex.  A run of the server is a list of these steps, whatever its threads are. *)
From S2P Require Export SignalingServer.
From S2P Require Import WsCodec.

(** The broker of session logs, a component of its own behind its own lock. *)
Class SessionLogs (J : JsonApi) (W : Type) : Type := {
  logs_vehicle : string -> json -> bool -> M W json;
  logs_sessions : string -> M W (list json);
  logs_session : string -> string -> M W json;
  logs_start : json -> bool -> M W json;
  logs_status : string -> string -> bool -> M W json;
  logs_chunk : string -> string -> json -> M W json;
  logs_release : string -> string -> M W unit;
}.

Section service.
Context {J : JsonApi} {W : Type} {Host : SignalingHost J W} {Logs : SessionLogs J W}.
Notation State := (SignalingState J).
Notation Srv := (SignalingProcess J W).

(** ** GET requests, continued *)

Definition turn_rest_credential (secret username : string) : result string :=
  match host_hmac_sha1 secret username with
  | Some digest => Ok (base64_encode digest)
  | None => Throw (RuntimeError "TURN REST HMAC-SHA1 failed")
  end.

Definition json_strings (texts : list string) : json := j_array (map j_string texts).

(** The TURN entry and the end of its validity; nothing when no TURN server is configured. *)
Definition turn_server (config : SignalingServerConfig) (session_id actor : string) :
    M Srv (list json * Z) :=
  match sgc_turn_urls config with
  | [] => mret ([], 0)
  | urls =>
      now ← now_ms;
      let expires_at_seconds := Z.quot now 1000 + sgc_turn_credential_ttl_seconds config in
      let username :=
        to_string_Z expires_at_seconds +:+ ":" +:+ sgc_turn_realm config +:+ ":" +:+
        session_id +:+ ":" +:+ actor in
      credential ← lift (turn_rest_credential (sgc_turn_static_auth_secret config) username);
      mret ([j_object [("urls", json_strings urls); ("username", j_string username);
                       ("credential", j_string credential);
                       ("credentialType", j_string "password")]],
            expires_at_seconds * 1000)
  end.

Definition get_ice_servers (session_id : string) (request : HttpRequest) : M Srv ServerResponse :=
  session ← querying_participant session_id request;
  let actor := query_value request "actor" in
  s ← self;
  let config := srv_config s in
  let stun := match sgc_stun_urls config with
              | [] => []
              | urls => [j_object [("urls", json_strings urls)]]
              end in
  '(turn, expires_at) ← turn_server config (sess_session_id session) actor;
  let servers := stun ++ turn in
  audit "ice_servers_issued"
    (j_object (session_ids session ++
               [("actor", j_string actor);
                ("ice_server_count", j_uint (Z.of_nat (length servers)));
                ("turn_server_count", j_uint (Z.of_nat (length (sgc_turn_urls config))));
                ("expires_at_utc_ms", j_int expires_at)]));;
  respond 200
    [("session_id", j_string (sess_session_id session)); ("ice_servers", j_array servers);
     ("expires_at_utc_ms", j_int expires_at)].

Definition dispatch_get (parts : list string) (request : HttpRequest) : M Srv ServerResponse :=
  match parts with
  | [root; id; object] =>
      let route root_name object_name := String.eqb root root_name && String.eqb object object_name in
      if route "drivers"%string "vehicles"%string then get_driver_vehicles id request
      else if route "signaling"%string "messages"%string then get_messages id request
      else if route "vehicles"%string "session"%string then get_vehicle_session id request
      else if route "sessions"%string "ice_servers"%string then get_ice_servers id request
      else not_found_response
  | [root; id] =>
      if String.eqb root "sessions"
      then session ← querying_participant id request; respond_session false session
      else not_found_response
  | _ => not_found_response
  end.

Definition handle_get (request : HttpRequest) : M Srv ServerResponse :=
  if String.eqb (http_path request) "/health" then get_health
  else if String.eqb (http_path request) "/time" then get_time request
  else
    parts ← lift (path_parts (http_path request));
    now ← now_ms;
    cleanup_expired_connections now;;
    dispatch_get parts request.

(** ** Session logs *)

Definition has_open_session (test : Session -> bool) (s : State) : bool :=
  existsb (fun e => test e.2 && is_open e.2) (hash_items (srv_sessions s)).

Definition logs_of_vehicle (value : json) : M Srv ServerResponse :=
  vehicle ← lift (required_string "vehicle_id" value);
  token ← lift (optional_string "device_token" value);
  validate_device_token vehicle token;;
  s ← self;
  let idle := negb (has_open_session (fun e => String.eqb (sess_vehicle_id e) vehicle) s) in
  answer ← on_host (logs_vehicle vehicle value idle);
  lift (ServerResponse_json 200 answer).

Definition permitted_vehicles (s : State) (driver : string) : gset string :=
  default ∅ (sgc_driver_vehicle_permissions (srv_config s) !! driver).

(** The records of the vehicles the driver may use. *)
Fixpoint permitted_records (allowed : gset string) (records : list json) : result (list json) :=
  match records with
  | [] => Ok []
  | record :: records =>
      vehicle ← j_at "vehicle_id" record ≫= get_string;
      rest ← permitted_records allowed records;
      Ok (if bool_decide (vehicle ∈ allowed) then record :: rest else rest)
  end.

(** The section of [start] under the mutex, which [handle_diagnostics] has given back in
    between. *)
Definition logs_begin_export (record : json) (vehicle driver : string) : M Srv ServerResponse :=
  now ← now_ms;
  cleanup_expired_connections now;;
  s ← self;
  let online := bool_decide (is_Some (srv_online_vehicles s !! vehicle)) in
  lift (throw_if
          (has_open_session (fun e => String.eqb (sess_vehicle_id e) vehicle ||
                                      String.eqb (sess_driver_id e) driver) s)
          (Conflict "end the active control session before collecting logs" "conflict" []));;
  answer ← on_host (logs_start record online);
  lift (ServerResponse_json 200 answer).

Definition logs_start_export (allowed : gset string) (driver : string) (value : json) :
    M Srv ServerResponse :=
  key ← lift (required_string "key" value);
  record ← on_host (logs_session key driver);
  vehicle ← lift (j_at "vehicle_id" record ≫= get_string);
  lift (throw_if (negb (bool_decide (vehicle ∈ allowed)))
          (Unauthorized "vehicle permission was revoked"));;
  logs_begin_export record vehicle driver.

Definition logs_export (allowed : gset string) (driver operation : string) (value : json) :
    M Srv ServerResponse :=
  id ← lift (required_string "export_id" value);
  state ← on_host (logs_status id driver false);
  session ← lift (j_at "session" state);
  vehicle ← lift (j_at "vehicle_id" session ≫= get_string);
  lift (throw_if (negb (bool_decide (vehicle ∈ allowed)))
          (Unauthorized "vehicle permission was revoked"));;
  if String.eqb operation "status" then
    partial ← lift (value_bool "finish_partial" false value);
    answer ← on_host (logs_status id driver partial);
    lift (ServerResponse_json 200 answer)
  else if String.eqb operation "chunk" then
    answer ← on_host (logs_chunk id driver value);
    lift (ServerResponse_json 200 answer)
  else if String.eqb operation "release" then
    on_host (logs_release id driver);;
    respond 200 [("released", j_bool true)]
  else throw (InvalidArgument "unknown log export operation").

Definition handle_diagnostics (request : HttpRequest) : M Srv ServerResponse :=
  if negb (String.eqb (http_method request) "POST")
  then respond 405 [("error", j_string "POST required")]
  else
    value ← lift (HttpRequest_json_body request);
    operation ← lift (required_string "operation" value);
    if String.eqb (http_path request) "/sessions/logs/vehicle" then logs_of_vehicle value
    else if negb (String.eqb (http_path request) "/sessions/logs/driver")
    then not_found_response
    else
      driver ← lift (required_string "driver_id" value);
      token ← lift (optional_string "token" value);
      validate_driver_token driver token;;
      s ← self;
      let allowed := permitted_vehicles s driver in
      if String.eqb operation "list" then
        records ← on_host (logs_sessions driver);
        records ← lift (permitted_records allowed records);
        respond 200 [("sessions", j_array records)]
      else if String.eqb operation "start" then logs_start_export allowed driver value
      else logs_export allowed driver operation value.

(** ** Requests *)

Definition is_mobile_path (path : string) : bool := starts_with "/mobile/api/" path.

(** The part of [handle] after the rate limit. *)
Definition dispatch (request : HttpRequest) : M Srv ServerResponse :=
  let path := http_path request in
  if starts_with "/sessions/logs/" path then
    response ← handle_diagnostics request;
    mret (emplace_header "Cache-Control" "no-store" response)
  else if is_mobile_path path then
    now ← now_ms;
    cleanup_expired_connections now;;
    handle_mobile_api request
  else if String.eqb (http_method request) "GET" then handle_get request
  else if String.eqb (http_method request) "POST" then handle_post request
  else respond 405 [("error", j_string "method not allowed")].

Definition rate_limit (request : HttpRequest) : M Srv unit :=
  now ← now_ms; enforce_api_rate_limit request now.

(** The answer to an exception; the others leave [handle]. *)
Definition error_response (e : exn) : M Srv ServerResponse :=
  let answer status message := respond status [("error", j_string message)] in
  match e with
  | Unauthorized message => answer 401 message
  | TooManyRequests message retry_after_ms =>
      lift (too_many_requests_response message retry_after_ms)
  | ServiceUnavailable message => answer 503 message
  | NotFound message => answer 404 message
  | Conflict message issue_code details =>
      lift (ServerResponse_json 409
              (j_update details
                 (j_object [("error", j_string message); ("issue_code", j_string issue_code)])))
  | InvalidArgument message => answer 400 message
  | JsonException message => answer 400 message
  | _ => throw e
  end.

Definition has_cache_control (response : ServerResponse) : bool :=
  existsb (fun header => String.eqb (lower header.1) "cache-control") (resp_headers response).

Definition finish_headers (path request_id : string) (response : ServerResponse) :
    ServerResponse :=
  let response :=
    if (String.eqb path "/auth/driver_login" || is_mobile_path path) &&
       negb (has_cache_control response)
    then emplace_header "Cache-Control" "no-store" response else response in
  let response :=
    if is_mobile_path path
    then emplace_header "X-Content-Type-Options" "nosniff" response else response in
  add_request_id_header request_id response.

(** Runs [m] as the request [id] of its thread. *)
Definition with_request_id {A} (id : string) (m : M Srv A) : M Srv A :=
  previous ← gets srv_active_request_id;
  let restore := modify (fun p => p <| srv_active_request_id := previous |>) in
  modify (fun p => p <| srv_active_request_id := id |>);;
  result ← try_catch m (fun e => restore;; throw e);
  restore;;
  mret result.

Definition handle (request : HttpRequest) : M Srv ServerResponse :=
  token ← random_token 12;
  let id := "request-" +:+ token in
  with_request_id id
    (response ← try_catch (rate_limit request;; dispatch request) error_response;
     mret (finish_headers (http_path request) id response)).

(** ** WebSockets *)

(** The local variables of [handle_websocket] that live as long as the connection. *)
Record WsConnection := mkWsConnection {
  ws_session_id : string;
  ws_participant : string;
  ws_send_only : bool;
  ws_control_receive_only : bool;
  ws_credentials : json;
  ws_last_delivery_cursor_sent : Z;
  ws_last_delivery_sent_at : Z;
}.

#[global] Instance eta_WsConnection : Settable WsConnection :=
  fields! mkWsConnection
    <ws_session_id; ws_participant; ws_send_only; ws_control_receive_only; ws_credentials;
     ws_last_delivery_cursor_sent; ws_last_delivery_sent_at>.

(** The parameters of the request, or the status and the reason of the refusal. *)
Definition ws_parameters (session_id : string) (request : HttpRequest) :
    (Z * string) + WsConnection :=
  if negb (String.eqb (http_method request) "GET")
  then inl (405, "WebSocket endpoint requires GET")
  else
    let participant := query_value request "participant" in
    let send_only_value := query_value request "send_only" in
    let requested_types := query_value request "types" in
    let send_only := String.eqb send_only_value "1" in
    let control_receive_only := negb (string_empty requested_types) in
    if string_empty participant then inl (400, "participant is required")
    else if negb (string_empty send_only_value) && negb (String.eqb send_only_value "1")
    then inl (400, "send_only must be 1 when provided")
    else if control_receive_only && negb (String.eqb requested_types "control_command")
    then inl (400, "WebSocket types must be control_command when provided")
    else if control_receive_only && send_only
    then inl (400, "control-command receive WebSocket cannot be send-only")
    else inr (mkWsConnection session_id participant send_only control_receive_only
                (request_credentials request) 0 0).

(** The participant still belongs to the session, with valid credentials. *)
Definition ws_authorize (conn : WsConnection) : M Srv Session :=
  now ← now_ms;
  cleanup_expired_connections now;;
  session ← require_participant (ws_session_id conn) (ws_participant conn);
  validate_actor_credential session (ws_participant conn) (ws_credentials conn);;
  mret session.

Definition ws_authenticate (conn : WsConnection) : M Srv unit :=
  session ← ws_authorize conn;
  lift (throw_if (ws_send_only conn &&
                  negb (String.eqb (ws_participant conn) (sess_driver_id session)))
          (Unauthorized "send-only signaling is restricted to the session driver"));;
  lift (throw_if (ws_control_receive_only conn &&
                  negb (String.eqb (ws_participant conn) (sess_vehicle_id session)))
          (Unauthorized "control-command receive signaling is restricted to the session vehicle")).

Definition header_token (request : HttpRequest) (name : string) : option string :=
  option_map trim (http_headers request !! name).

Definition connection_upgrade (request : HttpRequest) : bool :=
  match http_headers request !! "connection" with
  | None => false
  | Some value =>
      existsb (fun piece => String.eqb (lower (trim (of_chars piece))) "upgrade")
        (split_on ","%char (chars value))
  end.

(** The key of the handshake, or the reason it is not one. *)
Definition ws_handshake (request : HttpRequest) : string + string :=
  if negb (bool_decide (option_map lower (header_token request "upgrade") = Some "websocket"%string))
  then inl "WebSocket Upgrade header is required"%string
  else if negb (connection_upgrade request)
  then inl "Connection: Upgrade header is required"%string
  else if negb (bool_decide (header_token request "sec-websocket-version" = Some "13"%string))
  then inl "Sec-WebSocket-Version must be 13"%string
  else
    match header_token request "sec-websocket-key" with
    | None => inl "Sec-WebSocket-Key is required"%string
    | Some key =>
        if string_empty key then inl "Sec-WebSocket-Key is required"%string
        else match websocket_accept_key host_sha1 key with
             | Ok accept => inr accept
             | Throw e => inl (what e)
             end
    end.

(** The refusal of an unauthenticated connection. *)
Definition ws_refusal (e : exn) : M Srv (Z * string) :=
  match e with
  | Unauthorized message => mret (401, message)
  | NotFound message => mret (404, message)
  | Conflict message _ _ => mret (409, message)
  | _ => if is_std_exception e then mret (400, what e) else throw e
  end.

(** Opens a connection: a refusal, or the connection and the accept key. *)
Definition ws_open (session_id : string) (request : HttpRequest) :
    M Srv ((Z * string) + (WsConnection * string)) :=
  match ws_parameters session_id request with
  | inl refusal => mret (inl refusal)
  | inr conn =>
      refused ← try_catch (ws_authenticate conn;; mret None)
                  (fun e => refusal ← ws_refusal e; mret (Some refusal));
      mret (match refused with
            | Some refusal => inl refusal
            | None => match ws_handshake request with
                      | inl message => inl (400, message)
                      | inr accept => inr (conn, accept)
                      end
            end)
  end.

(** The head of [handle_websocket]: nothing when the path is not its own. *)
Definition handle_websocket_open (request : HttpRequest) :
    M Srv (option ((Z * string) + (WsConnection * string))) :=
  parts ← lift (path_parts (http_path request));
  match parts with
  | [root; session_id; leaf] =>
      if negb (String.eqb root "signaling" && String.eqb leaf "ws") then mret None
      else
        token ← random_token 12;
        with_request_id ("request-" +:+ token)
          (limited ← try_catch (rate_limit request;; mret None)
                       (fun e => match e with
                                 | TooManyRequests message _ => mret (Some (429, message))
                                 | _ => throw e
                                 end);
           match limited with
           | Some refusal => mret (Some (inl refusal))
           | None => opened ← ws_open session_id request; mret (Some opened)
           end)
  | _ => mret None
  end.

Inductive WsOutput : Type :=
| WsSend (message : json)
| WsClose (code : Z) (reason : string).

(** The messages waiting for the connection; they stay in their mailboxes. *)
Definition ws_pending (conn : WsConnection) : M Srv (list json) :=
  ws_authorize conn;;
  if ws_send_only conn then mret []
  else take_signaling_messages (ws_session_id conn) (ws_participant conn)
         (if ws_control_receive_only conn then "control_command" else "") false.

(** The first half of a pass of the loop: what is sent, and the connection if it goes on. *)
Definition ws_poll (conn : WsConnection) : M Srv (list WsOutput * option WsConnection) :=
  pending ← try_catch_std (pending ← ws_pending conn; mret (inr pending))
              (fun e => mret (inl (what e)));
  match pending with
  | inl error =>
      mret ([WsSend (j_object [("error", j_string error);
                               ("event", j_string "signaling_authority_lost")]);
             WsClose 1008 "signaling authority lost"], None)
  | inr pending =>
      match last pending with
      | None => mret ([], Some conn)
      | Some latest =>
          let delivery_cursor := json_cursor latest in
          timestamp ← steady_now;
          if (ws_last_delivery_cursor_sent conn <? delivery_cursor) ||
             (500 * 1000000 <=? timestamp - ws_last_delivery_sent_at conn)
          then
            mret ([WsSend (j_object [("event", j_string "signaling_messages");
                                     ("delivery_cursor", j_uint delivery_cursor);
                                     ("messages", j_array pending)])],
                  Some (conn <| ws_last_delivery_cursor_sent ::= Z.max delivery_cursor |>
                             <| ws_last_delivery_sent_at := timestamp |>))
          else mret ([], Some conn)
      end
  end.

(** A delivery acknowledgement. *)
Definition ws_acknowledge (conn : WsConnection) (message : json) : M Srv json :=
  delivery_cursor ← lift (required_uint64 "delivery_cursor" message);
  traced ← lift (value_string "trace_session_id" "" message);
  lift (throw_if (negb (string_empty traced) && negb (String.eqb traced (ws_session_id conn)))
          (InvalidArgument
             "delivery acknowledgement trace session does not match WebSocket session"));;
  lift (value_uint64 "seq" 0 message);;
  lift (value_uint64 "intent_seq" 0 message);;
  lift (throw_if (ws_last_delivery_cursor_sent conn <? delivery_cursor)
          (InvalidArgument "delivery acknowledgement exceeds the last delivered cursor"));;
  ws_authorize conn;;
  acknowledged ← acknowledge_signaling_messages (ws_session_id conn) (ws_participant conn)
                   delivery_cursor (ws_control_receive_only conn);
  mret (j_object [("event", j_string "signaling_delivery_acknowledged");
                  ("delivery_cursor", j_uint delivery_cursor);
                  ("acknowledged", j_uint acknowledged)]).

(** A message for the other participant. *)
Definition ws_submit (conn : WsConnection) (message : json) : M Srv json :=
  lift (throw_if (ws_control_receive_only conn)
          (InvalidArgument
             "control-command receive WebSocket accepts delivery acknowledgements only"));;
  ws_authorize conn;;
  (if ws_send_only conn then
     type ← lift (value_string "type" "" message);
     lift (throw_if (negb (is_control type))
             (InvalidArgument
                "send-only control WebSocket accepts control_command messages only"))
   else mret tt);;
  enqueue_signaling_message (ws_session_id conn) message (Some (ws_participant conn)).

(** The second half: the answer to a received message. *)
Definition ws_receive (conn : WsConnection) (message : json) : M Srv WsOutput :=
  try_catch_std
    (acknowledgement ←
       (if ws_send_only conn then mret false
        else event ← lift (value_string "event" "" message);
             mret (String.eqb event "signaling_delivery_ack"));
     answer ← (if acknowledgement : bool then ws_acknowledge conn message
               else ws_submit conn message);
     mret (WsSend answer))
    (fun e => mret (WsSend (j_object [("error", j_string (what e));
                                      ("event", j_string "signaling_message_rejected")]))).

(** ** Construction *)

Definition valid_ice_url (value : string) (turn : bool) : bool :=
  if turn then starts_with "turn:" value || starts_with "turns:" value
  else starts_with "stun:" value || starts_with "stuns:" value.

Definition invalid_if (b : bool) (message : string) : result unit :=
  throw_if b (InvalidArgument message).

Definition for_all {A} (xs : list A) (check : A -> result unit) : result unit :=
  fold_result (fun _ x => check x) tt xs.

(** The checks of the constructor before the addresses of the proxies. *)
Definition check_server_limits (c : SignalingServerConfig) : result unit :=
  invalid_if ((sgc_mobile_approval_timeout_ms c <=? 0) ||
              (600000 <? sgc_mobile_approval_timeout_ms c))
    "mobile approval timeout must be between 1 and 600000 ms";;
  invalid_if (negb (bool_decide (sgc_mobile_approval_vehicles c = ∅)) &&
              string_empty (sgc_mobile_app_password c))
    "mobile approval requires a non-empty mobile app password";;
  for_all (elements (sgc_mobile_approval_vehicles c))
    (fun vehicle => invalid_if (bool_decide (sgc_device_tokens c !! vehicle = None))
                      "unknown mobile approval vehicle");;
  invalid_if ((sgc_approver_token_ttl_ms c <=? 0) ||
              (7 * 24 * 60 * 60 * 1000 <? sgc_approver_token_ttl_ms c))
    "approver token TTL must be between 1ms and 7 days";;
  invalid_if (sgc_token_ttl_ms c <=? 0) "driver token TTL must be positive";;
  invalid_if (sgc_control_token_ttl_ms c <=? 0) "control token TTL must be positive";;
  invalid_if ((sgc_vehicle_heartbeat_timeout_ms c <=? 0) ||
              (sgc_driver_heartbeat_timeout_ms c <=? 0) ||
              (sgc_connection_reaper_interval_ms c <=? 0))
    "connection heartbeat and reaper intervals must be positive";;
  invalid_if ((sgc_login_max_failures c <=? 0) || (sgc_login_failure_window_ms c <=? 0) ||
              (sgc_login_lockout_ms c <=? 0))
    "login failure limit, window, and lockout must be positive";;
  invalid_if ((sgc_api_rate_limit_requests c <=? 0) || (sgc_api_rate_limit_window_ms c <=? 0) ||
              (sgc_api_rate_limit_max_sources c <=? 0))
    "API rate limit, window, and source capacity must be positive";;
  invalid_if (max_u64 <? u64 (sgc_api_rate_limit_max_sources c))
    "API rate-limit source capacity is too large";;
  invalid_if ((sgc_audit_log_max_bytes c <? 1024) || (sgc_audit_log_files c <? 1) ||
              (20 <? sgc_audit_log_files c))
    "audit log max bytes must be at least 1024 and files must be between 1 and 20";;
  invalid_if ((sgc_audit_log_rotation_interval_ms c <=? 0) ||
              (24 * 60 * 60 * 1000 <? sgc_audit_log_rotation_interval_ms c))
    "audit log rotation interval must be between 1ms and 24 hours";;
  invalid_if ((sgc_audit_log_retention_days c <? 1) || (365 <? sgc_audit_log_retention_days c))
    "audit log retention must be between 1 and 365 days".

(** The canonical addresses of the trusted proxies. *)
Definition trusted_proxies (c : SignalingServerConfig) : result (gset string) :=
  fold_result (fun addresses address =>
    match canonical_ip_address address with
    | Some canonical => Ok ({[canonical]} ∪ addresses)
    | None => Throw (InvalidArgument "trusted proxy address must be an IP address")
    end) ∅ (sgc_trusted_proxy_addresses c).

Definition is_empty_pair (entry : string * string) : bool :=
  string_empty entry.1 || string_empty entry.2.

(** The checks after them. *)
Definition check_server_identities (c : SignalingServerConfig) : result unit :=
  invalid_if (sgc_turn_credential_ttl_seconds c <=? 0) "TURN credential TTL must be positive";;
  invalid_if ((sgc_max_signaling_payload_bytes c =? 0) || (sgc_max_sdp_bytes c =? 0) ||
              (sgc_max_ice_candidate_bytes c =? 0) || (sgc_signaling_message_ttl_ms c <=? 0) ||
              (sgc_native_control_message_ttl_ms c <=? 0) ||
              (1000 <? sgc_native_control_message_ttl_ms c))
    "signaling limits and message TTL must be positive";;
  invalid_if (bool_decide (sgc_stun_urls c = []) && bool_decide (sgc_turn_urls c = []))
    "at least one STUN or TURN URL is required";;
  for_all (sgc_stun_urls c)
    (fun url => invalid_if (negb (valid_ice_url url false)) "invalid STUN URL");;
  for_all (sgc_turn_urls c)
    (fun url => invalid_if (negb (valid_ice_url url true)) "invalid TURN URL");;
  invalid_if (negb (bool_decide (sgc_turn_urls c = [])) &&
              (string_empty (sgc_turn_realm c) || string_empty (sgc_turn_static_auth_secret c)))
    "TURN URLs require a realm and static auth secret";;
  invalid_if (bool_decide (sgc_driver_passwords c = ∅))
    "at least one driver credential is required";;
  invalid_if (bool_decide (sgc_device_tokens c = ∅))
    "at least one device credential is required";;
  for_all (hash_items (sgc_driver_passwords c))
    (fun e => invalid_if (is_empty_pair e) "driver credentials must not be empty");;
  for_all (hash_items (sgc_device_tokens c))
    (fun e => invalid_if (is_empty_pair e) "device credentials must not be empty");;
  for_all (hash_items (sgc_driver_vehicle_permissions c))
    (fun e =>
       invalid_if (bool_decide (sgc_driver_passwords c !! e.1 = None))
         "vehicle permission references an unknown driver";;
       for_all (elements e.2)
         (fun vehicle => invalid_if (bool_decide (sgc_device_tokens c !! vehicle = None))
                           "vehicle permission references an unknown vehicle")).

Definition empty_state (config : SignalingServerConfig) : State :=
  mkSignalingState config "" ∅ ∅ ∅ ∅ ∅ ∅ ∅ ∅ ∅ ∅ ∅ ∅ ∅ 0 ∅ ∅ ApiRateState_default 0 0 0 0.

Definition construct : M Srv unit :=
  s ← self;
  let config := srv_config s in
  token ← random_token 12;
  srv_update (fun s => s <| srv_service_instance_id := "service-" +:+ token |>);;
  lift (check_server_limits config);;
  proxies ← lift (trusted_proxies config);
  srv_update (fun s => s <| srv_trusted_proxy_addresses := proxies |>);;
  lift (check_server_identities config);;
  audit "signaling_service_started"
    (j_object
       [("runtime", j_string "cpp");
        ("native_control_trace_commands", j_bool (sgc_native_control_trace_commands config));
        ("audit_log_max_bytes", j_int (sgc_audit_log_max_bytes config));
        ("audit_log_files", j_int (sgc_audit_log_files config));
        ("audit_log_rotation_interval_ms", j_int (sgc_audit_log_rotation_interval_ms config));
        ("audit_log_retention_days", j_int (sgc_audit_log_retention_days config))]).

(** [SignalingService(config)] on the machine [host]. *)
Definition new_SignalingService (config : SignalingServerConfig) (host : W) :
    result unit * Srv :=
  construct (mkSignalingProcess (empty_state config) (-1) (-1) "" host).

(** ** Executions *)

(** One pass of the reaper; an exception there ends the program. *)
Definition reap : M Srv unit := now ← now_ms; cleanup_expired_connections now.

(** A step holds the mutex once, but for a request that starts an export of logs: between its
    two sections, of which the first only reads, others may come.  Then [SrvBeginExport] is
    the second by itself, whatever the first has read. *)
Inductive server_op : Type :=
| SrvRateLimit (request : HttpRequest)
| SrvDispatch (request : HttpRequest)
| SrvWsOpen (session_id : string) (request : HttpRequest)
| SrvWsPoll (conn : WsConnection)
| SrvWsReceive (conn : WsConnection) (message : json)
| SrvReap
| SrvElapse (change : W -> W)   (* the machine moves on by itself *)
| SrvBeginExport (record : json) (vehicle driver : string).

Definition server_step (op : server_op) (s : Srv) : Srv :=
  match op with
  | SrvRateLimit request => (rate_limit request s).2
  | SrvDispatch request => (dispatch request s).2
  | SrvWsOpen session_id request => (ws_open session_id request s).2
  | SrvWsPoll conn => (ws_poll conn s).2
  | SrvWsReceive conn message => (ws_receive conn message s).2
  | SrvReap => (reap s).2
  | SrvElapse change => s <| srv_host ::= change |>
  | SrvBeginExport record vehicle driver => (logs_begin_export record vehicle driver s).2
  end.

Definition server_run (ops : list server_op) (s : Srv) : Srv :=
  foldl (fun s op => server_step op s) s ops.
End service.
