(* ===== verification/SignalingFrames.v ===== *)
(** SignalingFrames: how the operations of the signaling server change its state.

    - [silent]: computations that leave the members alone (clocks, random bytes, the
      audit log, the answers);
    - [session_frame]: the closure conditions under which a predicate on the members
      survives every operation that does not grant control, and one preservation lemma
      per operation. *)
From S2P Require Export SignalingService.

Section frames.
Context {J : JsonApi} {W : Type} {Host : SignalingHost J W} {Logs : SessionLogs J W}.
Notation State := (SignalingState J).
Notation Srv := (SignalingProcess J W).

(** A predicate on the members, on a process. *)
Definition members (I : State -> Prop) : Srv -> Prop := fun p => I (srv_state p).

(** ** Computations that do not touch the members *)

Definition silent {A} (m : M Srv A) : Prop := forall p, srv_state (m p).2 = srv_state p.

Lemma silent_keeps {A} I (m : M Srv A) : silent m -> keeps (members I) m.
Proof. intros Hm p H. unfold members. by rewrite Hm. Qed.

Lemma silent_ret {A} (a : A) : silent (mret a).
Proof. by intros p. Qed.

Lemma silent_throw {A} e : silent (throw (A := A) e).
Proof. by intros p. Qed.

Lemma silent_lift {A} (r : result A) : silent (lift r).
Proof. by intros p. Qed.

Lemma silent_gets {A} (f : Srv -> A) : silent (gets f).
Proof. by intros p. Qed.

Lemma silent_bind {A B} (m : M Srv A) (f : A -> M Srv B) :
  silent m -> (forall a, silent (f a)) -> silent (m ≫= f).
Proof.
  intros Hm Hf p. specialize (Hm p). unfold mbind, M_bind.
  destruct (m p) as [[a | e] p']; simpl in *; [by rewrite Hf | done].
Qed.

Lemma silent_try {A} (m : M Srv A) h :
  silent m -> (forall e, silent (h e)) -> silent (try_catch m h).
Proof.
  intros Hm Hh p. specialize (Hm p). unfold try_catch.
  destruct (m p) as [[a | e] p']; simpl in *; [done | by rewrite Hh].
Qed.

Lemma silent_when b (m : M Srv unit) : silent m -> silent (when b m).
Proof. intros Hm. by destruct b. Qed.

Lemma silent_on_host {A} (m : M W A) : silent (on_host m).
Proof. intros p. unfold on_host, zoom. by destruct (m (srv_host p)). Qed.

(** What is known of the answer of a silent step helps the rest. *)
Lemma keeps_silent_bind {A B} I (P : A -> Prop) (m : M Srv A) (f : A -> M Srv B) :
  silent m -> (forall p, match (m p).1 with Ok a => P a | Throw _ => True end) ->
  (forall a, P a -> keeps (members I) (f a)) -> keeps (members I) (m ≫= f).
Proof.
  intros Hm HP Hf p H. specialize (Hm p). specialize (HP p). unfold mbind, M_bind, members in *.
  destruct (m p) as [[a | e] p']; simpl in *; rewrite <- Hm in H; [by apply Hf | done].
Qed.

Lemma silent_modify f : (forall p, srv_state (f p) = srv_state p) -> silent (modify f).
Proof. intros Hf p. apply Hf. Qed.
End frames.

#[export] Hint Resolve silent_ret silent_throw silent_lift silent_gets silent_on_host
  : silent.

Ltac silent_step :=
  match goal with
  | |- forall _, _ => intro
  | |- silent (mbind _ _) => apply silent_bind
  | |- silent (try_catch_std _ _) => apply silent_try
  | |- silent (try_catch _ _) => apply silent_try
  | |- silent (when _ _) => apply silent_when
  | |- silent (modify _) => apply silent_modify; reflexivity
  | |- silent (if ?b then _ else _) => destruct b
  | |- silent (match ?x with _ => _ end) => destruct x
  | |- silent _ => solve [eauto with silent]
  end.
Ltac silent_auto := repeat silent_step.

Section silent_operations.
Context {J : JsonApi} {W : Type} {Host : SignalingHost J W} {Logs : SessionLogs J W}.
Notation State := (SignalingState J).
Notation Srv := (SignalingProcess J W).

Lemma silent_self : silent (W := W) self.
Proof. unfold self. silent_auto. Qed.

Lemma silent_now_ms : silent (now_ms (W := W)).
Proof. unfold now_ms, read_clock. silent_auto. Qed.

Lemma silent_steady_now : silent (steady_now (W := W)).
Proof. unfold steady_now, read_clock. silent_auto. Qed.

Lemma silent_monotonic : silent (monotonic_now_ms (W := W)).
Proof. pose proof silent_steady_now. unfold monotonic_now_ms. silent_auto. Qed.

Lemma silent_random_token n : silent (random_token (W := W) n).
Proof. unfold random_token. silent_auto. Qed.

Lemma silent_audit event details : silent (audit (W := W) event details).
Proof.
  pose proof silent_self. pose proof silent_now_ms.
  unfold audit, audit_line, enter_log_period. silent_auto.
Qed.

Lemma silent_try_audit event details : silent (try_audit (W := W) event details).
Proof. pose proof (silent_audit event details). unfold try_audit. silent_auto. Qed.

Lemma silent_approval_fields approval : silent (approval_fields (W := W) approval).
Proof. pose proof silent_steady_now. unfold approval_fields. silent_auto. Qed.

Lemma silent_approval_json approval : silent (MobileApproval_to_json (W := W) approval).
Proof.
  pose proof (silent_approval_fields approval). unfold MobileApproval_to_json. silent_auto.
Qed.

Lemma silent_throw_approval {A} m i approval : silent (throw_approval (W := W) (A := A) m i approval).
Proof. pose proof (silent_approval_fields approval). unfold throw_approval. silent_auto. Qed.

Lemma silent_session_at id : silent (session_at (W := W) id).
Proof. pose proof silent_self. unfold session_at. silent_auto. Qed.

Lemma silent_approval_at id : silent (approval_at (W := W) id).
Proof. pose proof silent_self. unfold approval_at. silent_auto. Qed.

Lemma silent_presence_at map id : silent (presence_at (J := J) (W := W) map id).
Proof. unfold presence_at. silent_auto. Qed.

Lemma silent_remember session t : silent (remember_log_session (W := W) session t).
Proof. pose proof silent_self. unfold remember_log_session. silent_auto. Qed.

Lemma silent_require_participant id actor : silent (require_participant (W := W) id actor).
Proof.
  pose proof silent_self. unfold require_participant, require_active_session. silent_auto.
Qed.

Lemma silent_device_token v t : silent (validate_device_token (W := W) v t).
Proof. pose proof silent_self. unfold validate_device_token. silent_auto. Qed.

Lemma silent_metadata session m : silent (validate_message_metadata (J := J) (W := W) session m).
Proof. unfold validate_message_metadata. silent_auto. Qed.

Lemma silent_requires_approval v : silent (requires_approval (W := W) v).
Proof. pose proof silent_self. unfold requires_approval. silent_auto. Qed.

Lemma silent_respond status fields : silent (respond (W := W) status fields).
Proof. unfold respond. silent_auto. Qed.

Lemma silent_respond_session b session : silent (respond_session (W := W) b session).
Proof. unfold respond_session. silent_auto. Qed.

Lemma silent_respond_approval approval : silent (respond_approval (W := W) approval).
Proof. pose proof (silent_approval_json approval). unfold respond_approval. silent_auto. Qed.

Lemma silent_approval_ended v a : silent (approval_ended (W := W) v a).
Proof.
  pose proof silent_self. pose proof silent_steady_now. unfold approval_ended. silent_auto.
Qed.

Lemma silent_audit_offline e k id g r : silent (audit_offline (W := W) e k id g r).
Proof. unfold audit_offline. apply silent_audit. Qed.
End silent_operations.

#[export] Hint Resolve silent_self silent_now_ms silent_steady_now silent_monotonic
  silent_random_token silent_audit silent_try_audit silent_approval_fields silent_approval_json
  silent_throw_approval silent_session_at silent_approval_at silent_presence_at silent_remember
  silent_require_participant silent_device_token silent_metadata silent_requires_approval
  silent_respond silent_respond_session silent_respond_approval silent_approval_ended
  silent_audit_offline : silent.

Section more_silent_operations.
Context {J : JsonApi} {W : Type} {Host : SignalingHost J W} {Logs : SessionLogs J W}.
Notation Srv := (SignalingProcess J W).

Lemma silent_check_named d f r : silent (check_named_approval (W := W) d f r).
Proof. unfold check_named_approval. silent_auto. Qed.

Lemma silent_check_grant d v : silent (check_grant (W := W) d v).
Proof. unfold check_grant. silent_auto. Qed.

Lemma silent_not_found : silent (not_found_response (W := W)).
Proof. unfold not_found_response. silent_auto. Qed.

Lemma silent_respond_event e s : silent (respond_event (W := W) e s).
Proof. unfold respond_event. silent_auto. Qed.

Lemma silent_respond_online v g p : silent (respond_online (W := W) v g p).
Proof. unfold respond_online. silent_auto. Qed.

Lemma silent_respond_relay s q d : silent (respond_relay_usage (W := W) s q d).
Proof. unfold respond_relay_usage. silent_auto. Qed.

Lemma silent_approvals_json vs : silent (approvals_json (W := W) vs).
Proof. induction vs as [| v vs IH]; simpl; silent_auto. Qed.

Lemma silent_mobile_requests : silent (mobile_requests (W := W)).
Proof. pose proof silent_approvals_json. unfold mobile_requests. silent_auto. Qed.

Lemma silent_get_health : silent (get_health (W := W)).
Proof. unfold get_health. silent_auto. Qed.

Lemma silent_get_time r : silent (get_time (W := W) r).
Proof. unfold get_time. silent_auto. Qed.

Lemma silent_turn_server c s a : silent (turn_server (W := W) c s a).
Proof. unfold turn_server. silent_auto. Qed.

Lemma silent_error_response e : silent (error_response (W := W) e).
Proof. unfold error_response. silent_auto. Qed.

Lemma silent_ws_refusal e : silent (ws_refusal (J := J) (W := W) e).
Proof. unfold ws_refusal. silent_auto. Qed.
End more_silent_operations.

#[export] Hint Resolve silent_check_named silent_check_grant silent_not_found
  silent_respond_event silent_respond_online silent_respond_relay silent_mobile_requests
  silent_get_health silent_get_time silent_turn_server silent_error_response
  silent_ws_refusal : silent.

(** ** Changes that grant nothing *)

(** What may happen to a session that is not being granted: it stops or closes, loses its
    token, is renewed or reports usage; who it belongs to stays. *)
Definition session_moves (x y : Session) : Prop :=
  sess_session_id y = sess_session_id x /\ sess_vehicle_id y = sess_vehicle_id x /\
  sess_driver_id y = sess_driver_id x /\
  sess_started_at_utc_ms y = sess_started_at_utc_ms x /\
  (sess_state y = sess_state x \/
   sess_state y = Stopping /\ sess_state x <> Closed \/ sess_state y = Closed) /\
  (sess_control_token y = sess_control_token x \/ sess_control_token y = ""%string).

#[export] Instance session_moves_refl : Reflexive session_moves.
Proof. intros x. unfold session_moves. tauto. Qed.

(** An approval that is not being given. *)
Definition approvals_move (before after : gmap string MobileApproval) : Prop :=
  forall vehicle_id y, after !! vehicle_id = Some y -> ap_state y = "approved"%string ->
  before !! vehicle_id = Some y.

Section changes.
Context {J : JsonApi} {W : Type} {Host : SignalingHost J W} {Logs : SessionLogs J W}.
Notation State := (SignalingState J).
Notation Srv := (SignalingProcess J W).

(** Neither sessions nor approvals change. *)
Definition same_grants (s s' : State) : Prop :=
  srv_config s' = srv_config s /\ srv_sessions s' = srv_sessions s /\
  srv_session_counter s' = srv_session_counter s /\
  srv_mobile_approvals s' = srv_mobile_approvals s.

Inductive change (s : State) : State -> Prop :=
| change_other s' : same_grants s s' -> change s s'
| change_session id f :
    (forall x, srv_sessions s !! id = Some x -> session_moves x (f x)) ->
    change s (s <| srv_sessions ::= alter f id |>)
| change_approvals f :
    approvals_move (srv_mobile_approvals s) (f (srv_mobile_approvals s)) ->
    change s (s <| srv_mobile_approvals ::= f |>).

Definition closed_under_changes (I : State -> Prop) : Prop := forall s s', change s s' -> I s -> I s'.

(** The predicate does not look beyond sessions and approvals. *)
Definition about_grants (I : State -> Prop) : Prop := forall s s', same_grants s s' -> I s -> I s'.

Lemma changes_about_grants I : closed_under_changes I -> about_grants I.
Proof. intros HI s s' H. apply HI. by apply change_other. Qed.

Lemma keeps_other I f :
  about_grants I -> (forall s, same_grants s (f s)) -> keeps (members (W := W) I) (srv_update f).
Proof. intros HI Hf p H. eapply HI, H. apply Hf. Qed.

Lemma keeps_for_each I {A} (xs : list A) body :
  (forall x, keeps (members I) (body x)) -> keeps (members (W := W) I) (for_each xs body).
Proof.
  intros Hb. induction xs as [| x xs IH]; simpl; [apply keeps_ret |].
  apply keeps_bind; [apply Hb | by intros _].
Qed.

Context (I : State -> Prop) (HI : closed_under_changes I).

Lemma keeps_update f : (forall s, I s -> change s (f s)) -> keeps (members (W := W) I) (srv_update f).
Proof. intros Hf p H. eapply HI, H. by apply Hf. Qed.

Lemma keeps_update_session id f :
  (forall x, session_moves x (f x)) -> keeps (members (W := W) I) (update_session id f).
Proof. intros Hf. apply keeps_update. intros s _. apply change_session. intros x _. apply Hf. Qed.

Lemma keeps_set_approval vehicle_id approval :
  ap_state approval <> "approved"%string ->
  keeps (members (W := W) I) (set_approval vehicle_id approval).
Proof.
  intros Ha. apply keeps_update. intros s _. apply change_approvals.
  intros v y. destruct (decide (v = vehicle_id)) as [-> | Hv].
  - by rewrite lookup_insert_eq; intros [= <-].
  - by rewrite lookup_insert_ne.
Qed.

End changes.

(** Uses a silent step, or descends into the syntax. *)
Ltac srv_keeps_step :=
  match goal with
  | |- forall _, _ => intro
  | |- keeps _ (if ?b then _ else _) => let E := fresh "E" in destruct b eqn:E
  | |- keeps _ (match ?x with _ => _ end) => let E := fresh "E" in destruct x eqn:E
  | |- keeps _ (mret _) => apply keeps_ret
  | |- keeps _ (throw _) => apply keeps_throw
  | |- keeps _ (for_each _ _) => apply keeps_for_each
  | |- keeps _ (try_catch_std _ _) => apply keeps_try_std
  | |- keeps _ (try_catch _ _) => apply keeps_try
  | |- keeps _ (srv_update _) => apply keeps_other; [solve [eauto using changes_about_grants] | by repeat split]
  | |- keeps _ (update_session _ _) =>
      apply keeps_update_session; [assumption | intro; unfold session_moves; simpl; tauto]
  | |- keeps _ (set_approval _ _) => apply keeps_set_approval; [assumption | done]
  | |- keeps (members _) _ => solve [apply silent_keeps; eauto with silent]
  | |- keeps _ (mbind _ _) => apply keeps_bind
  | |- keeps _ (when _ _) => apply keeps_when
  | |- keeps _ _ => solve [eauto with srv_keeps]
  end.
Ltac srv_keeps := repeat srv_keeps_step.
Create HintDb srv_keeps.

#[export] Hint Resolve changes_about_grants : srv_keeps.

(** *** Operations that leave sessions and approvals alone *)

Section same_operations.
Context {J : JsonApi} {W : Type} {Host : SignalingHost J W} {Logs : SessionLogs J W}.
Notation State := (SignalingState J).
Notation Srv := (SignalingProcess J W).
Context (I : State -> Prop) (HI : about_grants I).
Notation Keeps := (keeps (members (W := W) I)).

Lemma driver_token_keeps d t : Keeps (validate_driver_token d t).
Proof. unfold validate_driver_token. srv_keeps. Qed.

Lemma vehicle_connection_keeps v t g : Keeps (validate_vehicle_connection v t g).
Proof. unfold validate_vehicle_connection. srv_keeps. Qed.

Lemma actor_keeps session actor value : Keeps (validate_actor_credential session actor value).
Proof.
  pose proof driver_token_keeps. pose proof vehicle_connection_keeps.
  unfold validate_actor_credential. srv_keeps.
Qed.

Lemma login_limit_keeps d t b : Keeps (enforce_login_rate_limit d t b).
Proof. unfold enforce_login_rate_limit. srv_keeps. Qed.

Lemma login_failure_keeps d t b : Keeps (record_login_failure d t b).
Proof. unfold record_login_failure. srv_keeps. Qed.

Lemma clear_failures_keeps d b : Keeps (clear_login_failures d b).
Proof. unfold clear_login_failures. srv_keeps. Qed.

Lemma same_cleanup_logins t (s : State) : same_grants s (cleanup_approver_logins t s).
Proof. unfold cleanup_approver_logins. destruct (approver_cleanup_due t s); by repeat split. Qed.

Lemma login_bucket_keeps r t : Keeps (approver_login_bucket r t).
Proof.
  unfold approver_login_bucket. apply keeps_bind; [| srv_keeps].
  apply keeps_other; [done | apply same_cleanup_logins].
Qed.

Lemma same_api_bucket b st (s : State) : same_grants s (set_api_bucket b st s).
Proof. destruct b; by repeat split. Qed.

Lemma same_limited (s : State) :
  same_grants s (if srv_api_rate_limited_requests s <? max_u64
                 then s <| srv_api_rate_limited_requests ::= Z.succ |> else s).
Proof. destruct (_ <? _); by repeat split. Qed.

Lemma api_limit_keeps r t : Keeps (enforce_api_rate_limit r t).
Proof.
  unfold enforce_api_rate_limit. srv_keeps;
    (apply keeps_other; [done | first [apply same_api_bucket | apply same_limited]]).
Qed.

Lemma admit_keeps id v a : Keeps (admit_message id v a).
Proof. pose proof actor_keeps. unfold admit_message. srv_keeps. Qed.

Lemma replayed_keeps id m f : Keeps (replayed_message id m f).
Proof. unfold replayed_message. srv_keeps. Qed.

Lemma same_store k m (s : State) : same_grants s (store_message k m s).2.
Proof. unfold store_message. destruct (is_control _); by repeat split. Qed.

Lemma accept_keeps id m f a b : Keeps (accept_message id m f a b).
Proof.
  unfold accept_message, next_cursor. do 3 (apply keeps_bind; [srv_keeps | intro]).
  intros p H. unfold mbind, M_bind, self, gets. cbv beta iota zeta.
  set (message := mkMessage _ _ _ _ _ _ _ _).
  pose proof (same_store (message_key id (ad_recipient m)) message (srv_state p)) as Hs.
  destruct (store_message _ _ _) as [queued s']. simpl in Hs |- *.
  unfold members. simpl. eapply HI; [| eapply HI, H; exact Hs]. by repeat split.
Qed.

Lemma enqueue_keeps id v a : Keeps (enqueue_signaling_message id v a).
Proof.
  pose proof admit_keeps. pose proof replayed_keeps. pose proof accept_keeps.
  unfold enqueue_signaling_message. srv_keeps.
Qed.

Lemma same_expire n k (s : State) : same_grants s (expire_messages n k s).
Proof. unfold expire_messages. repeat case_match; by repeat split. Qed.

Lemma same_consume r k (s : State) : same_grants s (consume_messages r k s).
Proof. unfold consume_messages. repeat case_match; by repeat split. Qed.

Lemma take_keeps id r t c : Keeps (take_signaling_messages id r t c).
Proof.
  unfold take_signaling_messages. srv_keeps;
    (apply keeps_other; [done | first [apply same_expire | apply same_consume]]).
Qed.

Lemma acknowledge_keeps id r c b : Keeps (acknowledge_signaling_messages id r c b).
Proof. unfold acknowledge_signaling_messages. srv_keeps. Qed.
End same_operations.

#[export] Hint Resolve driver_token_keeps vehicle_connection_keeps actor_keeps login_limit_keeps
  login_failure_keeps clear_failures_keeps login_bucket_keeps api_limit_keeps enqueue_keeps
  take_keeps acknowledge_keeps : srv_keeps.

(** *** Operations that may end sessions and approvals *)

Section session_operations.
Context {J : JsonApi} {W : Type} {Host : SignalingHost J W} {Logs : SessionLogs J W}.
Notation State := (SignalingState J).
Notation Srv := (SignalingProcess J W).
Context (I : State -> Prop) (HI : closed_under_changes I).
Notation Keeps := (keeps (members (W := W) I)).

(** Reading a session says which one it is. *)
Lemma keeps_session_at {B} id (k : Session -> M Srv B) :
  (forall session,
     leads (members (fun s => I s /\ srv_sessions s !! id = Some session)) (members I) (k session)) ->
  Keeps (session_at id ≫= k).
Proof.
  intros Hk p H. unfold session_at, self, gets, mbind, M_bind.
  destruct (srv_sessions (srv_state p) !! id) as [session |] eqn:E; [| done].
  by apply Hk.
Qed.

Lemma transition_keeps id next reason :
  next = Stopping \/ next = Closed -> Keeps (transition_session id next reason).
Proof.
  intros Hnext. unfold transition_session. apply keeps_session_at. intros session p [H Hs].
  destruct (bool_decide _) eqn:E1; [done |]. apply bool_decide_eq_false in E1.
  destruct (transition_allowed _ _) eqn:E2; simpl negb; [| done].
  refine (silent_keeps I (audit _ _) (silent_audit _ _) _ _). unfold members. simpl. eapply HI, H. apply change_session. intros x Hx.
  rewrite Hs in Hx. injection Hx as <-. unfold session_moves. simpl. split_and!; try tauto.
  destruct Hnext as [-> | ->]; [| tauto]. right. left. split; [done |].
  intros Hc. by rewrite Hc in E2.
Qed.

Lemma close_session_keeps id reason : Keeps (close_session id reason).
Proof.
  pose proof transition_keeps as Ht. unfold close_session. apply keeps_bind; [srv_keeps |].
  intros session. srv_keeps.
Qed.

Lemma for_sessions_keeps test body :
  (forall id, Keeps (body id)) -> Keeps (for_sessions test body).
Proof. intros Hb. unfold for_sessions. srv_keeps. Qed.

Lemma close_for_vehicle_keeps v reason : Keeps (close_sessions_for_vehicle v reason).
Proof. apply for_sessions_keeps. intros id. apply close_session_keeps. Qed.

Lemma close_for_driver_keeps d reason : Keeps (close_sessions_for_driver d reason).
Proof. apply for_sessions_keeps. intros id. apply close_session_keeps. Qed.
End session_operations.

#[export] Hint Resolve
  close_session_keeps close_for_vehicle_keeps close_for_driver_keeps : srv_keeps.

Section cleanup.
Context {J : JsonApi} {W : Type} {Host : SignalingHost J W} {Logs : SessionLogs J W}.
Notation State := (SignalingState J).
Notation Srv := (SignalingProcess J W).
Context (I : State -> Prop) (HI : closed_under_changes I).
Notation Keeps := (keeps (members (W := W) I)).

Lemma approval_ended_cases v a (p : Srv) :
  match (approval_ended v a p).1 with
  | Ok answer => match answer with
                 | Some next => next = "cancelled"%string \/ next = "expired"%string
                 | None => True
                 end
  | Throw _ => True
  end.
Proof.
  unfold approval_ended, self, gets, steady_now, read_clock, on_host, zoom, mbind, M_bind. simpl.
  destruct (approval_orphaned _ _ _); simpl; [by left |].
  destruct (host_steady_ns _) as [t w]. simpl. destruct (_ <=? _); [by right | done].
Qed.

Lemma cleanup_approvals_keeps : Keeps cleanup_mobile_approvals.
Proof.
  unfold cleanup_mobile_approvals. apply keeps_bind; [srv_keeps | intros s].
  apply keeps_bind; [| srv_keeps]. apply keeps_for_each; [intros [v a]].
  destruct (approval_is_live a); simpl negb; [| srv_keeps].
  apply (keeps_silent_bind _ _ _ _ (silent_approval_ended v a) (approval_ended_cases v a)).
  intros [next |] Hn; [| srv_keeps]. cbv zeta. apply keeps_bind; [| srv_keeps].
  apply keeps_set_approval; [done |]. simpl. by destruct Hn as [-> | ->].
Qed.

Lemma expire_token_keeps t e : Keeps (expire_driver_token t e).
Proof. unfold expire_driver_token. srv_keeps. Qed.

Lemma expire_leases_keeps t : Keeps (expire_leases t).
Proof. unfold expire_leases. apply for_sessions_keeps. srv_keeps. Qed.

Lemma expire_vehicle_keeps t e : Keeps (expire_vehicle t e).
Proof. unfold expire_vehicle. srv_keeps. Qed.

Lemma expire_driver_keeps t e : Keeps (expire_driver t e).
Proof. unfold expire_driver. srv_keeps. Qed.

Lemma cleanup_keeps t : Keeps (cleanup_expired_connections t).
Proof.
  pose proof cleanup_approvals_keeps. pose proof expire_token_keeps.
  pose proof expire_leases_keeps. pose proof expire_vehicle_keeps. pose proof expire_driver_keeps.
  unfold cleanup_expired_connections. srv_keeps.
Qed.
End cleanup.

#[export] Hint Resolve cleanup_approvals_keeps cleanup_keeps : srv_keeps.

(** *** Requests *)

Section requests.
Context {J : JsonApi} {W : Type} {Host : SignalingHost J W} {Logs : SessionLogs J W}.
Notation State := (SignalingState J).
Notation Srv := (SignalingProcess J W).
Context (I : State -> Prop) (HI : closed_under_changes I).
Notation Keeps := (keeps (members (W := W) I)).

Lemma request_approval_keeps d v : Keeps (request_mobile_approval d v).
Proof. unfold request_mobile_approval. srv_keeps. Qed.

Lemma require_approval_keeps d v r : Keeps (require_mobile_approval d v r).
Proof. pose proof request_approval_keeps. unfold require_mobile_approval. srv_keeps. Qed.

Lemma consume_approval_keeps d v value : Keeps (consume_approval d v value).
Proof. pose proof require_approval_keeps. unfold consume_approval. srv_keeps. Qed.

Lemma admin_keeps path value : Keeps (post_admin path value).
Proof.
  unfold post_admin, post_revoke_driver, post_restore_driver, post_revoke_vehicle,
    post_restore_vehicle. srv_keeps.
Qed.

Lemma driver_login_keeps value : Keeps (post_driver_login value).
Proof. unfold post_driver_login. srv_keeps. Qed.

Lemma driver_heartbeat_keeps value : Keeps (post_driver_heartbeat value).
Proof. unfold post_driver_heartbeat. srv_keeps. Qed.

Lemma driver_logout_keeps value : Keeps (post_driver_logout value).
Proof. unfold post_driver_logout. srv_keeps. Qed.

Lemma vehicle_connects_keeps v c t o : Keeps (vehicle_connects v c t o).
Proof. unfold vehicle_connects. srv_keeps. Qed.

Lemma vehicle_online_keeps value : Keeps (post_vehicle_online value).
Proof. pose proof vehicle_connects_keeps. unfold post_vehicle_online. srv_keeps. Qed.

Lemma vehicle_heartbeat_keeps value : Keeps (post_vehicle_heartbeat value).
Proof. unfold post_vehicle_heartbeat. srv_keeps. Qed.

Lemma vehicle_offline_keeps value : Keeps (post_vehicle_offline value).
Proof. unfold post_vehicle_offline. srv_keeps. Qed.

Lemma close_approved_keeps a : Keeps (close_approved_session a).
Proof. unfold close_approved_session. srv_keeps. Qed.

Lemma approval_cancel_keeps value : Keeps (post_approval_cancel value).
Proof. pose proof close_approved_keeps. unfold post_approval_cancel. srv_keeps. Qed.

Lemma acting_keeps id value : Keeps (acting_participant id value).
Proof. unfold acting_participant. srv_keeps. Qed.

Lemma renew_keeps id value : Keeps (post_renew id value).
Proof. unfold post_renew. srv_keeps. Qed.

Lemma end_keeps id value : Keeps (post_end id value).
Proof. pose proof acting_keeps. unfold post_end. srv_keeps. Qed.

Lemma revoke_authority_keeps id value : Keeps (post_revoke_authority id value).
Proof. pose proof acting_keeps. unfold post_revoke_authority. srv_keeps. Qed.

(** The session a participant acts on is the one the table holds. *)
Lemma acting_session id value (p : Srv) :
  match acting_participant id value p with
  | (Ok (_, session), p') => srv_sessions (srv_state p') !! id = Some session
  | (Throw _, _) => True
  end.
Proof.
  unfold acting_participant, mbind, M_bind, lift.
  destruct (required_string _ _) as [actor | e]; [| done].
  unfold require_participant, require_active_session, self, gets, mbind, M_bind.
  destruct (srv_sessions (srv_state p) !! id) as [session |] eqn:E; [| done].
  destruct (negb _); [done |]. simpl. destruct (_ && _); [done |]. simpl.
  pose proof (actor_keeps (fun s => srv_sessions s !! id = Some session)) as Hk.
  specialize (Hk (fun s s' '(conj _ (conj Hs _)) H => eq_trans (f_equal _ Hs) H) session actor value p E).
  by destruct (validate_actor_credential session actor value p) as [[[] | e] p'].
Qed.

Lemma add_relay_moves sample session after :
  add_relay_usage sample session = Ok after ->
  forall f, session_moves session (after <| sess_last_relay_usage_by_actor ::= f |>).
Proof.
  unfold add_relay_usage. intros H f.
  apply throw_if_seq in H as [_ H]. apply throw_if_seq in H as [_ H]. injection H as <-.
  unfold session_moves. simpl. tauto.
Qed.

Lemma record_usage_leads id actor session value :
  leads (members (W := W) (fun s => I s /\ srv_sessions s !! id = Some session)) (members I)
    (record_turn_usage id actor session value).
Proof.
  set (K := members _). assert (HK : forall p, K p -> members I p) by (intros p H; apply H).
  unfold record_turn_usage.
  repeat (apply leads_bind; [exact HK | apply silent_keeps; eauto with silent | intro]).
  destruct (_ : bool); [apply leads_keeps; [apply silent_keeps; eauto with silent | exact HK] |].
  intros p Hp. unfold mbind at 1, M_bind at 1, lift at 1.
  destruct (add_relay_usage _ session) as [after | e] eqn:E; [| apply Hp]. revert p Hp.
  apply leads_bind; [exact HK | apply silent_keeps; eauto with silent | intros _].
  apply (leads_then _ (members I)); [| intros _; apply silent_keeps; eauto with silent].
  intros p [H Hs]. unfold members. simpl. eapply HI, H. apply change_session.
  intros x Hx. rewrite Hs in Hx. injection Hx as <-. by eapply add_relay_moves.
Qed.

Lemma turn_usage_keeps id value : Keeps (post_turn_usage id value).
Proof.
  unfold post_turn_usage. intros p H.
  pose proof (acting_session id value p) as Hs. pose proof (acting_keeps id value p H) as Hk.
  unfold mbind at 1, M_bind at 1.
  destruct (acting_participant id value p) as [[[actor session] | e] p']; [| done].
  by apply record_usage_leads.
Qed.

Lemma session_action_keeps id action value : Keeps (post_session_action id action value).
Proof.
  pose proof acting_keeps. pose proof renew_keeps. pose proof end_keeps.
  pose proof turn_usage_keeps. unfold post_session_action.
  unfold post_webrtc_connection, post_abnormal_disconnect, post_diagnostics, post_control_timeout,
    post_estop, post_turn_relay.
  srv_keeps.
Qed.

(** Every POST request but the one that asks for control. *)
Lemma post_keeps path parts value :
  path <> "/sessions"%string -> Keeps (dispatch_post path parts value).
Proof.
  intros Hp.
  pose proof admin_keeps. pose proof driver_login_keeps. pose proof driver_heartbeat_keeps.
  pose proof driver_logout_keeps. pose proof vehicle_online_keeps.
  pose proof vehicle_heartbeat_keeps. pose proof vehicle_offline_keeps.
  pose proof approval_cancel_keeps. pose proof session_action_keeps.
  pose proof revoke_authority_keeps. unfold dispatch_post.
  repeat (case_match; [solve [eauto | exfalso; apply Hp; by apply String.eqb_eq] |]).
  srv_keeps.
Qed.

Lemma mobile_login_keeps request : Keeps (mobile_login request).
Proof. unfold mobile_login. srv_keeps. Qed.

Lemma mobile_logout_keeps token id : Keeps (mobile_logout token id).
Proof. unfold mobile_logout. srv_keeps. Qed.

(** The phone's API but for its decisions. *)
Lemma mobile_keeps request :
  (forall id request_id, Keeps (mobile_decision id request_id request)) ->
  Keeps (handle_mobile_api request).
Proof.
  intros Hd. pose proof mobile_login_keeps. pose proof mobile_logout_keeps.
  unfold handle_mobile_api. srv_keeps.
Qed.

Lemma querying_keeps id request : Keeps (querying_participant id request).
Proof. unfold querying_participant. srv_keeps. Qed.

Lemma get_keeps request : Keeps (handle_get request).
Proof.
  pose proof querying_keeps.
  unfold handle_get, dispatch_get, get_driver_vehicles, get_messages, get_vehicle_session,
    get_ice_servers. srv_keeps.
Qed.

Lemma begin_export_keeps record vehicle driver : Keeps (logs_begin_export record vehicle driver).
Proof. unfold logs_begin_export. srv_keeps. Qed.

Lemma logs_keeps request : Keeps (handle_diagnostics request).
Proof.
  pose proof begin_export_keeps.
  unfold handle_diagnostics, logs_of_vehicle, logs_start_export, logs_export. srv_keeps.
Qed.

Lemma rate_limit_keeps request : Keeps (rate_limit request).
Proof. unfold rate_limit. srv_keeps. Qed.

(** A dispatched request, when its request for control and its decision keep [I]. *)
Lemma dispatch_keeps request :
  (http_method request = "POST"%string -> http_path request = "/sessions"%string ->
   forall value, HttpRequest_json_body request = Ok value -> Keeps (post_sessions value)) ->
  (forall id request_id, Keeps (mobile_decision id request_id request)) ->
  Keeps (dispatch request).
Proof.
  intros Hs Hd. pose proof logs_keeps. pose proof (mobile_keeps request Hd).
  pose proof get_keeps. unfold dispatch.
  apply keeps_if; [intros _; srv_keeps | intros _].
  apply keeps_if; [intros _; srv_keeps | intros _].
  apply keeps_if; [intros _; srv_keeps | intros _].
  apply keeps_if; [intros Hp%String.eqb_eq | intros _; srv_keeps].
  unfold handle_post. intros p HIp. unfold mbind at 1, M_bind at 1, lift at 1.
  destruct (HttpRequest_json_body request) as [value | e] eqn:Ev; [| done]. revert p HIp.
  change (Keeps (parts ← lift (path_parts (http_path request)); now ← now_ms;
                 cleanup_expired_connections now;; dispatch_post (http_path request) parts value)).
  apply keeps_bind; [srv_keeps | intros parts]. apply keeps_bind; [srv_keeps | intros now].
  apply keeps_bind; [srv_keeps | intros _].
  destruct (decide (http_path request = "/sessions"%string)) as [Hpath | Hpath];
    [| by apply post_keeps].
  rewrite Hpath. change (Keeps (post_sessions value)). auto.
Qed.

Lemma ws_authorize_keeps conn : Keeps (ws_authorize conn).
Proof. unfold ws_authorize. srv_keeps. Qed.

Lemma ws_open_keeps id request : Keeps (ws_open id request).
Proof. pose proof ws_authorize_keeps. unfold ws_open, ws_authenticate. srv_keeps. Qed.

Lemma ws_poll_keeps conn : Keeps (ws_poll conn).
Proof. pose proof ws_authorize_keeps. unfold ws_poll, ws_pending. srv_keeps. Qed.

Lemma ws_receive_keeps conn message : Keeps (ws_receive conn message).
Proof.
  pose proof ws_authorize_keeps. unfold ws_receive, ws_acknowledge, ws_submit. srv_keeps.
Qed.

(** A step of the server, when requests for control and decisions keep [I]. *)
Lemma server_step_keeps op :
  (forall value p, members I p -> members I (post_sessions value p).2) ->
  (forall id request_id request, Keeps (mobile_decision id request_id request)) ->
  forall p, members I p -> members I (server_step op p).
Proof.
  intros Hs Hd p H. destruct op; simpl; auto.
  - by apply rate_limit_keeps.
  - apply dispatch_keeps; [intros _ _ value _; exact (Hs value) | intros id rid; apply Hd | done].
  - by apply ws_open_keeps.
  - by apply ws_poll_keeps.
  - by apply ws_receive_keeps.
  - assert (Keeps reap) as Hk by (unfold reap; srv_keeps). by apply Hk.
  - by apply begin_export_keeps.
Qed.
End requests.
