(* ===== verification/SignalingAuthority.v ===== *)
(** SignalingAuthority: what a request for control goes through (server.cpp:3663-3746).

    - [shrinks]: what the checks may do to tokens, connections and approvals;
    - [may_drive]: what a granted request has proved about the driver;
    - [grant_frame]: when a predicate survives the request for control, with
      [post_sessions_leads] as the conclusion; the frames of SignalingFrames cover every
      other operation. *)
From S2P Require Export SignalingFrames.

(** No session of the vehicle is open. *)
Definition vehicle_free {J : JsonApi} (vehicle_id : string) (s : SignalingState J) : Prop :=
  forall id x, srv_sessions s !! id = Some x -> sess_vehicle_id x = vehicle_id ->
  is_open x = false.

Section grants.
Context {J : JsonApi} {W : Type} {Host : SignalingHost J W} {Logs : SessionLogs J W}.
Context {HL : HashLaws J W}.
Notation State := (SignalingState J).
Notation Srv := (SignalingProcess J W).

Lemma moves_open x y : session_moves x y -> is_open y = true -> is_open x = true.
Proof.
  unfold session_moves, is_open. intros (_ & _ & _ & _ & Hs & _). rewrite !negb_true_iff.
  rewrite !bool_decide_eq_false. intros Hy Hx.
  destruct Hs as [Hs | [[Hs H] | Hs]]; congruence.
Qed.

Lemma lookup_alter_session (m : gmap string Session) f id i y :
  alter f id m !! i = Some y ->
  exists x, m !! i = Some x /\ (y = x \/ i = id /\ y = f x).
Proof.
  destruct (decide (i = id)) as [-> | Hi].
  - rewrite lookup_alter_eq. intros (x & Hx & Hy)%fmap_Some. exists x. auto.
  - rewrite lookup_alter_ne by done. eauto.
Qed.

Lemma vehicle_free_changes v : closed_under_changes (vehicle_free v).
Proof.
  intros s s' Hc H. destruct Hc as [s' (_ & Hs & _) | id f Hf | f Hf]; intros i y Hy Hv.
  - rewrite Hs in Hy. eauto.
  - simpl in Hy. apply lookup_alter_session in Hy as (x & Hx & [-> | [-> ->]]); [eauto |].
    specialize (Hf x Hx). apply not_true_is_false. intros E%(moves_open _ _ Hf).
    destruct Hf as (_ & Hv' & _). rewrite (H _ _ Hx) in E; [done | congruence].
  - eauto.
Qed.

(** ** What is known while a request is checked *)

(** The connections of [m] are connections of [m0]. *)
Definition presence_shrinks (m0 m : gmap string ConnectionPresence) : Prop :=
  forall id y, m !! id = Some y ->
  exists x, m0 !! id = Some x /\ cp_generation x = cp_generation y.

(** Nobody was let in between [s0] and [s]: tokens, connections and approvals only went. *)
Definition shrinks (s0 s : State) : Prop :=
  srv_config s = srv_config s0 /\ srv_revoked_drivers s = srv_revoked_drivers s0 /\
  srv_revoked_vehicles s = srv_revoked_vehicles s0 /\
  srv_driver_tokens s ⊆ srv_driver_tokens s0 /\
  presence_shrinks (srv_online_drivers s0) (srv_online_drivers s) /\
  presence_shrinks (srv_online_vehicles s0) (srv_online_vehicles s) /\
  approvals_move (srv_mobile_approvals s0) (srv_mobile_approvals s).

Lemma presence_refl m : presence_shrinks m m.
Proof. intros id y H. eauto. Qed.

Lemma approvals_refl m : approvals_move m m.
Proof. by intros v y H. Qed.

Lemma presence_shrinks_trans m1 m2 m3 :
  presence_shrinks m1 m2 -> presence_shrinks m2 m3 -> presence_shrinks m1 m3.
Proof.
  intros H1 H2 id z Hz. destruct (H2 _ _ Hz) as (y & Hy & E). destruct (H1 _ _ Hy) as (x & Hx & E').
  exists x. split; [done | congruence].
Qed.

Lemma shrinks_refl s : shrinks s s.
Proof. unfold shrinks. split_and!; auto using presence_refl, approvals_refl. Qed.

Lemma shrinks_trans s1 s2 s3 : shrinks s1 s2 -> shrinks s2 s3 -> shrinks s1 s3.
Proof.
  intros (C1 & D1 & V1 & T1 & O1 & P1 & A1) (C2 & D2 & V2 & T2 & O2 & P2 & A2). split_and!.
  1-3: congruence. 1: by etrans. 1-2: by eapply presence_shrinks_trans.
  intros v y Hy Ha. by apply A1, Ha; apply A2.
Qed.

Lemma presence_delete m id : presence_shrinks m (delete id m).
Proof. intros i y [_ H]%lookup_delete_Some. eauto. Qed.

Lemma presence_alter m (f : ConnectionPresence -> ConnectionPresence) id :
  (forall x, cp_generation (f x) = cp_generation x) -> presence_shrinks m (alter f id m).
Proof.
  intros Hf i y H. destruct (decide (i = id)) as [-> | Hi].
  - rewrite lookup_alter_eq in H. apply fmap_Some in H as (x & Hx & ->). eauto.
  - rewrite lookup_alter_ne in H by done. eauto.
Qed.

Lemma approvals_insert m v a :
  ap_state a <> "approved"%string -> approvals_move m (<[v := a]> m).
Proof.
  intros Ha i y. destruct (decide (i = v)) as [-> | Hi].
  - by rewrite lookup_insert_eq; intros [= <-].
  - by rewrite lookup_insert_ne.
Qed.

Lemma shrinks_keeps s0 f :
  (forall s, shrinks s (f s)) -> keeps (members (W := W) (shrinks s0)) (srv_update f).
Proof. intros Hf p H. eapply shrinks_trans; [exact H | apply Hf]. Qed.

Lemma shrinks_session s0 id f : keeps (members (W := W) (shrinks s0)) (update_session id f).
Proof.
  apply shrinks_keeps. intros s. unfold shrinks. split_and!; simpl;
    auto using presence_refl, approvals_refl.
Qed.

Lemma shrinks_approval s0 v a :
  ap_state a <> "approved"%string -> keeps (members (W := W) (shrinks s0)) (set_approval v a).
Proof.
  intros Ha. apply shrinks_keeps. intros s. unfold shrinks.
  split_and!; simpl; auto using presence_refl, approvals_insert.
Qed.
End grants.

#[export] Hint Resolve presence_refl approvals_refl presence_delete presence_alter
  : shrinks.

(** One step of a preservation proof for [shrinks]: the silent steps, the syntax, the
    updates. *)
Ltac shrink_step :=
  match goal with
  | |- keeps _ (srv_update _) => apply shrinks_keeps; intro; unfold shrinks; split_and!; simpl;
      first [solve [eauto with shrinks] | apply delete_subseteq | apply map_filter_subseteq]
  | |- keeps _ (update_session _ _) => apply shrinks_session
  | |- keeps _ (set_approval _ _) => apply shrinks_approval; done
  | |- _ => srv_keeps_step
  | |- keeps _ _ => solve [eauto with shrinks]
  end.
Ltac shrink_auto := repeat shrink_step.

Section checks.
Context {J : JsonApi} {W : Type} {Host : SignalingHost J W} {Logs : SessionLogs J W}.
Context {HL : HashLaws J W}.
Notation State := (SignalingState J).
Notation Srv := (SignalingProcess J W).
Context (s0 : State).
Notation Keeps := (keeps (members (W := W) (shrinks s0))).

Lemma shrinks_token d t : Keeps (validate_driver_token d t).
Proof. unfold validate_driver_token. shrink_auto. Qed.

Lemma shrinks_close id reason : Keeps (close_session id reason).
Proof. unfold close_session, transition_session. shrink_auto. Qed.

Lemma shrinks_for_sessions test body : (forall id, Keeps (body id)) -> Keeps (for_sessions test body).
Proof. intros Hb. unfold for_sessions. shrink_auto. Qed.

Lemma shrinks_cleanup_approvals : Keeps cleanup_mobile_approvals.
Proof.
  unfold cleanup_mobile_approvals. apply keeps_bind; [shrink_auto | intros s].
  apply keeps_bind; [| shrink_auto]. apply keeps_for_each; [intros [v a]].
  destruct (approval_is_live a); simpl negb; [| shrink_auto].
  apply (keeps_silent_bind _ _ _ _ (silent_approval_ended v a) (approval_ended_cases v a)).
  intros [next |] Hn; [| shrink_auto]. cbv zeta. apply keeps_bind; [| shrink_auto].
  apply shrinks_approval. simpl. by destruct Hn as [-> | ->].
Qed.

Lemma shrinks_cleanup t : Keeps (cleanup_expired_connections t).
Proof.
  pose proof shrinks_cleanup_approvals. pose proof shrinks_close.
  unfold cleanup_expired_connections, expire_driver_token, expire_leases, expire_vehicle, expire_driver,
    close_sessions_for_driver, close_sessions_for_vehicle, for_sessions.
  shrink_auto.
Qed.

Lemma shrinks_require d v r : Keeps (require_mobile_approval d v r).
Proof.
  pose proof shrinks_cleanup_approvals.
  unfold require_mobile_approval, request_mobile_approval. shrink_auto.
Qed.

Lemma shrinks_consume d v value : Keeps (consume_approval d v value).
Proof. pose proof shrinks_require. unfold consume_approval. shrink_auto. Qed.
End checks.

(** ** What the checks establish *)

Section established.
Context {J : JsonApi} {W : Type} {Host : SignalingHost J W} {Logs : SessionLogs J W}.
Context {HL : HashLaws J W}.
Notation State := (SignalingState J).
Notation Srv := (SignalingProcess J W).

(** The token is the driver's, of the connection the driver has now. *)
Definition token_current (s : State) (driver_id token : string) : Prop :=
  driver_id ∉ srv_revoked_drivers s /\
  exists t presence, srv_driver_tokens s !! token = Some t /\ dt_driver_id t = driver_id /\
    srv_online_drivers s !! driver_id = Some presence /\
    cp_generation presence = dt_connection_generation t.

Definition permitted (s : State) (driver_id vehicle_id : string) : Prop :=
  exists vehicles, sgc_driver_vehicle_permissions (srv_config s) !! driver_id = Some vehicles /\
    vehicle_id ∈ vehicles.

Definition protected (s : State) (vehicle_id : string) : Prop :=
  vehicle_id ∈ sgc_mobile_approval_vehicles (srv_config s).

#[export] Instance protected_dec s vehicle_id : Decision (protected s vehicle_id).
Proof. unfold protected. apply _. Defined.

(** A phone approved this driver for the vehicle, on the connections they have now. *)
Definition approval_given (s : State) (driver_id vehicle_id : string) : Prop :=
  exists approval, srv_mobile_approvals s !! vehicle_id = Some approval /\
    ap_state approval = "approved"%string /\ ap_driver_id approval = driver_id /\
    approval_orphaned s vehicle_id approval = false.

(** What a driver needs to be given a vehicle. *)
Record may_drive (s : State) (driver_id vehicle_id token : string) : Prop := {
  md_token : token_current s driver_id token;
  md_permitted : permitted s driver_id vehicle_id;
  md_online : is_Some (srv_online_vehicles s !! vehicle_id);
  md_approved : protected s vehicle_id -> approval_given s driver_id vehicle_id;
}.

Lemma token_ok d t (p : Srv) :
  match validate_driver_token d t p with
  | (Ok _, _) => token_current (srv_state p) d t
  | (Throw _, _) => True
  end.
Proof.
  unfold validate_driver_token, self, gets, mbind, M_bind.
  destruct (bool_decide (d ∈ _)) eqn:Er; [done |]. apply bool_decide_eq_false in Er.
  destruct (string_empty t); [done |].
  destruct (srv_driver_tokens _ !! t) as [found |] eqn:Et; [| done].
  destruct (String.eqb_spec (dt_driver_id found) d) as [Hd |]; [cbn [negb]; cbv beta iota | done].
  pose proof (silent_now_ms p) as Hs. destruct (now_ms p) as [[now |] p1]; [| done]. simpl in Hs.
  destruct (_ <=? _); [done |].
  destruct (srv_online_drivers _ !! d) as [pr |] eqn:Eo; [| done].
  destruct (Z.eqb_spec (cp_generation pr) (dt_connection_generation found)) as [Hg |]; [| done].
  simpl. destruct (now_ms p1) as [[|] ?]; simpl; [| done]. split; [done |]. by exists found, pr.
Qed.

Lemma check_grant_ok d v (p : Srv) :
  match check_grant d v p with
  | (Ok _, _) => permitted (srv_state p) d v /\ is_Some (srv_online_vehicles (srv_state p) !! v)
  | (Throw _, _) => True
  end.
Proof.
  unfold check_grant, self, gets, mbind, M_bind, permitted.
  destruct (sgc_driver_vehicle_permissions _ !! d) as [vs |];
    [destruct (bool_decide (v ∈ vs)) eqn:E |]; try by destruct (audit _ _ p) as [[] ?].
  apply bool_decide_eq_true in E. simpl.
  destruct (bool_decide (is_Some _)) eqn:Eo; [simpl | done]. apply bool_decide_eq_true in Eo.
  destruct (List.find _ _) as [[i y] |]; [by destruct (audit _ _ p) as [[] ?] |].
  split; [by exists vs | done].
Qed.

Lemma hoare_self {B} P (f : State -> M Srv B) Q E :
  (forall p, P p -> hoare (fun q => q = p) (f (srv_state p)) Q E) -> hoare P (self ≫= f) Q E.
Proof. apply hoare_gets. Qed.

(** A loop whose invariant speaks of the elements left. *)
Lemma for_each_left {A} (Inv : list A -> Srv -> Prop) body :
  (forall x l, hoare (Inv (x :: l)) (body x) (fun _ => Inv l) (fun _ => True)) ->
  forall xs, hoare (Inv xs) (for_each xs body) (fun _ => Inv []) (fun _ => True).
Proof.
  intros Hb xs. induction xs as [| x xs IH]; simpl; [by apply hoare_ret |].
  apply (hoare_bind _ (fun _ => Inv xs)); [apply Hb | by intros _].
Qed.

(** The approvals that are live, but for those of [left], are for current connections. *)
Definition approvals_current (left : list (string * MobileApproval)) (s : State) : Prop :=
  forall v a, srv_mobile_approvals s !! v = Some a ->
  (v, a) ∈ left \/ (approval_is_live a = true -> approval_orphaned s v a = false).

Lemma approval_ended_ok v a (p : Srv) :
  match approval_ended v a p with
  | (Ok (Some next), p') => srv_state p' = srv_state p /\ (next = "cancelled" \/ next = "expired")%string
  | (Ok None, p') => srv_state p' = srv_state p /\ approval_orphaned (srv_state p) v a = false
  | (Throw _, _) => True
  end.
Proof.
  pose proof (silent_approval_ended v a p) as Hs. pose proof (approval_ended_cases v a p) as Hc.
  destruct (approval_ended v a p) as [[[next |] |] p'] eqn:E; simpl in *; [done | split; [done |] | done].
  unfold approval_ended, self, gets, mbind, M_bind in E.
  by destruct (approval_orphaned _ v a).
Qed.

Lemma cleanup_step v a left :
  hoare (members (approvals_current ((v, a) :: left)))
    (if negb (approval_is_live a) then mret tt
     else
       next ← approval_ended v a;
       match next with
       | None => mret tt
       | Some next =>
           let approval := a <| ap_state := next |> in
           set_approval v approval;;
           details ← MobileApproval_to_json approval;
           try_audit ("mobile_approval_" +:+ next) details;;
           mret tt
       end)
    (fun _ => members (W := W) (approvals_current left)) (fun _ => True).
Proof.
  assert (Hrest : forall s v' a', approvals_current ((v, a) :: left) s ->
    srv_mobile_approvals s !! v' = Some a' ->
    (v', a') = (v, a) \/ (v', a') ∈ left \/
    (approval_is_live a' = true -> approval_orphaned s v' a' = false)).
  { intros s v' a' H Ha. destruct (H _ _ Ha) as [[? | ?]%elem_of_cons | ?]; auto. }
  destruct (approval_is_live a) eqn:El; cbn [negb]; cbv beta iota.
  2: { apply hoare_ret. intros p Hp v' a' Ha.
       destruct (Hrest _ _ _ Hp Ha) as [[= -> ->] | [? | ?]]; auto. right. congruence. }
  apply (hoare_bind _ (fun next p => members (approvals_current ((v, a) :: left)) p /\
    match next with
    | Some next => (next = "cancelled" \/ next = "expired")%string
    | None => approval_orphaned (srv_state p) v a = false
    end)).
  { intros p Hp. pose proof (approval_ended_ok v a p) as He.
    destruct (approval_ended v a p) as [[[next |] |] p1]; [| | done]; destruct He as [Hs He];
      unfold members; by rewrite Hs. }
  intros [next |].
  - apply hoare_pure. intros Hn. apply (hoare_bind _ (fun _ => members (approvals_current left))).
    + intros p Hp v' a' Ha. simpl in Ha. destruct (decide (v' = v)) as [-> | Hv].
      * rewrite lookup_insert_eq in Ha. injection Ha as <-. right.
        unfold approval_is_live. simpl. by destruct Hn as [-> | ->].
      * rewrite lookup_insert_ne in Ha by done.
        destruct (Hrest _ _ _ Hp Ha) as [[= -> ->] | [? | ?]]; auto. done.
    + intros _. eapply hoare_conseq; [done | by intros ? ? H; exact H | done |].
      apply hoare_keeps, silent_keeps. silent_auto.
  - apply hoare_ret. intros p [Hp Ho] v' a' Ha.
    destruct (Hrest _ _ _ Hp Ha) as [[= -> ->] | [? | ?]]; auto.
Qed.

(** After the cleanup every live approval is for current connections. *)
Lemma cleanup_approvals_ok :
  hoare (fun _ => True) cleanup_mobile_approvals
    (fun _ => members (W := W) (approvals_current [])) (fun _ => True).
Proof.
  unfold cleanup_mobile_approvals. apply hoare_self. intros p _.
  apply (hoare_bind _ (fun _ => members (approvals_current []))).
  - eapply hoare_pre; [| apply (for_each_left (fun l => members (approvals_current l)))].
    + intros q -> v a Ha. left. rewrite hash_items_perm. by apply elem_of_map_to_list.
    + intros [v a] l. apply cleanup_step.
  - intros _. apply (hoare_bind _ (fun _ => members (approvals_current []))); [| intros t].
    + eapply hoare_conseq; [done | by intros ? ? H; exact H | done |].
      apply hoare_keeps, silent_keeps. silent_auto.
    + intros q Hq v a Ha. by apply Hq.
Qed.

Lemma throw_approval_throws m i a (p : Srv) :
  match throw_approval (A := unit) m i a p with (Ok _, _) => False | _ => True end.
Proof. unfold throw_approval, mbind, M_bind. by destruct (approval_fields a p) as [[] ?]. Qed.

(** A new request is never a permission. *)
Lemma request_throws d v (p : Srv) :
  match request_mobile_approval d v p with (Ok _, _) => False | _ => True end.
Proof.
  unfold request_mobile_approval, throw_approval, mbind, M_bind.
  repeat case_match; simplify_eq/=; done.
Qed.

(** A vehicle that needs an approval has one for the driver. *)
Lemma require_ok d v r :
  hoare (fun _ => True) (require_mobile_approval d v r)
    (fun _ p => protected (srv_state p) v -> approval_given (srv_state p) d v) (fun _ => True).
Proof.
  unfold require_mobile_approval. apply hoare_self. intros p0 _.
  destruct (bool_decide (v ∈ _)) eqn:Ep; cbn [negb]; cbv beta iota.
  2: { apply bool_decide_eq_false in Ep. destruct (string_empty r); simpl.
       - by apply hoare_ret; intros ? -> ?.
       - done. }
  apply (hoare_bind _ (fun _ => members (approvals_current []))).
  { eapply hoare_pre; [| apply cleanup_approvals_ok]. done. }
  intros _. apply hoare_self. intros p Hp. cbv zeta.
  apply (hoare_bind _ (fun _ q => srv_state q = srv_state p)).
  { intros q ->. pose proof (silent_check_named d (srv_mobile_approvals (srv_state p) !! v) r p).
    by destruct (check_named_approval _ _ _ p) as [[] ?]. }
  intros _ q Hq.
  pose proof (request_throws d v) as Hreq. pose proof throw_approval_throws as Hthrow.
  destruct (srv_mobile_approvals _ !! v) as [a |] eqn:Ea.
  2: { specialize (Hreq q). by destruct (request_mobile_approval d v q) as [[] ?]. }
  destruct (approval_is_live a) eqn:El; cbn [andb]; cbv beta iota.
  2: { specialize (Hreq q). by destruct (request_mobile_approval d v q) as [[] ?]. }
  destruct (String.eqb_spec (ap_driver_id a) d) as [Hd |]; cbn [negb]; cbv beta iota; [| done].
  destruct (String.eqb_spec (ap_state a) "approved") as [Hst |].
  - intros _. exists a. unfold mret, M_ret. rewrite Hq. split_and!; try done.
    destruct (Hp _ _ Ea) as [Hin | H]; [by apply elem_of_nil in Hin | auto].
  - destruct (String.eqb _ _); (match goal with |- context [throw_approval ?m ?i ?a q] =>
      specialize (Hthrow m i a q); by destruct (throw_approval m i a q) as [[] ?] end).
Qed.

(** A step nothing is asked of. *)
Lemma hoare_skip {A B} (m : M Srv A) (f : A -> M Srv B) Q :
  (forall a, hoare (fun _ => True) (f a) Q (fun _ => True)) ->
  hoare (fun _ => True) (m ≫= f) Q (fun _ => True).
Proof.
  intros Hf. apply (hoare_bind _ (fun _ _ => True)); [| done].
  intros p _. by destruct (m p) as [[] ?].
Qed.

Lemma consume_ok d v value :
  hoare (fun _ => True) (consume_approval d v value)
    (fun _ p => exists a, srv_mobile_approvals (srv_state p) !! v = Some a /\
                          ap_state a = "consumed"%string) (fun _ : Srv => True).
Proof.
  unfold consume_approval.
  do 7 (apply hoare_skip; intro).
  intros p _. unfold set_approval, srv_update, modify. simpl. rewrite lookup_insert_eq. eauto.
Qed.

(** What holds of a state that only shrank held before. *)
Context (s0 : State).

Lemma current_before s d t : shrinks s0 s -> token_current s d t -> token_current s0 d t.
Proof.
  intros (_ & Hr & _ & Ht & Ho & _) (Hd & tok & pr & H1 & H2 & H3 & H4).
  destruct (Ho _ _ H3) as (pr0 & H5 & H6). split; [by rewrite <- Hr |]. exists tok, pr0.
  split_and!; [by eapply lookup_weaken | done | done | congruence].
Qed.

Lemma given_before s d v : shrinks s0 s -> approval_given s d v -> approval_given s0 d v.
Proof.
  intros (_ & Hrd & Hrv & _ & Ho & Hv & Ha) (a & H1 & H2 & H3 & H4). exists a.
  split_and!; try done; [by apply Ha |]. unfold approval_orphaned in *.
  destruct (srv_online_drivers s !! _) as [dr |] eqn:Ed; [| done].
  destruct (srv_online_vehicles s !! v) as [ve |] eqn:Ev; [| done].
  destruct (Ho _ _ Ed) as (dr0 & -> & ->). destruct (Hv _ _ Ev) as (ve0 & -> & ->).
  by rewrite <- Hrd, <- Hrv.
Qed.

Lemma online_before s v :
  shrinks s0 s -> is_Some (srv_online_vehicles s !! v) -> is_Some (srv_online_vehicles s0 !! v).
Proof. intros (_ & _ & _ & _ & _ & Hv & _) [ve E]. destruct (Hv _ _ E) as (? & -> & _). eauto. Qed.

Lemma shrinks_config s : shrinks s0 s -> srv_config s = srv_config s0.
Proof. by intros []. Qed.

(** What is known when the session is created. *)
Record granting (d v tok : string) (s : State) : Prop := {
  gr_may : may_drive s0 d v tok;
  gr_free : vehicle_free v s;
  gr_used : protected s0 v -> forall a, srv_mobile_approvals s !! v = Some a ->
            ap_state a <> "approved"%string;
}.
(** An accepted request finds the vehicle free. *)
Lemma check_grant_free d v (p : Srv) :
  match check_grant d v p with
  | (Ok _, p') => srv_state p' = srv_state p /\ vehicle_free v (srv_state p)
  | (Throw _, p') => srv_state p' = srv_state p
  end.
Proof.
  pose proof (silent_check_grant d v p) as Hs. destruct (check_grant d v p) as [[[] | e] p'] eqn:E;
    simpl in Hs; [split; [done |] | done].
  unfold check_grant, self, gets, mbind, M_bind in E.
  destruct (match sgc_driver_vehicle_permissions _ !! d with Some _ => _ | None => _ end);
    [| by destruct (audit _ _ p) as [[] ?]].
  simpl in E. destruct (bool_decide (is_Some _)); [| done]. simpl in E.
  destruct (List.find _ _) as [[i y] |] eqn:Ef; [by destruct (audit _ _ p) as [[] ?] |].
  intros id x Hx Hv. pose proof (List.find_none _ _ Ef (id, x)) as Hn. simpl in Hn.
  rewrite Hv, String.eqb_refl in Hn. apply Hn. apply list_elem_of_In.
  rewrite hash_items_perm. by apply elem_of_map_to_list.
Qed.


(** ** The request for control *)

(** The conditions under which [I] survives until the session of a request is created, and
    [I2 id] from there on.  The counter was [c] before. *)
Record grant_frame (c : Z) (d v tok : string) (I : State -> Prop) (I2 : string -> State -> Prop) :
    Prop := {
  gf_changes : closed_under_changes I;
  gf_changes2 id : closed_under_changes (I2 id);
  gf_approvals id s f a :
    (forall a, ap_state (f a) = ap_state a) ->
    I2 id s -> srv_mobile_approvals s !! v = Some a ->
    I2 id (s <| srv_mobile_approvals ::= <[v := f a]> |>);
  gf_counter s :
    I s -> srv_session_counter s = c -> I (s <| srv_session_counter := u64 (c + 1) |>);
  gf_create (s : State) started token expires :
    let id := session_id_of (u64 (c + 1)) in
    I s -> srv_session_counter s = c -> granting d v tok s ->
    I2 id (s <| srv_session_counter := u64 (c + 1) |>
             <| srv_sessions ::=
                  <[id := mkSession id v d started Online token expires 0 0 0 0 d_zero ∅]> |>);
  gf_edge id s x next :
    I2 id s -> srv_sessions s !! id = Some x -> transition_allowed (sess_state x) next = true ->
    I2 id (s <| srv_sessions ::= alter (fun x => x <| sess_state := next |>) id |>);
}.

Section frame.
Context (c : Z) (d v tok : string) (I : State -> Prop) (I2 : string -> State -> Prop).
Context (F : grant_frame c d v tok I I2).

Lemma transition_edge_keeps id next reason :
  keeps (members (W := W) (I2 id)) (transition_session id next reason).
Proof.
  unfold transition_session. apply keeps_session_at. intros session p [H Hs].
  destruct (bool_decide _); [done |].
  destruct (transition_allowed _ _) eqn:E; simpl negb; [| done].
  refine (silent_keeps (I2 id) (audit _ _) (silent_audit _ _) _ _).
  by eapply (gf_edge _ _ _ _ _ _ F).
Qed.

Lemma activate_keeps id d' v' : keeps (members (W := W) (I2 id)) (activate_session id d' v').
Proof.
  pose proof (gf_changes2 _ _ _ _ _ _ F id) as HI. pose proof transition_edge_keeps.
  unfold activate_session. srv_keeps.
Qed.

Lemma name_approval_keeps id :
  keeps (members (W := W) (I2 id))
    (approval ← approval_at v; set_approval v (approval <| ap_session_id := id |>)).
Proof.
  intros p H. unfold approval_at, self, gets, mbind, M_bind.
  destruct (srv_mobile_approvals (srv_state p) !! v) as [a |] eqn:Ea; [| done].
  by apply (gf_approvals _ _ _ _ _ _ F id _ (fun a => a <| ap_session_id := id |>)).
Qed.

Lemma create_leads (p : Srv) :
  members I p -> srv_session_counter (srv_state p) = c -> granting d v tok (srv_state p) ->
  match create_session d v p with
  | (Ok id, p') => members (I2 id) p'
  | (Throw _, p') => members I p'
  end.
Proof.
  intros H Hc Hg. unfold create_session, self, gets, mbind, M_bind, srv_update, modify.
  cbv beta iota zeta. rewrite Hc. set (bump := p <| srv_state ::= _ |>).
  assert (Hbump : members I bump) by by apply (gf_counter _ _ _ _ _ _ F).
  pose proof (silent_now_ms bump) as H1. destruct (now_ms bump) as [[started | e] p1]; simpl in H1.
  2: { unfold members. by rewrite H1. }
  pose proof (silent_random_token kRandomTokenBytes p1) as H2.
  destruct (random_token _ p1) as [[random | e] p2]; simpl in H2.
  2: { unfold members. by rewrite H2, H1. }
  pose proof (silent_now_ms p2) as H3. destruct (now_ms p2) as [[now | e] p3]; simpl in H3.
  2: { unfold members. by rewrite H3, H2, H1. }
  cbv beta iota zeta. set (session := mkSession _ _ _ _ _ _ _ _ _ _ _ _ _).
  set (p4 := p3 <| srv_state ::= _ |>).
  assert (H4 : members (I2 (session_id_of (u64 (c + 1)))) p4).
  { unfold members, p4. simpl. rewrite H3, H2, H1.
    by apply (gf_create _ _ _ _ _ _ F (srv_state p) started _ _). }
  pose proof (silent_remember session 0 p4) as H5.
  destruct (remember_log_session session 0 p4) as [[[] | e] p5] eqn:E; simpl in H5.
  - unfold members, mret, M_ret. by rewrite H5.
  - exfalso. revert E. unfold remember_log_session, self, gets, on_host, zoom, modify, mbind, M_bind.
    simpl. discriminate.
Qed.
End frame.

Lemma counter_closed c : closed_under_changes (fun s => srv_session_counter s = c).
Proof. intros s s' Hc Hs. destruct Hc as [s' (_ & _ & Hs' & _) | |]; simpl; congruence. Qed.

(** *** The whole request *)

Section request.
Context (c : Z) (value : json) (I : State -> Prop).
Context (I2 : string -> string -> string -> string -> State -> Prop).

(** The three names a request carries. *)
Definition asks (d v tok : string) : Prop :=
  required_string "driver_id" value = Ok d /\ required_string "vehicle_id" value = Ok v /\
  optional_string "token" value = Ok tok.

Context (HI : closed_under_changes I).
Context (F : forall d v tok, asks d v tok -> grant_frame c d v tok I (I2 d v tok)).

(** [I] until a session is created, [I2] for it afterwards. *)
Definition granted_or (p : Srv) : Prop :=
  members I p \/
  exists d v tok id, asks d v tok /\ may_drive s0 d v tok /\ members (I2 d v tok id) p.

Definition checked (s : State) : Prop := I s /\ srv_session_counter s = c /\ shrinks s0 s.

Lemma checked_keeps {A} (m : M Srv A) :
  (forall K, closed_under_changes K -> keeps (members K) m) -> keeps (members (shrinks s0)) m ->
  keeps (members checked) m.
Proof.
  intros Hm Hs p (H1 & H2 & H3). split; [by apply Hm | split; [| by apply Hs]].
  by apply (Hm (fun s => srv_session_counter s = c) (counter_closed c)).
Qed.

(** A step that keeps [checked], with what its answer shows. *)
Lemma checked_bind {A B} (phi : Prop) (P : State -> Prop) (m : M Srv A) (f : A -> M Srv B) :
  closed_under_changes P ->
  (forall K, closed_under_changes K -> keeps (members K) m) -> keeps (members (shrinks s0)) m ->
  (forall p, members checked p -> match m p with (Ok _, _) => phi | _ => True end) ->
  (forall a, phi -> leads (members (fun s => checked s /\ P s)) granted_or (f a)) ->
  leads (members (fun s => checked s /\ P s)) granted_or (m ≫= f).
Proof.
  intros HP Hm Hs Hphi Hf p [Hc Hp]. pose proof (checked_keeps m Hm Hs p Hc) as Hc'.
  pose proof (Hm P HP p Hp) as Hp'. specialize (Hphi p Hc). unfold mbind, M_bind.
  destruct (m p) as [[a | e] p']; simpl in *; [by apply Hf | by left; destruct Hc'].
Qed.

Lemma checked_step {A B} (P : State -> Prop) (m : M Srv A) (f : A -> M Srv B) :
  closed_under_changes P ->
  (forall K, closed_under_changes K -> keeps (members K) m) -> keeps (members (shrinks s0)) m ->
  (forall a, leads (members (fun s => checked s /\ P s)) granted_or (f a)) ->
  leads (members (fun s => checked s /\ P s)) granted_or (m ≫= f).
Proof.
  intros HP Hm Hs Hf. apply (checked_bind True); auto. intros p _. by destruct (m p) as [[] ?].
Qed.

Lemma granted_leads d v tok :
  asks d v tok -> may_drive s0 d v tok ->
  leads (members (fun s => checked s /\ granting d v tok s)) granted_or
    (id ← create_session d v;
     when (bool_decide (protected s0 v))
       (approval ← approval_at v; set_approval v (approval <| ap_session_id := id |>));;
     activate_session id d v;;
     session ← session_at id;
     respond_session true session).
Proof.
  intros Ha Hm. pose proof (F d v tok Ha) as Fr.
  apply (leads_ensures _ _ (fun id => members (I2 d v tok id))).
  { intros p [(Hi & Hc & Hs) Hg]. pose proof (create_leads c d v tok I _ Fr p Hi Hc Hg) as H.
    destruct (create_session d v p) as [[id | e] p']; [done | by left]. }
  intros id. pose proof (gf_changes2 _ _ _ _ _ _ Fr id) as HI2.
  apply leads_keeps; [| intros p Hp; right; by exists d, v, tok, id].
  apply keeps_bind; [apply keeps_when; by eapply name_approval_keeps | intros _].
  apply keeps_bind; [by eapply activate_keeps | intros _]. srv_keeps.
Qed.

(** The vehicle is free and its approval, if it needs one, is used up. *)
Lemma used_leads d v tok :
  asks d v tok -> may_drive s0 d v tok ->
  leads (members (fun s => checked s /\ vehicle_free v s)) granted_or
    (when (bool_decide (protected s0 v)) (consume_approval d v value);;
     id ← create_session d v;
     when (bool_decide (protected s0 v))
       (approval ← approval_at v; set_approval v (approval <| ap_session_id := id |>));;
     activate_session id d v;;
     session ← session_at id;
     respond_session true session).
Proof.
  intros Ha Hm. apply (leads_ensures _ _ (fun _ => members (fun s => checked s /\ granting d v tok s))).
  2: { intros _. by apply granted_leads. }
  intros p [Hc Hf]. destruct (bool_decide (protected s0 v)) eqn:Ep; simpl when.
  2: { apply bool_decide_eq_false in Ep. split; [done | by split]. }
  pose proof (checked_keeps (consume_approval d v value)) as Hk.
  specialize (Hk (fun K HK => consume_approval_keeps K HK d v value) (shrinks_consume s0 d v value) p Hc).
  pose proof (consume_approval_keeps _ (vehicle_free_changes v) d v value p Hf) as Hfree.
  pose proof (consume_ok d v value p Logic.I) as Hu.
  destruct (consume_approval d v value p) as [[[] | e] p']; [| by left; destruct Hk].
  split; [done |]. destruct Hu as (a & Hu & Ea). split; [done | done |].
  intros _ a' Ha'. rewrite Hu in Ha'. injection Ha' as <-. by rewrite Ea.
Qed.

Lemma post_sessions_leads : leads (members checked) granted_or (post_sessions value).
Proof.
  assert (Hfail : forall s (r : result ServerResponse), members checked s -> granted_or (r, s).2).
  { intros s r [Hi _]. by left. }
  unfold post_sessions.
  intros p Hp. unfold mbind at 1, M_bind at 1, lift at 1.
  destruct (required_string "driver_id" value) as [d |] eqn:Ed; [| by eapply Hfail].
  unfold mbind at 1, M_bind at 1, lift at 1.
  destruct (required_string "vehicle_id" value) as [v |] eqn:Ev; [| by eapply Hfail].
  unfold mbind at 1, M_bind at 1, lift at 1.
  destruct (optional_string "token" value) as [tok |] eqn:Et; [| by eapply Hfail].
  assert (Ha : asks d v tok) by done. revert p Hp.
  match goal with |- forall p, _ -> granted_or (?m p).2 => change (leads (members checked) granted_or m) end.
  assert (HT : closed_under_changes (fun _ : State => True)) by done.
  eapply (leads_weaken _ _ (members (fun s => checked s /\ True))); [by split |].
  apply (checked_bind (token_current s0 d tok)); [done | by srv_keeps | apply shrinks_token | |].
  { intros q (_ & _ & Hs). pose proof (token_ok d tok q) as H.
    destruct (validate_driver_token d tok q) as [[] ?]; [by eapply current_before | done]. }
  intros _ Htok.
  apply (leads_ensures _ _ (fun _ => members (fun s =>
    (checked s /\ vehicle_free v s) /\ permitted s0 d v /\ is_Some (srv_online_vehicles s0 !! v)))).
  { intros q [Hq _]. pose proof (check_grant_free d v q) as Hg. pose proof (check_grant_ok d v q) as Hk.
    pose proof Hq as (Hi & Hcn & Hs). destruct (check_grant d v q) as [[[] | e] q'].
    - destruct Hg as [E Hg]. unfold members. rewrite E. destruct Hk as [Hk1 Hk2]. split_and!; try done.
      + unfold permitted in *. by rewrite <- (shrinks_config _ Hs).
      + by eapply online_before.
    - left. unfold members. by rewrite Hg. }
  intros _. apply hoare_state, hoare_pure. intros [Hperm Hon]. apply hoare_state.
  pose proof (vehicle_free_changes v) as HF.
  apply checked_step; [done | intros K HK; srv_keeps | shrink_auto | intros request_id].
  apply (checked_bind (protected s0 v -> approval_given s0 d v));
    [done | intros K HK; by apply require_approval_keeps | apply shrinks_require | |].
  { intros q Hq. pose proof (shrinks_require s0 d v request_id q (proj2 (proj2 Hq))) as Hs.
    pose proof (require_ok d v request_id q Logic.I) as H. unfold protected in *.
    destruct (require_mobile_approval d v request_id q) as [[] q']; [| done].
    change (shrinks s0 (srv_state q')) in Hs. intros Hv. apply (given_before (srv_state q')); [done |]. apply H. by rewrite (shrinks_config _ Hs). }
  intros _ Hgiven.
  assert (Hmay : may_drive s0 d v tok) by by split.
  apply checked_step; [done | intros K HK; srv_keeps | shrink_auto | intros audited].
  apply checked_step; [done | intros K HK; srv_keeps | shrink_auto | intros _].
  apply (leads_ensures _ _ (fun required => members (fun s =>
    (checked s /\ vehicle_free v s) /\ required = bool_decide (protected s0 v)))).
  { intros q Hq. unfold requires_approval, self, gets, mbind, M_bind, mret, M_ret. split; [done |].
    unfold protected. by rewrite (shrinks_config _ (proj2 (proj2 (proj1 Hq)))). }
  intros required. apply hoare_state, hoare_pure. intros ->. apply hoare_state.
  by apply (used_leads d v tok).
Qed.
End request.
End established.
