(* ===== verification/SignalingDemo.v ===== *)
(** SignalingDemo: a machine for the witnesses, and a server on it.

    [DemoMachine] has clocks that stand still until they are set, a counter for random
    bytes, an audit log that works or not, and hash maps visited in the order of their
    keys' binary tree.  [demo_http] builds HTTP requests with JSON bodies. *)
From S2P Require Export SignalingService.

Record DemoMachine := mkDemoMachine {
  dm_now_ms : Z;
  dm_steady_ns : Z;
  dm_random : Z;
  dm_audit_works : bool;
}.

#[global] Instance eta_DemoMachine : Settable DemoMachine :=
  fields! mkDemoMachine <dm_now_ms; dm_steady_ns; dm_random; dm_audit_works>.

Definition demo_append (path line : string) : M DemoMachine unit :=
  works ← gets dm_audit_works;
  lift (throw_if (negb works) (RuntimeError "cannot append signaling audit log")).

Definition demo_random (bytes : Z) : M DemoMachine (list Z) :=
  n ← gets dm_random;
  modify (fun m => m <| dm_random ::= Z.succ |>);;
  mret (repeat n (Z.to_nat bytes)).

#[global] Instance demo_machine_host : SignalingHost JsonModel.api DemoMachine := {|
  host_now_ms m := (dm_now_ms m, m);
  host_steady_ns m := (dm_steady_ns m, m);
  host_random_bytes := demo_random;
  host_audit_clock := None;
  host_existing_log_period _ _ fallback := mret fallback;
  host_archive_jsonl_period _ _ _ := mret tt;
  host_prune_jsonl_periods _ _ _ := mret tt;
  host_rotate_jsonl_log _ _ _ _ := mret tt;
  host_append_line := demo_append;
  host_remember_session _ m := m;
  host_hmac_sha1 _ _ := Some [];
  host_sha1 _ := Ok (repeat 0 20);
  inet_canonical address := Some address;
  hash_items A m := map_to_list m;
|}.

#[global] Instance demo_hash_laws : HashLaws JsonModel.api DemoMachine.
Proof. split. reflexivity. Qed.

#[global] Instance demo_logs : SessionLogs JsonModel.api DemoMachine := {|
  logs_vehicle _ _ _ := mret (j_object []);
  logs_sessions _ := mret [];
  logs_session _ _ := throw (InvalidArgument "session not found for this driver");
  logs_start _ _ := throw (InvalidArgument "no session");
  logs_status _ _ _ := throw (InvalidArgument "no export");
  logs_chunk _ _ _ := throw (InvalidArgument "no export");
  logs_release _ _ := mret tt;
|}.

Notation DemoServer := (SignalingProcess JsonModel.api DemoMachine).
Notation DemoOp := (server_op (J := JsonModel.api) (W := DemoMachine)).

Definition demo_http (method path : string) (fields : list (string * json)) : HttpRequest :=
  mkHttpRequest method path "10.0.0.1" path ∅ ∅ (JsonModel.print (j_object fields)).

Definition demo_server_config : SignalingServerConfig :=
  SignalingServerConfig_default
    <| sgc_mobile_approval_vehicles := {["vehicle-001"]} |>
    <| sgc_mobile_app_password := "app" |>
    <| sgc_audit_log_path := "/var/log/audit.jsonl" |>.

Definition demo_machine : DemoMachine := mkDemoMachine 1000 0 1 true.

Definition demo_server : DemoServer := (new_SignalingService demo_server_config demo_machine).2.

(** What one request does. *)
Definition demo_post (path : string) (fields : list (string * json)) : DemoOp :=
  SrvDispatch (demo_http "POST" path fields).

Definition demo_login : DemoOp :=
  demo_post "/auth/driver_login"
    [("driver_id", j_string "driver-console-001"); ("password", j_string "dev-password")].

Definition demo_online : DemoOp :=
  demo_post "/vehicles/online"
    [("vehicle_id", j_string "vehicle-001"); ("device_token", j_string "dev-device-secret");
     ("connection_id", j_string "c1")].

(** The tokens the machine's random bytes make in this order of requests. *)
Definition demo_token : string := "driver-token-020202020202020202020202020202020202020202020202".
Definition demo_approval_id : string :=
  "approval-030303030303030303030303030303030303030303030303".
Definition demo_phone_token : string :=
  "approver-token-050505050505050505050505050505050505050505050505".

(** The driver asks for the vehicle. *)
Definition demo_ask (request_id : string) : DemoOp :=
  demo_post "/sessions"
    [("driver_id", j_string "driver-console-001"); ("vehicle_id", j_string "vehicle-001");
     ("token", j_string demo_token); ("approval_request_id", j_string request_id)].

Definition demo_phone_login : DemoOp :=
  demo_post "/mobile/api/login" [("password", j_string "app")].

Definition demo_decide (decision : string) : DemoOp :=
  SrvDispatch
    ((demo_http "POST" ("/mobile/api/requests/" +:+ demo_approval_id +:+ "/decision")
        [("decision", j_string decision)])
     <| http_headers := {["x-mine-teleop-approver-token" := demo_phone_token]} |>).

(** Until the phone has approved, and the request that is granted then. *)
Definition demo_until_approved : list DemoOp :=
  [demo_login; demo_online; demo_ask ""; demo_phone_login; demo_decide "approve"].
Definition demo_until_granted : list DemoOp :=
  demo_until_approved ++ [demo_ask demo_approval_id].

Definition demo_session_id : string := "session-000001".

Definition demo_logout : DemoOp :=
  demo_post "/auth/driver_logout"
    [("driver_id", j_string "driver-console-001"); ("token", j_string demo_token)].

(** The driver's messages to the vehicle, through its mailbox. *)
Definition demo_control_token : string :=
  "control-token-060606060606060606060606060606060606060606060606".
Definition demo_mailbox : string := message_key demo_session_id "vehicle-001".

Definition demo_metadata (seq : Z) : list (string * json) :=
  [("protocol_version", j_uint 1); ("vehicle_id", j_string "vehicle-001");
   ("driver_id", j_string "driver-console-001"); ("session_id", j_string demo_session_id);
   ("seq", j_uint seq); ("sent_at_utc_ms", j_int 1000)].

Definition demo_message (type : string) (seq : Z) (payload : list (string * json)) : DemoOp :=
  demo_post ("/signaling/" +:+ demo_session_id +:+ "/messages")
    (demo_metadata seq ++
     [("sender", j_string "driver-console-001"); ("recipient", j_string "vehicle-001");
      ("type", j_string type); ("token", j_string demo_token); ("payload", j_object payload)]).

Definition demo_drive (seq : Z) : DemoOp :=
  demo_message "control_command" seq
    (demo_metadata seq ++
     [("type", j_string "control_command"); ("gear", j_string "D"); ("steering", j_int 0);
      ("throttle", j_int 0); ("brake", j_int 0);
      ("control_token", j_string demo_control_token); ("intent_seq", j_uint seq);
      ("intent_fresh", j_bool true)]).

Definition demo_status (seq : Z) : DemoOp := demo_message "connection_status" seq [].
