(* ===== verification/HttpWireProperties.v ===== *)
(** HttpWireProperties: what a client writes as a request, the server reads.

    - texts of lines ([lines_text]): finding the blank line, splitting, trimming;
    - [parse_request_ok]: the method, the target and the headers, whatever the pieces the
      request comes in. *)
From S2P Require Export HttpWire WebSocketClient WsCodecProperties.

(** ** Finding texts *)

Definition lacks (c : ascii) (s : list ascii) : Prop := Forall (fun d => d <> c) s.

Lemma lacks_app c s t : lacks c (s ++ t) <-> lacks c s /\ lacks c t.
Proof. apply Forall_app. Qed.

Lemma starts_with_refl word s : list_starts_with word (word ++ s) = true.
Proof. induction word as [| c word IH]; [done |]. cbn [app list_starts_with]. by rewrite (proj2 (Ascii.eqb_eq c c)). Qed.

Lemma starts_with_more word s t : list_starts_with word s = true -> list_starts_with word (s ++ t) = true.
Proof.
  revert s. induction word as [| c word IH]; intros s H; [done |]. destruct s as [| d s]; [done |].
  cbn [app list_starts_with] in *. apply andb_prop in H as [-> H]. by apply IH.
Qed.

(** A text that starts with [c] is not found among other characters. *)
Lemma find_skip c word p s : lacks c p ->
  find_text (c :: word) (p ++ s) = (fun n => (length p + n)%nat) <$> find_text (c :: word) s.
Proof.
  induction 1 as [| d p Hd _ IH].
  - cbn [app length]. by destruct (find_text _ s).
  - cbn [app find_text list_starts_with]. rewrite (proj2 (Ascii.eqb_neq c d)) by auto. cbn [andb].
    rewrite IH. by destruct (find_text _ s).
Qed.

Lemma find_here word s : find_text word (word ++ s) = Some O.
Proof. destruct (word ++ s) eqn:E; cbn [find_text]; by rewrite <- E, starts_with_refl. Qed.

Lemma starts_with_less word s t : list_starts_with word (s ++ t) = true ->
  (length word <= length s)%nat -> list_starts_with word s = true.
Proof.
  revert s. induction word as [| c word IH]; intros s H Hl; [done |]. destruct s as [| d s]; [simpl in Hl; lia |].
  cbn [app list_starts_with length] in *. apply andb_prop in H as [-> H]. apply IH; [done | lia].
Qed.

Lemma starts_with_length word s : list_starts_with word s = true -> (length word <= length s)%nat.
Proof.
  revert s. induction word as [| c word IH]; intros s H; [simpl; lia |]. destruct s as [| d s]; [done |].
  cbn [list_starts_with length] in *. apply andb_prop in H as [_ H%IH]. lia.
Qed.

Lemma find_fits word s n : find_text word s = Some n -> (n + length word <= length s)%nat.
Proof.
  revert n. induction s as [| c s IH]; intros n; cbn [find_text].
  - destruct (list_starts_with word []) eqn:E; [| done]. intros [= <-]. by apply starts_with_length in E.
  - destruct (list_starts_with word (c :: s)) eqn:E.
    + intros [= <-]. by apply starts_with_length in E.
    + destruct (find_text word s) as [m |] eqn:E1; [| done]. intros [= <-].
      specialize (IH m eq_refl). simpl. lia.
Qed.

(** What is found stays found when more is read. *)
Lemma find_more word s t n : find_text word s = Some n -> find_text word (s ++ t) = Some n.
Proof.
  revert n. induction s as [| c s IH]; intros n H; pose proof (find_fits _ _ _ H) as Hl; cbn [find_text app] in *.
  - destruct (list_starts_with word []) eqn:E; [| done]. injection H as <-. apply (starts_with_more _ [] t) in E.
    simpl in E. by destruct t; cbn [find_text]; rewrite E.
  - destruct (list_starts_with word (c :: s)) eqn:E.
    + injection H as <-. apply (starts_with_more _ _ t) in E. cbn [app] in E. by rewrite E.
    + destruct (find_text word s) as [m |] eqn:E1; [| done]. injection H as <-.
      destruct (list_starts_with word (c :: s ++ t)) eqn:E2.
      * apply (starts_with_less word (c :: s) t) in E2; [congruence | simpl in *; lia].
      * by rewrite (IH m).
Qed.

(** ** Lines *)

(** A line as a message has them: not empty, and without a line end. *)
Definition line_ok (line : list ascii) : Prop :=
  line <> [] /\ lacks "013"%char line /\ lacks "010"%char line.

(** The lines with the ends between them; the lines, each with its end. *)
Fixpoint block_of (lines : list (list ascii)) : list ascii :=
  match lines with
  | [] => []
  | [line] => line
  | line :: lines => line ++ http_newline ++ block_of lines
  end.

Definition lines_text (lines : list (list ascii)) : list ascii :=
  concat (map (fun line => line ++ http_newline) lines).

Lemma lines_block lines : lines <> [] -> lines_text lines = block_of lines ++ http_newline.
Proof.
  unfold lines_text. induction lines as [| line [| line2 lines] IH]; intros H; [done | |].
  - cbn [map concat block_of]. by rewrite app_nil_r.
  - cbn [map concat] in *. cbn [block_of]. rewrite IH by done. by rewrite <- !app_assoc.
Qed.

Lemma find_blank lines s : lines <> [] -> Forall line_ok lines ->
  find_text http_blank_line (block_of lines ++ http_blank_line ++ s) = Some (length (block_of lines)).
Proof.
  intros Hne H. induction H as [| line lines (Hl & Hcr & _) Hr IH]; [done |].
  assert (Hlast : lines = [] \/ exists line2 rest, lines = line2 :: rest) by (destruct lines; eauto).
  destruct Hlast as [-> | (line2 & rest & ->)].
  - cbn [block_of]. change http_blank_line with ("013"%char :: ["010"; "013"; "010"]%char) at 1.
    rewrite find_skip by done. change ("013"%char :: ["010"; "013"; "010"]%char) with http_blank_line.
    rewrite find_here. simpl. by rewrite Nat.add_0_r.
  - specialize (IH ltac:(done)). change (block_of (line :: line2 :: rest)) with
      (line ++ http_newline ++ block_of (line2 :: rest)). rewrite <- !app_assoc.
    change http_blank_line with ("013"%char :: ["010"; "013"; "010"]%char) at 1.
    rewrite find_skip by done. change ("013"%char :: ["010"; "013"; "010"]%char) with http_blank_line.
    set (tail := block_of (line2 :: rest) ++ http_blank_line ++ s) in *.
    assert (Hc : exists c t, tail = c :: t /\ c <> "013"%char).
    { apply Forall_cons in Hr as [(Hn2 & Hcr2 & _) _]. destruct line2 as [| c line2]; [done |].
      apply Forall_cons in Hcr2 as [Hc _]. unfold tail. destruct rest; simpl; eauto. }
    destruct Hc as (c & t & Et & Hc). rewrite Et in *. rewrite length_app. cbn [http_newline app length].
    change (find_text http_blank_line ("013"%char :: "010"%char :: c :: t)) with
      (if Ascii.eqb "013" c && list_starts_with ["010"%char] t then Some O
       else S <$> (S <$> find_text http_blank_line (c :: t))).
    rewrite (proj2 (Ascii.eqb_neq "013" c)) by auto. cbn [andb]. rewrite IH. simpl. f_equal.
Qed.

Lemma split_on_app c p s : lacks c p -> split_on c (p ++ c :: s) = p :: split_on c s.
Proof.
  induction 1 as [| d p Hd _ IH]; cbn [app split_on].
  - by rewrite (proj2 (Ascii.eqb_eq c c)).
  - rewrite (proj2 (Ascii.eqb_neq d c)) by done. by rewrite IH.
Qed.

Lemma split_on_none c p : lacks c p -> split_on c p = [p].
Proof.
  induction 1 as [| d p Hd _ IH]; cbn [split_on]; [done |].
  rewrite (proj2 (Ascii.eqb_neq d c)) by done. by rewrite IH.
Qed.

(** [getline] on the block of some lines: each line but the last with its carriage return. *)
Fixpoint read_lines (lines : list (list ascii)) : list (list ascii) :=
  match lines with
  | [] => [[]]
  | [line] => [line]
  | line :: lines => (line ++ ["013"%char]) :: read_lines lines
  end.

Lemma split_block lines : Forall line_ok lines -> split_on "010"%char (block_of lines) = read_lines lines.
Proof.
  induction 1 as [| line lines (_ & _ & Hlf) Hr IH]; [done |]. destruct lines as [| line2 lines].
  - by apply split_on_none.
  - change (block_of (line :: line2 :: lines)) with (line ++ http_newline ++ block_of (line2 :: lines)).
    change (read_lines (line :: line2 :: lines)) with ((line ++ ["013"%char]) :: read_lines (line2 :: lines)).
    rewrite <- IH. unfold http_newline.
    replace (line ++ ["013"%char; "010"%char] ++ block_of (line2 :: lines)) with
      ((line ++ ["013"%char]) ++ "010"%char :: block_of (line2 :: lines)) by by rewrite <- app_assoc.
    apply split_on_app. apply lacks_app. split; [done |]. by repeat constructor.
Qed.

(** The header lines of a response, up to the blank line. *)
Lemma header_lines_ok s : forall rounds lines, Forall line_ok lines -> (length lines < rounds)%nat ->
  header_lines rounds (lines_text lines ++ http_newline ++ s) = lines.
Proof.
  induction rounds as [| rounds IH]; intros lines H Hl; [simpl in Hl; lia |].
  destruct H as [| line lines (Hne & Hcr & _) Hr]; [by unfold lines_text |].
  unfold lines_text. cbn [map concat header_lines]. fold (lines_text lines). rewrite <- !app_assoc.
  unfold http_newline at 1. rewrite find_skip by done. fold http_newline. rewrite find_here. cbn [fmap option_fmap option_map].
  rewrite Nat.add_0_r. destruct line as [| c line]; [done |]. cbn [length].
  replace (S (length line)) with (length (c :: line)) by done. rewrite take_app_length. f_equal.
  rewrite app_assoc. replace (length (c :: line) + 2)%nat with (length ((c :: line) ++ http_newline))
    by (rewrite length_app; done). rewrite drop_app_length. apply IH; [done | simpl in Hl; lia].
Qed.

(** ** Trimming *)

Notation ltrim := (drop_while trimmed_char).
Definition rtrim (s : list ascii) : list ascii := rev (ltrim (rev s)).

Lemma ltrim_app s t : ltrim (s ++ t) = match ltrim s with [] => ltrim t | c :: s' => (c :: s') ++ t end.
Proof.
  induction s as [| c s IH]; [done |]. cbn [app drop_while]. destruct (trimmed_char c); [exact IH | done].
Qed.

Lemma rtrim_cons c s :
  rtrim (c :: s) = match rtrim s with [] => if trimmed_char c then [] else [c] | d :: t => c :: d :: t end.
Proof.
  unfold rtrim. cbn [rev]. rewrite ltrim_app. destruct (ltrim (rev s)) as [| d t] eqn:E.
  - cbn [rev drop_while]. by destruct (trimmed_char c).
  - rewrite rev_app_distr. cbn [rev app]. destruct (rev t ++ [d]) eqn:E2; [by destruct (rev t) | done].
Qed.

Lemma rtrim_keeps p c s : trimmed_char c = false -> rtrim (p ++ c :: s) = p ++ c :: rtrim s.
Proof.
  intros Hc. induction p as [| d p IH]; cbn [app]; rewrite rtrim_cons.
  - rewrite Hc. by destruct (rtrim s).
  - rewrite IH. by destruct p.
Qed.

Lemma trim_rtrim value : trim value = of_chars (rtrim (ltrim (chars value))).
Proof. done. Qed.

Lemma rtrim_twice s : rtrim (rtrim s) = rtrim s.
Proof.
  induction s as [| c s IH]; [done |]. rewrite rtrim_cons.
  destruct (rtrim s) as [| d t] eqn:E.
  - destruct (trimmed_char c) eqn:Ec; [done |]. rewrite rtrim_cons. cbn [rtrim rev drop_while]. by rewrite Ec.
  - rewrite rtrim_cons, IH. done.
Qed.

Lemma trims_commute s : ltrim (rtrim s) = rtrim (ltrim s).
Proof.
  induction s as [| c s IH]; [done |]. rewrite rtrim_cons. cbn [drop_while].
  destruct (trimmed_char c) eqn:Ec.
  - rewrite <- IH. destruct (rtrim s) as [| d t]; [done |]. cbn [drop_while]. by rewrite Ec.
  - rewrite rtrim_cons. destruct (rtrim s) as [| d t]; [rewrite Ec |]; cbn [drop_while]; by rewrite Ec.
Qed.

(** The carriage return [getline] leaves makes no difference. *)
Lemma trim_cr line : trim (of_chars (line ++ ["013"%char])) = trim (of_chars line).
Proof.
  rewrite !trim_rtrim, !chars_of, <- !trims_commute. f_equal. f_equal. unfold rtrim.
  by rewrite rev_app_distr.
Qed.

(** A text without white space at its ends, and one with none at all. *)
Definition solid (s : list ascii) : Prop := Forall (fun c => is_space c = false) s.

Lemma trimmed_space c : is_space c = false -> trimmed_char c = false.
Proof.
  intros H. destruct (trimmed_char c) eqn:E; [| done]. exfalso. unfold trimmed_char in E.
  apply existsb_exists in E as (d & Hd & <-%Ascii.eqb_eq).
  repeat destruct Hd as [<- | Hd]; try done; by vm_compute in H.
Qed.

Lemma solid_ltrim s : solid s -> ltrim s = s.
Proof. intros [| c s' Hc _]; [done |]. cbn [drop_while]. by rewrite trimmed_space. Qed.

Lemma solid_rtrim s : solid s -> rtrim s = s.
Proof.
  induction 1 as [| c s Hc _ IH]; [done |]. rewrite rtrim_cons, IH, (trimmed_space c) by done.
  by destruct s.
Qed.

Lemma solid_trim value : solid (chars value) -> trim value = value.
Proof. intros H. rewrite trim_rtrim, solid_ltrim, solid_rtrim by done. apply of_chars_chars. Qed.

(** ** Headers *)

Definition header_text (header : string * string) : list ascii :=
  chars header.1 ++ ":"%char :: " "%char :: chars header.2.

Definition name_ok (name : string) : Prop :=
  name <> ""%string /\ trim name = name /\ lacks ":"%char (chars name).

Lemma break_at_first c p s : lacks c p -> break_at c (p ++ c :: s) = (p, Some s).
Proof.
  induction 1 as [| d p Hd _ IH]; cbn [app break_at].
  - by rewrite (proj2 (Ascii.eqb_eq c c)).
  - rewrite (proj2 (Ascii.eqb_neq d c)) by done. by rewrite IH.
Qed.

Lemma trim_first name : name <> ""%string -> trim name = name ->
  exists c s, chars name = c :: s /\ trimmed_char c = false.
Proof.
  intros Hne Ht. destruct (chars name) as [| c s] eqn:E.
  - destruct Hne. by rewrite <- (of_chars_chars name), E.
  - exists c, s. split; [done |]. destruct (trimmed_char c) eqn:Ec; [| done].
    assert (H : chars (trim name) = c :: s) by by rewrite Ht.
    rewrite trim_rtrim, chars_of, E in H. cbn [drop_while] in H. rewrite Ec, <- trims_commute in H.
    pose proof (drop_while_head trimmed_char (rtrim s)) as Hd. rewrite H in Hd. congruence.
Qed.

Lemma parse_header_ok headers header line : name_ok header.1 ->
  trim (of_chars line) = trim (of_chars (header_text header)) ->
  parse_header headers line = Ok (<[lower header.1 := trim header.2]> headers).
Proof.
  destruct header as [name value]. cbn [fst snd]. intros (Hne & Ht & Hc) E. unfold parse_header. rewrite E.
  unfold header_text. cbn [fst snd].
  destruct (trim_first name Hne Ht) as (c & s & En & Hb).
  rewrite trim_rtrim, !chars_of, En. cbn [app drop_while]. rewrite Hb.
  change (c :: s ++ ":"%char :: " "%char :: chars value) with ((c :: s) ++ ":"%char :: " "%char :: chars value).
  rewrite rtrim_keeps by done. cbv zeta.
  assert (Hs : string_empty (of_chars ((c :: s) ++ ":"%char :: rtrim (" "%char :: chars value))) = false) by done.
  rewrite Hs, <- En, break_at_first by done. rewrite of_chars_chars, Ht. do 2 f_equal.
  rewrite !trim_rtrim, chars_of, trims_commute, rtrim_twice. cbn [drop_while]. done.
Qed.

Definition add_header (headers : gmap string string) (header : string * string) : gmap string string :=
  <[lower header.1 := trim header.2]> headers.

Lemma parse_headers_ok hs : forall headers, Forall (fun h => name_ok h.1) hs -> hs <> [] ->
  parse_headers headers (read_lines (map header_text hs)) = Ok (foldl add_header headers hs).
Proof.
  induction hs as [| h hs IH]; intros headers H Hne; [done |]. apply Forall_cons in H as [Hh Hr].
  destruct hs as [| h2 hs].
  - cbn [map read_lines parse_headers]. by rewrite (parse_header_ok headers h).
  - cbn [map]. change (read_lines (header_text h :: header_text h2 :: map header_text hs)) with
      ((header_text h ++ ["013"%char]) :: read_lines (map header_text (h2 :: hs))).
    cbn [parse_headers]. rewrite (parse_header_ok headers h) by (done || apply trim_cr). by apply IH.
Qed.

Lemma header_kept hs : forall headers key, Forall (fun h => lower h.1 <> key) hs ->
  foldl add_header headers hs !! key = headers !! key.
Proof.
  induction hs as [| h hs IH]; intros headers key H; [done |]. apply Forall_cons in H as [Hh Hr].
  cbn [foldl]. rewrite IH by done. by apply lookup_insert_ne.
Qed.

(** A header that is not given twice is found. *)
Lemma header_found hs1 name value hs2 headers : Forall (fun h => lower h.1 <> lower name) hs2 ->
  foldl add_header headers (hs1 ++ (name, value) :: hs2) !! lower name = Some (trim value).
Proof. intros H. rewrite foldl_app. cbn [foldl]. rewrite header_kept by done. apply lookup_insert_eq. Qed.

(** ** The request *)
Lemma take_word_ok word s : solid word -> match s with [] => True | c :: _ => is_space c = true end ->
  take_word (word ++ s) = (word, s).
Proof.
  intros H Hs. induction H as [| c word Hc _ IH]; cbn [app].
  - destruct s as [| c s]; [done |]. cbn [take_word]. by rewrite Hs.
  - cbn [take_word]. by rewrite Hc, IH.
Qed.

Definition request_line (target : string) : list ascii :=
  chars "GET " ++ chars target ++ chars " HTTP/1.1".

Lemma request_line_ok target : solid (chars target) -> target <> ""%string ->
  parse_request_line (request_line target ++ ["013"%char]) = Ok ("GET"%string, target).
Proof.
  intros Hs Hne. unfold parse_request_line. rewrite trim_cr, trim_rtrim, !chars_of.
  assert (Hr : rtrim (ltrim (request_line target)) = request_line target).
  { unfold request_line. change (ltrim (chars "GET " ++ chars target ++ chars " HTTP/1.1")) with
      (chars "GET " ++ chars target ++ chars " HTTP/1.1").
    change (chars " HTTP/1.1") with (chars " HTTP/1." ++ ["1"%char]). rewrite !app_assoc.
    by rewrite rtrim_keeps. }
  rewrite Hr. unfold request_line. set (rest := chars target ++ chars " HTTP/1.1").
  change (next_word (chars "GET " ++ rest)) with (chars "GET", " "%char :: rest). cbv iota beta.
  assert (H2 : next_word (" "%char :: rest) = (chars target, chars " HTTP/1.1")).
  { unfold next_word. change (drop_while is_space (" "%char :: rest)) with (drop_while is_space rest). unfold rest.
    destruct (chars target) as [| c t] eqn:E.
    { destruct Hne. by rewrite <- (of_chars_chars target), E. }
    assert (Hc : is_space c = false) by (by apply Forall_cons in Hs as [? _]).
    cbn [app drop_while]. rewrite Hc. by apply (take_word_ok (c :: t)). }
  rewrite H2. change (next_word (chars " HTTP/1.1")) with (chars "HTTP/1.1", @nil ascii). cbv iota beta.
  by rewrite !of_chars_chars.
Qed.

Lemma request_line_line target : solid (chars target) -> line_ok (request_line target).
Proof.
  intros H. split; [done |]. unfold lacks, request_line. split; apply Forall_app; (split; [by repeat constructor |]);
    apply Forall_app; (split; [| by repeat constructor]); (eapply Forall_impl; [exact H |]); intros c Hc ->;
    by vm_compute in Hc.
Qed.

(** A header a client may send. *)
Definition header_ok (header : string * string) : Prop :=
  name_ok header.1 /\ has_any crlf_text header.1 = false /\ has_any crlf_text header.2 = false.

Lemma has_no_crlf s : has_any crlf_text s = false <-> lacks "013"%char (chars s) /\ lacks "010"%char (chars s).
Proof.
  unfold has_any, lacks, chars. split.
  - intros H. rewrite <- not_true_iff_false in H. rewrite existsb_exists in H.
    split; apply List.Forall_forall; intros c Hc ->; apply H; eexists; (split; [exact Hc | done]).
  - intros [H1 H2]. apply not_true_iff_false. rewrite existsb_exists. intros (c & Hc & Hd).
    rewrite List.Forall_forall in H1, H2. specialize (H1 c Hc). specialize (H2 c Hc). unfold crlf_text in Hd.
    cbn in Hd. rewrite !orb_true_iff, !Ascii.eqb_eq in Hd. naive_solver.
Qed.

Lemma header_line_ok header : header_ok header -> line_ok (header_text header).
Proof.
  intros (_ & [H1 H2]%has_no_crlf & [H3 H4]%has_no_crlf). unfold header_text. split; [by destruct (chars header.1) |].
  unfold lacks in *. split; apply Forall_app; (split; [done |]); by repeat (apply Forall_cons; split; [done |]).
Qed.

(** The text of a request without a body. *)
Definition request_text (target : string) (hs : list (string * string)) : list ascii :=
  block_of (request_line target :: map header_text hs) ++ http_blank_line.

Section reading.
Context {W : Type} {Sock : SocketApi W}.
Context (delivers : list ascii -> W -> Prop) (start finish : Z) (T : transport delivers start finish).

Lemma receive_some_ok closed stream w : delivers stream w -> stream <> [] ->
  exists chunk rest w', receive_some closed w = (Ok chunk, w') /\ stream = chunk ++ rest /\ chunk <> [] /\
    delivers rest w'.
Proof.
  intros Hd Hne. destruct (buffer_size_pos kWireBuffer) as [Hb _]; [unfold kWireBuffer; lia |].
  destruct (tr_recv _ _ _ T stream w _ Hd Hne Hb) as (chunk & rest & w' & E & Es & Hc & _ & Hd').
  exists chunk, rest, w'. split; [| done]. unfold receive_some. rewrite E. by destruct chunk.
Qed.

(** Whatever the pieces, the headers are read up to the blank line that ends the stream. *)
Lemma read_headers_ok text header_end : find_text http_blank_line text = Some header_end ->
  length text = (header_end + 4)%nat -> Z.of_nat (length text) <= kMaxHeaders ->
  forall rounds wire rest w, text = wire ++ rest -> delivers rest w -> (length rest <= rounds)%nat ->
  exists w', read_headers rounds wire w = (Ok (header_end, text), w') /\ delivers [] w'.
Proof.
  intros Hf Hl Hmax. induction rounds as [| rounds IH]; intros wire rest w -> Hd Hr.
  - destruct rest; [| simpl in Hr; lia]. rewrite app_nil_r in *. exists w. cbn [read_headers]. by rewrite Hf.
  - cbn [read_headers]. destruct (find_text http_blank_line wire) as [n |] eqn:E.
    + pose proof (find_more _ _ rest _ E) as E2. rewrite Hf in E2. injection E2 as <-.
      apply find_fits in E. cbn in E. rewrite length_app in Hl.
      destruct rest; [| simpl in Hl; lia]. rewrite app_nil_r. by exists w.
    + assert (Hne : rest <> []) by (intros ->; rewrite app_nil_r in Hf; congruence).
      destruct (receive_some_ok "client closed before sending HTTP headers" rest w Hd Hne) as
        (chunk & rest' & w1 & E1 & -> & Hc & Hd1).
      unfold mbind, M_bind. rewrite E1. rewrite (proj2 (Z.ltb_ge _ _)).
      * destruct (IH (wire ++ chunk) rest' w1) as (w2 & E2 & Hd2); [by rewrite app_assoc | done | |].
        { rewrite length_app in Hr. destruct chunk; [done | simpl in Hr; lia]. }
        exists w2. rewrite E2. by rewrite app_assoc.
      * rewrite !length_app in *. lia.
Qed.

(** A request without a body is read as it was written. *)
Lemma parse_request_ok max_body_bytes target hs path query w :
  0 <= max_body_bytes -> solid (chars target) -> target <> ""%string -> hs <> [] -> Forall header_ok hs ->
  Forall (fun h => lower h.1 <> "content-length"%string) hs ->
  Z.of_nat (length (request_text target hs)) <= kMaxHeaders ->
  parse_target target = Ok (path, query) ->
  delivers (request_text target hs) w ->
  exists w', delivers [] w' /\
    parse_request max_body_bytes w =
      (Ok (mkHttpRequest "GET" target "" path query (foldl add_header ∅ hs) ""), w').
Proof.
  intros Hmax Hs Hne Hhs Hok Hcl Hlen Hpt Hd. set (lines := request_line target :: map header_text hs) in *.
  assert (Hlines : Forall line_ok lines).
  { constructor; [by apply request_line_line |]. apply Forall_map. eapply Forall_impl; [exact Hok |].
    intros h Hh. by apply header_line_ok. }
  assert (Hfind : find_text http_blank_line (request_text target hs) = Some (length (block_of lines))).
  { unfold request_text. fold lines. rewrite <- (app_nil_r (_ ++ http_blank_line)), <- app_assoc. by apply find_blank. }
  destruct (read_headers_ok (request_text target hs) (length (block_of lines)) Hfind) with
    (rounds := S (Z.to_nat kMaxHeaders)) (wire := @nil ascii) (rest := request_text target hs) (w := w)
    as (w1 & E1 & Hd1); [unfold request_text; fold lines; by rewrite length_app | done | done | done | |].
  { unfold kMaxHeaders in *. lia. }
  exists w1. split; [done |]. unfold parse_request. unfold mbind at 1, M_bind at 1. rewrite E1.
  unfold request_text. fold lines. rewrite take_app_length.
  assert (Hb : parse_header_block (block_of lines) = Ok ("GET"%string, target, foldl add_header ∅ hs)).
  { unfold parse_header_block. destruct (block_of lines) as [| c block] eqn:Eb.
    { unfold lines in Eb. by destruct (map header_text hs). }
    rewrite <- Eb, split_block by done.
    unfold lines. destruct (map header_text hs) as [| l ls] eqn:El; [by destruct hs |].
    change (read_lines (request_line target :: l :: ls)) with
      ((request_line target ++ ["013"%char]) :: read_lines (l :: ls)). rewrite <- El.
    rewrite request_line_ok by done. cbn [mbind result_bind].
    rewrite parse_headers_ok; [done | | done]. eapply Forall_impl; [exact Hok |]. intros h Hh. apply Hh. }
  rewrite Hb. unfold mbind at 1, M_bind at 1, lift at 1.
  unfold read_content_length. rewrite header_kept, lookup_empty by done.
  unfold mbind at 1, M_bind at 1, lift at 1. unfold mbind at 1, M_bind at 1, lift at 1.
  rewrite (proj2 (Z.ltb_ge max_body_bytes 0)) by lia. cbn [throw_if].
  unfold mbind at 1, M_bind at 1. change (Z.to_nat 0) with O. cbn [read_body]. unfold mret at 1, M_ret at 1.
  unfold mbind, M_bind, lift. by rewrite Hpt.
Qed.
End reading.
