(* ===== verification/Handshake.v ===== *)
(** Handshake: the client's WebSocket handshake against the server's ([handshake_agrees]).

    The client's request ([handshake_request]) travels in any pieces; the server reads it
    ([parse_request]), opens the connection ([handle_websocket_open]: the path is decoded once
    more, hence [path_safe]; then [ws_handshake]) and answers ([switching_protocols]); the
    client checks the answer ([check_status_line], [check_handshake]). *)
From S2P Require Export HttpWireProperties SignalingDemo WebSocketProperties.

(** ** Characters that travel as they are *)

(** No white space, and nothing that separates the parts of a URL. *)
Definition plain (c : ascii) : bool :=
  negb (is_space c) && negb (existsb (Ascii.eqb c) (chars "?&=+#/:,")).

Lemma url_encode_plain c : forallb plain (url_encode_char c) = true.
Proof. by destruct c as [[] [] [] [] [] [] [] []]; vm_compute. Qed.

Lemma url_encode_all s : Forall (fun c => plain c = true) (concat (map url_encode_char s)).
Proof.
  induction s as [| c s IH]; cbn [map concat]; [constructor |]. apply Forall_app. split; [| exact IH].
  apply List.Forall_forall, forallb_forall, url_encode_plain.
Qed.

Lemma plain_solid s : Forall (fun c => plain c = true) s -> solid s.
Proof.
  intros H. eapply Forall_impl; [exact H |]. intros c Hc. unfold plain in Hc.
  apply andb_prop in Hc as [Hc _]. by apply negb_true_iff in Hc.
Qed.

Lemma plain_lacks c s : plain c = false -> Forall (fun d => plain d = true) s -> lacks c s.
Proof. intros Hc H. eapply Forall_impl; [exact H |]. by intros d Hd ->; rewrite Hc in Hd. Qed.

Lemma base64_solid data : solid (base64_encode_bytes data).
Proof.
  assert (Hc : forall block shift, is_space (base64_char block shift) = false).
  { intros block shift. unfold base64_char.
    destruct (nth_in_or_default (Z.to_nat (Z.land (Z.shiftr block shift) 0x3f)) base64_alphabet "="%char) as [Hin | ->];
      [| done].
    assert (H : forallb (fun c => negb (is_space c)) base64_alphabet = true) by (vm_compute; reflexivity).
    rewrite forallb_forall in H. by apply negb_true_iff, H. }
  induction data as [data IH] using (induction_ltof1 _ length). unfold ltof in IH.
  destruct data as [| a [| b [| c data]]]; cbn [base64_encode_bytes]; cbv zeta;
    repeat (apply Forall_cons; split; [done || apply Hc |]); [apply Forall_nil_2 .. |].
  apply IH. simpl. lia.
Qed.

Lemma solid_no_crlf s : solid (chars s) -> has_any crlf_text s = false.
Proof.
  intros H. apply has_no_crlf. split; (eapply Forall_impl; [exact H |]); intros c Hc ->; by vm_compute in Hc.
Qed.

Lemma solid_app s t : solid (s ++ t) <-> solid s /\ solid t.
Proof. apply Forall_app. Qed.

(** ** The request a client sends *)

Definition target_of (parts : UrlParts) : string :=
  (if string_empty (url_path parts) then "/"%string else url_path parts) +:+
  (if string_empty (url_query parts) then ""%string else "?" +:+ url_query parts).

Definition authority_of (parts : UrlParts) : string :=
  let host := url_host parts in
  let authority_host := if string_contains ":" host then "[" +:+ host +:+ "]" else host in
  if string_empty (url_port parts) then authority_host else authority_host +:+ ":" +:+ url_port parts.

Definition fixed_headers (parts : UrlParts) (key : string) : list (string * string) :=
  [("Host", authority_of parts); ("Upgrade", "websocket"); ("Connection", "Upgrade");
   ("Sec-WebSocket-Key", key); ("Sec-WebSocket-Version", "13");
   ("User-Agent", "mine-teleop-websocket/0.2")]%string.

Lemma string_app_assoc (a b c : string) : (a +:+ b) +:+ c = a +:+ (b +:+ c).
Proof. induction a as [| x a IH]; [done |]. by change (String x ((a +:+ b) +:+ c) = String x (a +:+ (b +:+ c))); rewrite IH. Qed.

Lemma crlf_chars s : chars (crlf_text +:+ s) = http_newline ++ chars s.
Proof. by rewrite chars_app. Qed.

(** The headers of the caller. *)
Lemma render_headers_ok : forall hs seen text, render_headers seen hs = Ok text ->
  chars text = lines_text (map header_text hs) /\
  Forall (fun h => h.1 <> ""%string /\ lacks ":"%char (chars h.1) /\ has_any crlf_text h.1 = false /\
                   has_any crlf_text h.2 = false /\ string_in (lower h.1) reserved_headers = false) hs.
Proof.
  induction hs as [| [name value] hs IH]; intros seen text; cbn [render_headers].
  { intros [= <-]. by split. }
  intros H. apply result_bind_ok in H as ([] & Hc & H). apply result_bind_ok in H as (rest & Hr & [= <-]).
  destruct (IH _ _ Hr) as [Et Hall]. unfold throw_if in Hc. destruct (_ || _) eqn:E in Hc; [discriminate |].
  apply orb_false_iff in E as [E Hseen]. apply orb_false_iff in E as [E Hres].
  apply orb_false_iff in E as [E Hv]. apply orb_false_iff in E as [Hn Hany].
  assert (Hsplit : has_any crlf_text name = false /\ lacks ":"%char (chars name)).
  { unfold has_any in *. rewrite <- not_true_iff_false in Hany. rewrite existsb_exists in Hany. split.
    - apply not_true_iff_false. rewrite existsb_exists. intros (c & Hin & Hm). apply Hany. exists c. split; [done |].
      change (list_ascii_of_string (":" +:+ crlf_text)) with (":"%char :: list_ascii_of_string crlf_text).
      cbn [existsb]. rewrite Hm. by rewrite orb_true_r.
    - apply List.Forall_forall. intros c Hin ->. apply Hany. exists ":"%char. by split. }
  split.
  - unfold lines_text. cbn [map concat]. fold (lines_text (map header_text hs)). rewrite <- Et.
    unfold header_text. cbn [fst snd]. rewrite !chars_app. rewrite <- !app_assoc. done.
  - constructor; [| done]. cbn [fst snd]. split_and!; try done; try apply Hsplit. by intros ->.
Qed.

Lemma handshake_text parts key hs text : render_headers [] hs = Ok text ->
  chars (handshake_request parts key text) = request_text (target_of parts) (fixed_headers parts key ++ hs).
Proof.
  intros H. apply render_headers_ok in H as [Et _]. unfold request_text. unfold http_blank_line. rewrite app_assoc.
  rewrite <- lines_block by done. rewrite map_app. unfold lines_text. cbn [map concat fixed_headers app].
  fold (lines_text (map header_text hs)). rewrite <- Et. unfold handshake_request. fold (authority_of parts). cbv zeta.
  fold (target_of parts). unfold header_text, request_line. cbn [fst snd]. rewrite !chars_app, <- !app_assoc.
  reflexivity.
Qed.

(** ** The server reads it *)

Section handshake.
Context (session participant generation : string).

(** What [signaling_websocket_url] puts after the host. *)
Definition signaling_path : string := "/signaling/" +:+ url_encode session +:+ "/ws".
Definition signaling_query : string :=
  "participant=" +:+ url_encode participant +:+
  (if string_empty generation then ""%string else "&connection_generation=" +:+ url_encode generation).

Lemma signaling_target_solid : solid (chars (signaling_path +:+ "?" +:+ signaling_query)).
Proof.
  unfold signaling_path, signaling_query. rewrite !chars_app.
  pose proof (fun s => plain_solid _ (url_encode_all s)) as H. unfold url_encode. rewrite !chars_of.
  repeat (apply solid_app; split); try apply H; try (by repeat constructor).
  destruct (string_empty generation); [constructor |]. rewrite chars_app, chars_of.
  apply solid_app. split; [by repeat constructor | apply H].
Qed.

Definition signaling_parameters : gmap string string :=
  let query := <["participant" := participant]> ∅ in
  if string_empty generation then query else <["connection_generation" := generation]> query.

Lemma break_at_none c s : lacks c s -> break_at c s = (s, None).
Proof.
  induction 1 as [| d s Hd _ IH]; [done |]. cbn [break_at]. rewrite (proj2 (Ascii.eqb_neq d c)) by done. by rewrite IH.
Qed.

Lemma lacks_encoded c s : plain c = false -> lacks c (chars (url_encode s)).
Proof. intros H. unfold url_encode. rewrite chars_of. by apply plain_lacks, url_encode_all. Qed.

Lemma encoded_read s : url_decode (of_chars (chars (url_encode s))) = Ok s.
Proof.
  rewrite of_chars_chars. unfold url_decode, url_encode. rewrite chars_of, <- (app_nil_r (concat _)), url_text_read.
  cbn. by rewrite app_nil_r, of_chars_chars.
Qed.

(** One item of a query. *)
Lemma parse_query_item query name value items : lacks "="%char (chars name) -> chars name <> [] ->
  url_decode name = Ok name ->
  parse_query query ((chars name ++ "="%char :: chars (url_encode value)) :: items) =
  parse_query (<[name := value]> query) items.
Proof.
  intros Hl Hne Hd. cbn [parse_query]. destruct (chars name ++ _) as [| c item] eqn:E.
  { by destruct (chars name). }
  rewrite <- E, break_at_first by done. rewrite encoded_read. cbn [mbind result_bind].
  by rewrite of_chars_chars, Hd.
Qed.

Lemma signaling_target_read : parse_target (signaling_path +:+ "?" +:+ signaling_query) =
  Ok ("/signaling/" +:+ session +:+ "/ws", signaling_parameters)%string.
Proof.
  unfold parse_target. rewrite !chars_app. change (chars "?" ++ ?s) with ("?"%char :: s).
  rewrite break_at_first.
  2:{ unfold signaling_path. rewrite !chars_app. apply lacks_app. split; [by repeat constructor |].
      apply lacks_app. split; [by apply lacks_encoded | by repeat constructor]. }
  assert (Hp : url_decode (of_chars (chars signaling_path)) = Ok ("/signaling/" +:+ session +:+ "/ws")%string).
  { unfold url_decode. rewrite chars_of. unfold signaling_path, url_encode. rewrite !chars_app, chars_of.
    change (chars "/signaling/") with ["/"; "s"; "i"; "g"; "n"; "a"; "l"; "i"; "n"; "g"; "/"]%char. cbn [app].
    rewrite !url_decode_cons by done. rewrite url_text_read.
    change (url_decode_chars (chars "/ws")) with (Ok (chars "/ws")). cbn [mbind result_bind].
    rewrite <- chars_app. change (Ok (of_chars (chars "/signaling/" ++ chars (session +:+ "/ws"))) = Ok ("/signaling/" +:+ session +:+ "/ws")%string).
    by rewrite <- chars_app, of_chars_chars. }
  rewrite Hp. cbn [mbind result_bind].
  assert (Hq : parse_query ∅ (split_on "&"%char (chars signaling_query)) = Ok signaling_parameters).
  { unfold signaling_query, signaling_parameters. rewrite !chars_app.
    replace (chars "participant=" ++ chars (url_encode participant) ++ _) with
      ((chars "participant" ++ "="%char :: chars (url_encode participant)) ++
       chars (if string_empty generation then ""%string else "&connection_generation=" +:+ url_encode generation))
      by by rewrite <- app_assoc.
    assert (Hl : lacks "&"%char (chars "participant" ++ "="%char :: chars (url_encode participant))).
    { apply lacks_app. split; [by repeat constructor |]. apply Forall_cons. split; [done | by apply lacks_encoded]. }
    destruct (string_empty generation).
    - rewrite app_nil_r, split_on_none by done. by rewrite parse_query_item by (done || by repeat constructor).
    - rewrite chars_app. change (chars "&connection_generation=" ++ chars (url_encode generation)) with
        ("&"%char :: chars "connection_generation" ++ "="%char :: chars (url_encode generation)).
      rewrite split_on_app by done. rewrite split_on_none.
      + by rewrite !parse_query_item by (done || by repeat constructor).
      + apply lacks_app. split; [by repeat constructor |]. apply Forall_cons. split; [done | by apply lacks_encoded]. }
  by rewrite Hq.
Qed.
End handshake.

Lemma fixed_headers_ok parts key : solid (chars (url_host parts)) -> solid (chars (url_port parts)) ->
  solid (chars key) -> Forall header_ok (fixed_headers parts key).
Proof.
  intros Hh Hp Hk. assert (Ha : has_any crlf_text (authority_of parts) = false).
  { apply solid_no_crlf. unfold authority_of.
    assert (H : solid (chars (if string_contains ":" (url_host parts) then "[" +:+ url_host parts +:+ "]" else url_host parts))).
    { destruct (string_contains _ _); [| done]. rewrite !chars_app.
      apply solid_app; split; [by repeat constructor |]. apply solid_app; split; [done | by repeat constructor]. }
    destruct (string_empty (url_port parts)); [done |]. rewrite !chars_app. apply solid_app; split; [done |].
    apply solid_app; split; [by repeat constructor | done]. }
  unfold fixed_headers. repeat (apply Forall_cons; split); [.. | by apply Forall_nil_2];
    (split; [by split; [| split; [| repeat constructor]] |]); (split; [done |]); try done.
  by apply solid_no_crlf.
Qed.

(** ** The answer *)
Lemma lines_chars (ls : list (list ascii)) : lines_text ls ++ http_newline = concat (map (fun l => l ++ http_newline) ls) ++ http_newline.
Proof. done. Qed.

Lemma switching_text accept request_id : chars (switching_protocols accept request_id) =
  chars "HTTP/1.1 101 Switching Protocols" ++ http_newline ++
  lines_text (map header_text [("Upgrade", "websocket"); ("Connection", "Upgrade");
                               ("Sec-WebSocket-Accept", accept); ("X-Request-ID", request_id)]%string) ++ http_newline.
Proof. unfold switching_protocols. rewrite !chars_app. unfold lines_text, header_text. cbn [map concat fst snd]. by rewrite <- !app_assoc. Qed.

Lemma parse_header_line_ok headers header : name_ok header.1 ->
  parse_header_line headers (header_text header) = add_header headers header.
Proof.
  destruct header as [name value]. intros (_ & Ht & Hc). unfold parse_header_line, header_text, add_header. cbn [fst snd] in *.
  rewrite break_at_first by done. rewrite of_chars_chars, Ht. f_equal.
  rewrite !trim_rtrim, chars_of. done.
Qed.

(** The client takes an answer with the accept key it expects. *)
Lemma answer_accepted sha1 key accept request_id :
  websocket_accept_key sha1 key = Ok accept -> solid (chars accept) -> has_any crlf_text request_id = false ->
  check_status_line (chars (switching_protocols accept request_id)) = Ok tt /\
  check_handshake sha1 key (chars (switching_protocols accept request_id)) = Ok true.
Proof.
  intros Hk Ha Hid. rewrite switching_text.
  set (hs := [("Upgrade", "websocket"); ("Connection", "Upgrade"); ("Sec-WebSocket-Accept", accept); ("X-Request-ID", request_id)]%string).
  set (tail := lines_text (map header_text hs) ++ http_newline).
  assert (Hf : find_text http_newline (chars "HTTP/1.1 101 Switching Protocols" ++ http_newline ++ tail) = Some 32%nat).
  { unfold http_newline at 1. rewrite find_skip by by repeat constructor. fold http_newline. rewrite find_here. reflexivity. }
  split.
  - unfold check_status_line. rewrite Hf. reflexivity.
  - assert (Hok : Forall header_ok hs).
    { unfold hs. repeat (apply Forall_cons; split); [.. | by apply Forall_nil_2];
        (split; [by split; [| split; [| repeat constructor]] |]); (split; [done |]); try done. by apply solid_no_crlf. }
    assert (Hp : parse_http_headers (chars "HTTP/1.1 101 Switching Protocols" ++ http_newline ++ tail) =
                 foldl add_header ∅ hs).
    { unfold parse_http_headers. rewrite Hf.
      change (drop (32 + 2) (chars "HTTP/1.1 101 Switching Protocols" ++ http_newline ++ tail)) with tail.
      set (rounds := length _). assert (Hr : (4 < rounds)%nat) by (unfold rounds; rewrite !length_app; cbn; lia).
      unfold tail. rewrite <- (app_nil_r http_newline), header_lines_ok; [| | exact Hr].
      - clear -Hok. generalize (∅ : gmap string string). induction Hok as [| h hs Hh _ IH]; intros m; [done |].
        cbn [map foldl]. rewrite parse_header_line_ok by apply Hh. apply IH.
      - apply Forall_map. eapply Forall_impl; [exact Hok |]. intros h Hh. by apply header_line_ok. }
    unfold check_handshake. rewrite Hp. cbv zeta.
    assert (Hu : foldl add_header ∅ hs !! "upgrade"%string = Some "websocket"%string) by done.
    assert (Hc : foldl add_header ∅ hs !! "connection"%string = Some "Upgrade"%string) by done.
    assert (Hs : foldl add_header ∅ hs !! "sec-websocket-accept"%string = Some accept).
    { transitivity (Some (trim accept)); [done | by rewrite solid_trim]. }
    rewrite Hu, Hc, Hs. change (negb (String.eqb (lower "websocket") "websocket") ||
      negb (string_contains "upgrade" (lower "Upgrade"))) with false. cbv iota.
    rewrite Hk. cbn [mbind result_bind]. by rewrite String.eqb_refl.
Qed.

Lemma signaling_values participant generation :
  default ""%string (signaling_parameters participant generation !! "participant"%string) = participant /\
  default ""%string (signaling_parameters participant generation !! "connection_generation"%string) = generation.
Proof.
  unfold signaling_parameters. destruct (string_empty generation) eqn:E; split; try done.
  by apply String.eqb_eq in E as ->.
Qed.

(** The connection the parameters stand for. *)
Lemma signaling_connection {J : JsonApi} session participant generation request :
  participant <> ""%string -> http_method request = "GET"%string ->
  http_query request = signaling_parameters participant generation ->
  ws_parameters session request =
    inr (mkWsConnection session participant false false
           (j_object [("token", j_string (driver_credential request));
                      ("device_token", j_string (device_credential request));
                      ("connection_generation", j_string generation)]%string) 0 0).
Proof.
  intros Hp Hm Hq. unfold ws_parameters, request_credentials. rewrite Hm.
  destruct (signaling_values participant generation) as [E1 E2].
  assert (E : query_value request "participant" = participant /\
              query_value request "connection_generation" = generation /\
              query_value request "send_only" = ""%string /\ query_value request "types" = ""%string)
    by (unfold query_value; rewrite Hq; split_and!; [exact E1 | exact E2 | |];
        unfold signaling_parameters; by destruct (string_empty generation)).
  destruct E as (-> & -> & -> & ->). cbv zeta. by destruct participant.
Qed.

(** A header of the handshake is not shadowed by one of the caller's. *)
Lemma fixed_found parts key hs name value before after :
  fixed_headers parts key = before ++ (name, value) :: after ->
  Forall (fun h => lower h.1 <> lower name) after ->
  Forall (fun h => string_in (lower h.1) reserved_headers = false) hs ->
  string_in (lower name) reserved_headers = true ->
  foldl add_header ∅ (fixed_headers parts key ++ hs) !! lower name = Some (trim value).
Proof.
  intros -> Ha Hhs Hn. rewrite <- app_assoc. cbn [app]. apply header_found. apply Forall_app. split; [done |].
  eapply Forall_impl; [exact Hhs |]. intros h Hh E. cbv beta in Hh. rewrite E in Hh. congruence.
Qed.

(** The server accepts the headers of the client, whatever it added. *)
Lemma server_accepts {J : JsonApi} {S : Type} {Host : SignalingHost J S} parts key accept hs request :
  http_headers request = foldl add_header ∅ (fixed_headers parts key ++ hs) ->
  Forall (fun h => string_in (lower h.1) reserved_headers = false) hs ->
  solid (chars key) -> string_empty key = false -> websocket_accept_key host_sha1 key = Ok accept ->
  ws_handshake request = inr accept.
Proof.
  intros Hrq Hhs Hk Hne Ha. unfold ws_handshake, connection_upgrade, header_token. rewrite Hrq.
  pose proof (fun name value before after H1 H2 => fixed_found parts key hs name value before after H1 H2 Hhs) as F.
  assert (Hu : foldl add_header ∅ (fixed_headers parts key ++ hs) !! "upgrade"%string = Some "websocket"%string)
    by (eapply (F "Upgrade"%string "websocket"%string [_]); [reflexivity | by repeat constructor | done]).
  assert (Hc : foldl add_header ∅ (fixed_headers parts key ++ hs) !! "connection"%string = Some "Upgrade"%string)
    by (eapply (F "Connection"%string "Upgrade"%string [_; _]); [reflexivity | by repeat constructor | done]).
  assert (Hv : foldl add_header ∅ (fixed_headers parts key ++ hs) !! "sec-websocket-version"%string = Some "13"%string)
    by (eapply (F "Sec-WebSocket-Version"%string "13"%string [_; _; _; _]);
        [reflexivity | by repeat constructor | done]).
  assert (Hky : foldl add_header ∅ (fixed_headers parts key ++ hs) !! "sec-websocket-key"%string = Some (trim key))
    by (eapply (F "Sec-WebSocket-Key"%string key [_; _; _]); [reflexivity | by repeat constructor | done]).
  rewrite (bool_decide_eq_true_2 (_ = Some "websocket"%string)) by (by rewrite Hu).
  rewrite (bool_decide_eq_true_2 (_ = Some "13"%string)) by (by rewrite Hv).
  rewrite Hc, Hky. change (existsb _ (split_on "," (chars "Upgrade"))) with true.
  cbn [negb option_map]. rewrite !solid_trim by (done || by rewrite solid_trim). by rewrite Hne, Ha.
Qed.

(** The key of sixteen bytes is one the server hashes. *)
Lemma nonce_accepted sha1 nonce digest : length nonce = 16%nat -> Forall is_byte nonce ->
  sha1 (base64_encode nonce +:+ kWebSocketGuid) = Ok digest ->
  websocket_accept_key sha1 (base64_encode nonce) = Ok (base64_encode digest).
Proof.
  intros Hn Hb Hs. unfold websocket_accept_key. rewrite base64_roundtrip by (done || by intros ->).
  rewrite Hn. change (Z.of_nat 16 =? 16) with true. cbv iota. by rewrite Hs.
Qed.

(** ** The session a handler reads *)

(** The handler decodes the path once more, piece by piece: what it reads is the session only
    when neither a slash nor an escape is left in it. *)
Definition path_safe (session : string) : bool :=
  negb (string_empty session) &&
  forallb (fun c => negb (existsb (Ascii.eqb c) (chars "%+/"))) (chars session).

Lemma path_safe_chars session : path_safe session = true ->
  chars session <> [] /\ Forall (fun c => c <> "%"%char /\ c <> "+"%char) (chars session) /\
  lacks "/"%char (chars session).
Proof.
  unfold path_safe. intros [Hne H]%andb_true_iff. split; [by destruct session |].
  rewrite forallb_forall in H. split; apply List.Forall_forall; intros c Hin; specialize (H c Hin);
    cbn [existsb chars String.list_ascii_of_string] in H; apply negb_true_iff, orb_false_iff in H as [H1 H];
    apply orb_false_iff in H as [H2 H]; apply orb_false_iff in H as [H3 _];
    apply Ascii.eqb_neq in H1, H2, H3; by try split.
Qed.

Lemma url_decode_same s : Forall (fun c => c <> "%"%char /\ c <> "+"%char) s -> url_decode_chars s = Ok s.
Proof. induction 1 as [| c s [H1 H2] _ IH]; [done |]. rewrite url_decode_cons by done. by rewrite IH. Qed.

Lemma signaling_path_parts session : path_safe session = true ->
  path_parts ("/signaling/" +:+ session +:+ "/ws") = Ok ["signaling"; session; "ws"]%string.
Proof.
  intros H. apply path_safe_chars in H as (Hne & Hdec & Hl). rewrite path_parts_splits. unfold path_pieces.
  rewrite !chars_app.
  replace (chars "/signaling/" ++ chars session ++ chars "/ws") with
    ([] ++ "/"%char :: chars "signaling" ++ "/"%char :: chars session ++ "/"%char :: chars "ws") by done.
  rewrite !split_on_app, split_on_none by (done || by repeat constructor). cbn [List.filter nonempty].
  change (nonempty (chars "signaling")) with true. change (nonempty (chars "ws")) with true.
  replace (nonempty (chars session)) with true by by destruct (chars session).
  assert (Hd : url_decode session = Ok session)
    by (unfold url_decode; rewrite url_decode_same by done; cbn; by rewrite of_chars_chars).
  cbn [map]. rewrite (of_chars_chars session). cbn [map_result]. by rewrite Hd.
Qed.

(** What a computation does under a request's id. *)
Lemma with_request_id_run {J : JsonApi} {S : Type} {Host : SignalingHost J S} {A} id
    (m : M (SignalingProcess J S) A) p a q :
  with_request_id id m p = (Ok a, q) <->
  exists p1, m (p <| srv_active_request_id := id |>) = (Ok a, p1) /\
    q = p1 <| srv_active_request_id := srv_active_request_id p |>.
Proof.
  unfold with_request_id. erewrite bind_run by reflexivity. cbv zeta. erewrite bind_run by reflexivity.
  unfold mbind, M_bind, try_catch. destruct (m _) as [[x | e] p1]; cbn.
  - split; [intros [= <- <-]; by exists p1 | by intros (p2 & [= <- <-] & ->)].
  - split; [done | by intros (p2 & ? & _)].
Qed.

(** The handler of a path it takes as a session's opens a connection that may be opened. *)
Lemma websocket_opened {J : JsonApi} {S : Type} {Host : SignalingHost J S} request session conn accept
    (srv opened srv' : SignalingProcess J S) token :
  path_parts (http_path request) = Ok ["signaling"; session; "ws"]%string ->
  ws_parameters session request = inr conn -> ws_handshake request = inr accept ->
  random_token 12 srv = (Ok token, opened) ->
  with_request_id ("request-" +:+ token) (rate_limit request;; ws_authenticate conn) opened = (Ok tt, srv') ->
  handle_websocket_open request srv = (Ok (Some (inr (conn, accept))), srv').
Proof.
  intros Hp Hc Hk Ht Ha. unfold handle_websocket_open. rewrite (bind_run _ _ srv _ srv (f_equal2 pair Hp eq_refl)).
  change (negb (String.eqb "signaling" "signaling" && String.eqb "ws" "ws")) with false. cbv iota.
  rewrite (bind_run _ _ _ _ _ Ht). apply with_request_id_run in Ha as (p1 & Ha & ->).
  apply with_request_id_run. exists p1. split; [| done].
  revert Ha. unfold mbind at 1, M_bind at 1.
  destruct (rate_limit request _) as [[[] | e] p2] eqn:El; [| done]. intros Ha.
  erewrite bind_run.
  2:{ unfold try_catch, mbind, M_bind. rewrite El. reflexivity. }
  cbv iota. erewrite bind_run; [reflexivity |]. unfold SignalingService.ws_open. rewrite Hc.
  erewrite bind_run.
  2:{ unfold try_catch, mbind, M_bind. rewrite Ha. reflexivity. }
  cbv iota. by rewrite Hk.
Qed.

(** What the server reads; the server adds the address of its peer. *)
Definition opening_request (session participant generation : string) (headers : gmap string string)
    (peer : string) : HttpRequest :=
  mkHttpRequest "GET" (signaling_path session +:+ "?" +:+ signaling_query participant generation) peer
    ("/signaling/" +:+ session +:+ "/ws") (signaling_parameters participant generation) headers "".

(** C30. The client's handshake opens the connection it means.  For a session whose id holds
    no percent sign, plus sign or slash (the handler decodes the path once more), and a
    participant: whatever pieces the request comes in, the server reads the session, the
    participant and the connection generation the client meant (though they travel
    percent-encoded) and the headers it added; [handle_websocket], when its rate limit and
    the authentication of that connection pass, opens it for that session, participant and
    generation with the accept key; and the client accepts the server's answer. *)
Theorem handshake_agrees {J : JsonApi} {S : Type} {Host : SignalingHost J S} {W : Type} {Sock : SocketApi W}
    delivers start finish max_body_bytes host port session participant generation nonce hs text digest (w : W) :
  let key := base64_encode nonce in
  let parts := mkUrlParts host port (signaling_path session) (signaling_query participant generation) in
  transport delivers start finish -> 0 <= max_body_bytes ->
  solid (chars host) -> solid (chars port) ->
  length nonce = 16%nat -> Forall is_byte nonce -> host_sha1 (key +:+ kWebSocketGuid) = Ok digest ->
  render_headers [] hs = Ok text -> Forall (fun h => trim h.1 = h.1 /\ lower h.1 <> "content-length"%string) hs ->
  Z.of_nat (String.length (handshake_request parts key text)) <= kMaxHeaders ->
  delivers (chars (handshake_request parts key text)) w ->
  path_safe session = true -> participant <> ""%string ->
  let headers := foldl add_header ∅ (fixed_headers parts key ++ hs) in
  (exists w', parse_request max_body_bytes w =
                (Ok (opening_request session participant generation headers ""), w') /\ delivers [] w') /\
  forall peer,
    let request := opening_request session participant generation headers peer in
    path_parts (http_path request) = Ok ["signaling"; session; "ws"]%string /\
    query_value request "participant" = participant /\
    query_value request "connection_generation" = generation /\
    (forall hs1 name value hs2, hs = hs1 ++ (name, value) :: hs2 ->
       Forall (fun h => lower h.1 <> lower name) hs2 -> headers !! lower name = Some (trim value)) /\
    (let conn := mkWsConnection session participant false false
                   (j_object [("token", j_string (driver_credential request));
                              ("device_token", j_string (device_credential request));
                              ("connection_generation", j_string generation)]%string) 0 0 in
     forall srv token opened srv',
       random_token 12 srv = (Ok token, opened) ->
       with_request_id ("request-" +:+ token) (rate_limit request;; ws_authenticate conn) opened = (Ok tt, srv') ->
       handle_websocket_open request srv = (Ok (Some (inr (conn, base64_encode digest))), srv')) /\
    forall request_id, has_any crlf_text request_id = false ->
      let answer := chars (switching_protocols (base64_encode digest) request_id) in
      check_status_line answer = Ok tt /\ check_handshake host_sha1 key answer = Ok true.
Proof.
  intros key parts T Hmax Hh Hp Hn Hb Hsha Hr Htrim Hlen Hd Hsafe Hpart.
  assert (Hkey : solid (chars key)) by (unfold key, base64_encode; rewrite chars_of; apply base64_solid).
  pose proof (render_headers_ok _ _ _ Hr) as [_ Hall].
  assert (Hhs : Forall header_ok hs).
  { apply List.Forall_forall. intros h Hin. rewrite List.Forall_forall in Hall, Htrim.
    destruct (Hall h Hin) as (H1 & H2 & H3 & H4 & _). destruct (Htrim h Hin) as [H5 _]. by repeat split. }
  assert (Hok : Forall header_ok (fixed_headers parts key ++ hs)).
  { apply Forall_app. split; [by apply fixed_headers_ok | done]. }
  assert (Et : target_of parts = (signaling_path session +:+ "?" +:+ signaling_query participant generation)%string)
    by done.
  pose proof (handshake_text parts key hs text Hr) as Htext. rewrite Et in Htext.
  rewrite Htext in Hd. rewrite <- chars_length, Htext in Hlen.
  destruct (parse_request_ok delivers start finish T max_body_bytes
              (signaling_path session +:+ "?" +:+ signaling_query participant generation)
              (fixed_headers parts key ++ hs) ("/signaling/" +:+ session +:+ "/ws")
              (signaling_parameters participant generation) w)
    as (w1 & Hd1 & E); try done.
  { apply signaling_target_solid. }
  { apply Forall_app. split; [by repeat constructor |]. eapply Forall_impl; [exact Htrim |]. by intros h [_ ?]. }
  { apply signaling_target_read. }
  assert (Hres : Forall (fun h => string_in (lower h.1) reserved_headers = false) hs).
  { eapply Forall_impl; [exact Hall |]. intros h Hh'. apply Hh'. }
  pose proof (nonce_accepted host_sha1 nonce digest Hn Hb Hsha) as Hacc.
  intros headers. split; [by exists w1 |]. intros peer request.
  split; [by apply signaling_path_parts |].
  split; [apply (signaling_values participant generation) |]. split; [apply (signaling_values participant generation) |].
  split; [| split].
  - intros hs1 name value hs2 Ehs Hl. unfold headers. rewrite Ehs, app_assoc. by apply header_found.
  - assert (Hws : ws_handshake request = inr (base64_encode digest)).
    { apply (server_accepts parts key _ hs); try done.
      unfold key, base64_encode. destruct nonce as [| a [| b [| c nonce]]]; try done. }
    intros conn srv token opened srv' Ht Ha.
    apply (websocket_opened request session conn _ srv opened srv' token); try done.
    + by apply signaling_path_parts.
    + by apply signaling_connection.
  - intros request_id Hid. apply answer_accepted; [exact Hacc | | done].
    unfold base64_encode. rewrite chars_of. apply base64_solid.
Qed.

(** The driver of the demonstration's session, on the pipe of [WebSocketProperties], character
    by character. *)
Definition demo_nonce : list Z := [1; 2; 3; 4; 5; 6; 7; 8; 9; 10; 11; 12; 13; 14; 15; 255].
Definition demo_parts : UrlParts :=
  mkUrlParts "cloud" "8080" (signaling_path demo_session_id) (signaling_query "driver-console-001" "7+").
Definition demo_headers : list (string * string) := [("X-Mine-Teleop-Driver-Token", demo_token)]%string.
Definition demo_rendered : string :=
  match render_headers [] demo_headers with Ok text => text | Throw _ => "" end.
Definition demo_request_pipe : Pipe :=
  trickle (chars (handshake_request demo_parts (base64_encode demo_nonce) demo_rendered)).

Definition demo_opening : HttpRequest :=
  opening_request demo_session_id "driver-console-001" "7+"
    (foldl add_header ∅ (fixed_headers demo_parts (base64_encode demo_nonce) ++ demo_headers)) "10.0.0.1".
Definition demo_connection : WsConnection :=
  mkWsConnection demo_session_id "driver-console-001" false false
    (j_object [("token", j_string demo_token); ("device_token", j_string "");
               ("connection_generation", j_string "7+")]%string) 0 0.

(** Seven calls for random bytes come before. *)
Definition demo_request_token : string := "070707070707070707070707".

Lemma ran {A B : Type} (run : result A * B) a : run.1 = Ok a -> run = (Ok a, run.2).
Proof. destruct run. simpl. by intros ->. Qed.

(** The server that granted the session opens the driver's connection. *)
Lemma handshake_agrees_witness :
  let srv := server_run demo_until_granted demo_server in
  (handle_websocket_open demo_opening srv).1 =
    Ok (Some (inr (demo_connection, base64_encode (repeat 0 20)))) /\
  http_headers demo_opening !! "x-mine-teleop-driver-token"%string = Some demo_token.
Proof.
  intros srv.
  destruct (handshake_agrees (Host := demo_machine_host) pipe_delivers 0 1 1024 "cloud" "8080" demo_session_id
              "driver-console-001" "7+" demo_nonce demo_headers demo_rendered (repeat 0 20) demo_request_pipe)
    as (_ & Hread).
  - exact pipe_transport.
  - lia.
  - by repeat constructor.
  - by repeat constructor.
  - reflexivity.
  - repeat (apply Forall_cons; split; [unfold is_byte; lia |]). apply Forall_nil_2.
  - reflexivity.
  - reflexivity.
  - by repeat constructor.
  - vm_compute. discriminate.
  - exact (trickle_delivers _).
  - reflexivity.
  - discriminate.
  - destruct (Hread "10.0.0.1"%string) as (_ & _ & _ & Hh & Hws & _). fold demo_parts demo_opening in Hh, Hws.
    split.
    + assert (Ht : driver_credential demo_opening = demo_token) by (vm_compute; reflexivity).
      assert (Hd : device_credential demo_opening = ""%string) by (vm_compute; reflexivity).
      cbv zeta in Hws. fold demo_opening in Hws. rewrite Ht, Hd in Hws. fold demo_connection in Hws.
      set (opened := (random_token 12 srv).2).
      rewrite (Hws srv demo_request_token opened
                 (with_request_id ("request-" +:+ demo_request_token)
                    (rate_limit demo_opening;; ws_authenticate demo_connection) opened).2).
      * reflexivity.
      * apply ran. vm_compute. reflexivity.
      * apply ran. vm_compute. reflexivity.
    + apply (Hh [] "X-Mine-Teleop-Driver-Token" demo_token []); [reflexivity | constructor].
Defined.

(** A path is decoded twice: once in [parse_request] and once more, piece by piece, in
    [path_parts].  A driver whose id holds a plus sign, correctly written as %2B by the
    client, is looked up under another name. *)
Theorem path_decoded_twice :
  url_encode "ops+1" = "ops%2B1"%string /\
  exists path, parse_target ("/drivers/" +:+ url_encode "ops+1" +:+ "/vehicles") = Ok (path, ∅) /\
    path_parts path = Ok ["drivers"; "ops 1"; "vehicles"]%string.
Proof. split; [reflexivity |]. eexists. by split. Qed.
