(* ===== verification/SignalingGrants.v ===== *)
(** SignalingGrants: who may hold control of a vehicle.

    - at most one session of a vehicle is open, in every run ([exclusive_authority]);
    - a session only ever loses authority: nothing reopens it or changes whose it is
      ([authority_only_falls]);
    - control is granted by one request only, with everything it needs
      ([grant_guarded]). *)
From S2P Require Export SignalingAuthority SignalingDemo.

Section steps.
Context {J : JsonApi} {W : Type} {Host : SignalingHost J W} {Logs : SessionLogs J W}.
Context {HL : HashLaws J W}.
Notation State := (SignalingState J).
Notation Srv := (SignalingProcess J W).

(** ** One step *)

(** The body of a request for control. *)
Definition grant_request (op : server_op (J := J) (W := W)) : option json :=
  match op with
  | SrvDispatch request =>
      if String.eqb (http_method request) "POST" && String.eqb (http_path request) "/sessions" then
        match HttpRequest_json_body request with Ok value => Some value | Throw _ => None end
      else None
  | _ => None
  end.

(** It is cleaned up first. *)
Lemma grant_request_step op value (p : Srv) :
  grant_request op = Some value ->
  exists p1, shrinks (srv_state p) (srv_state p1) /\
    (forall K, closed_under_changes K -> members K p -> members K p1) /\
    (server_step op p = p1 \/ server_step op p = (post_sessions value p1).2).
Proof.
  destruct op as [| request | | | | | |]; try done. cbn [grant_request server_step].
  destruct (String.eqb_spec (http_method request) "POST") as [Hm |]; [| done].
  destruct (String.eqb_spec (http_path request) "/sessions") as [Hp |]; [| done].
  destruct (HttpRequest_json_body request) as [v |] eqn:Ev; [intros [= ->] | done].
  set (q := (dispatch request p).2). assert (Hq : q = (dispatch request p).2) by done. clearbody q.
  unfold dispatch in Hq. rewrite Hp, Hm in Hq. cbn -[handle_post] in Hq. revert Hq.
  unfold handle_post, mbind, M_bind, lift. rewrite Ev, Hp.
  destruct (path_parts "/sessions") as [parts |] eqn:Epp; [| by vm_compute in Epp].
  pose proof (silent_now_ms p) as Hs. destruct (now_ms p) as [[now | e] p0]; simpl in Hs.
  2: { intros ->. exists p0. rewrite Hs. split; [apply shrinks_refl | split; [| by left]].
       intros K _. unfold members. simpl. by rewrite Hs. }
  pose proof (shrinks_cleanup (srv_state p) now p0) as Hsh.
  assert (Hk : forall K, closed_under_changes K -> members K p ->
               members K (cleanup_expired_connections now p0).2).
  { intros K HK HKp. apply cleanup_keeps; [done |]. unfold members. by rewrite Hs. }
  unfold members in Hsh. rewrite Hs in Hsh. specialize (Hsh (shrinks_refl _)).
  destruct (cleanup_expired_connections now p0) as [[[] | e] p1]; intros ->; exists p1; auto.
Qed.

Definition about_sessions (K : State -> Prop) : Prop :=
  forall s f, K s -> K (s <| srv_mobile_approvals ::= f |>).

Lemma decision_keeps (K : State -> Prop) id rid request :
  about_sessions K -> keeps (members (W := W) K) (mobile_decision id rid request).
Proof.
  intros HK.
  assert (Hset : forall v a, keeps (members (W := W) K) (set_approval v a))
    by (intros v a p H; by apply HK).
  unfold mobile_decision. repeat (first [apply Hset | srv_keeps_step]).
Qed.

(** Any other step. *)
Lemma other_step op (K : State -> Prop) (p : Srv) :
  closed_under_changes K ->
  (forall id rid request, keeps (members (W := W) K) (mobile_decision id rid request)) ->
  grant_request op = None -> members K p -> members K (server_step op p).
Proof.
  intros HK Hd Hg H. destruct op as [request | request | id request | conn | conn message | | change | record vehicle driver];
    simpl.
  - by apply rate_limit_keeps.
  - apply dispatch_keeps; [done | | done | done]. intros Hm Hp value Hv. cbn [grant_request] in Hg.
    by rewrite Hm, Hp, Hv in Hg.
  - by apply ws_open_keeps.
  - by apply ws_poll_keeps.
  - by apply ws_receive_keeps.
  - assert (keeps (members K) reap) as Hk by (unfold reap; srv_keeps). by apply Hk.
  - done.
  - by apply begin_export_keeps.
Qed.

(** A step keeps what its frame keeps, until it grants control. *)
Lemma step_leads op (p : Srv) (I : State -> Prop) I2 :
  let s0 := srv_state p in
  closed_under_changes I -> about_sessions I ->
  (forall value d v tok, asks value d v tok ->
   grant_frame s0 (srv_session_counter s0) d v tok I (I2 d v tok)) ->
  members I p ->
  members I (server_step op p) \/
  exists value d v tok id,
    grant_request op = Some value /\ asks value d v tok /\ may_drive s0 d v tok /\
    members (I2 d v tok id) (server_step op p).
Proof.
  intros s0 HI Ha F H. destruct (grant_request op) as [value |] eqn:E.
  2: { left. apply other_step; auto. intros. by apply decision_keeps. }
  destruct (grant_request_step op value p E) as (p1 & Hs & Hk & [-> | ->]); [left; auto |].
  pose proof (post_sessions_leads s0 (srv_session_counter s0) value I I2 HI (F value) p1) as Hl.
  destruct Hl as [Hl | (d & v & tok & id & Hl)]; [| by left | right].
  { split; [by apply Hk | split; [| done]]. by apply (Hk _ (counter_closed _)). }
  exists value, d, v, tok, id. by destruct Hl as (? & ? & ?).
Qed.

(** With one invariant on both sides of the grant. *)
Lemma step_keeps op (p : Srv) (I : State -> Prop) :
  closed_under_changes I -> about_sessions I ->
  (forall d v tok, grant_frame (srv_state p) (srv_session_counter (srv_state p)) d v tok I (fun _ => I)) ->
  members I p -> members I (server_step op p).
Proof.
  intros HI Ha F H.
  destruct (step_leads op p I (fun _ _ _ _ => I) HI Ha (fun _ d v tok _ => F d v tok) H)
    as [? | (value & d & v & tok & id & _ & _ & _ & ?)]; auto.
Qed.
End steps.

Section invariants.
Context {J : JsonApi} {W : Type} {Host : SignalingHost J W} {Logs : SessionLogs J W}.
Context {HL : HashLaws J W}.
Notation State := (SignalingState J).
Notation Srv := (SignalingProcess J W).

(** The construction changes neither sessions nor approvals. *)
Lemma construct_keeps (K : State -> Prop) :
  closed_under_changes K -> keeps (members (W := W) K) construct.
Proof. intros HK. unfold construct. srv_keeps. Qed.

Lemma run_invariant (K : State -> Prop) config (host : W) :
  closed_under_changes K -> K (empty_state config) ->
  (forall op p, members K p -> members K (server_step op p)) ->
  forall ops, members K (server_run ops (new_SignalingService config host).2).
Proof.
  intros HK H0 Hstep ops.
  assert (H : members K (new_SignalingService config host).2) by by apply construct_keeps.
  revert H. generalize (new_SignalingService config host).2.
  induction ops as [| op ops IH]; intros p H; simpl; auto.
Qed.

(** ** One open session per vehicle *)

Definition exclusive (s : State) : Prop :=
  forall i j x y, srv_sessions s !! i = Some x -> srv_sessions s !! j = Some y ->
  is_open x = true -> is_open y = true -> sess_vehicle_id x = sess_vehicle_id y -> i = j.

(** Changing one session, without opening it or giving it another vehicle. *)
Lemma exclusive_alter (s : State) id f :
  (forall x, srv_sessions s !! id = Some x ->
     sess_vehicle_id (f x) = sess_vehicle_id x /\ (is_open (f x) = true -> is_open x = true)) ->
  exclusive s -> exclusive (s <| srv_sessions ::= alter f id |>).
Proof.
  intros Hf H i j x y Hx Hy Ox Oy Hv. simpl in Hx, Hy.
  apply lookup_alter_session in Hx as (x0 & Hx & Ex), Hy as (y0 & Hy & Ey).
  assert (Hx' : is_open x0 = true /\ sess_vehicle_id x = sess_vehicle_id x0).
  { destruct Ex as [-> | [-> ->]]; [done |]. destruct (Hf _ Hx). auto. }
  assert (Hy' : is_open y0 = true /\ sess_vehicle_id y = sess_vehicle_id y0).
  { destruct Ey as [-> | [-> ->]]; [done |]. destruct (Hf _ Hy). auto. }
  destruct Hx', Hy'. eapply H; eauto. congruence.
Qed.

Lemma exclusive_changes : closed_under_changes exclusive.
Proof.
  intros s s' Hc H. destruct Hc as [s' (_ & Hs & _) | id f Hf | f Hf]; [| | exact H].
  - unfold exclusive. by rewrite Hs.
  - apply exclusive_alter; [| done]. intros x Hx. specialize (Hf x Hx).
    split; [by destruct Hf as (_ & -> & _) | by apply moves_open].
Qed.

Lemma exclusive_frame s0 c d v tok : grant_frame s0 c d v tok exclusive (fun _ => exclusive).
Proof.
  split; [apply exclusive_changes | intros; apply exclusive_changes | done | done | |].
  - intros s started token expires id H _ Hg i j x y. simpl.
    rewrite !lookup_insert_Some. pose proof (gr_free _ _ _ _ _ Hg) as Hf.
    intros [[<- <-] | [Hi Hx]] [[<- <-] | [Hj Hy]] Ox Oy; simpl; intros Hv; [done | | |].
    + by rewrite (Hf j y Hy (eq_sym Hv)) in Oy.
    + by rewrite (Hf i x Hx Hv) in Ox.
    + by eapply H.
  - intros id s x next H Hx Hn. apply exclusive_alter; [| done].
    intros x' Hx'. rewrite Hx in Hx'. injection Hx' as <-. split; [done |]. intros _.
    unfold is_open. destruct (sess_state x); done.
Qed.
End invariants.

(** C4. Control of a vehicle is exclusive.  In every state of every run of the server -
    whatever requests, WebSocket messages and reaper passes come in whatever order,
    whatever the clocks, the random bytes and the audit log do, even across wrapped
    counters - at most one session of a vehicle is open. *)
Theorem exclusive_authority {J : JsonApi} {W : Type} {Host : SignalingHost J W}
    {Logs : SessionLogs J W} {HL : HashLaws J W} config (host : W) ops i j x y :
  let s := srv_state (server_run ops (new_SignalingService config host).2) in
  srv_sessions s !! i = Some x -> srv_sessions s !! j = Some y ->
  is_open x = true -> is_open y = true -> sess_vehicle_id x = sess_vehicle_id y -> i = j.
Proof.
  apply (run_invariant exclusive); [apply exclusive_changes | done |].
  intros op p. apply step_keeps; [apply exclusive_changes | by intros s f H |]. intros d v tok.
  apply exclusive_frame.
Qed.

Lemma exclusive_authority_witness :
  exists x, srv_sessions (srv_state (server_run demo_until_granted demo_server)) !!
              demo_session_id = Some x /\ is_open x = true /\
  (forall j y, srv_sessions (srv_state (server_run demo_until_granted demo_server)) !! j = Some y ->
               is_open y = true -> sess_vehicle_id y = "vehicle-001"%string -> demo_session_id = j).
Proof.
  destruct (srv_sessions (srv_state (server_run demo_until_granted demo_server)) !! demo_session_id)
    as [x |] eqn:E; [| by vm_compute in E].
  assert (Hx : is_open x = true /\ sess_vehicle_id x = "vehicle-001"%string).
  { pose proof E as E'. vm_compute in E'. injection E' as <-. split; reflexivity. }
  exists x. split; [reflexivity | split; [exact (proj1 Hx) |]]. intros j y Hy Oy Hv.
  unfold demo_server in E, Hy.
  refine (exclusive_authority demo_server_config demo_machine demo_until_granted _ j x y E Hy
            (proj1 Hx) Oy _).
  by rewrite Hv, (proj2 Hx).
Defined.

(** ** The names of sessions *)
Lemma zeros_digits n s k :
  decimal_digits 0 k (chars (zeros_text n +:+ s)) = decimal_digits 0 (k + n) (chars s).
Proof.
  revert k. induction n as [| n IH]; intros k; simpl; [by rewrite Nat.add_0_r |].
  change (list_ascii_of_string (zeros_text n +:+ s)) with (chars (zeros_text n +:+ s)).
  rewrite IH. f_equal. lia.
Qed.

(** The number of a session can be read back from its name. *)
Lemma session_number n :
  0 <= n -> (decimal_digits 0 0 (drop 8 (chars (session_id_of n)))).1 = n.
Proof.
  intros Hn. unfold session_id_of. rewrite chars_app.
  rewrite drop_app_length' by done. rewrite zeros_digits.
  set (k := (0 + _)%nat). clearbody k.
  assert (H : forall s acc k, (decimal_digits acc k s).1 = (decimal_digits acc 0 s).1).
  { clear. intros s. assert (H : forall acc k k', (decimal_digits acc k s).1 = (decimal_digits acc k' s).1).
    { induction s as [| c s IH]; intros; simpl; [done |]. by destruct (_ && _). }
    intros. apply H. }
  by rewrite H, decimal_digits_to_string.
Qed.

Lemma session_id_inj m n : 0 <= m -> 0 <= n -> session_id_of m = session_id_of n -> m = n.
Proof. intros Hm Hn H. rewrite <- (session_number m), <- (session_number n) by done. by rewrite H. Qed.

Section history.
Context {J : JsonApi} {W : Type} {Host : SignalingHost J W} {Logs : SessionLogs J W}.
Context {HL : HashLaws J W}.
Notation State := (SignalingState J).
Notation Srv := (SignalingProcess J W).

(** ** The life of a session *)
Lemma session_moves_trans x y z : session_moves x y -> session_moves y z -> session_moves x z.
Proof.
  unfold session_moves. intros (A1 & A2 & A3 & A4 & A5 & A6) (B1 & B2 & B3 & B4 & B5 & B6).
  split_and!; try congruence; [| destruct A6, B6; (left + right); congruence].
  destruct B5 as [-> | [[-> B5] | ->]]; [done | | by right; right].
  destruct A5 as [A5 | [[A5 A5'] | A5]]; right; left; split; congruence.
Qed.

(** Every session of [s0] is still there, no better than it was. *)
Definition falls (s0 s : State) : Prop :=
  forall id x, srv_sessions s0 !! id = Some x ->
  exists y, srv_sessions s !! id = Some y /\ session_moves x y.

Lemma falls_refl s : falls s s.
Proof. intros id x H. exists x. split; [done | reflexivity]. Qed.

Lemma falls_trans s1 s2 s3 : falls s1 s2 -> falls s2 s3 -> falls s1 s3.
Proof.
  intros H1 H2 id x Hx. destruct (H1 _ _ Hx) as (y & Hy & M1).
  destruct (H2 _ _ Hy) as (z & Hz & M2). exists z. split; [done | by eapply session_moves_trans].
Qed.

Lemma falls_alter (s0 s : State) id f :
  (forall x, srv_sessions s !! id = Some x -> is_Some (srv_sessions s0 !! id) -> session_moves x (f x)) ->
  falls s0 s -> falls s0 (s <| srv_sessions ::= alter f id |>).
Proof.
  intros Hf H i x Hx. destruct (H _ _ Hx) as (y & Hy & Hm). simpl.
  destruct (decide (i = id)) as [-> | Hi].
  - exists (f y). rewrite lookup_alter_eq, Hy. split; [done |].
    eapply session_moves_trans; [exact Hm | eauto].
  - exists y. by rewrite lookup_alter_ne.
Qed.

(** The names of the sessions are those of the counts so far. *)
Definition named (s : State) : Prop :=
  0 <= srv_session_counter s /\
  forall id, is_Some (srv_sessions s !! id) ->
  exists n, 1 <= n <= srv_session_counter s /\ id = session_id_of n.

Definition history (s0 s : State) : Prop :=
  falls s0 s /\ named s /\ srv_session_counter s <= srv_session_counter s0 + 1.

Lemma history_alter s0 s id f :
  (forall x, srv_sessions s !! id = Some x -> is_Some (srv_sessions s0 !! id) -> session_moves x (f x)) ->
  history s0 s -> history s0 (s <| srv_sessions ::= alter f id |>).
Proof.
  intros Hf (H1 & [H0 H2] & H3). split_and!; [by apply falls_alter | | done].
  split; [done |]. intros i Hi. simpl in *. apply H2. by rewrite lookup_alter_is_Some in Hi.
Qed.

Lemma history_changes s0 : closed_under_changes (history s0).
Proof.
  intros s s' Hc H. destruct Hc as [s' (_ & Hs & Hn & _) | id f Hf | f Hf]; [| | exact H].
  - unfold history, falls, named. by rewrite Hs, Hn.
  - apply history_alter; [| done]. eauto.
Qed.

Lemma history_frame (s0 : State) d v tok :
  named s0 -> srv_session_counter s0 + 1 < 2 ^ 64 ->
  grant_frame s0 (srv_session_counter s0) d v tok (history s0)
    (fun id s => history s0 s /\ srv_sessions s0 !! id = None).
Proof.
  intros [Hc Hn0] Hb. set (c := srv_session_counter s0) in *.
  assert (Hu : u64 (c + 1) = c + 1) by (apply u64_small; lia).
  split.
  - apply history_changes.
  - intros id s s' Hch [H ?]. split; [by eapply history_changes | done].
  - done.
  - intros s (H1 & [H0 H2] & H3) Hcs. rewrite Hu. split_and!; [done | | simpl; lia].
    split; [simpl; lia |]. intros i Hi. destruct (H2 i Hi) as (n & Hn & ->).
    exists n. simpl. split; [lia | done].
  - intros s started token expires id (H1 & [H0 H2] & H3) Hcs _. unfold id. rewrite Hu.
    assert (Hfresh : forall m : gmap string Session, m = srv_sessions s0 \/ m = srv_sessions s ->
              m !! session_id_of (c + 1) = None).
    { intros m Hm. apply eq_None_not_Some. intros Hi.
      assert (exists n, 1 <= n <= c /\ session_id_of (c + 1) = session_id_of n) as (n & Hn & E).
      { destruct Hm as [-> | ->]; [by apply Hn0 |]. destruct (H2 _ Hi) as (n & Hn & E).
        exists n. split; [lia | done]. }
      apply session_id_inj in E; lia. }
    split; [| by apply Hfresh; left]. split_and!; [| | simpl; lia].
    + intros i x Hx. destruct (H1 _ _ Hx) as (y & Hy & Hm). exists y. simpl.
      rewrite lookup_insert_ne; [done |]. intros <-. by rewrite Hfresh in Hx by by left.
    + split; [simpl; lia |]. intros i Hi. simpl in *. destruct (decide (i = session_id_of (c + 1))) as [-> | Hne].
      * exists (c + 1). split; [lia | done].
      * rewrite lookup_insert_ne in Hi by done. destruct (H2 i Hi) as (n & Hn & ->).
        exists n. split; [lia | done].
  - intros id s x next [H Hid] Hx Hn. split; [| done]. apply history_alter; [| done].
    intros y _ [? Hy]. congruence.
Qed.

Lemma history_step op (p : Srv) :
  named (srv_state p) -> srv_session_counter (srv_state p) + 1 < 2 ^ 64 ->
  history (srv_state p) (srv_state (server_step op p)).
Proof.
  intros Hn Hb.
  destruct (step_leads op p (history (srv_state p))
              (fun _ _ _ id s => history (srv_state p) s /\ srv_sessions (srv_state p) !! id = None))
    as [H | (value & d & v & tok & id & _ & _ & _ & H & _)]; [| | | |done| done].
  - apply history_changes.
  - by intros s f H.
  - intros value d v tok _. by apply history_frame.
  - split_and!; [apply falls_refl | done | simpl; lia].
Qed.

Lemma history_run ops (p : Srv) :
  named (srv_state p) -> srv_session_counter (srv_state p) + Z.of_nat (length ops) < 2 ^ 64 ->
  falls (srv_state p) (srv_state (server_run ops p)) /\ named (srv_state (server_run ops p)) /\
  srv_session_counter (srv_state (server_run ops p)) <=
    srv_session_counter (srv_state p) + Z.of_nat (length ops).
Proof.
  revert p. induction ops as [| op ops IH]; intros p Hn Hb; simpl.
  - split_and!; [apply falls_refl | done | lia].
  - simpl length in Hb. destruct (history_step op p Hn) as (H1 & H2 & H3); [lia |].
    destruct (IH (server_step op p) H2) as (H4 & H5 & H6); [lia |].
    split_and!; [by eapply falls_trans | done | lia].
Qed.
End history.

(** C21. Authority is never regained.  From any state of a run to any later one, every
    session is still known under its name, belongs to the same driver and vehicle, and has
    at most been stopped or closed and lost its control token: a closed session stays
    closed, a stopped one never drives again, no token ever comes back or changes.  The
    counter of names must not wrap, that is, fewer than 2^64 steps. *)
Theorem authority_only_falls {J : JsonApi} {W : Type} {Host : SignalingHost J W}
    {Logs : SessionLogs J W} {HL : HashLaws J W} config (host : W) earlier later id x :
  let start := (new_SignalingService config host).2 in
  Z.of_nat (length earlier + length later) < 2 ^ 64 ->
  srv_sessions (srv_state (server_run earlier start)) !! id = Some x ->
  exists y, srv_sessions (srv_state (server_run (earlier ++ later) start)) !! id = Some y /\
            session_moves x y.
Proof.
  intros start Hl Hx.
  assert (H0 : members (fun s => named s /\ srv_session_counter s = 0) start).
  { apply construct_keeps; [| split; [split; [done |] | done]].
    - intros s s' Hc [[H0 Hn] H]. split; [| by eapply counter_closed].
      destruct Hc as [s' (_ & Hs & Hc & _) | i f Hf | f Hf]; unfold named; [by rewrite Hs, Hc | |].
      + simpl. split; [done |]. intros j Hj. apply Hn. by rewrite lookup_alter_is_Some in Hj.
      + done.
    - intros i [? Hi]. simpl in Hi. by rewrite lookup_empty in Hi. }
  destruct H0 as [Hn Hc].
  destruct (history_run earlier start Hn) as (_ & Hn1 & Hc1); [lia |].
  destruct (history_run later (server_run earlier start) Hn1) as (Hf & _); [lia |].
  unfold server_run in *. rewrite foldl_app. by apply Hf.
Qed.

Lemma authority_only_falls_witness :
  exists x y,
    srv_sessions (srv_state (server_run demo_until_granted demo_server)) !! demo_session_id = Some x /\
    srv_sessions (srv_state (server_run (demo_until_granted ++ [demo_logout]) demo_server)) !!
      demo_session_id = Some y /\
    sess_state x = Active /\ session_moves x y /\
    sess_state y = Closed /\ sess_control_token y = ""%string.
Proof.
  destruct (srv_sessions (srv_state (server_run demo_until_granted demo_server)) !! demo_session_id)
    as [x |] eqn:E; [| by vm_compute in E].
  destruct (authority_only_falls demo_server_config demo_machine demo_until_granted [demo_logout]
              demo_session_id x) as (y & Hy & Hm); [by vm_compute | exact E |].
  exists x, y. split; [reflexivity |]. split; [exact Hy |].
  vm_compute in E, Hy. injection E as <-. injection Hy as <-.
  split; [reflexivity |]. split; [exact Hm |]. split; reflexivity.
Defined.

(** ** What a grant needs *)

Section guarded.
Context {J : JsonApi} {W : Type} {Host : SignalingHost J W} {Logs : SessionLogs J W}.
Context {HL : HashLaws J W}.
Notation State := (SignalingState J).
Context (s0 : State).

Definition drives (y : Session) : Prop := sess_state y = Active.

(** The session drove before, for the same driver and vehicle. *)
Definition drove (id : string) (y : Session) : Prop :=
  exists x, srv_sessions s0 !! id = Some x /\ drives x /\
    sess_driver_id x = sess_driver_id y /\ sess_vehicle_id x = sess_vehicle_id y.

Definition only_old (s : State) : Prop :=
  forall id y, srv_sessions s !! id = Some y -> drives y -> drove id y.

(** Or it is the one of driver [d] and vehicle [v], whose approval is used up. *)
Definition only_new (d v new : string) (s : State) : Prop :=
  (forall id y, srv_sessions s !! id = Some y -> drives y ->
     drove id y \/ sess_driver_id y = d /\ sess_vehicle_id y = v) /\
  (forall y, srv_sessions s !! new = Some y -> sess_driver_id y = d /\ sess_vehicle_id y = v) /\
  (protected s0 v -> forall a, srv_mobile_approvals s !! v = Some a ->
   ap_state a <> "approved"%string).

Lemma moves_drives x y : session_moves x y -> drives y ->
  drives x /\ sess_driver_id x = sess_driver_id y /\ sess_vehicle_id x = sess_vehicle_id y.
Proof. unfold session_moves, drives. intros (_ & ? & ? & _ & [? | [[? ?] | ?]] & _); intuition congruence. Qed.

Lemma old_changes : closed_under_changes only_old.
Proof.
  intros s s' Hc H. destruct Hc as [s' (_ & Hs & _) | id f Hf | f Hf]; [| | exact H].
  - unfold only_old. by rewrite Hs.
  - intros i y Hy Hd. simpl in Hy. apply lookup_alter_session in Hy as (x & Hx & [-> | [-> ->]]).
    + by apply H.
    + destruct (moves_drives _ _ (Hf x Hx) Hd) as (Hdx & E1 & E2).
      destruct (H _ _ Hx Hdx) as (x0 & H1 & H2 & H3 & H4). exists x0. split_and!; congruence.
Qed.

Lemma new_changes d v new : closed_under_changes (only_new d v new).
Proof.
  intros s s' Hc (H1 & H2 & H3). destruct Hc as [s' (_ & Hs & _ & Ha) | id f Hf | f Hf].
  - unfold only_new. by rewrite Hs, Ha.
  - split_and!; [| | exact H3].
    + intros i y Hy Hd. simpl in Hy. apply lookup_alter_session in Hy as (x & Hx & [-> | [-> ->]]).
      * by apply H1.
      * destruct (moves_drives _ _ (Hf x Hx) Hd) as (Hdx & E1 & E2).
        destruct (H1 _ _ Hx Hdx) as [(x0 & ? & ? & ? & ?) | ?]; [left; exists x0 | right];
          split_and!; intuition congruence.
    + intros y Hy. simpl in Hy. apply lookup_alter_session in Hy as (x & Hx & [-> | [-> ->]]);
        [by apply H2 |]. destruct (Hf x Hx) as (_ & -> & -> & _). by apply H2.
  - split_and!; [done | done |]. intros Hp a Ha Hst. simpl in Ha. by apply (H3 Hp a); [apply Hf |].
Qed.

Lemma guarded_frame c d v tok : grant_frame s0 c d v tok only_old (only_new d v).
Proof.
  split.
  - apply old_changes.
  - intros id. apply new_changes.
  - intros id s f a Hf (H1 & H2 & H3) Ha. split_and!; [done | done |].
    intros Hp a'. simpl. rewrite lookup_insert_eq. intros [= <-]. rewrite Hf. by apply H3.
  - done.
  - intros s started token expires id H _ Hg. split_and!.
    + intros i y. simpl. rewrite lookup_insert_Some. intros [[<- <-] | [_ Hy]] Hd; [done |].
      left. by apply H.
    + intros y. simpl. rewrite lookup_insert_eq. by intros [= <-].
    + apply (gr_used _ _ _ _ _ Hg).
  - intros id s x next (H1 & H2 & H3) Hx Hn. split_and!; [| | exact H3].
    + intros i y Hy Hd. simpl in Hy. apply lookup_alter_session in Hy as (x' & Hx' & [-> | [-> ->]]).
      * by apply H1.
      * right. simpl. by apply H2.
    + intros y Hy. simpl in Hy. apply lookup_alter_session in Hy as (x' & Hx' & [-> | [_ ->]]);
        simpl; by apply H2.
Qed.
End guarded.

(** C5. Control is granted in one way only.  A session that drives after a step and did not
    before was asked for by [POST /sessions]: the token it gave is the driver's and of the
    driver's present connection, the driver is not revoked and is permitted to use the
    vehicle, the vehicle is online, and, where the vehicle needs it, a phone had approved
    this driver on the present connections of both - an approval that is used up by the
    grant. *)
Theorem grant_guarded {J : JsonApi} {W : Type} {Host : SignalingHost J W}
    {Logs : SessionLogs J W} {HL : HashLaws J W} op (p : SignalingProcess J W) id y :
  let before := srv_state p in
  let after := srv_state (server_step op p) in
  srv_sessions after !! id = Some y -> sess_state y = Active ->
  drove before id y \/
  exists value token,
    grant_request op = Some value /\
    asks value (sess_driver_id y) (sess_vehicle_id y) token /\
    may_drive before (sess_driver_id y) (sess_vehicle_id y) token /\
    (protected before (sess_vehicle_id y) -> forall approval,
     srv_mobile_approvals after !! sess_vehicle_id y = Some approval ->
     ap_state approval <> "approved"%string).
Proof.
  intros before after Hy Hd.
  destruct (step_leads op p (only_old before) (fun d v _ => only_new before d v))
    as [H | (value & d & v & tok & new & Hg & Ha & Hm & H & _ & Hu)].
  - apply old_changes.
  - by intros s f H.
  - intros. apply guarded_frame.
  - intros i x Hx Hdx. by exists x.
  - left. by apply H.
  - destruct (H _ _ Hy Hd) as [? | [-> ->]]; [by left | right]. by exists value, tok.
Qed.

Lemma grant_guarded_witness :
  exists y value token,
    let p := server_run demo_until_approved demo_server in
    srv_sessions (srv_state (server_step (demo_ask demo_approval_id) p)) !! demo_session_id = Some y /\
    grant_request (demo_ask demo_approval_id) = Some value /\
    may_drive (srv_state p) (sess_driver_id y) (sess_vehicle_id y) token.
Proof.
  destruct (srv_sessions (srv_state (server_step (demo_ask demo_approval_id)
              (server_run demo_until_approved demo_server))) !! demo_session_id)
    as [y |] eqn:E; [| by vm_compute in E].
  destruct (grant_guarded (demo_ask demo_approval_id) (server_run demo_until_approved demo_server)
              demo_session_id y E) as [(x & Hx & _) | (value & tok & Hg & _ & Hm & _)].
  - vm_compute in E. injection E as <-. reflexivity.
  - vm_compute in Hx. discriminate Hx.
  - exists y, value, tok. split; [exact E |]. split; [exact Hg | exact Hm].
Defined.
