(* ===== verification/SignalingRevocation.v ===== *)
(** SignalingRevocation: what the server takes away, and when.

    - closing the sessions of a driver, of a vehicle or with an expired lease closes
      exactly those ([closed_sessions]);
    - a pass of the cleanup that ends leaves nothing that has expired
      ([cleanup_leaves_current]);
    - a revoked driver holds nothing and passes no check ([revocation_complete]). *)
From S2P Require Export SignalingGrants.

Section closing.
Context {J : JsonApi} {W : Type} {Host : SignalingHost J W} {Logs : SessionLogs J W}.
Context {HL : HashLaws J W}.
Notation State := (SignalingState J).
Notation Srv := (SignalingProcess J W).

(** ** One session *)

(** What [close_session] makes of an open session. *)
Definition closed_form (x : Session) : Session :=
  x <| sess_control_token := "" |> <| sess_control_token_expires_at_ms := 0 |>
    <| sess_state := Closed |>.

Definition close_form (x : Session) : Session := if is_open x then closed_form x else x.

(** What closing never touches: who is connected, with which tokens, approvals and
    revocations. *)
Definition access (s : State) :=
  (srv_config s, srv_driver_tokens s, srv_approver_tokens s, srv_mobile_approvals s,
   srv_online_vehicles s, srv_online_drivers s, (srv_revoked_vehicles s, srv_revoked_drivers s)).

Definition access_is a : State -> Prop := fun s => access s = a.

Lemma access_update a f :
  (forall s, access (f s) = access s) -> keeps (members (W := W) (access_is a)) (srv_update f).
Proof. intros Hf p H. unfold members, access_is in *. simpl. by rewrite Hf. Qed.

(** Every step of [close_session] leaves it alone. *)
Ltac access_step :=
  match goal with
  | |- keeps _ (srv_update _) => apply access_update; reflexivity
  | |- keeps _ (update_session _ _) => apply access_update; reflexivity
  | _ => srv_keeps_step
  end.

Lemma close_session_access a id reason :
  keeps (members (W := W) (access_is a)) (close_session id reason).
Proof. unfold close_session, transition_session. repeat access_step. Qed.

(** A transition ends in the new state, or throws. *)
Lemma transition_ok id next reason (m : gmap string Session) :
  hoare (fun p : Srv => srv_sessions (srv_state p) = m) (transition_session id next reason)
    (fun _ p => srv_sessions (srv_state p) =
                alter (fun x => x <| sess_state := next |>) id m) (fun _ => True).
Proof.
  intros p Hp. unfold transition_session, session_at, self, gets, mbind, M_bind. rewrite Hp.
  destruct (m !! id) as [x |] eqn:Ex; [| done]. simpl.
  assert (Hid : sess_state x = next -> alter (fun x => x <| sess_state := next |>) id m = m).
  { intros <-. apply alter_id. intros y Hy. rewrite Ex in Hy. injection Hy as <-. by destruct x. }
  destruct (bool_decide _) eqn:E1; [apply bool_decide_eq_true in E1; unfold mret, M_ret; by rewrite Hid |].
  destruct (transition_allowed _ _); simpl; [| done].
  match goal with |- context [audit ?e ?d ?q] => pose proof (silent_audit e d q) as Hs;
    destruct (audit e d q) as [[] q'] end; [| done].
  simpl in Hs. by rewrite Hs, <- Hp.
Qed.

Lemma alter_known (f g : Session -> Session) id (m : gmap string Session) x :
  m !! id = Some x -> f x = g x -> alter f id m = alter g id m.
Proof.
  intros Hx E. apply map_eq. intros i. destruct (decide (i = id)) as [-> | Hi].
  - by rewrite !lookup_alter_eq, Hx; simpl; rewrite E.
  - by rewrite !lookup_alter_ne.
Qed.

Definition sessions_be (m : gmap string Session) : State -> Prop := fun s => srv_sessions s = m.
Notation sessions_are m := (members (W := W) (sessions_be m)).

(** A silent step, then the rest. *)
Lemma hoare_silent_bind {A B} I (m : M Srv A) (f : A -> M Srv B) Q :
  silent m -> (forall a, hoare (members I) (f a) Q (fun _ => True)) ->
  hoare (members I) (m ≫= f) Q (fun _ => True).
Proof.
  intros Hm Hf. apply hoare_keeps_bind; [by apply silent_keeps | done | done].
Qed.

Lemma hoare_update f (m m' : gmap string Session) :
  (forall s, srv_sessions s = m -> srv_sessions (f s) = m') ->
  hoare (sessions_are m) (srv_update f) (fun _ => sessions_are m') (fun _ => True).
Proof. intros Hf p Hp. by apply Hf. Qed.

Lemma hoare_session_at {B} id (k : Session -> M Srv B) m Q :
  (forall x, m !! id = Some x -> hoare (sessions_are m) (k x) Q (fun _ => True)) ->
  hoare (sessions_are m) (session_at id ≫= k) Q (fun _ => True).
Proof.
  intros Hk p Hp. unfold session_at, self, gets, mbind, M_bind.
  destruct (srv_sessions (srv_state p) !! id) as [x |] eqn:E; [| done].
  apply Hk; [| done]. by rewrite <- Hp.
Qed.

Lemma alter_alter (f g : Session -> Session) id (m : gmap string Session) :
  alter f id (alter g id m) = alter (fun x => f (g x)) id m.
Proof.
  apply map_eq. intros i. destruct (decide (i = id)) as [-> | Hi].
  - rewrite !lookup_alter_eq. by destruct (m !! id).
  - by rewrite !lookup_alter_ne.
Qed.

(** [close_session], when it ends, has closed the session and no other. *)
Lemma close_session_ok id reason (m : gmap string Session) :
  hoare (sessions_are m) (close_session id reason)
    (fun _ => sessions_are (alter close_form id m)) (fun _ => True).
Proof.
  unfold close_session. apply hoare_session_at. intros x Hx.
  destruct (bool_decide (sess_state x = Closed)) eqn:Ec.
  { apply hoare_ret. intros p Hp. unfold members, sessions_be in *. rewrite Hp. symmetry.
    apply alter_id. intros y Hy. rewrite Hx in Hy. injection Hy as <-.
    unfold close_form, is_open. by rewrite Ec. }
  set (m1 := alter (fun x => x <| sess_control_token := "" |> <| sess_control_token_expires_at_ms := 0 |>) id m).
  apply (hoare_bind _ (fun _ => sessions_are m1)); [by apply hoare_update; intros s <- | intros _].
  apply (hoare_bind _ (fun _ => sessions_are m1)); [by apply hoare_update; intros s <- | intros _].
  set (stop := fun x => if bool_decide (sess_state x = Stopping) then x else x <| sess_state := Stopping |>).
  apply (hoare_bind _ (fun _ => sessions_are (alter stop id m1))); [| intros _].
  { destruct (bool_decide (sess_state x = Stopping)) eqn:Es; simpl.
    - apply hoare_ret. intros p Hp. unfold members, sessions_be in *. rewrite Hp. symmetry.
      apply alter_id. intros y. unfold m1. rewrite lookup_alter_eq, Hx. intros [= <-].
      unfold stop. simpl. by rewrite Es.
    - intros p Hp. pose proof (transition_ok id Stopping reason m1 p Hp) as H.
      destruct (transition_session _ _ _ p) as [[] q]; [| done]. unfold members, sessions_be. rewrite H.
      eapply alter_known; [unfold m1; by rewrite lookup_alter_eq, Hx |].
      unfold stop. simpl. by rewrite Es. }
  apply (hoare_bind _ (fun _ => sessions_are (alter close_form id m))); [| intros _].
  { intros p Hp. pose proof (transition_ok id Closed reason (alter stop id m1) p Hp) as H.
    destruct (transition_session _ _ _ p) as [[] q]; [| done]. unfold members, sessions_be. rewrite H.
    unfold m1. rewrite !alter_alter. eapply alter_known; [done |].
    unfold close_form, is_open, closed_form, stop. rewrite Ec. simpl.
    by destruct (bool_decide (sess_state x = Stopping)). }
  apply hoare_session_at. intros y _. apply hoare_silent_bind; [eauto with silent | intros t].
  intros p Hp. pose proof (silent_remember y t p) as H.
  destruct (remember_log_session y t p) as [[] q]; simpl in H; [| done].
  unfold members, sessions_be. by rewrite H.
Qed.

(** ** All sessions of a kind *)

(** [left] are still as in [m], the others went through [g]. *)
Definition swept (g : Session -> Session) (m : gmap string Session) (left : list string)
    (s : State) : Prop :=
  NoDup left /\
  forall i, srv_sessions s !! i = if bool_decide (i ∈ left) then m !! i else g <$> m !! i.

Lemma swept_step g m i left x (s s' : State) :
  swept g m (i :: left) s -> m !! i = Some x ->
  srv_sessions s' = alter (fun _ => g x) i (srv_sessions s) -> swept g m left s'.
Proof.
  intros [Hn Hs] Hx Hs'. apply NoDup_cons in Hn as [Hi Hn]. split; [done |]. intros j. rewrite Hs'.
  destruct (decide (j = i)) as [-> | Hj].
  - rewrite lookup_alter_eq, Hs, bool_decide_true, bool_decide_false, Hx by (done || set_solver). done.
  - rewrite lookup_alter_ne, Hs by done. apply (f_equal (fun b : bool => if b then _ else _)).
    apply bool_decide_ext. set_solver.
Qed.

Lemma keys_of_items {A} (m : gmap string A) :
  NoDup (hash_items m).*1 /\ forall i, i ∈ (hash_items m).*1 <-> is_Some (m !! i).
Proof.
  pose proof (hash_items_perm A m) as P. split.
  - rewrite P. apply NoDup_fst_map_to_list.
  - intros i. rewrite P, <- elem_of_dom. rewrite list_elem_of_fmap. split.
    + intros ((j & x) & -> & Hx). apply elem_of_map_to_list in Hx. by eapply elem_of_dom_2.
    + intros (x & Hx)%elem_of_dom. exists (i, x). split; [done |]. by apply elem_of_map_to_list.
Qed.

Lemma swept_start g (s : State) : swept g (srv_sessions s) (hash_items (srv_sessions s)).*1 s.
Proof.
  destruct (keys_of_items (srv_sessions s)) as [Hn Hk]. split; [done |]. intros i.
  destruct (bool_decide (i ∈ _)) eqn:E; [done |]. apply bool_decide_eq_false in E.
  rewrite Hk, <- eq_None_not_Some in E. by rewrite E.
Qed.

(** The loop over the sessions changes those that pass the test, and no other. *)
Lemma for_sessions_ok (test : Session -> bool) (body : string -> M Srv unit) form m :
  (forall id m, hoare (sessions_are m) (body id) (fun _ => sessions_are (alter form id m)) (fun _ => True)) ->
  hoare (sessions_are m) (for_sessions test body)
    (fun _ => sessions_are ((fun x => if test x then form x else x) <$> m)) (fun _ => True).
Proof.
  intros Hb. set (g := fun x => if test x then form x else x). unfold for_sessions.
  apply hoare_self. intros p0 Hp0.
  eapply hoare_conseq; [| | |
    apply (for_each_left (fun l p => swept g m l.*1 (srv_state p)))]; [| | done |].
  - intros p ->. unfold members, sessions_be in Hp0. rewrite <- Hp0. apply swept_start.
  - intros _ p [_ H]. unfold members, sessions_be. apply map_eq. intros i. by rewrite H, lookup_fmap.
  - intros [i x0] l p Hp. pose proof Hp as [Hn Hs]. cbn [fst] in *. unfold session_at, self, gets, mbind, M_bind.
    specialize (Hs i). rewrite bool_decide_true in Hs by (simpl; set_solver). rewrite Hs.
    cbn [fst] in *. destruct (m !! i) as [x |] eqn:Ex; [| done]. cbn. destruct (test x) eqn:Et; cbn.
    + pose proof (Hb i (srv_sessions (srv_state p)) p eq_refl) as H.
      destruct (body i p) as [[] q]; [| done]. eapply swept_step; [exact Hp | exact Ex |].
      unfold members, sessions_be in H. rewrite H. eapply alter_known; [exact Hs |].
      unfold g. by rewrite Et.
    + eapply swept_step; [exact Hp | exact Ex |]. symmetry. apply alter_id. intros y Hy.
      assert (E : Some x = Some y) by (rewrite <- Hs; exact Hy). injection E as <-.
      unfold g. by rewrite Et.
Qed.

(** What closing a kind of sessions makes of the table. *)
Definition closed_sessions (test : Session -> bool) (m : gmap string Session) : gmap string Session :=
  (fun x => if test x then close_form x else x) <$> m.

Lemma close_for_driver_ok d reason m :
  hoare (sessions_are m) (close_sessions_for_driver d reason)
    (fun _ => sessions_are (closed_sessions (fun x => String.eqb (sess_driver_id x) d && is_open x) m))
    (fun _ => True).
Proof. apply for_sessions_ok. intros id m'. apply close_session_ok. Qed.

Lemma close_for_vehicle_ok v reason m :
  hoare (sessions_are m) (close_sessions_for_vehicle v reason)
    (fun _ => sessions_are (closed_sessions (fun x => String.eqb (sess_vehicle_id x) v && is_open x) m))
    (fun _ => True).
Proof. apply for_sessions_ok. intros id m'. apply close_session_ok. Qed.

Lemma expire_leases_ok t m :
  hoare (sessions_are m) (expire_leases t)
    (fun _ => sessions_are (closed_sessions (lease_expired t) m)) (fun _ => True).
Proof.
  apply for_sessions_ok. intros id m'.
  apply (hoare_bind _ (fun _ => sessions_are (alter close_form id m'))); [apply close_session_ok |].
  intros _. apply hoare_session_at. intros x _. intros p Hp.
  match goal with |- context [audit ?e ?d p] => pose proof (silent_audit e d p) as H;
    destruct (audit e d p) as [[] q] end; [| done].
  simpl in H. unfold members, sessions_be. by rewrite H.
Qed.

Lemma close_for_driver_access a d reason :
  keeps (members (W := W) (access_is a)) (close_sessions_for_driver d reason).
Proof.
  unfold close_sessions_for_driver, for_sessions. pose proof close_session_access. repeat access_step.
Qed.

(** ** The cleanup *)

Section cleanup.
Context (t : Z).

Definition seen (timeout : Z) (presence : ConnectionPresence) : Prop :=
  t - cp_last_seen_at_ms presence < timeout.

(** What is still wrong is among the entries left. *)
Record cleaned (tokens : list (string * DriverToken)) (vehicles drivers : list (string * ConnectionPresence))
    (leases : bool) (s : State) : Prop := {
  cl_tokens k e : srv_driver_tokens s !! k = Some e -> (k, e) ∈ tokens \/ t < dt_expires_at_ms e;
  cl_vehicles k e : srv_online_vehicles s !! k = Some e ->
    (k, e) ∈ vehicles \/ seen (sgc_vehicle_heartbeat_timeout_ms (srv_config s)) e;
  cl_drivers k e : srv_online_drivers s !! k = Some e ->
    (k, e) ∈ drivers \/ seen (sgc_driver_heartbeat_timeout_ms (srv_config s)) e;
  cl_leases i x : leases = true -> srv_sessions s !! i = Some x -> lease_expired t x = false;
}.

(** Less of everything, and sessions that were closed. *)
Lemma cleaned_less tokens vehicles drivers leases s s' :
  srv_config s' = srv_config s -> srv_driver_tokens s' ⊆ srv_driver_tokens s ->
  srv_online_vehicles s' ⊆ srv_online_vehicles s -> srv_online_drivers s' ⊆ srv_online_drivers s ->
  (forall i y, srv_sessions s' !! i = Some y ->
     exists x, srv_sessions s !! i = Some x /\ (y = x \/ y = close_form x)) ->
  cleaned tokens vehicles drivers leases s -> cleaned tokens vehicles drivers leases s'.
Proof.
  intros Hc Ht Hv Hd Hs [C1 C2 C3 C4]. split.
  - intros k e He. eapply C1, lookup_weaken; eauto.
  - intros k e He. rewrite Hc. eapply C2, lookup_weaken; eauto.
  - intros k e He. rewrite Hc. eapply C3, lookup_weaken; eauto.
  - intros i y Hl Hy. destruct (Hs _ _ Hy) as (x & Hx & [-> | ->]); [by eapply C4 |].
    unfold close_form, lease_expired. destruct (is_open x) eqn:E; [done | by rewrite E].
Qed.

Lemma cleaned_close tokens vehicles drivers leases test reason :
  hoare (members (cleaned tokens vehicles drivers leases))
    (for_sessions test (fun id => close_session id reason))
    (fun _ => members (W := W) (cleaned tokens vehicles drivers leases)) (fun _ => True).
Proof.
  intros p Hp.
  pose proof (for_sessions_ok test _ close_form (srv_sessions (srv_state p))
                (fun id m => close_session_ok id reason m) p eq_refl) as Hs.
  assert (Ha : keeps (members (access_is (access (srv_state p))))
                 (for_sessions test (fun id => close_session id reason))).
  { unfold for_sessions. pose proof close_session_access. repeat access_step. }
  specialize (Ha p eq_refl).
  destruct (for_sessions _ _ p) as [[] q]; [| done]. unfold members, access_is, access in *. simpl in *.
  injection Ha as E1 E2 E3 E4 E5 E6 E7 E8. eapply cleaned_less; [done | | | | | exact Hp];
    rewrite ?E2, ?E5, ?E6; try done.
  intros i y. unfold sessions_be in Hs. rewrite Hs, lookup_fmap_Some. intros (x & <- & Hx). exists x.
  split; [done |]. destruct (test x); auto.
Qed.

Lemma cleaned_audit tokens vehicles drivers leases event details :
  hoare (members (cleaned tokens vehicles drivers leases)) (audit event details)
    (fun _ => members (W := W) (cleaned tokens vehicles drivers leases)) (fun _ => True).
Proof.
  eapply hoare_conseq; [done | by intros ? ? H; exact H | done |].
  apply hoare_keeps, silent_keeps, silent_audit.
Qed.

Lemma token_step k e tokens vehicles drivers :
  hoare (members (cleaned ((k, e) :: tokens) vehicles drivers false)) (expire_driver_token t (k, e))
    (fun _ => members (W := W) (cleaned tokens vehicles drivers false)) (fun _ => True).
Proof.
  unfold expire_driver_token. destruct (Z.ltb_spec t (dt_expires_at_ms e)) as [Ht | Ht].
  { apply hoare_ret. intros p [C1 C2 C3 C4]. split; auto.
    intros k' e' He. destruct (C1 _ _ He) as [[[= -> ->] | ?]%elem_of_cons | ?]; auto. }
  cbv zeta. apply (hoare_bind _ (fun _ => members (cleaned tokens vehicles drivers false))).
  { intros p [C1 C2 C3 C4]. split; auto. simpl. intros k' e' [Hk He]%lookup_delete_Some.
    destruct (C1 _ _ He) as [[[= -> ->] | ?]%elem_of_cons | ?]; auto. done. }
  intros _. apply hoare_self. intros p0 Hp0.
  destruct (srv_online_drivers _ !! _) as [pr |]; [| by apply hoare_ret; intros p ->].
  destruct (negb _); [by apply hoare_ret; intros p -> |].
  apply (hoare_bind _ (fun _ => members (cleaned tokens vehicles drivers false))).
  { intros p ->. eapply cleaned_less; [| | | | | exact Hp0]; simpl; try done; [apply delete_subseteq |].
    eauto. }
  intros _. eapply hoare_bind; [apply cleaned_close | intros ?; apply cleaned_audit].
Qed.

Lemma vehicle_step k e tokens vehicles drivers leases :
  hoare (members (cleaned tokens ((k, e) :: vehicles) drivers leases)) (expire_vehicle t (k, e))
    (fun _ => members (W := W) (cleaned tokens vehicles drivers leases)) (fun _ => True).
Proof.
  unfold expire_vehicle. apply hoare_self. intros p0 Hp0.
  destruct (Z.ltb_spec (t - cp_last_seen_at_ms e) (sgc_vehicle_heartbeat_timeout_ms (srv_config (srv_state p0))))
    as [Ht | Ht].
  { apply hoare_ret. intros p ->. destruct Hp0 as [C1 C2 C3 C4]. split; auto.
    intros k' e' He. destruct (C2 _ _ He) as [[[= -> ->] | ?]%elem_of_cons | ?]; auto. }
  apply (hoare_bind _ (fun _ => members (cleaned tokens vehicles drivers leases))).
  { intros p ->. destruct Hp0 as [C1 C2 C3 C4]. split; auto. simpl. intros k' e' [Hk He]%lookup_delete_Some.
    destruct (C2 _ _ He) as [[[= -> ->] | ?]%elem_of_cons | ?]; auto. done. }
  intros _. eapply hoare_bind; [apply cleaned_close | intros ?; apply cleaned_audit].
Qed.

Lemma driver_step k e tokens vehicles drivers leases :
  hoare (members (cleaned tokens vehicles ((k, e) :: drivers) leases)) (expire_driver t (k, e))
    (fun _ => members (W := W) (cleaned tokens vehicles drivers leases)) (fun _ => True).
Proof.
  unfold expire_driver. apply hoare_self. intros p0 Hp0.
  destruct (Z.ltb_spec (t - cp_last_seen_at_ms e) (sgc_driver_heartbeat_timeout_ms (srv_config (srv_state p0))))
    as [Ht | Ht].
  { apply hoare_ret. intros p ->. destruct Hp0 as [C1 C2 C3 C4]. split; auto.
    intros k' e' He. destruct (C3 _ _ He) as [[[= -> ->] | ?]%elem_of_cons | ?]; auto. }
  cbv zeta. apply (hoare_bind _ (fun _ => members (cleaned tokens vehicles drivers leases))).
  { intros p ->. destruct Hp0 as [C1 C2 C3 C4]. split; auto; simpl.
    - intros k' e' [He _]%map_lookup_filter_Some. auto.
    - intros k' e' [Hk He]%lookup_delete_Some.
      destruct (C3 _ _ He) as [[[= -> ->] | ?]%elem_of_cons | ?]; auto. done. }
  intros _. eapply hoare_bind; [apply cleaned_close | intros ?; apply cleaned_audit].
Qed.

Lemma leases_step tokens vehicles drivers :
  hoare (members (cleaned tokens vehicles drivers false)) (expire_leases t)
    (fun _ => members (W := W) (cleaned tokens vehicles drivers true)) (fun _ => True).
Proof.
  intros p Hp. pose proof (expire_leases_ok t (srv_sessions (srv_state p)) p eq_refl) as Hs.
  assert (Ha : keeps (members (access_is (access (srv_state p)))) (expire_leases t)).
  { unfold expire_leases, for_sessions. pose proof close_session_access. repeat access_step. }
  specialize (Ha p eq_refl). destruct (expire_leases t p) as [[] q]; [| done].
  unfold members, access_is, access, sessions_be in *. simpl in *.
  injection Ha as E1 E2 E3 E4 E5 E6 E7 E8. destruct Hp as [C1 C2 C3 _].
  split; rewrite ?E1, ?E2, ?E5, ?E6; auto.
  intros i y _. rewrite Hs. unfold closed_sessions. rewrite lookup_fmap_Some. intros (x & <- & Hx).
  destruct (lease_expired t x) eqn:El; [| done]. unfold close_form, lease_expired in *.
  by destruct (is_open x).
Qed.

Lemma approvals_step :
  hoare (members (cleaned [] [] [] true)) cleanup_mobile_approvals
    (fun _ s => members (W := W) (cleaned [] [] [] true) s /\ approvals_current [] (srv_state s))
    (fun _ => True).
Proof.
  intros p Hp. pose proof (cleanup_approvals_ok p Logic.I) as Ha.
  set (rest s := (srv_config s, srv_driver_tokens s, srv_online_vehicles s, srv_online_drivers s, srv_sessions s)).
  assert (Hk : keeps (members (fun s => rest s = rest (srv_state p))) cleanup_mobile_approvals).
  { unfold cleanup_mobile_approvals, set_approval, srv_update.
    assert (forall f, (forall s, rest (f s) = rest s) ->
      keeps (members (W := W) (fun s => rest s = rest (srv_state p))) (modify (fun q => q <| srv_state ::= f |>)))
      by (intros f Hf q Hq; unfold members in *; simpl; by rewrite Hf).
    repeat (first [match goal with |- keeps _ (modify _) => auto end | srv_keeps_step]). }
  specialize (Hk p eq_refl). destruct (cleanup_mobile_approvals p) as [[] q]; [| done].
  split; [| exact Ha]. unfold members, rest in *. simpl in Hk. injection Hk as E1 E2 E3 E4 E5.
  destruct Hp as [C1 C2 C3 C4]. split; rewrite ?E1, ?E2, ?E3, ?E4, ?E5; auto.
Qed.

Lemma in_items {A} (m : gmap string A) k e : m !! k = Some e -> (k, e) ∈ hash_items m.
Proof. intros H. rewrite hash_items_perm. by apply elem_of_map_to_list. Qed.

(** The whole pass. *)
Lemma cleanup_ok :
  hoare (fun _ => True) (cleanup_expired_connections t)
    (fun _ p => members (W := W) (cleaned [] [] [] true) p /\ approvals_current [] (srv_state p))
    (fun _ => True).
Proof.
  unfold cleanup_expired_connections. apply hoare_self. intros p0 _.
  set (s0 := srv_state p0).
  apply (hoare_bind _ (fun _ => members (cleaned []
           (hash_items (srv_online_vehicles s0)) (hash_items (srv_online_drivers s0)) false))).
  { eapply hoare_pre; [| apply (for_each_left (fun l => members (cleaned l _ _ false)))].
    - intros p ->. split; try done; intros k e He; left; by apply in_items.
    - intros [k e] l. apply token_step. }
  intros _. eapply hoare_bind; [apply leases_step | intros ?].
  apply hoare_self. intros p1 Hp1. set (s1 := srv_state p1).
  apply (hoare_bind _ (fun _ => members (cleaned [] [] (hash_items (srv_online_drivers s0)) true))).
  { eapply hoare_pre; [| apply (for_each_left (fun l => members (cleaned [] l _ true)))].
    - intros p ->. destruct Hp1 as [C1 C2 C3 C4]. split; try done. intros k e He. left. by apply in_items.
    - intros [k e] l. apply vehicle_step. }
  intros _. apply hoare_self. intros p2 Hp2. set (s2 := srv_state p2).
  apply (hoare_bind _ (fun _ => members (cleaned [] [] [] true))).
  { eapply hoare_pre; [| apply (for_each_left (fun l => members (cleaned [] [] l true)))].
    - intros p ->. destruct Hp2 as [C1 C2 C3 C4]. split; try done. intros k e He. left. by apply in_items.
    - intros [k e] l. apply driver_step. }
  intros _. apply approvals_step.
Qed.
End cleanup.

(** *** A driver revoked *)

Definition sessions_of (id : string) (x : Session) : bool :=
  String.eqb (sess_driver_id x) id && is_open x.

Definition driver_out (id : string) (m : gmap string Session) (s : State) : Prop :=
  srv_sessions s = closed_sessions (sessions_of id) m /\ id ∈ srv_revoked_drivers s /\
  srv_online_drivers s !! id = None /\
  forall k token, srv_driver_tokens s !! k = Some token -> dt_driver_id token <> id.

Lemma revoke_driver_ok id m :
  hoare (sessions_are m) (post_revoke_driver id) (fun _ => members (driver_out id m)) (fun _ => True).
Proof.
  unfold post_revoke_driver. apply hoare_self. intros p0 Hp0.
  apply hoare_lift; [done | intros _ _].
  apply (hoare_bind _ (fun _ q => srv_sessions (srv_state q) = m /\ id ∈ srv_revoked_drivers (srv_state q))).
  { intros q ->. split; [done |]. simpl. set_solver. }
  intros _. apply (hoare_bind _ (fun _ q => srv_sessions (srv_state q) = closed_sessions (sessions_of id) m /\
                                            id ∈ srv_revoked_drivers (srv_state q))).
  { intros q [Hq Hr]. pose proof (close_for_driver_ok id "driver_revoked" m q Hq) as Hs.
    assert (Ha : keeps (members (access_is (access (srv_state q)))) (close_sessions_for_driver id "driver_revoked")).
    { apply close_for_driver_access. }
    specialize (Ha q eq_refl). destruct (close_sessions_for_driver _ _ q) as [[] q']; [| done].
    split; [done |]. unfold members, access_is, access in Ha. simpl in Ha.
    injection Ha as _ _ _ _ _ _ _ Ha. by rewrite Ha. }
  intros _. apply (hoare_bind _ (fun _ => members (driver_out id m))).
  { intros q [Hs Hr]. unfold members. simpl. split_and!; [done | done | apply lookup_delete_eq |].
    intros k token [_ Hf]%map_lookup_filter_Some. simpl in Hf.
    intros Hid. by rewrite Hid, String.eqb_refl in Hf. }
  intros _. apply hoare_silent_bind; [eauto with silent | intros _]. intros q Hq.
  match goal with |- context [respond ?c ?f q] => pose proof (silent_respond c f q) as Hs;
    destruct (respond c f q) as [[] q'] end; [| done].
  simpl in Hs. unfold members in *. by rewrite Hs.
Qed.

End closing.

(** C28. What has expired is gone.  When a pass of the cleanup ends, no session that is still
    open has outlived its control token, every driver token is still valid, every vehicle
    and every driver has been heard of within its heartbeat timeout, and every live
    approval is for the present connections of two parties that are not revoked. *)
Theorem cleanup_leaves_current {J : JsonApi} {W : Type} {Host : SignalingHost J W}
    {Logs : SessionLogs J W} {HL : HashLaws J W} t (p p' : SignalingProcess J W) :
  cleanup_expired_connections t p = (Ok tt, p') ->
  let s := srv_state p' in
  (forall i x, srv_sessions s !! i = Some x -> lease_expired t x = false) /\
  (forall k token, srv_driver_tokens s !! k = Some token -> t < dt_expires_at_ms token) /\
  (forall v presence, srv_online_vehicles s !! v = Some presence ->
     t - cp_last_seen_at_ms presence < sgc_vehicle_heartbeat_timeout_ms (srv_config s)) /\
  (forall d presence, srv_online_drivers s !! d = Some presence ->
     t - cp_last_seen_at_ms presence < sgc_driver_heartbeat_timeout_ms (srv_config s)) /\
  (forall v approval, srv_mobile_approvals s !! v = Some approval ->
     approval_is_live approval = true -> approval_orphaned s v approval = false).
Proof.
  intros E s. pose proof (cleanup_ok t p Logic.I) as H. rewrite E in H.
  destruct H as [[C1 C2 C3 C4] Ha]. split_and!.
  - intros i x. by apply C4.
  - intros k e He. by destruct (C1 k e He) as [[]%elem_of_nil | ?].
  - intros k e He. by destruct (C2 k e He) as [[]%elem_of_nil | ?].
  - intros k e He. by destruct (C3 k e He) as [[]%elem_of_nil | ?].
  - intros v a Hv. by destruct (Ha v a Hv) as [[]%elem_of_nil | ?].
Qed.

(** Four minutes of silence. *)
Definition demo_silence (works : bool) : DemoOp :=
  SrvElapse (fun m => m <| dm_now_ms := 241000 |> <| dm_audit_works := works |>).

Lemma cleanup_leaves_current_witness :
  exists p', cleanup_expired_connections 241000
               (server_run (demo_until_granted ++ [demo_silence true]) demo_server) = (Ok tt, p') /\
  (forall v presence, srv_online_vehicles (srv_state p') !! v = Some presence ->
     241000 - cp_last_seen_at_ms presence < sgc_vehicle_heartbeat_timeout_ms (srv_config (srv_state p'))).
Proof.
  destruct (cleanup_expired_connections 241000
              (server_run (demo_until_granted ++ [demo_silence true]) demo_server)) as [r p'] eqn:E.
  assert (Hr : r = Ok tt) by (apply (f_equal fst) in E; vm_compute in E; by subst).
  rewrite Hr in E. exists p'. split; [by rewrite Hr |].
  exact (proj1 (proj2 (proj2 (cleanup_leaves_current _ _ _ E)))).
Defined.

(** C18. Revoking a driver is complete.  When [POST /admin/revoke/driver] answers, every
    session of the driver is closed and no other has changed, no token and no connection
    of the driver is left, and from then on no token whatever passes the driver check. *)
Theorem revocation_complete {J : JsonApi} {W : Type} {Host : SignalingHost J W}
    {Logs : SessionLogs J W} {HL : HashLaws J W} id (p : SignalingProcess J W) response p' :
  post_revoke_driver id p = (Ok response, p') ->
  (forall i x, srv_sessions (srv_state p') !! i = Some x ->
     sess_driver_id x = id -> sess_state x = Closed) /\
  (forall i x, srv_sessions (srv_state p) !! i = Some x ->
     sess_driver_id x <> id -> srv_sessions (srv_state p') !! i = Some x) /\
  (forall k token, srv_driver_tokens (srv_state p') !! k = Some token -> dt_driver_id token <> id) /\
  srv_online_drivers (srv_state p') !! id = None /\
  (forall token, (validate_driver_token id token p').1 = Throw (Unauthorized "driver is revoked")).
Proof.
  set (m := srv_sessions (srv_state p)). intros E.
  cut (driver_out id m (srv_state p')).
  { intros (Hs & Hr & Ho & Ht). split_and!; try done.
    - intros i x. rewrite Hs. unfold closed_sessions. rewrite lookup_fmap_Some.
      intros (y & <- & Hy). unfold sessions_of. destruct (String.eqb_spec (sess_driver_id y) id) as [Hd | Hd]; simpl;
        [| by intros Hd']. destruct (is_open y) eqn:Eo; [unfold close_form; by rewrite Eo |].
      intros _. unfold is_open in Eo. apply negb_false_iff, bool_decide_eq_true in Eo. done.
    - intros i x Hx Hd. rewrite Hs. unfold closed_sessions. rewrite lookup_fmap, Hx. simpl. unfold sessions_of.
      apply String.eqb_neq in Hd. by rewrite Hd.
    - intros token. unfold validate_driver_token, self, gets, mbind, M_bind.
      by rewrite bool_decide_true. }
  pose proof (revoke_driver_ok id m p eq_refl) as H. rewrite E in H. exact H.
Qed.

Definition demo_revoked : result ServerResponse * DemoServer :=
  post_revoke_driver "driver-console-001" (server_run demo_until_granted demo_server).

Lemma revocation_complete_witness :
  (exists response, demo_revoked.1 = Ok response) /\
  (validate_driver_token "driver-console-001" demo_token demo_revoked.2).1 =
    Throw (Unauthorized "driver is revoked").
Proof.
  assert (H : exists response, demo_revoked.1 = Ok response) by (vm_compute; eauto).
  split; [exact H |]. destruct H as [response H].
  refine (proj2 (proj2 (proj2 (proj2 (revocation_complete "driver-console-001"
            (server_run demo_until_granted demo_server) response demo_revoked.2 _)))) demo_token).
  rewrite <- H. apply surjective_pairing.
Defined.
