(* ===== verification/SignalingReaper.v ===== *)
(** SignalingReaper: a pass of the reaper while the audit log cannot be written.

    - [log_down]: a machine on which no line can be appended;
    - [reaper_can_die]: a silent vehicle ends the pass in an exception, and the open sessions
      stay open.

    Every close of a session writes to the log, so a computation that returns while the log is
    down has closed nothing ([unchanged]); one that throws has closed at most a session that was
    stopping already ([spared]). *)
From S2P Require Export SignalingRevocation.

Section reaper.
Context {J : JsonApi} {W : Type} {Host : SignalingHost J W} {Logs : SessionLogs J W} {HL : HashLaws J W}.
Notation Srv := (SignalingProcess J W).

(** [broken] machines stay broken whatever the audit log asks of them, and append nothing. *)
Record log_down (path : string) (broken : W -> Prop) : Prop := {
  ld_now w : broken w -> broken (host_now_ms w).2;
  ld_clock clock w : host_audit_clock = Some clock -> broken w -> broken (clock w).2;
  ld_period interval current w : broken w -> broken (host_existing_log_period path interval current w).2;
  ld_archive start files w : broken w -> broken (host_archive_jsonl_period path start files w).2;
  ld_prune current days w : broken w -> broken (host_prune_jsonl_periods path current days w).2;
  ld_rotate bytes files size w : broken w -> broken (host_rotate_jsonl_log path bytes files size w).2;
  ld_append line w : broken w -> exists e w', host_append_line path line w = (Throw e, w');
}.

Context (broken : W -> Prop) (config : SignalingServerConfig) (Down : log_down (sgc_audit_log_path config) broken).
Context (Logged : sgc_audit_log_path config <> ""%string).

(** ** What is written to the log throws *)

Definition unlogged (p : Srv) : Prop := broken (srv_host p) /\ srv_config (srv_state p) = config.

Lemma logging_on_host {A} (c : M W A) : (forall w, broken w -> broken (c w).2) -> keeps unlogged (on_host c).
Proof. intros Hc. apply keeps_zoom. intros p [Hb He]. split; [by apply Hc | done]. Qed.

Lemma logging_modify f : (forall p, srv_host (f p) = srv_host p /\ srv_state (f p) = srv_state p) ->
  keeps unlogged (modify f).
Proof. intros Hf. apply keeps_modify. intros p. unfold unlogged. by destruct (Hf p) as [-> ->]. Qed.

Lemma logging_now : keeps unlogged (now_ms (W := W)).
Proof.
  apply logging_on_host. intros w Hw. pose proof (ld_now _ _ Down w Hw). by destruct (host_now_ms w).
Qed.

Lemma logging_period current : keeps unlogged (enter_log_period config current).
Proof.
  pose proof (ld_period _ _ Down). pose proof (ld_archive _ _ Down). pose proof (ld_prune _ _ Down).
  unfold enter_log_period.
  repeat match goal with
  | |- forall _, _ => intro
  | |- keeps _ (mbind _ _) => apply keeps_bind
  | |- keeps _ (gets _) => apply keeps_gets
  | |- keeps _ (when _ _) => apply keeps_when
  | |- keeps _ (modify _) => by apply logging_modify
  | |- keeps _ (on_host _) => by apply logging_on_host; auto
  end.
Qed.

Notation dies m := (hoare unlogged m (fun _ _ => False) (fun _ => True)).

Lemma then_dies {A B} (c : M Srv A) (f : A -> M Srv B) : keeps unlogged c -> (forall a, dies (f a)) -> dies (c ≫= f).
Proof. intros Hc Hf. by apply hoare_keeps_bind. Qed.

Lemma audit_dies event details : dies (audit event details).
Proof.
  unfold audit. intros p Hp. unfold mbind at 1, M_bind at 1, self at 1, gets at 1. cbv zeta.
  rewrite (proj2 Hp). destruct (string_empty _) eqn:E; [by apply String.eqb_eq in E |]. revert p Hp.
  match goal with |- forall p, unlogged p -> match ?c p with _ => _ end => change (dies c) end.
  apply then_dies; [| intros t].
  { destruct host_audit_clock as [clock |] eqn:Ec; [| apply logging_now].
    apply logging_on_host. intros w. by apply (ld_clock _ _ Down). }
  apply then_dies; [| intros line].
  { unfold audit_line. apply keeps_bind; [apply keeps_gets | intros s].
    apply keeps_bind; [apply keeps_gets | intros id; apply keeps_lift]. }
  cbv zeta. apply then_dies; [apply keeps_lift | intros _].
  apply then_dies; [apply keeps_lift | intros current].
  apply then_dies; [apply logging_period | intros _].
  apply then_dies; [apply logging_on_host; intros w; by apply (ld_rotate _ _ Down) | intros _].
  intros p [Hb _]. destruct (ld_append _ _ Down line (srv_host p) Hb) as (e & w & E').
  unfold on_host, zoom. by rewrite E'.
Qed.

Lemma audit_throws event details p : unlogged p ->
  exists e q, audit event details p = (Throw e, q) /\ srv_state q = srv_state p.
Proof.
  intros Hp. pose proof (audit_dies event details p Hp) as H. pose proof (silent_audit event details p) as Hs.
  destruct (audit event details p) as [[[] | e] q]; [done | by exists e, q].
Qed.

Lemma transition_throws id next reason x p : unlogged p ->
  srv_sessions (srv_state p) !! id = Some x -> sess_state x <> next ->
  exists e q, transition_session id next reason p = (Throw e, q) /\
    (srv_sessions (srv_state q) = srv_sessions (srv_state p) \/
     srv_sessions (srv_state q) = alter (fun x => x <| sess_state := next |>) id (srv_sessions (srv_state p))).
Proof.
  intros Hp Hx Hn. unfold transition_session, session_at, self, gets, mbind, M_bind. rewrite Hx. cbn [mret M_ret]. cbv zeta.
  rewrite bool_decide_eq_false_2 by done. destruct (negb _); [eexists _, _; by split; [| left] |].
  unfold update_session, srv_update, modify. cbv beta iota.
  match goal with |- context [audit ?e ?d ?q] => destruct (audit_throws e d q Hp) as (e' & q' & E & Es) end.
  rewrite E. eexists _, _. split; [done |]. right. by rewrite Es.
Qed.

(** ** Sessions that stay open *)

Context (m : gmap string Session).

(** The sessions and the vehicles are as they were. *)
Record unchanged (online : gmap string ConnectionPresence) (p : Srv) : Prop := {
  al_logging : unlogged p;
  al_sessions : srv_sessions (srv_state p) = m;
  al_vehicles : srv_online_vehicles (srv_state p) = online;
}.

(** The open sessions are still open, those aside that were stopping already. *)
Definition spared (p : Srv) : Prop := forall id x,
  m !! id = Some x -> is_open x = true -> sess_state x <> Stopping ->
  exists y, srv_sessions (srv_state p) !! id = Some y /\ is_open y = true.

Lemma same_spared p : srv_sessions (srv_state p) = m -> spared p.
Proof. intros Hs id x Hx Ho _. rewrite Hs. eauto. Qed.

Lemma altered_spared f id p :
  (forall x, m !! id = Some x -> is_open x = true -> sess_state x <> Stopping -> is_open (f x) = true) ->
  srv_sessions (srv_state p) = alter f id m -> spared p.
Proof.
  intros Hf Hs i x Hx Ho Hn. rewrite Hs. destruct (decide (i = id)) as [-> | Hi].
  - rewrite lookup_alter_eq, Hx. simpl. eauto.
  - rewrite lookup_alter_ne by done. eauto.
Qed.

Section unchanged.
Context (online : gmap string ConnectionPresence).
Notation alive := (unchanged online).

Lemma alive_spared p : alive p -> spared p.
Proof. intros [_ Hs _]. by apply same_spared. Qed.

(** Returns only while everything is as it was. *)
Notation passes m := (hoare alive m (fun _ => alive) spared).
Notation fails m := (hoare alive m (fun _ _ => False) spared).

Lemma fails_passes {A} (c : M Srv A) : fails c -> passes c.
Proof. intros Hc p Hp. specialize (Hc p Hp). by destruct (c p) as [[] q]. Qed.

Lemma passes_then {A B} (c : M Srv A) (f : A -> M Srv B) Q : passes c ->
  (forall a, hoare alive (f a) Q spared) -> hoare alive (c ≫= f) Q spared.
Proof. intros Hc Hf. by apply (hoare_bind _ (fun _ => alive)). Qed.

Lemma fails_then {A B} (c : M Srv A) (f : A -> M Srv B) : fails c -> fails (c ≫= f).
Proof. intros Hc p Hp. specialize (Hc p Hp). unfold mbind, M_bind. by destruct (c p) as [[] q]. Qed.

Lemma passes_ret {A} (a : A) : passes (mret a).
Proof. by apply hoare_ret. Qed.

Lemma audit_fails event details : fails (audit event details).
Proof.
  intros p [Hl Hs Hv]. destruct (audit_throws event details p Hl) as (e & q & -> & Es).
  apply same_spared. by rewrite Es.
Qed.

(** Closing an open session throws; a session is closed only if it was stopping. *)
Lemma close_fails id reason x : m !! id = Some x -> is_open x = true -> fails (close_session id reason).
Proof.
  intros Hx Ho p [Hl Hs Hv]. unfold close_session.
  assert (E0 : session_at id p = (Ok x, p))
    by (unfold session_at, self, gets, mbind, M_bind; by rewrite Hs, Hx).
  rewrite (bind_run _ _ _ _ _ E0).
  unfold is_open in Ho. apply negb_true_iff in Ho. rewrite Ho. apply bool_decide_eq_false in Ho.
  set (clear := fun x => x <| sess_control_token := "" |> <| sess_control_token_expires_at_ms := 0 |>).
  rewrite (bind_run (update_session id _) _ p tt _ eq_refl), (bind_run (srv_update _) _ _ tt _ eq_refl).
  set (p1 := _ <| srv_state ::= forget_messages x |>).
  assert (Hl1 : unlogged p1) by exact Hl.
  assert (Hs1 : srv_sessions (srv_state p1) = alter clear id m) by (simpl; by rewrite Hs).
  assert (Hx1 : srv_sessions (srv_state p1) !! id = Some (clear x)) by by rewrite Hs1, lookup_alter_eq, Hx.
  clearbody p1. unfold mbind at 1, M_bind at 1.
  destruct (bool_decide (sess_state x = Stopping)) eqn:Et; cbn [negb when].
  - apply bool_decide_eq_true in Et. unfold mbind, M_bind, mret, M_ret.
    destruct (transition_throws id Closed reason (clear x) p1 Hl1 Hx1) as (e & q & -> & Hq).
    { simpl. by rewrite Et. }
    destruct Hq as [Hq | Hq]; rewrite Hs1, ?alter_alter in Hq; (eapply altered_spared; [| exact Hq]);
      intros y Hy _ Hn; congruence.
  - apply bool_decide_eq_false in Et.
    destruct (transition_throws id Stopping reason (clear x) p1 Hl1 Hx1 Et) as (e & q & -> & Hq).
    destruct Hq as [Hq | Hq]; rewrite Hs1, ?alter_alter in Hq; (eapply altered_spared; [| exact Hq]); [| done].
    by intros y Hy Hy' _.
Qed.

Lemma close_passes id reason : passes (close_session id reason).
Proof.
  destruct (m !! id) as [x |] eqn:Hx; [destruct (is_open x) eqn:Ho |].
  - by eapply fails_passes, close_fails.
  - intros p Hp. unfold close_session, session_at, self, gets, mbind, M_bind. rewrite (al_sessions _ p Hp), Hx.
    unfold is_open in Ho. apply negb_false_iff in Ho. cbn [mret M_ret]. by rewrite Ho.
  - intros p Hp. unfold close_session, session_at, self, gets, mbind, M_bind. rewrite (al_sessions _ p Hp), Hx.
    by apply alive_spared.
Qed.

Lemma sessions_pass test body : (forall id, passes (body id)) -> passes (for_sessions test body).
Proof.
  intros Hb. unfold for_sessions, self. apply hoare_gets. intros p0 Hp0.
  apply (hoare_pre _ alive); [by intros s' Es; rewrite Es |]. generalize (hash_items (srv_sessions (srv_state p0))).
  intros l. induction l as [| [id x] l IH]; [by apply hoare_ret |]. cbn [for_each].
  apply (hoare_bind _ (fun _ => alive)); [| intros _; exact IH]. intros p Hp. unfold session_at, self, gets, mbind, M_bind.
  rewrite (al_sessions _ p Hp). cbn [fst]. destruct (m !! id) as [y |]; [| by apply alive_spared].
  cbn [mret M_ret]. destruct (test y); [by apply Hb | done].
Qed.

(** With a session to close in the table, the loop does not return. *)
Lemma sessions_fail test reason id x : m !! id = Some x -> test x = true -> is_open x = true ->
  fails (for_sessions test (fun id => close_session id reason)).
Proof.
  intros Hx Ht Ho. unfold for_sessions, self. apply hoare_gets. intros p0 Hp0.
  apply (hoare_pre _ alive); [by intros s' Es; rewrite Es |].
  assert (Hin : id ∈ (hash_items (srv_sessions (srv_state p0))).*1)
    by (apply keys_of_items; by rewrite (al_sessions _ p0 Hp0)).
  revert Hin. generalize (hash_items (srv_sessions (srv_state p0))). intros l Hin.
  induction l as [| [i y] l IH]; [by apply elem_of_nil in Hin |]. cbn [for_each].
  apply (hoare_bind _ (fun _ p => alive p /\ i <> id)).
  - intros p Hp. unfold session_at, self, gets, mbind, M_bind. rewrite (al_sessions _ p Hp). cbn [fst].
    destruct (m !! i) as [z |] eqn:Ez; [| by apply alive_spared]. cbn [mret M_ret].
    destruct (decide (i = id)) as [-> | Hi].
    + rewrite Hx in Ez. injection Ez as <-. rewrite Ht. cbn [when].
      pose proof (close_fails id reason x Hx Ho p Hp) as H. by destruct (close_session id reason p) as [[] q].
    + destruct (test z); cbn [when]; [| done]. pose proof (close_passes i reason p Hp) as H.
      by destruct (close_session i reason p) as [[] q].
  - intros _. apply hoare_pure. intros Hi. apply IH. cbn [fmap list_fmap fst] in Hin.
    by apply elem_of_cons in Hin as [-> | ?].
Qed.

(** ** The pass *)
Lemma alive_update f : (forall s, srv_config (f s) = srv_config s /\ srv_sessions (f s) = srv_sessions s /\
    srv_online_vehicles (f s) = srv_online_vehicles s) -> passes (srv_update f).
Proof. intros Hf p [[Hb Hc] Hs Hv]. destruct (Hf (srv_state p)) as (E1 & E2 & E3). split; [split | ..]; simpl; congruence. Qed.

Lemma self_passes {B} (k : SignalingState J -> M Srv B) Q :
  (forall s, srv_config s = config -> srv_online_vehicles s = online ->
     hoare alive (k s) Q spared) -> hoare alive (self ≫= k) Q spared.
Proof. intros Hk p Hp. apply Hk; [apply Hp | apply (al_vehicles _ p Hp) | done]. Qed.

Lemma token_passes t entry : passes (expire_driver_token t entry).
Proof.
  destruct entry as [k token]. unfold expire_driver_token. destruct (_ <? _); [apply passes_ret |]. cbv zeta.
  apply passes_then; [by apply alive_update | intros _]. apply self_passes. intros s _ _.
  destruct (_ !! _) as [e |]; [| apply passes_ret]. destruct (negb _); [apply passes_ret |].
  apply passes_then; [by apply alive_update | intros _].
  apply passes_then; [apply sessions_pass; intros; apply close_passes | intros _].
  by apply fails_passes, audit_fails.
Qed.

Lemma leases_pass t : passes (expire_leases t).
Proof.
  apply sessions_pass. intros id. apply passes_then; [apply close_passes | intros _].
  apply passes_then.
  - intros p Hp. unfold session_at, self, gets, mbind, M_bind. rewrite (al_sessions _ p Hp).
    destruct (m !! id); [done | by apply alive_spared].
  - intros x. by apply fails_passes, audit_fails.
Qed.

Lemma each_passes {A} (l : list A) body : (forall a, passes (body a)) -> passes (for_each l body).
Proof. intros Hb. induction l as [| a l IH]; [apply passes_ret | by apply passes_then]. Qed.

End unchanged.

Definition silent_since (t : Z) (e : ConnectionPresence) : Prop :=
  sgc_vehicle_heartbeat_timeout_ms config <= t - cp_last_seen_at_ms e.

(** A vehicle that has fallen silent: its presence goes, and the record of it throws. *)
Lemma silent_vehicle_fails t v e online : silent_since t e ->
  hoare (unchanged online) (expire_vehicle t (v, e)) (fun _ _ => False) spared.
Proof.
  intros Ht. unfold expire_vehicle. apply self_passes. intros s Hc _. rewrite Hc.
  rewrite (proj2 (Z.ltb_ge _ _)) by done.
  apply (hoare_bind _ (fun _ => unchanged (delete v online))).
  { intros p [Hl Hs Hv]. split; [exact Hl | exact Hs |]. simpl. by rewrite Hv. }
  intros _. apply passes_then; [apply sessions_pass; intros; apply close_passes | intros _]. apply audit_fails.
Qed.

Lemma vehicle_passes t entry online :
  hoare (unchanged online) (expire_vehicle t entry) (fun _ => unchanged online) spared.
Proof.
  destruct entry as [v e].
  destruct (Z.ltb_spec (t - cp_last_seen_at_ms e) (sgc_vehicle_heartbeat_timeout_ms config)) as [Ht | Ht].
  - apply self_passes. intros s Hc _. rewrite Hc, (proj2 (Z.ltb_lt _ _)) by done. apply passes_ret.
  - by apply fails_passes, silent_vehicle_fails.
Qed.

Lemma vehicles_fail t l v e online : (v, e) ∈ l -> silent_since t e ->
  hoare (unchanged online) (for_each l (expire_vehicle t)) (fun _ _ => False) spared.
Proof.
  intros Hin Ht. induction l as [| entry l IH]; [by apply elem_of_nil in Hin |]. cbn [for_each].
  apply elem_of_cons in Hin as [<- | Hin].
  - by eapply fails_then, silent_vehicle_fails.
  - apply passes_then; [apply vehicle_passes | intros _; auto].
Qed.

Lemma cleanup_fails t online v e : online !! v = Some e -> silent_since t e ->
  hoare (unchanged online) (cleanup_expired_connections t) (fun _ _ => False) spared.
Proof.
  intros Hv Ht. unfold cleanup_expired_connections. apply self_passes. intros s _ _.
  apply passes_then; [apply each_passes; intros; apply token_passes | intros _].
  apply passes_then; [apply leases_pass | intros _]. apply self_passes. intros s1 _ Hs1.
  eapply fails_then, (vehicles_fail t _ v e); [| done].
  apply in_items. by rewrite Hs1.
Qed.

Lemma reap_fails p v e :
  unlogged p -> srv_sessions (srv_state p) = m -> srv_online_vehicles (srv_state p) !! v = Some e ->
  silent_since (host_now_ms (srv_host p)).1 e ->
  exists error p', reap p = (Throw error, p') /\ spared p'.
Proof.
  intros Hl Hm Hv Ht. pose proof (logging_now p Hl) as Hl1. unfold reap.
  assert (E : now_ms p = (Ok (host_now_ms (srv_host p)).1, (now_ms p).2)).
  { unfold now_ms, read_clock, on_host, zoom. by destruct (host_now_ms (srv_host p)). }
  assert (Es : srv_state (now_ms p).2 = srv_state p)
    by (unfold now_ms, read_clock, on_host, zoom; by destruct (host_now_ms (srv_host p))).
  rewrite (bind_run _ _ _ _ _ E).
  assert (Hu : unchanged (srv_online_vehicles (srv_state p)) (now_ms p).2) by (split; [done | by rewrite Es ..]).
  pose proof (cleanup_fails _ _ v e Hv Ht _ Hu) as H.
  destruct (cleanup_expired_connections _ (now_ms p).2) as [[[] | error] p']; [done | by exists error, p'].
Qed.
End reaper.

(** C38. The reaper can die.  While the audit log cannot be written, on any machine and in any
    state of the server, a vehicle that has been silent for its heartbeat timeout ends the
    reaper's pass in an exception (and nothing catches an exception of the reaper's thread);
    every session that was open is still open afterwards, the vehicle's own too, but for
    those that were stopping already. *)
Theorem reaper_can_die {J : JsonApi} {W : Type} {Host : SignalingHost J W} {Logs : SessionLogs J W}
    {HL : HashLaws J W} (broken : W -> Prop) (p : SignalingProcess J W) v e :
  let s := srv_state p in
  let t := (host_now_ms (srv_host p)).1 in
  sgc_audit_log_path (srv_config s) <> ""%string ->
  log_down (sgc_audit_log_path (srv_config s)) broken -> broken (srv_host p) ->
  srv_online_vehicles s !! v = Some e ->
  sgc_vehicle_heartbeat_timeout_ms (srv_config s) <= t - cp_last_seen_at_ms e ->
  exists error p', reap p = (Throw error, p') /\
    forall id x, srv_sessions s !! id = Some x -> is_open x = true -> sess_state x <> Stopping ->
      exists y, srv_sessions (srv_state p') !! id = Some y /\ is_open y = true.
Proof.
  intros s t Hp Hd Hb Hv Ht.
  by apply (reap_fails broken (srv_config s) Hd Hp (srv_sessions s) p v e).
Qed.

(** Four minutes of silence, without a log. *)
Definition demo_silent : DemoServer := server_run (demo_until_granted ++ [demo_silence false]) demo_server.

Lemma demo_log_down path : log_down (J := JsonModel.api) path (fun w : DemoMachine => dm_audit_works w = false).
Proof.
  split; try done.
  intros line w Hw. exists (RuntimeError "cannot append signaling audit log"), w.
  cbn. unfold demo_append, gets, mbind, M_bind. by rewrite Hw.
Qed.

Lemma reaper_can_die_witness : exists error p' y,
  reap demo_silent = (Throw error, p') /\
  srv_sessions (srv_state p') !! demo_session_id = Some y /\ is_open y = true.
Proof.
  destruct (srv_online_vehicles (srv_state demo_silent) !! "vehicle-001"%string) as [e |] eqn:Ev;
    [| vm_compute in Ev; discriminate Ev].
  destruct (srv_sessions (srv_state demo_silent) !! demo_session_id) as [x |] eqn:Ex;
    [| vm_compute in Ex; discriminate Ex].
  destruct (reaper_can_die (fun w => dm_audit_works w = false) demo_silent "vehicle-001" e) as (error & p' & E & H).
  - vm_compute. discriminate.
  - apply demo_log_down.
  - vm_compute. reflexivity.
  - exact Ev.
  - vm_compute in Ev. injection Ev as <-. vm_compute. discriminate.
  - destruct (H demo_session_id x Ex) as (y & Hy & Ho).
    + vm_compute in Ex. injection Ex as <-. reflexivity.
    + vm_compute in Ex. injection Ex as <-. discriminate.
    + exists error, p', y. split; [exact E | split; [exact Hy | exact Ho]].
Defined.
