(* ===== verification/SignalingMail.v ===== *)
(** SignalingMail: the mailboxes of the sessions over whole runs.

    - [mail_closed]: the closure conditions under which a predicate on sessions and
      mailboxes survives everything but a grant and an accepted message;
    - [mail_frame]: the two exceptions; [mail_step] for every step of the server. *)
From S2P Require Export SignalingRevocation.

Section mail.
Context {J : JsonApi} {W : Type} {Host : SignalingHost J W} {Logs : SessionLogs J W}.
Notation State := (SignalingState J).
Notation Srv := (SignalingProcess J W).

(** Sessions, mailboxes and their counters. *)
Definition mail (s : State) :=
  (srv_sessions s, srv_messages s, srv_latest_control_messages s, srv_last_accepted_messages s,
   srv_next_delivery_cursors s, srv_session_counter s).

(** The same session, with the same parties and token. *)
Definition same_party (x y : Session) : Prop :=
  sess_session_id y = sess_session_id x /\ sess_vehicle_id y = sess_vehicle_id x /\
  sess_driver_id y = sess_driver_id x /\ sess_control_token y = sess_control_token x.

(** Some messages may have gone. *)
Definition mail_less (s s' : State) : Prop :=
  srv_sessions s' = srv_sessions s /\ srv_session_counter s' = srv_session_counter s /\
  srv_last_accepted_messages s' = srv_last_accepted_messages s /\
  srv_next_delivery_cursors s' = srv_next_delivery_cursors s /\
  srv_latest_control_messages s' ⊆ srv_latest_control_messages s /\
  forall key queue', srv_messages s' !! key = Some queue' ->
    exists queue, srv_messages s !! key = Some queue /\ queue' `sublist_of` queue.

(** What [close_session] does first. *)
Definition silence (id : string) (x : Session) (s : State) : State :=
  forget_messages x (s <| srv_sessions ::= alter (fun x =>
    x <| sess_control_token := "" |> <| sess_control_token_expires_at_ms := 0 |>) id |>).

Record mail_closed (I : State -> Prop) : Prop := {
  mc_other s s' : mail s' = mail s -> I s -> I s';
  mc_update s id f :
    (forall x, srv_sessions s !! id = Some x -> same_party x (f x)) ->
    I s -> I (s <| srv_sessions ::= alter f id |>);
  mc_close s id x : srv_sessions s !! id = Some x -> I s -> I (silence id x s);
  mc_less s s' : mail_less s s' -> I s -> I s';
}.

Section closed.
Context (I : State -> Prop) (MC : mail_closed I).
Notation Keeps := (keeps (members (W := W) I)).

Lemma mail_other_keeps f : (forall s, mail (f s) = mail s) -> Keeps (srv_update f).
Proof. intros Hf p H. eapply (mc_other _ MC); [apply Hf | exact H]. Qed.

Lemma mail_session_keeps id f : (forall x, same_party x (f x)) -> Keeps (update_session id f).
Proof. intros Hf p H. apply (mc_update _ MC); auto. Qed.

Lemma mail_approval_keeps v a : Keeps (set_approval v a).
Proof. by apply mail_other_keeps. Qed.
End closed.
End mail.

Ltac head_of t := match t with ?f _ => head_of f | _ => t end.

Create HintDb mail.

(** One step of a preservation proof for a [mail_closed] predicate: the silent steps, the
    known operations, the syntax, the updates; other operations are unfolded. *)
Ltac mail_step :=
  match goal with
  | |- forall _, _ => intro
  | |- keeps (members _) _ => solve [apply silent_keeps; eauto with silent]
  | |- keeps _ _ => solve [eauto with mail]
  | |- keeps _ (if ?b then _ else _) => destruct b
  | |- keeps _ (match ?x with _ => _ end) => destruct x
  | |- keeps _ (mret _) => apply keeps_ret
  | |- keeps _ (throw _) => apply keeps_throw
  | |- keeps _ (for_each _ _) => apply keeps_for_each
  | |- keeps _ (try_catch_std _ _) => apply keeps_try_std
  | |- keeps _ (try_catch _ _) => apply keeps_try
  | |- keeps _ (mbind _ _) => apply keeps_bind
  | |- keeps _ (when _ _) => apply keeps_when
  | |- keeps _ (srv_update _) =>
      apply mail_other_keeps; [assumption | intro; first [reflexivity |
        unfold cleanup_approver_logins, set_api_bucket; repeat case_match; reflexivity]]
  | |- keeps _ (update_session _ _) =>
      apply mail_session_keeps; [assumption | intro; repeat split; reflexivity]
  | |- keeps _ (set_approval _ _) => apply mail_approval_keeps; assumption
  | |- keeps _ ?m => let h := head_of m in progress unfold h
  end.
Ltac mail_auto := repeat mail_step.

Section operations.
Context {J : JsonApi} {W : Type} {Host : SignalingHost J W} {Logs : SessionLogs J W}.
Notation State := (SignalingState J).
Notation Srv := (SignalingProcess J W).
Context (I : State -> Prop) (MC : mail_closed I).
Notation Keeps := (keeps (members (W := W) I)).

Lemma mail_driver_token d t : Keeps (validate_driver_token d t).
Proof. unfold validate_driver_token. mail_auto. Qed.

Lemma mail_vehicle_connection v t g : Keeps (validate_vehicle_connection v t g).
Proof. unfold validate_vehicle_connection. mail_auto. Qed.

Lemma mail_actor x actor value : Keeps (validate_actor_credential x actor value).
Proof.
  pose proof mail_driver_token. pose proof mail_vehicle_connection.
  unfold validate_actor_credential. mail_auto.
Qed.

Lemma mail_transition id next reason : Keeps (transition_session id next reason).
Proof. unfold transition_session. mail_auto. Qed.

Lemma mail_close id reason : Keeps (close_session id reason).
Proof.
  pose proof mail_transition as Ht. intros p H. unfold close_session.
  unfold mbind at 1, M_bind at 1.
  destruct (session_at id p) as [[x | e] p1] eqn:E.
  2: { pose proof (silent_session_at id p) as Hs. rewrite E in Hs. simpl in Hs.
       unfold members in *. simpl. by rewrite Hs. }
  assert (p1 = p /\ srv_sessions (srv_state p) !! id = Some x) as [-> Hx].
  { unfold session_at, self, gets, mbind, M_bind in E.
    destruct (srv_sessions (srv_state p) !! id); [| done]. by injection E as -> ->. }
  destruct (bool_decide _); [done |].
  unfold mbind at 1, M_bind at 1, update_session, srv_update at 1, modify at 1.
  unfold mbind at 1, M_bind at 1, srv_update at 1, modify at 1.
  match goal with |- members I (?m ?q).2 =>
    assert (Hq : members I q) by (apply (mc_close _ MC (srv_state p) id x Hx H));
    assert (Hm : Keeps m) by mail_auto; by apply Hm end.
Qed.
End operations.

#[export] Hint Resolve mail_driver_token mail_vehicle_connection mail_actor mail_transition
  mail_close : mail.

Section more_operations.
Context {J : JsonApi} {W : Type} {Host : SignalingHost J W} {Logs : SessionLogs J W}.
Notation State := (SignalingState J).
Notation Srv := (SignalingProcess J W).
Context (I : State -> Prop) (MC : mail_closed I).
Notation Keeps := (keeps (members (W := W) I)).

Lemma mail_cleanup_approvals : Keeps cleanup_mobile_approvals.
Proof. unfold cleanup_mobile_approvals. mail_auto. Qed.

Lemma mail_cleanup t : Keeps (cleanup_expired_connections t).
Proof. pose proof mail_cleanup_approvals. unfold cleanup_expired_connections. mail_auto. Qed.

Lemma mail_require d v r : Keeps (require_mobile_approval d v r).
Proof. pose proof mail_cleanup_approvals. unfold require_mobile_approval. mail_auto. Qed.

Lemma mail_participant id actor : Keeps (require_participant id actor).
Proof. apply silent_keeps. eauto with silent. Qed.

(** A usage report replaces the session by one of the same parties. *)
Lemma mail_turn_usage id value : Keeps (post_turn_usage id value).
Proof.
  unfold post_turn_usage. intros p H.
  pose proof (acting_session id value p) as Hs.
  assert (Hk : Keeps (acting_participant id value)) by (unfold acting_participant; mail_auto).
  specialize (Hk p H). unfold mbind at 1, M_bind at 1.
  destruct (acting_participant id value p) as [[[actor x] | e] q]; [| exact Hk].
  simpl in Hk. unfold record_turn_usage.
  assert (Hl : leads (members (W := W) (fun s => I s /\ srv_sessions s !! id = Some x)) (members I)
                 (record_turn_usage id actor x value)); [| by apply Hl].
  unfold record_turn_usage. assert (HK : forall p : Srv, members (fun s => I s /\ srv_sessions s !! id = Some x) p ->
    members I p) by (intros p' H'; apply H').
  repeat (apply leads_bind; [exact HK | apply silent_keeps; eauto with silent | intro]).
  destruct (_ : bool); [apply leads_keeps; [apply silent_keeps; eauto with silent | exact HK] |].
  intros p' Hp'. unfold mbind at 1, M_bind at 1, lift at 1.
  destruct (add_relay_usage _ x) as [after | e] eqn:E; [| apply Hp']. revert p' Hp'.
  apply leads_bind; [exact HK | apply silent_keeps; eauto with silent | intros _].
  apply (leads_then _ (members I)); [| intros _; apply silent_keeps; eauto with silent].
  intros p' [H' Hx]. apply (mc_update _ MC); [| exact H'].
  intros y Hy. rewrite Hx in Hy. injection Hy as <-.
  unfold add_relay_usage in E. apply throw_if_seq in E as [_ E]. apply throw_if_seq in E as [_ E].
  injection E as <-. by repeat split.
Qed.

(** A poll and an acknowledgement only remove. *)
Lemma mail_less_refl (s : State) : mail_less s s.
Proof. repeat split; eauto. Qed.

Lemma mail_less_trans (s1 s2 s3 : State) : mail_less s1 s2 -> mail_less s2 s3 -> mail_less s1 s3.
Proof.
  intros (A1 & A2 & A3 & A4 & A5 & A6) (B1 & B2 & B3 & B4 & B5 & B6).
  split_and!; try congruence; [by etrans |]. intros key q Hq.
  destruct (B6 _ _ Hq) as (q1 & H1 & S1). destruct (A6 _ _ H1) as (q2 & H2 & S2).
  exists q2. split; [done | by etrans].
Qed.

Lemma filter_sublist_of {A} (f : A -> bool) xs : List.filter f xs `sublist_of` xs.
Proof. induction xs as [| x xs IH]; simpl; [done |]. destruct (f x); by constructor. Qed.

(** The queue under a key becomes [kept], part of what it was. *)
Lemma mail_less_queue (s : State) key queue kept :
  srv_messages s !! key = Some queue -> kept `sublist_of` queue ->
  mail_less s (s <| srv_messages ::=
    match kept with [] => delete key | _ => <[key := kept]> end |>).
Proof.
  intros Hq Hk. split_and!; try done. intros k q. simpl.
  destruct (decide (k = key)) as [-> | Hne].
  - destruct kept as [| m kept]; [by rewrite lookup_delete_eq | rewrite lookup_insert_eq].
    intros [= <-]. eauto.
  - destruct kept; [rewrite lookup_delete_ne by done | rewrite lookup_insert_ne by done]; eauto.
Qed.

Lemma mail_less_slot (s : State) key :
  mail_less s (s <| srv_latest_control_messages ::= delete key |>).
Proof. split_and!; try done; [apply delete_subseteq | eauto]. Qed.

Lemma mail_less_expire n key (s : State) : mail_less s (expire_messages n key s).
Proof.
  unfold expire_messages.
  set (s1 := match srv_latest_control_messages s !! key with Some _ => _ | None => _ end).
  assert (H1 : mail_less s s1).
  { unfold s1. destruct (srv_latest_control_messages s !! key); [| apply mail_less_refl].
    destruct (message_fresh _ _ _); [apply mail_less_refl | apply mail_less_slot]. }
  eapply mail_less_trans; [exact H1 |]. destruct (srv_messages s1 !! key) as [q |] eqn:Eq; [| apply mail_less_refl].
  pose proof (mail_less_queue s1 key q _ Eq
    (filter_sublist_of (message_fresh n (sgc_signaling_message_ttl_ms (srv_config s))) q)) as H.
  by destruct (List.filter _ q).
Qed.

Lemma mail_less_consume r key (s : State) : mail_less s (consume_messages r key s).
Proof.
  unfold consume_messages.
  set (s1 := if r "control_command"%string then _ else _).
  assert (H1 : mail_less s s1).
  { unfold s1. destruct (r _); [apply mail_less_slot | apply mail_less_refl]. }
  eapply mail_less_trans; [exact H1 |]. destruct (srv_messages s1 !! key) as [q |] eqn:Eq; [| apply mail_less_refl].
  pose proof (mail_less_queue s1 key q _ Eq
    (filter_sublist_of (fun m => negb (r (msg_type m))) q)) as H.
  by destruct (List.filter _ q).
Qed.

Lemma mail_less_keeps f : (forall s, mail_less s (f s)) -> Keeps (srv_update f).
Proof. intros Hf p H. by apply (mc_less _ MC (srv_state p)). Qed.

Lemma mail_take id r t c : Keeps (take_signaling_messages id r t c).
Proof.
  unfold take_signaling_messages. apply keeps_bind; [mail_auto | intros n].
  apply keeps_bind; [apply mail_less_keeps, mail_less_expire | intros _].
  apply keeps_bind; [mail_auto | intros s]. cbv zeta.
  apply keeps_bind; [apply keeps_when, mail_less_keeps, mail_less_consume | intros _]. apply keeps_ret.
Qed.

Lemma mail_acknowledge id r c b : Keeps (acknowledge_signaling_messages id r c b).
Proof.
  intros p H. unfold acknowledge_signaling_messages.
  unfold self at 1, gets at 1, mbind at 1, M_bind at 1. cbv beta iota zeta.
  set (key := message_key id r).
  set (kept := List.filter _ (default [] (srv_messages (srv_state p) !! key))).
  set (first := when _ _). assert (H1 : members I (first p).2).
  { unfold first. destruct (_ && _) eqn:E; [| exact H]. apply andb_true_iff in E as [_ [q Eq]%bool_decide_eq_true].
    apply (mc_less _ MC (srv_state p)); [| exact H]. eapply mail_less_queue; [exact Eq |].
    unfold kept. rewrite Eq. apply filter_sublist_of. }
  unfold mbind at 1, M_bind at 1. destruct (first p) as [[[] | e] q]; [| exact H1]. simpl in H1.
  destruct (srv_latest_control_messages _ !! key) as [m |]; [| exact H1].
  destruct (_ <? _); [exact H1 |]. apply (mc_less _ MC (srv_state q)); [| exact H1]. apply mail_less_slot.
Qed.
End more_operations.

#[export] Hint Resolve mail_cleanup_approvals mail_cleanup mail_require mail_participant
  mail_turn_usage mail_take mail_acknowledge : mail.

(** ** An accepted message *)

Section accepted.
Context {J : JsonApi} {W : Type} {Host : SignalingHost J W} {Logs : SessionLogs J W}.
Notation State := (SignalingState J).
Notation Srv := (SignalingProcess J W).

(** What admission establishes about the session and the message. *)
Record admitted_for (x : Session) (m : Admitted_message) : Prop := {
  af_active : sess_state x = Active;
  af_route : check_route x (ad_sender m) (ad_recipient m) (ad_type m) = Ok tt;
  af_command : is_control (ad_type m) = true ->
    check_control_command x (ad_metadata m) (ad_payload m) = Ok tt;
  af_session : md_session_id (ad_metadata m) = sess_session_id x /\
    md_vehicle_id (ad_metadata m) = sess_vehicle_id x /\
    md_driver_id (ad_metadata m) = sess_driver_id x;
}.

Definition mail_is M : State -> Prop := fun s => mail s = M.

Lemma mail_is_update M f :
  (forall s, mail (f s) = mail s) -> keeps (members (W := W) (mail_is M)) (srv_update f).
Proof. intros Hf p H. unfold members, mail_is in *. simpl. by rewrite Hf. Qed.

Lemma credential_mail M x actor value :
  keeps (members (W := W) (mail_is M)) (validate_actor_credential x actor value).
Proof.
  unfold validate_actor_credential, validate_driver_token, validate_vehicle_connection.
  repeat (match goal with
          | |- keeps _ (srv_update _) => apply mail_is_update; reflexivity
          | _ => srv_keeps_step end).
Qed.

Lemma admit_mail M id value actor : keeps (members (W := W) (mail_is M)) (admit_message id value actor).
Proof. pose proof credential_mail. unfold admit_message. srv_keeps. Qed.

Lemma participant_ok id actor (p : Srv) :
  match require_participant id actor p with
  | (Ok x, q) => q = p /\ srv_sessions (srv_state p) !! id = Some x /\ sess_state x = Active
  | (Throw _, _) => True
  end.
Proof.
  unfold require_participant, require_active_session, self, gets, mbind, M_bind.
  destruct (srv_sessions (srv_state p) !! id) as [x |]; [| done].
  destruct (bool_decide (sess_state x = Active)) eqn:E; simpl; [| done].
  apply bool_decide_eq_true in E. by destruct (_ && _).
Qed.

Lemma metadata_ok x md (p : Srv) :
  match validate_message_metadata (J := J) x md p with
  | (Ok _, _) => md_session_id md = sess_session_id x /\ md_vehicle_id md = sess_vehicle_id x /\
                 md_driver_id md = sess_driver_id x
  | (Throw _, _) => True
  end.
Proof.
  unfold validate_message_metadata, mbind, M_bind, lift.
  destruct (ProtocolMetadata_validate md); [| done]. unfold throw_if.
  destruct (_ || _) eqn:E; [done |]. bool_prop. repeat split; assumption.
Qed.

(** An admitted message is for the session that is in the table. *)
Lemma admit_ok id value actor (p : Srv) :
  match admit_message id value actor p with
  | (Ok m, q) => mail (srv_state q) = mail (srv_state p) /\
                 exists x, srv_sessions (srv_state p) !! id = Some x /\ admitted_for x m
  | (Throw _, q) => mail (srv_state q) = mail (srv_state p)
  end.
Proof.
  pose proof (admit_mail (mail (srv_state p)) id value actor p eq_refl) as Hm.
  enough (H : match admit_message id value actor p with
              | (Ok m, _) => exists x, srv_sessions (srv_state p) !! id = Some x /\ admitted_for x m
              | (Throw _, _) => True end)
    by (destruct (admit_message id value actor p) as [[m | e] q]; auto).
  clear Hm. unfold admit_message.
  unfold mbind at 1, M_bind at 1, lift at 1. destruct (required_string "sender" value) as [sender |]; [| done].
  unfold mbind at 1, M_bind at 1, lift at 1. destruct (required_string "recipient" value) as [recipient |]; [| done].
  unfold mbind at 1, M_bind at 1, lift at 1. destruct (required_string "type" value) as [type |]; [| done].
  unfold mbind at 1, M_bind at 1, lift at 1. destruct (throw_if _ _); [| done].
  unfold mbind at 1, M_bind at 1. pose proof (participant_ok id sender p) as Hp.
  destruct (require_participant id sender p) as [[x |] p1]; [| done]. destruct Hp as (-> & Hx & Ha).
  unfold mbind at 1, M_bind at 1.
  match goal with |- context [let (_, _) := ?m p in _] => destruct (m p) as [[] p2] end; [| done].
  unfold mbind at 1, M_bind at 1, lift at 1. destruct (ProtocolMetadata_from_json value) as [md |]; [| done].
  unfold mbind at 1, M_bind at 1. pose proof (metadata_ok x md p2) as Hmd.
  destruct (validate_message_metadata x md p2) as [[] p3]; [| done].
  unfold mbind at 1, M_bind at 1, lift at 1. destruct (check_route _ _ _ _) as [[] |] eqn:Er; [| done].
  unfold mbind at 1, M_bind at 1, self, gets. unfold mbind at 1, M_bind at 1, lift at 1.
  destruct (check_payload _ _ _) as [payload |]; [| done]. unfold mbind, M_bind.
  destruct (is_control type) eqn:Et; unfold lift, mret, M_ret.
  - destruct (check_control_command _ _ _) as [[] |] eqn:Ec; [| done].
    exists x. split; [done |]. by split.
  - exists x. split; [done |]. split; try done. simpl. by rewrite Et.
Qed.

(** A message that is not a repetition has a larger number than the last accepted one. *)
Definition newer (id : string) (m : Admitted_message) (s : State) : Prop :=
  forall accepted, srv_last_accepted_messages s !! sequence_key id m = Some accepted ->
  am_sequence accepted < md_seq (ad_metadata m).

Lemma replayed_ok id m fp (p : Srv) :
  match replayed_message id m fp p with
  | (Ok None, q) => q = p /\ newer id m (srv_state p)
  | (_, q) => srv_state q = srv_state p
  end.
Proof.
  unfold replayed_message, self, gets, mbind, M_bind.
  destruct (srv_last_accepted_messages (srv_state p) !! sequence_key id m) as [acc |] eqn:E.
  2: { unfold mret, M_ret. split; [done |]. intros acc H. congruence. }
  destruct (Z.ltb_spec (md_seq (ad_metadata m)) (am_sequence acc)); [done |].
  destruct (Z.eqb_spec (md_seq (ad_metadata m)) (am_sequence acc)) as [|Hne].
  2: { unfold mret, M_ret. split; [done |]. intros acc' H'. rewrite E in H'. injection H' as <-. lia. }
  destruct (negb _); [done |]. cbv zeta. unfold lift.
  destruct (value_string _ _ _); [| done].
  match goal with |- context [audit ?e ?d p] => pose proof (silent_audit e d p) as Hs;
    destruct (audit e d p) as [[] q] end; done.
Qed.

(** The members after a message was accepted. *)
Definition stored (id : string) (m : Admitted_message) (fp : string) (utc monotonic : Z) (ack : json)
    (s : State) : State :=
  let key := message_key id (ad_recipient m) in
  let cursor := u64 (default 0 (srv_next_delivery_cursors s !! key) + 1) in
  (store_message key
     (mkMessage (ad_metadata m) (ad_sender m) (ad_recipient m) (ad_type m) (ad_payload m) utc monotonic cursor)
     (s <| srv_next_delivery_cursors ::= <[key := cursor]> |>)).2
  <| srv_last_accepted_messages ::=
       <[sequence_key id m := mkAcceptedMessage (md_seq (ad_metadata m)) fp ack]> |>.

Lemma accept_ok id m fp a b (p : Srv) :
  exists utc monotonic ack,
    (accept_message id m fp a b p).1 = Ok ack /\
    srv_state (accept_message id m fp a b p).2 = stored id m fp utc monotonic ack (srv_state p).
Proof.
  unfold accept_message, next_cursor, now_ms, monotonic_now_ms, steady_now, read_clock, on_host, zoom,
    self, gets, srv_update, modify, mbind, M_bind, mret, M_ret. cbv beta iota zeta. simpl.
  destruct (host_now_ms (srv_host p)) as [utc w1]. simpl. destruct (host_steady_ns w1) as [mono w2]. simpl.
  unfold stored, store_message. simpl. destruct (is_control (ad_type m)); simpl;
    do 3 eexists; split; reflexivity.
Qed.
End accepted.

(** ** Steps of the server *)

Section steps.
Context {J : JsonApi} {W : Type} {Host : SignalingHost J W} {Logs : SessionLogs J W}.
Notation State := (SignalingState J).
Notation Srv := (SignalingProcess J W).

(** A step may number one session or accept one message; [I] before, [I'] after. *)
Record mail_frame (I I' : State -> Prop) : Prop := {
  mf_closed : mail_closed I;
  mf_closed' : mail_closed I';
  mf_weaken s : I s -> I' s;
  mf_counter s : I s -> I' (s <| srv_session_counter := u64 (srv_session_counter s + 1) |>);
  mf_create (s : State) vehicle_id driver_id started token expires :
    let counter := u64 (srv_session_counter s + 1) in
    let id := session_id_of counter in
    I s -> I' (s <| srv_session_counter := counter |>
                 <| srv_sessions ::=
                      <[id := mkSession id vehicle_id driver_id started Online token expires
                                0 0 0 0 d_zero ∅]> |>);
  mf_accept s id x m fp utc monotonic ack :
    I s -> srv_sessions s !! id = Some x -> admitted_for x m -> newer id m s ->
    I' (stored id m fp utc monotonic ack s);
}.

Context (I I' : State -> Prop) (F : mail_frame I I').
Notation Leads := (leads (members (W := W) I) (members I')).

Lemma weaken_members (p : Srv) : members I p -> members I' p.
Proof. apply (mf_weaken _ _ F). Qed.

Lemma leads_of_keeps {A} (m : M Srv A) : keeps (members I) m -> Leads m.
Proof. intros Hm. apply leads_keeps; [done | apply weaken_members]. Qed.

Lemma enqueue_leads id value actor : Leads (enqueue_signaling_message id value actor).
Proof.
  pose proof (mf_closed _ _ F) as MC. unfold enqueue_signaling_message.
  apply leads_bind; [apply weaken_members | mail_auto | intros utc].
  apply leads_bind; [apply weaken_members | mail_auto | intros monotonic].
  intros p H. unfold mbind at 1, M_bind at 1. pose proof (admit_ok id value actor p) as Ha.
  destruct (admit_message id value actor p) as [[m | e] p1].
  2: { apply weaken_members. by apply (mc_other _ MC (srv_state p)). }
  destruct Ha as [Hm (x & Hx & Ha)].
  assert (H1 : members I p1) by by apply (mc_other _ MC (srv_state p)).
  assert (Hx1 : srv_sessions (srv_state p1) !! id = Some x) by (injection Hm as -> _ _ _ _ _; done).
  clear p H Hm Hx. unfold mbind at 1, M_bind at 1, lift at 1.
  destruct (fingerprint_of m) as [fp |]; [| by apply weaken_members].
  unfold mbind at 1, M_bind at 1. pose proof (replayed_ok id m fp p1) as Hr.
  destruct (replayed_message id m fp p1) as [[[known |] | e] p2].
  - apply weaken_members. unfold members, mret, M_ret. simpl. by rewrite Hr.
  - destruct Hr as [-> Hnew]. unfold mbind at 1, M_bind at 1.
    destruct (accept_ok id m fp utc monotonic p1) as (u & mo & ack & Eok & Est).
    destruct (accept_message id m fp utc monotonic p1) as [r p3]. simpl in Eok, Est. subst r.
    assert (H3 : members I' p3).
    { unfold members. rewrite Est. by apply (mf_accept _ _ F _ _ x). }
    match goal with |- members I' (?k p3).2 =>
      assert (Hk : keeps (members I') k) by (apply silent_keeps; silent_auto); by apply Hk end.
  - apply weaken_members. unfold members. simpl. by rewrite Hr.
Qed.

Lemma create_session_leads d v : Leads (create_session d v).
Proof.
  intros p H. unfold create_session, self, gets, mbind, M_bind, srv_update, modify.
  cbv beta iota zeta. set (bump := p <| srv_state ::= _ |>).
  assert (Hbump : members I' bump) by by apply (mf_counter _ _ F).
  pose proof (silent_now_ms bump) as H1. destruct (now_ms bump) as [[started | e] p1]; simpl in H1.
  2: { unfold members. simpl. by rewrite H1. }
  pose proof (silent_random_token kRandomTokenBytes p1) as H2.
  destruct (random_token _ p1) as [[random | e] p2]; simpl in H2.
  2: { unfold members. simpl. by rewrite H2, H1. }
  pose proof (silent_now_ms p2) as H3. destruct (now_ms p2) as [[now | e] p3]; simpl in H3.
  2: { unfold members. simpl. by rewrite H3, H2, H1. }
  cbv beta iota zeta. set (session := mkSession _ _ _ _ _ _ _ _ _ _ _ _ _).
  set (p4 := p3 <| srv_state ::= _ |>).
  assert (H4 : members I' p4).
  { unfold members, p4. simpl. rewrite H3, H2, H1. by apply (mf_create _ _ F (srv_state p)). }
  pose proof (silent_remember session 0 p4) as H5.
  destruct (remember_log_session session 0 p4) as [[[] | e] p5]; simpl in H5;
    unfold members, mret, M_ret; simpl; by rewrite H5.
Qed.

Lemma activate_mail id d v : keeps (members (W := W) I') (activate_session id d v).
Proof. pose proof (mf_closed' _ _ F) as MC. unfold activate_session. mail_auto. Qed.

Lemma post_sessions_mail value : Leads (post_sessions value).
Proof.
  pose proof (mf_closed _ _ F) as MC. pose proof (mf_closed' _ _ F) as MC'.
  pose proof activate_mail. unfold post_sessions.
  do 11 (apply leads_bind; [apply weaken_members | mail_auto | intro]).
  apply leads_then; [apply create_session_leads | intros id].
  apply keeps_bind; [mail_auto | intros _].
  apply keeps_bind; [eauto | intros _]. mail_auto.
Qed.

(** A part of the server that neither grants nor accepts. *)
Ltac quiet := solve [apply leads_of_keeps; mail_auto].

Lemma dispatch_post_mail path parts value : Leads (dispatch_post path parts value).
Proof.
  pose proof (mf_closed _ _ F) as MC. pose proof post_sessions_mail as Hs. pose proof enqueue_leads as He.
  unfold dispatch_post. destruct (starts_with _ _); [quiet |].
  do 7 (destruct (String.eqb path _); [quiet |]).
  destruct (String.eqb path _); [apply Hs |].
  destruct parts as [| root [| id [| a [| b [| c rest]]]]]; try quiet.
  destruct (String.eqb root "sessions"); [quiet |]. destruct (_ && _); [| quiet].
  pose proof (mf_closed' _ _ F) as MC'. apply leads_then; [apply He | intros ack; mail_auto].
Qed.

Lemma dispatch_mail request : Leads (dispatch request).
Proof.
  pose proof (mf_closed _ _ F) as MC. unfold dispatch.
  destruct (starts_with _ _); [quiet |]. destruct (is_mobile_path _); [quiet |].
  destruct (String.eqb _ _); [quiet |]. destruct (String.eqb _ _); [| quiet].
  unfold handle_post.
  do 4 (apply leads_bind; [apply weaken_members | mail_auto | intro]).
  apply dispatch_post_mail.
Qed.

Lemma ws_receive_mail conn message : Leads (ws_receive conn message).
Proof.
  pose proof (mf_closed _ _ F) as MC. pose proof (mf_closed' _ _ F) as MC'.
  unfold ws_receive. apply leads_try.
  2: { intros e. destruct (is_std_exception e); mail_auto. }
  apply leads_bind; [apply weaken_members | mail_auto | intros acknowledgement].
  apply leads_then; [| intros; mail_auto]. destruct (acknowledgement : bool); [quiet |].
  unfold ws_submit.
  do 3 (apply leads_bind; [apply weaken_members | mail_auto | intro]). apply enqueue_leads.
Qed.

(** Every step of the server leads from [I] to [I']. *)
Lemma server_step_mail op (p : Srv) : members I p -> members I' (server_step op p).
Proof.
  pose proof (mf_closed _ _ F) as MC. intros H.
  destruct op as [request | request | id request | conn | conn message | | change | record vehicle driver]; simpl.
  - assert (Hk : Leads (rate_limit request)) by quiet. by apply Hk.
  - by apply dispatch_mail.
  - assert (Hk : Leads (ws_open id request)) by quiet. by apply Hk.
  - assert (Hk : Leads (ws_poll conn)) by quiet. by apply Hk.
  - by apply ws_receive_mail.
  - assert (Hk : Leads reap) by quiet. by apply Hk.
  - by apply weaken_members.
  - assert (Hk : Leads (logs_begin_export record vehicle driver)) by quiet. by apply Hk.
Qed.
End steps.
