(* ===== verification/SignalingCommands.v ===== *)
(** SignalingCommands: what waits in the mailboxes.

    - a waiting control command was sent by the driver of its session with the session's
      control token ([commands_authorised]);
    - the messages of a mailbox wait in the order of their cursors, which an
      acknowledgement of an earlier poll never reaches ([cursors_ordered]);
    - a message is stored once and only if it is newer ([message_stored_once]). *)
From S2P Require Export SignalingMail.

Section invariants.
Context {J : JsonApi} {W : Type} {Host : SignalingHost J W} {Logs : SessionLogs J W}.
Notation State := (SignalingState J).
Notation Srv := (SignalingProcess J W).

Lemma mail_fields (s s' : State) : mail s' = mail s ->
  srv_sessions s' = srv_sessions s /\ srv_messages s' = srv_messages s /\
  srv_latest_control_messages s' = srv_latest_control_messages s /\
  srv_last_accepted_messages s' = srv_last_accepted_messages s /\
  srv_next_delivery_cursors s' = srv_next_delivery_cursors s /\
  srv_session_counter s' = srv_session_counter s.
Proof. unfold mail. by intros [= ? ? ? ? ? ?]. Qed.

(** Runs with a predicate that may grow with every step. *)
Lemma mail_steps (I : Z -> State -> Prop) limit ops : forall n (p : Srv),
  (forall n, 0 <= n -> n + 1 < limit -> mail_frame (I n) (I (n + 1))) ->
  0 <= n -> n + Z.of_nat (length ops) < limit -> members (I n) p ->
  members (I (n + Z.of_nat (length ops))) (server_run ops p).
Proof.
  intros n p F. revert n p. induction ops as [| op ops IH]; intros n p Hn Hl Hp; simpl length in *.
  - by rewrite Z.add_0_r.
  - simpl server_run. rewrite Nat2Z.inj_succ in *.
    replace (n + Z.succ (Z.of_nat (length ops))) with (n + 1 + Z.of_nat (length ops)) in * by lia.
    apply IH; [lia | lia |]. apply (server_step_mail (I n) (I (n + 1))); [apply F; lia | done].
Qed.

Lemma mail_run (I : Z -> State -> Prop) limit config (host : W) ops :
  (forall n, 0 <= n -> n + 1 < limit -> mail_frame (I n) (I (n + 1))) ->
  (forall n, mail_closed (I n)) -> I 0 (empty_state config) ->
  Z.of_nat (length ops) < limit ->
  members (I (Z.of_nat (length ops))) (server_run ops (new_SignalingService config host).2).
Proof.
  intros F MC H0 Hl. apply (mail_steps I limit ops 0); [done | done | lia |].
  pose proof (MC 0). assert (Hk : keeps (members (W := W) (I 0)) construct)
    by (unfold construct; mail_auto). by apply Hk.
Qed.

(** ** Who sent a waiting command *)

(** A session is known under its own name, a count so far. *)
Definition registered (n : Z) (s : State) : Prop :=
  0 <= srv_session_counter s <= n /\
  forall id x, srv_sessions s !! id = Some x ->
  sess_session_id x = id /\ exists k, 1 <= k <= srv_session_counter s /\ id = session_id_of k.

(** The command of a session: from its driver to its vehicle, with its token. *)
Definition command_of (x : Session) (message : Message J) : Prop :=
  msg_sender message = sess_driver_id x /\ msg_recipient message = sess_vehicle_id x /\
  exists command, ControlCommand_from_json (msg_payload message) = Ok command /\
    cmd_control_token command = sess_control_token x /\
    cmd_vehicle_id command = sess_vehicle_id x /\ cmd_driver_id command = sess_driver_id x /\
    cmd_session_id command = sess_session_id x.

Definition authorised (s : State) : Prop :=
  forall key message, srv_latest_control_messages s !! key = Some message ->
  exists x, srv_sessions s !! md_session_id (msg_metadata message) = Some x /\
    key = message_key (sess_session_id x) (sess_vehicle_id x) /\ command_of x message.

Definition waiting_ok (n : Z) (s : State) : Prop := registered n s /\ authorised s.

Lemma same_party_command x y message : same_party x y -> command_of x message -> command_of y message.
Proof.
  intros (E1 & E2 & E3 & E4) (H1 & H2 & c & H3 & H4 & H5 & H6 & H7). unfold command_of.
  rewrite E1, E2, E3, E4. eauto 10.
Qed.

Lemma commands_closed n : mail_closed (waiting_ok n).
Proof.
  split.
  - intros s s' (E1 & _ & E3 & _ & _ & E6)%mail_fields. unfold waiting_ok, registered, authorised.
    by rewrite E1, E3, E6.
  - intros s id f Hf [[Hn Hr] Ha]. split.
    + split; [exact Hn |]. intros i y Hy. simpl in Hy.
      apply lookup_alter_session in Hy as (x & Hx & [-> | [-> ->]]); [by apply Hr |].
      destruct (Hf x Hx) as (E & _). simpl. rewrite E. by apply Hr.
    + intros key m Hm. simpl in Hm. destruct (Ha key m Hm) as (x & Hx & Hk & Hc). simpl.
      destruct (decide (md_session_id (msg_metadata m) = id)) as [E | E].
      * rewrite E in *. exists (f x). rewrite lookup_alter_eq, Hx. split; [done |].
        pose proof (Hf x Hx) as Hp. split; [| by eapply same_party_command].
        destruct Hp as (-> & -> & _). done.
      * exists x. by rewrite lookup_alter_ne.
  - intros s id x Hx [[Hn Hr] Ha]. split.
    + split; [exact Hn |]. intros i y Hy. simpl in Hy.
      apply lookup_alter_session in Hy as (x' & Hx' & [-> | [-> ->]]); by apply (Hr _ x').
    + intros key m Hm. simpl in Hm. apply lookup_delete_Some in Hm as [Hv [Hd Hm]%lookup_delete_Some].
      destruct (Ha key m Hm) as (y & Hy & Hk & Hc). exists y. split; [| done].
      simpl. rewrite lookup_alter_ne; [done |]. intros E. rewrite <- E, Hx in Hy. injection Hy as <-.
      by apply Hv.
  - intros s s' (E1 & E2 & _ & _ & E5 & _) [Hr Ha]. split.
    + unfold registered. by rewrite E1, E2.
    + intros key m Hm. rewrite E1. apply Ha. by eapply lookup_weaken.
Qed.

Lemma registered_fresh n (s : State) :
  registered n s -> srv_session_counter s + 1 < 2 ^ 64 ->
  srv_sessions s !! session_id_of (u64 (srv_session_counter s + 1)) = None.
Proof.
  intros [Hn Hr] Hb. rewrite u64_small by lia. apply eq_None_not_Some. intros [x Hx].
  destruct (Hr _ x Hx) as (_ & k & Hk & E). apply session_id_inj in E; lia.
Qed.

Lemma control_route x m :
  is_control (ad_type m) = true -> check_route x (ad_sender m) (ad_recipient m) (ad_type m) = Ok tt ->
  ad_sender m = sess_driver_id x /\ ad_recipient m = sess_vehicle_id x.
Proof.
  unfold check_route. intros Hc H. rewrite Hc in H.
  do 4 apply throw_if_seq in H as [_ H]. apply throw_if_seq in H as [H _]. simpl in H.
  apply negb_false_iff in H. by bool_prop.
Qed.

Lemma control_command x m :
  admitted_for x m -> is_control (ad_type m) = true ->
  exists command, ControlCommand_from_json (ad_payload m) = Ok command /\
    cmd_control_token command = sess_control_token x /\
    cmd_vehicle_id command = sess_vehicle_id x /\ cmd_driver_id command = sess_driver_id x /\
    cmd_session_id command = sess_session_id x.
Proof.
  intros [_ _ Hcmd (Es & Ev & Ed)] Hc. specialize (Hcmd Hc). unfold check_control_command in Hcmd.
  destruct (ControlCommand_from_json (ad_payload m)) as [command |]; [| done]. exists command.
  split; [done |]. simpl in Hcmd. destruct (required_uint64 _ _); [| done]. simpl in Hcmd.
  apply throw_if_seq in Hcmd as [_ Hcmd].
  destruct (if j_contains _ _ then _ else _ : result bool) as [fresh |]; [| done]. simpl in Hcmd.
  apply throw_if_seq in Hcmd as [_ Hcmd]. apply throw_if_seq in Hcmd as [Hm Hcmd].
  apply throw_if_ok in Hcmd. bool_prop. repeat split; congruence.
Qed.

Lemma commands_frame n : 0 <= n -> n + 1 < 2 ^ 64 -> mail_frame (waiting_ok n) (waiting_ok (n + 1)).
Proof.
  intros Hn0 Hb. split; try apply commands_closed.
  - intros s [[Hn Hr] Ha]. split; [split; [lia | done] | done].
  - intros s [[Hn Hr] Ha]. split; [| done]. simpl. split; simpl; rewrite u64_small by lia; [lia |].
    intros id x Hx. destruct (Hr id x Hx) as (? & k & Hk & ->). split; [done |]. exists k. split; [lia | done].
  - intros s v d started token expires counter id [[Hn Hr] Ha].
    assert (Hfresh : srv_sessions s !! id = None) by (apply (registered_fresh n); [done | lia]).
    assert (Hc : counter = srv_session_counter s + 1) by (apply u64_small; lia). split.
    + simpl. split; simpl; rewrite Hc; [lia |]. intros i x.
      rewrite lookup_insert_Some. intros [[<- <-] | [_ Hx]].
      * split; [done |]. exists (srv_session_counter s + 1). split; [lia |]. unfold id. by rewrite Hc.
      * destruct (Hr i x Hx) as (? & k & Hk & ->). split; [done |]. exists k. split; [lia | done].
    + intros key m Hm. simpl in Hm. destruct (Ha key m Hm) as (x & Hx & Hk & Hcm). exists x. simpl.
      split; [| done]. rewrite lookup_insert_ne; [done |]. intros E. rewrite <- E in Hx. congruence.
  - intros s id x m fp utc monotonic ack [[Hn Hr] Ha] Hx Had _. unfold stored, store_message. simpl.
    destruct (is_control (ad_type m)) eqn:Et; simpl; (split; [split; [simpl; lia | done] |]); [| done].
    intros key message. simpl. rewrite lookup_insert_Some. intros [[<- <-] | [_ Hm]]; [| by apply Ha].
    destruct (Hr id x Hx) as [Eid _]. exists x. simpl.
    destruct (control_route x m Et (af_route _ _ Had)) as [Esnd Ercp].
    destruct (af_session _ _ Had) as (Esess & _). rewrite Esess, Eid. split; [done |].
    split; [by rewrite Ercp |]. split; [done |]. split; [done |]. simpl. by apply control_command.
Qed.
End invariants.

Section order.
Context {J : JsonApi} {W : Type} {Host : SignalingHost J W} {Logs : SessionLogs J W}.
Notation State := (SignalingState J).
Notation Srv := (SignalingProcess J W).

(** ** Cursors *)

(** One mailbox: the last cursor given out, the queue, the slot of the latest command. *)
Definition mailbox (s : State) (key : string) : Z * option (list (Message J)) * option (Message J) :=
  (default 0 (srv_next_delivery_cursors s !! key), srv_messages s !! key,
   srv_latest_control_messages s !! key).

Definition given_out (last : Z) (message : Message J) : Prop := 1 <= msg_delivery_cursor message <= last.

(** The queue waits in the order of its cursors, all of which were given out. *)
Definition mailbox_ok (n : Z) (box : Z * option (list (Message J)) * option (Message J)) : Prop :=
  let '(last, queue, slot) := box in
  0 <= last <= n /\
  (forall q, queue = Some q ->
     StronglySorted Z.lt (msg_delivery_cursor <$> q) /\ Forall (given_out last) q) /\
  (forall message, slot = Some message -> given_out last message).

Definition ordered (n : Z) (s : State) : Prop := forall key, mailbox_ok n (mailbox s key).

Lemma mailbox_weaken n n' box : n <= n' -> mailbox_ok n box -> mailbox_ok n' box.
Proof. destruct box as [[last queue] slot]. intros Hn (H & Hq & Hs). split; [lia | done]. Qed.

Lemma forall_sublist {A} (P : A -> Prop) xs ys : xs `sublist_of` ys -> Forall P ys -> Forall P xs.
Proof. induction 1; intros HP; [done | |]; apply Forall_cons in HP as [? ?]; [constructor |]; auto. Qed.

Lemma sublist_map {A B} (f : A -> B) xs ys : xs `sublist_of` ys -> (f <$> xs) `sublist_of` (f <$> ys).
Proof. induction 1; csimpl; by constructor. Qed.

Lemma sorted_sublist (xs ys : list Z) : xs `sublist_of` ys -> StronglySorted Z.lt ys -> StronglySorted Z.lt xs.
Proof.
  induction 1 as [| x xs ys H IH | x xs ys H IH]; intros Hs; [done | |];
    apply StronglySorted_inv in Hs as [Hs Hx]; [| auto].
  constructor; [auto |]. by eapply forall_sublist.
Qed.

Lemma ordered_closed n : mail_closed (ordered n).
Proof.
  split.
  - intros s s' (_ & E2 & E3 & _ & E5 & _)%mail_fields H key. unfold mailbox. rewrite E2, E3, E5. apply H.
  - done.
  - intros s id x _ H key. specialize (H key). unfold mailbox, silence, forget_messages. simpl.
    set (kv := message_key _ _). set (kd := message_key _ _).
    destruct (decide (key = kv)) as [-> | Hv]; [rewrite !lookup_delete_eq |
      rewrite !(lookup_delete_ne _ kv) by done; destruct (decide (key = kd)) as [-> | Hd];
        [rewrite !lookup_delete_eq | by rewrite !(lookup_delete_ne _ kd) by done]];
      destruct H as [H _]; (split; [simpl; lia | done]).
  - intros s s' (_ & _ & _ & E4 & E5 & E6) H key. specialize (H key). unfold mailbox in *. rewrite E4.
    destruct H as (H & Hq & Hs). split; [done |]. split.
    + intros q' Hq'. destruct (E6 _ _ Hq') as (q & Hq0 & Hsub). destruct (Hq q Hq0) as [H1 H2]. split.
      * eapply sorted_sublist; [| exact H1]. by apply sublist_map.
      * by eapply forall_sublist.
    + intros m Hm. apply Hs. by eapply lookup_weaken.
Qed.

Lemma sorted_snoc (xs : list Z) y :
  StronglySorted Z.lt xs -> Forall (fun x => x < y) xs -> StronglySorted Z.lt (xs ++ [y]).
Proof.
  induction 1 as [| x xs H IH Hx]; intros Hy; simpl; [by repeat constructor |].
  apply Forall_cons in Hy as [Hxy Hy]. constructor; [auto |]. apply Forall_app. split; [done |].
  by constructor.
Qed.

Lemma ordered_frame n : 0 <= n -> n + 1 < 2 ^ 64 -> mail_frame (ordered n) (ordered (n + 1)).
Proof.
  intros Hn Hb.
  assert (Hweak : forall s, ordered n s -> ordered (n + 1) s).
  { intros s H key. eapply mailbox_weaken, H. lia. }
  split; [apply ordered_closed | apply ordered_closed | exact Hweak | exact Hweak |
          by intros; apply Hweak |].
  intros s id x m fp utc monotonic ack H Hx Had _ key. unfold stored, store_message, mailbox. simpl.
  set (k := message_key id (ad_recipient m)). pose proof (H k) as Hk. unfold mailbox in Hk.
  set (c := default 0 (srv_next_delivery_cursors s !! k)) in *. destruct Hk as (Hc & Hq & Hs).
  rewrite (u64_small (c + 1)) by lia.
  assert (Hother : forall box, mailbox_ok n box -> mailbox_ok (n + 1) box)
    by (intros box; apply mailbox_weaken; lia).
  destruct (is_control (ad_type m)); simpl; (destruct (decide (key = k)) as [-> | Hne];
    [rewrite !lookup_insert_eq; simpl | rewrite !lookup_insert_ne by done; exact (Hother (mailbox s key) (H key))]).
  - split; [lia |]. split.
    + intros q Eq. destruct (Hq q Eq) as [H1 H2]. split; [done |].
      eapply Forall_impl; [exact H2 |]. unfold given_out. simpl. intros. lia.
    + intros m' [= <-]. unfold given_out. simpl. lia.
  - split; [lia |]. split.
    + intros q [= <-]. rewrite fmap_app.
      assert (Hold : StronglySorted Z.lt (msg_delivery_cursor <$> default [] (srv_messages s !! k)) /\
                     Forall (given_out c) (default [] (srv_messages s !! k))).
      { destruct (srv_messages s !! k) as [q |] eqn:Eq; [by apply Hq | by repeat constructor]. }
      destruct Hold as [H1 H2]. split.
      * apply sorted_snoc; [done |]. apply Forall_fmap. eapply Forall_impl; [exact H2 |].
        unfold given_out. simpl. intros. lia.
      * apply Forall_app. split; [eapply Forall_impl; [exact H2 |] | repeat constructor];
          unfold given_out; simpl; intros; lia.
    + intros m' Hm'. specialize (Hs m' Hm'). unfold given_out in *. lia.
Qed.
End order.

Section submission.
Context {J : JsonApi} {W : Type} {Host : SignalingHost J W}.
Notation State := (SignalingState J).

Lemma stored_mail id m fp utc monotonic ack (s s' : State) : mail s = mail s' ->
  mail (stored id m fp utc monotonic ack s) = mail (stored id m fp utc monotonic ack s').
Proof.
  intros (E1 & E2 & E3 & E4 & E5 & E6)%mail_fields. unfold stored, store_message, mail.
  simpl. destruct (is_control (ad_type m)); simpl; congruence.
Qed.

Lemma newer_mail id m (s s' : State) : mail s = mail s' -> newer id m s -> newer id m s'.
Proof. intros (_ & _ & _ & E & _ & _)%mail_fields. unfold newer. by rewrite E. Qed.
End submission.

Lemma mailboxes_run {J : JsonApi} {W : Type} {Host : SignalingHost J W} {Logs : SessionLogs J W}
    config (host : W) ops :
  Z.of_nat (length ops) < 2 ^ 64 ->
  let s := srv_state (server_run ops (new_SignalingService config host).2) in
  waiting_ok (Z.of_nat (length ops)) s /\ ordered (Z.of_nat (length ops)) s.
Proof.
  intros Hl. split.
  - apply (mail_run waiting_ok (2 ^ 64)); [apply commands_frame | apply commands_closed | | done].
    split; [split; [done |] |]; intros ? ?; simpl; by rewrite lookup_empty.
  - apply (mail_run ordered (2 ^ 64)); [apply ordered_frame | apply ordered_closed | | done].
    intros key. unfold mailbox. simpl. rewrite !lookup_empty. split; [done | by split].
Qed.

(** C13. A waiting control command is authorised.  In every state a run reaches, the command
    in a mailbox belongs to a session in the table, whose vehicle owns the mailbox; its
    sender is the session's driver, and the command itself names the session, its driver and
    its vehicle and carries the control token the session has now.  So when a session is
    closed or revoked, no command given under its token waits any longer.  (The counters
    must not wrap: fewer than 2^64 steps.) *)
Theorem commands_authorised {J : JsonApi} {W : Type} {Host : SignalingHost J W}
    {Logs : SessionLogs J W} config (host : W) ops key message :
  let s := srv_state (server_run ops (new_SignalingService config host).2) in
  Z.of_nat (length ops) < 2 ^ 64 ->
  srv_latest_control_messages s !! key = Some message ->
  exists x, srv_sessions s !! md_session_id (msg_metadata message) = Some x /\
    key = message_key (sess_session_id x) (sess_vehicle_id x) /\ command_of x message.
Proof.
  intros s Hl Hm. destruct (mailboxes_run config host ops Hl) as [[_ H] _]. by apply H.
Qed.

Lemma commands_authorised_witness :
  exists x message,
    let s := srv_state (server_run (demo_until_granted ++ [demo_drive 1]) demo_server) in
    srv_latest_control_messages s !! demo_mailbox = Some message /\
    srv_sessions s !! demo_session_id = Some x /\ command_of x message.
Proof.
  cbv zeta.
  assert (H : option_map (fun message => md_session_id (msg_metadata message))
                (srv_latest_control_messages (srv_state
                   (server_run (demo_until_granted ++ [demo_drive 1]) demo_server)) !! demo_mailbox)
              = Some demo_session_id) by (vm_compute; reflexivity).
  destruct (srv_latest_control_messages _ !! demo_mailbox) as [message |] eqn:E; [| discriminate H].
  injection H as Hid.
  destruct (commands_authorised demo_server_config demo_machine
              (demo_until_granted ++ [demo_drive 1]) demo_mailbox message) as (x & Hx & _ & Hc);
    [vm_compute; reflexivity | exact E |].
  rewrite Hid in Hx. exists x, message. split; [reflexivity |]. split; [exact Hx | exact Hc].
Defined.

(** Messages wait in order.  In every state a run reaches, the messages queued in a
    mailbox have strictly increasing delivery cursors, and these and the cursor of the
    control slot were given out before: a client that acknowledges a cursor acknowledges
    exactly the messages that were accepted no later. *)
Theorem cursors_ordered {J : JsonApi} {W : Type} {Host : SignalingHost J W}
    {Logs : SessionLogs J W} config (host : W) ops key :
  let s := srv_state (server_run ops (new_SignalingService config host).2) in
  Z.of_nat (length ops) < 2 ^ 64 ->
  mailbox_ok (Z.of_nat (length ops)) (mailbox s key).
Proof.
  intros s Hl. apply (mailboxes_run config host ops Hl).
Qed.

Lemma cursors_ordered_witness :
  let ops := demo_until_granted ++ [demo_status 1; demo_drive 1; demo_status 2] in
  let box := mailbox (srv_state (server_run ops demo_server)) demo_mailbox in
  mailbox_ok (Z.of_nat (length ops)) box /\
  option_map (map msg_delivery_cursor) box.1.2 = Some [1; 3].
Proof.
  split.
  - apply (cursors_ordered demo_server_config demo_machine
             (demo_until_granted ++ [demo_status 1; demo_drive 1; demo_status 2])).
    vm_compute. reflexivity.
  - vm_compute. reflexivity.
Defined.

(** A message is stored once.  Whatever a client sends, either the mailboxes stay as
    they are, or the message was admitted for the active session in the table - sent by one
    participant to the other on the route of its type, a command with the session's token -
    and its number is larger than that of the last accepted message of its sender and kind;
    then it is stored under its own number and with the next cursor, and the client is
    told so, unless the audit log, which hears of all messages but commands, fails. *)
Theorem message_stored_once {J : JsonApi} {W : Type} {Host : SignalingHost J W} id value actor
    (p : SignalingProcess J W) :
  let before := srv_state p in
  let (answer, after) := enqueue_signaling_message id value actor p in
  mail (srv_state after) = mail before \/
  exists x m fingerprint utc monotonic acknowledgement,
    srv_sessions before !! id = Some x /\ admitted_for x m /\ newer id m before /\
    mail (srv_state after) = mail (stored id m fingerprint utc monotonic acknowledgement before) /\
    (answer = Ok acknowledgement \/ is_control (ad_type m) = false /\ exists e, answer = Throw e).
Proof.
  cbv zeta. unfold enqueue_signaling_message. unfold mbind at 1, M_bind at 1.
  pose proof (silent_now_ms p) as E1. destruct (now_ms p) as [[utc | e] p1]; simpl in E1;
    [rewrite <- E1 | left; by rewrite E1].
  unfold mbind at 1, M_bind at 1.
  pose proof (silent_monotonic p1) as E2. destruct (monotonic_now_ms p1) as [[mono | e] p2]; simpl in E2;
    [rewrite <- E2 | left; by rewrite E2].
  unfold mbind at 1, M_bind at 1. pose proof (admit_ok id value actor p2) as Ha.
  destruct (admit_message id value actor p2) as [[m | e] p3]; [| by left].
  destruct Ha as [Hm (x & Hx & Ha)]. unfold mbind at 1, M_bind at 1, lift at 1.
  destruct (fingerprint_of m) as [fp |]; [| by left].
  unfold mbind at 1, M_bind at 1. pose proof (replayed_ok id m fp p3) as Hr.
  destruct (replayed_message id m fp p3) as [[[known |] | e] p4];
    [left; simpl; by rewrite Hr | | left; by rewrite Hr]. destruct Hr as [-> Hnew].
  destruct (accept_ok id m fp utc mono p3) as (u & mo & ack & Eok & Est).
  unfold mbind at 1, M_bind at 1.
  destruct (accept_message id m fp utc mono p3) as [r p4]. simpl in Eok, Est. subst r.
  assert (Hst : forall p5 : SignalingProcess J W, srv_state p5 = srv_state p4 ->
            mail (srv_state p5) = mail (stored id m fp u mo ack (srv_state p2))).
  { intros p5 ->. rewrite Est. by apply stored_mail. }
  assert (Hn : newer id m (srv_state p2)) by (by eapply newer_mail).
  destruct (is_control (ad_type m)) eqn:Et; simpl when.
  - right. exists x, m, fp, u, mo, ack. split_and!; auto.
  - unfold mbind, M_bind.
    match goal with |- context [audit ?e ?d p4] => pose proof (silent_audit e d p4) as Hs;
      destruct (audit e d p4) as [[[] | e'] p5]; simpl in Hs end;
      right; exists x, m, fp, u, mo, ack; split_and!; eauto.
Qed.
