(* ===== verification/SignalingDelivery.v ===== *)
(** SignalingDelivery: polls and acknowledgements over runs.

    What an acknowledgement removes was returned by the poll it answers, whatever happened
    in between ([acknowledged_was_delivered]). *)
From S2P Require Export SignalingCommands.

Section delivery.
Context {J : JsonApi} {W : Type} {Host : SignalingHost J W} {Logs : SessionLogs J W}.
Notation State := (SignalingState J).
Notation Srv := (SignalingProcess J W).

(** The messages under a key, in the queue or in the control slot. *)
Definition waiting (s : State) (key : string) (message : Message J) : Prop :=
  srv_latest_control_messages s !! key = Some message \/
  exists queue, srv_messages s !! key = Some queue /\ message ∈ queue.

Definition last_cursor (s : State) (key : string) : Z := default 0 (srv_next_delivery_cursors s !! key).

Lemma waiting_given_out n (s : State) key message :
  ordered n s -> waiting s key message -> given_out (last_cursor s key) message.
Proof.
  intros H. destruct (H key) as (_ & Hq & Hs). intros [E | (q & E & Hm)]; [by apply Hs |].
  destruct (Hq q E) as [_ Hf]. by apply (proj1 (Forall_forall _ _) Hf).
Qed.

(** A mailbox belongs to the session named in its key. *)
Lemma decimal_digits_stop acc k s c rest :
  ~ (48 <= Z.of_nat (nat_of_ascii c) <= 57) ->
  (decimal_digits acc k (s ++ c :: rest)).1 = (decimal_digits acc k s).1.
Proof.
  intros Hc. revert acc k. induction s as [| d s IH]; intros acc k; cbn [app decimal_digits]; cbv zeta.
  - destruct (_ && _) eqn:E; [bool_prop; lia | done].
  - destruct (_ && _); [apply IH | done].
Qed.

Lemma key_number n r : 0 <= n ->
  (decimal_digits 0 0 (drop 8 (chars (message_key (session_id_of n) r)))).1 = n.
Proof.
  intros Hn. rewrite <- (session_number n Hn) at 2. unfold message_key. rewrite chars_app.
  rewrite drop_app_le; [apply decimal_digits_stop; by vm_compute; intros [] |].
  unfold session_id_of. rewrite chars_app, length_app. simpl. lia.
Qed.

Lemma message_key_inj m n r r' : 0 <= m -> 0 <= n ->
  message_key (session_id_of m) r = message_key (session_id_of n) r' -> m = n.
Proof. intros Hm Hn E. rewrite <- (key_number m r), <- (key_number n r') by done. by rewrite E. Qed.

(** *** Since a moment *)

Section since.
Context (old : State) (id recipient : string).
Notation key := (message_key id recipient).

(** What waits now waited then, or was numbered later. *)
Definition later_only (s : State) : Prop :=
  last_cursor old key <= last_cursor s key /\
  forall message, waiting s key message ->
    waiting old key message \/ last_cursor old key < msg_delivery_cursor message.

(** While the session has its token. *)
Definition since (n : Z) (s : State) : Prop :=
  waiting_ok n s /\ ordered n s /\
  exists x, srv_sessions s !! id = Some x /\ (sess_control_token x <> ""%string -> later_only s).

Lemma later_fewer (s s' : State) : last_cursor s' key = last_cursor s key ->
  (forall message, waiting s' key message -> waiting s key message) -> later_only s -> later_only s'.
Proof. intros E Hw [Hl H]. split; [by rewrite E | auto]. Qed.

Lemma other_session n (s : State) id' x y r :
  registered n s -> srv_sessions s !! id = Some y -> srv_sessions s !! id' = Some x -> id' <> id ->
  message_key (sess_session_id x) r <> key.
Proof.
  intros [_ H] Hy Hx Hne E. destruct (H _ _ Hx) as (Ex & k & Hk & Ek). destruct (H _ _ Hy) as (_ & l & Hl & El).
  apply Hne. rewrite Ex, Ek, El in E. apply message_key_inj in E; [congruence | lia | lia].
Qed.

Lemma since_closed n : mail_closed (since n).
Proof.
  pose proof (ordered_closed (J := J) n) as O. pose proof (commands_closed (J := J) n) as C. split.
  - intros s s' E (H1 & H2 & x & Hx & H). split; [by apply (mc_other _ C s) |].
    split; [by apply (mc_other _ O s) |]. apply mail_fields in E as (E1 & E2 & E3 & _ & E5 & _).
    exists x. split; [by rewrite E1 |]. intros Ht.
    apply (later_fewer s); [| | by apply H]; unfold last_cursor, waiting; [by rewrite E5 | by rewrite E2, E3].
  - intros s i f Hf (H1 & H2 & x & Hx & H). split; [by apply (mc_update _ C) |]. split; [exact H2 |].
    destruct (decide (i = id)) as [-> | Hne].
    + exists (f x). split; [simpl; by rewrite lookup_alter_eq, Hx |].
      destruct (Hf x Hx) as (_ & _ & _ & ->). exact H.
    + exists x. split; [simpl; by rewrite lookup_alter_ne | exact H].
  - intros s i x Hi (H1 & H2 & y & Hy & H). split; [by apply (mc_close _ C) |].
    split; [by apply (mc_close _ O) |]. destruct (decide (i = id)) as [-> | Hne].
    { eexists. split; [simpl; by rewrite lookup_alter_eq, Hi |]. done. }
    exists y. split; [simpl; by rewrite lookup_alter_ne |]. intros Ht.
    pose proof (fun r => other_session n s i x y r (proj1 H1) Hy Hi Hne) as Hk.
    apply (later_fewer s); [| | by apply H]; unfold last_cursor, waiting; simpl.
    + by rewrite !lookup_delete_ne by apply Hk.
    + by rewrite !lookup_delete_ne by apply Hk.
  - intros s s' Hless (H1 & H2 & x & Hx & H). split; [by apply (mc_less _ C s) |].
    split; [by apply (mc_less _ O s) |]. destruct Hless as (E1 & E2 & E3 & E4 & E5 & E6).
    exists x. split; [by rewrite E1 |]. intros Ht.
    apply (later_fewer s); [unfold last_cursor; by rewrite E4 | | by apply H].
    intros m [E | (q' & E & Hm)]; [left; by eapply lookup_weaken | right].
    destruct (E6 _ _ E) as (q & Hq & Hsub). exists q. split; [done |]. by eapply elem_of_sublist.
Qed.

Lemma later_accept n (s : State) m fp utc mono ack i : ordered n s -> n + 1 < 2 ^ 64 ->
  later_only s -> later_only (stored i m fp utc mono ack s).
Proof.
  intros Ho Hn [Hl H]. pose proof (Ho (message_key i (ad_recipient m))) as (Hc & _ & _).
  unfold stored, store_message, later_only, last_cursor, waiting in *. simpl.
  rewrite (u64_small (_ + 1)) by lia.
  destruct (is_control (ad_type m)); simpl;
    (destruct (decide (message_key i (ad_recipient m) = key)) as [E | E];
     [rewrite E, !lookup_insert_eq in *; simpl | rewrite !lookup_insert_ne by done; done]).
  - split; [lia |]. intros m' [[= <-] | Hq]; [right; simpl; lia | auto].
  - split; [lia |]. intros m' [Hs | (q & [= <-] & Hm)]; [auto |].
    apply elem_of_app in Hm as [Hm | Hm]; [| apply list_elem_of_singleton in Hm as ->; right; simpl; lia].
    destruct (srv_messages s !! key) as [q |] eqn:Eq; [| by apply elem_of_nil in Hm].
    apply H. right. eauto.
Qed.

Lemma since_frame n : 0 <= n -> n + 1 < 2 ^ 64 -> mail_frame (since n) (since (n + 1)).
Proof.
  intros Hn Hb. destruct (commands_frame (J := J) n Hn Hb) as [_ _ C3 C4 C5 C6].
  destruct (ordered_frame (J := J) n Hn Hb) as [_ _ O3 O4 O5 O6].
  split; try apply since_closed.
  - intros s (H1 & H2 & H). split; [by apply C3 | split; [by apply O3 | exact H]].
  - intros s (H1 & H2 & H). split; [by apply C4 | split; [by apply O4 | exact H]].
  - intros s v d st tok ex c i (H1 & H2 & x & Hx & H). split; [by apply C5 |]. split; [by apply O5 |].
    exists x. split; [| exact H]. simpl. rewrite lookup_insert_ne; [done |]. intros <-.
    pose proof (registered_fresh n s (proj1 H1)) as Hf. unfold i, c in Hx. rewrite Hf in Hx; [done |].
    pose proof (proj1 (proj1 H1)). lia.
  - intros s i x m fp utc mono ack (H1 & H2 & y & Hy & H) Hx Had Hnew.
    split; [by eapply C6 |]. split; [by eapply O6 |]. exists y.
    split; [unfold stored, store_message; simpl; by destruct (is_control _) |].
    intros Ht. eapply later_accept; eauto.
Qed.
End since.

(** *** Poll and acknowledgement *)
Lemma json_cursor_message {L : JsonLaws} (m : Message J) : 0 <= msg_delivery_cursor m < 2 ^ 64 ->
  json_cursor (Message_to_json m) = msg_delivery_cursor m.
Proof.
  intros Hc. unfold json_cursor, Message_to_json. unfold j_set_all at 1. cbn [foldl fst snd].
  assert (Ho : forall k v j, is_object j = true -> is_object (j_set k v j) = true) by apply is_object_set.
  rewrite (value_uint64_at _ _ _ (j_uint (msg_delivery_cursor m)));
    [| unfold ProtocolMetadata_to_json; repeat first [apply Ho | apply is_object_object] |].
  - rewrite get_uint64_uint; [done |]. unfold is_u64. apply andb_true_iff. split; [apply Z.leb_le | apply Z.ltb_lt]; lia.
  - rewrite j_at_set; [done |]. unfold ProtocolMetadata_to_json. repeat first [apply Ho | apply is_object_object].
Qed.

Lemma all_types t : requested_type "" t = true.
Proof. done. Qed.

(** A poll that leaves everything returns what then waits. *)
Lemma take_ok id recipient (p : Srv) values p' :
  take_signaling_messages id recipient "" false p = (Ok values, p') ->
  mail_less (srv_state p) (srv_state p') /\
  forall v, v ∈ values <-> exists m, waiting (srv_state p') (message_key id recipient) m /\ v = Message_to_json m.
Proof.
  unfold take_signaling_messages, self, gets, srv_update, modify, mbind, M_bind, mret, M_ret. cbv zeta.
  pose proof (silent_monotonic p) as Hs. destruct (monotonic_now_ms p) as [[now | e] p1]; [| done].
  simpl in *. pose proof (mail_less_expire now (message_key id recipient) (srv_state p1)) as Hless.
  set (s := expire_messages _ _ _) in *. intros [= <- <-]. split; [by rewrite <- Hs | intros v]. unfold waiting. simpl. fold s. clearbody s.
  rewrite merge_sort_Permutation, list_elem_of_In, in_map_iff.
  unfold requested_messages. set (key := message_key id recipient).
  assert (Hf : forall q, List.filter (fun m : Message J => requested_type "" (msg_type m)) q = q)
    by (induction q as [| m q IH]; simpl; congruence).
  rewrite Hf, all_types. split.
  - intros (m & <- & Hm). exists m. split; [| done]. apply in_app_iff in Hm as [Hm | Hm].
    + left. destruct (srv_latest_control_messages s !! key); [by destruct Hm as [<- | []] | by destruct Hm].
    + right. destruct (srv_messages s !! key) as [q |]; [| by destruct Hm]. exists q. by rewrite list_elem_of_In.
  - intros (m & Hm & ->). exists m. split; [done |]. apply in_app_iff.
    destruct Hm as [-> | (q & -> & Hq)]; [left; by left | right; by apply list_elem_of_In].
Qed.

(** An acknowledgement leaves what is newer. *)
Lemma acknowledge_leaves id recipient cursor control_only (p : Srv) m :
  waiting (srv_state p) (message_key id recipient) m -> cursor < msg_delivery_cursor m ->
  waiting (srv_state (acknowledge_signaling_messages id recipient cursor control_only p).2)
          (message_key id recipient) m.
Proof.
  intros Hw Hc. unfold acknowledge_signaling_messages, self, gets, mbind, M_bind. cbv zeta.
  set (key := message_key id recipient) in *.
  set (kept := List.filter _ (default [] _)). set (first := when _ _).
  assert (H1 : exists p1, first p = (Ok tt, p1) /\ waiting (srv_state p1) key m /\
            srv_latest_control_messages (srv_state p1) = srv_latest_control_messages (srv_state p)).
  { unfold first. destruct (_ && _) eqn:E; [| by exists p].
    eexists. split; [reflexivity |]. split; [| done].
    destruct Hw as [Hs | (q & Hq & Hm)]; [by left | right]. simpl.
    assert (Hk : m ∈ kept).
    { unfold kept. rewrite Hq. simpl. apply list_elem_of_In, filter_In. split; [by apply list_elem_of_In |].
      by apply Z.ltb_lt. }
    exists kept. split; [| done]. destruct kept; [by apply elem_of_nil in Hk | by rewrite lookup_insert_eq]. }
  destruct H1 as (p1 & -> & H1 & El). simpl.
  destruct (srv_latest_control_messages (srv_state p) !! key) as [slot |] eqn:Es; [| exact H1].
  destruct (Z.ltb_spec cursor (msg_delivery_cursor slot)); [exact H1 |].
  destruct H1 as [Hs | Hq]; [| by right].
  rewrite El, Es in Hs. injection Hs as ->. lia.
Qed.
End delivery.

(** C24. An acknowledgement removes only what was delivered.  A participant polls its mailbox
    and gets some messages; then anything may happen - other messages, polls, cleanups -
    while the session keeps its control token; then the participant acknowledges one of the
    cursors it has seen.  Every message that is gone afterwards was among those the poll
    returned, and every message numbered above the cursor is still there. *)
Theorem acknowledged_was_delivered {J : JsonApi} {L : JsonLaws} {W : Type} {Host : SignalingHost J W}
    {Logs : SessionLogs J W} config (host : W) earlier later id recipient values polled seen
    control_only message x y :
  let p := server_run earlier (new_SignalingService config host).2 in
  let key := message_key id recipient in
  Z.of_nat (length earlier + length later) < 2 ^ 64 ->
  srv_sessions (srv_state p) !! id = Some x ->
  take_signaling_messages id recipient "" false p = (Ok values, polled) ->
  seen ∈ values ->
  let before := server_run later polled in
  srv_sessions (srv_state before) !! id = Some y -> sess_control_token y <> ""%string ->
  waiting (srv_state before) key message ->
  let after := (acknowledge_signaling_messages id recipient (json_cursor seen) control_only before).2 in
  (~ waiting (srv_state after) key message -> Message_to_json message ∈ values) /\
  (json_cursor seen < msg_delivery_cursor message -> waiting (srv_state after) key message).
Proof.
  intros p key Hl Hx Htake Hseen before Hy Ht Hw after.
  set (n := Z.of_nat (length earlier)). set (old := srv_state polled).
  destruct (take_ok id recipient p values polled Htake) as [Hless Hvalues].
  assert (Hn : 0 <= n < 2 ^ 64) by lia.
  destruct (mailboxes_run config host earlier) as [Hc0 Ho0]; [lia |]. fold p n in Hc0, Ho0.
  assert (Hc : waiting_ok n old) by by apply (mc_less _ (commands_closed n) (srv_state p)).
  assert (Ho : ordered n old) by by apply (mc_less _ (ordered_closed n) (srv_state p)).
  assert (H : members (since old id recipient (n + Z.of_nat (length later))) before).
  { apply (mail_steps _ (2 ^ 64)); [apply since_frame | lia | lia |].
    split; [exact Hc |]. split; [exact Ho |]. exists x. split; [by rewrite (proj1 Hless) |].
    intros _. split; [done | by left]. }
  destruct H as (_ & _ & y' & Hy' & H). rewrite Hy in Hy'. injection Hy' as <-. specialize (H Ht).
  apply Hvalues in Hseen as (m & Hm & ->).
  pose proof (waiting_given_out n old key m Ho Hm) as Hg.
  pose proof (Ho key) as ([_ Hlast] & _).
  assert (Hcur : json_cursor (Message_to_json m) = msg_delivery_cursor m)
    by (apply json_cursor_message; unfold given_out, last_cursor in *; lia).
  unfold after. rewrite Hcur. split; [| by apply acknowledge_leaves].
  intros Hgone. apply Hvalues. exists message. split; [| done].
  destruct (proj2 H _ Hw) as [? | Hlater]; [done | exfalso]. apply Hgone, acknowledge_leaves; [done |].
  unfold given_out in Hg. fold key in Hlater. lia.
Qed.

Lemma acknowledged_was_delivered_witness :
  exists values polled message,
    let p := server_run (demo_until_granted ++ [demo_status 1]) demo_server in
    let before := server_run [demo_status 2] polled in
    take_signaling_messages demo_session_id "vehicle-001" "" false p = (Ok values, polled) /\
    msg_delivery_cursor message = 2 /\ waiting (srv_state before) demo_mailbox message /\
    exists seen, seen ∈ values /\
    waiting (srv_state (acknowledge_signaling_messages demo_session_id "vehicle-001"
                          (json_cursor seen) false before).2) demo_mailbox message.
Proof.
  set (p := server_run (demo_until_granted ++ [demo_status 1]) demo_server).
  destruct (take_signaling_messages demo_session_id "vehicle-001" "" false p) as [r polled] eqn:Et.
  assert (Hr : (fun r => match r with Ok vs => map json_cursor vs | Throw _ => [] end) r = [1])
    by (change r with (r, polled).1; rewrite <- Et; vm_compute; reflexivity).
  destruct r as [[| seen [| ? ?]] | e]; try discriminate Hr. injection Hr as Hseen.
  set (before := server_run [demo_status 2] polled).
  assert (Hq : option_map (map msg_delivery_cursor) (srv_messages (srv_state before) !! demo_mailbox)
               = Some [1; 2]).
  { unfold before. change polled with (@Ok (list json) [seen], polled).2. rewrite <- Et.
    vm_compute. reflexivity. }
  destruct (srv_messages (srv_state before) !! demo_mailbox) as [q |] eqn:Eq; [| discriminate Hq].
  destruct q as [| m1 [| m2 [| m3 q]]]; try discriminate Hq. injection Hq as _ Hm2.
  exists [seen], polled, m2. split; [exact Et |]. split; [exact Hm2 |].
  assert (Hw : waiting (srv_state before) demo_mailbox m2) by
    (right; exists [m1; m2]; split; [exact Eq | right; left]).
  split; [exact Hw |]. exists seen. split; [left |].
  destruct (srv_sessions (srv_state p) !! demo_session_id) as [x |] eqn:Ex; [| by vm_compute in Ex].
  assert (Hy : option_map (fun y => string_empty (sess_control_token y))
                 (srv_sessions (srv_state before) !! demo_session_id) = Some false).
  { unfold before. change polled with (@Ok (list json) [seen], polled).2. rewrite <- Et.
    vm_compute. reflexivity. }
  destruct (srv_sessions (srv_state before) !! demo_session_id) as [y |] eqn:Ey; [| discriminate Hy].
  injection Hy as Hy.
  refine (proj2 (acknowledged_was_delivered demo_server_config demo_machine
            (demo_until_granted ++ [demo_status 1]) [demo_status 2] demo_session_id "vehicle-001"
            [seen] polled seen false m2 x y _ Ex Et _ Ey _ Hw) _).
  - vm_compute. reflexivity.
  - left.
  - intros E. rewrite E in Hy. discriminate Hy.
  - rewrite Hseen, Hm2. reflexivity.
Defined.
