(* ===== verification/Config.v ===== *)
(** Config: the vehicle configuration (core.hpp:380-517) and its loader
    (core.cpp:53-76 and 1684-2141).

    - [YamlApi]: the operations the loader calls on yaml-cpp nodes (third-party
      code), each allowed to throw; [YamlModel] is an instance;
    - POSIX [std::filesystem::path] operations on strings;
    - the configuration records, and one loader per section of the file, which
      [load_vehicle_config] composes in the order of the source;
    - look-ups and the redacted summary.

    Theorem: every configuration the loader returns satisfies the limits the
    rest of the program relies on. *)
From S2P Require Export Safety.

(** ** YAML interface *)

Class YamlApi : Type := {
  yaml : Type;
  y_load_file : string -> result yaml;
  y_node : yaml;                             (* a default-constructed node *)
  y_assign : yaml -> result yaml;            (* assignment to a node variable *)
  y_at : string -> yaml -> result yaml;      (* operator[] on a const node *)
  y_at_mut : string -> yaml -> result yaml;  (* operator[] on a mutable node *)
  y_defined : yaml -> bool;                  (* the conversion to bool *)
  y_is_scalar : yaml -> bool;
  y_is_sequence : yaml -> bool;
  y_is_map : yaml -> bool;
  y_scalar : yaml -> string;
  y_items : yaml -> list yaml;               (* iteration over a sequence *)
  y_entries : yaml -> list (yaml * yaml);    (* iteration over a map *)
  y_as_string : yaml -> result string;
  y_as_int : yaml -> result Z;
  y_as_bool : yaml -> result bool;
  y_as_double : yaml -> result double;
  y_as_strings : yaml -> result (list string);
}.

(** [catch (const YAML::Exception& e) { throw std::runtime_error(f(e.what())) }] *)
Definition rethrow_yaml {A} (f : string -> string) (r : result A) : result A :=
  match r with
  | Throw (YamlException m) => Throw (RuntimeError (f m))
  | _ => r
  end.

Section yaml_helpers.
Context {Y : YamlApi}.

Definition required {T} (as_ : yaml -> result T) (node : yaml) (key context : string) : result T :=
  value ← y_at key node;
  throw_if (negb (y_defined value)) (RuntimeError (context +:+ "." +:+ key +:+ " is required"));;
  rethrow_yaml (fun what => context +:+ "." +:+ key +:+ ": " +:+ what) (as_ value).

Definition optional {T} (as_ : yaml -> result T) (node : yaml) (key : string) (fallback : T) :
    result T :=
  value ← y_at key node;
  if negb (y_defined value) then mret fallback
  else rethrow_yaml (fun what => key +:+ ": " +:+ what) (as_ value).
End yaml_helpers.

(** ** Paths *)

Definition slash : ascii := "/"%char.

Fixpoint last_char (s : string) : option ascii :=
  match s with
  | EmptyString => None
  | String c EmptyString => Some c
  | String _ s => last_char s
  end.

(** [path.is_relative()] *)
Definition path_is_relative (p : string) : bool :=
  match p with String c _ => negb (Ascii.eqb c slash) | EmptyString => true end.

(** The file names of a path: its maximal runs without a slash. *)
Fixpoint path_split (current : string) (p : string) : list string :=
  match p with
  | EmptyString => if string_empty current then [] else [current]
  | String c p =>
      if Ascii.eqb c slash
      then (if string_empty current then path_split "" p else current :: path_split "" p)
      else path_split (current +:+ String c EmptyString) p
  end.

Fixpoint path_join (names : list string) : string :=
  match names with
  | [] => ""
  | [name] => name
  | name :: names => name +:+ "/" +:+ path_join names
  end.

(** The longest prefix of [s] before its last slash. *)
Fixpoint before_last_slash (s : string) : option string :=
  match s with
  | EmptyString => None
  | String c s' =>
      match before_last_slash s' with
      | Some prefix => Some (String c prefix)
      | None => if Ascii.eqb c slash then Some "" else None
      end
  end.

(** Drops trailing slashes, given the characters in reverse. *)
Fixpoint drop_slashes (s : list ascii) : list ascii :=
  match s with c :: s' => if Ascii.eqb c slash then drop_slashes s' else s | [] => [] end.

(** [path.parent_path()] *)
Definition path_parent (p : string) : string :=
  match before_last_slash p with
  | None => ""
  | Some prefix =>
      let stripped := string_of_list_ascii (rev (drop_slashes (rev (list_ascii_of_string prefix)))) in
      if string_empty stripped then "/" else stripped
  end.

(** [p / q] *)
Definition path_append (p q : string) : string :=
  if negb (path_is_relative q) then q
  else match last_char p with
       | None => q
       | Some c => if Ascii.eqb c slash then p +:+ q else p +:+ "/" +:+ q
       end.

(** Folds the file names of a path, newest first; [true] when the last one left
    a directory separator behind it. *)
Fixpoint normalize_names (absolute : bool) (kept : list string) (trailing : bool)
    (names : list string) : list string * bool :=
  match names with
  | [] => (kept, trailing)
  | name :: names =>
      if String.eqb name "." then normalize_names absolute kept true names
      else if String.eqb name ".." then
        match kept with
        | top :: kept' =>
            if String.eqb top ".." then normalize_names absolute (name :: kept) false names
            else normalize_names absolute kept' true names
        | [] => if absolute then normalize_names absolute [] true names
                else normalize_names absolute [name] false names
        end
      else normalize_names absolute (name :: kept) false names
  end.

(** [path.lexically_normal()] *)
Definition path_lexically_normal (p : string) : string :=
  if string_empty p then "" else
  let absolute := negb (path_is_relative p) in
  let '(kept, trailing) := normalize_names absolute [] false (path_split "" p) in
  let trailing := trailing || match last_char p with Some c => Ascii.eqb c slash | None => false end in
  let body := path_join (rev kept) in
  let body :=
    match kept with
    | top :: _ => if trailing && negb (String.eqb top "..") then body +:+ "/" else body
    | [] => body
    end in
  if absolute then "/" +:+ body else if string_empty body then "." else body.

(** [std::filesystem::absolute(p)] in the directory [cwd]. *)
Definition path_absolute (cwd p : string) : string := path_append cwd p.

Example path_parent_example :
  path_parent "config/vehicle.yaml" = "config" /\ path_parent "vehicle.yaml" = "" /\
  path_parent "/vehicle.yaml" = "/" /\ path_parent "a//b/" = "a//b".
Proof. split_and!; reflexivity. Qed.

Example path_normal_example :
  path_lexically_normal "a/./b/../c" = "a/c" /\ path_lexically_normal "a/.." = "." /\
  path_lexically_normal "/../a//b/.." = "/a/" /\ path_lexically_normal "../x/" = "../x/" /\
  path_lexically_normal "x/../.." = "..".
Proof. split_and!; reflexivity. Qed.

(** ** Configuration records *)

Record ControlConfig := mkControlConfig {
  cc_rate_hz : Z;
  cc_max_command_gap_ms : Z;
  cc_degraded_timeout_ms : Z;
  cc_control_timeout_ms : Z;
  cc_deceleration_profile : list DecelerationStage;
}.

Record CloudConfig := mkCloudConfig {
  cl_signaling_url : string;
  cl_auth_url : string;
  cl_device_token_file : string;
  cl_resolve_entries : list string;
  cl_ca_bundle : string;
  cl_ice_transport_policy : string;
}.

Record VehicleRuntimeConfig := mkVehicleRuntimeConfig {
  rt_control_enabled : bool;
  rt_media_enabled : bool;
  rt_control_log_commands : bool;
  rt_teleop_poll_interval_ms : Z;
  rt_media_frame_timeout_ms : Z;
  rt_media_capture_interval_ms : Z;
}.

Record MediaProfile := mkMediaProfile {
  mp_name : string;
  mp_codec : string;
  mp_encoder : string;
  mp_width : Z;
  mp_height : Z;
  mp_fps : Z;
  mp_bitrate_kbps : Z;
  mp_segment_seconds : Z;
}.

Record CameraConfig := mkCameraConfig {
  cam_id : string;
  cam_enabled : bool;
  cam_critical_for_control : bool;
  cam_reopen_attempts : Z;
  cam_reopen_backoff_ms : Z;
  cam_backend : string;
  cam_device : string;
  cam_capture_width : Z;
  cam_capture_height : Z;
  cam_capture_fps : Z;
  cam_realtime_profile : string;
  cam_record_profile : string;
}.

Record RecordingConfig := mkRecordingConfig {
  rec_enabled : bool;
  rec_root_dir : string;
  rec_min_free_gb : double;
  rec_delete_uploaded_when_below_free_gb : double;
  rec_delete_unuploaded_when_below_free_gb : bool;
}.

Record UploadConfig := mkUploadConfig {
  upl_enabled : bool;
  upl_backend : string;
  upl_max_bandwidth_mbps : double;
  upl_trigger_segments : Z;
  upl_trigger_network_idle : bool;
  upl_retry_initial_seconds : Z;
  upl_retry_max_seconds : Z;
}.

Record VehicleAdapterConfig := mkVehicleAdapterConfig {
  vac_type : string;
  vac_can_interface : string;
  vac_bridge_library_path : string;
}.

Record HardwareConfig := mkHardwareConfig {
  hw_can_interface : string;
  hw_can_bitrate : Z;
  hw_can_tx_queue_length : Z;
  hw_vaapi_render_device : string;
  hw_dri_card_device : string;
  hw_preferred_encoder : string;
  hw_fallback_encoder : string;
  hw_preferred_codec : string;
  hw_fallback_codec : string;
  hw_require_hardware_encoder : bool;
  hw_max_end_to_end_latency_ms : Z;
  hw_min_realtime_fps : Z;
  hw_network_interface : string;
}.

Record FieldSafetyConfig := mkFieldSafetyConfig {
  fs_commissioning_mode : string;
  fs_max_speed_kph : double;
  fs_max_throttle : double;
  fs_full_scale_motor_torque_nm : double;
  fs_motor_torque_rise_rate_nm_per_s : double;
  fs_speed_feedback_timeout_ms : Z;
  fs_speed_pid_kp : double;
  fs_speed_pid_ki : double;
  fs_speed_pid_kd : double;
  fs_speed_pid_derivative_filter_tau_ms : double;
  fs_speed_pid_max_dt_ms : Z;
  fs_hard_overspeed_margin_kph : double;
  fs_max_brake_pressure_bar : double;
  fs_max_steering_angle_deg : double;
  fs_require_can_feedback_before_control : bool;
  fs_require_local_estop_reset : bool;
  fs_require_time_sync : bool;
  fs_max_time_sync_uncertainty_ms : Z;
  fs_time_sync_interval_ms : Z;
  fs_time_sync_samples : Z;
}.

Record VehicleConfig := mkVehicleConfig {
  cfg_vehicle_id : string;
  cfg_vehicle_name : string;
  cfg_cloud : CloudConfig;
  cfg_runtime : VehicleRuntimeConfig;
  cfg_control : ControlConfig;
  cfg_realtime_profiles : list MediaProfile;
  cfg_record_profiles : list MediaProfile;
  cfg_cameras : list CameraConfig;
  cfg_recording : RecordingConfig;
  cfg_upload : UploadConfig;
  cfg_vehicle_adapter : VehicleAdapterConfig;
  cfg_hardware : HardwareConfig;
  cfg_field_safety : FieldSafetyConfig;
}.

(** ** Look-ups *)

Definition find_profile (name : string) (profiles : list MediaProfile) : option MediaProfile :=
  List.find (fun profile => String.eqb (mp_name profile) name) profiles.

Definition realtime_profile (profiles : list MediaProfile) (name : string) : result MediaProfile :=
  match find_profile name profiles with
  | None => Throw (OutOfRange ("unknown realtime profile: " +:+ name))
  | Some found => Ok found
  end.

Definition record_profile (profiles : list MediaProfile) (name : string) : result MediaProfile :=
  match find_profile name profiles with
  | None => Throw (RuntimeError ("unknown record media profile: " +:+ name))
  | Some found => Ok found
  end.

Definition enabled_cameras (cameras : list CameraConfig) : list CameraConfig :=
  List.filter cam_enabled cameras.

Definition ice_transport_policy_is_valid (value : string) : bool :=
  String.eqb value "all" || String.eqb value "relay".

(** The characters carriage return and line feed. *)
Definition crlf : string := String (ascii_of_nat 13) (String (ascii_of_nat 10) "").

(** ** The loader, section by section *)

Section load.
Context {Y : YamlApi}.

(** core.cpp:1768-1788 *)
Definition load_cloud (path : string) (cloud : yaml) : result CloudConfig :=
  signaling_url ← required y_as_string cloud "signaling_url" "cloud";
  auth_url ← optional y_as_string cloud "auth_url" "";
  device_token_file ← optional y_as_string cloud "device_token_file" "";
  resolve_entries ← optional y_as_strings cloud "resolve" [];
  ca_bundle ← optional y_as_string cloud "ca_bundle" "";
  ice_transport_policy ← optional y_as_string cloud "ice_transport_policy" "all";
  let resolved file :=
    if negb (string_empty file) && path_is_relative file
    then path_lexically_normal (path_append (path_parent path) file) else file in
  throw_if (existsb (fun entry => string_empty entry || has_any crlf entry) resolve_entries)
    (RuntimeError "cloud.resolve contains an invalid entry");;
  throw_if (negb (ice_transport_policy_is_valid ice_transport_policy))
    (RuntimeError "cloud.ice_transport_policy must be all or relay");;
  mret (mkCloudConfig signaling_url auth_url (resolved device_token_file) resolve_entries
          (resolved ca_bundle) ice_transport_policy).

(** core.cpp:1790-1803 *)
Definition load_runtime (runtime : yaml) : result VehicleRuntimeConfig :=
  control_enabled ← optional y_as_bool runtime "control_enabled" true;
  media_enabled ← optional y_as_bool runtime "media_enabled" true;
  control_log_commands ← optional y_as_bool runtime "control_log_commands" false;
  teleop_poll_interval_ms ← optional y_as_int runtime "teleop_poll_interval_ms" 50;
  media_frame_timeout_ms ← optional y_as_int runtime "media_frame_timeout_ms" 3000;
  media_capture_interval_ms ← optional y_as_int runtime "media_capture_interval_ms" 0;
  throw_if (negb control_enabled && negb media_enabled)
    (RuntimeError "runtime must enable control or media");;
  throw_if ((teleop_poll_interval_ms <=? 0) || (media_frame_timeout_ms <=? 0) ||
            (media_capture_interval_ms <? 0))
    (RuntimeError "runtime timing settings are invalid");;
  mret (mkVehicleRuntimeConfig control_enabled media_enabled control_log_commands
          teleop_poll_interval_ms media_frame_timeout_ms media_capture_interval_ms).

(** One stage of the braking profile. *)
Definition load_stage (item : yaml) : result DecelerationStage :=
  after_ms ← required y_as_int item "after_ms" "deceleration_profile";
  brake ← y_at "brake" item;
  throw_if (negb (y_defined brake)) (RuntimeError "deceleration_profile.brake is required");;
  value ← (if y_is_scalar brake && String.eqb (y_scalar brake) "vehicle_defined_max_safe"
           then mret d_one else y_as_double brake);
  mret (mkDecelerationStage after_ms value).

(** [for (item : items) out.push_back(load(item))] *)
Definition load_each {A} (load : yaml -> result A) (items : list yaml) : result (list A) :=
  fold_result (fun out item => value ← load item; mret (out ++ [value])) [] items.

(** core.cpp:1805-1838 *)
Definition load_control (control : yaml) : result ControlConfig :=
  rate_hz ← optional y_as_int control "rate_hz" 20;
  max_command_gap_ms ← optional y_as_int control "max_command_gap_ms" 200;
  degraded_timeout_ms ← optional y_as_int control "degraded_timeout_ms" 300;
  control_timeout_ms ← optional y_as_int control "control_timeout_ms" 800;
  throw_if (negb (rate_hz =? 20))
    (RuntimeError "control.rate_hz must be 20; the upstream command rate is fixed at 20 Hz");;
  throw_if ((max_command_gap_ms <=? 0) || (60000 <? max_command_gap_ms) ||
            (degraded_timeout_ms <=? 0) || (60000 <? degraded_timeout_ms) ||
            (control_timeout_ms <=? degraded_timeout_ms) || (60000 <? control_timeout_ms))
    (RuntimeError
       "control timing requires positive values no greater than 60000 ms and degraded_timeout_ms < control_timeout_ms");;
  timeout_action ← y_at "timeout_action" control;
  profile ← y_at "deceleration_profile" timeout_action;
  throw_if (negb (y_defined profile) || negb (y_is_sequence profile))
    (RuntimeError "control.timeout_action.deceleration_profile is required");;
  stages ← load_each load_stage (y_items profile);
  deceleration_profile ← normalize_and_validate_deceleration_profile stages;
  mret (mkControlConfig rate_hz max_command_gap_ms degraded_timeout_ms control_timeout_ms
          deceleration_profile).

Definition load_realtime_profile (entry : yaml * yaml) : result MediaProfile :=
  name ← y_as_string entry.1;
  let node := entry.2 in
  codec ← optional y_as_string node "codec" "h264";
  encoder ← optional y_as_string node "encoder" "x264";
  width ← required y_as_int node "width" name;
  height ← required y_as_int node "height" name;
  fps ← required y_as_int node "fps" name;
  bitrate_kbps ← required y_as_int node "bitrate_kbps" name;
  mret (mkMediaProfile name codec encoder width height fps bitrate_kbps 60).

(** [node && node.IsScalar() && node.Scalar() != "source" ? node.as<int>() : 0] *)
Definition size_or_source (node : yaml) : result Z :=
  if y_defined node && y_is_scalar node && negb (String.eqb (y_scalar node) "source")
  then y_as_int node else mret 0.

Definition load_record_profile (entry : yaml * yaml) : result MediaProfile :=
  name ← y_as_string entry.1;
  let node := entry.2 in
  codec ← optional y_as_string node "codec" "h264";
  encoder ← optional y_as_string node "encoder" "x264";
  width_node ← y_at "width" node;
  height_node ← y_at "height" node;
  fps_node ← y_at "fps" node;
  width ← size_or_source width_node;
  height ← size_or_source height_node;
  fps ← size_or_source fps_node;
  bitrate_kbps ← required y_as_int node "bitrate_kbps" name;
  segment_seconds ← optional y_as_int node "segment_seconds" 60;
  throw_if (segment_seconds <=? 0) (RuntimeError "record segment_seconds must be positive");;
  mret (mkMediaProfile name codec encoder width height fps bitrate_kbps segment_seconds).

(** core.cpp:1840-1874 *)
Definition load_media (root : yaml) : result (list MediaProfile * list MediaProfile) :=
  media ← y_at_mut "media" root;
  realtime ← y_at_mut "realtime_profiles" media;
  throw_if (negb (y_defined realtime) || negb (y_is_map realtime))
    (RuntimeError "media.realtime_profiles is required");;
  realtime_profiles ←
    fold_result (fun out entry => value ← load_realtime_profile entry; mret (out ++ [value]))
      [] (y_entries realtime);
  media ← y_at_mut "media" root;
  records ← y_at_mut "record_profiles" media;
  record_profiles ←
    (if y_defined records && y_is_map records
     then fold_result (fun out entry => value ← load_record_profile entry; mret (out ++ [value]))
            [] (y_entries records)
     else mret []);
  mret (realtime_profiles, record_profiles).

(** The body of the loop over the cameras, after [cameras]. *)
Definition load_camera (realtime_profiles record_profiles : list MediaProfile)
    (cameras : list CameraConfig) (node : yaml) : result (list CameraConfig) :=
  id ← required y_as_string node "id" "camera";
  throw_if (string_empty id || string_in id (map cam_id cameras))
    (RuntimeError ("camera id must be non-empty and unique: " +:+ id));;
  enabled ← optional y_as_bool node "enabled" true;
  critical_for_control ← optional y_as_bool node "critical_for_control" true;
  reopen_attempts ← optional y_as_int node "reopen_attempts" 3;
  reopen_backoff_ms ← optional y_as_int node "reopen_backoff_ms" 500;
  backend ← optional y_as_string node "backend" "auto";
  device ← required y_as_string node "device" id;
  capture_width ← optional y_as_int node "capture_width" 1280;
  capture_height ← optional y_as_int node "capture_height" 720;
  capture_fps ← optional y_as_int node "capture_fps" 30;
  realtime ← required y_as_string node "realtime_profile" id;
  record ← optional y_as_string node "record_profile" "";
  throw_if ((reopen_attempts <? 0) || (10 <? reopen_attempts))
    (RuntimeError (id +:+ ".reopen_attempts must be in [0, 10]"));;
  throw_if ((reopen_backoff_ms <? 0) || (60000 <? reopen_backoff_ms))
    (RuntimeError (id +:+ ".reopen_backoff_ms must be in [0, 60000]"));;
  throw_if (negb (String.eqb backend "auto") && negb (String.eqb backend "ccg2"))
    (RuntimeError (id +:+ ".backend must be auto or ccg2"));;
  throw_if (String.eqb backend "ccg2" &&
            ((capture_width <=? 0) || (capture_height <=? 0) || (capture_fps <=? 0) ||
             negb (Z.rem capture_width 2 =? 0)))
    (RuntimeError (id +:+
       ".capture_width must be positive and even; capture_height and capture_fps must be positive"));;
  realtime_profile realtime_profiles realtime;;
  (if string_empty record then mret tt else record_profile record_profiles record;; mret tt);;
  mret (cameras ++
    [mkCameraConfig id enabled critical_for_control reopen_attempts reopen_backoff_ms backend
       device capture_width capture_height capture_fps realtime record]).

(** core.cpp:1876-1923 *)
Definition load_cameras (realtime_profiles record_profiles : list MediaProfile)
    (control_enabled : bool) (cameras : yaml) : result (list CameraConfig) :=
  throw_if (negb (y_defined cameras) || negb (y_is_sequence cameras))
    (RuntimeError "cameras must be a list");;
  cameras ← fold_result (load_camera realtime_profiles record_profiles) [] (y_items cameras);
  let enabled := enabled_cameras cameras in
  throw_if match enabled with [] => true | _ => false end
    (RuntimeError "at least one camera must be enabled");;
  throw_if (control_enabled && negb (existsb cam_critical_for_control enabled))
    (RuntimeError
       "control-enabled vehicle requires at least one enabled camera with critical_for_control: true");;
  mret cameras.

(** core.cpp:1925-1966 *)
Definition load_hardware (hardware : yaml) : result HardwareConfig :=
  can ← y_at "can" hardware;
  can_interface ← optional y_as_string can "interface" "can0";
  can_bitrate ← optional y_as_int can "bitrate" 500000;
  can_tx_queue_length ← optional y_as_int can "tx_queue_length" 100;
  throw_if (string_empty can_interface || (16 <=? Z.of_nat (String.length can_interface)) ||
            has_any (crlf +:+ "/") can_interface)
    (RuntimeError "hardware.can.interface is invalid");;
  throw_if ((can_bitrate <=? 0) || (1000000 <? can_bitrate))
    (RuntimeError "hardware.can.bitrate must be in [1, 1000000]");;
  throw_if ((can_tx_queue_length <=? 0) || (65535 <? can_tx_queue_length))
    (RuntimeError "hardware.can.tx_queue_length must be in [1, 65535]");;
  encoding ← y_at "encoding" hardware;
  vaapi_render_device ← optional y_as_string encoding "vaapi_render_device" "/dev/dri/renderD128";
  dri_card_device ← optional y_as_string encoding "dri_card_device" "/dev/dri/card1";
  preferred_encoder ← optional y_as_string encoding "preferred_encoder" "nvenc";
  fallback_encoder ← optional y_as_string encoding "fallback_encoder" "vaapi";
  preferred_codec ← optional y_as_string encoding "preferred_codec" "h265";
  fallback_codec ← optional y_as_string encoding "fallback_codec" "h264";
  require_hardware_encoder ← optional y_as_bool encoding "require_hardware_encoder" true;
  max_end_to_end_latency_ms ← optional y_as_int encoding "max_end_to_end_latency_ms" 200;
  min_realtime_fps ← optional y_as_int encoding "min_realtime_fps" 20;
  throw_if (negb (string_in preferred_encoder ["nvenc"; "vaapi"]))
    (RuntimeError "hardware.encoding.preferred_encoder must be nvenc or vaapi");;
  throw_if (negb (string_in fallback_encoder ["nvenc"; "vaapi"]))
    (RuntimeError "hardware.encoding.fallback_encoder must be nvenc or vaapi");;
  throw_if (negb (string_in preferred_codec ["h264"; "h265"]))
    (RuntimeError "hardware.encoding.preferred_codec must be h264 or h265");;
  throw_if (negb (string_in fallback_codec ["h264"; "h265"]))
    (RuntimeError "hardware.encoding.fallback_codec must be h264 or h265");;
  throw_if ((max_end_to_end_latency_ms <=? 0) || (min_realtime_fps <=? 0))
    (RuntimeError "hardware.encoding acceptance thresholds must be positive");;
  network ← y_at "network" hardware;
  network_interface ← optional y_as_string network "interface" "wwan0";
  mret (mkHardwareConfig can_interface can_bitrate can_tx_queue_length vaapi_render_device
          dri_card_device preferred_encoder fallback_encoder preferred_codec fallback_codec
          require_hardware_encoder max_end_to_end_latency_ms min_realtime_fps
          network_interface).

(** [!std::isfinite(value) || value < minimum || value > maximum] *)
Definition out_of_range (value minimum maximum : double) : bool :=
  negb (d_isfinite value) || (value <ᵈ minimum) || (value >ᵈ maximum).

(** [!std::isfinite(value) || value <= minimum || value > maximum] *)
Definition out_of_positive_range (value minimum maximum : double) : bool :=
  negb (d_isfinite value) || (value ≤ᵈ minimum) || (value >ᵈ maximum).

(** The values of the section, core.cpp:1969-2009. *)
Definition read_field_safety (safety : yaml) : result FieldSafetyConfig :=
  commissioning_mode ← optional y_as_string safety "commissioning_mode" "bench";
  max_speed_kph ← optional y_as_double safety "max_speed_kph" (d_lit 10 0);
  max_throttle ← optional y_as_double safety "max_throttle" d_one;
  full_scale_motor_torque_nm ← optional y_as_double safety "full_scale_motor_torque_nm"
    kDefaultFullScaleMotorTorqueNm;
  motor_torque_rise_rate ← optional y_as_double safety "motor_torque_rise_rate_nm_per_s"
    kDefaultMotorTorqueRiseRateNmPerSecond;
  speed_feedback_timeout_ms ← optional y_as_int safety "speed_feedback_timeout_ms" 200;
  kp ← optional y_as_double safety "speed_pid_kp" d_one;
  ki ← optional y_as_double safety "speed_pid_ki" (d_lit 2 1);
  kd ← optional y_as_double safety "speed_pid_kd" d_zero;
  tau ← optional y_as_double safety "speed_pid_derivative_filter_tau_ms" (d_lit 100 0);
  max_dt ← optional y_as_int safety "speed_pid_max_dt_ms" 100;
  margin ← optional y_as_double safety "hard_overspeed_margin_kph" (d_lit 36 1);
  legacy ← (if y_defined safety
            then (value ← y_at "max_brake" safety; mret (y_defined value)) else mret false);
  throw_if legacy
    (RuntimeError
       "field_safety.max_brake used legacy normalized units; migrate explicitly to max_brake_pressure_bar");;
  max_brake_pressure_bar ← optional y_as_double safety "max_brake_pressure_bar"
    kDefaultMaxBrakePressureBar;
  max_steering_angle_deg ← optional y_as_double safety "max_steering_angle_deg" (d_lit 30 0);
  require_can_feedback ← optional y_as_bool safety "require_can_feedback_before_control" true;
  require_local_estop_reset ← optional y_as_bool safety "require_local_estop_reset" true;
  require_time_sync ← optional y_as_bool safety "require_time_sync" true;
  uncertainty ← optional y_as_int safety "max_time_sync_uncertainty_ms" 25;
  interval ← optional y_as_int safety "time_sync_interval_ms" 30000;
  samples ← optional y_as_int safety "time_sync_samples" 7;
  mret (mkFieldSafetyConfig commissioning_mode max_speed_kph max_throttle
          full_scale_motor_torque_nm motor_torque_rise_rate speed_feedback_timeout_ms kp ki kd
          tau max_dt margin max_brake_pressure_bar max_steering_angle_deg require_can_feedback
          require_local_estop_reset require_time_sync uncertainty interval samples).

(** Its checks, core.cpp:2010-2074. *)
Definition check_field_safety (control_timeout_ms : Z) (fs : FieldSafetyConfig) : result unit :=
  throw_if (negb (fs_require_local_estop_reset fs))
    (RuntimeError
       "field_safety.require_local_estop_reset must be true; remote-only ESTOP reset is unsupported");;
  throw_if (out_of_range (fs_full_scale_motor_torque_nm fs) d_zero kMaxFullScaleMotorTorqueNm)
    (RuntimeError
       "field_safety.full_scale_motor_torque_nm must be finite and in [0, 640.0] Nm");;
  throw_if (out_of_range (fs_motor_torque_rise_rate_nm_per_s fs) d_zero
              kMaxMotorTorqueRiseRateNmPerSecond)
    (RuntimeError
       "field_safety.motor_torque_rise_rate_nm_per_s must be finite and in [0, 32000.0] Nm/s; zero disables additional rise limiting");;
  throw_if (out_of_range (fs_max_speed_kph fs) d_zero kChassisControlMaxTargetSpeedKph)
    (RuntimeError
       "field_safety.max_speed_kph must be finite and in [0, 72] km/h; the current ChassisControl target-speed input is limited to 20 m/s");;
  throw_if (out_of_range (fs_max_throttle fs) d_zero d_one ||
            out_of_range (fs_max_brake_pressure_bar fs) d_zero kMaxOrdinaryBrakePressureBar ||
            out_of_range (fs_max_steering_angle_deg fs) d_zero (d_lit 30 0) ||
            (fs_max_time_sync_uncertainty_ms fs <? 0) || (fs_time_sync_interval_ms fs <=? 0) ||
            (fs_time_sync_samples fs <? 3) || (15 <? fs_time_sync_samples fs))
    (RuntimeError "field_safety limits or time sync settings are invalid");;
  throw_if ((fs_speed_feedback_timeout_ms fs <? kMinSpeedFeedbackTimeoutMs) ||
            (kMaxSpeedFeedbackTimeoutMs <? fs_speed_feedback_timeout_ms fs) ||
            (control_timeout_ms <? fs_speed_feedback_timeout_ms fs) ||
            out_of_positive_range (fs_speed_pid_kp fs) d_zero kMaxSpeedPidGain ||
            out_of_range (fs_speed_pid_ki fs) d_zero kMaxSpeedPidGain ||
            out_of_range (fs_speed_pid_kd fs) d_zero kMaxSpeedPidGain ||
            out_of_range (fs_speed_pid_derivative_filter_tau_ms fs) d_zero
              kMaxSpeedPidDerivativeFilterTauMs ||
            (fs_speed_pid_max_dt_ms fs <? kMinSpeedPidMaxDtMs) ||
            (kMaxSpeedPidMaxDtMs <? fs_speed_pid_max_dt_ms fs) ||
            out_of_positive_range (fs_hard_overspeed_margin_kph fs) d_zero
              kMaxHardOverspeedMarginKph)
    (RuntimeError
       "field_safety local speed PID, feedback timeout, max dt, or hard overspeed margin is invalid").

(** core.cpp:1968-2074 *)
Definition load_field_safety (control_timeout_ms : Z) (safety : yaml) : result FieldSafetyConfig :=
  fs ← read_field_safety safety;
  check_field_safety control_timeout_ms fs;;
  mret fs.

(** The vehicle adapter, core.cpp:2094-2110, before its checks. *)
Definition read_vehicle_adapter (cwd : string) (hardware : HardwareConfig) (adapter : yaml) :
    result VehicleAdapterConfig :=
  type ← optional y_as_string adapter "type" "can";
  integration ← y_at "integration" adapter;
  chassis ←
    (if y_defined integration && y_is_map integration
     then y_at "chassis_control" integration ≫= y_assign else mret y_node);
  config ←
    (if y_defined chassis
     then can_interface ← optional y_as_string chassis "can_interface" (hw_can_interface hardware);
          bridge_library_path ← optional y_as_string chassis "bridge_library_path" "";
          mret (mkVehicleAdapterConfig type can_interface bridge_library_path)
     else mret (mkVehicleAdapterConfig type (hw_can_interface hardware) ""));
  let library := vac_bridge_library_path config in
  mret (mkVehicleAdapterConfig type (vac_can_interface config)
          (if negb (string_empty library) && path_is_relative library
           then path_lexically_normal (path_absolute cwd library) else library)).

(** The keys a non-mock vehicle must set. *)
Definition explicit_safety_keys : list string :=
  ["max_speed_kph"; "max_throttle"; "full_scale_motor_torque_nm";
   "motor_torque_rise_rate_nm_per_s"; "max_brake_pressure_bar"; "max_steering_angle_deg";
   "speed_feedback_timeout_ms"; "speed_pid_kp"; "speed_pid_ki"; "speed_pid_kd";
   "speed_pid_derivative_filter_tau_ms"; "speed_pid_max_dt_ms"; "hard_overspeed_margin_kph"].

(** [!node[k1] || !node[k2] || ...], from left to right. *)
Fixpoint any_undefined (keys : list string) (node : yaml) : result bool :=
  match keys with
  | [] => mret false
  | key :: keys =>
      value ← y_at key node;
      if negb (y_defined value) then mret true else any_undefined keys node
  end.

(** core.cpp:2094-2138 *)
Definition load_vehicle_adapter (cwd : string) (hardware : HardwareConfig) (safety adapter : yaml) :
    result VehicleAdapterConfig :=
  config ← read_vehicle_adapter cwd hardware adapter;
  let non_mock := negb (String.eqb (vac_type config) "mock") in
  throw_if (negb (String.eqb (vac_can_interface config) (hw_can_interface hardware)))
    (RuntimeError "hardware.can.interface and vehicle adapter can_interface must match");;
  throw_if (non_mock && string_empty (vac_bridge_library_path config))
    (RuntimeError "non-mock vehicle adapter requires bridge_library_path");;
  missing ←
    (if non_mock
     then (if negb (y_defined safety) then mret true else any_undefined explicit_safety_keys safety)
     else mret false);
  throw_if missing
    (RuntimeError
       "non-mock vehicle adapter requires explicit field_safety max_speed_kph, max_throttle, full_scale_motor_torque_nm, motor_torque_rise_rate_nm_per_s, max_brake_pressure_bar, steering limits, speed PID gains/timing, feedback timeout, and hard overspeed margin");;
  throw_if (non_mock && (hw_can_tx_queue_length hardware <? 16))
    (RuntimeError "non-mock vehicle adapter requires hardware.can.tx_queue_length >= 16");;
  mret config.

(** core.cpp:2076-2083 *)
Definition load_recording (recording : yaml) : result RecordingConfig :=
  enabled ← optional y_as_bool recording "enabled" false;
  root_dir ← optional y_as_string recording "root_dir" ".local/recordings";
  min_free_gb ← optional y_as_double recording "min_free_gb" (d_lit 5 0);
  delete_uploaded ← optional y_as_double recording "delete_uploaded_when_below_free_gb" (d_lit 2 0);
  delete_unuploaded ← optional y_as_bool recording "delete_unuploaded_when_below_free_gb" false;
  mret (mkRecordingConfig enabled root_dir min_free_gb delete_uploaded delete_unuploaded).

(** core.cpp:2085-2092 *)
Definition load_upload (upload : yaml) : result UploadConfig :=
  enabled ← optional y_as_bool upload "enabled" false;
  backend ← optional y_as_string upload "backend" "local_archive";
  max_bandwidth_mbps ← optional y_as_double upload "max_bandwidth_mbps" (d_lit 5 0);
  trigger_segments ← optional y_as_int upload "trigger_segments" 20;
  trigger_network_idle ← optional y_as_bool upload "trigger_network_idle" true;
  retry_initial_seconds ← optional y_as_int upload "retry_initial_seconds" 10;
  retry_max_seconds ← optional y_as_int upload "retry_max_seconds" 600;
  mret (mkUploadConfig enabled backend max_bandwidth_mbps trigger_segments trigger_network_idle
          retry_initial_seconds retry_max_seconds).

(** [cwd] is the directory the process runs in. *)
Definition load_vehicle_config (cwd path : string) : result VehicleConfig :=
  root ← rethrow_yaml (fun what => "failed to load vehicle config " +:+ path +:+ ": " +:+ what)
           (y_load_file path);
  vehicle ← y_at_mut "vehicle" root;
  vehicle_id ← required y_as_string vehicle "id" "vehicle";
  vehicle_name ← optional y_as_string vehicle "name" vehicle_id;
  cloud ← y_at_mut "cloud" root ≫= load_cloud path;
  runtime ← y_at_mut "runtime" root ≫= load_runtime;
  control ← y_at_mut "control" root ≫= load_control;
  profiles ← load_media root;
  let '(realtime_profiles, record_profiles) := profiles in
  cameras ← y_at_mut "cameras" root ≫=
    load_cameras realtime_profiles record_profiles (rt_control_enabled runtime);
  hardware ← y_at_mut "hardware" root ≫= load_hardware;
  safety ← y_at_mut "field_safety" root;
  field_safety ← load_field_safety (cc_control_timeout_ms control) safety;
  recording ← y_at_mut "recording" root ≫= load_recording;
  upload ← y_at_mut "upload" root ≫= load_upload;
  vehicle_adapter ← y_at_mut "vehicle_adapter" root ≫= load_vehicle_adapter cwd hardware safety;
  mret (mkVehicleConfig vehicle_id vehicle_name cloud runtime control realtime_profiles
          record_profiles cameras recording upload vehicle_adapter hardware field_safety).
End load.

(** ** Summary *)

Section summary.
Context {J : JsonApi}.

Definition redacted_summary (config : VehicleConfig) : json :=
  let enabled := enabled_cameras (cfg_cameras config) in
  let critical_camera_count := Z.of_nat (length (List.filter cam_critical_for_control enabled)) in
  let runtime := cfg_runtime config in
  let hardware := cfg_hardware config in
  let safety := cfg_field_safety config in
  j_object
    [("event", j_string "effective_vehicle_config");
     ("runtime", j_string "cpp");
     ("vehicle_id", j_string (cfg_vehicle_id config));
     ("signaling_url", j_string (cl_signaling_url (cfg_cloud config)));
     ("ice_transport_policy", j_string (cl_ice_transport_policy (cfg_cloud config)));
     ("device_token_file_configured",
      j_bool (negb (string_empty (cl_device_token_file (cfg_cloud config)))));
     ("control_enabled", j_bool (rt_control_enabled runtime));
     ("media_enabled", j_bool (rt_media_enabled runtime));
     ("teleop_poll_interval_ms", j_int (rt_teleop_poll_interval_ms runtime));
     ("camera_count", j_uint (Z.of_nat (length enabled)));
     ("critical_camera_count", j_int critical_camera_count);
     ("vehicle_adapter_type", j_string (vac_type (cfg_vehicle_adapter config)));
     ("can_interface", j_string (hw_can_interface hardware));
     ("can_bitrate", j_int (hw_can_bitrate hardware));
     ("can_tx_queue_length", j_int (hw_can_tx_queue_length hardware));
     ("max_speed_kph", j_double (fs_max_speed_kph safety));
     ("max_throttle", j_double (fs_max_throttle safety));
     ("full_scale_motor_torque_nm", j_double (fs_full_scale_motor_torque_nm safety));
     ("motor_torque_rise_rate_nm_per_s", j_double (fs_motor_torque_rise_rate_nm_per_s safety));
     ("speed_feedback_timeout_ms", j_int (fs_speed_feedback_timeout_ms safety));
     ("speed_pid_kp", j_double (fs_speed_pid_kp safety));
     ("speed_pid_ki", j_double (fs_speed_pid_ki safety));
     ("speed_pid_kd", j_double (fs_speed_pid_kd safety));
     ("speed_pid_derivative_filter_tau_ms",
      j_double (fs_speed_pid_derivative_filter_tau_ms safety));
     ("speed_pid_max_dt_ms", j_int (fs_speed_pid_max_dt_ms safety));
     ("hard_overspeed_margin_kph", j_double (fs_hard_overspeed_margin_kph safety));
     ("max_brake_pressure_bar", j_double (fs_max_brake_pressure_bar safety));
     ("max_steering_angle_deg", j_double (fs_max_steering_angle_deg safety));
     ("require_time_sync", j_bool (fs_require_time_sync safety));
     ("max_time_sync_uncertainty_ms", j_int (fs_max_time_sync_uncertainty_ms safety));
     ("recording_root", j_string (rec_root_dir (cfg_recording config)));
     ("recording_enabled", j_bool (rec_enabled (cfg_recording config)));
     ("upload_enabled", j_bool (upl_enabled (cfg_upload config)))].
End summary.

(** ** What the loader guarantees *)

(** Splits [r1 ≫= ... ≫= mret v = Ok w] into one equation per step. *)
Ltac split_result H :=
  repeat match type of H with
  | mbind _ _ = Ok _ => apply result_bind_ok in H as (? & ? & H)
  | (match ?x with (_, _) => _ end) = Ok _ => destruct x
  end.

Ltac checks_hold :=
  repeat match goal with
  | x : unit |- _ => destruct x
  | H : throw_if _ _ = Ok tt |- _ => apply throw_if_ok in H
  end; bool_prop.

Record timing_ok (c : ControlConfig) : Prop := {
  to_rate : cc_rate_hz c = 20;
  to_gap : 0 < cc_max_command_gap_ms c <= 60000;
  to_timeouts : 0 < cc_degraded_timeout_ms c < cc_control_timeout_ms c;
  to_bound : cc_control_timeout_ms c <= 60000;
  to_profile : profile_ok (cc_deceleration_profile c);
}.

Record safety_limits_ok (control_timeout_ms : Z) (fs : FieldSafetyConfig) : Prop := {
  sl_local_reset : fs_require_local_estop_reset fs = true;
  sl_torque : out_of_range (fs_full_scale_motor_torque_nm fs) d_zero (d_lit 640 0) = false;
  sl_rise : out_of_range (fs_motor_torque_rise_rate_nm_per_s fs) d_zero (d_lit 32000 0) = false;
  sl_speed : out_of_range (fs_max_speed_kph fs) d_zero kChassisControlMaxTargetSpeedKph = false;
  sl_throttle : out_of_range (fs_max_throttle fs) d_zero d_one = false;
  sl_brake : out_of_range (fs_max_brake_pressure_bar fs) d_zero (d_lit 3276 1) = false;
  sl_steering : out_of_range (fs_max_steering_angle_deg fs) d_zero (d_lit 30 0) = false;
  sl_kp : out_of_positive_range (fs_speed_pid_kp fs) d_zero (d_lit 100 0) = false;
  sl_ki : out_of_range (fs_speed_pid_ki fs) d_zero (d_lit 100 0) = false;
  sl_kd : out_of_range (fs_speed_pid_kd fs) d_zero (d_lit 100 0) = false;
  sl_tau : out_of_range (fs_speed_pid_derivative_filter_tau_ms fs) d_zero (d_lit 2000 0) = false;
  sl_margin : out_of_positive_range (fs_hard_overspeed_margin_kph fs) d_zero (d_lit 36 0) = false;
  sl_dt : 20 <= fs_speed_pid_max_dt_ms fs <= 200;
  sl_feedback : 20 <= fs_speed_feedback_timeout_ms fs <= Z.min 500 control_timeout_ms;
  sl_sync : 0 <= fs_max_time_sync_uncertainty_ms fs /\ 0 < fs_time_sync_interval_ms fs /\
            3 <= fs_time_sync_samples fs <= 15;
}.

(** The cameras are distinct and every profile they name exists. *)
Record cameras_ok (realtime record : list MediaProfile) (cameras : list CameraConfig) : Prop := {
  cam_distinct : NoDup (map cam_id cameras);
  cam_profiles : Forall (fun camera =>
    cam_id camera <> "" /\
    is_Some (find_profile (cam_realtime_profile camera) realtime) /\
    (cam_record_profile camera <> "" ->
     is_Some (find_profile (cam_record_profile camera) record))) cameras;
}.

Record config_ok (config : VehicleConfig) : Prop := {
  co_mode : rt_control_enabled (cfg_runtime config) = true \/
            rt_media_enabled (cfg_runtime config) = true;
  co_control : timing_ok (cfg_control config);
  co_safety : safety_limits_ok (cc_control_timeout_ms (cfg_control config))
                (cfg_field_safety config);
  co_cameras : cameras_ok (cfg_realtime_profiles config) (cfg_record_profiles config)
                 (cfg_cameras config);
  co_enabled : enabled_cameras (cfg_cameras config) <> [];
  co_critical : rt_control_enabled (cfg_runtime config) = true ->
    exists camera, camera ∈ cfg_cameras config /\ cam_enabled camera = true /\
      cam_critical_for_control camera = true;
  co_can : vac_can_interface (cfg_vehicle_adapter config) =
             hw_can_interface (cfg_hardware config) /\
           hw_can_interface (cfg_hardware config) <> "" /\
           0 < hw_can_bitrate (cfg_hardware config) <= 1000000 /\
           0 < hw_can_tx_queue_length (cfg_hardware config) <= 65535;
  co_adapter : vac_type (cfg_vehicle_adapter config) <> "mock" ->
    vac_bridge_library_path (cfg_vehicle_adapter config) <> "" /\
    16 <= hw_can_tx_queue_length (cfg_hardware config);
}.

Section loaded.
Context {Y : YamlApi}.

Lemma load_control_ok node c : load_control node = Ok c -> timing_ok c.
Proof.
  unfold load_control. intros H. split_result H. injection H as <-. checks_hold.
  match goal with H : normalize_and_validate_deceleration_profile _ = Ok _ |- _ =>
    apply normalize_profile_ok in H as [] end.
  split; simpl; try done; lia.
Qed.

Lemma load_runtime_ok node rt :
  load_runtime node = Ok rt -> rt_control_enabled rt = true \/ rt_media_enabled rt = true.
Proof.
  unfold load_runtime. intros H. split_result H. injection H as <-. checks_hold. simpl.
  match goal with H : (negb _ && negb _) = false |- _ =>
    apply andb_false_iff in H as [?%negb_false_iff | ?%negb_false_iff] end; auto.
Qed.

Lemma check_field_safety_ok timeout fs :
  check_field_safety timeout fs = Ok tt -> safety_limits_ok timeout fs.
Proof.
  unfold check_field_safety. intros H. split_result H. checks_hold.
  split; try done; unfold kMinSpeedFeedbackTimeoutMs, kMaxSpeedFeedbackTimeoutMs,
    kMinSpeedPidMaxDtMs, kMaxSpeedPidMaxDtMs in *; lia.
Qed.

Lemma load_field_safety_ok timeout node fs :
  load_field_safety timeout node = Ok fs -> safety_limits_ok timeout fs.
Proof.
  unfold load_field_safety. intros H. split_result H. injection H as <-. checks_hold.
  by apply check_field_safety_ok.
Qed.

Lemma load_hardware_ok node hw :
  load_hardware node = Ok hw ->
  hw_can_interface hw <> "" /\ 0 < hw_can_bitrate hw <= 1000000 /\
  0 < hw_can_tx_queue_length hw <= 65535.
Proof.
  unfold load_hardware. intros H. split_result H. injection H as <-. checks_hold.
  unfold string_empty in *. bool_prop. simpl. split_and!; done || lia.
Qed.

Lemma load_vehicle_adapter_ok cwd hw safety node config :
  load_vehicle_adapter cwd hw safety node = Ok config ->
  vac_can_interface config = hw_can_interface hw /\
  (vac_type config <> "mock" ->
   vac_bridge_library_path config <> "" /\ 16 <= hw_can_tx_queue_length hw).
Proof.
  unfold load_vehicle_adapter. intros H. split_result H. injection H as <-. checks_hold.
  split; [done |]. intros Hmock. apply String.eqb_neq in Hmock. rewrite Hmock in *.
  simpl in *. unfold string_empty in *. by bool_prop.
Qed.

Lemma find_profile_realtime profiles name p :
  realtime_profile profiles name = Ok p -> is_Some (find_profile name profiles).
Proof. unfold realtime_profile. destruct (find_profile name profiles); [eauto | done]. Qed.

Lemma find_profile_record profiles name p :
  record_profile profiles name = Ok p -> is_Some (find_profile name profiles).
Proof. unfold record_profile. destruct (find_profile name profiles); [eauto | done]. Qed.

Lemma string_in_false s xs : string_in s xs = false <-> s ∉ xs.
Proof. rewrite <- string_in_elem_of. by destruct (string_in s xs). Qed.

Lemma load_camera_ok realtime record cameras node cameras' :
  cameras_ok realtime record cameras ->
  load_camera realtime record cameras node = Ok cameras' -> cameras_ok realtime record cameras'.
Proof.
  intros [Hd Hp]. unfold load_camera. intros H. split_result H. injection H as <-.
  checks_hold. unfold string_empty in *. bool_prop. split.
  - rewrite map_app. apply NoDup_app. split_and!; [done | | apply NoDup_singleton].
    intros id Hid. simpl. rewrite list_elem_of_singleton. intros ->.
    by match goal with H : string_in _ _ = false |- _ => apply string_in_false in H end.
  - apply Forall_app. split; [done |]. constructor; [| constructor]. simpl. split_and!.
    + done.
    + by eapply find_profile_realtime.
    + intros Hrec. apply String.eqb_neq in Hrec.
      match goal with H : (if String.eqb _ _ then _ else _) = Ok _ |- _ =>
        rewrite Hrec in H; apply result_bind_ok in H as (? & H & _) end.
      by eapply find_profile_record.
Qed.

Lemma load_cameras_ok realtime record control node cameras :
  load_cameras realtime record control node = Ok cameras ->
  cameras_ok realtime record cameras /\ enabled_cameras cameras <> [] /\
  (control = true -> exists camera, camera ∈ cameras /\ cam_enabled camera = true /\
     cam_critical_for_control camera = true).
Proof.
  unfold load_cameras. intros H. split_result H. injection H as <-. checks_hold.
  match goal with H : fold_result _ _ _ = Ok ?c |- _ =>
    assert (cameras_ok realtime record c) end.
  { eapply fold_result_inv; [| | eassumption]; [split; constructor |].
    intros cs n cs' Hcs. by apply load_camera_ok. }
  split_and!; [done | by intros E; rewrite E in * |]. intros ->.
  match goal with H : (true && negb _) = false |- _ =>
    simpl in H; apply negb_false_iff, existsb_exists in H as (cam & Hin & Hcrit) end.
  apply filter_In in Hin as [Hin Hen]. exists cam. by rewrite list_elem_of_In.
Qed.
End loaded.

(** A loaded configuration is safe to run.  Whatever the YAML file and
    library, a configuration that [load_vehicle_config] returns has ordered,
    bounded timings, a well-formed braking profile ending in the full brake,
    every field-safety limit finite and within the hardware's envelope, a
    mandatory local emergency-stop reset, distinct cameras whose profiles exist,
    a critical enabled camera when control is on, and a consistent CAN set-up. *)
Theorem loaded_config_ok {Y : YamlApi} (cwd path : string) (config : VehicleConfig) :
  load_vehicle_config cwd path = Ok config -> config_ok config.
Proof.
  unfold load_vehicle_config. intros H. split_result H. injection H as <-.
  repeat match goal with
  | H : _ ≫= load_runtime = Ok _ |- _ =>
      apply result_bind_ok in H as (? & ? & H%load_runtime_ok)
  | H : _ ≫= load_control = Ok _ |- _ =>
      apply result_bind_ok in H as (? & ? & H%load_control_ok)
  | H : _ ≫= load_hardware = Ok _ |- _ =>
      apply result_bind_ok in H as (? & ? & (? & ? & ?)%load_hardware_ok)
  | H : _ ≫= load_cameras _ _ _ = Ok _ |- _ =>
      apply result_bind_ok in H as (? & ? & (? & ? & ?)%load_cameras_ok)
  | H : _ ≫= load_vehicle_adapter _ _ _ = Ok _ |- _ =>
      apply result_bind_ok in H as (? & ? & [? ?]%load_vehicle_adapter_ok)
  | H : load_field_safety _ _ = Ok _ |- _ => apply load_field_safety_ok in H
  end.
  by split.
Qed.

(** ** An instance of the YAML interface *)

Module YamlModel.

Inductive node : Type :=
| YMissing                             (* the result of a failed look-up *)
| YNull
| YString (s : string)
| YInt (z : Z)
| YBool (b : bool)
| YDouble (d : double)
| YSequence (items : list node)
| YMapping (entries : list (string * node)).

Definition bad {A} : result A := Throw (YamlException "bad conversion").

#[global] Instance api (file : node) : YamlApi := {|
  yaml := node;
  y_load_file _ := Ok file;
  y_node := YNull;
  y_assign n := match n with YMissing => Throw (YamlException "invalid node") | _ => Ok n end;
  y_at k n :=
    match n with
    | YMapping entries => Ok (default YMissing (assoc k entries))
    | YMissing => Throw (YamlException "invalid node")
    | YNull => Ok YMissing
    | _ => Throw (YamlException "operator[] call on a scalar")
    end;
  y_at_mut k n :=
    match n with
    | YMapping entries => Ok (default YNull (assoc k entries))
    | YNull => Ok YNull
    | _ => Throw (YamlException "operator[] call on a scalar")
    end;
  y_defined n := match n with YMissing => false | _ => true end;
  y_is_scalar n := match n with YString _ | YInt _ | YBool _ | YDouble _ => true | _ => false end;
  y_is_sequence n := match n with YSequence _ => true | _ => false end;
  y_is_map n := match n with YMapping _ => true | _ => false end;
  y_scalar n := match n with YString s => s | _ => "" end;
  y_items n := match n with YSequence items => items | _ => [] end;
  y_entries n :=
    match n with YMapping entries => map (fun e => (YString e.1, e.2)) entries | _ => [] end;
  y_as_string n := match n with YString s => Ok s | _ => bad end;
  y_as_int n := match n with YInt z => Ok z | _ => bad end;
  y_as_bool n := match n with YBool b => Ok b | _ => bad end;
  y_as_double n := match n with YDouble d => Ok d | YInt z => Ok (d_of_Z z) | _ => bad end;
  y_as_strings n := match n with YSequence _ => Ok [] | _ => bad end;
|}.

Definition example_file : node :=
  YMapping
    [("vehicle", YMapping [("id", YString "truck-1")]);
     ("cloud", YMapping [("signaling_url", YString "wss://cloud");
                         ("device_token_file", YString "secrets/./token")]);
     ("runtime", YMapping []);
     ("control", YMapping
        [("timeout_action", YMapping
           [("deceleration_profile", YSequence
              [YMapping [("after_ms", YInt 0); ("brake", YDouble (d_lit 3 1))];
               YMapping [("after_ms", YInt 500);
                         ("brake", YString "vehicle_defined_max_safe")]])])]);
     ("media", YMapping
        [("realtime_profiles", YMapping
           [("front", YMapping [("width", YInt 1280); ("height", YInt 720); ("fps", YInt 30);
                                ("bitrate_kbps", YInt 3000)])])]);
     ("cameras", YSequence
        [YMapping [("id", YString "front"); ("device", YString "/dev/video0");
                   ("realtime_profile", YString "front")]]);
     ("hardware", YMapping [("can", YMapping []); ("encoding", YMapping []);
                            ("network", YMapping [])]);
     ("field_safety", YMapping [("max_speed_kph", YInt 20)]);
     ("recording", YMapping []);
     ("upload", YMapping []);
     ("vehicle_adapter", YMapping [("type", YString "mock")])].

Definition example_config : result VehicleConfig :=
  @load_vehicle_config (api example_file) "/opt/teleop" "config/vehicle.yaml".
End YamlModel.

Lemma loaded_config_ok_witness :
  match YamlModel.example_config with
  | Ok config =>
      config_ok config /\ cl_device_token_file (cfg_cloud config) = "config/secrets/token"
  | Throw _ => False
  end.
Proof.
  destruct YamlModel.example_config as [config | e] eqn:E.
  - split.
    + apply (@loaded_config_ok (YamlModel.api YamlModel.example_file) "/opt/teleop"
               "config/vehicle.yaml").
      exact E.
    + assert (H : (cl_device_token_file ∘ cfg_cloud) <$> YamlModel.example_config =
                  Ok "config/secrets/token") by (vm_compute; reflexivity).
      rewrite E in H. by injection H.
  - assert (H : is_ok YamlModel.example_config = true) by (vm_compute; reflexivity).
    by rewrite E in H.
Defined.
