(* ===== verification/Adapter.v ===== *)
(** Adapter: the vehicle adapters (core.hpp:522-773, core.cpp:145-317, 439-700,
    854-933, 1429-1462 and 2143-2794).

    - the feedback, telemetry, status and handshake records with [to_json];
    - [VehicleAdapter]: the interface, a class of stateful operations that may
      throw anything;
    - [MockVehicleAdapter]: the in-memory instance;
    - [DynamicLibraryVehicleAdapter]: the instance that drives the chassis
      bridge, a C library loaded at run time: its functions, the dynamic loader
      and the SocketCAN calls are the methods of [ChassisPlatform];
    - [create_vehicle_adapter].

    The theorems are in AdapterProperties. *)
From S2P Require Export Config.

(** ** Gears, stop contexts and handshake states of the bridge *)

Definition gear_to_bridge_value (gear : string) : result Z :=
  if String.eqb gear "N" then Ok 1
  else if String.eqb gear "R" then Ok 2
  else if String.eqb gear "D" then Ok 3
  else if String.eqb gear "P" then Ok 4
  else Throw (InvalidArgument "unsupported gear").

Definition bridge_value_to_gear (gear : Z) : string :=
  if gear =? 2 then "R" else if gear =? 3 then "D" else if gear =? 4 then "P" else "N".

Definition kBridgeApplyIssueNone : Z := 0.
Definition kBridgeApplyIssueDriveGearChangeMovingOrStale : Z := 5.

Definition bridge_apply_issue_code (issue_id : Z) : string :=
  if issue_id =? kBridgeApplyIssueDriveGearChangeMovingOrStale
  then "vcu_drive_gear_change_moving_or_stale" else "vcu_control_apply_rejected".

(** The constructor of the exception: it keeps one issue code only. *)
Definition VehicleAdapterControlRejected_new (issue_code : string) (result_code : Z) : exn :=
  VehicleAdapterControlRejected
    (if String.eqb issue_code "vcu_drive_gear_change_moving_or_stale" then issue_code
     else "vcu_control_apply_rejected") result_code.

(** The [switch] on the raw value of a [VehicleStopSource]. *)
Definition bridge_stop_source (source_value reason_value : Z) : string :=
  if source_value =? VehicleStopSource_value SourceNone then "none"
  else if source_value =? VehicleStopSource_value DriverPage then
    if (reason_value =? VehicleStopReason_value VcuHandshakeDisconnect) ||
       (reason_value =? VehicleStopReason_value DriverDisconnect)
    then "page_disconnect" else "page_request"
  else if source_value =? VehicleStopSource_value Session then "session_loss"
  else if source_value =? VehicleStopSource_value Watchdog then "watchdog"
  else if source_value =? VehicleStopSource_value SoftwareFault then "software_fault"
  else if source_value =? VehicleStopSource_value PhysicalEmergency then "physical_estop"
  else "unknown".

(** The name of a [VehicleStopReason]. *)
Definition VehicleStopReason_name (reason : VehicleStopReason) : string :=
  match reason with
  | ReasonNone => "none"
  | OperatorEstop => "operator_estop"
  | VcuHandshakeDisconnect => "vcu_handshake_disconnect"
  | DriverDisconnect => "driver_disconnect"
  | SessionLost => "session_lost"
  | ControlApplyTimeout => "control_apply_timeout"
  | OuterControlTimeout => "outer_control_timeout"
  | FeedbackTimeout => "feedback_timeout"
  | ControlApplyFailed => "control_apply_failed"
  | ChassisControlFault => "chassis_control_fault"
  | CanReceiveFailed => "can_receive_failed"
  | CanSendFailed => "can_send_failed"
  | IoThreadException => "io_thread_exception"
  | HardOverspeed => "hard_overspeed"
  | OppositeDirectionMotion => "opposite_direction_motion"
  | ArmingMotion => "arming_motion"
  | ControlCommandInvalid => "control_command_invalid"
  | PhysicalEmergencySwitch => "physical_emergency_switch"
  | HandshakeRevoked => "handshake_revoked"
  | CriticalCameraFailed => "critical_camera_failed"
  | MediaPipelineFailed => "media_pipeline_failed"
  | VcuStateFault => "vcu_state_fault"
  | SessionProfileRequired => "session_profile_required"
  | CanFeedbackMissing => "can_feedback_missing"
  | AdapterSafetyStatusUnavailable => "adapter_safety_status_unavailable"
  | LegacyUnspecified => "legacy_unspecified"
  end.

Definition all_stop_reasons : list VehicleStopReason :=
  [ReasonNone; OperatorEstop; VcuHandshakeDisconnect; DriverDisconnect; SessionLost;
   ControlApplyTimeout; OuterControlTimeout; FeedbackTimeout; ControlApplyFailed;
   ChassisControlFault; CanReceiveFailed; CanSendFailed; IoThreadException; HardOverspeed;
   OppositeDirectionMotion; ArmingMotion; ControlCommandInvalid; PhysicalEmergencySwitch;
   HandshakeRevoked; CriticalCameraFailed; MediaPipelineFailed; VcuStateFault;
   SessionProfileRequired; CanFeedbackMissing; AdapterSafetyStatusUnavailable;
   LegacyUnspecified].

(** The [switch] on the raw value of a [VehicleStopReason]. *)
Definition bridge_stop_reason (value : Z) : string :=
  match List.find (fun reason => VehicleStopReason_value reason =? value) all_stop_reasons with
  | Some reason => VehicleStopReason_name reason
  | None => "unknown"
  end.

Definition kStates : list string :=
  ["standby"; "initial"; "wait_parallel_handshake"; "wait_parking_brake_released"; "wait_gear";
   "wait_actuator_modes"; "ready"; "disarm_torque"; "disarm_stop"; "disarm_neutral";
   "disarm_parking_brake"; "disarm_manual"; "disarmed"; "fault"].

Definition bridge_handshake_state (state : Z) : string :=
  if (state <? 0) || (Z.of_nat (length kStates) <=? state) then "unknown"
  else nth (Z.to_nat state) kStates "unknown".

(** ** Feedback, telemetry and status *)

Record VehicleCanFeedback := mkVehicleCanFeedback {
  cf_supported : bool;
  cf_feedback_fresh : bool;
  cf_max_feedback_age_ms : Z;
  cf_speed_mps : double;
  cf_speed_valid : bool;
  cf_gear : Z;
  cf_gear_valid : bool;
  cf_emergency_switch : Z;
  cf_driver_gear_request : Z;
  cf_driver_gear_request_valid : bool;
  cf_handshake_status : Z;
  cf_handshake_valid : bool;
  cf_vmc_fault_code : Z;
  cf_vmc_fault_code_valid : bool;
  cf_parking_brake_switch : Z;
  cf_parking_brake_switch_valid : bool;
  cf_brake_pedal_switch : Z;
  cf_brake_pedal_switch_valid : bool;
  cf_parking_brake_status : list Z;
  cf_parking_brake_valid : list bool;
  cf_motor_mode : list Z;
  cf_motor_mode_valid : list bool;
  cf_motor_torque_nm : list double;
  cf_motor_torque_valid : list bool;
  cf_motor_speed_rpm : list double;
  cf_motor_speed_valid : list bool;
  cf_steering_mode : list Z;
  cf_steering_valid : list bool;
  cf_steering_angle_deg : list double;
  cf_brake_mode : list Z;
  cf_brake_valid : list bool;
  cf_brake_pressure_bar : list double;
}.

Definition VehicleCanFeedback_default : VehicleCanFeedback :=
  let zeros n := repeat 0 n in
  let falses n := repeat false n in
  let reals n := repeat d_zero n in
  mkVehicleCanFeedback false false (-1) d_zero false 0 false 0 0 false 0 false 0 false 0 false
    0 false (zeros 4%nat) (falses 4%nat) (zeros 8%nat) (falses 8%nat) (reals 8%nat) (falses 8%nat)
    (reals 8%nat) (falses 8%nat) (zeros 4%nat) (falses 4%nat) (reals 4%nat) (zeros 8%nat)
    (falses 8%nat) (reals 8%nat).

Record VehicleTelemetry := mkVehicleTelemetry {
  tel_speed_mps : double;
  tel_gear : string;
  tel_steering_feedback : double;
  tel_throttle_feedback : double;
  tel_brake_feedback : double;
  tel_estop : bool;
  tel_stop_source : string;
  tel_stop_reason : string;
  tel_stop_sequence : Z;
  tel_can_feedback : VehicleCanFeedback;
}.

#[global] Instance eta_VehicleTelemetry : Settable VehicleTelemetry :=
  fields! mkVehicleTelemetry
    <tel_speed_mps; tel_gear; tel_steering_feedback; tel_throttle_feedback; tel_brake_feedback;
     tel_estop; tel_stop_source; tel_stop_reason; tel_stop_sequence; tel_can_feedback>.

Definition VehicleTelemetry_default : VehicleTelemetry :=
  mkVehicleTelemetry d_zero "N" d_zero d_zero d_zero false "none" "none" 0
    VehicleCanFeedback_default.

Record VehicleAdapterStatus := mkVehicleAdapterStatus {
  ast_adapter_type : string;
  ast_opened : bool;
  ast_healthy : bool;
  ast_can_interface : string;
  ast_library_path : string;
  ast_applied_command_count : Z;
  ast_safe_stop_count : Z;
  ast_last_error : string;
  ast_feedback_ready : bool;
  ast_can_bitrate : Z;
  ast_can_tx_queue_length : Z;
}.

Record VcuHandshakeStatus := mkVcuHandshakeStatus {
  vh_supported : bool;
  vh_state : string;
  vh_requested : bool;
  vh_ready : bool;
  vh_disarming : bool;
  vh_parking_ready : bool;
  vh_driver_gear_request : Z;
  vh_driver_gear_request_valid : bool;
  vh_handshake_status : Z;
  vh_handshake_valid : bool;
  vh_handshake_revoked : bool;
  vh_revoked_handshake_status : Z;
  vh_vmc_fault_code : Z;
  vh_vmc_fault_code_valid : bool;
  vh_parking_brake_switch : Z;
  vh_parking_brake_switch_valid : bool;
  vh_brake_pedal_switch : Z;
  vh_brake_pedal_switch_valid : bool;
  vh_epb_status : list Z;
  vh_epb_valid : list bool;
  vh_speed_mps : double;
  vh_speed_valid : bool;
}.

#[global] Instance eta_VcuHandshakeStatus : Settable VcuHandshakeStatus :=
  fields! mkVcuHandshakeStatus
    <vh_supported; vh_state; vh_requested; vh_ready; vh_disarming; vh_parking_ready;
     vh_driver_gear_request; vh_driver_gear_request_valid; vh_handshake_status;
     vh_handshake_valid; vh_handshake_revoked; vh_revoked_handshake_status; vh_vmc_fault_code;
     vh_vmc_fault_code_valid; vh_parking_brake_switch; vh_parking_brake_switch_valid;
     vh_brake_pedal_switch; vh_brake_pedal_switch_valid; vh_epb_status; vh_epb_valid;
     vh_speed_mps; vh_speed_valid>.

Definition VcuHandshakeStatus_default : VcuHandshakeStatus :=
  mkVcuHandshakeStatus false "unsupported" false false false false 0 false 0 false false 0 0 false
    0 false 0 false (repeat 0 4%nat) (repeat false 4%nat) d_zero false.

Section to_json.
Context {J : JsonApi}.

Definition j_ints (zs : list Z) : json := j_array (map j_int zs).
Definition j_bools (bs : list bool) : json := j_array (map j_bool bs).
Definition j_doubles (ds : list double) : json := j_array (map j_double ds).

Definition VehicleAdapterStatus_to_json (s : VehicleAdapterStatus) : json :=
  let value := j_object
    [("adapter_type", j_string (ast_adapter_type s));
     ("opened", j_bool (ast_opened s));
     ("healthy", j_bool (ast_healthy s));
     ("applied_command_count", j_uint (ast_applied_command_count s));
     ("safe_stop_count", j_uint (ast_safe_stop_count s));
     ("feedback_ready", j_bool (ast_feedback_ready s))] in
  let set_if b k v value := if (b : bool) then j_set k v value else value in
  let value := set_if (negb (string_empty (ast_can_interface s))) "can_interface"
                 (j_string (ast_can_interface s)) value in
  let value := set_if (negb (string_empty (ast_library_path s))) "library_path"
                 (j_string (ast_library_path s)) value in
  let value := set_if (negb (string_empty (ast_last_error s))) "last_error"
                 (j_string (ast_last_error s)) value in
  let value := set_if (0 <? ast_can_bitrate s) "can_bitrate" (j_int (ast_can_bitrate s)) value in
  set_if (0 <? ast_can_tx_queue_length s) "can_tx_queue_length"
    (j_int (ast_can_tx_queue_length s)) value.

Definition VehicleCanFeedback_to_json (f : VehicleCanFeedback) : json :=
  j_object
    [("supported", j_bool (cf_supported f));
     ("feedback_fresh", j_bool (cf_feedback_fresh f));
     ("max_feedback_age_ms", j_int (cf_max_feedback_age_ms f));
     ("speed_mps", j_double (cf_speed_mps f));
     ("speed_valid", j_bool (cf_speed_valid f));
     ("gear", j_int (cf_gear f));
     ("gear_valid", j_bool (cf_gear_valid f));
     ("emergency_switch", j_int (cf_emergency_switch f));
     ("driver_gear_request", j_int (cf_driver_gear_request f));
     ("driver_gear_request_valid", j_bool (cf_driver_gear_request_valid f));
     ("handshake_status", j_int (cf_handshake_status f));
     ("handshake_valid", j_bool (cf_handshake_valid f));
     ("vmc_fault_code", j_int (cf_vmc_fault_code f));
     ("vmc_fault_code_valid", j_bool (cf_vmc_fault_code_valid f));
     ("parking_brake_switch", j_int (cf_parking_brake_switch f));
     ("parking_brake_switch_valid", j_bool (cf_parking_brake_switch_valid f));
     ("brake_pedal_switch", j_int (cf_brake_pedal_switch f));
     ("brake_pedal_switch_valid", j_bool (cf_brake_pedal_switch_valid f));
     ("parking_brake_status", j_ints (cf_parking_brake_status f));
     ("parking_brake_valid", j_bools (cf_parking_brake_valid f));
     ("motor_mode", j_ints (cf_motor_mode f));
     ("motor_mode_valid", j_bools (cf_motor_mode_valid f));
     ("motor_torque_nm", j_doubles (cf_motor_torque_nm f));
     ("motor_torque_valid", j_bools (cf_motor_torque_valid f));
     ("motor_speed_rpm", j_doubles (cf_motor_speed_rpm f));
     ("motor_speed_valid", j_bools (cf_motor_speed_valid f));
     ("steering_mode", j_ints (cf_steering_mode f));
     ("steering_valid", j_bools (cf_steering_valid f));
     ("steering_angle_deg", j_doubles (cf_steering_angle_deg f));
     ("brake_mode", j_ints (cf_brake_mode f));
     ("brake_valid", j_bools (cf_brake_valid f));
     ("brake_pressure_bar", j_doubles (cf_brake_pressure_bar f))].

Definition VcuHandshakeStatus_to_json (s : VcuHandshakeStatus) : json :=
  j_object
    [("supported", j_bool (vh_supported s));
     ("state", j_string (vh_state s));
     ("requested", j_bool (vh_requested s));
     ("ready", j_bool (vh_ready s));
     ("disarming", j_bool (vh_disarming s));
     ("parking_ready", j_bool (vh_parking_ready s));
     ("driver_gear_request", j_int (vh_driver_gear_request s));
     ("driver_gear_request_valid", j_bool (vh_driver_gear_request_valid s));
     ("handshake_status", j_int (vh_handshake_status s));
     ("handshake_valid", j_bool (vh_handshake_valid s));
     ("handshake_revoked", j_bool (vh_handshake_revoked s));
     ("revoked_handshake_status", j_int (vh_revoked_handshake_status s));
     ("vmc_fault_code", j_int (vh_vmc_fault_code s));
     ("vmc_fault_code_valid", j_bool (vh_vmc_fault_code_valid s));
     ("parking_brake_switch", j_int (vh_parking_brake_switch s));
     ("parking_brake_switch_valid", j_bool (vh_parking_brake_switch_valid s));
     ("brake_pedal_switch", j_int (vh_brake_pedal_switch s));
     ("brake_pedal_switch_valid", j_bool (vh_brake_pedal_switch_valid s));
     ("epb_status", j_ints (vh_epb_status s));
     ("epb_valid", j_bools (vh_epb_valid s));
     ("speed_mps", j_double (vh_speed_mps s));
     ("speed_valid", j_bool (vh_speed_valid s))].
End to_json.

(** ** The interface *)

Class VehicleAdapter (A : Type) : Type := {
  va_open : M A unit;
  va_close : M A unit;
  va_configure_runtime_control_profile : SessionControlProfile -> Z -> M A Z;
  va_clear_runtime_control_profile : M A unit;
  va_session_motor_torque_limit_nm : M A double;
  va_session_brake_pressure_limit_bar : M A double;
  va_apply_control : ControlCommand -> M A unit;
  va_apply_safe_stop : ControlOutput -> VehicleStopContext -> M A unit;
  va_poll_feedback : M A bool;
  va_request_vcu_handshake : M A bool;
  va_disconnect_vcu_handshake : M A bool;
  va_feedback_ready : M A bool;
  va_vcu_handshake_status : M A VcuHandshakeStatus;
  va_read_telemetry : M A VehicleTelemetry;
  va_status : M A VehicleAdapterStatus;
}.

(** ** The mock adapter *)

Record MockVehicleAdapter := mkMockVehicleAdapter {
  mock_opened : bool;
  mock_latest_output : option ControlOutput;
  mock_latest_stop_context : VehicleStopContext;
  mock_stop_sequence : Z;
  mock_applied_command_count : Z;
  mock_safe_stop_count : Z;
  mock_session_motor_torque_limit_nm : double;
  mock_session_brake_pressure_limit_bar : double;
  mock_runtime_control_profile_revision : Z;
}.

#[global] Instance eta_MockVehicleAdapter : Settable MockVehicleAdapter :=
  fields! mkMockVehicleAdapter
    <mock_opened; mock_latest_output; mock_latest_stop_context; mock_stop_sequence;
     mock_applied_command_count; mock_safe_stop_count; mock_session_motor_torque_limit_nm;
     mock_session_brake_pressure_limit_bar; mock_runtime_control_profile_revision>.

Definition VehicleStopContext_default : VehicleStopContext :=
  mkVehicleStopContext SourceNone ReasonNone.

Definition MockVehicleAdapter_new : MockVehicleAdapter :=
  mkMockVehicleAdapter false None VehicleStopContext_default 0 0 0 d_zero d_zero 0.

Definition mock_open : M MockVehicleAdapter unit := modify (fun s => s <| mock_opened := true |>).
Definition mock_close : M MockVehicleAdapter unit := modify (fun s => s <| mock_opened := false |>).

Definition mock_configure_runtime_control_profile (profile : SessionControlProfile)
    (profile_revision : Z) : M MockVehicleAdapter Z :=
  lift (SessionControlProfile_validate profile);;
  lift (throw_if (profile_revision =? 0) (InvalidArgument "profile_revision must be positive"));;
  modify (fun s =>
    s <| mock_session_motor_torque_limit_nm := prof_max_motor_torque_nm profile |>
      <| mock_session_brake_pressure_limit_bar := prof_max_brake_pressure_bar profile |>
      <| mock_runtime_control_profile_revision := profile_revision |>);;
  gets mock_runtime_control_profile_revision.

Definition mock_clear_runtime_control_profile : M MockVehicleAdapter unit :=
  modify (fun s =>
    s <| mock_session_motor_torque_limit_nm := d_zero |>
      <| mock_session_brake_pressure_limit_bar := d_zero |>
      <| mock_runtime_control_profile_revision := 0 |>).

Definition mock_require_open : M MockVehicleAdapter unit :=
  opened ← gets mock_opened;
  lift (throw_if (negb opened) (RuntimeError "mock vehicle adapter is not open")).

Definition mock_apply_control (command : ControlCommand) : M MockVehicleAdapter unit :=
  mock_require_open;;
  modify (fun s =>
    s <| mock_latest_output :=
           Some (mkControlOutput (cmd_gear command) (cmd_steering command) (cmd_throttle command)
                   (cmd_brake command) (cmd_estop command) false) |>
      <| mock_applied_command_count ::= fun n => u64 (n + 1) |>).

Definition mock_apply_safe_stop (output : ControlOutput) (context : VehicleStopContext) :
    M MockVehicleAdapter unit :=
  mock_require_open;;
  latest ← gets mock_latest_output;
  let stop_was_active := match latest with Some o => out_estop o | None => false end in
  let stop_is_active := out_estop output in
  modify (fun s => s <| mock_latest_output := Some output |>);;
  (if stop_is_active && negb stop_was_active then
     modify (fun s => s <| mock_latest_stop_context := context |>
                        <| mock_stop_sequence ::= fun n => u64 (n + 1) |>)
   else if negb stop_is_active then
     modify (fun s => s <| mock_latest_stop_context := VehicleStopContext_default |>)
   else mret tt);;
  modify (fun s => s <| mock_safe_stop_count ::= fun n => u64 (n + 1) |>).

Definition mock_read_telemetry : M MockVehicleAdapter VehicleTelemetry :=
  s ← get;
  match mock_latest_output s with
  | None => mret VehicleTelemetry_default
  | Some latest =>
      let telemetry :=
        VehicleTelemetry_default
          <| tel_speed_mps := out_throttle latest ⊗ d_lit 2 0 |>
          <| tel_gear := out_gear latest |>
          <| tel_steering_feedback := out_steering latest |>
          <| tel_throttle_feedback := out_throttle latest |>
          <| tel_brake_feedback := out_brake latest |>
          <| tel_estop := out_estop latest |> in
      let context := mock_latest_stop_context s in
      mret (if out_estop latest
            then telemetry
                   <| tel_stop_source :=
                        bridge_stop_source (VehicleStopSource_value (stop_source context))
                          (VehicleStopReason_value (stop_reason context)) |>
                   <| tel_stop_reason :=
                        bridge_stop_reason (VehicleStopReason_value (stop_reason context)) |>
                   <| tel_stop_sequence := mock_stop_sequence s |>
            else telemetry)
  end.

Definition mock_status : M MockVehicleAdapter VehicleAdapterStatus :=
  gets (fun s =>
    mkVehicleAdapterStatus "mock" (mock_opened s) true "" "" (mock_applied_command_count s)
      (mock_safe_stop_count s) "" (mock_opened s) 0 0).

#[global] Instance mock_adapter : VehicleAdapter MockVehicleAdapter := {|
  va_open := mock_open;
  va_close := mock_close;
  va_configure_runtime_control_profile := mock_configure_runtime_control_profile;
  va_clear_runtime_control_profile := mock_clear_runtime_control_profile;
  va_session_motor_torque_limit_nm := gets mock_session_motor_torque_limit_nm;
  va_session_brake_pressure_limit_bar := gets mock_session_brake_pressure_limit_bar;
  va_apply_control := mock_apply_control;
  va_apply_safe_stop := mock_apply_safe_stop;
  va_poll_feedback := gets mock_opened;
  va_request_vcu_handshake := mret false;
  va_disconnect_vcu_handshake := mret false;
  va_feedback_ready := gets mock_opened;
  va_vcu_handshake_status := mret VcuHandshakeStatus_default;
  va_read_telemetry := mock_read_telemetry;
  va_status := mock_status;
|}.

(** ** What a command asks of the chassis *)

Definition dynamic_adapter_target_speed_mps (command : ControlCommand) (max_speed_mps : double) :
    result double :=
  ControlCommand_validate command;;
  throw_if (negb (d_isfinite max_speed_mps) || (max_speed_mps <ᵈ d_zero))
    (InvalidArgument "max_speed_mps must be finite and non-negative");;
  let driving_gear := String.eqb (cmd_gear command) "D" || String.eqb (cmd_gear command) "R" in
  mret (if driving_gear && (cmd_brake command =ᵈ d_zero)
        then d_clamp (cmd_throttle command) d_zero d_one ⊗ max_speed_mps
        else d_zero).

Definition dynamic_adapter_target_acceleration (command : ControlCommand) (traction_ceiling
    session_max_brake_pressure_bar vehicle_max_brake_pressure_bar : double) : result double :=
  ControlCommand_validate command;;
  require_finite_range traction_ceiling d_zero d_one "traction_ceiling";;
  brake_ratio ← vehicle_normalized_brake_request (cmd_brake command)
                  session_max_brake_pressure_bar vehicle_max_brake_pressure_bar;
  mret (if cmd_brake command >ᵈ d_zero then d_neg brake_ratio
        else if cmd_throttle command >ᵈ d_zero then traction_ceiling else d_zero).

(** ** The chassis bridge *)

(** The C structures that cross the boundary. *)
Record BridgeTelemetry := mkBridgeTelemetry {
  bt_speed_mps : double;
  bt_gear : Z;
  bt_steering_feedback : double;
  bt_throttle_feedback : double;
  bt_brake_feedback : double;
  bt_estop : Z;
  bt_stop_source : Z;
  bt_stop_reason : Z;
  bt_stop_sequence : Z;
}.

Record BridgeStopContextV1 := mkBridgeStopContextV1 {
  bsc_struct_size : Z;
  bsc_stop_source : Z;
  bsc_stop_reason : Z;
  bsc_reserved : Z;
}.

Record BridgeOpenConfigV4 := mkBridgeOpenConfigV4 {
  boc_struct_size : Z;
  boc_can_interface : string;
  boc_full_scale_motor_torque_nm : double;
  boc_hard_speed_limit_mps : double;
  boc_control_timeout_ms : Z;
  boc_speed_feedback_timeout_ms : Z;
  boc_speed_pid_kp : double;
  boc_speed_pid_ki : double;
  boc_speed_pid_kd : double;
  boc_speed_pid_derivative_filter_tau_ms : double;
  boc_speed_pid_max_dt_ms : Z;
  boc_hard_overspeed_margin_mps : double;
  boc_max_ordinary_brake_pressure_bar : double;
  boc_motor_torque_rise_rate_nm_per_s : double;
}.

Record BridgeApplyResultV1 := mkBridgeApplyResultV1 {
  bar_struct_size : Z;
  bar_result_code : Z;
  bar_issue_id : Z;
  bar_reserved : Z;
}.

Record BridgeRuntimeControlConfigV3 := mkBridgeRuntimeControlConfigV3 {
  brc_struct_size : Z;
  brc_profile_version : Z;
  brc_profile_revision : Z;
  brc_target_speed_limit_mps : double;
  brc_max_motor_torque_nm : double;
  brc_max_brake_pressure_bar : double;
  brc_max_steering_request : double;
  brc_speed_pid_kp : double;
  brc_speed_pid_ki : double;
  brc_speed_pid_kd : double;
  brc_speed_pid_derivative_filter_tau_ms : double;
  brc_speed_pid_max_dt_ms : Z;
  brc_reserved : Z;
  brc_motor_torque_rise_rate_nm_per_s : double;
  brc_parking_idle_timeout_ms : Z;
  brc_parking_reserved : Z;
}.

Record BridgeRuntimeControlResultV1 := mkBridgeRuntimeControlResultV1 {
  brr_struct_size : Z;
  brr_result_code : Z;
  brr_issue_id : Z;
  brr_reserved : Z;
  brr_applied_revision : Z;
}.

Record BridgeHandshakeStatus := mkBridgeHandshakeStatus {
  bh_state : Z;
  bh_requested : Z;
  bh_ready : Z;
  bh_disarming : Z;
  bh_parking_ready : Z;
  bh_driver_gear_request : Z;
  bh_driver_gear_request_valid : Z;
  bh_handshake_status : Z;
  bh_handshake_valid : Z;
  bh_epb_status : list Z;
  bh_epb_valid : list Z;
  bh_speed_mps : double;
  bh_speed_valid : Z;
  bh_handshake_revoked : Z;
  bh_revoked_handshake_status : Z;
  bh_vmc_fault_code : Z;
  bh_vmc_fault_code_valid : Z;
  bh_parking_brake_switch : Z;
  bh_parking_brake_switch_valid : Z;
  bh_brake_pedal_switch : Z;
  bh_brake_pedal_switch_valid : Z;
}.

Record BridgeCanFeedbackV1 := mkBridgeCanFeedbackV1 {
  bcf_feedback_fresh : Z;
  bcf_max_feedback_age_ms : Z;
  bcf_speed_mps : double;
  bcf_speed_valid : Z;
  bcf_gear : Z;
  bcf_gear_valid : Z;
  bcf_emergency_switch : Z;
  bcf_driver_gear_request : Z;
  bcf_driver_gear_request_valid : Z;
  bcf_handshake_status : Z;
  bcf_handshake_valid : Z;
  bcf_epb_status : list Z;
  bcf_epb_valid : list Z;
  bcf_motor_mode : list Z;
  bcf_motor_mode_valid : list Z;
  bcf_motor_torque_nm : list double;
  bcf_motor_torque_valid : list Z;
  bcf_motor_speed_rpm : list double;
  bcf_motor_speed_valid : list Z;
  bcf_steering_mode : list Z;
  bcf_steering_valid : list Z;
  bcf_steering_angle_deg : list double;
  bcf_brake_mode : list Z;
  bcf_brake_valid : list Z;
  bcf_brake_pressure_bar : list double;
  bcf_vmc_fault_code : Z;
  bcf_vmc_fault_code_valid : Z;
  bcf_parking_brake_switch : Z;
  bcf_parking_brake_switch_valid : Z;
  bcf_brake_pedal_switch : Z;
  bcf_brake_pedal_switch_valid : Z;
}.

(** [sizeof] of the versioned structures, on the vehicle's 64-bit Linux. *)
Definition sizeof_BridgeOpenConfigV2 : Z := 88.
Definition sizeof_BridgeOpenConfigV3 : Z := sizeof_BridgeOpenConfigV2 + 8.
Definition sizeof_BridgeOpenConfigV4 : Z := sizeof_BridgeOpenConfigV3 + 8.
Definition sizeof_BridgeApplyResultV1 : Z := 16.
Definition sizeof_BridgeRuntimeControlConfigV1 : Z := 88.
Definition sizeof_BridgeRuntimeControlConfigV2 : Z := 96.
Definition sizeof_BridgeRuntimeControlConfigV3 : Z := 104.
Definition sizeof_BridgeRuntimeControlResultV1 : Z := 24.
Definition sizeof_BridgeStopContextV1 : Z := 16.

(** The functions of the loaded library, by what they return and write through
    their pointers; the dynamic loader; the SocketCAN system calls.  [B] is the
    state of everything behind them. *)
Class ChassisPlatform (B : Type) : Type := {
  (* the dynamic loader *)
  dl_open : string -> M B unit;
  dl_symbol : string -> M B unit;   (* load_symbol: throws when it is missing *)
  dl_query : string -> M B Z;       (* load_symbol, then a call without arguments *)
  dl_unload : B -> B;
  (* SocketCAN *)
  sc_control_socket : M B unit;
  sc_interface_index : string -> M B Z;
  sc_interface_is_up : string -> M B bool;
  sc_bitrate : Z -> string -> M B Z;
  sc_tx_queue_length : string -> string -> M B Z;  (* the second string names the query *)
  sc_set_tx_queue_length : string -> Z -> M B unit;
  (* the bridge *)
  br_open_v4 : BridgeOpenConfigV4 -> B -> Z * B;
  br_apply_state : Z -> double -> double -> list double -> B -> Z * B;
  br_apply_state_v3 : Z -> double -> double -> list double -> Z -> B ->
                      Z * BridgeApplyResultV1 * B;
  br_configure_runtime_control_v3 : BridgeRuntimeControlConfigV3 -> B ->
                                    Z * BridgeRuntimeControlResultV1 * B;
  br_clear_runtime_control_v1 : B -> Z * BridgeRuntimeControlResultV1 * B;
  br_emergency_stop : B -> Z * B;
  br_request_parallel_handshake : B -> Z * B;
  br_disconnect_parallel_handshake : B -> Z * B;
  br_poll_feedback : B -> Z * B;
  br_read_handshake_status : B -> Z * BridgeHandshakeStatus * B;
  br_read_telemetry : B -> Z * BridgeTelemetry * B;
  br_read_can_feedback_v1 : B -> Z * BridgeCanFeedbackV1 * B;
  br_set_stop_context_v1 : BridgeStopContextV1 -> B -> Z * B;
  br_close : B -> Z * B;
}.

Section platform.
Context {B : Type} {P : ChassisPlatform B}.

(** The symbols the library must export beside the size queries. *)
Definition abi_symbols : list string :=
  ["mine_teleop_chassis_open_v1"; "mine_teleop_chassis_open_v2"; "mine_teleop_chassis_open_v3";
   "mine_teleop_chassis_open_v4"; "mine_teleop_chassis_apply_state_v2";
   "mine_teleop_chassis_configure_runtime_control_v1";
   "mine_teleop_chassis_configure_runtime_control_v2";
   "mine_teleop_chassis_clear_runtime_control_v1"; "mine_teleop_chassis_set_stop_context_v1";
   "mine_teleop_chassis_apply_state_v3"; "mine_teleop_chassis_configure_runtime_control_v3"].

Fixpoint load_symbols (names : list string) : M B unit :=
  match names with
  | [] => mret tt
  | name :: names => dl_symbol name;; load_symbols names
  end.

Definition validate_chassis_bridge_abi_handle : M B unit :=
  version ← dl_query "mine_teleop_chassis_abi_version";
  config_size ← dl_query "mine_teleop_chassis_open_config_v4_size";
  legacy_v3 ← dl_query "mine_teleop_chassis_open_config_v3_size";
  legacy_v2 ← dl_query "mine_teleop_chassis_open_config_v2_size";
  runtime_v1 ← dl_query "mine_teleop_chassis_runtime_control_config_v1_size";
  runtime_v2 ← dl_query "mine_teleop_chassis_runtime_control_config_v2_size";
  stop_context ← dl_query "mine_teleop_chassis_stop_context_v1_size";
  load_symbols abi_symbols;;
  runtime_v3 ← dl_query "mine_teleop_chassis_runtime_control_config_v3_size";
  lift (throw_if (negb (runtime_v3 =? sizeof_BridgeRuntimeControlConfigV3))
          (RuntimeError "chassis runtime control V3 ABI size mismatch"));;
  lift (throw_if
    (negb (version =? 6) || negb (config_size =? sizeof_BridgeOpenConfigV4) ||
     negb (legacy_v3 =? sizeof_BridgeOpenConfigV3) ||
     negb (legacy_v2 =? sizeof_BridgeOpenConfigV2) ||
     negb (runtime_v1 =? sizeof_BridgeRuntimeControlConfigV1) ||
     negb (runtime_v2 =? sizeof_BridgeRuntimeControlConfigV2) ||
     negb (stop_context =? sizeof_BridgeStopContextV1))
    (RuntimeError
       ("chassis bridge ABI mismatch: expected version 6 and V4 config size " +:+
        to_string_Z sizeof_BridgeOpenConfigV4 +:+ ", got version " +:+ to_string_Z version +:+
        " and size " +:+ to_string_Z config_size +:+ "; legacy V3 size expected " +:+
        to_string_Z sizeof_BridgeOpenConfigV3 +:+ ", got " +:+ to_string_Z legacy_v3 +:+
        "; legacy V2 size expected " +:+ to_string_Z sizeof_BridgeOpenConfigV2 +:+ ", got " +:+
        to_string_Z legacy_v2 +:+ "; runtime control V1 size expected " +:+
        to_string_Z sizeof_BridgeRuntimeControlConfigV1 +:+ ", got " +:+
        to_string_Z runtime_v1 +:+ "; runtime control V2 size expected " +:+
        to_string_Z sizeof_BridgeRuntimeControlConfigV2 +:+ ", got " +:+
        to_string_Z runtime_v2 +:+ "; stop context V1 size expected " +:+
        to_string_Z sizeof_BridgeStopContextV1 +:+ ", got " +:+ to_string_Z stop_context))).

Definition validate_chassis_bridge_abi (library_path : string) : M B unit :=
  lift (throw_if (string_empty library_path)
          (InvalidArgument "chassis bridge library path is empty"));;
  dl_open library_path;;
  try_catch validate_chassis_bridge_abi_handle (fun e => modify dl_unload;; throw e);;
  modify dl_unload.

Definition prepare_socketcan (interface : string) (configured_bitrate
    configured_tx_queue_length : Z) : M B unit :=
  lift (throw_if (string_empty interface || (16 <=? Z.of_nat (String.length interface)))
          (RuntimeError "configured SocketCAN interface name is invalid"));;
  sc_control_socket;;
  index ← sc_interface_index interface;
  up ← sc_interface_is_up interface;
  lift (throw_if (negb up)
    (RuntimeError ("configured SocketCAN interface " +:+ interface +:+
       " is down; bring it up with bitrate " +:+ to_string_Z configured_bitrate +:+
       " before starting the vehicle runtime")));;
  actual_bitrate ← sc_bitrate index interface;
  lift (throw_if (negb (actual_bitrate =? configured_bitrate))
    (RuntimeError ("SocketCAN bitrate mismatch for interface " +:+ interface +:+
       ": configured " +:+ to_string_Z configured_bitrate +:+ ", actual " +:+
       to_string_Z actual_bitrate)));;
  qlen ← sc_tx_queue_length interface "tx queue query";
  if negb (qlen =? configured_tx_queue_length) then
    sc_set_tx_queue_length interface configured_tx_queue_length;;
    qlen ← sc_tx_queue_length interface "tx queue verification";
    lift (throw_if (negb (qlen =? configured_tx_queue_length))
      (RuntimeError ("SocketCAN tx queue verification failed for interface " +:+ interface +:+
         ": configured " +:+ to_string_Z configured_tx_queue_length +:+ ", actual " +:+
         to_string_Z qlen)))
  else mret tt.
End platform.

(** ** The adapter of the bridge *)

Record DynamicLibraryVehicleAdapter {B : Type} := mkDynamicLibraryVehicleAdapter {
  dyn_library_path : string;
  dyn_can_interface : string;
  dyn_can_bitrate : Z;
  dyn_can_tx_queue_length : Z;
  dyn_max_speed_mps : double;
  dyn_full_scale_motor_torque_nm : double;
  dyn_motor_torque_rise_rate_nm_per_s : double;
  dyn_max_ordinary_brake_pressure_bar : double;
  dyn_session_motor_torque_limit_nm : double;
  dyn_session_brake_pressure_limit_bar : double;
  dyn_runtime_control_profile_revision : Z;
  dyn_control_timeout_ms : Z;
  dyn_speed_feedback_timeout_ms : Z;
  dyn_speed_pid_kp : double;
  dyn_speed_pid_ki : double;
  dyn_speed_pid_kd : double;
  dyn_speed_pid_derivative_filter_tau_ms : double;
  dyn_speed_pid_max_dt_ms : Z;
  dyn_hard_overspeed_margin_mps : double;
  dyn_loaded : bool;  (* handle_ != nullptr; from then on every function pointer is set *)
  dyn_opened : bool;
  dyn_feedback_ready : bool;
  dyn_applied_command_count : Z;
  dyn_safe_stop_count : Z;
  dyn_last_error : string;
  dyn_bridge : B;     (* the loaded library and the devices behind it *)
}.
Arguments DynamicLibraryVehicleAdapter B : clear implicits.
Arguments mkDynamicLibraryVehicleAdapter {B}.

#[global] Instance eta_DynamicLibraryVehicleAdapter {B} :
  Settable (DynamicLibraryVehicleAdapter B) :=
  fields! mkDynamicLibraryVehicleAdapter
    <dyn_library_path; dyn_can_interface; dyn_can_bitrate; dyn_can_tx_queue_length;
     dyn_max_speed_mps; dyn_full_scale_motor_torque_nm; dyn_motor_torque_rise_rate_nm_per_s;
     dyn_max_ordinary_brake_pressure_bar; dyn_session_motor_torque_limit_nm;
     dyn_session_brake_pressure_limit_bar; dyn_runtime_control_profile_revision;
     dyn_control_timeout_ms; dyn_speed_feedback_timeout_ms; dyn_speed_pid_kp; dyn_speed_pid_ki;
     dyn_speed_pid_kd; dyn_speed_pid_derivative_filter_tau_ms; dyn_speed_pid_max_dt_ms;
     dyn_hard_overspeed_margin_mps; dyn_loaded; dyn_opened; dyn_feedback_ready;
     dyn_applied_command_count; dyn_safe_stop_count; dyn_last_error; dyn_bridge>.

Section dynamic.
Context {B : Type} {P : ChassisPlatform B}.
Notation Dyn := (DynamicLibraryVehicleAdapter B).

(** The constructor's condition. *)
Definition dynamic_configuration_incomplete (s : Dyn) : bool :=
  string_empty (dyn_library_path s) || string_empty (dyn_can_interface s) ||
  (dyn_can_bitrate s <=? 0) || (dyn_can_tx_queue_length s <? 16) ||
  out_of_range (dyn_max_speed_mps s) d_zero kChassisControlMaxTargetSpeedMps ||
  out_of_range (dyn_full_scale_motor_torque_nm s) d_zero kMaxFullScaleMotorTorqueNm ||
  out_of_range (dyn_motor_torque_rise_rate_nm_per_s s) d_zero
    kMaxMotorTorqueRiseRateNmPerSecond ||
  out_of_range (dyn_max_ordinary_brake_pressure_bar s) d_zero kMaxOrdinaryBrakePressureBar ||
  (dyn_control_timeout_ms s <? 20) || (60000 <? dyn_control_timeout_ms s) ||
  (dyn_speed_feedback_timeout_ms s <? kMinSpeedFeedbackTimeoutMs) ||
  (kMaxSpeedFeedbackTimeoutMs <? dyn_speed_feedback_timeout_ms s) ||
  (dyn_control_timeout_ms s <? dyn_speed_feedback_timeout_ms s) ||
  out_of_positive_range (dyn_speed_pid_kp s) d_zero kMaxSpeedPidGain ||
  out_of_range (dyn_speed_pid_ki s) d_zero kMaxSpeedPidGain ||
  out_of_range (dyn_speed_pid_kd s) d_zero kMaxSpeedPidGain ||
  out_of_range (dyn_speed_pid_derivative_filter_tau_ms s) d_zero
    kMaxSpeedPidDerivativeFilterTauMs ||
  (dyn_speed_pid_max_dt_ms s <? kMinSpeedPidMaxDtMs) ||
  (kMaxSpeedPidMaxDtMs <? dyn_speed_pid_max_dt_ms s) ||
  out_of_positive_range (dyn_hard_overspeed_margin_mps s) d_zero
    (kMaxHardOverspeedMarginKph ⊘ d_3_6).

Definition DynamicLibraryVehicleAdapter_new (library_path can_interface : string)
    (can_bitrate can_tx_queue_length : Z)
    (max_speed_mps full_scale_motor_torque_nm motor_torque_rise_rate_nm_per_s
     max_ordinary_brake_pressure_bar : double) (control_timeout_ms speed_feedback_timeout_ms : Z)
    (kp ki kd tau : double) (max_dt_ms : Z) (hard_overspeed_margin_mps : double) (bridge : B) :
    result Dyn :=
  let s := mkDynamicLibraryVehicleAdapter library_path can_interface can_bitrate
    can_tx_queue_length max_speed_mps full_scale_motor_torque_nm
    motor_torque_rise_rate_nm_per_s max_ordinary_brake_pressure_bar d_zero d_zero 0
    control_timeout_ms speed_feedback_timeout_ms kp ki kd tau max_dt_ms
    hard_overspeed_margin_mps false false false 0 0 "" bridge in
  throw_if (dynamic_configuration_incomplete s)
    (InvalidArgument "dynamic adapter configuration is incomplete");;
  mret s.

(** A call into the library or the operating system. *)
Definition on_bridge {A} (m : M B A) : M Dyn A :=
  zoom dyn_bridge (fun b s => s <| dyn_bridge := b |>) m.

Definition call {A} (f : B -> A * B) : M B A := fun b => let '(a, b') := f b in (Ok a, b').

(** The symbols [ensure_loaded] binds. *)
Definition adapter_symbols : list string :=
  ["mine_teleop_chassis_open_v4"; "mine_teleop_chassis_apply_state";
   "mine_teleop_chassis_apply_state_v3"; "mine_teleop_chassis_configure_runtime_control_v3";
   "mine_teleop_chassis_clear_runtime_control_v1"; "mine_teleop_chassis_emergency_stop";
   "mine_teleop_chassis_request_parallel_handshake";
   "mine_teleop_chassis_disconnect_parallel_handshake"; "mine_teleop_chassis_poll_feedback";
   "mine_teleop_chassis_read_handshake_status"; "mine_teleop_chassis_read_telemetry";
   "mine_teleop_chassis_read_can_feedback_v1"; "mine_teleop_chassis_set_stop_context_v1";
   "mine_teleop_chassis_close"].

Definition ensure_loaded : M Dyn unit :=
  loaded ← gets dyn_loaded;
  if (loaded : bool) then mret tt
  else
    path ← gets dyn_library_path;
    on_bridge (dl_open path);;
    modify (fun s => s <| dyn_loaded := true |>);;
    try_catch
      (on_bridge (validate_chassis_bridge_abi_handle;; load_symbols adapter_symbols))
      (fun e =>
         on_bridge (modify dl_unload);;
         modify (fun s => s <| dyn_loaded := false |>);;
         throw e).

Definition check_result (result : Z) (operation : string) : M Dyn unit :=
  if result =? 0 then modify (fun s => s <| dyn_last_error := "" |>)
  else
    let error := operation +:+ " failed with code " +:+ to_string_Z result in
    modify (fun s => s <| dyn_last_error := error |>);;
    throw (RuntimeError error).

Definition dynamic_open_config (s : Dyn) : BridgeOpenConfigV4 :=
  mkBridgeOpenConfigV4 sizeof_BridgeOpenConfigV4 (dyn_can_interface s)
    (dyn_full_scale_motor_torque_nm s) (dyn_max_speed_mps s) (dyn_control_timeout_ms s)
    (dyn_speed_feedback_timeout_ms s) (dyn_speed_pid_kp s) (dyn_speed_pid_ki s)
    (dyn_speed_pid_kd s) (dyn_speed_pid_derivative_filter_tau_ms s)
    (dyn_speed_pid_max_dt_ms s) (dyn_hard_overspeed_margin_mps s)
    (dyn_max_ordinary_brake_pressure_bar s) (dyn_motor_torque_rise_rate_nm_per_s s).

Definition dynamic_open : M Dyn unit :=
  try_catch_std
    (ensure_loaded;;
     s ← get;
     on_bridge (prepare_socketcan (dyn_can_interface s) (dyn_can_bitrate s)
                  (dyn_can_tx_queue_length s));;
     result ← on_bridge (call (br_open_v4 (dynamic_open_config s)));
     check_result result "mine_teleop_chassis_open_v4";;
     modify (fun s => s <| dyn_opened := true |>))
    (fun error =>
       modify (fun s => s <| dyn_last_error := what error |>);;
       throw error).

Definition dynamic_close : M Dyn unit :=
  s ← get;
  if negb (dyn_opened s) || negb (dyn_loaded s) then mret tt
  else
    result ← on_bridge (call br_close);
    check_result result "mine_teleop_chassis_close";;
    modify (fun s => s <| dyn_opened := false |> <| dyn_feedback_ready := false |>).

(** The destructor. *)
Definition dynamic_destroy : M Dyn unit :=
  try_catch dynamic_close (fun _ => mret tt);;
  loaded ← gets dyn_loaded;
  when loaded (on_bridge (modify dl_unload)).

Definition require_opened : M Dyn unit :=
  opened ← gets dyn_opened;
  lift (throw_if (negb opened) (RuntimeError "dynamic vehicle adapter is not open")).

Definition runtime_control_config (profile : SessionControlProfile) (profile_revision : Z) :
    BridgeRuntimeControlConfigV3 :=
  mkBridgeRuntimeControlConfigV3 sizeof_BridgeRuntimeControlConfigV3
    (u32 (prof_profile_version profile)) profile_revision
    (prof_target_speed_kph profile ⊘ d_3_6) (prof_max_motor_torque_nm profile)
    (prof_max_brake_pressure_bar profile)
    (prof_max_steering_angle_deg profile ⊘ kChassisControlMaxSteeringAngleDeg)
    (prof_speed_pid_kp profile) (prof_speed_pid_ki profile) (prof_speed_pid_kd profile)
    (prof_speed_pid_derivative_filter_tau_ms profile) (prof_speed_pid_max_dt_ms profile) 0
    (prof_motor_torque_rise_rate_nm_per_s profile) (prof_parking_idle_timeout_ms profile) 0.

(** The structure the bridge wrote is not consistent with its return value. *)
Definition runtime_result_invalid (result_code expected_revision : Z)
    (result : BridgeRuntimeControlResultV1) : bool :=
  negb (brr_struct_size result =? sizeof_BridgeRuntimeControlResultV1) ||
  negb (brr_result_code result =? result_code) || negb (brr_reserved result =? 0) ||
  ((result_code =? 0) && (negb (brr_issue_id result =? 0) ||
                          negb (brr_applied_revision result =? expected_revision))).

Definition dynamic_configure_runtime_control_profile (profile : SessionControlProfile)
    (profile_revision : Z) : M Dyn Z :=
  require_opened;;
  lift (SessionControlProfile_validate profile);;
  s ← get;
  lift (throw_if
    ((profile_revision =? 0) ||
     (prof_target_speed_kph profile >ᵈ (dyn_max_speed_mps s ⊗ d_3_6) ⊕ d_1e_9) ||
     (prof_max_motor_torque_nm profile >ᵈ dyn_full_scale_motor_torque_nm s ⊕ d_1e_9) ||
     (prof_max_brake_pressure_bar profile >ᵈ dyn_max_ordinary_brake_pressure_bar s ⊕ d_1e_9))
    (InvalidArgument "runtime control profile exceeds vehicle limits"));;
  answer ← on_bridge (call (br_configure_runtime_control_v3
                              (runtime_control_config profile profile_revision)));
  let '(result_code, result) := answer in
  lift (throw_if (runtime_result_invalid result_code profile_revision result)
    (RuntimeError
       "mine_teleop_chassis_configure_runtime_control_v3 returned an invalid result structure"));;
  lift (throw_if (negb (result_code =? 0))
    (RuntimeError
       ("mine_teleop_chassis_configure_runtime_control_v3 rejected profile with code " +:+
        to_string_Z result_code +:+ " and issue " +:+ to_string_Z (brr_issue_id result))));;
  modify (fun s =>
    s <| dyn_session_motor_torque_limit_nm := prof_max_motor_torque_nm profile |>
      <| dyn_session_brake_pressure_limit_bar := prof_max_brake_pressure_bar profile |>
      <| dyn_runtime_control_profile_revision := brr_applied_revision result |>);;
  gets dyn_runtime_control_profile_revision.

Definition dynamic_clear_runtime_control_profile : M Dyn unit :=
  require_opened;;
  answer ← on_bridge (call br_clear_runtime_control_v1);
  let '(result_code, result) := answer in
  lift (throw_if (runtime_result_invalid result_code 0 result)
    (RuntimeError
       "mine_teleop_chassis_clear_runtime_control_v1 returned an invalid result structure"));;
  check_result result_code "mine_teleop_chassis_clear_runtime_control_v1";;
  modify (fun s =>
    s <| dyn_session_motor_torque_limit_nm := d_zero |>
      <| dyn_session_brake_pressure_limit_bar := d_zero |>
      <| dyn_runtime_control_profile_revision := 0 |>).

(** The arguments of the apply call: gear, velocity, acceleration, steering,
    operator-active flag. *)
Definition apply_request (s : Dyn) (command : ControlCommand) :
    result (Z * double * double * list double * Z) :=
  velocity ← dynamic_adapter_target_speed_mps command (dyn_max_speed_mps s);
  let traction_ceiling :=
    if dyn_full_scale_motor_torque_nm s >ᵈ d_zero
    then dyn_session_motor_torque_limit_nm s ⊘ dyn_full_scale_motor_torque_nm s else d_zero in
  acceleration ← dynamic_adapter_target_acceleration command traction_ceiling
                   (dyn_session_brake_pressure_limit_bar s)
                   (dyn_max_ordinary_brake_pressure_bar s);
  gear ← gear_to_bridge_value (cmd_gear command);
  mret (gear, velocity, acceleration, repeat (cmd_steering command) 4%nat,
        if cmd_operator_active command && negb (cmd_estop command) then 1 else 0).

Definition dynamic_apply_control (command : ControlCommand) : M Dyn unit :=
  require_opened;;
  s ← get;
  request ← lift (apply_request s command);
  let '(gear, velocity, acceleration, steering, operator_active) := request in
  answer ← on_bridge (call (br_apply_state_v3 gear velocity acceleration steering
                              operator_active));
  let '(result, apply_result) := answer in
  if negb (bar_struct_size apply_result =? sizeof_BridgeApplyResultV1) ||
     negb (bar_result_code apply_result =? result) || negb (bar_reserved apply_result =? 0) ||
     ((result =? 0) && negb (bar_issue_id apply_result =? kBridgeApplyIssueNone)) then
    let error := "mine_teleop_chassis_apply_state_v3 returned an invalid result structure" in
    modify (fun s => s <| dyn_last_error := error |>);;
    throw (RuntimeError error)
  else if negb (result =? 0) then
    modify (fun s => s <| dyn_last_error :=
      "mine_teleop_chassis_apply_state_v3 rejected control with code " +:+
      to_string_Z result |>);;
    throw (VehicleAdapterControlRejected_new
             (bridge_apply_issue_code (bar_issue_id apply_result)) result)
  else
    modify (fun s => s <| dyn_last_error := "" |>
                       <| dyn_applied_command_count ::= fun n => u64 (n + 1) |>).

Definition dynamic_apply_safe_stop (output : ControlOutput) (context : VehicleStopContext) :
    M Dyn unit :=
  require_opened;;
  (if out_estop output || out_full_emergency_brake output then
     let raw_context := mkBridgeStopContextV1 sizeof_BridgeStopContextV1
       (VehicleStopSource_value (stop_source context))
       (VehicleStopReason_value (stop_reason context)) 0 in
     result ← on_bridge (call (br_set_stop_context_v1 raw_context));
     check_result result "mine_teleop_chassis_set_stop_context_v1";;
     result ← on_bridge (call br_emergency_stop);
     check_result result "mine_teleop_chassis_emergency_stop"
   else
     gear ← lift (gear_to_bridge_value (out_gear output));
     result ← on_bridge (call (br_apply_state gear d_zero (d_neg (out_brake output))
                                 (repeat (out_steering output) 4%nat)));
     check_result result "mine_teleop_chassis_apply_state");;
  modify (fun s => s <| dyn_safe_stop_count ::= fun n => u64 (n + 1) |>).

Definition dynamic_poll_feedback : M Dyn bool :=
  require_opened;;
  result ← on_bridge (call br_poll_feedback);
  if result =? 1 then mret false
  else
    check_result result "mine_teleop_chassis_poll_feedback";;
    modify (fun s => s <| dyn_feedback_ready := true |>);;
    mret true.

Definition dynamic_request_vcu_handshake : M Dyn bool :=
  require_opened;;
  result ← on_bridge (call br_request_parallel_handshake);
  if negb (result =? 0) then mret false
  else modify (fun s => s <| dyn_feedback_ready := false |>);; mret true.

Definition dynamic_disconnect_vcu_handshake : M Dyn bool :=
  require_opened;;
  result ← on_bridge (call br_disconnect_parallel_handshake);
  check_result result "mine_teleop_chassis_disconnect_parallel_handshake";;
  modify (fun s => s <| dyn_feedback_ready := false |>);;
  mret true.

(** [raw != 0] *)
Definition nonzero (raw : Z) : bool := negb (raw =? 0).

Definition handshake_status_of (raw : BridgeHandshakeStatus) : VcuHandshakeStatus :=
  mkVcuHandshakeStatus true (bridge_handshake_state (bh_state raw)) (nonzero (bh_requested raw))
    (nonzero (bh_ready raw)) (nonzero (bh_disarming raw)) (nonzero (bh_parking_ready raw))
    (bh_driver_gear_request raw) (nonzero (bh_driver_gear_request_valid raw))
    (bh_handshake_status raw) (nonzero (bh_handshake_valid raw))
    (nonzero (bh_handshake_revoked raw)) (bh_revoked_handshake_status raw)
    (bh_vmc_fault_code raw) (nonzero (bh_vmc_fault_code_valid raw))
    (bh_parking_brake_switch raw) (nonzero (bh_parking_brake_switch_valid raw))
    (bh_brake_pedal_switch raw) (nonzero (bh_brake_pedal_switch_valid raw))
    (bh_epb_status raw) (map nonzero (bh_epb_valid raw)) (bh_speed_mps raw)
    (nonzero (bh_speed_valid raw)).

Definition dynamic_vcu_handshake_status : M Dyn VcuHandshakeStatus :=
  opened ← gets dyn_opened;
  if negb opened then
    mret (VcuHandshakeStatus_default <| vh_supported := true |> <| vh_state := "closed" |>)
  else
    answer ← on_bridge (call br_read_handshake_status);
    let '(result, raw) := answer in
    lift (throw_if (negb (result =? 0))
      (RuntimeError ("mine_teleop_chassis_read_handshake_status failed with code " +:+
                     to_string_Z result)));;
    mret (handshake_status_of raw).

Definition can_feedback_of (raw : BridgeCanFeedbackV1) : VehicleCanFeedback :=
  mkVehicleCanFeedback true (nonzero (bcf_feedback_fresh raw)) (bcf_max_feedback_age_ms raw)
    (bcf_speed_mps raw) (nonzero (bcf_speed_valid raw)) (bcf_gear raw)
    (nonzero (bcf_gear_valid raw)) (bcf_emergency_switch raw) (bcf_driver_gear_request raw)
    (nonzero (bcf_driver_gear_request_valid raw)) (bcf_handshake_status raw)
    (nonzero (bcf_handshake_valid raw)) (bcf_vmc_fault_code raw)
    (nonzero (bcf_vmc_fault_code_valid raw)) (bcf_parking_brake_switch raw)
    (nonzero (bcf_parking_brake_switch_valid raw)) (bcf_brake_pedal_switch raw)
    (nonzero (bcf_brake_pedal_switch_valid raw)) (bcf_epb_status raw)
    (map nonzero (bcf_epb_valid raw)) (bcf_motor_mode raw) (map nonzero (bcf_motor_mode_valid raw))
    (bcf_motor_torque_nm raw) (map nonzero (bcf_motor_torque_valid raw))
    (bcf_motor_speed_rpm raw) (map nonzero (bcf_motor_speed_valid raw)) (bcf_steering_mode raw)
    (map nonzero (bcf_steering_valid raw)) (bcf_steering_angle_deg raw) (bcf_brake_mode raw)
    (map nonzero (bcf_brake_valid raw)) (bcf_brake_pressure_bar raw).

Definition dynamic_read_telemetry : M Dyn VehicleTelemetry :=
  answer ← on_bridge (call br_read_telemetry);
  let '(result, telemetry) := answer in
  check_result result "mine_teleop_chassis_read_telemetry";;
  answer ← on_bridge (call br_read_can_feedback_v1);
  let '(result, raw) := answer in
  check_result result "mine_teleop_chassis_read_can_feedback_v1";;
  mret (mkVehicleTelemetry (bt_speed_mps telemetry) (bridge_value_to_gear (bt_gear telemetry))
          (bt_steering_feedback telemetry) (bt_throttle_feedback telemetry)
          (bt_brake_feedback telemetry) (nonzero (bt_estop telemetry))
          (bridge_stop_source (bt_stop_source telemetry) (bt_stop_reason telemetry))
          (bridge_stop_reason (bt_stop_reason telemetry)) (bt_stop_sequence telemetry)
          (can_feedback_of raw)).

Definition dynamic_status : M Dyn VehicleAdapterStatus :=
  gets (fun s =>
    mkVehicleAdapterStatus "dynamic_library" (dyn_opened s) (string_empty (dyn_last_error s))
      (dyn_can_interface s) (dyn_library_path s) (dyn_applied_command_count s)
      (dyn_safe_stop_count s) (dyn_last_error s) (dyn_feedback_ready s) (dyn_can_bitrate s)
      (dyn_can_tx_queue_length s)).

#[global] Instance dynamic_adapter : VehicleAdapter Dyn := {|
  va_open := dynamic_open;
  va_close := dynamic_close;
  va_configure_runtime_control_profile := dynamic_configure_runtime_control_profile;
  va_clear_runtime_control_profile := dynamic_clear_runtime_control_profile;
  va_session_motor_torque_limit_nm := gets dyn_session_motor_torque_limit_nm;
  va_session_brake_pressure_limit_bar := gets dyn_session_brake_pressure_limit_bar;
  va_apply_control := dynamic_apply_control;
  va_apply_safe_stop := dynamic_apply_safe_stop;
  va_poll_feedback := dynamic_poll_feedback;
  va_request_vcu_handshake := dynamic_request_vcu_handshake;
  va_disconnect_vcu_handshake := dynamic_disconnect_vcu_handshake;
  va_feedback_ready := gets dyn_feedback_ready;
  va_vcu_handshake_status := dynamic_vcu_handshake_status;
  va_read_telemetry := dynamic_read_telemetry;
  va_status := dynamic_status;
|}.

(** The adapter the configuration asks for; [bridge] is the world outside. *)
Definition create_vehicle_adapter (config : VehicleConfig) (bridge : B) :
    result (MockVehicleAdapter + Dyn) :=
  let adapter := cfg_vehicle_adapter config in
  let hardware := cfg_hardware config in
  let safety := cfg_field_safety config in
  if String.eqb (vac_type adapter) "mock" then Ok (inl MockVehicleAdapter_new)
  else if String.eqb (vac_type adapter) "can" || String.eqb (vac_type adapter) "dynamic_library"
  then
    s ← DynamicLibraryVehicleAdapter_new (vac_bridge_library_path adapter)
          (vac_can_interface adapter) (hw_can_bitrate hardware)
          (hw_can_tx_queue_length hardware) (fs_max_speed_kph safety ⊘ d_3_6)
          (fs_full_scale_motor_torque_nm safety) (fs_motor_torque_rise_rate_nm_per_s safety)
          (fs_max_brake_pressure_bar safety) (cc_control_timeout_ms (cfg_control config))
          (fs_speed_feedback_timeout_ms safety) (fs_speed_pid_kp safety)
          (fs_speed_pid_ki safety) (fs_speed_pid_kd safety)
          (fs_speed_pid_derivative_filter_tau_ms safety) (fs_speed_pid_max_dt_ms safety)
          (fs_hard_overspeed_margin_kph safety ⊘ d_3_6) bridge;
    mret (inr s)
  else Throw (RuntimeError ("unsupported vehicle adapter type: " +:+ vac_type adapter)).
End dynamic.
