(* ===== verification/AdapterProperties.v ===== *)
(** AdapterProperties: what the vehicle adapters guarantee.

    - what a valid command may ask of the chassis bridge;
    - a session profile reaches the adapter's limits only when the bridge
      confirmed it;
    - the order of the calls of a stop;
    - the loader leaves no half-loaded library;
    - gears and stop reasons round trip; the mock reports what it was told. *)
From S2P Require Export Adapter.

(** ** Gears and stop reasons *)
Lemma gear_to_bridge_value_ok gear v :
  gear_to_bridge_value gear = Ok v -> 1 <= v <= 4 /\ bridge_value_to_gear v = gear.
Proof.
  unfold gear_to_bridge_value. intros H.
  repeat match type of H with
    | context [String.eqb gear ?n] => destruct (String.eqb_spec gear n) as [-> |]
    end; try discriminate H; injection H as <-; (split; [lia | reflexivity]).
Qed.

(** Names across the bridge.  Every gear the bridge accepts reads back as
    itself; every stop reason has its own number and its own name, the bridge's
    number of a reason prints as its name, and a number that is no reason prints
    as "unknown". *)
Theorem bridge_names_roundtrip :
  (forall gear v, gear_to_bridge_value gear = Ok v -> bridge_value_to_gear v = gear) /\
  (forall r, bridge_stop_reason (VehicleStopReason_value r) = VehicleStopReason_name r) /\
  (forall r r', VehicleStopReason_name r = VehicleStopReason_name r' -> r = r') /\
  (forall v, (forall r, VehicleStopReason_value r <> v) -> bridge_stop_reason v = "unknown").
Proof.
  split_and!.
  - intros gear v H. by apply gear_to_bridge_value_ok.
  - by intros [].
  - intros r r'. destruct r, r'; try done; intros H; vm_compute in H; discriminate H.
  - intros v Hv. unfold bridge_stop_reason.
    destruct (List.find _ all_stop_reasons) as [r |] eqn:E; [| done].
    apply List.find_some in E as [_ E]. apply Z.eqb_eq in E. by destruct (Hv r).
Qed.

(** ** What a command asks of the bridge *)

Section requests.
Context {B : Type} {P : ChassisPlatform B}.
Notation Dyn := (DynamicLibraryVehicleAdapter B).

Lemma target_speed_ok command max_speed v :
  dynamic_adapter_target_speed_mps command max_speed = Ok v ->
  command_in_range command /\ d_isfinite max_speed = true /\ (d_zero ≤ᵈ max_speed) = true /\
  v = if (String.eqb (cmd_gear command) "D" || String.eqb (cmd_gear command) "R") &&
         (cmd_brake command =ᵈ d_zero)
      then d_clamp (cmd_throttle command) d_zero d_one ⊗ max_speed else d_zero.
Proof.
  unfold dynamic_adapter_target_speed_mps. intros H. apply result_bind_ok in H as ([] & Hv & H).
  apply throw_if_seq in H as [Hm H]. apply orb_false_iff in Hm as [Hf Hlo].
  apply negb_false_iff in Hf. split_and!; [by apply ControlCommand_validate_range | done | |].
  - apply d_not_lt_le; [by apply d_isfinite_not_nan | done | done].
  - by injection H as <-.
Qed.

Lemma target_acceleration_ok command ceiling session vehicle a :
  dynamic_adapter_target_acceleration command ceiling session vehicle = Ok a ->
  (d_zero ≤ᵈ ceiling) = true /\ (ceiling ≤ᵈ d_one) = true /\
  exists ratio, vehicle_normalized_brake_request (cmd_brake command) session vehicle = Ok ratio /\
  a = if cmd_brake command >ᵈ d_zero then d_neg ratio
      else if cmd_throttle command >ᵈ d_zero then ceiling else d_zero.
Proof.
  unfold dynamic_adapter_target_acceleration. intros H. apply result_bind_ok in H as ([] & Hv & H).
  apply result_bind_ok in H as ([] & Hc & H). apply result_bind_ok in H as (ratio & Hr & H).
  apply require_finite_range_bounds in Hc as (_ & H1 & H2); [| done | done].
  split_and!; [done | done |]. exists ratio. split; [done |]. by injection H as <-.
Qed.

Lemma brake_positive_not_zero x : (x >ᵈ d_zero) = true -> (x =ᵈ d_zero) = false.
Proof. double_order. Qed.
End requests.

(** Requests to the bridge.  When the adapter hands a command to the chassis
    bridge, the command was valid; the gear is the command's; a braking command
    asks for zero speed and for minus the brake's share of the vehicle's pressure;
    a command in N or P asks for zero speed; without brake the acceleration is the
    session's share of the full torque if there is throttle and zero otherwise;
    the four steering requests are the command's, within [-1, 1]; the
    operator-active flag is never set for an emergency stop. *)
Theorem bridge_request_bounded {B : Type} (s : DynamicLibraryVehicleAdapter B)
    (c : ControlCommand) (gear active : Z) (velocity acceleration : double)
    (steering : list double) :
  apply_request s c = Ok (gear, velocity, acceleration, steering, active) ->
  command_in_range c /\ 1 <= gear <= 4 /\ bridge_value_to_gear gear = cmd_gear c /\
  (d_zero ≤ᵈ velocity) = true /\
  ((cmd_brake c >ᵈ d_zero) = true \/ cmd_gear c = "N" \/ cmd_gear c = "P" ->
   velocity = d_zero) /\
  ((cmd_brake c >ᵈ d_zero) = true -> exists ratio,
   vehicle_normalized_brake_request (cmd_brake c) (dyn_session_brake_pressure_limit_bar s)
     (dyn_max_ordinary_brake_pressure_bar s) = Ok ratio /\ acceleration = d_neg ratio) /\
  ((cmd_brake c >ᵈ d_zero) = false ->
   (d_zero ≤ᵈ acceleration) = true /\ (acceleration ≤ᵈ d_one) = true /\
   ((cmd_throttle c >ᵈ d_zero) = false -> acceleration = d_zero)) /\
  steering = repeat (cmd_steering c) 4%nat /\
  (d_lit (-1) 0 ≤ᵈ cmd_steering c) = true /\ (cmd_steering c ≤ᵈ d_one) = true /\
  active = (if cmd_operator_active c && negb (cmd_estop c) then 1 else 0).
Proof.
  unfold apply_request. intros H. apply result_bind_ok in H as (v & Hv & H).
  apply result_bind_ok in H as (a & Ha & H). apply result_bind_ok in H as (g & Hg & H).
  injection H as <- <- <- <- <-.
  apply target_speed_ok in Hv as (Hc & Hmf & Hm0 & ->).
  apply target_acceleration_ok in Ha as (Hc0 & Hc1 & ratio & Hr & ->).
  apply gear_to_bridge_value_ok in Hg as [Hg1 Hg2].
  pose proof (cir_steering _ Hc) as Hst. apply andb_true_iff in Hst as [Hst0 Hst1].
  pose proof (cir_throttle _ Hc) as Hth. apply andb_true_iff in Hth as [Hth0 Hth1].
  split_and!; try done; try lia.
  - destruct (_ && _); [| done]. rewrite d_clamp_id by done.
    apply d_mul_nonneg; try done. by apply (d_between_finite d_zero _ d_one).
  - intros [Hb | [-> | ->]]; [| done | done]. by rewrite brake_positive_not_zero, andb_false_r.
  - intros ->. eauto.
  - intros ->. destruct (cmd_throttle c >ᵈ d_zero); done.
Qed.

(** ** A concrete bridge for the witnesses *)

(** It answers 0 to every call and confirms every revision; its state counts the
    emergency stops, the stop contexts it was given and the library loads. *)
Record ToyBridge := mkToyBridge {
  toy_stops : Z; toy_contexts : list Z; toy_loads : Z; toy_context_answer : Z }.

Definition toy_apply_result : BridgeApplyResultV1 :=
  mkBridgeApplyResultV1 sizeof_BridgeApplyResultV1 0 0 0.
Definition toy_runtime_result (revision : Z) : BridgeRuntimeControlResultV1 :=
  mkBridgeRuntimeControlResultV1 sizeof_BridgeRuntimeControlResultV1 0 0 0 revision.
Definition toy_query (name : string) : Z :=
  match List.find (fun p => String.eqb p.1 name)
    [("mine_teleop_chassis_abi_version", 6); ("mine_teleop_chassis_open_config_v4_size", 104);
     ("mine_teleop_chassis_open_config_v3_size", 96);
     ("mine_teleop_chassis_open_config_v2_size", 88);
     ("mine_teleop_chassis_runtime_control_config_v1_size", 88);
     ("mine_teleop_chassis_runtime_control_config_v2_size", 96);
     ("mine_teleop_chassis_stop_context_v1_size", 16);
     ("mine_teleop_chassis_runtime_control_config_v3_size", 104)] with
  | Some (_, v) => v
  | None => 0
  end.

#[export] Instance toy_platform : ChassisPlatform ToyBridge := {|
  dl_open _ := modify (fun b => mkToyBridge (toy_stops b) (toy_contexts b) (toy_loads b + 1)
                                  (toy_context_answer b));
  dl_symbol _ := mret tt;
  dl_query name := mret (toy_query name);
  dl_unload b := mkToyBridge (toy_stops b) (toy_contexts b) (toy_loads b - 1)
                   (toy_context_answer b);
  sc_control_socket := mret tt;
  sc_interface_index _ := mret 3;
  sc_interface_is_up _ := mret true;
  sc_bitrate _ _ := mret 500000;
  sc_tx_queue_length _ _ := mret 128;
  sc_set_tx_queue_length _ _ := mret tt;
  br_open_v4 _ b := (0, b);
  br_apply_state _ _ _ _ b := (0, b);
  br_apply_state_v3 _ _ _ _ _ b := (0, toy_apply_result, b);
  br_configure_runtime_control_v3 c b := (0, toy_runtime_result (brc_profile_revision c), b);
  br_clear_runtime_control_v1 b := (0, toy_runtime_result 0, b);
  br_emergency_stop b := (0, mkToyBridge (toy_stops b + 1) (toy_contexts b) (toy_loads b)
                               (toy_context_answer b));
  br_request_parallel_handshake b := (0, b);
  br_disconnect_parallel_handshake b := (0, b);
  br_poll_feedback b := (0, b);
  br_read_handshake_status b :=
    (0, mkBridgeHandshakeStatus 0 0 0 0 0 0 0 0 0 [] [] d_zero 0 0 0 0 0 0 0 0 0, b);
  br_read_telemetry b := (0, mkBridgeTelemetry d_zero 1 d_zero d_zero d_zero 0 0 0 0, b);
  br_read_can_feedback_v1 b :=
    (0, mkBridgeCanFeedbackV1 0 0 d_zero 0 0 0 0 0 0 0 0 [] [] [] [] [] [] [] [] [] [] [] [] [] []
          0 0 0 0 0 0, b);
  br_set_stop_context_v1 c b :=
    (toy_context_answer b,
     mkToyBridge (toy_stops b) (toy_contexts b ++ [bsc_stop_reason c]) (toy_loads b)
       (toy_context_answer b));
  br_close b := (0, b);
|}.

(** An adapter over it; [answer] is what the stop context call returns. *)
Definition toy_adapter (opened : bool) (answer : Z) : DynamicLibraryVehicleAdapter ToyBridge :=
  mkDynamicLibraryVehicleAdapter "/opt/libchassis.so" "can0" 500000 128 (d_lit 10 0) (d_lit 400 0)
    d_zero (d_lit 200 0) (d_lit 200 0) (d_lit 100 0) 1 500 200 d_one (d_lit 2 1) d_zero
    (d_lit 100 0) 100 d_one false opened true 0 0 "" (mkToyBridge 0 [] 0 answer).

Lemma bridge_request_bounded_witness :
  let c := mkControlCommand 1 "v" "d" "s" 7 1000 "D" (d_lit (-5) 1) d_one (d_lit 5 1) false
             "tok" true in
  match apply_request (toy_adapter true 0) c with
  | Ok (gear, velocity, acceleration, steering, active) =>
      command_in_range c /\ 1 <= gear <= 4 /\ bridge_value_to_gear gear = cmd_gear c /\
      (d_zero ≤ᵈ velocity) = true /\ velocity = d_zero
  | Throw _ => False
  end.
Proof.
  intros c. set (s := toy_adapter true 0).
  destruct (apply_request s c) as [[[[[g v] a] st] act] | e] eqn:E;
    [| exfalso; vm_compute in E; discriminate E].
  destruct (bridge_request_bounded s c g act v a st E) as (H1 & H2 & H3 & H4 & H5 & _).
  split; [exact H1 | split; [exact H2 | split; [exact H3 | split; [exact H4 |]]]].
  apply H5. left. vm_compute. reflexivity.
Defined.

(** ** Profiles, stops and the loader *)

Section dynamic.
Context {B : Type} {P : ChassisPlatform B}.
Notation Dyn := (DynamicLibraryVehicleAdapter B).

(** The three values that only a confirmed profile or a confirmed clear changes. *)
Definition session_limits (s : Dyn) : double * double * Z :=
  (dyn_session_motor_torque_limit_nm s, dyn_session_brake_pressure_limit_bar s,
   dyn_runtime_control_profile_revision s).

Lemma on_bridge_state {A} (m : M B A) (s : Dyn) :
  on_bridge m s = ((m (dyn_bridge s)).1, s <| dyn_bridge := (m (dyn_bridge s)).2 |>).
Proof. unfold on_bridge, zoom. by destruct (m (dyn_bridge s)). Qed.

(** Profiles at the bridge.  Whatever the bridge answers: configuring a
    profile either returns the requested revision, which is not zero, and then the
    adapter's torque and brake limits are the profile's; or it throws, and then
    the limits and the revision are what they were. *)
Theorem configure_profile_atomic (profile : SessionControlProfile) (revision : Z) (s : Dyn) :
  match dynamic_configure_runtime_control_profile profile revision s with
  | (Ok applied, s') =>
      applied = revision /\ revision <> 0 /\ profile_in_range profile /\
      session_limits s' =
        (prof_max_motor_torque_nm profile, prof_max_brake_pressure_bar profile, revision)
  | (Throw _, s') => session_limits s' = session_limits s
  end.
Proof.
  set (kept := fun s' : Dyn => session_limits s' = session_limits s).
  set (done_ := fun applied s' => applied = revision /\ revision <> 0 /\
    profile_in_range profile /\ session_limits s' =
      (prof_max_motor_torque_nm profile, prof_max_brake_pressure_bar profile, revision)).
  assert (H : hoare (fun s' => s' = s)
                (dynamic_configure_runtime_control_profile profile revision) done_ kept);
    [| exact (H s eq_refl)].
  unfold dynamic_configure_runtime_control_profile, require_opened.
  apply (hoare_pre _ kept); [by intros s' -> |].
  apply hoare_keeps_bind; [| done | intros _].
  { apply keeps_bind; [apply keeps_gets | intros; apply keeps_lift]. }
  apply hoare_lift; [done | intros [] Hv]. apply hoare_get. intros s1 Hs1.
  apply (hoare_pre _ kept); [by intros s' -> |].
  apply hoare_lift; [done | intros [] Hlim]. apply throw_if_ok in Hlim.
  rewrite !orb_false_iff in Hlim. destruct Hlim as (((Hrev & _) & _) & _).
  apply Z.eqb_neq in Hrev.
  apply hoare_keeps_bind; [| done | intros [code result]].
  { intros s' Hs'. by rewrite on_bridge_state. }
  apply hoare_lift; [done | intros [] Hres]. apply hoare_lift; [done | intros [] Hcode].
  apply throw_if_ok, negb_false_iff, Z.eqb_eq in Hcode as ->.
  apply throw_if_ok in Hres. unfold runtime_result_invalid in Hres.
  apply orb_false_iff in Hres as [_ Hres]. simpl in Hres.
  apply orb_false_iff in Hres as [_ Hres]. apply negb_false_iff, Z.eqb_eq in Hres.
  intros s2 _. unfold mbind, M_bind, modify, gets, done_, session_limits. simpl. rewrite Hres.
  split_and!; try done. by apply SessionControlProfile_validate_range.
Qed.

(** The two calls of a full stop, and what the adapter makes of their answers. *)
Lemma safe_stop_calls (o : ControlOutput) (x : VehicleStopContext) (s : Dyn) :
  dyn_opened s = true -> out_estop o || out_full_emergency_brake o = true ->
  let raw := mkBridgeStopContextV1 sizeof_BridgeStopContextV1
               (VehicleStopSource_value (stop_source x)) (VehicleStopReason_value (stop_reason x))
               0 in
  let context := br_set_stop_context_v1 raw (dyn_bridge s) in
  let stop := br_emergency_stop context.2 in
  let outcome := dynamic_apply_safe_stop o x s in
  if context.1 =? 0
  then dyn_bridge outcome.2 = stop.2 /\ is_ok outcome.1 = (stop.1 =? 0)
  else dyn_bridge outcome.2 = context.2 /\ is_ok outcome.1 = false.
Proof.
  intros Hopen Hstop raw context stop outcome. subst outcome stop context.
  unfold dynamic_apply_safe_stop, require_opened, check_result.
  unfold mbind, M_bind, gets, lift, modify. rewrite Hopen, Hstop. cbn [negb throw_if].
  rewrite on_bridge_state. unfold call. simpl. subst raw.
  destruct (br_set_stop_context_v1 _ _) as [c b] eqn:Ec. simpl.
  destruct (c =? 0); [| done]. rewrite on_bridge_state. unfold call. simpl.
  destruct (br_emergency_stop b) as [e b'] eqn:Ee. simpl.
  by destruct (e =? 0).
Qed.

(** The stop sequence.  An emergency stop on an open adapter first gives the
    bridge its context; the bridge's own stop is called exactly when the context
    call answered zero, on the state that call left, and the adapter succeeds
    exactly when both answered zero.  In particular a refused context ends in an
    exception with the stop never called. *)
Theorem safe_stop_sequence (o : ControlOutput) (x : VehicleStopContext) (s : Dyn) :
  dyn_opened s = true -> out_estop o || out_full_emergency_brake o = true ->
  let raw := mkBridgeStopContextV1 sizeof_BridgeStopContextV1
               (VehicleStopSource_value (stop_source x)) (VehicleStopReason_value (stop_reason x))
               0 in
  let context := br_set_stop_context_v1 raw (dyn_bridge s) in
  let stop := br_emergency_stop context.2 in
  let outcome := dynamic_apply_safe_stop o x s in
  if context.1 =? 0
  then dyn_bridge outcome.2 = stop.2 /\ is_ok outcome.1 = (stop.1 =? 0)
  else dyn_bridge outcome.2 = context.2 /\ is_ok outcome.1 = false.
Proof. exact (safe_stop_calls o x s). Qed.

(** Loading.  Loading the library either succeeds, and the adapter then counts
    as loaded, or throws, and the adapter then counts as not loaded: a library
    whose version, structure sizes or symbols are wrong never stays half bound,
    and what was bound is unloaded. *)
Theorem loader_all_or_nothing (s : Dyn) :
  match ensure_loaded s with
  | (Ok _, s') => dyn_loaded s' = true
  | (Throw _, s') => dyn_loaded s' = false /\
      ((exists b, dyn_bridge s' = dl_unload b) \/
       (exists e, dl_open (dyn_library_path s) (dyn_bridge s) = (Throw e, dyn_bridge s')))
  end.
Proof.
  unfold ensure_loaded. set (bind_all := _;; load_symbols adapter_symbols). clearbody bind_all.
  unfold mbind, M_bind, gets, modify, try_catch, throw, mret, M_ret.
  destruct (dyn_loaded s) eqn:Hl; [done |]. rewrite on_bridge_state.
  destruct (dl_open (dyn_library_path s) (dyn_bridge s)) as [[[] | e] b] eqn:Eo; simpl.
  2: { split; [done |]. right. by exists e. }
  rewrite on_bridge_state. simpl.
  destruct (bind_all b) as [[[] | e] b'] eqn:Ev; simpl; [done |].
  split; [done |]. left. by exists b'.
Qed.
End dynamic.

Lemma safe_stop_sequence_witness :
  let o := mkControlOutput "N" d_zero d_zero d_one true true in
  let x := mkVehicleStopContext DriverPage OperatorEstop in
  (dyn_bridge (dynamic_apply_safe_stop o x (toy_adapter true 0)).2 =
     mkToyBridge 1 [VehicleStopReason_value OperatorEstop] 0 0) /\
  (dyn_bridge (dynamic_apply_safe_stop o x (toy_adapter true 7)).2 =
     mkToyBridge 0 [VehicleStopReason_value OperatorEstop] 0 7).
Proof.
  intros o x. split.
  - exact (proj1 (safe_stop_sequence o x (toy_adapter true 0) eq_refl eq_refl)).
  - exact (proj1 (safe_stop_sequence o x (toy_adapter true 7) eq_refl eq_refl)).
Defined.

Example toy_loads_once :
  match ensure_loaded (toy_adapter false 0) with
  | (Ok _, s) => dyn_loaded s = true /\ toy_loads (dyn_bridge s) = 1
  | (Throw _, _) => False
  end.
Proof. vm_compute. by split. Qed.

(** ** The mock *)

(** The mock reports what it was told.  A stop of an open mock is accepted and
    the next telemetry reads back its gear, brake and stop flag; a stop that
    begins an emergency (none was active) is counted once and its own context is
    reported, while one that continues an emergency keeps the first context and
    the count. *)
Theorem mock_stop_reported (o : ControlOutput) (x : VehicleStopContext) (s : MockVehicleAdapter) :
  mock_opened s = true ->
  let was_active := match mock_latest_output s with Some o => out_estop o | None => false end in
  match (mock_apply_safe_stop o x;; mock_read_telemetry) s with
  | (Ok telemetry, s') =>
      tel_gear telemetry = out_gear o /\ tel_brake_feedback telemetry = out_brake o /\
      tel_estop telemetry = out_estop o /\
      mock_stop_sequence s' =
        (if out_estop o && negb was_active then u64 (mock_stop_sequence s + 1)
         else mock_stop_sequence s) /\
      tel_stop_reason telemetry =
        (if out_estop o
         then VehicleStopReason_name
                (stop_reason (if was_active then mock_latest_stop_context s else x))
         else "none")
  | (Throw _, _) => False
  end.
Proof.
  intros Ho was_active. subst was_active.
  unfold mock_apply_safe_stop, mock_require_open, mock_read_telemetry.
  unfold mbind, M_bind, gets, get, lift, modify, mret, M_ret. rewrite Ho. cbn [negb throw_if].
  destruct (mock_latest_output s) as [latest |]; destruct o as [g st th br [] fe]; simpl;
    [destruct (out_estop latest) | | |]; simpl; split_and!; try done.
  all: match goal with |- bridge_stop_reason (VehicleStopReason_value ?r) = _ => by destruct r end.
Qed.

Lemma mock_stop_reported_witness :
  let s := mkMockVehicleAdapter true None VehicleStopContext_default 0 0 0 d_zero d_zero 0 in
  let o := mkControlOutput "N" d_zero d_zero d_one true true in
  let x := mkVehicleStopContext Watchdog OuterControlTimeout in
  match (mock_apply_safe_stop o x;; mock_read_telemetry) s with
  | (Ok telemetry, s') => tel_estop telemetry = true /\
      tel_stop_reason telemetry = "outer_control_timeout" /\ mock_stop_sequence s' = 1
  | (Throw _, _) => False
  end.
Proof.
  intros s o x. destruct (mock_stop_reported o x s eq_refl) as (_ & _ & H3 & H4 & H5).
  split_and!; [exact H3 | exact H5 | exact H4].
Defined.
