(* ===== verification/ControlService.v ===== *)
(** ControlService: the vehicle's control service (core.hpp:773-858,
    core.cpp:2796-3632).

    [VehicleControlService] composes the receiver, the safety machine and a
    vehicle adapter.  The adapter is any instance of [VehicleAdapter]: each of
    its operations may fail with any exception, at any call, and change its own
    state, so what is proved here holds for the mock, for the chassis bridge and
    for an adapter that misbehaves.  A handler is a computation of the monad
    [M]: the mutations made before an exception stay. *)
From S2P Require Export Adapter.

(** ** Wire form of the limits *)

Section limits.
Context {J : JsonApi}.

Definition min_max (lo hi : json) : json := j_object [("min", lo); ("max", hi)].

Definition read_only_control_safety (config : VehicleConfig) : json :=
  let control := cfg_control config in
  let safety := cfg_field_safety config in
  let deceleration_profile :=
    j_array (map (fun stage => j_object [("after_ms", j_int (stage_after_ms stage));
                                         ("brake", j_double (stage_brake stage))])
               (cc_deceleration_profile control)) in
  j_object
    [("control_rate_hz", j_int (cc_rate_hz control));
     ("max_command_gap_ms", j_int (cc_max_command_gap_ms control));
     ("degraded_timeout_ms", j_int (cc_degraded_timeout_ms control));
     ("control_timeout_ms", j_int (cc_control_timeout_ms control));
     ("deceleration_profile", deceleration_profile);
     ("speed_feedback_timeout_ms", j_int (fs_speed_feedback_timeout_ms safety));
     ("hard_overspeed_margin_kph", j_double (fs_hard_overspeed_margin_kph safety));
     ("require_can_feedback_before_control",
      j_bool (fs_require_can_feedback_before_control safety));
     ("require_local_estop_reset", j_bool (fs_require_local_estop_reset safety));
     ("require_time_sync", j_bool (fs_require_time_sync safety));
     ("max_time_sync_uncertainty_ms", j_int (fs_max_time_sync_uncertainty_ms safety));
     ("time_sync_interval_ms", j_int (fs_time_sync_interval_ms safety));
     ("time_sync_samples", j_int (fs_time_sync_samples safety));
     ("commissioning_mode", j_string (fs_commissioning_mode safety))].

Definition vehicle_control_limits (config : VehicleConfig) : json :=
  let safety := cfg_field_safety config in
  j_object
    [("max_speed_kph", j_double (fs_max_speed_kph safety));
     ("max_throttle", j_double (fs_max_throttle safety));
     ("full_scale_motor_torque_nm", j_double (fs_full_scale_motor_torque_nm safety));
     ("max_brake_pressure_bar", j_double (fs_max_brake_pressure_bar safety));
     ("max_steering_angle_deg", j_double (fs_max_steering_angle_deg safety));
     ("default_speed_pid_kp", j_double (fs_speed_pid_kp safety));
     ("default_speed_pid_ki", j_double (fs_speed_pid_ki safety));
     ("default_speed_pid_kd", j_double (fs_speed_pid_kd safety));
     ("default_speed_pid_derivative_filter_tau_ms",
      j_double (fs_speed_pid_derivative_filter_tau_ms safety));
     ("default_speed_pid_max_dt_ms", j_int (fs_speed_pid_max_dt_ms safety));
     ("default_motor_torque_rise_rate_nm_per_s",
      j_double (fs_motor_torque_rise_rate_nm_per_s safety));
     ("motor_torque_rise_rate_limits_nm_per_s",
      min_max (j_double d_zero) (j_double kMaxMotorTorqueRiseRateNmPerSecond));
     ("speed_pid_limits",
      j_object
        [("kp", min_max (j_double d_zero) (j_double kMaxSpeedPidGain));
         ("ki", min_max (j_double d_zero) (j_double kMaxSpeedPidGain));
         ("kd", min_max (j_double d_zero) (j_double kMaxSpeedPidGain));
         ("derivative_filter_tau_ms",
          min_max (j_double d_zero) (j_double kMaxSpeedPidDerivativeFilterTauMs));
         ("max_dt_ms", min_max (j_int kMinSpeedPidMaxDtMs) (j_int kMaxSpeedPidMaxDtMs))]);
     ("speed_feedback_timeout_ms", j_int (fs_speed_feedback_timeout_ms safety));
     ("hard_overspeed_margin_kph", j_double (fs_hard_overspeed_margin_kph safety));
     ("speed_feedback_timeout_ms_read_only", j_bool true);
     ("hard_overspeed_margin_kph_read_only", j_bool true);
     ("read_only_control_safety", read_only_control_safety config)].
End limits.

(** ** State *)

Record VehicleControlService {J : JsonApi} {A : Type} := mkVehicleControlService {
  svc_vehicle_id : string;
  svc_driver_id : string;
  svc_session_id : string;
  svc_control_token : string;
  svc_commissioning_mode : string;
  svc_receiver : ControlReceiver;
  svc_safety : SafetyStateMachine;
  svc_adapter : A;
  svc_require_feedback_before_control : bool;
  svc_max_speed_kph : double;
  svc_max_throttle : double;
  svc_full_scale_motor_torque_nm : double;
  svc_max_brake_pressure_bar : double;
  svc_max_steering_angle_deg : double;
  svc_default_speed_pid_kp : double;
  svc_default_speed_pid_ki : double;
  svc_default_speed_pid_kd : double;
  svc_default_speed_pid_derivative_filter_tau_ms : double;
  svc_default_speed_pid_max_dt_ms : Z;
  svc_default_motor_torque_rise_rate_nm_per_s : double;
  svc_speed_feedback_timeout_ms : Z;
  svc_hard_overspeed_margin_kph : double;
  svc_control_limits : json;
  svc_telemetry_interval_ms : Z;
  svc_last_telemetry_ms : option Z;
  svc_telemetry_sequence : Z;
  svc_telemetry_history : list json;
  svc_active_session_profile : option SessionControlProfile;
  svc_last_session_profile_request : option SessionControlProfileRequest;
  svc_last_session_profile_result : option SessionControlProfileResult;
  svc_last_effective_command : option ControlCommand;
  svc_adapter_safe_stop_active : bool;
  svc_started : bool;
}.
Arguments VehicleControlService J A : clear implicits.
Arguments mkVehicleControlService {J A}.

#[global] Instance eta_VehicleControlService {J A} : Settable (VehicleControlService J A) :=
  fields! mkVehicleControlService
    <svc_vehicle_id; svc_driver_id; svc_session_id; svc_control_token; svc_commissioning_mode;
     svc_receiver; svc_safety; svc_adapter; svc_require_feedback_before_control;
     svc_max_speed_kph; svc_max_throttle; svc_full_scale_motor_torque_nm;
     svc_max_brake_pressure_bar; svc_max_steering_angle_deg; svc_default_speed_pid_kp;
     svc_default_speed_pid_ki; svc_default_speed_pid_kd;
     svc_default_speed_pid_derivative_filter_tau_ms; svc_default_speed_pid_max_dt_ms;
     svc_default_motor_torque_rise_rate_nm_per_s; svc_speed_feedback_timeout_ms;
     svc_hard_overspeed_margin_kph; svc_control_limits; svc_telemetry_interval_ms;
     svc_last_telemetry_ms; svc_telemetry_sequence; svc_telemetry_history;
     svc_active_session_profile; svc_last_session_profile_request;
     svc_last_session_profile_result; svc_last_effective_command; svc_adapter_safe_stop_active;
     svc_started>.

Section service.
Context {J : JsonApi} {A : Type} {VA : VehicleAdapter A}.
Notation Svc := (VehicleControlService J A).

(** The constructor; the adapter pointer is not null. *)
Definition VehicleControlService_new (config : VehicleConfig) (driver_id session_id
    control_token : string) (adapter : A) (telemetry_interval_ms : Z) : result Svc :=
  let control := cfg_control config in
  let safety := cfg_field_safety config in
  receiver ← ControlReceiver_new (cfg_vehicle_id config) driver_id session_id
               (cc_max_command_gap_ms control) kProtocolVersion true control_token 5000;
  machine ← SafetyStateMachine_new (cc_degraded_timeout_ms control)
              (cc_control_timeout_ms control) (cc_deceleration_profile control);
  throw_if (telemetry_interval_ms <=? 0)
    (InvalidArgument "telemetry interval must be positive");;
  mret (mkVehicleControlService (cfg_vehicle_id config) driver_id session_id control_token
    (fs_commissioning_mode safety) receiver machine adapter
    (fs_require_can_feedback_before_control safety) (fs_max_speed_kph safety)
    (fs_max_throttle safety) (fs_full_scale_motor_torque_nm safety)
    (fs_max_brake_pressure_bar safety) (fs_max_steering_angle_deg safety)
    (fs_speed_pid_kp safety) (fs_speed_pid_ki safety) (fs_speed_pid_kd safety)
    (fs_speed_pid_derivative_filter_tau_ms safety) (fs_speed_pid_max_dt_ms safety)
    (fs_motor_torque_rise_rate_nm_per_s safety) (fs_speed_feedback_timeout_ms safety)
    (fs_hard_overspeed_margin_kph safety) (vehicle_control_limits config)
    telemetry_interval_ms None 0 [] None None None None false false).

(** A call of the adapter, of the receiver, a step of the safety machine. *)
Definition on_adapter {R} (m : M A R) : M Svc R :=
  zoom svc_adapter (fun a s => s <| svc_adapter := a |>) m.
Definition on_receiver {R} (m : M ControlReceiver R) : M Svc R :=
  zoom svc_receiver (fun r s => s <| svc_receiver := r |>) m.
Definition on_safety {R} (m : M SafetyStateMachine R) : M Svc R :=
  zoom svc_safety (fun m s => s <| svc_safety := m |>) m.

Definition safety_state : M Svc SafetyState := gets (fun s => sm_state (svc_safety s)).

(** [state == Estop || state == Fault] *)
Definition is_latched (state : SafetyState) : bool :=
  bool_decide (state = SafetyEstop) || bool_decide (state = SafetyFault).

Definition require_started : M Svc unit :=
  started ← gets svc_started;
  lift (throw_if (negb started) (RuntimeError "vehicle control service is not started")).

Definition apply_safe_stop_now (timestamp_ms : Z) (context : VehicleStopContext) : M Svc unit :=
  machine ← gets svc_safety;
  on_adapter (va_apply_safe_stop (current_output timestamp_ms machine) context).

(** ** Session profile and adapter state *)

Definition clear_result (r : SessionControlProfileResult) : SessionControlProfileResult :=
  r <| res_accepted := false |> <| res_idempotent := false |> <| res_applied_revision := 0 |>
    <| res_reason := "session_profile_cleared" |> <| res_effective_profile := None |>.

Definition clear_session_profile : M Svc unit :=
  modify (fun s =>
    s <| svc_active_session_profile := None |>
      <| svc_last_effective_command := None |>
      <| svc_last_session_profile_result ::= fmap clear_result |>);;
  try_catch (on_adapter va_clear_runtime_control_profile) (fun _ => mret tt).

(** Answers whether the adapter could be observed. *)
Definition refresh_adapter_safe_stop_state : M Svc bool :=
  try_catch
    (telemetry ← on_adapter va_read_telemetry;
     handshake ← on_adapter va_vcu_handshake_status;
     let active := tel_estop telemetry || vh_disarming handshake in
     modify (fun s => s <| svc_adapter_safe_stop_active := active |>);;
     when active clear_session_profile;;
     mret true)
    (fun _ => mret false).

(** The reaction of the watchdog to the state its tick reached. *)
Definition watchdog_react (timestamp_ms : Z) : M Svc unit :=
  state ← safety_state;
  if bool_decide (state = SafetyDegraded) || bool_decide (state = SafetyTimeoutBrake) ||
     is_latched state
  then
    when (negb (bool_decide (state = SafetyDegraded))) clear_session_profile;;
    stop_active ← gets svc_adapter_safe_stop_active;
    let recoverable :=
      bool_decide (state = SafetyDegraded) || bool_decide (state = SafetyTimeoutBrake) in
    when (negb (stop_active && recoverable))
      (apply_safe_stop_now timestamp_ms
         (if recoverable then mkVehicleStopContext Watchdog OuterControlTimeout
          else if bool_decide (state = SafetyEstop)
          then mkVehicleStopContext DriverPage OperatorEstop
          else mkVehicleStopContext SoftwareFault VcuStateFault))
  else mret tt.

Definition evaluate_control_watchdog (timestamp_ms : Z) : M Svc unit :=
  on_safety (modify (safety_tick timestamp_ms));;
  watchdog_react timestamp_ms.

Definition start : M Svc unit :=
  started ← gets svc_started;
  if (started : bool) then mret tt
  else
    on_adapter va_open;;
    try_catch (on_adapter va_clear_runtime_control_profile)
      (fun e => on_adapter va_close;; throw e);;
    on_safety (modify mark_ready);;
    modify (fun s => s <| svc_started := true |>).

(** ** Session profile requests *)

Definition profile_result (s : Svc) (request : SessionControlProfileRequest) (timestamp_ms : Z)
    (accepted idempotent : bool) (reason : string) : SessionControlProfileResult :=
  let seq := if req_seq request =? 0 then 1 else req_seq request in
  mkSessionControlProfileResult kProtocolVersion (svc_vehicle_id s) (svc_driver_id s)
    (svc_session_id s) seq (Z.max timestamp_ms 0) accepted idempotent
    (if accepted then seq else 0) reason (svc_active_session_profile s).

(** Why a request is not for this session, if it is not. *)
Definition request_identity_error (s : Svc) (request : SessionControlProfileRequest) :
    option string :=
  match (ProtocolMetadata_validate (SessionControlProfileRequest_metadata request);;
         throw_if (string_empty (req_control_token request))
           (InvalidArgument "control_token is required")) with
  | Throw error => Some ("invalid_profile:" +:+ what error)
  | Ok _ =>
      if negb (String.eqb (req_vehicle_id request) (svc_vehicle_id s)) then Some "wrong_vehicle"
      else if negb (String.eqb (req_driver_id request) (svc_driver_id s)) then Some "wrong_driver"
      else if negb (String.eqb (req_session_id request) (svc_session_id s))
      then Some "wrong_session"
      else if negb (String.eqb (req_control_token request) (svc_control_token s))
      then Some "control_token_invalid"
      else None
  end.

Definition is_identical_request (request previous : SessionControlProfileRequest) : bool :=
  (req_protocol_version request =? req_protocol_version previous) &&
  String.eqb (req_vehicle_id request) (req_vehicle_id previous) &&
  String.eqb (req_driver_id request) (req_driver_id previous) &&
  String.eqb (req_session_id request) (req_session_id previous) &&
  (req_seq request =? req_seq previous) &&
  String.eqb (req_control_token request) (req_control_token previous) &&
  SessionControlProfile_eqb (req_profile request) (req_profile previous).

(** The answer to an old or repeated sequence number, if it is one. *)
Definition replay_session_profile (request : SessionControlProfileRequest) (timestamp_ms : Z) :
    M Svc (option SessionControlProfileResult) :=
  s ← get;
  match svc_last_session_profile_request s with
  | None => mret None
  | Some previous =>
      if req_seq request <? req_seq previous then
        mret (Some (profile_result s request timestamp_ms false false "old_seq"))
      else if req_seq request =? req_seq previous then
        if negb (is_identical_request request previous) then
          mret (Some (profile_result s request timestamp_ms false false "profile_seq_conflict"))
        else
          match svc_last_session_profile_result s with
          | None => mret None  (* never: the request and its result are stored together *)
          | Some last =>
              if negb (bool_decide (is_Some (svc_active_session_profile s))) && res_accepted last
              then mret (Some (profile_result s request timestamp_ms false true
                                 "session_profile_cleared"))
              else
                let replay := last <| res_sent_at_utc_ms := timestamp_ms |>
                                   <| res_idempotent := true |>
                                   <| res_effective_profile := svc_active_session_profile s |> in
                modify (fun s => s <| svc_last_session_profile_result := Some replay |>);;
                mret (Some replay)
          end
      else mret None
  end.

(** Why a new request is not acted on and not remembered, if it is not. *)
Definition request_content_error (request : SessionControlProfileRequest) (timestamp_ms : Z) :
    option string :=
  match SessionControlProfile_validate (req_profile request) with
  | Throw error => Some ("invalid_profile:" +:+ what error)
  | Ok _ =>
      let timestamp_delta_ms := timestamp_ms - req_sent_at_utc_ms request in
      if kSessionControlProfileMaxAgeMs <? timestamp_delta_ms then Some "profile_age_exceeded"
      else if timestamp_delta_ms <? - kSessionControlProfileMaxAgeMs
      then Some "profile_timestamp_in_future"
      else None
  end.

(** Which limit of the vehicle a profile exceeds, if it does. *)
Definition vehicle_limit_error (s : Svc) (profile : SessionControlProfile) : option string :=
  let target_speed_ceiling_kph := svc_max_speed_kph s ⊗ svc_max_throttle s in
  if prof_target_speed_kph profile >ᵈ target_speed_ceiling_kph ⊕ d_1e_9
  then Some "target_speed_exceeds_vehicle_limit"
  else if prof_max_motor_torque_nm profile >ᵈ svc_full_scale_motor_torque_nm s ⊕ d_1e_9
  then Some "motor_torque_exceeds_vehicle_limit"
  else if prof_max_brake_pressure_bar profile >ᵈ svc_max_brake_pressure_bar s ⊕ d_1e_9
  then Some "brake_pressure_exceeds_vehicle_limit"
  else if prof_max_steering_angle_deg profile >ᵈ svc_max_steering_angle_deg s ⊕ d_1e_9
  then Some "steering_exceeds_vehicle_limit"
  else None.

(** How a requested profile differs from the active one. *)
Record ProfileChange := mkProfileChange {
  pc_torque_increase : bool;
  pc_target_speed_increase : bool;
  pc_torque_decrease : bool;
  pc_target_speed_decrease : bool;
  pc_brake_parameters_changed : bool;
  pc_steering_changed : bool;
  pc_pid_parameters_changed : bool;
  pc_parking_idle_timeout_changed : bool;
}.

Definition profile_change (s : Svc) (profile : SessionControlProfile) : ProfileChange :=
  let active := svc_active_session_profile s in
  let current_torque_limit :=
    match active with Some p => prof_max_motor_torque_nm p | None => d_zero end in
  let current_target_speed :=
    match active with Some p => prof_target_speed_kph p | None => d_zero end in
  let empty_profile :=
    SessionControlProfile_default
      <| prof_speed_pid_kp := svc_default_speed_pid_kp s |>
      <| prof_speed_pid_ki := svc_default_speed_pid_ki s |>
      <| prof_speed_pid_kd := svc_default_speed_pid_kd s |>
      <| prof_speed_pid_derivative_filter_tau_ms :=
           svc_default_speed_pid_derivative_filter_tau_ms s |>
      <| prof_speed_pid_max_dt_ms := svc_default_speed_pid_max_dt_ms s |>
      <| prof_motor_torque_rise_rate_nm_per_s :=
           svc_default_motor_torque_rise_rate_nm_per_s s |> in
  let current := default empty_profile active in
  mkProfileChange
    (prof_max_motor_torque_nm profile >ᵈ current_torque_limit ⊕ d_1e_9)
    (prof_target_speed_kph profile >ᵈ current_target_speed ⊕ d_1e_9)
    (prof_max_motor_torque_nm profile ⊕ d_1e_9 <ᵈ current_torque_limit)
    (prof_target_speed_kph profile ⊕ d_1e_9 <ᵈ current_target_speed)
    ((prof_max_brake_pressure_bar profile ≠ᵈ prof_max_brake_pressure_bar current) ||
     (prof_service_brake_pressure_bar profile ≠ᵈ prof_service_brake_pressure_bar current) ||
     (prof_hard_brake_pressure_bar profile ≠ᵈ prof_hard_brake_pressure_bar current))
    (prof_max_steering_angle_deg profile ≠ᵈ prof_max_steering_angle_deg current)
    ((prof_speed_pid_kp profile ≠ᵈ prof_speed_pid_kp current) ||
     (prof_speed_pid_ki profile ≠ᵈ prof_speed_pid_ki current) ||
     (prof_speed_pid_kd profile ≠ᵈ prof_speed_pid_kd current) ||
     (prof_speed_pid_derivative_filter_tau_ms profile ≠ᵈ
        prof_speed_pid_derivative_filter_tau_ms current) ||
     negb (prof_speed_pid_max_dt_ms profile =? prof_speed_pid_max_dt_ms current) ||
     (prof_motor_torque_rise_rate_nm_per_s profile ≠ᵈ
        prof_motor_torque_rise_rate_nm_per_s current))
    (negb (prof_parking_idle_timeout_ms profile =? prof_parking_idle_timeout_ms current)).

Definition cache_result (request : SessionControlProfileRequest)
    (result : SessionControlProfileResult) : M Svc SessionControlProfileResult :=
  modify (fun s => s <| svc_last_session_profile_request := Some request |>
                     <| svc_last_session_profile_result := Some result |>);;
  mret result.

Definition reject_and_cache (request : SessionControlProfileRequest) (timestamp_ms : Z)
    (reason : string) : M Svc SessionControlProfileResult :=
  result ← gets (fun s => profile_result s request timestamp_ms false false reason);
  cache_result request result.

(** The parking interlock: why a change must wait, if it must. *)
Definition parking_interlock (change : ProfileChange) : M Svc (option string) :=
  adapter_status ← on_adapter va_status;
  s ← get;
  let mock_bench_bypass :=
    String.eqb (svc_commissioning_mode s) "bench" &&
    String.eqb (ast_adapter_type adapter_status) "mock" in
  let first_profile := negb (bool_decide (is_Some (svc_active_session_profile s))) in
  if (first_profile || pc_target_speed_increase change || pc_torque_increase change ||
      pc_brake_parameters_changed change || pc_steering_changed change ||
      pc_pid_parameters_changed change || pc_parking_idle_timeout_changed change) &&
     negb mock_bench_bypass
  then
    handshake ← try_catch (status ← on_adapter va_vcu_handshake_status; mret (Some status))
                  (fun _ => mret None);
    mret match handshake with
         | None => Some "parking_ready_required_for_profile_increase"
         | Some status =>
             if negb (vh_parking_ready status)
             then Some "parking_ready_required_for_profile_increase"
             else if negb (String.eqb (vh_state status) "standby") &&
                     negb (String.eqb (vh_state status) "disarmed")
             then Some "standby_or_disarmed_required_for_profile_change"
             else None
         end
  else mret None.

(** [target_speed_kph / max_speed_kph_], zero for a vehicle that may not move. *)
Definition profile_throttle_limit (s : Svc) (profile : SessionControlProfile) : double :=
  if svc_max_speed_kph s >ᵈ d_zero
  then prof_target_speed_kph profile ⊘ svc_max_speed_kph s else d_zero.

(** The [try] block that installs a profile. *)
Definition configure_profile (request : SessionControlProfileRequest) (change : ProfileChange) :
    M Svc unit :=
  applied_revision ← on_adapter
    (va_configure_runtime_control_profile (req_profile request) (req_seq request));
  lift (throw_if (negb (applied_revision =? req_seq request))
    (RuntimeError
       "adapter applied a runtime control revision inconsistent with request seq"));;
  s ← get;
  match svc_last_effective_command s with
  | Some last =>
      if (pc_target_speed_decrease change || pc_torque_decrease change) &&
         negb (pc_brake_parameters_changed change) && negb (pc_steering_changed change) &&
         negb (pc_pid_parameters_changed change) &&
         bool_decide (sm_state (svc_safety s) = SafetyControlActive)
      then
        let reapplied :=
          last <| cmd_throttle :=
            d_min (cmd_throttle last)
              (d_min (svc_max_throttle s) (profile_throttle_limit s (req_profile request))) |> in
        on_adapter (va_apply_control reapplied);;
        modify (fun s => s <| svc_last_effective_command := Some reapplied |>)
      else mret tt
  | None => mret tt
  end.

(** [ControlOutput{"N", 0.0, 0.0, 1.0, true}] *)
Definition software_estop_output : ControlOutput :=
  mkControlOutput "N" d_zero d_zero d_one true false.

Definition apply_session_profile (request : SessionControlProfileRequest) (timestamp_ms : Z)
    (change : ProfileChange) : M Svc SessionControlProfileResult :=
  applied ← try_catch (configure_profile request change;; mret true)
    (fun _ =>
       try_catch
         (on_adapter (va_apply_safe_stop software_estop_output
                        (mkVehicleStopContext SoftwareFault ControlApplyFailed)))
         (fun _ => mret tt);;
       clear_session_profile;;
       mret false);
  if (applied : bool) then
    modify (fun s => s <| svc_active_session_profile := Some (req_profile request) |>);;
    result ← gets (fun s => profile_result s request timestamp_ms true false "accepted");
    cache_result request result
  else reject_and_cache request timestamp_ms "adapter_session_profile_apply_failed".

Definition receive_session_profile (request : SessionControlProfileRequest) (timestamp_ms : Z) :
    M Svc SessionControlProfileResult :=
  require_started;;
  lift (throw_if (timestamp_ms <? 0) (InvalidArgument "receive_time_ms must be non-negative"));;
  s ← get;
  match request_identity_error s request with
  | Some reason => mret (profile_result s request timestamp_ms false false reason)
  | None =>
      replay ← replay_session_profile request timestamp_ms;
      match replay with
      | Some result => mret result
      | None =>
          match request_content_error request timestamp_ms with
          | Some reason => mret (profile_result s request timestamp_ms false false reason)
          | None =>
              match vehicle_limit_error s (req_profile request) with
              | Some reason => reject_and_cache request timestamp_ms reason
              | None =>
                  let change := profile_change s (req_profile request) in
                  gate ← parking_interlock change;
                  match gate with
                  | Some reason => reject_and_cache request timestamp_ms reason
                  | None => apply_session_profile request timestamp_ms change
                  end
              end
          end
      end
  end.

(** ** Control commands *)

Definition session_throttle_limit (s : Svc) : double :=
  match svc_active_session_profile s with
  | Some profile => profile_throttle_limit s profile
  | None => svc_max_throttle s
  end.

Definition session_steering_angle_limit (s : Svc) : double :=
  match svc_active_session_profile s with
  | Some profile => prof_max_steering_angle_deg profile
  | None => svc_max_steering_angle_deg s
  end.

Definition steering_limit (s : Svc) : double :=
  d_min (svc_max_steering_angle_deg s) (session_steering_angle_limit s) ⊘ d_lit 30 0.

(** The command within the limits of the vehicle and the session, and the
    warnings about what was cut. *)
Definition limit_command (s : Svc) (effective : ControlCommand) : ControlCommand * list string :=
  let vehicle_limited_throttle := d_min (cmd_throttle effective) (svc_max_throttle s) in
  let limited_throttle := d_min vehicle_limited_throttle (session_throttle_limit s) in
  let limit := steering_limit s in
  let limited_steering := d_clamp (cmd_steering effective) (d_neg limit) limit in
  let warnings :=
    (if vehicle_limited_throttle ≠ᵈ cmd_throttle effective
     then ["vehicle_max_throttle_applied"] else []) ++
    (if limited_throttle ≠ᵈ vehicle_limited_throttle
     then ["session_target_speed_applied"] else []) ++
    (if limited_steering ≠ᵈ cmd_steering effective
     then [if bool_decide (is_Some (svc_active_session_profile s)) &&
              (session_steering_angle_limit s ⊕ d_1e_9 <ᵈ svc_max_steering_angle_deg s)
           then "session_max_steering_applied" else "vehicle_max_steering_applied"] else []) in
  let effective := if limited_throttle ≠ᵈ cmd_throttle effective
                   then effective <| cmd_throttle := limited_throttle |> else effective in
  let effective := if limited_steering ≠ᵈ cmd_steering effective
                   then effective <| cmd_steering := limited_steering |> else effective in
  (effective, warnings).

(** [ControlOutput{"N", 0.0, 0.0, 1.0, false, true}] *)
Definition full_brake_output : ControlOutput :=
  mkControlOutput "N" d_zero d_zero d_one false true.

(** Marks the fault, stops the vehicle and revokes the profile. *)
Definition fault_stop (timestamp_ms : Z) (reason : VehicleStopReason) : M Svc unit :=
  on_safety (modify mark_fault);;
  apply_safe_stop_now timestamp_ms (mkVehicleStopContext SoftwareFault reason);;
  clear_session_profile.

(** The checks of the adapter's feedback before an ordinary command: the reason
    that refuses it, if any. *)
Definition feedback_gate (timestamp_ms : Z) (adapter_safety_observed feedback_poll_failed : bool) :
    M Svc (option string) :=
  required ← gets svc_require_feedback_before_control;
  if negb adapter_safety_observed then
    fault_stop timestamp_ms AdapterSafetyStatusUnavailable;;
    mret (Some "adapter_safety_status_unavailable")
  else if feedback_poll_failed && required then
    fault_stop timestamp_ms CanFeedbackMissing;;
    mret (Some "can_feedback_poll_failed")
  else if (required : bool) then
    ready ← on_adapter va_feedback_ready;
    if negb ready then
      on_adapter (va_apply_safe_stop full_brake_output
                    (mkVehicleStopContext SoftwareFault CanFeedbackMissing));;
      clear_session_profile;;
      mret (Some "can_feedback_missing")
    else mret None
  else mret None.

(** Hands an ordinary command to the adapter: the issue code when the adapter
    refuses it. *)
Definition apply_or_reject (command : ControlCommand) : M Svc (option string) :=
  try_catch (on_adapter (va_apply_control command);; mret None)
    (fun e => match e with
              | VehicleAdapterControlRejected issue_code _ => mret (Some issue_code)
              | _ => throw e
              end).

(** The copy of the command the safety machine remembers: its brake is on the
    vehicle's scale. *)
Definition safety_command_of (s : Svc) (command : ControlCommand) : result ControlCommand :=
  match svc_active_session_profile s with
  | Some profile =>
      if cmd_estop command then mret command
      else
        brake ← vehicle_normalized_brake_request (cmd_brake command)
                  (prof_max_brake_pressure_bar profile) (svc_max_brake_pressure_bar s);
        mret (command <| cmd_brake := brake |>)
  | None => mret command
  end.

(** The ordinary ending: the adapter first, the safety machine after it. *)
Definition commit_apply (result : ReceiveResult) (command safety_command : ControlCommand)
    (timestamp_ms : Z) : M Svc ReceiveResult :=
  rejection ← apply_or_reject command;
  match rejection with
  | Some issue_code =>
      mret (result <| rr_accepted := false |> <| rr_reason := "adapter_control_rejected" |>
                   <| rr_command := None |> <| rr_issue_code := issue_code |>)
  | None =>
      on_safety (modify (on_valid_command safety_command timestamp_ms));;
      modify (fun s => s <| svc_last_effective_command := Some command |>);;
      mret result
  end.

(** The latched ending: the safety machine first, the adapter after it. *)
Definition commit_stop (result : ReceiveResult) (safety_command : ControlCommand)
    (timestamp_ms : Z) : M Svc ReceiveResult :=
  on_safety (modify (on_valid_command safety_command timestamp_ms));;
  state ← safety_state;
  stop_active ← gets svc_adapter_safe_stop_active;
  when (negb stop_active || is_latched state)
    (when (is_latched state) clear_session_profile;;
     apply_safe_stop_now timestamp_ms
       (if bool_decide (state = SafetyEstop) then mkVehicleStopContext DriverPage OperatorEstop
        else mkVehicleStopContext SoftwareFault VcuStateFault));;
  mret result.

Definition commit_command (result : ReceiveResult) (command : ControlCommand) (timestamp_ms : Z) :
    M Svc ReceiveResult :=
  s ← get;
  safety_command ← lift (safety_command_of s command);
  if negb (cmd_estop safety_command) && negb (is_latched (sm_state (svc_safety s)))
  then commit_apply result command safety_command timestamp_ms
  else commit_stop result safety_command timestamp_ms.

(** An accepted command, from the profile check on. *)
Definition process_command (result : ReceiveResult) (effective : ControlCommand)
    (timestamp_ms : Z) : M Svc ReceiveResult :=
  s ← get;
  let ordinary := negb (cmd_estop effective) in
  if ordinary && negb (bool_decide (is_Some (svc_active_session_profile s))) then
    when (negb (svc_adapter_safe_stop_active s))
      (on_adapter (va_apply_safe_stop full_brake_output
                     (mkVehicleStopContext SoftwareFault SessionProfileRequired)));;
    mret (rejected "session_control_profile_required" [])
  else if ordinary && bool_decide (sm_state (svc_safety s) = SafetyDegraded) &&
          ((cmd_throttle effective >ᵈ d_1e_9) || (d_abs (cmd_steering effective) >ᵈ d_1e_9)) then
    mret (result <| rr_accepted := false |> <| rr_reason := "degraded_neutral_required" |>
                 <| rr_command := None |>)
  else
    let '(effective, warnings) := limit_command s effective in
    let result := result <| rr_command := Some effective |>
                         <| rr_warnings := rr_warnings result ++ warnings |> in
    feedback_poll_failed ←
      (if ordinary
       then try_catch_std (on_adapter va_poll_feedback;; mret false) (fun _ => mret true)
       else mret false);
    adapter_safety_observed ← refresh_adapter_safe_stop_state;
    stop_active ← gets svc_adapter_safe_stop_active;
    if ordinary && stop_active then
      mret (rejected "adapter_safe_stop_active" (rr_warnings result))
    else
      refusal ← (if ordinary
                 then feedback_gate timestamp_ms adapter_safety_observed feedback_poll_failed
                 else mret None);
      match refusal with
      | Some reason => mret (rejected reason (rr_warnings result))
      | None => commit_command result effective timestamp_ms
      end.

Definition receive_command (command : ControlCommand) (timestamp_ms : Z) : M Svc ReceiveResult :=
  require_started;;
  result ←
    (if cmd_estop command then
       result ← on_receiver (accept command timestamp_ms);
       match rr_accepted result, rr_command result with
       | true, Some accepted =>
           on_safety (modify (on_valid_command accepted timestamp_ms));;
           clear_session_profile
       | _, _ => evaluate_control_watchdog timestamp_ms
       end;;
       mret result
     else
       evaluate_control_watchdog timestamp_ms;;
       on_receiver (accept command timestamp_ms));
  match rr_accepted result, rr_command result with
  | true, Some effective => process_command result effective timestamp_ms
  | _, _ => mret result
  end.

(** ** Handshake, reset, close *)

Definition request_vcu_handshake : M Svc bool :=
  require_started;;
  s ← get;
  if negb (bool_decide (is_Some (svc_active_session_profile s))) then mret false
  else if is_latched (sm_state (svc_safety s)) then mret false
  else
    requested ← on_adapter va_request_vcu_handshake;
    if negb requested then mret false
    else
      standby ← on_safety reset_to_standby;
      if negb standby then mret false
      else modify (fun s => s <| svc_adapter_safe_stop_active := false |>);; mret true.

Definition disconnect_vcu_handshake : M Svc bool :=
  require_started;;
  disconnected ← on_adapter va_disconnect_vcu_handshake;
  when disconnected
    (modify (fun s => s <| svc_adapter_safe_stop_active := true |>);; clear_session_profile);;
  mret disconnected.

(** The first [try] block of [reset_estop]: the gear, or [None] when the reset
    must be refused. *)
Definition observe_for_reset : M Svc (option string) :=
  try_catch
    (telemetry ← on_adapter va_read_telemetry;
     handshake ← on_adapter va_vcu_handshake_status;
     modify (fun s => s <| svc_adapter_safe_stop_active :=
                             tel_estop telemetry || vh_disarming handshake |>);;
     mret (if vh_disarming handshake then None else Some (tel_gear telemetry)))
    (fun _ => mret None).

Definition reset_estop (local_confirmed : bool) (authorized_by : string) : M Svc bool :=
  state ← safety_state;
  if negb (bool_decide (state = SafetyEstop)) || negb local_confirmed ||
     string_empty authorized_by
  then mret false
  else
    observed ← observe_for_reset;
    match observed with
    | None => mret false
    | Some adapter_gear =>
        released ← try_catch
          (on_adapter (va_apply_safe_stop
                         (mkControlOutput adapter_gear d_zero d_zero d_zero false false)
                         VehicleStopContext_default);;
           mret true)
          (fun _ => modify (fun s => s <| svc_adapter_safe_stop_active := true |>);; mret false);
        if negb released then mret false
        else
          was_reset ← on_safety (safety_reset_estop local_confirmed authorized_by);
          if negb was_reset then mret false
          else
            modify (fun s => s <| svc_adapter_safe_stop_active := false |>);;
            refresh_adapter_safe_stop_state;;
            mret true
    end.

Definition close (context : VehicleStopContext) : M Svc unit :=
  started ← gets svc_started;
  if negb started then mret tt
  else
    on_adapter (va_apply_safe_stop software_estop_output context);;
    clear_session_profile;;
    on_adapter va_close;;
    modify (fun s => s <| svc_started := false |>).

(** The destructor. *)
Definition destroy : M Svc unit :=
  try_catch (close (mkVehicleStopContext Session SessionLost)) (fun _ => mret tt).

(** ** Telemetry *)

Definition control_limits (s : Svc) : json := svc_control_limits s.

Definition session_control_profile (s : Svc) : result json :=
  let last := svc_last_session_profile_result s in
  effective ← match svc_active_session_profile s with
              | Some profile => SessionControlProfile_to_json profile
              | None => mret j_null
              end;
  mret (j_object
    [("last_request_seq",
      match svc_last_session_profile_request s with
      | Some request => j_uint (req_seq request)
      | None => j_null
      end);
     ("active", j_bool (bool_decide (is_Some (svc_active_session_profile s))));
     ("accepted", j_bool match last with Some r => res_accepted r | None => false end);
     ("idempotent", j_bool match last with Some r => res_idempotent r | None => false end);
     ("applied_revision", j_uint match last with Some r => res_applied_revision r | None => 0 end);
     ("reason", j_string match last with Some r => res_reason r | None => "not_received" end);
     ("effective_profile", effective)]).

Definition build_telemetry (timestamp_ms : Z) : M Svc json :=
  telemetry ← on_adapter va_read_telemetry;
  modify (fun s => s <| svc_telemetry_sequence ::= fun n => u64 (n + 1) |>);;
  seq ← gets svc_telemetry_sequence;
  status ← on_adapter va_status;
  handshake ← on_adapter va_vcu_handshake_status;
  s ← get;
  profile ← lift (session_control_profile s);
  mret (j_object
    [("event", j_string "vehicle_telemetry");
     ("protocol_version", j_int kProtocolVersion);
     ("vehicle_id", j_string (svc_vehicle_id s));
     ("driver_id", j_string (svc_driver_id s));
     ("session_id", j_string (svc_session_id s));
     ("seq", j_uint seq);
     ("sent_at_utc_ms", j_int timestamp_ms);
     ("safety_state", j_string (SafetyState_to_string (sm_state (svc_safety s))));
     ("speed_mps", j_double (tel_speed_mps telemetry));
     ("gear", j_string (tel_gear telemetry));
     ("steering_feedback", j_double (tel_steering_feedback telemetry));
     ("throttle_feedback", j_double (tel_throttle_feedback telemetry));
     ("brake_feedback", j_double (tel_brake_feedback telemetry));
     ("estop", j_bool (tel_estop telemetry));
     ("stop_source", j_string (tel_stop_source telemetry));
     ("stop_reason", j_string (tel_stop_reason telemetry));
     ("stop_sequence", j_uint (tel_stop_sequence telemetry));
     ("can_feedback", VehicleCanFeedback_to_json (tel_can_feedback telemetry));
     ("vehicle_adapter", VehicleAdapterStatus_to_json status);
     ("vcu_handshake", VcuHandshakeStatus_to_json handshake);
     ("control_limits", control_limits s);
     ("session_control_profile", profile)]).

Definition summary : M Svc json :=
  status ← on_adapter va_status;
  handshake ← on_adapter va_vcu_handshake_status;
  s ← get;
  profile ← lift (session_control_profile s);
  mret (j_object
    [("event", j_string "vehicle_control_summary");
     ("vehicle_id", j_string (svc_vehicle_id s));
     ("session_id", j_string (svc_session_id s));
     ("safety_state", j_string (SafetyState_to_string (sm_state (svc_safety s))));
     ("telemetry_count", j_uint (svc_telemetry_sequence s));
     ("telemetry_retained_count", j_uint (Z.of_nat (length (svc_telemetry_history s))));
     ("vehicle_adapter", VehicleAdapterStatus_to_json status);
     ("vcu_handshake", VcuHandshakeStatus_to_json handshake);
     ("control_limits", control_limits s);
     ("session_control_profile", profile)]).

(** The telemetry block of [tick]. *)
Definition record_telemetry (timestamp_ms : Z) : M Svc unit :=
  s ← get;
  if match svc_last_telemetry_ms s with
     | None => true
     | Some last => svc_telemetry_interval_ms s <=? timestamp_ms - last
     end
  then
    try_catch
      (when (bool_decide (length (svc_telemetry_history s) = kMaxVehicleTelemetryHistory))
         (modify (fun s => s <| svc_telemetry_history ::= tail |>));;
       telemetry ← build_telemetry timestamp_ms;
       modify (fun s => s <| svc_telemetry_history ::= fun h => h ++ [telemetry] |>
                          <| svc_last_telemetry_ms := Some timestamp_ms |>))
      (fun _ => mret tt)
  else mret tt.

Definition tick (timestamp_ms : Z) : M Svc unit :=
  require_started;;
  feedback_poll_failed ←
    try_catch_std (on_adapter va_poll_feedback;; mret false) (fun _ => mret true);
  adapter_safety_observed ← refresh_adapter_safe_stop_state;
  s ← get;
  when ((negb adapter_safety_observed || feedback_poll_failed) &&
        negb (svc_adapter_safe_stop_active s) && svc_require_feedback_before_control s &&
        negb (is_latched (sm_state (svc_safety s))))
    (on_safety (modify mark_fault));;
  evaluate_control_watchdog timestamp_ms;;
  record_telemetry timestamp_ms.

(** ** Executions *)

(** A call of the service from outside. *)
Inductive service_op : Type :=
| SvcStart
| SvcCommand (command : ControlCommand) (timestamp_ms : Z)
| SvcProfile (request : SessionControlProfileRequest) (timestamp_ms : Z)
| SvcTick (timestamp_ms : Z)
| SvcRequestHandshake
| SvcDisconnectHandshake
| SvcResetEstop (local_confirmed : bool) (authorized_by : string)
| SvcClose (context : VehicleStopContext)
| SvcSummary.

Definition service_step (op : service_op) (s : Svc) : Svc :=
  match op with
  | SvcStart => (start s).2
  | SvcCommand command t => (receive_command command t s).2
  | SvcProfile request t => (receive_session_profile request t s).2
  | SvcTick t => (tick t s).2
  | SvcRequestHandshake => (request_vcu_handshake s).2
  | SvcDisconnectHandshake => (disconnect_vcu_handshake s).2
  | SvcResetEstop confirmed by_ => (reset_estop confirmed by_ s).2
  | SvcClose context => (close context s).2
  | SvcSummary => (summary s).2
  end.

Definition service_run (ops : list service_op) (s : Svc) : Svc :=
  foldl (fun s op => service_step op s) s ops.

Definition is_service_reset (op : service_op) : bool :=
  match op with
  | SvcResetEstop confirmed by_ => confirmed && negb (string_empty by_)
  | _ => false
  end.
End service.
