(* ===== verification/ServiceSafety.v ===== *)
(** ServiceSafety: what the control service guarantees with any adapter.

    - [handler_frame]: the closure conditions under which a predicate on the
      service survives every handler; one preservation lemma per handler;
    - the safety machine inside the service only ever takes its own steps;
    - [Logged]: an adapter that records the actuator calls it is asked to make,
      over any adapter; the theorems about which calls are made use it. *)
From S2P Require Export ControlService.

Section frame.
Context {J : JsonApi} {A : Type} {VA : VehicleAdapter A}.
Notation Svc := (VehicleControlService J A).

(** The operations of the adapter other than [apply_control]. *)
Inductive quiet : forall {R : Type}, M A R -> Prop :=
| quiet_open : quiet va_open
| quiet_close : quiet va_close
| quiet_configure profile revision : quiet (va_configure_runtime_control_profile profile revision)
| quiet_clear : quiet va_clear_runtime_control_profile
| quiet_safe_stop output context : quiet (va_apply_safe_stop output context)
| quiet_poll : quiet va_poll_feedback
| quiet_request : quiet va_request_vcu_handshake
| quiet_disconnect : quiet va_disconnect_vcu_handshake
| quiet_ready : quiet va_feedback_ready
| quiet_handshake : quiet va_vcu_handshake_status
| quiet_telemetry : quiet va_read_telemetry
| quiet_status : quiet va_status.

(** An update of the service's own fields: neither the safety machine nor the
    adapter nor the receiver nor a limit nor the session; the active profile may
    go, and the remembered answer with it. *)
Record local_same (s s' : Svc) : Prop := {
  ls_safety : svc_safety s' = svc_safety s;
  ls_adapter : svc_adapter s' = svc_adapter s;
  ls_receiver : svc_receiver s' = svc_receiver s;
  ls_speed : svc_max_speed_kph s' = svc_max_speed_kph s;
  ls_throttle : svc_max_throttle s' = svc_max_throttle s;
  ls_steering : svc_max_steering_angle_deg s' = svc_max_steering_angle_deg s;
  ls_vehicle : svc_vehicle_id s' = svc_vehicle_id s;
  ls_driver : svc_driver_id s' = svc_driver_id s;
  ls_session : svc_session_id s' = svc_session_id s;
  ls_token : svc_control_token s' = svc_control_token s;
  ls_profile : svc_active_session_profile s' = svc_active_session_profile s \/
               svc_active_session_profile s' = None;
  ls_result : svc_last_session_profile_result s' = svc_last_session_profile_result s \/
              svc_last_session_profile_result s' =
                fmap clear_result (svc_last_session_profile_result s);
  ls_required : svc_require_feedback_before_control s' = svc_require_feedback_before_control s;
}.

Definition local_update (f : Svc -> Svc) : Prop := forall s, local_same s (f s).

(** Quiet adapter calls and local updates preserve [I]. *)
Record handler_frame (I : Svc -> Prop) : Prop := {
  hf_quiet : forall R (m : M A R), quiet m -> keeps I (on_adapter m);
  hf_local : forall f, local_update f -> keeps I (modify f);
}.

(** Remembering an answer preserves [I]. *)
Definition answer_frame (I : Svc -> Prop) : Prop :=
  (forall request result, keeps I (modify (fun s =>
     s <| svc_last_session_profile_request := Some request |>
       <| svc_last_session_profile_result := Some result |>))) /\
  (forall result, keeps I (modify (fun s =>
     s <| svc_last_session_profile_result := Some result |>))).

Lemma handler_frame_and (I K : Svc -> Prop) :
  handler_frame I -> handler_frame K -> handler_frame (fun s => I s /\ K s).
Proof.
  intros [Q1 L1] [Q2 L2]. split.
  - intros R m Hm s [H1 H2]. split; [by apply Q1 | by apply Q2].
  - intros f Hf s [H1 H2]. split; [by apply (L1 f Hf) | by apply (L2 f Hf)].
Qed.

(** No profile is active. *)
Definition no_profile (s : Svc) : Prop := svc_active_session_profile s = None.

(** The machine steps taken outside [reset_estop] preserve [I]. *)
Definition safety_frame (I : Svc -> Prop) : Prop :=
  forall op, is_local_reset op = false -> keeps I (on_safety (modify (safety_step op))).

Definition receiver_frame (I : Svc -> Prop) : Prop :=
  forall c t, keeps I (on_receiver (accept c t)).

(** [apply_control] is harmless for [I] unless the machine is latched. *)
Definition apply_frame (I : Svc -> Prop) : Prop :=
  forall c s, I s -> is_latched (sm_state (svc_safety s)) = false ->
    I (on_adapter (va_apply_control c) s).2.

(** Installing a profile preserves [I]. *)
Definition profile_frame (I : Svc -> Prop) : Prop :=
  forall p, keeps I (modify (fun s => s <| svc_active_session_profile := Some p |>)).

(** The two [noexcept] members do not throw. *)
Lemma clear_session_profile_ok (s : Svc) : (clear_session_profile s).1 = Ok tt.
Proof.
  unfold clear_session_profile, mbind, M_bind, modify, try_catch, mret, M_ret. simpl.
  repeat case_match; simplify_eq/=; try done. by destruct_or?; destruct value.
Qed.

Lemma refresh_ok (s : Svc) : exists b, (refresh_adapter_safe_stop_state s).1 = Ok b.
Proof.
  unfold refresh_adapter_safe_stop_state, try_catch, mret, M_ret. simpl.
  case_match; case_match; simplify_eq/=; eauto.
Qed.

Lemma on_adapter_state {R} (m : M A R) (s : Svc) :
  (on_adapter m s).2 = s <| svc_adapter := (m (svc_adapter s)).2 |>.
Proof. unfold on_adapter, zoom. by destruct (m (svc_adapter s)). Qed.

Lemma on_receiver_state {R} (m : M ControlReceiver R) (s : Svc) :
  (on_receiver m s).2 = s <| svc_receiver := (m (svc_receiver s)).2 |>.
Proof. unfold on_receiver, zoom. by destruct (m (svc_receiver s)). Qed.

Lemma on_safety_state {R} (m : M SafetyStateMachine R) (s : Svc) :
  (on_safety m s).2 = s <| svc_safety := (m (svc_safety s)).2 |>.
Proof. unfold on_safety, zoom. by destruct (m (svc_safety s)). Qed.

Lemma no_profile_frame : handler_frame no_profile.
Proof.
  split.
  - intros R m _ s. by rewrite on_adapter_state.
  - intros f Hf s H. unfold no_profile in *. simpl.
    by destruct (ls_profile _ _ (Hf s)) as [-> | ->].
Qed.

Section handlers.
Context (I : Svc -> Prop) (HF : handler_frame I).

Local Ltac frame_step :=
  match goal with
  | |- keeps _ (on_adapter _) => apply (hf_quiet I HF); constructor
  | H : receiver_frame I |- keeps _ (on_receiver (accept _ _)) => apply H
  | H : safety_frame I |- keeps _ (on_safety (modify (safety_tick ?t))) =>
      apply (H (OpTick t) eq_refl)
  | H : safety_frame I |- keeps _ (on_safety (modify mark_ready)) => apply (H OpMarkReady eq_refl)
  | H : safety_frame I |- keeps _ (on_safety (modify mark_fault)) => apply (H OpMarkFault eq_refl)
  | H : safety_frame I |- keeps _ (on_safety (modify (on_valid_command ?c ?t))) =>
      apply (H (OpCommand c t) eq_refl)
  | |- keeps _ (modify _) => apply (hf_local I HF); intros ?; split; simpl; tauto
  | H : answer_frame I |- keeps _ (modify _) => first [apply (proj1 H) | apply (proj2 H)]
  | |- _ => keeps_step
  end.
Local Ltac frame_auto := repeat frame_step.

Lemma clear_session_profile_keeps : keeps I clear_session_profile.
Proof. unfold clear_session_profile. frame_auto. Qed.
Hint Resolve clear_session_profile_keeps : keeps.

(** Clearing the profile clears it, whatever the adapter answers. *)
Lemma clear_session_profile_clears (E : Svc -> Prop) :
  hoare I clear_session_profile (fun _ s => I s /\ no_profile s) E.
Proof.
  intros s H. pose proof (clear_session_profile_ok s) as Hok.
  assert (Hc : I (clear_session_profile s).2 /\ no_profile (clear_session_profile s).2).
  2: { by destruct (clear_session_profile s) as [[] ?]. }
  split; [by apply clear_session_profile_keeps |].
  unfold clear_session_profile. eapply (leads_then (fun _ => True) no_profile); [| | done].
  { intros s' _. done. }
  intros _. apply keeps_try; [| intros; apply keeps_ret].
  apply (hf_quiet _ no_profile_frame). constructor.
Qed.

Lemma apply_safe_stop_now_keeps t c : keeps I (apply_safe_stop_now t c).
Proof. unfold apply_safe_stop_now. frame_auto. Qed.
Hint Resolve apply_safe_stop_now_keeps : keeps.

Lemma refresh_keeps : keeps I refresh_adapter_safe_stop_state.
Proof. unfold refresh_adapter_safe_stop_state. frame_auto. Qed.
Hint Resolve refresh_keeps : keeps.

Lemma watchdog_react_keeps t : keeps I (watchdog_react t).
Proof. unfold watchdog_react, safety_state. frame_auto. Qed.
Hint Resolve watchdog_react_keeps : keeps.

Lemma require_started_keeps : keeps I require_started.
Proof. unfold require_started. frame_auto. Qed.
Hint Resolve require_started_keeps : keeps.

Lemma parking_interlock_keeps c : keeps I (parking_interlock c).
Proof. unfold parking_interlock. frame_auto. Qed.
Hint Resolve parking_interlock_keeps : keeps.

Lemma build_telemetry_keeps t : keeps I (build_telemetry t).
Proof. unfold build_telemetry. frame_auto. Qed.
Hint Resolve build_telemetry_keeps : keeps.

Lemma record_telemetry_keeps t : keeps I (record_telemetry t).
Proof. unfold record_telemetry. frame_auto. Qed.
Hint Resolve record_telemetry_keeps : keeps.

Lemma observe_for_reset_keeps : keeps I observe_for_reset.
Proof. unfold observe_for_reset. frame_auto. Qed.
Hint Resolve observe_for_reset_keeps : keeps.

Lemma disconnect_keeps : keeps I disconnect_vcu_handshake.
Proof. unfold disconnect_vcu_handshake. frame_auto. Qed.

Lemma close_keeps c : keeps I (close c).
Proof. unfold close. frame_auto. Qed.

Lemma summary_keeps : keeps I summary.
Proof. unfold summary. frame_auto. Qed.

(** From here on the safety machine moves. *)
Context (HS : safety_frame I).

Lemma watchdog_keeps t : keeps I (evaluate_control_watchdog t).
Proof. unfold evaluate_control_watchdog. frame_auto. Qed.
Hint Resolve watchdog_keeps : keeps.

Lemma fault_stop_keeps t r : keeps I (fault_stop t r).
Proof. unfold fault_stop. frame_auto. Qed.
Hint Resolve fault_stop_keeps : keeps.

Lemma feedback_gate_keeps t o f : keeps I (feedback_gate t o f).
Proof. unfold feedback_gate. frame_auto. Qed.
Hint Resolve feedback_gate_keeps : keeps.

Lemma start_keeps : keeps I start.
Proof. unfold start. frame_auto. Qed.


Lemma tick_keeps t : keeps I (tick t).
Proof. unfold tick. frame_auto. Qed.


Lemma on_safety_standby_keeps : keeps I (on_safety reset_to_standby).
Proof.
  intros s H. pose proof (HS OpResetToStandby eq_refl s H) as H'.
  unfold on_safety, zoom, modify in *. simpl in *.
  by destruct (reset_to_standby (svc_safety s)).
Qed.
Hint Resolve on_safety_standby_keeps : keeps.

Lemma request_handshake_keeps : keeps I request_vcu_handshake.
Proof. unfold request_vcu_handshake. frame_auto. Qed.

(** Commands: an ordinary one needs [apply_frame]. *)
Definition may_apply (s : Svc) : Prop :=
  I s /\ is_latched (sm_state (svc_safety s)) = false.

Lemma apply_or_reject_leads c : apply_frame I -> leads may_apply I (apply_or_reject c).
Proof.
  intros Happly s [Hs Hl]. specialize (Happly c s Hs Hl).
  unfold apply_or_reject, try_catch, mbind, M_bind, mret, M_ret.
  destruct (on_adapter (va_apply_control c) s) as [[[] | e] s'] eqn:E; simpl in *; [done |].
  by destruct e.
Qed.

Lemma commit_apply_leads r c sc t : apply_frame I -> leads may_apply I (commit_apply r c sc t).
Proof.
  intros Happly. apply leads_then; [by apply apply_or_reject_leads |]. frame_auto.
Qed.

Lemma commit_stop_keeps r sc t : keeps I (commit_stop r sc t).
Proof. unfold commit_stop, safety_state. frame_auto. Qed.

Lemma safety_command_of_estop (s : Svc) c sc :
  safety_command_of s c = Ok sc -> cmd_estop sc = cmd_estop c.
Proof.
  unfold safety_command_of. destruct (svc_active_session_profile s); [| by intros [= <-]].
  destruct (cmd_estop c) eqn:E; [by intros [= <-] |].
  intros H. apply result_bind_ok in H as (? & _ & H). by injection H as <-.
Qed.

Lemma commit_command_keeps r c t :
  cmd_estop c = true \/ apply_frame I -> keeps I (commit_command r c t).
Proof.
  intros Hc. apply (leads_get I I). intros s Hs.
  eapply (leads_ensures _ _ (fun sc s' => s' = s /\ cmd_estop sc = cmd_estop c)).
  { intros s' ->. unfold lift. destruct (safety_command_of s c) eqn:E; [| done].
    by apply safety_command_of_estop in E. }
  intros sc. destruct (negb (cmd_estop sc) && _) eqn:E.
  - bool_prop. apply (leads_weaken _ _ (fun s' => may_apply s' /\ apply_frame I)).
    + intros s' [-> Hsc]. split; [done |]. destruct Hc; [congruence | done].
    + intros s' [Hs' Happly]. by apply commit_apply_leads.
  - apply (leads_weaken _ _ I); [by intros s' [-> _] | apply commit_stop_keeps].
Qed.

Lemma limit_command_estop (s : Svc) c : cmd_estop (limit_command s c).1 = cmd_estop c.
Proof.
  unfold limit_command; simpl.
  by destruct (_ ≠ᵈ cmd_throttle c), (_ ≠ᵈ cmd_steering _).
Qed.
Hint Resolve commit_command_keeps : keeps.

Lemma process_command_keeps r c t :
  cmd_estop c = true \/ apply_frame I -> keeps I (process_command r c t).
Proof.
  intros Hc. unfold process_command. apply keeps_get_bind. intros s _.
  pose proof (limit_command_estop s c) as El. destruct (limit_command s c) as [c' w].
  simpl in El. rewrite <- El in Hc. frame_auto. all: eauto with keeps.
Qed.

Lemma receive_command_keeps c t : receiver_frame I -> apply_frame I -> keeps I (receive_command c t).
Proof.
  intros Hreceiver Happly. unfold receive_command. frame_auto. all: eauto using process_command_keeps.
Qed.

Lemma configure_profile_keeps r c : apply_frame I -> keeps I (configure_profile r c).
Proof.
  intros Happly. unfold configure_profile.
  apply keeps_bind; [frame_auto | intros revision].
  apply keeps_bind; [frame_auto | intros _].
  apply (leads_get I I). intros s Hs.
  destruct (svc_last_effective_command s) as [last |];
    [| apply (leads_weaken _ _ I); [by intros s' -> | apply keeps_ret]].
  destruct (_ && bool_decide _) eqn:E;
    [| apply (leads_weaken _ _ I); [by intros s' -> | apply keeps_ret]].
  bool_prop. match goal with H : bool_decide _ = true |- _ => apply bool_decide_eq_true in H end.
  apply leads_then; [| frame_auto].
  intros s' ->. apply Happly; [done |]. unfold is_latched.
  by match goal with H : sm_state _ = _ |- _ => rewrite H end.
Qed.

Lemma receive_session_profile_keeps r t :
  apply_frame I -> profile_frame I -> answer_frame I -> keeps I (receive_session_profile r t).
Proof.
  intros Happly Hprofile Hanswer.
  unfold receive_session_profile, replay_session_profile, reject_and_cache, cache_result.
  frame_auto.
  unfold apply_session_profile, reject_and_cache, cache_result. frame_auto.
  all: eauto using configure_profile_keeps.
Qed.

Lemma reset_estop_keeps confirmed by_ :
  (confirmed && negb (string_empty by_) = true ->
   keeps I (on_safety (safety_reset_estop confirmed by_))) ->
  keeps I (reset_estop confirmed by_).
Proof.
  intros Hreset. unfold reset_estop, safety_state.
  destruct (confirmed && negb (string_empty by_)) eqn:E.
  - specialize (Hreset eq_refl). frame_auto.
  - apply keeps_gets_bind. intros s _.
    assert (H : forall b, b || negb confirmed || string_empty by_ = true).
    { intros b. destruct b, confirmed, (string_empty by_); done. }
    rewrite H. apply keeps_ret.
Qed.
End handlers.

(** Every operation preserves a predicate with its frame. *)
Lemma service_step_keeps (I : Svc -> Prop) op s :
  handler_frame I -> safety_frame I -> receiver_frame I -> apply_frame I ->
  (forall request t, op = SvcProfile request t -> keeps I (receive_session_profile request t)) ->
  (forall confirmed by_, op = SvcResetEstop confirmed by_ ->
     confirmed && negb (string_empty by_) = true ->
     keeps I (on_safety (safety_reset_estop confirmed by_))) ->
  I s -> I (service_step op s).
Proof.
  intros HF HS HR Happly Hprofile Hreset Hs.
  destruct op; simpl; revert s Hs; fold (keeps I start).
  - by apply start_keeps.
  - by apply receive_command_keeps.
  - by apply Hprofile.
  - by apply tick_keeps.
  - by apply request_handshake_keeps.
  - by apply disconnect_keeps.
  - apply reset_estop_keeps; eauto.
  - by apply close_keeps.
  - by apply summary_keeps.
Qed.

(** ** The safety machine inside the service *)

(** [s] comes from [s0] by steps of the safety machine; [reset] says whether a
    confirmed local reset may be among them. *)
Definition evolves (reset : bool) (s0 s : Svc) : Prop :=
  exists ops, (reset = false -> forallb (fun op => negb (is_local_reset op)) ops = true) /\
    svc_safety s = safety_run ops (svc_safety s0).

Lemma evolves_refl reset s : evolves reset s s.
Proof. by exists []. Qed.

Lemma evolves_same reset s0 s s' :
  svc_safety s' = svc_safety s -> evolves reset s0 s -> evolves reset s0 s'.
Proof. intros E (ops & H & Hrun). exists ops. by rewrite E. Qed.

Lemma evolves_step reset s0 s s' op :
  (reset = false -> is_local_reset op = false) ->
  svc_safety s' = safety_step op (svc_safety s) -> evolves reset s0 s -> evolves reset s0 s'.
Proof.
  intros Hop E (ops & H & Hrun). exists (ops ++ [op]). split.
  - intros Hr. rewrite forallb_app, (H Hr). simpl. by rewrite (Hop Hr).
  - unfold safety_run in *. by rewrite E, foldl_app, Hrun.
Qed.

Lemma evolves_frame reset s0 : handler_frame (evolves reset s0).
Proof.
  split.
  - intros R m _ s. rewrite on_adapter_state. by apply evolves_same.
  - intros f Hf s. apply evolves_same. simpl. by rewrite (ls_safety _ _ (Hf s)).
Qed.

Lemma evolves_safety reset s0 : safety_frame (evolves reset s0).
Proof. intros op Hop s. rewrite on_safety_state. by apply (evolves_step _ _ _ _ op). Qed.

Lemma evolves_receiver reset s0 : receiver_frame (evolves reset s0).
Proof. intros c t s. rewrite on_receiver_state. by apply evolves_same. Qed.

Lemma evolves_apply reset s0 : apply_frame (evolves reset s0).
Proof. intros c s H _. rewrite on_adapter_state. revert H. by apply evolves_same. Qed.

Lemma evolves_profile reset s0 : profile_frame (evolves reset s0).
Proof. intros p s. by apply evolves_same. Qed.

Lemma evolves_answer reset s0 : answer_frame (evolves reset s0).
Proof. by split; [intros r x s | intros x s]; apply evolves_same. Qed.

Lemma service_step_evolves op s : evolves (is_service_reset op) s (service_step op s).
Proof.
  apply service_step_keeps;
    auto using evolves_frame, evolves_safety, evolves_receiver, evolves_apply,
       receive_session_profile_keeps, evolves_profile, evolves_answer, evolves_refl.
  intros confirmed by_ -> Hc s'. rewrite on_safety_state.
  apply (evolves_step _ _ _ _ (OpResetEstop confirmed by_)); [| done].
  simpl. by rewrite Hc.
Qed.
End frame.

Lemma service_run_latched {J : JsonApi} {A : Type} {VA : VehicleAdapter A} ops
    (s : VehicleControlService J A) :
  latched (svc_safety s) -> forallb (fun op => negb (is_service_reset op)) ops = true ->
  latched (svc_safety (service_run ops s)).
Proof.
  revert s. induction ops as [| op ops IH]; intros s Hl H; simpl in *; [done |]. bool_prop.
  apply IH; [| done].
  destruct (service_step_evolves op s) as (sops & Hr & Hrun). rewrite Hrun.
  apply safety_run_latched; auto.
Qed.
