(* ===== verification/ServiceCalls.v ===== *)
(** ServiceCalls: which actuator calls the control service makes.

    [Logged A] is the adapter [A] with a record of the [apply_control] and
    [apply_safe_stop] calls it was asked to make, in order, whether they
    succeeded or not.  The theorems state, for any adapter underneath: an
    ordinary command reaches the actuators only through every guard and within
    the limits; an emergency stop always latches, revokes the profile and calls
    the full stop. *)
From S2P Require Export ServiceSafety.

(** ** The recording adapter *)

Inductive adapter_call : Type :=
| CallApply (command : ControlCommand)
| CallStop (output : ControlOutput) (context : VehicleStopContext).

Record Logged (A : Type) := mkLogged { lg_inner : A; lg_calls : list adapter_call }.
Arguments mkLogged {A}.
Arguments lg_inner {A}.
Arguments lg_calls {A}.

Section logged.
Context {A : Type} {VA : VehicleAdapter A}.

Definition inner {R} (m : M A R) : M (Logged A) R :=
  zoom lg_inner (fun a l => mkLogged a (lg_calls l)) m.

Definition logging {R} (call : adapter_call) (m : M A R) : M (Logged A) R := fun l =>
  inner m (mkLogged (lg_inner l) (lg_calls l ++ [call])).

#[global] Instance logged_adapter : VehicleAdapter (Logged A) := {|
  va_open := inner va_open;
  va_close := inner va_close;
  va_configure_runtime_control_profile p r := inner (va_configure_runtime_control_profile p r);
  va_clear_runtime_control_profile := inner va_clear_runtime_control_profile;
  va_session_motor_torque_limit_nm := inner va_session_motor_torque_limit_nm;
  va_session_brake_pressure_limit_bar := inner va_session_brake_pressure_limit_bar;
  va_apply_control c := logging (CallApply c) (va_apply_control c);
  va_apply_safe_stop o x := logging (CallStop o x) (va_apply_safe_stop o x);
  va_poll_feedback := inner va_poll_feedback;
  va_request_vcu_handshake := inner va_request_vcu_handshake;
  va_disconnect_vcu_handshake := inner va_disconnect_vcu_handshake;
  va_feedback_ready := inner va_feedback_ready;
  va_vcu_handshake_status := inner va_vcu_handshake_status;
  va_read_telemetry := inner va_read_telemetry;
  va_status := inner va_status;
|}.
End logged.

(** The commands applied, oldest first. *)
Definition applied_calls (calls : list adapter_call) : list ControlCommand :=
  omap (fun call => match call with CallApply c => Some c | CallStop _ _ => None end) calls.

Section calls.
Context {J : JsonApi} {A : Type} {VA : VehicleAdapter A}.
Notation Svc := (VehicleControlService J (Logged A)).

Definition applied (s : Svc) : list ControlCommand := applied_calls (lg_calls (svc_adapter s)).

Lemma inner_calls {R} (m : M A R) l : lg_calls (inner m l).2 = lg_calls l.
Proof. unfold inner, zoom. by destruct (m (lg_inner l)). Qed.

Lemma logging_calls {R} call (m : M A R) l :
  lg_calls (logging call m l).2 = lg_calls l ++ [call].
Proof. unfold logging. by rewrite inner_calls. Qed.

Lemma quiet_applied {R} (m : M (Logged A) R) (s : Svc) :
  quiet m -> applied (on_adapter m s).2 = applied s.
Proof.
  intros Hq. rewrite on_adapter_state. unfold applied. simpl.
  destruct Hq; simpl; rewrite ?inner_calls, ?logging_calls; try done.
  unfold applied_calls. rewrite omap_app. simpl. by rewrite app_nil_r.
Qed.

Lemma apply_applied c (s : Svc) : applied (on_adapter (va_apply_control c) s).2 = applied s ++ [c].
Proof.
  rewrite on_adapter_state. unfold applied. simpl. rewrite logging_calls.
  unfold applied_calls. by rewrite omap_app.
Qed.

(** A predicate on the applied commands only. *)
Lemma applied_frame (P : list ControlCommand -> Prop) :
  handler_frame (fun s : Svc => P (applied s)).
Proof.
  split.
  - intros R m Hq s. by rewrite quiet_applied.
  - intros f Hf s. unfold applied. simpl. by rewrite (ls_adapter _ _ (Hf s)).
Qed.

Lemma applied_safety_frame (P : list ControlCommand -> Prop) :
  safety_frame (fun s : Svc => P (applied s)).
Proof. intros op _ s. by rewrite on_safety_state. Qed.

Lemma applied_receiver_frame (P : list ControlCommand -> Prop) :
  receiver_frame (fun s : Svc => P (applied s)).
Proof. intros c t s. by rewrite on_receiver_state. Qed.

(** ** An ordinary command on its way to the actuators *)

(** [s] has the limits, the applied commands and the safety machine of the
    start, and at most lost its profile. *)
Definition approaching (s0 : Svc) (machine : SafetyStateMachine) (s : Svc) : Prop :=
  svc_max_speed_kph s = svc_max_speed_kph s0 /\
  svc_max_throttle s = svc_max_throttle s0 /\
  svc_max_steering_angle_deg s = svc_max_steering_angle_deg s0 /\
  (svc_active_session_profile s = svc_active_session_profile s0 \/
   svc_active_session_profile s = None) /\
  svc_safety s = machine /\
  applied s = applied s0.

Lemma approaching_frame s0 machine : handler_frame (approaching s0 machine).
Proof.
  split.
  - intros R m Hq s H. unfold approaching in *. rewrite quiet_applied by done.
    by rewrite on_adapter_state.
  - intros f Hf s (H1 & H2 & H3 & H4 & H5 & H6). simpl.
    destruct (Hf s) as [E1 E2 E3 E4 E5 E6 _ _ _ _ E7 _].
    unfold approaching, applied in *. rewrite E1, E2, E4, E5, E6.
    split_and!; try done. destruct E7 as [-> | ->]; tauto.
Qed.

(** The receiver is not touched by the watchdog. *)
Lemma receiver_same_frame r : handler_frame (fun s : Svc => svc_receiver s = r).
Proof.
  split.
  - intros R m _ s. by rewrite on_adapter_state.
  - intros f Hf s <-. simpl. by rewrite (ls_receiver _ _ (Hf s)).
Qed.

(** The commands a call may have applied. *)
Definition guarded (s0 : Svc) (c : ControlCommand) (t : Z) (commands : list ControlCommand) :
    Prop :=
  commands = applied s0 \/
  exists p,
    commands = applied s0 ++ [(limit_command s0 c).1] /\
    cmd_estop c = false /\ admissible (svc_receiver s0) c t /\
    ~ latched (safety_tick t (svc_safety s0)) /\
    svc_active_session_profile s0 = Some p /\
    (sm_state (safety_tick t (svc_safety s0)) = SafetyDegraded ->
     (cmd_throttle c >ᵈ d_1e_9) = false /\ (d_abs (cmd_steering c) >ᵈ d_1e_9) = false).

Lemma is_latched_iff m : is_latched (sm_state m) = true <-> latched m.
Proof.
  unfold is_latched, latched. rewrite orb_true_iff, !bool_decide_eq_true. done.
Qed.

Lemma limit_command_same (s0 s : Svc) m c :
  approaching s0 m s -> svc_active_session_profile s = svc_active_session_profile s0 ->
  limit_command s c = limit_command s0 c.
Proof.
  intros (E1 & E2 & E3 & _) E4. unfold limit_command, session_throttle_limit, steering_limit,
    session_steering_angle_limit, profile_throttle_limit. by rewrite E1, E2, E3, E4.
Qed.

Lemma accept_answer c t (s : Svc) :
  match on_receiver (accept c t) s with
  | (Ok r, s') =>
      (rr_accepted r = true -> rr_command r = Some c /\ admissible (svc_receiver s) c t) /\
      s' = s <| svc_receiver := svc_receiver s' |>
  | (Throw _, s') => s' = s <| svc_receiver := svc_receiver s' |>
  end.
Proof.
  pose proof (on_receiver_state (accept c t) s) as Hs.
  destruct (Z.lt_ge_cases t 0) as [Ht | Ht].
  - unfold on_receiver, zoom, accept in *. rewrite (proj2 (Z.ltb_lt t 0) Ht) in *. simpl. by destruct s.
  - destruct (accept_view c t (svc_receiver s) Ht) as (r & E & Hyes & _).
    unfold on_receiver, zoom in *. destruct (accept c t (svc_receiver s)) as [r' s'].
    simpl in *. subst r'. split; [| by destruct s].
    intros Hr. destruct (Hyes Hr) as (? & ? & _). done.
Qed.

(** One ordinary command, from the state [s0] it arrives in. *)
Section ordinary.
Context (s0 : Svc) (c : ControlCommand) (t : Z) (Hord : cmd_estop c = false).

Let machine : SafetyStateMachine := safety_tick t (svc_safety s0).
Let base : Svc -> Prop := approaching s0 machine.
Let J0 (s : Svc) : Prop := guarded s0 c t (applied s).

Lemma base_J0 s : base s -> J0 s.
Proof. intros (_ & _ & _ & _ & _ & H). by left. Qed.

Lemma J0_frame : handler_frame J0.
Proof. apply applied_frame. Qed.

Lemma J0_safety : safety_frame J0.
Proof. apply applied_safety_frame. Qed.

(** What the gate answers: either it refuses, or nothing relevant changed. *)
Definition refused_or_base (refusal : option string) (s : Svc) : Prop :=
  J0 s /\ (refusal = None -> base s).

Lemma refuse_hoare (m : M Svc unit) reason (s : Svc) :
  keeps J0 m -> base s -> hoare (fun s' => s' = s) (m;; mret (Some reason)) refused_or_base J0.
Proof.
  intros Hm Hs. apply (hoare_pre _ J0); [by intros s' ->; apply base_J0 |].
  apply hoare_keeps_bind; [done | done | intros _]. by apply hoare_ret.
Qed.

Lemma feedback_gate_hoare o f : hoare base (feedback_gate t o f) refused_or_base J0.
Proof.
  pose proof J0_frame as HF. pose proof J0_safety as HS. unfold feedback_gate.
  apply hoare_gets. intros s Hs.
  assert (Hnone : hoare (fun s' => s' = s) (mret None) refused_or_base J0).
  { apply hoare_ret. intros s' ->. split; [by apply base_J0 | done]. }
  destruct (negb o); [by apply refuse_hoare; [apply fault_stop_keeps |] |].
  destruct (f && _); [by apply refuse_hoare; [apply fault_stop_keeps |] |].
  destruct (svc_require_feedback_before_control s); [| done].
  apply (hoare_pre _ base); [by intros s' -> |].
  apply hoare_keeps_bind; [| apply base_J0 |].
  { apply (hf_quiet _ (approaching_frame s0 machine)). constructor. }
  intros ready. destruct (negb ready).
  - apply (hoare_pre _ J0); [apply base_J0 |].
    apply hoare_keeps_bind; [apply (hf_quiet _ HF); constructor | done | intros _].
    apply hoare_keeps_bind; [by apply clear_session_profile_keeps | done | intros _].
    by apply hoare_ret.
  - apply hoare_ret. intros s' Hs'. split; [by apply base_J0 | done].
Qed.

Lemma commit_command_hoare r s1 p :
  base s1 -> svc_active_session_profile s1 = Some p -> admissible (svc_receiver s0) c t ->
  (sm_state machine = SafetyDegraded ->
     (cmd_throttle c >ᵈ d_1e_9) = false /\ (d_abs (cmd_steering c) >ᵈ d_1e_9) = false) ->
  leads base J0 (commit_command r (limit_command s1 c).1 t).
Proof.
  intros Hs1 Hp Hadm Hdeg. pose proof J0_frame as HF. pose proof J0_safety as HS.
  assert (Hact : svc_active_session_profile s1 = svc_active_session_profile s0).
  { destruct Hs1 as (_ & _ & _ & [? | ?] & _); congruence. }
  rewrite (limit_command_same s0 s1 machine c Hs1 Hact).
  apply leads_get. intros s Hs. apply (leads_bind (fun s' => s' = s)).
  { by intros s' ->; apply base_J0. }
  { apply keeps_lift. }
  intros sc. destruct (negb (cmd_estop sc) && _) eqn:E.
  - bool_prop. apply leads_then.
    + intros s' ->. destruct Hs as (E1 & E2 & E3 & E4 & E5 & E6).
      assert (Happly : J0 (on_adapter (va_apply_control (limit_command s0 c).1) s).2).
      { right. exists p. rewrite apply_applied, E6. split_and!; try done; [| congruence].
        rewrite E5 in *. intros Hl%is_latched_iff. unfold machine in *. congruence. }
      unfold apply_or_reject, try_catch, mbind, M_bind, mret, M_ret.
      destruct (on_adapter _ s) as [[[] | e] s'] eqn:?; simpl in *; [done |]. by destruct e.
    + intros rejection. destruct rejection; [apply keeps_ret |].
      apply keeps_bind; [apply (HS (OpCommand _ _) eq_refl) | intros _].
      apply keeps_bind; [| intros _; apply keeps_ret].
      apply (hf_local _ HF). intros ?; split; simpl; tauto.
  - apply (leads_weaken _ _ J0); [by intros s' ->; apply base_J0 |].
    by apply commit_stop_keeps.
Qed.

Lemma process_command_leads r :
  admissible (svc_receiver s0) c t -> leads base J0 (process_command r c t).
Proof.
  intros Hadm. pose proof J0_frame as HF. pose proof J0_safety as HS.
  pose proof (approaching_frame s0 machine) as HB.
  unfold process_command. rewrite Hord. simpl negb. cbn [andb].
  apply leads_get. intros s1 Hs1.
  destruct (bool_decide (is_Some (svc_active_session_profile s1))) eqn:Hsome; simpl negb; cbn [andb].
  2: { apply (leads_weaken _ _ base); [by intros s' -> |].
       apply leads_keeps; [| apply base_J0]. apply keeps_bind; [| intros _; apply keeps_ret].
       apply keeps_when. apply (hf_quiet _ HB). constructor. }
  apply bool_decide_eq_true in Hsome as [p Hp].
  destruct (bool_decide (sm_state (svc_safety s1) = SafetyDegraded) && _) eqn:Hdeg.
  { apply (leads_weaken _ _ base); [by intros s' -> |].
    apply leads_keeps; [apply keeps_ret | apply base_J0]. }
  destruct (limit_command s1 c) as [c' warnings] eqn:Hc'.
  apply (leads_weaken _ _ base); [by intros s' -> |].
  apply leads_bind; [apply base_J0 | |].
  { apply keeps_try_std; [| intros; apply keeps_ret].
    apply keeps_bind; [apply (hf_quiet _ HB); constructor | intros; apply keeps_ret]. }
  intros failed. apply leads_bind; [apply base_J0 | by apply refresh_keeps |].
  intros observed. apply leads_bind; [apply base_J0 | apply keeps_gets |].
  intros stop. destruct stop.
  { apply leads_keeps; [apply keeps_ret | apply base_J0]. }
  apply hoare_state. eapply hoare_bind; [apply feedback_gate_hoare |].
  intros [reason |].
  { apply hoare_ret. by intros s' []. }
  apply (hoare_pre _ base); [by intros s' [_ H]; apply H |].
  apply hoare_state. replace c' with (limit_command s1 c).1 by by rewrite Hc'.
  apply (commit_command_hoare _ s1 p); try done.
  intros Hst. destruct Hs1 as (_ & _ & _ & _ & Hm & _). rewrite Hm in Hdeg.
  apply andb_false_iff in Hdeg as [H | H]; [by apply bool_decide_eq_false in H |].
  by apply orb_false_iff in H.
Qed.

Lemma receive_command_guarded : guarded s0 c t (applied (receive_command c t s0).2).
Proof.
  pose proof (approaching_frame s0 machine) as HB.
  change (J0 (receive_command c t s0).2).
  unfold receive_command. rewrite Hord.
  set (rest := fun result : ReceiveResult => match rr_accepted result with _ => _ end).
  apply (hoare_state (fun s => s = s0) _ J0); [| done].
  apply (hoare_keeps_bind (fun s => s = s0)).
  { unfold require_started. apply keeps_bind; [apply keeps_gets | intros; apply keeps_lift]. }
  { intros s ->. by left. }
  intros _.
  apply (hoare_bind _ (fun r s => base s /\
    (rr_accepted r = true -> rr_command r = Some c /\ admissible (svc_receiver s0) c t))).
  - apply (hoare_bind _ (fun _ s => base s /\ svc_receiver s = svc_receiver s0)).
    + apply (hoare_bind _ (fun _ s => base s /\ svc_receiver s = svc_receiver s0)).
      * intros s ->. unfold on_safety, zoom. simpl. split; [| done].
        unfold base, approaching. simpl. split_and!; try done. by left.
      * intros _ s [Hs Hr].
        pose proof (watchdog_react_keeps _ HB t s Hs) as H1.
        pose proof (watchdog_react_keeps _ (receiver_same_frame (svc_receiver s0)) t s Hr) as H2.
        destruct (watchdog_react t s) as [[] ?]; [done | by apply base_J0].
    + intros _ s [Hs Hr]. pose proof (accept_answer c t s) as H. rewrite Hr in H.
      assert (Hbase : forall r, base (s <| svc_receiver := r |>)) by (intros; exact Hs).
      destruct (on_receiver (accept c t) s) as [[r | e] s'].
      * destruct H as [H Hs']. split; [rewrite Hs'; apply Hbase | exact H].
      * rewrite H. apply base_J0, Hbase.
  - intros r. unfold rest. destruct (rr_accepted r).
    2: { apply hoare_ret. intros s [Hs _]. by apply base_J0. }
    intros s [Hs Hr]. destruct (Hr eq_refl) as [Hcmd Hadm]. rewrite Hcmd.
    pose proof (process_command_leads r Hadm s Hs) as H.
    by destruct (process_command r c t s) as [[] ?].
Qed.
End ordinary.

(** An emergency stop, from the moment the safety machine latched it. *)
Definition stopping (L : list ControlCommand) (s : Svc) : Prop :=
  sm_state (svc_safety s) = SafetyEstop /\ svc_active_session_profile s = None /\ applied s = L.

(** The last actuator call was the operator's full stop. *)
Definition stop_called (s : Svc) : Prop :=
  exists gear, last (lg_calls (svc_adapter s)) =
    Some (CallStop (mkControlOutput gear d_zero d_zero d_one true true)
            (mkVehicleStopContext DriverPage OperatorEstop)).

Lemma stopping_frame L : handler_frame (stopping L).
Proof.
  split.
  - intros R m Hq s (H1 & H2 & H3). unfold stopping. rewrite quiet_applied by done.
    by rewrite on_adapter_state.
  - intros f Hf s (H1 & H2 & H3). simpl. destruct (Hf s) as [E1 E2 _ _ _ _ _ _ _ _ E7 _ _].
    unfold stopping, applied in *. rewrite E1, E2. split_and!; try done.
    destruct E7 as [-> | ->]; done.
Qed.

Lemma stop_now_called L t :
  leads (stopping L) (fun s => stopping L s /\ stop_called s)
    (apply_safe_stop_now t (mkVehicleStopContext DriverPage OperatorEstop)).
Proof.
  intros s H. split.
  { revert s H. apply apply_safe_stop_now_keeps, stopping_frame. }
  destruct H as (H & _). unfold apply_safe_stop_now, mbind, M_bind, gets.
  rewrite on_adapter_state. unfold stop_called. simpl. rewrite logging_calls, last_snoc.
  unfold current_output. rewrite H. eauto.
Qed.

Lemma commit_stop_called L r c t :
  cmd_estop c = true ->
  leads (stopping L) (fun s => stopping L s /\ stop_called s) (commit_stop r c t).
Proof.
  intros Hc. unfold commit_stop. apply hoare_state.
  apply (hoare_bind _ (fun _ => stopping L)).
  { intros s (H1 & H2 & H3). unfold on_safety, zoom. simpl. split_and!; simpl; try done.
    unfold on_valid_command. by rewrite Hc. }
  intros _. apply hoare_gets. intros s Hs. destruct (Hs) as (Hst & _). rewrite Hst.
  apply (hoare_pre _ (stopping L)); [by intros s' -> |].
  apply hoare_gets. intros s2 Hs2. apply (hoare_pre _ (stopping L)); [by intros s' -> |].
  change (is_latched SafetyEstop) with true.
  change (bool_decide (SafetyEstop = SafetyEstop)) with true.
  rewrite orb_true_r. cbn [when].
  apply (hoare_bind _ (fun _ s => stopping L s /\ stop_called s)); [| by intros _ ? ?].
  apply (hoare_bind _ (fun _ => stopping L)); [| intros _; apply hoare_state, stop_now_called].
  intros s3 Hs3. pose proof (clear_session_profile_keeps _ (stopping_frame L) s3 Hs3) as H.
  pose proof (clear_session_profile_ok s3) as Hok.
  by destruct (clear_session_profile s3) as [[] ?].
Qed.

Lemma commit_command_called L r c t :
  cmd_estop c = true ->
  leads (stopping L) (fun s => stopping L s /\ stop_called s) (commit_command r c t).
Proof.
  intros Hc s Hs. unfold commit_command, mbind, M_bind, get, lift, safety_command_of.
  destruct Hs as (H1 & H2 & H3). rewrite H2. simpl. rewrite Hc. simpl.
  by apply commit_stop_called.
Qed.

Lemma process_command_called L r c t :
  cmd_estop c = true ->
  leads (stopping L) (fun s => stopping L s /\ stop_called s) (process_command r c t).
Proof.
  intros Hc. pose proof (stopping_frame L) as HF. unfold process_command.
  rewrite Hc. simpl negb. cbn [andb]. apply leads_get. intros s Hs.
  destruct (limit_command s c) as [c' w] eqn:El.
  assert (Hc' : cmd_estop c' = true) by (rewrite <- Hc, <- (limit_command_estop s c); by rewrite El).
  change (mret false ≫= ?k) with (k false). cbv beta.
  apply hoare_state. apply (hoare_bind _ (fun _ => stopping L)).
  { intros s' ->. pose proof (refresh_keeps _ HF s Hs) as Hr.
    destruct (refresh_ok s) as [b Hb]. by destruct (refresh_adapter_safe_stop_state s) as [[] ?]. }
  intros observed s' Hs'.
  exact (proj2 (hoare_state _ _ _) (commit_command_called L _ c' t Hc') s' Hs').
Qed.

Lemma applied_is_frame L : handler_frame (fun s : Svc => applied s = L).
Proof. apply (applied_frame (fun l => l = L)). Qed.

Lemma state_in_frame (states : list SafetyState) : handler_frame (fun s : Svc => sm_state (svc_safety s) ∈ states).
Proof.
  split.
  - intros R m _ s. by rewrite on_adapter_state.
  - intros f Hf s H. simpl. by rewrite (ls_safety _ _ (Hf s)).
Qed.

Lemma receive_estop_called c t (s : Svc) :
  svc_started s = true -> cmd_estop c = true -> 0 <= t -> admissible (svc_receiver s) c t ->
  let s' := (receive_command c t s).2 in stopping (applied s) s' /\ stop_called s'.
Proof.
  intros Hstarted Hc Ht Hadm. set (L := applied s).
  set (goal := fun s' => stopping L s' /\ stop_called s').
  set (latching := fun s' : Svc => sm_state (svc_safety s') ∈ [SafetyEstop] /\ applied s' = L).
  assert (HL : handler_frame latching).
  { apply handler_frame_and; [apply state_in_frame | apply applied_is_frame]. }
  change (goal (receive_command c t s).2). unfold receive_command. rewrite Hc.
  apply (hoare_state (fun s' => s' = s) _ goal); [| done].
  apply (hoare_bind _ (fun _ s' => s' = s)).
  { intros s' ->. unfold require_started, mbind, M_bind, gets, lift. by rewrite Hstarted. }
  intros _.
  apply (hoare_bind _ (fun r s' => rr_accepted r = true /\ rr_command r = Some c /\
                                   stopping L s')).
  2: { intros r s' (H1 & H2 & H3). rewrite H1, H2.
       pose proof (process_command_called L r c t Hc s' H3) as H.
       by destruct (process_command r c t s') as [[] ?]. }
  apply (hoare_bind _ (fun r s' => rr_accepted r = true /\ rr_command r = Some c /\
                                   applied s' = L)).
  { intros s' ->. destruct (accept_view c t (svc_receiver s) Ht) as (r & E & Hyes & Hno).
    unfold on_receiver, zoom. destruct (accept c t (svc_receiver s)) as [r' rcv].
    simpl in E. subst r'.
    destruct (rr_accepted r) eqn:Hr; [| by destruct (Hno eq_refl) as (? & _)].
    by destruct (Hyes eq_refl) as (_ & ? & _). }
  intros r s1 (H1 & H2 & H3). revert s1 H3. rewrite H1, H2.
  apply (hoare_bind _ (fun _ => stopping L)).
  2: { intros _ s' Hs'. done. }
  apply (hoare_bind _ (fun _ => latching)).
  { intros s1 H3. unfold on_safety, zoom, latching. simpl. split; [| done].
    unfold on_valid_command. rewrite Hc. by apply list_elem_of_here. }
  intros _. eapply hoare_conseq; [done | | done | by apply (clear_session_profile_clears latching)].
  intros _ s' [[Hst HA] Hn]. apply list_elem_of_singleton in Hst. by split.
Qed.

(** ** Calls that apply nothing *)
Lemma service_run_latched_applied ops (s : Svc) :
  latched (svc_safety s) -> forallb (fun op => negb (is_service_reset op)) ops = true ->
  latched (svc_safety (service_run ops s)) /\ applied (service_run ops s) = applied s.
Proof.
  revert s. induction ops as [| op ops IH]; intros s Hl H; simpl in *; [done |]. bool_prop.
  set (stuck := fun s' : Svc => latched (svc_safety s') /\ applied s' = applied s).
  assert (HF : handler_frame stuck).
  { apply handler_frame_and; [| apply applied_is_frame]. split.
    - intros R m _ s'. by rewrite on_adapter_state.
    - intros f Hf s' H'. simpl. by rewrite (ls_safety _ _ (Hf s')). }
  assert (Happly : apply_frame stuck).
  { intros c s' [Hl' _] Hf. apply is_latched_iff in Hl'. congruence. }
  assert (Hstep : stuck (service_step op s)).
  { apply service_step_keeps; [done | | | done | | | done].
    - intros sop Hsop s'. unfold stuck. rewrite on_safety_state. intros [H' ?]. split; [| done].
      by apply safety_step_latched.
    - intros c t s'. by rewrite on_receiver_state.
    - intros r t _. apply receive_session_profile_keeps; [done | done | by intros p s' |].
      by split; [intros r' x s' | intros x s'].
    - intros confirmed by_ -> Hc. exfalso. simpl in *. congruence. }
  destruct Hstep as [Hl' HA]. destruct (IH (service_step op s) Hl' H0) as [Hl2 HA2].
  split; [done | congruence].
Qed.

Lemma receive_estop_applied c t (s : Svc) :
  cmd_estop c = true -> applied (receive_command c t s).2 = applied s.
Proof.
  intros Hc. set (P := fun s' : Svc => applied s' = applied s).
  pose proof (applied_is_frame (applied s)) as HF. fold P in HF.
  assert (HS : safety_frame P) by (apply (applied_safety_frame (fun l => l = applied s))).
  apply (hoare_state P _ P); [| done]. unfold receive_command. rewrite Hc.
  apply hoare_keeps_bind; [by apply require_started_keeps | done | intros _].
  apply (hoare_bind _ (fun r s' => P s' /\ (rr_accepted r = true -> rr_command r = Some c))).
  - apply (hoare_bind _ (fun r s' => P s' /\ (rr_accepted r = true -> rr_command r = Some c))).
    + intros s' Hs'. pose proof (accept_answer c t s') as H.
      destruct (on_receiver (accept c t) s') as [[r | e] s2].
      * destruct H as [H ->]. split; [exact Hs' | by apply H].
      * rewrite H. exact Hs'.
    + intros r. destruct (rr_accepted r) eqn:Hr.
      2: { apply (hoare_pre _ P); [by intros ? [] |].
           apply hoare_keeps_bind; [by apply watchdog_keeps | done |].
           intros _. apply hoare_ret. intros s' Hs'. by rewrite Hr. }
      apply hoare_pure. intros Hcmd. rewrite (Hcmd eq_refl).
      apply (hoare_bind _ (fun _ => P)).
      * apply hoare_keeps_bind; [apply (HS (OpCommand c t) eq_refl) | done | intros _].
        apply hoare_keeps. by apply clear_session_profile_keeps.
      * intros _. apply hoare_ret. intros s' Hs'. split; [exact Hs' | auto].
  - intros r. destruct (rr_accepted r); [| apply hoare_ret; by intros s' []].
    apply hoare_pure. intros Hcmd. rewrite (Hcmd eq_refl).
    apply hoare_keeps, process_command_keeps; auto.
Qed.

Lemma service_step_applied op (s : Svc) :
  match op with SvcCommand c _ => cmd_estop c = true | SvcProfile _ _ => False | _ => True end ->
  applied (service_step op s) = applied s.
Proof.
  intros Hop. set (P := fun s' : Svc => applied s' = applied s).
  pose proof (applied_is_frame (applied s)) as HF. fold P in HF.
  assert (HS : safety_frame P) by (apply (applied_safety_frame (fun l => l = applied s))).
  change (P (service_step op s)). destruct op as [| c t | | t | | | confirmed by_ | x |]; simpl.
  - by apply start_keeps.
  - by apply receive_estop_applied.
  - done.
  - by apply tick_keeps.
  - by apply request_handshake_keeps.
  - by apply disconnect_keeps.
  - apply reset_estop_keeps; [done | | done]. intros _ s' Hs'. by rewrite on_safety_state.
  - by apply close_keeps.
  - by apply summary_keeps.
Qed.

(** ** The hard timeout *)

(** A driving machine past its hard timeout, on the way to the watchdog. *)
Definition expired (t last timeout : Z) (s : Svc) : Prop :=
  sm_state (svc_safety s) ∈
    [SafetyControlActive; SafetyDegraded; SafetyTimeoutBrake; SafetyFault] /\
  sm_last_valid_receive_ms (svc_safety s) = Some last /\
  sm_control_timeout_ms (svc_safety s) = timeout.

Lemma expired_frame t last timeout : handler_frame (expired t last timeout).
Proof.
  split.
  - intros R m _ s. by rewrite on_adapter_state.
  - intros f Hf s H. unfold expired. simpl. by rewrite (ls_safety _ _ (Hf s)).
Qed.

(** Where the watchdog takes it. *)
Lemma expired_tick t last timeout (s : Svc) :
  expired t last timeout s -> timeout <= t - last ->
  sm_state (safety_tick t (svc_safety s)) ∈ [SafetyTimeoutBrake; SafetyFault].
Proof.
  intros (Hst & Hlast & Htm) Ht. unfold safety_tick. rewrite Hlast, Htm.
  rewrite (proj2 (Z.leb_le _ _) Ht). rewrite !elem_of_cons in *.
  destruct Hst as [H | [H | [H | [H | H]]]]; [.. | by apply elem_of_nil in H]; rewrite H; simpl;
    rewrite ?H; tauto.
Qed.

Lemma watchdog_stops (P : Svc -> Prop) t last timeout :
  handler_frame P -> safety_frame P -> timeout <= t - last ->
  let stopped s := (P s /\ sm_state (svc_safety s) ∈ [SafetyTimeoutBrake; SafetyFault]) /\
                   no_profile s in
  hoare (fun s => P s /\ expired t last timeout s) (evaluate_control_watchdog t)
    (fun _ => stopped) stopped.
Proof.
  intros HP HS Ht stopped. pose proof (handler_frame_and _ _ HP (state_in_frame
    [SafetyTimeoutBrake; SafetyFault])) as HF1.
  pose proof (handler_frame_and _ _ HF1 no_profile_frame) as HF.
  unfold evaluate_control_watchdog, watchdog_react, safety_state.
  apply (hoare_bind _ (fun _ s => P s /\
                          sm_state (svc_safety s) ∈ [SafetyTimeoutBrake; SafetyFault])).
  { intros s [Hs He]. pose proof (HS (OpTick t) eq_refl s Hs) as HPs.
    unfold on_safety, zoom, modify in *. simpl in *. split; [done |].
    simpl. by apply (expired_tick t last timeout). }
  intros _. apply hoare_gets. intros s [Hs Hst].
  assert (E : bool_decide (sm_state (svc_safety s) = SafetyDegraded) = false /\
     (bool_decide (sm_state (svc_safety s) = SafetyTimeoutBrake) ||
      is_latched (sm_state (svc_safety s))) = true).
  { rewrite !elem_of_cons in Hst.
    destruct Hst as [H | [H | H]]; [.. | by apply elem_of_nil in H]; by rewrite H. }
  destruct E as [E1 E2]. rewrite E1. cbn [orb negb when]. rewrite E2.
  apply (hoare_bind _ (fun _ => stopped)).
  { apply (hoare_pre _ (fun s' => P s' /\
      sm_state (svc_safety s') ∈ [SafetyTimeoutBrake; SafetyFault])); [by intros s' -> |].
    by apply (clear_session_profile_clears _ HF1). }
  intros _. apply hoare_keeps. apply keeps_gets_bind. intros s' _.
  apply keeps_when. by apply apply_safe_stop_now_keeps.
Qed.

Lemma tick_timeout_stops t last (s : Svc) :
  svc_started s = true ->
  sm_state (svc_safety s) ∈ [SafetyControlActive; SafetyDegraded; SafetyTimeoutBrake] ->
  sm_last_valid_receive_ms (svc_safety s) = Some last ->
  sm_control_timeout_ms (svc_safety s) <= t - last ->
  (va_poll_feedback (svc_adapter s)).1 <> Throw ForeignException ->
  let s' := (tick t s).2 in
  sm_state (svc_safety s') ∈ [SafetyTimeoutBrake; SafetyFault] /\
  svc_active_session_profile s' = None /\ applied s' = applied s.
Proof.
  intros Hstarted Hst Hlast Ht Hpoll s'. set (P := fun s' : Svc => applied s' = applied s).
  pose proof (applied_is_frame (applied s)) as HP. fold P in HP.
  assert (HS : safety_frame P) by (apply (applied_safety_frame (fun l => l = applied s))).
  set (timeout := sm_control_timeout_ms (svc_safety s)) in *.
  set (stopped := fun s => (P s /\ sm_state (svc_safety s) ∈ [SafetyTimeoutBrake; SafetyFault]) /\
                   no_profile s).
  assert (HF : handler_frame stopped).
  { apply handler_frame_and; [apply handler_frame_and; [done | apply state_in_frame] |
                              apply no_profile_frame]. }
  set (late := fun s => P s /\ expired t last timeout s).
  assert (HL : handler_frame late) by (apply handler_frame_and; [done | apply expired_frame]).
  assert (Hs : late s).
  { split; [done |]. split_and!; try done. rewrite !elem_of_cons in *. tauto. }
  assert (H : stopped s'); [| by destruct H as [[? ?] ?]].
  apply (hoare_state (fun s' => s' = s) _ stopped); [| done]. unfold tick.
  apply (hoare_bind _ (fun _ s' => s' = s)).
  { intros s2 ->. unfold require_started, mbind, M_bind, gets, lift. by rewrite Hstarted. }
  intros _. apply (hoare_bind _ (fun _ => late)).
  { intros s2 ->. pose proof (hf_quiet _ HL _ _ quiet_poll s Hs) as Hq.
    unfold try_catch_std, try_catch, mbind, M_bind, mret, M_ret, on_adapter, zoom in *.
    destruct (va_poll_feedback (svc_adapter s)) as [[b | e] a]; simpl in *; [done |].
    by destruct e. }
  intros failed. apply (hoare_bind _ (fun _ => late)).
  { intros s2 Hs2. pose proof (refresh_keeps _ HL s2 Hs2) as Hq. destruct (refresh_ok s2) as [b Hb].
    by destruct (refresh_adapter_safe_stop_state s2) as [[] ?]. }
  intros observed. apply hoare_get. intros s2 Hs2.
  apply (hoare_pre _ late); [by intros ? -> |]. apply (hoare_bind _ (fun _ => late)).
  { destruct (_ && _); [| by apply hoare_ret]. intros s3 [H1 (H2 & H3 & H4)].
    unfold when, on_safety, zoom, modify, late, expired. simpl. split_and!; try done.
    rewrite !elem_of_cons. tauto. }
  intros _. eapply hoare_bind; [by apply (watchdog_stops P t last timeout) |].
  intros ?. apply hoare_keeps. by apply record_telemetry_keeps.
Qed.
End calls.
