(* ===== verification/ServiceMoves.v ===== *)
(** ServiceMoves: what the control service asks its adapter, and what it does with its safety
    machine.

    - [feedback_allows]: the answers that let an ordinary command through;
      [receive_command_asked]: nothing is applied without them, nor before [start];
    - [service_moves]: the operations of the safety machine that an operation of the service
      performs, in their order, each under its condition;
    - one lemma per operation, and [service_refines_safety]. *)
From S2P Require Export ServiceCalls.

(** ** What is asked before an ordinary command *)

(** The answers of the adapter [a] to the questions asked before an ordinary command, in their
    order: its feedback is polled, its telemetry and its handshake are read and report neither a
    stop nor a disarming; and if feedback is required, the poll succeeded and the feedback is
    ready. *)
Definition feedback_allows {A : Type} {VA : VehicleAdapter A} (required : bool) (a : A) : Prop :=
  exists polled a1 telemetry a2 handshake a3,
    va_poll_feedback a = (polled, a1) /\
    va_read_telemetry a1 = (Ok telemetry, a2) /\ tel_estop telemetry = false /\
    va_vcu_handshake_status a2 = (Ok handshake, a3) /\ vh_disarming handshake = false /\
    (required = true -> is_ok polled = true /\ (va_feedback_ready a3).1 = Ok true).

Section adapter.
Context {J : JsonApi} {A : Type} {VA : VehicleAdapter A}.
Notation Svc := (VehicleControlService J A).

Lemma on_adapter_run {R} (m : M A R) (s : Svc) :
  on_adapter m s = ((m (svc_adapter s)).1, s <| svc_adapter := (m (svc_adapter s)).2 |>).
Proof. unfold on_adapter, zoom. by destruct (m (svc_adapter s)). Qed.

Lemma required_frame b : handler_frame (fun s : Svc => svc_require_feedback_before_control s = b).
Proof.
  split.
  - intros R m _ s. by rewrite on_adapter_state.
  - intros f Hf s <-. apply (ls_required _ _ (Hf s)).
Qed.

(** A look at the adapter's safety that finds no stop. *)
Lemma refresh_calm (s s' : Svc) :
  refresh_adapter_safe_stop_state s = (Ok true, s') -> svc_adapter_safe_stop_active s' = false ->
  exists telemetry a2 handshake a3,
    va_read_telemetry (svc_adapter s) = (Ok telemetry, a2) /\ tel_estop telemetry = false /\
    va_vcu_handshake_status a2 = (Ok handshake, a3) /\ vh_disarming handshake = false /\
    s' = s <| svc_adapter := a3 |> <| svc_adapter_safe_stop_active := false |>.
Proof.
  unfold refresh_adapter_safe_stop_state, try_catch, mbind, M_bind, mret, M_ret.
  rewrite on_adapter_run. destruct (va_read_telemetry (svc_adapter s)) as [[telemetry | e] a2] eqn:E1; simpl; [| done].
  rewrite on_adapter_run. simpl.
  destruct (va_vcu_handshake_status a2) as [[handshake | e] a3] eqn:E2; simpl; [| done].
  unfold when. destruct (tel_estop telemetry || vh_disarming handshake) eqn:E3; simpl.
  - unfold clear_session_profile, mbind, M_bind, modify, try_catch, mret, M_ret.
    rewrite on_adapter_run. intros H Hs. repeat case_match; simplify_eq/=.
  - intros [= <-] _. apply orb_false_iff in E3 as [? ?]. eauto 10.
Qed.

(** The gate lets a command through only if it was shown what it needs. *)
Lemma feedback_gate_passed t observed failed (s s' : Svc) :
  feedback_gate t observed failed s = (Ok None, s') ->
  observed = true /\
  (svc_require_feedback_before_control s = true ->
   failed = false /\ (va_feedback_ready (svc_adapter s)).1 = Ok true) /\
  exists a, s' = s <| svc_adapter := a |>.
Proof.
  unfold feedback_gate, mbind, M_bind, gets, mret, M_ret.
  destruct observed; simpl; [| intros H; by repeat case_match; simplify_eq/=].
  destruct (svc_require_feedback_before_control s), failed; simpl;
    try (intros H; by repeat case_match; simplify_eq/=).
  - rewrite on_adapter_run. intros H.
    destruct (va_feedback_ready (svc_adapter s)) as [[ready | e] a] eqn:E; simpl in *; [| done].
    destruct ready; simpl in H; [| by repeat case_match; simplify_eq/=].
    injection H as <-. eauto.
  - intros [= <-]. split_and!; try done. exists (svc_adapter s). by destruct s.
  - intros [= <-]. split_and!; try done. exists (svc_adapter s). by destruct s.
Qed.

End adapter.

Section guards.
Context {J : JsonApi} {A : Type} {VA : VehicleAdapter A}.
Notation Svc := (VehicleControlService J (Logged A)).
#[local] Opaque logged_adapter.

Lemma process_command_asked r c t (s : Svc) :
  cmd_estop c = false ->
  applied (process_command r c t s).2 = applied s \/
  feedback_allows (svc_require_feedback_before_control s) (svc_adapter s).
Proof.
  intros Hc. unfold process_command, mbind at 1, M_bind at 1, get. rewrite Hc. cbn [negb andb].
  set (same := fun s' : Svc => applied s' = applied s).
  assert (Hsame : handler_frame same) by apply (applied_frame (fun l => l = applied s)).
  assert (Hmoves : safety_frame same) by apply (applied_safety_frame (fun l => l = applied s)).
  destruct (negb (bool_decide _)).
  { left. apply (keeps_bind same); [| intros _; apply keeps_ret | done].
    apply keeps_when, (hf_quiet _ Hsame). constructor. }
  destruct (_ && _); [left; reflexivity |]. destruct (limit_command s c) as [c' w].
  set (rest := fun failed : bool => _ ≫= _).
  unfold mbind at 1, M_bind at 1, try_catch_std, try_catch, mbind at 1, M_bind at 1.
  rewrite on_adapter_run. destruct (va_poll_feedback (svc_adapter s)) as [polled a1] eqn:E1. simpl.
  set (s1 := s <| svc_adapter := a1 |>).
  assert (Hs1 : same s1).
  { pose proof (hf_quiet _ Hsame _ _ quiet_poll s eq_refl) as H. by rewrite on_adapter_state, E1 in H. }
  assert (Hrest : forall failed, (failed = false -> is_ok polled = true) ->
    same (rest failed s1).2 \/ feedback_allows (svc_require_feedback_before_control s) (svc_adapter s)).
  { intros failed Hf. unfold rest, mbind at 1, M_bind at 1.
    destruct (refresh_ok s1) as [observed E2].
    pose proof (refresh_keeps _ Hsame s1 Hs1) as Hs2.
    pose proof (refresh_keeps _ (required_frame _) s1 eq_refl) as Hq.
    destruct (refresh_adapter_safe_stop_state s1) as [x s2] eqn:E3. simpl in E2, Hs2, Hq. subst x.
    unfold mbind at 1, M_bind at 1, gets.
    destruct (svc_adapter_safe_stop_active s2) eqn:E4; [by left |].
    unfold mbind at 1, M_bind at 1.
    pose proof (feedback_gate_keeps _ Hsame Hmoves t observed failed s2 Hs2) as Hs3.
    destruct (feedback_gate t observed failed s2) as [[[reason |] | e] s3] eqn:E5; [by left | | by left].
    right. apply feedback_gate_passed in E5 as (-> & Hr & _).
    destruct (refresh_calm s1 s2 E3 E4) as (telemetry & a2 & handshake & a3 & H1 & H2 & H3 & H4 & ->).
    exists polled, a1, telemetry, a2, handshake, a3. split_and!; try done.
    intros Hreq. destruct Hr as [Hff ?]; [by rewrite Hq |]. auto. }
  destruct polled as [b | e]; [by apply Hrest |].
  destruct (is_std_exception e); [by apply Hrest | by left].
Qed.

Lemma receive_command_asked c t (s : Svc) :
  cmd_estop c = false ->
  applied (receive_command c t s).2 = applied s \/
  svc_started s = true /\
  feedback_allows (svc_require_feedback_before_control s)
    (svc_adapter (evaluate_control_watchdog t s).2).
Proof.
  intros Hc. unfold receive_command. rewrite Hc.
  set (rest := fun result : ReceiveResult => match rr_accepted result with _ => _ end).
  unfold require_started, mbind at 1, M_bind at 1, mbind at 1, M_bind at 1, gets, lift, throw_if.
  destruct (svc_started s); simpl; [| by left].
  unfold mbind at 1, M_bind at 1, mbind at 1, M_bind at 1.
  pose proof (watchdog_keeps _ (applied_frame (fun l => l = applied s)) (applied_safety_frame _) t s eq_refl) as H1.
  assert (Hmoves : safety_frame (fun s' : Svc => svc_require_feedback_before_control s' =
                                   svc_require_feedback_before_control s)).
  { intros op _ s'. by rewrite on_safety_state. }
  pose proof (watchdog_keeps _ (required_frame _) Hmoves t s eq_refl) as H2.
  destruct (evaluate_control_watchdog t s) as [[[] | e] s1]; simpl in *; [| by left].
  pose proof (accept_answer c t s1) as H3.
  destruct (on_receiver (accept c t) s1) as [[r | e] s2]; [| left; by rewrite H3].
  destruct H3 as [H3 Es]. unfold rest. destruct (rr_accepted r); [| left; by rewrite Es].
  destruct (H3 eq_refl) as [-> _].
  destruct (process_command_asked r c t s2 Hc) as [H | H]; [left; by rewrite H, Es | right].
  split; [done |]. rewrite Es in H. simpl in H. by rewrite H2 in H.
Qed.
End guards.

Section moves.
Context {J : JsonApi} {A : Type} {VA : VehicleAdapter A}.
Notation Svc := (VehicleControlService J A).

(** ** The moves of the safety machine: the specification *)

(** What is not a [std::exception] passes the [catch] around the poll. *)
Definition poll_escapes (s : Svc) : bool :=
  match (on_adapter va_poll_feedback s).1 with Throw e => negb (is_std_exception e) | Ok _ => false end.

(** Asked in state [s], the adapter cannot say what its safety is, or fails to poll feedback that
    is required; and no stop is known to be active. *)
Definition feedback_lost (s : Svc) : bool :=
  let '(polled, s1) := on_adapter va_poll_feedback s in
  let '(observed, s2) := refresh_adapter_safe_stop_state s1 in
  negb (svc_adapter_safe_stop_active s2) &&
  (negb (match observed with Ok b => b | Throw _ => false end) ||
   negb (is_ok polled) && svc_require_feedback_before_control s).

Definition answered_accepted (answer : result ReceiveResult) : bool :=
  match answer with Ok r => rr_accepted r | Throw _ => false end.

(** The command the machine remembers: cut to the limits, its brake on the vehicle's scale. *)
Definition remembered (s : Svc) (c : ControlCommand) (t : Z) : list safety_op :=
  match safety_command_of s (limit_command s c).1 with Ok sc => [OpCommand sc t] | Throw _ => [] end.

(** Whether an ordinary command gets as far as the questions to the adapter. *)
Definition command_considered (s : Svc) (c : ControlCommand) : bool :=
  bool_decide (is_Some (svc_active_session_profile s)) &&
  negb (bool_decide (sm_state (svc_safety s) = SafetyDegraded) &&
        ((cmd_throttle c >ᵈ d_1e_9) || (d_abs (cmd_steering c) >ᵈ d_1e_9))) &&
  negb (poll_escapes s).

(** An ordinary command after the watchdog and the receiver: it is remembered exactly when it is
    accepted, and feedback that is lost is a fault. *)
Definition process_moves (s : Svc) (c : ControlCommand) (t : Z) (answer : result ReceiveResult) :
    list safety_op :=
  if answered_accepted answer then remembered s c t
  else if command_considered s c && feedback_lost s then [OpMarkFault] else [].

Definition command_moves (s : Svc) (c : ControlCommand) (t : Z) : list safety_op :=
  if negb (svc_started s) then []
  else if cmd_estop c then
    match (accept c t (svc_receiver s)).1 with
    | Throw _ => []
    | Ok r =>
        if rr_accepted r then
          [OpCommand c t; OpCommand (limit_command (s <| svc_active_session_profile := None |>) c).1 t]
        else [OpTick t]
    end
  else
    OpTick t ::
    match evaluate_control_watchdog t s with
    | (Throw _, _) => []
    | (Ok _, s1) =>
        let '(answer, s2) := on_receiver (accept c t) s1 in
        if answered_accepted answer then process_moves s2 c t (receive_command c t s).1 else []
    end.

(** A tick: lost feedback that is required is a fault, unless the machine is latched. *)
Definition moves_of_tick (s : Svc) (t : Z) : list safety_op :=
  if negb (svc_started s) || poll_escapes s then []
  else
    (if svc_require_feedback_before_control s && feedback_lost s && negb (is_latched (sm_state (svc_safety s)))
     then [OpMarkFault] else []) ++ [OpTick t].

Definition answered_true (answer : result bool) : bool :=
  match answer with Ok b => b | Throw _ => false end.

Definition service_moves (s : Svc) (op : service_op) : list safety_op :=
  match op with
  | SvcStart => if negb (svc_started s) && svc_started (start s).2 then [OpMarkReady] else []
  | SvcCommand c t => command_moves s c t
  | SvcTick t => moves_of_tick s t
  | SvcRequestHandshake => if answered_true (request_vcu_handshake s).1 then [OpResetToStandby] else []
  | SvcResetEstop confirmed by_ =>
      if answered_true (reset_estop confirmed by_ s).1 then [OpResetEstop confirmed by_] else []
  | SvcProfile _ _ | SvcDisconnectHandshake | SvcClose _ | SvcSummary => []
  end.

(** ** The machine, left alone *)
Lemma machine_frame m : handler_frame (fun s : Svc => svc_safety s = m).
Proof.
  split.
  - intros R x _ s. by rewrite on_adapter_state.
  - intros f Hf s <-. apply (ls_safety _ _ (Hf s)).
Qed.

Lemma watchdog_machine t (s : Svc) :
  svc_safety (evaluate_control_watchdog t s).2 = safety_tick t (svc_safety s).
Proof. by apply (watchdog_react_keeps _ (machine_frame (safety_tick t (svc_safety s)))). Qed.

Lemma watchdog_record_machine t (s : Svc) :
  svc_safety ((evaluate_control_watchdog t;; record_telemetry t) s).2 = safety_tick t (svc_safety s).
Proof.
  pose proof (watchdog_machine t s) as H. unfold mbind, M_bind.
  destruct (evaluate_control_watchdog t s) as [[[] | e] s']; [| done].
  by apply (record_telemetry_keeps _ (machine_frame _)).
Qed.

Lemma refresh_machine (s : Svc) : svc_safety (refresh_adapter_safe_stop_state s).2 = svc_safety s.
Proof. by apply (refresh_keeps _ (machine_frame (svc_safety s))). Qed.

Lemma on_adapter_machine {R} (m : M A R) (s : Svc) : svc_safety (on_adapter m s).2 = svc_safety s.
Proof. by rewrite on_adapter_run. Qed.

Lemma profile_machine request t (s : Svc) :
  svc_safety (receive_session_profile request t s).2 = svc_safety s.
Proof.
  apply (receive_session_profile_keeps _ (machine_frame (svc_safety s))); [| | | done].
  - intros c s' H _. by rewrite on_adapter_machine.
  - by intros p s'.
  - by split; [intros r x s' | intros x s'].
Qed.

(** ** Start, handshake, reset *)
Lemma start_machine (s : Svc) :
  svc_safety (start s).2 = safety_run (service_moves s SvcStart) (svc_safety s).
Proof.
  unfold service_moves, start, mbind, M_bind, gets. destruct (svc_started s) eqn:E; [done |]. simpl negb.
  rewrite on_adapter_run. destruct (va_open (svc_adapter s)) as [[[] | e] a]; simpl; [| by rewrite E].
  unfold try_catch. rewrite on_adapter_run. simpl.
  destruct (va_clear_runtime_control_profile a) as [[[] | e] a']; simpl; [done |].
  rewrite on_adapter_run. simpl. destruct (va_close a') as [[[] | e'] a'']; simpl; by rewrite E.
Qed.

Lemma handshake_machine (s : Svc) :
  svc_safety (request_vcu_handshake s).2 = safety_run (service_moves s SvcRequestHandshake) (svc_safety s).
Proof.
  unfold service_moves, request_vcu_handshake, require_started, mbind, M_bind, gets, get, lift, mret, M_ret.
  destruct (svc_started s); simpl; [| done].
  destruct (negb (bool_decide _)); [done |]. destruct (is_latched _) eqn:E; [done |].
  rewrite on_adapter_run. destruct (va_request_vcu_handshake (svc_adapter s)) as [[[] | e] a]; simpl; try done.
  assert (Hr : reset_to_standby (svc_safety s) = (Ok true, enter_standby (svc_safety s))).
  { unfold reset_to_standby, mbind, M_bind, gets. rewrite decide_False; [done |].
    unfold is_latched in E. apply orb_false_iff in E as [E1%bool_decide_eq_false E2%bool_decide_eq_false]. tauto. }
  unfold on_safety, zoom. simpl. rewrite Hr. simpl. by rewrite Hr.
Qed.

Lemma reset_answer confirmed by_ (s : Svc) :
  match reset_estop confirmed by_ s with
  | (Ok true, s') => svc_safety s' = safety_step (OpResetEstop confirmed by_) (svc_safety s)
  | (_, s') => svc_safety s' = svc_safety s
  end.
Proof.
  unfold reset_estop, safety_state, mbind at 1, M_bind at 1, gets, mret, M_ret.
  destruct (_ || _ || _) eqn:E; [done |].
  assert (Hr : safety_reset_estop confirmed by_ (svc_safety s) = (Ok true, enter_standby (svc_safety s))).
  { unfold safety_reset_estop, mbind, M_bind, gets.
    apply orb_false_iff in E as [[E1 E2]%orb_false_iff E3].
    apply negb_false_iff, bool_decide_eq_true in E1. by rewrite E1, E2, E3. }
  unfold mbind at 1, M_bind at 1.
  pose proof (observe_for_reset_keeps _ (machine_frame (svc_safety s)) s eq_refl) as H1.
  destruct (observe_for_reset s) as [[[gear |] | e] s1]; simpl in H1; [| done | done].
  unfold mbind, M_bind, try_catch. rewrite on_adapter_run.
  destruct (va_apply_safe_stop _ _ _) as [[[] | e] a]; [| done]. cbn [fst snd negb].
  unfold on_safety, zoom. simpl. rewrite H1, Hr. simpl.
  set (s3 := _ <| svc_adapter_safe_stop_active := false |>).
  pose proof (refresh_machine s3) as H2. destruct (refresh_ok s3) as [b H3].
  destruct (refresh_adapter_safe_stop_state s3) as [x s4]. simpl in *. subst x.
  exact H2.
Qed.

Lemma reset_machine confirmed by_ (s : Svc) :
  svc_safety (reset_estop confirmed by_ s).2 =
  safety_run (service_moves s (SvcResetEstop confirmed by_)) (svc_safety s).
Proof.
  pose proof (reset_answer confirmed by_ s) as H. simpl.
  by destruct (reset_estop confirmed by_ s) as [[[] | e] s'].
Qed.

(** ** Ticks and commands *)
Lemma on_adapter_escapes (s s1 : Svc) e :
  on_adapter va_poll_feedback s = (Throw e, s1) -> poll_escapes s = negb (is_std_exception e).
Proof. intros E. unfold poll_escapes. by rewrite E. Qed.

(** The poll, as both callers make it: whether it failed. *)
Lemma poll_answer (s : Svc) :
  try_catch_std (on_adapter va_poll_feedback;; mret false) (fun _ => mret true) s =
  let '(polled, s1) := on_adapter va_poll_feedback s in
  (if poll_escapes s then match polled with Throw e => Throw e | Ok _ => Ok false end
   else Ok (negb (is_ok polled)), s1).
Proof.
  unfold poll_escapes, try_catch_std, try_catch, mbind, M_bind, mret, M_ret.
  destruct (on_adapter va_poll_feedback s) as [[b | e] s1]; simpl; [done |].
  by destruct e.
Qed.

Lemma tick_machine t (s : Svc) :
  svc_safety (tick t s).2 = safety_run (service_moves s (SvcTick t)) (svc_safety s).
Proof.
  unfold service_moves, moves_of_tick, tick, require_started, mbind at 1, M_bind at 1, mbind at 1, M_bind at 1,
    gets, lift, throw_if.
  destruct (svc_started s); simpl; [| done].
  unfold mbind at 1, M_bind at 1. rewrite poll_answer. unfold feedback_lost.
  pose proof (on_adapter_machine va_poll_feedback s) as H1.
  pose proof (fun x => required_frame (J := J) (A := A) x) as HR.
  pose proof (hf_quiet _ (HR (svc_require_feedback_before_control s)) _ _ quiet_poll s eq_refl) as Hq1.
  assert (Hesc : poll_escapes s = true -> exists e, (on_adapter va_poll_feedback s).1 = Throw e).
  { unfold poll_escapes. destruct (on_adapter va_poll_feedback s) as [[b | e] ?]; simpl; [done | by eauto]. }
  destruct (on_adapter va_poll_feedback s) as [polled s1]. simpl in H1, Hq1, Hesc.
  destruct (poll_escapes s); simpl.
  { destruct (Hesc eq_refl) as [e ->]. done. }
  unfold mbind at 1, M_bind at 1.
  pose proof (refresh_machine s1) as H2. destruct (refresh_ok s1) as [observed H3].
  pose proof (refresh_keeps _ (HR _) s1 Hq1) as Hq2.
  destruct (refresh_adapter_safe_stop_state s1) as [x s2]. simpl in H2, H3, Hq2. subst x.
  unfold mbind at 1, M_bind at 1, get. unfold mbind at 1, M_bind at 1.
  rewrite Hq2, H2, H1.
  set (lost := (negb observed || negb (is_ok polled)) && _ && _ && _).
  set (fault := svc_require_feedback_before_control s && _ && _).
  assert (Hl : lost = fault).
  { unfold lost, fault. destruct observed, (is_ok polled), (svc_adapter_safe_stop_active s2),
      (svc_require_feedback_before_control s), (is_latched (sm_state (svc_safety s))); done. }
  rewrite Hl. destruct fault; simpl.
  - etrans; [apply watchdog_record_machine |]. simpl. by rewrite H2, H1.
  - etrans; [apply watchdog_record_machine |]. by rewrite H2, H1.
Qed.
Lemma fault_stop_machine t reason (s : Svc) :
  svc_safety (fault_stop t reason s).2 = mark_fault (svc_safety s).
Proof.
  unfold fault_stop. set (m := mark_fault (svc_safety s)).
  pose proof (machine_frame m) as HF.
  apply (keeps_bind (fun s' : Svc => svc_safety s' = m) (apply_safe_stop_now _ _)); [| | done].
  - by apply apply_safe_stop_now_keeps.
  - intros _. by apply clear_session_profile_keeps.
Qed.

(** The gate marks a fault exactly when feedback is lost, and then lets nothing through. *)
Lemma feedback_gate_machine t observed failed (s : Svc) :
  let lost := negb observed || failed && svc_require_feedback_before_control s in
  let '(answer, s') := feedback_gate t observed failed s in
  svc_safety s' = (if lost then mark_fault (svc_safety s) else svc_safety s) /\
  (lost = true -> answer <> Ok None).
Proof.
  intros lost. unfold feedback_gate, mbind at 1, M_bind at 1, gets.
  assert (Hstop : forall reason text,
    let '(answer, s') := (fault_stop t reason;; mret (Some text)) s in
    svc_safety s' = mark_fault (svc_safety s) /\ answer <> Ok (None : option string)).
  { intros reason text. pose proof (fault_stop_machine t reason s) as H.
    unfold mbind, M_bind, mret, M_ret. destruct (fault_stop t reason s) as [[] ?]; by split. }
  unfold lost. destruct observed; cbn [negb orb].
  2: { specialize (Hstop AdapterSafetyStatusUnavailable "adapter_safety_status_unavailable"%string).
       match goal with |- context [?m s] => destruct (m s) as [answer s'] end. destruct Hstop. by split. }
  destruct (failed && _).
  { specialize (Hstop CanFeedbackMissing "can_feedback_poll_failed"%string).
    match goal with |- context [?m s] => destruct (m s) as [answer s'] end. destruct Hstop. by split. }
  destruct (svc_require_feedback_before_control s); [| done].
  pose proof (machine_frame (svc_safety s)) as HF.
  set (asking := on_adapter va_feedback_ready ≫= _).
  assert (H : keeps (fun s' : Svc => svc_safety s' = svc_safety s) asking).
  { apply keeps_bind; [apply (hf_quiet _ HF); constructor | intros ready].
    destruct (negb ready); [| apply keeps_ret].
    apply keeps_bind; [apply (hf_quiet _ HF); constructor | intros _].
    apply keeps_bind; [by apply clear_session_profile_keeps | intros _; apply keeps_ret]. }
  specialize (H s eq_refl). by destruct (asking s).
Qed.

Lemma ordinary_on_latched (c : ControlCommand) t m :
  cmd_estop c = false -> is_latched (sm_state m) = true -> on_valid_command c t m = m.
Proof.
  intros Hc Hl. unfold on_valid_command. rewrite Hc, decide_True; [done |].
  unfold is_latched in Hl. by rewrite orb_true_iff, !bool_decide_eq_true in Hl.
Qed.

Lemma commit_stop_answer r sc t (s : Svc) :
  svc_safety (commit_stop r sc t s).2 = on_valid_command sc t (svc_safety s).
Proof.
  unfold commit_stop, safety_state. set (m := on_valid_command sc t (svc_safety s)).
  pose proof (machine_frame m) as HF.
  match goal with |- context [mbind ?k _ _] => assert (H : forall u, keeps (fun s' : Svc => svc_safety s' = m) (k u)) end.
  { intros _. apply keeps_bind; [apply keeps_gets | intros state].
    apply keeps_bind; [apply keeps_gets | intros stop].
    apply keeps_bind; [| intros _; apply keeps_ret]. apply keeps_when.
    apply keeps_bind; [apply keeps_when; by apply clear_session_profile_keeps |].
    intros _. by apply apply_safe_stop_now_keeps. }
  by apply H.
Qed.

Lemma commit_answer r c t (s : Svc) :
  cmd_estop c = false -> rr_accepted r = true ->
  let '(answer, s') := commit_command r c t s in
  svc_safety s' =
    match safety_command_of s c with
    | Ok sc => if answered_accepted answer then on_valid_command sc t (svc_safety s) else svc_safety s
    | Throw _ => svc_safety s
    end.
Proof.
  intros Hc Hr. unfold commit_command, mbind at 1, M_bind at 1, get, mbind at 1, M_bind at 1, lift.
  destruct (safety_command_of s c) as [sc | e] eqn:E; [| done].
  pose proof (safety_command_of_estop _ _ _ E) as He. rewrite Hc in He. rewrite He. simpl.
  destruct (is_latched (sm_state (svc_safety s))) eqn:El; simpl.
  - pose proof (commit_stop_answer r sc t s) as H. rewrite ordinary_on_latched in H |- * by done.
    destruct (commit_stop r sc t s) as [answer s']. simpl in H. by destruct (answered_accepted answer).
  - unfold commit_apply, apply_or_reject, mbind at 1, M_bind at 1, try_catch, mbind at 1, M_bind at 1.
    rewrite on_adapter_run. destruct (va_apply_control c (svc_adapter s)) as [[[] | e] a]; simpl.
    + by rewrite Hr.
    + by destruct e.
Qed.

Lemma process_machine r c t (s : Svc) :
  cmd_estop c = false -> rr_accepted r = true ->
  let '(answer, s') := process_command r c t s in
  svc_safety s' = safety_run (process_moves s c t answer) (svc_safety s).
Proof.
  intros Hc Hr. unfold process_command, mbind at 1, M_bind at 1, get. rewrite Hc. cbn [negb andb].
  unfold process_moves, command_considered. pose proof (machine_frame (svc_safety s)) as HF.
  destruct (bool_decide (is_Some (svc_active_session_profile s))) eqn:Ep; cbn [negb andb].
  2: { set (stopping := when _ _).
    assert (H : svc_safety (stopping s).2 = svc_safety s).
    { unfold stopping. destruct (negb _); [apply on_adapter_machine | done]. }
    unfold mbind, M_bind, mret, M_ret. by destruct (stopping s) as [[] s']. }
  destruct (bool_decide (sm_state (svc_safety s) = SafetyDegraded) && _) eqn:Ed; cbn [negb andb]; [done |].
  destruct (limit_command s c) as [c' w] eqn:El.
  assert (Hc' : cmd_estop c' = false) by (rewrite <- Hc, <- (limit_command_estop s c); by rewrite El).
  unfold mbind at 1, M_bind at 1. rewrite poll_answer. unfold feedback_lost, remembered. rewrite El.
  rewrite on_adapter_run. destruct (va_poll_feedback (svc_adapter s)) as [polled a1] eqn:E1. cbn [fst snd].
  assert (Hesc : poll_escapes s = true -> exists e, polled = Throw e).
  { unfold poll_escapes. rewrite on_adapter_run, E1. simpl. destruct polled; [done | by eauto]. }
  destruct (poll_escapes s); cbn [negb andb].
  { destruct (Hesc eq_refl) as [e ->]. done. }
  set (s1 := s <| svc_adapter := a1 |>). unfold mbind at 1, M_bind at 1.
  pose proof (refresh_machine s1) as H2. destruct (refresh_ok s1) as [observed H3].
  pose proof (refresh_keeps _ (required_frame _) s1 eq_refl) as Hq.
  destruct (refresh_adapter_safe_stop_state s1) as [x s2] eqn:E3. simpl in H2, H3, Hq. subst x.
  unfold mbind at 1, M_bind at 1, gets.
  destruct (svc_adapter_safe_stop_active s2) eqn:E4; cbn [negb andb]; [exact H2 |].
  unfold mbind at 1, M_bind at 1.
  pose proof (feedback_gate_machine t observed (negb (is_ok polled)) s2) as H5. simpl in H5. rewrite Hq, H2 in H5.
  set (lost := negb observed || _) in *.
  destruct (feedback_gate t observed _ s2) as [[[reason |] | e] s3] eqn:E5; destruct H5 as [H5 H6].
  - simpl. rewrite H5. by destruct lost.
  - destruct lost; [by destruct (H6 eq_refl) |].
    apply feedback_gate_passed in E5 as (-> & _ & a3 & ->).
    destruct (refresh_calm s1 s2 E3 E4) as (_ & _ & _ & a2 & _ & _ & _ & _ & ->).
    match goal with |- context [commit_command ?r' c' t ?x] => set (s4 := x); pose proof (commit_answer r' c' t s4 Hc' Hr) as H end.
    change (svc_safety s4) with (svc_safety s) in H.
    change (safety_command_of s4 c') with (safety_command_of s c') in H.
    destruct (commit_command _ c' t s4) as [answer s5]. rewrite H.
    by destruct (answered_accepted answer), (safety_command_of s c').
  - rewrite H5. by destruct lost.
Qed.
Lemma accepted_command c t receiver r :
  (accept c t receiver).1 = Ok r -> rr_accepted r = true -> rr_command r = Some c.
Proof.
  intros E Hr. destruct (Z.lt_ge_cases t 0) as [Ht | Ht].
  - unfold accept in E. rewrite (proj2 (Z.ltb_lt t 0) Ht) in E. done.
  - destruct (accept_view c t receiver Ht) as (r' & E' & Hyes & _). rewrite E in E'. injection E' as <-.
    by destruct (Hyes Hr) as (_ & ? & _).
Qed.

(** An emergency stop that is let in is remembered twice: as it came and as it is applied. *)
Lemma process_estop r c t (s : Svc) :
  cmd_estop c = true -> svc_active_session_profile s = None ->
  svc_safety (process_command r c t s).2 = on_valid_command (limit_command s c).1 t (svc_safety s).
Proof.
  intros Hc Hp. unfold process_command, mbind at 1, M_bind at 1, get. rewrite Hc. cbn [negb andb].
  destruct (limit_command s c) as [c' w] eqn:El.
  assert (Hc' : cmd_estop c' = true) by (rewrite <- Hc, <- (limit_command_estop s c); by rewrite El).
  unfold mbind at 1, M_bind at 1, mret at 1, M_ret at 1, mbind at 1, M_bind at 1.
  pose proof (refresh_machine s) as H2. destruct (refresh_ok s) as [observed H3].
  pose proof (refresh_keeps _ no_profile_frame s Hp) as Hq.
  destruct (refresh_adapter_safe_stop_state s) as [x s2]. simpl in H2, H3, Hq. subst x.
  unfold mbind at 1, M_bind at 1, gets, mbind at 1, M_bind at 1, mret at 1, M_ret at 1.
  unfold commit_command, mbind, M_bind, get, lift, safety_command_of. rewrite Hq.
  cbn [mret result_ret fst snd]. rewrite Hc'. cbn [negb andb].
  rewrite commit_stop_answer. by rewrite H2.
Qed.

Lemma cleared (s : Svc) : exists a,
  clear_session_profile s =
  (Ok tt, s <| svc_active_session_profile := None |> <| svc_last_effective_command := None |>
            <| svc_last_session_profile_result ::= fmap clear_result |> <| svc_adapter := a |>).
Proof.
  unfold clear_session_profile, mbind, M_bind, modify, try_catch, mret, M_ret. rewrite on_adapter_run. simpl.
  destruct (va_clear_runtime_control_profile (svc_adapter s)) as [[[] | e] a]; simpl; by eexists.
Qed.

Lemma command_machine c t (s : Svc) :
  svc_safety (receive_command c t s).2 = safety_run (service_moves s (SvcCommand c t)) (svc_safety s).
Proof.
  unfold service_moves, command_moves. destruct (cmd_estop c) eqn:Hc.
  - unfold receive_command, require_started, mbind at 1, M_bind at 1, mbind at 1, M_bind at 1, gets, lift.
    rewrite Hc. destruct (svc_started s); simpl; [| done].
    unfold mbind at 1, M_bind at 1, mbind at 1, M_bind at 1, on_receiver, zoom.
    destruct (accept c t (svc_receiver s)) as [[r | e] receiver] eqn:E; simpl; [| done].
    pose proof (accepted_command c t (svc_receiver s) r) as Hr. rewrite E in Hr. specialize (Hr eq_refl).
    set (s1 := s <| svc_receiver := receiver |>).
    destruct (rr_accepted r) eqn:Er.
    + rewrite (Hr eq_refl). unfold mbind, M_bind, on_safety, zoom, modify. simpl.
      match goal with |- context [clear_session_profile ?x] => destruct (cleared x) as [a ->] end.
      unfold mret, M_ret. rewrite Er, (Hr eq_refl). by rewrite process_estop.
    + unfold mbind, M_bind, mret, M_ret. pose proof (watchdog_machine t s1) as H.
      destruct (evaluate_control_watchdog t s1) as [[[] | e] s2]; simpl in H; [| done].
      by rewrite Er.
  - assert (H : let '(answer, s') := receive_command c t s in
      svc_safety s' = safety_run
        (if negb (svc_started s) then []
         else OpTick t ::
           match evaluate_control_watchdog t s with
           | (Throw _, _) => []
           | (Ok _, s1) =>
               let '(admitted, s2) := on_receiver (accept c t) s1 in
               if answered_accepted admitted then process_moves s2 c t answer else []
           end) (svc_safety s)).
    2: { by destruct (receive_command c t s). }
    unfold receive_command, require_started, mbind at 1, M_bind at 1, mbind at 1, M_bind at 1, gets, lift.
    rewrite Hc. destruct (svc_started s); simpl; [| done].
    unfold mbind at 1, M_bind at 1, mbind at 1, M_bind at 1.
    pose proof (watchdog_machine t s) as H1.
    destruct (evaluate_control_watchdog t s) as [[[] | e] s1]; simpl in H1; [| done].
    unfold on_receiver, zoom.
    destruct (accept c t (svc_receiver s1)) as [[r | e] receiver] eqn:E; simpl; [| done].
    pose proof (accepted_command c t (svc_receiver s1) r) as Hr. rewrite E in Hr. specialize (Hr eq_refl).
    set (s2 := s1 <| svc_receiver := receiver |>).
    destruct (rr_accepted r) eqn:Er; [| done]. rewrite (Hr eq_refl).
    pose proof (process_machine r c t s2 Hc Er) as H. destruct (process_command r c t s2) as [answer s3].
    rewrite H. unfold s2. simpl. by rewrite H1.
Qed.

Lemma service_machine op (s : Svc) :
  svc_safety (service_step op s) = safety_run (service_moves s op) (svc_safety s).
Proof.
  destruct op as [| c t | request t | t | | | confirmed by_ | context |]; simpl service_step.
  - apply start_machine.
  - apply command_machine.
  - apply profile_machine.
  - apply tick_machine.
  - apply handshake_machine.
  - by apply (disconnect_keeps _ (machine_frame (svc_safety s))).
  - apply reset_machine.
  - by apply (close_keeps _ (machine_frame (svc_safety s))).
  - by apply (summary_keeps _ (machine_frame (svc_safety s))).
Qed.
End moves.

(** C23. Refinement.  Whatever the adapter does (any exception at any call), each operation of the
    control service performs on its safety machine exactly the operations of its specification
    [service_moves], in that order: a start that succeeds marks it ready; an admitted emergency
    stop is given to it at once and again as applied; any other command ticks it first, marks a
    fault exactly when it finds the feedback lost, and is given to it exactly when it is accepted;
    a tick marks that fault before it, unless latched; a handshake or a reset that is granted, and
    nothing else, returns it to standby, and a local reset is among the operations of a confirmed,
    authorised [reset_estop] only. *)
Theorem service_refines_safety {J : JsonApi} {A : Type} {VA : VehicleAdapter A}
    (op : service_op) (s : VehicleControlService J A) :
  svc_safety (service_step op s) = safety_run (service_moves s op) (svc_safety s) /\
  (is_service_reset op = false ->
   forallb (fun op => negb (is_local_reset op)) (service_moves s op) = true).
Proof.
  split; [apply service_machine |]. destruct op as [| c t | | t | | | confirmed by_ | |]; simpl; intros H; try done.
  - by destruct (_ && _).
  - unfold command_moves, process_moves, remembered. by repeat case_match.
  - unfold moves_of_tick. by repeat case_match.
  - by destruct (answered_true _).
  - destruct (answered_true _); simpl; [| done]. by rewrite H.
Qed.
