(* ===== verification/ServiceProperties.v ===== *)
(** ServiceProperties: the theorems about the control service, with witnesses on
    a service that drives the mock adapter.

    - who may reach the actuators, and within which limits;
    - the emergency stop, the latches and the command timeout.

    The theorems about session profiles are in ServiceProfiles. *)
From S2P Require Export ServiceMoves.

(** ** A service to run *)

Definition Demo : Type := VehicleControlService JsonModel.api (Logged MockVehicleAdapter).

(** The configuration of [YamlModel.example_file] with another brake limit. *)
Definition demo_config (max_brake : double) : option VehicleConfig :=
  match YamlModel.example_config with
  | Ok config =>
      let fs := cfg_field_safety config in
      Some (mkVehicleConfig (cfg_vehicle_id config) (cfg_vehicle_name config) (cfg_cloud config)
        (cfg_runtime config) (cfg_control config) (cfg_realtime_profiles config)
        (cfg_record_profiles config) (cfg_cameras config) (cfg_recording config)
        (cfg_upload config) (cfg_vehicle_adapter config) (cfg_hardware config)
        (mkFieldSafetyConfig (fs_commissioning_mode fs) (fs_max_speed_kph fs)
           (fs_max_throttle fs) (fs_full_scale_motor_torque_nm fs)
           (fs_motor_torque_rise_rate_nm_per_s fs) (fs_speed_feedback_timeout_ms fs)
           (fs_speed_pid_kp fs) (fs_speed_pid_ki fs) (fs_speed_pid_kd fs)
           (fs_speed_pid_derivative_filter_tau_ms fs) (fs_speed_pid_max_dt_ms fs)
           (fs_hard_overspeed_margin_kph fs) max_brake (fs_max_steering_angle_deg fs)
           (fs_require_can_feedback_before_control fs) (fs_require_local_estop_reset fs)
           (fs_require_time_sync fs) (fs_max_time_sync_uncertainty_ms fs)
           (fs_time_sync_interval_ms fs) (fs_time_sync_samples fs)))
  | Throw _ => None
  end.

Definition demo_profile (speed brake : double) : SessionControlProfile :=
  mkSessionControlProfile 4 speed (d_lit 200 0) brake (d_lit 40 0) (d_lit 80 0) (d_lit 15 0)
    d_one (d_lit 2 1) d_zero (d_lit 100 0) 100 d_zero 500.

Definition demo_request (seq : Z) (profile : SessionControlProfile) :
    SessionControlProfileRequest :=
  mkSessionControlProfileRequest 1 "truck-1" "driver-1" "session-1" seq 1000 "token" profile.

Definition demo_command (seq sent : Z) (steering throttle brake : double) (estop : bool) :
    ControlCommand :=
  mkControlCommand 1 "truck-1" "driver-1" "session-1" seq sent "D" steering throttle brake estop
    "token" true.

(** The service with a limit, driven through some calls. *)
Definition demo_with (max_brake : double) (ops : list service_op) : option Demo :=
  match demo_config max_brake with
  | Some config =>
      match VehicleControlService_new config "driver-1" "session-1" "token"
              (mkLogged MockVehicleAdapter_new []) 100 with
      | Ok s => Some (service_run ops s)
      | Throw _ => None
      end
  | None => None
  end.

Example demo_drives :
  option_map (fun s : Demo => (sm_state (svc_safety s), length (applied s), svc_started s))
    (demo_with kMaxOrdinaryBrakePressureBar
       [SvcStart; SvcProfile (demo_request 1 (demo_profile (d_lit 10 0) (d_lit 100 0))) 1000;
        SvcCommand (demo_command 1 1000 d_zero d_one d_zero false) 1000;
        SvcTick 1050]) =
  Some (SafetyControlActive, 1%nat, true).
Proof. vm_compute. reflexivity. Qed.

(** A fact about a demonstration state, by evaluation. *)
Lemma demo_fact {A} (f : Demo -> A) (o : option Demo) (a : A) (s : Demo) :
  option_map f o = Some a -> o = Some s -> f s = a.
Proof. intros H ->. by injection H. Qed.

Lemma demo_exists (o : option Demo) : bool_decide (is_Some o) = true -> o <> None.
Proof. intros H%bool_decide_eq_true E. rewrite E in H. by destruct H. Qed.

(** Closes the goal by such a fact. *)
Tactic Notation "demo_eval" uconstr(f) constr(o) :=
  apply (demo_fact f o); [vm_compute; reflexivity | done].
(** The demonstration state exists. *)
Ltac demo_none E :=
  exfalso; refine (demo_exists _ _ E); vm_compute; reflexivity.

(** ** Actuation *)

(** C1. Guarded actuation.  Whatever the adapter does, an ordinary command that
    arrives in state [s] makes at most one [apply_control] call.  If it makes
    one, the service is started; the receiver admits the command; the machine is
    not latched after the watchdog's tick; a session profile is active; a DEGRADED
    machine sees no throttle and no steering; the adapter, asked after the watchdog,
    reported no stop and no disarming, and the feedback the configuration
    requires; and what is applied is the command cut to the limits of the vehicle
    and of that profile. *)
Theorem command_actuation_guarded {J : JsonApi} {A : Type} {VA : VehicleAdapter A}
    (c : ControlCommand) (t : Z) (s : VehicleControlService J (Logged A)) :
  cmd_estop c = false ->
  let machine := safety_tick t (svc_safety s) in
  let s' := (receive_command c t s).2 in
  applied s' = applied s \/
  applied s' = applied s ++ [(limit_command s c).1] /\
  svc_started s = true /\ admissible (svc_receiver s) c t /\ ~ latched machine /\
  is_Some (svc_active_session_profile s) /\
  (sm_state machine = SafetyDegraded ->
   (cmd_throttle c >ᵈ d_1e_9) = false /\ (d_abs (cmd_steering c) >ᵈ d_1e_9) = false) /\
  feedback_allows (svc_require_feedback_before_control s)
    (svc_adapter (evaluate_control_watchdog t s).2).
Proof.
  intros Hc machine s'.
  destruct (receive_command_guarded s c t Hc) as [H | (p & H1 & _ & H2 & H3 & H4 & H5)]; [by left |].
  destruct (receive_command_asked c t s Hc) as [H | [H6 H7]]; [by left | right].
  split_and!; eauto.
Qed.

Definition demo_active : option Demo :=
  demo_with kMaxOrdinaryBrakePressureBar
    [SvcStart; SvcProfile (demo_request 1 (demo_profile (d_lit 10 0) (d_lit 100 0))) 1000].

Lemma command_actuation_guarded_witness :
  let c := demo_command 1 1000 d_zero d_one d_zero false in
  match demo_active with
  | Some s =>
      let machine := safety_tick 1000 (svc_safety s) in
      let s' := (receive_command c 1000 s).2 in
      length (applied s') = 1%nat /\ length (applied s) = 0%nat /\
      (applied s' = applied s \/
       applied s' = applied s ++ [(limit_command s c).1] /\
       svc_started s = true /\ admissible (svc_receiver s) c 1000 /\ ~ latched machine /\
       is_Some (svc_active_session_profile s) /\
       (sm_state machine = SafetyDegraded ->
        (cmd_throttle c >ᵈ d_1e_9) = false /\ (d_abs (cmd_steering c) >ᵈ d_1e_9) = false) /\
       feedback_allows (svc_require_feedback_before_control s)
         (svc_adapter (evaluate_control_watchdog 1000 s).2))
  | None => False
  end.
Proof.
  intros c. destruct demo_active as [s |] eqn:E.
  - split; [| split].
    + demo_eval (fun s => length (applied (receive_command c 1000 s).2)) demo_active.
    + demo_eval (fun s => length (applied s)) demo_active.
    + apply (command_actuation_guarded c 1000 s). reflexivity.
  - demo_none E.
Defined.

(** Limits.  For a command in range, a vehicle whose limits are finite and
    not negative and an active profile in range, the limited command asks for no
    more throttle than the command, the vehicle or the profile's target speed
    allow, and for a steering angle within the smaller of the vehicle's and the
    profile's; gear, brake and emergency stop are untouched. *)
Theorem limited_command_bounds {J : JsonApi} {A : Type} (s : VehicleControlService J A)
    (c : ControlCommand) (p : SessionControlProfile) :
  svc_active_session_profile s = Some p -> profile_in_range p -> command_in_range c ->
  d_isfinite (svc_max_speed_kph s) = true -> d_isfinite (svc_max_throttle s) = true ->
  d_isfinite (svc_max_steering_angle_deg s) = true ->
  (d_zero ≤ᵈ svc_max_steering_angle_deg s) = true ->
  let c' := (limit_command s c).1 in
  (cmd_throttle c' ≤ᵈ cmd_throttle c) = true /\
  (cmd_throttle c' ≤ᵈ svc_max_throttle s) = true /\
  (cmd_throttle c' ≤ᵈ profile_throttle_limit s p) = true /\
  (d_neg (steering_limit s) ≤ᵈ cmd_steering c') = true /\
  (cmd_steering c' ≤ᵈ steering_limit s) = true /\
  cmd_gear c' = cmd_gear c /\ cmd_brake c' = cmd_brake c /\ cmd_estop c' = cmd_estop c.
Proof.
  intros Hp Hpr Hcr Hsp Hth Hst Hst0 c'.
  destruct Hcr as [_ _ _ _ _ Hfin _ _ _]. bool_prop.
  destruct Hpr as [_ Hps _ _ Hpst _ _ _ _ _]. bool_prop.
  assert (Hspeed : d_is_nan (profile_throttle_limit s p) = false).
  { unfold profile_throttle_limit. destruct (svc_max_speed_kph s >ᵈ d_zero) eqn:E; [| done].
    apply (d_le_not_nan d_zero). apply d_div_nonneg; try done.
    by apply (d_between_finite d_zero _ kChassisControlMaxTargetSpeedKph). }
  assert (Hsteer : (d_zero ≤ᵈ steering_limit s) = true).
  { unfold steering_limit, session_steering_angle_limit. rewrite Hp.
    apply d_div_nonneg; try done; [| by apply d_min_glb].
    destruct (d_min_cases (svc_max_steering_angle_deg s) (prof_max_steering_angle_deg p))
      as [-> | ->]; [done |].
    by apply (d_between_finite d_zero _ (d_lit 30 0)). }
  pose proof (d_neg_le_self _ Hsteer) as Hneg.
  assert (Hstn : d_is_nan (cmd_steering c) = false) by (by apply d_isfinite_not_nan).
  pose proof (d_clamp_bounds (cmd_steering c) (d_neg (steering_limit s)) (steering_limit s)
    Hstn Hneg) as [Hs1 Hs2].
  set (v := d_min (cmd_throttle c) (svc_max_throttle s)).
  assert (Hv1 : (v ≤ᵈ cmd_throttle c) = true)
    by (apply d_min_le_l; by apply d_isfinite_not_nan).
  assert (Hv2 : (v ≤ᵈ svc_max_throttle s) = true)
    by (apply d_min_le_r; by apply d_isfinite_not_nan).
  set (l := d_min v (profile_throttle_limit s p)).
  destruct (d_le_not_nan _ _ Hv1) as [Hvn _].
  assert (Hl1 : (l ≤ᵈ v) = true) by (by apply d_min_le_l).
  assert (Hl2 : (l ≤ᵈ profile_throttle_limit s p) = true) by (by apply d_min_le_r).
  assert (Hc' : (cmd_throttle c' = l \/ (l =ᵈ cmd_throttle c) = true /\ cmd_throttle c' = cmd_throttle c) /\
    (let st := d_clamp (cmd_steering c) (d_neg (steering_limit s)) (steering_limit s) in
     cmd_steering c' = st \/ (st =ᵈ cmd_steering c) = true /\ cmd_steering c' = cmd_steering c) /\
    cmd_gear c' = cmd_gear c /\ cmd_brake c' = cmd_brake c /\ cmd_estop c' = cmd_estop c).
  { subst c'. unfold limit_command, session_throttle_limit. rewrite Hp. fold v l. simpl.
    unfold d_neq. destruct (l =ᵈ cmd_throttle c) eqn:E1; simpl;
    destruct (d_clamp _ _ _ =ᵈ _) eqn:E2; simpl; rewrite ?E2; split_and!; auto. }
  clearbody l v. destruct Hc' as (Ht & Hsteering & ? & ? & ?). cbv zeta in Hsteering.
  set (st := d_clamp _ _ _) in *. clearbody st.
  split_and!; try done.
  - apply (d_same_le_l _ _ _ _ Ht), (d_le_trans _ v); done.
  - apply (d_same_le_l _ _ _ _ Ht), (d_le_trans _ v); done.
  - by apply (d_same_le_l _ _ _ _ Ht).
  - by apply (d_same_le_r _ _ _ _ Hsteering).
  - by apply (d_same_le_l _ _ _ _ Hsteering).
Qed.

Lemma limited_command_bounds_witness :
  let c := demo_command 1 1000 d_one d_one d_zero false in
  let p := demo_profile (d_lit 10 0) (d_lit 100 0) in
  match demo_active with
  | Some s =>
      let c' := (limit_command s c).1 in
      (cmd_throttle c' ≤ᵈ cmd_throttle c) = true /\
      (cmd_throttle c' ≤ᵈ svc_max_throttle s) = true /\
      (cmd_throttle c' ≤ᵈ profile_throttle_limit s p) = true /\
      (d_neg (steering_limit s) ≤ᵈ cmd_steering c') = true /\
      (cmd_steering c' ≤ᵈ steering_limit s) = true /\
      cmd_gear c' = cmd_gear c /\ cmd_brake c' = cmd_brake c /\ cmd_estop c' = cmd_estop c
  | None => False
  end.
Proof.
  intros c p. destruct demo_active as [s |] eqn:E.
  - apply (limited_command_bounds s c p).
    + demo_eval svc_active_session_profile demo_active.
    + apply SessionControlProfile_validate_range. vm_compute. reflexivity.
    + apply ControlCommand_validate_range. vm_compute. reflexivity.
    + demo_eval (fun s => d_isfinite (svc_max_speed_kph s)) demo_active.
    + demo_eval (fun s => d_isfinite (svc_max_throttle s)) demo_active.
    + demo_eval (fun s => d_isfinite (svc_max_steering_angle_deg s)) demo_active.
    + demo_eval (fun s => d_zero ≤ᵈ svc_max_steering_angle_deg s) demo_active.
  - demo_none E.
Defined.

(** ** Emergency stop and latches *)

(** C2. Emergency stop.  Whatever the adapter does, even if every call of it
    throws: an admissible emergency stop received by a started service leaves the
    safety machine in ESTOP with the session profile revoked and nothing applied,
    and the last actuator call is the operator's full stop. *)
Theorem estop_always_latches {J : JsonApi} {A : Type} {VA : VehicleAdapter A}
    (c : ControlCommand) (t : Z) (s : VehicleControlService J (Logged A)) :
  svc_started s = true -> cmd_estop c = true -> 0 <= t -> admissible (svc_receiver s) c t ->
  let s' := (receive_command c t s).2 in
  sm_state (svc_safety s') = SafetyEstop /\ svc_active_session_profile s' = None /\
  applied s' = applied s /\ stop_called s'.
Proof.
  intros Hstarted Hc Ht Hadm s'.
  assert (H : stopping (applied s) s' /\ stop_called s'); [| by destruct H as [(? & ? & ?) ?]].
  subst s'. by apply receive_estop_called.
Qed.

Lemma estop_always_latches_witness :
  let c := demo_command 2 1100 d_zero d_zero d_zero true in
  match demo_active with
  | Some s =>
      let s' := (receive_command c 1100 s).2 in
      sm_state (svc_safety s') = SafetyEstop /\ svc_active_session_profile s' = None /\
      applied s' = applied s /\ stop_called s'
  | None => False
  end.
Proof.
  intros c. destruct demo_active as [s |] eqn:E.
  - apply (estop_always_latches c 1100 s).
    + demo_eval svc_started demo_active.
    + reflexivity.
    + lia.
    + assert (Hr : svc_receiver s = mkControlReceiver "truck-1" "driver-1" "session-1" 200 1 true
                                      "token" 5000 None None).
      { demo_eval svc_receiver demo_active. }
      rewrite Hr. by split.
  - demo_none E.
Defined.

(** C12. Latches hold.  In a latched machine (ESTOP or FAULT), until a confirmed
    and authorised local reset, no sequence of calls, whatever the adapter does,
    unlatches the machine or applies a single command. *)
Theorem latched_never_actuates {J : JsonApi} {A : Type} {VA : VehicleAdapter A}
    (ops : list service_op) (s : VehicleControlService J (Logged A)) :
  latched (svc_safety s) -> forallb (fun op => negb (is_service_reset op)) ops = true ->
  latched (svc_safety (service_run ops s)) /\ applied (service_run ops s) = applied s.
Proof. apply service_run_latched_applied. Qed.

Lemma latched_never_actuates_witness :
  let stop := SvcCommand (demo_command 2 1100 d_zero d_zero d_zero true) 1100 in
  let ops := [SvcCommand (demo_command 3 1150 d_zero d_one d_zero false) 1150;
              SvcProfile (demo_request 2 (demo_profile (d_lit 10 0) (d_lit 100 0))) 1200;
              SvcTick 1250; SvcRequestHandshake; SvcResetEstop false "nobody"] in
  match demo_active with
  | Some s =>
      let s := service_step stop s in
      latched (svc_safety (service_run ops s)) /\ applied (service_run ops s) = applied s
  | None => False
  end.
Proof.
  intros stop ops. destruct demo_active as [s |] eqn:E.
  - apply (latched_never_actuates ops (service_step stop s)); [left | reflexivity].
    demo_eval (fun s => sm_state (svc_safety (service_step stop s))) demo_active.
  - demo_none E.
Defined.

(** Only commands and profile requests reach [apply_control]; every other
    call of the service leaves the applied commands alone. *)
Theorem only_commands_and_profiles_actuate {J : JsonApi} {A : Type} {VA : VehicleAdapter A}
    (op : service_op) (s : VehicleControlService J (Logged A)) :
  match op with SvcCommand c _ => cmd_estop c = true | SvcProfile _ _ => False | _ => True end ->
  applied (service_step op s) = applied s.
Proof. apply service_step_applied. Qed.

Lemma only_commands_and_profiles_actuate_witness :
  match demo_active with
  | Some s => applied (service_step (SvcTick 1100) s) = applied s
  | None => False
  end.
Proof.
  destruct demo_active as [s |] eqn:E.
  - apply (only_commands_and_profiles_actuate (SvcTick 1100) s). exact I.
  - demo_none E.
Defined.

(** Hard timeout.  In a started service that drives (ACTIVE, DEGRADED or
    already in TIMEOUT_BRAKE), a tick at least the control timeout after the last
    valid command leaves the machine braking or latched and the session profile
    revoked, and applies nothing; the feedback poll may fail with any
    [std::exception] and every other adapter call with anything. *)
Theorem timeout_tick_revokes {J : JsonApi} {A : Type} {VA : VehicleAdapter A}
    (t last : Z) (s : VehicleControlService J (Logged A)) :
  svc_started s = true ->
  sm_state (svc_safety s) ∈ [SafetyControlActive; SafetyDegraded; SafetyTimeoutBrake] ->
  sm_last_valid_receive_ms (svc_safety s) = Some last ->
  sm_control_timeout_ms (svc_safety s) <= t - last ->
  (va_poll_feedback (svc_adapter s)).1 <> Throw ForeignException ->
  let s' := (tick t s).2 in
  sm_state (svc_safety s') ∈ [SafetyTimeoutBrake; SafetyFault] /\
  svc_active_session_profile s' = None /\ applied s' = applied s.
Proof. intros. by apply (tick_timeout_stops t last). Qed.

Definition demo_driving : option Demo :=
  demo_with kMaxOrdinaryBrakePressureBar
    [SvcStart; SvcProfile (demo_request 1 (demo_profile (d_lit 10 0) (d_lit 100 0))) 1000;
     SvcCommand (demo_command 1 1000 d_zero d_one d_zero false) 1000].

Lemma timeout_tick_revokes_witness :
  match demo_driving with
  | Some s =>
      let s' := (tick 3000 s).2 in
      sm_state (svc_safety s') ∈ [SafetyTimeoutBrake; SafetyFault] /\
      svc_active_session_profile s' = None /\ applied s' = applied s
  | None => False
  end.
Proof.
  destruct demo_driving as [s |] eqn:E.
  - apply (timeout_tick_revokes 3000 1000 s).
    + demo_eval svc_started demo_driving.
    + assert (H : sm_state (svc_safety s) = SafetyControlActive).
      { demo_eval (fun s => sm_state (svc_safety s)) demo_driving. }
      rewrite H. by apply (bool_decide_unpack _).
    + demo_eval (fun s => sm_last_valid_receive_ms (svc_safety s)) demo_driving.
    + assert (H : (sm_control_timeout_ms (svc_safety s) <=? 2000) = true).
      { demo_eval (fun s => sm_control_timeout_ms (svc_safety s) <=? 2000) demo_driving. }
      apply Z.leb_le in H. lia.
    + assert (H : (va_poll_feedback (svc_adapter s)).1 = Ok true).
      { demo_eval (fun s : Demo => (va_poll_feedback (svc_adapter s)).1) demo_driving. }
      by rewrite H.
  - demo_none E.
Defined.
