(* ===== verification/ServiceProfiles.v ===== *)
(** ServiceProfiles: the theorems about session-profile requests and the local
    reset.

    - what an accepted request establishes, and what any other answer leaves;
    - replays are idempotent and do not touch the adapter;
    - a disagreement between two brake tolerances of the code;
    - what a successful reset of the emergency stop requires. *)
From S2P Require Export ServiceProperties.

Section profiles.
Context {J : JsonApi} {A : Type} {VA : VehicleAdapter A}.
Notation Svc := (VehicleControlService J A).

(** The active profile is the one of [s0], or none. *)
Definition profile_kept (s0 s : Svc) : Prop :=
  svc_active_session_profile s = svc_active_session_profile s0 \/ no_profile s.

Lemma profile_kept_frame s0 : handler_frame (profile_kept s0).
Proof.
  split.
  - intros R m _ s. by rewrite on_adapter_state.
  - intros f Hf s H. unfold profile_kept, no_profile in *. simpl.
    destruct (ls_profile _ _ (Hf s)) as [-> | ->]; tauto.
Qed.

Lemma request_identity_seq (s : Svc) r :
  request_identity_error s r = None ->
  req_seq r <> 0 /\ req_vehicle_id r = svc_vehicle_id s /\ req_driver_id r = svc_driver_id s /\
  req_session_id r = svc_session_id s /\ req_control_token r = svc_control_token s.
Proof.
  unfold request_identity_error.
  destruct (ProtocolMetadata_validate _ ≫= _) as [[] | e] eqn:Hv; [| done].
  apply result_seq_ok in Hv as [Hm _]. apply ProtocolMetadata_validate_ok in Hm. simpl in Hm.
  repeat case_match; try done. intros _. bool_prop. tauto.
Qed.

(** What holds after an answer to [request] in state [s0]. *)
Definition profile_answered (s0 : Svc) (request : SessionControlProfileRequest)
    (r : SessionControlProfileResult) (s : Svc) : Prop :=
  if res_accepted r && negb (res_idempotent r) then
    request_identity_error s0 request = None /\
    vehicle_limit_error s0 (req_profile request) = None /\
    SessionControlProfile_validate (req_profile request) = Ok tt /\
    svc_active_session_profile s = Some (req_profile request) /\
    res_applied_revision r = req_seq request /\
    res_effective_profile r = Some (req_profile request) /\
    svc_last_session_profile_request s = Some request /\
    svc_last_session_profile_result s = Some r
  else profile_kept s0 s.

Lemma refused_answered s0 request r s :
  res_accepted r = false \/ res_idempotent r = true -> profile_kept s0 s ->
  profile_answered s0 request r s.
Proof.
  intros Hr Hs. unfold profile_answered. by destruct Hr as [-> | ->]; rewrite ?andb_false_r.
Qed.

Lemma reject_and_cache_answered s0 request t reason :
  hoare (profile_kept s0) (reject_and_cache request t reason)
    (profile_answered s0 request) (profile_kept s0).
Proof.
  pose proof (profile_kept_frame s0) as HF. intros s Hs.
  unfold reject_and_cache, cache_result, gets, modify, mbind, M_bind, mret, M_ret.
  apply refused_answered; [by left | exact Hs].
Qed.

Lemma replay_answered s0 request t :
  hoare (fun s => s = s0) (replay_session_profile request t)
    (fun answer s => match answer with
                     | None => s = s0
                     | Some r => profile_answered s0 request r s
                     end) (profile_kept s0).
Proof.
  assert (H0 : profile_kept s0 s0) by by left.
  assert (Hr : forall r, res_accepted r = false \/ res_idempotent r = true ->
                 hoare (fun s => s = s0) (mret (Some r))
                   (fun answer s => match answer with
                                    | None => s = s0
                                    | Some r => profile_answered s0 request r s
                                    end) (profile_kept s0)).
  { intros r Hr. apply hoare_ret. intros s ->. by apply refused_answered. }
  unfold replay_session_profile. apply hoare_get. intros s ->.
  destruct (svc_last_session_profile_request s0) as [previous |]; [| by apply hoare_ret].
  destruct (_ <? _); [apply Hr; by left |].
  destruct (_ =? _); [| by apply hoare_ret].
  destruct (negb _); [apply Hr; by left |].
  destruct (svc_last_session_profile_result s0) as [last |]; [| by apply hoare_ret].
  destruct (_ && _); [apply Hr; by left |].
  apply (hoare_modify _ _ _ _ _ (profile_kept s0)); [by intros s -> |].
  apply hoare_ret. intros s Hs. apply refused_answered; [by right | done].
Qed.

Lemma apply_session_profile_answered s0 request t change :
  request_identity_error s0 request = None ->
  vehicle_limit_error s0 (req_profile request) = None ->
  SessionControlProfile_validate (req_profile request) = Ok tt ->
  hoare (profile_kept s0) (apply_session_profile request t change)
    (profile_answered s0 request) (profile_kept s0).
Proof.
  intros Hid Hlim Hrange. pose proof (profile_kept_frame s0) as HF.
  destruct (request_identity_seq s0 request Hid) as [Hseq _].
  unfold apply_session_profile. apply hoare_keeps_bind; [| done |].
  { assert (Happly : apply_frame (profile_kept s0)).
    { intros c s Hs _. by rewrite on_adapter_state. }
    apply keeps_try.
    - apply keeps_bind; [by apply configure_profile_keeps | intros; apply keeps_ret].
    - intros e. apply keeps_bind; [| intros _; apply keeps_bind;
        [by apply clear_session_profile_keeps | intros; apply keeps_ret]].
      apply keeps_try; [apply (hf_quiet _ HF); constructor | intros; apply keeps_ret]. }
  intros [].
  - intros s Hs. unfold cache_result, modify, gets, mbind, M_bind, mret, M_ret.
    unfold profile_answered, profile_result. simpl. rewrite (proj2 (Z.eqb_neq _ _) Hseq).
    by split_and!.
  - apply reject_and_cache_answered.
Qed.

Lemma request_content_valid request t :
  request_content_error request t = None ->
  SessionControlProfile_validate (req_profile request) = Ok tt.
Proof. unfold request_content_error. by destruct (SessionControlProfile_validate _) as [[] | e]. Qed.

Lemma receive_session_profile_answered s0 request t :
  hoare (fun s => s = s0) (receive_session_profile request t)
    (profile_answered s0 request) (profile_kept s0).
Proof.
  pose proof (profile_kept_frame s0) as HF.
  assert (H0 : profile_kept s0 s0) by by left.
  assert (Hr : forall r (P : Svc -> Prop), res_accepted r = false ->
                 (forall s, P s -> profile_kept s0 s) ->
                 hoare P (mret r) (profile_answered s0 request) (profile_kept s0)).
  { intros r P Hr HP. apply hoare_ret. intros s Hs. apply refused_answered; auto. }
  unfold receive_session_profile.
  apply (hoare_bind _ (fun _ s => s = s0)).
  { intros s ->. unfold require_started, mbind, M_bind, gets, lift. by destruct (throw_if _ _) as [[] |]. }
  intros _. apply hoare_lift; [by intros s e -> | intros [] _].
  apply hoare_get. intros s ->.
  destruct (request_identity_error s0 request) as [reason |] eqn:Hid;
    [apply Hr; [done | by intros s ->] |].
  eapply hoare_bind; [apply replay_answered |]. intros [r |]; [by apply hoare_ret |].
  destruct (request_content_error request t) as [reason |] eqn:Hcontent;
    [apply Hr; [done | by intros s ->] |].
  destruct (vehicle_limit_error s0 (req_profile request)) as [reason |] eqn:Hlim.
  { apply (hoare_pre _ (profile_kept s0)); [by intros s -> | apply reject_and_cache_answered]. }
  apply (hoare_pre _ (profile_kept s0)); [by intros s -> |].
  apply hoare_keeps_bind; [by apply parking_interlock_keeps | done |]. intros [reason |].
  - apply reject_and_cache_answered.
  - apply apply_session_profile_answered; [done | done |].
    by apply (request_content_valid request t).
Qed.
End profiles.

(** ** Answers on the wire *)

Section answers.
Context {J : JsonApi} {A : Type} {VA : VehicleAdapter A}.
Notation Svc := (VehicleControlService J A).

(** An answer that would print, its effective profile aside. *)
Record result_core (r : SessionControlProfileResult) : Prop := {
  rc_version : res_protocol_version r = kProtocolVersion;
  rc_vehicle : string_empty (res_vehicle_id r) = false;
  rc_driver : string_empty (res_driver_id r) = false;
  rc_session : string_empty (res_session_id r) = false;
  rc_seq : res_seq r <> 0;
  rc_sent : 0 <= res_sent_at_utc_ms r;
  rc_reason : string_empty (res_reason r) = false;
  rc_revision : res_applied_revision r = if res_accepted r then res_seq r else 0;
}.

Lemma result_core_valid r :
  result_core r ->
  (forall p, res_effective_profile r = Some p -> SessionControlProfile_validate p = Ok tt) ->
  (res_accepted r = true -> is_Some (res_effective_profile r)) ->
  SessionControlProfileResult_validate r = Ok tt.
Proof.
  intros [H1 H2 H3 H4 H5 H6 H7 H8] Hp Hacc.
  unfold SessionControlProfileResult_validate, ProtocolMetadata_validate. simpl.
  rewrite H1, H2, H3, H4, H7, (proj2 (Z.eqb_neq _ _) H5), (proj2 (Z.ltb_ge _ _) H6). simpl.
  destruct (res_effective_profile r) as [p |]; [rewrite (Hp p eq_refl) |]; simpl; rewrite H8;
    destruct (res_accepted r); simpl; rewrite ?Z.eqb_refl; try done.
  by destruct (Hacc eq_refl).
Qed.

(** What makes the service's answers print. *)
Record answers_ok (s : Svc) : Prop := {
  ao_vehicle : string_empty (svc_vehicle_id s) = false;
  ao_driver : string_empty (svc_driver_id s) = false;
  ao_session : string_empty (svc_session_id s) = false;
  ao_profile : forall p, svc_active_session_profile s = Some p ->
                         SessionControlProfile_validate p = Ok tt;
  ao_result : forall r, svc_last_session_profile_result s = Some r -> result_core r;
}.

Lemma clear_result_core r : result_core r -> result_core (clear_result r).
Proof. intros []. by split. Qed.

Lemma answers_ok_same s s' : local_same s s' -> answers_ok s -> answers_ok s'.
Proof.
  intros [_ _ _ _ _ _ E1 E2 E3 _ Hp Hr _] [H1 H2 H3 H4 H5]. split.
  - by rewrite E1.
  - by rewrite E2.
  - by rewrite E3.
  - destruct Hp as [-> | ->]; [done | by intros p].
  - destruct Hr as [-> | ->]; [done |]. intros r Hr.
    apply fmap_Some in Hr as (r' & Hr' & ->). by apply clear_result_core, H5.
Qed.

Lemma answers_ok_frame : handler_frame answers_ok.
Proof.
  split.
  - intros R m _ s [H1 H2 H3 H4 H5]. rewrite on_adapter_state. by split.
  - intros f Hf s. apply answers_ok_same, Hf.
Qed.

Lemma answers_ok_safety : safety_frame answers_ok.
Proof. intros op _ s [H1 H2 H3 H4 H5]. rewrite on_safety_state. by split. Qed.

Lemma answers_ok_apply : apply_frame answers_ok.
Proof. intros c s [H1 H2 H3 H4 H5] _. rewrite on_adapter_state. by split. Qed.

Lemma profile_result_core (s : Svc) request t accepted idempotent reason :
  answers_ok s -> string_empty reason = false ->
  result_core (profile_result s request t accepted idempotent reason).
Proof.
  intros [H1 H2 H3 _ _] Hr. split; try done; simpl.
  - destruct (Z.eqb_spec (req_seq request) 0); lia.
  - lia.
Qed.

Definition answered_ok (r : SessionControlProfileResult) (s : Svc) : Prop :=
  SessionControlProfileResult_validate r = Ok tt /\ answers_ok s.

Lemma refusal_valid (s : Svc) request t idempotent reason :
  answers_ok s -> string_empty reason = false ->
  SessionControlProfileResult_validate
    (profile_result s request t false idempotent reason) = Ok tt.
Proof.
  intros Hs Hr. apply result_core_valid; [by apply profile_result_core | apply Hs | done].
Qed.

Lemma refusal_answered s0 request t idempotent reason :
  answers_ok s0 -> string_empty reason = false ->
  hoare (fun s => s = s0) (mret (profile_result s0 request t false idempotent reason))
    answered_ok answers_ok.
Proof. intros Hs Hr. apply hoare_ret. intros s ->. split; [by apply refusal_valid | done]. Qed.

Lemma reject_and_cache_ok request t reason :
  string_empty reason = false ->
  hoare answers_ok (reject_and_cache request t reason) answered_ok answers_ok.
Proof.
  intros Hr s Hs. unfold reject_and_cache, cache_result, gets, modify, mbind, M_bind, mret, M_ret.
  split; [by apply refusal_valid |]. destruct Hs as [H1 H2 H3 H4 H5]. split; try done.
  simpl. intros r E. apply (inj Some) in E as <-. by apply profile_result_core.
Qed.

Lemma replay_ok s0 request t :
  answers_ok s0 -> 0 <= t ->
  hoare (fun s => s = s0) (replay_session_profile request t)
    (fun answer s => match answer with None => s = s0 | Some r => answered_ok r s end) answers_ok.
Proof.
  intros H0 Ht.
  assert (Hr : forall idempotent reason, string_empty reason = false ->
    hoare (fun s => s = s0)
      (mret (Some (profile_result s0 request t false idempotent reason)))
      (fun answer s => match answer with None => s = s0 | Some r => answered_ok r s end)
      answers_ok).
  { intros b reason Hr. apply hoare_ret. intros s ->. split; [by apply refusal_valid | done]. }
  unfold replay_session_profile. apply hoare_get. intros s ->.
  destruct (svc_last_session_profile_request s0) as [previous |]; [| by apply hoare_ret].
  destruct (_ <? _); [by apply Hr |]. destruct (_ =? _); [| by apply hoare_ret].
  destruct (negb _); [by apply Hr |].
  destruct (svc_last_session_profile_result s0) as [last |] eqn:Hlast; [| by apply hoare_ret].
  destruct (_ && _) eqn:Hcleared; [by apply Hr |].
  pose proof (ao_result _ H0 _ Hlast) as [C1 C2 C3 C4 C5 C6 C7 C8].
  intros s ->. unfold mbind, M_bind, modify, mret, M_ret. split.
  - apply result_core_valid; [by split | apply H0 |]. simpl. intros Hacc. rewrite Hacc in Hcleared.
    apply andb_false_iff in Hcleared as [H | H]; [| done].
    by apply negb_false_iff, bool_decide_eq_true in H.
  - destruct H0 as [H1 H2 H3 H4 H5]. split; try done. simpl. intros r E.
    apply (inj Some) in E as <-. by split.
Qed.

Lemma apply_session_profile_ok request t change :
  SessionControlProfile_validate (req_profile request) = Ok tt -> req_seq request <> 0 ->
  hoare answers_ok (apply_session_profile request t change) answered_ok answers_ok.
Proof.
  intros Hp Hseq. pose proof answers_ok_frame as HF.
  unfold apply_session_profile. apply hoare_keeps_bind; [| done |].
  { apply keeps_try.
    - apply keeps_bind; [| intros; apply keeps_ret].
      apply configure_profile_keeps; [done | apply answers_ok_apply].
    - intros e. apply keeps_bind; [| intros _; apply keeps_bind;
        [by apply clear_session_profile_keeps | intros; apply keeps_ret]].
      apply keeps_try; [apply (hf_quiet _ HF); constructor | intros; apply keeps_ret]. }
  intros []; [| by apply reject_and_cache_ok].
  intros s Hs. unfold cache_result, modify, gets, mbind, M_bind, mret, M_ret.
  set (s1 := s <| svc_active_session_profile := Some (req_profile request) |>).
  assert (H1 : answers_ok s1).
  { destruct Hs as [H1 H2 H3 H4 H5]. split; try done. simpl. intros p E.
    by apply (inj Some) in E as <-. }
  pose proof (profile_result_core s1 request t true false "accepted" H1 eq_refl) as Hc. split.
  - apply result_core_valid; [done | apply H1 | done].
  - destruct H1 as [G1 G2 G3 G4 G5]. split; try done. simpl. intros r E.
    by apply (inj Some) in E as <-.
Qed.

Lemma identity_error_reason (s : Svc) request reason :
  request_identity_error s request = Some reason -> string_empty reason = false.
Proof. unfold request_identity_error. intros H. repeat case_match; by simplify_eq. Qed.

Lemma content_error_reason request t reason :
  request_content_error request t = Some reason -> string_empty reason = false.
Proof. unfold request_content_error. intros H. repeat case_match; by simplify_eq. Qed.

Lemma limit_error_reason (s : Svc) profile reason :
  vehicle_limit_error s profile = Some reason -> string_empty reason = false.
Proof. unfold vehicle_limit_error. intros H. repeat case_match; by simplify_eq. Qed.

Lemma parking_interlock_ok change :
  hoare answers_ok (parking_interlock change)
    (fun gate s => answers_ok s /\ forall reason, gate = Some reason -> string_empty reason = false)
    answers_ok.
Proof.
  pose proof answers_ok_frame as HF. unfold parking_interlock.
  apply hoare_keeps_bind; [apply (hf_quiet _ HF); constructor | done | intros status].
  apply hoare_get. intros s Hs. apply (hoare_pre _ answers_ok); [by intros s' -> |].
  destruct (_ && _); [| by apply hoare_ret].
  apply hoare_keeps_bind; [| done | intros handshake].
  { apply keeps_try; [| intros; apply keeps_ret].
    apply keeps_bind; [apply (hf_quiet _ HF); constructor | intros; apply keeps_ret]. }
  apply hoare_ret. intros s' Hs'. split; [done |]. intros reason H.
  repeat case_match; by simplify_eq.
Qed.

Lemma receive_session_profile_ok s0 request t :
  answers_ok s0 ->
  hoare (fun s => s = s0) (receive_session_profile request t) answered_ok answers_ok.
Proof.
  intros H0. unfold receive_session_profile. apply (hoare_bind _ (fun _ s => s = s0)).
  { intros s ->. unfold require_started, mbind, M_bind, gets, lift.
    by destruct (throw_if _ _) as [[] |]. }
  intros _. apply hoare_lift; [by intros s e -> | intros [] Ht].
  apply throw_if_ok, Z.ltb_ge in Ht. apply hoare_get. intros s ->.
  destruct (request_identity_error s0 request) as [reason |] eqn:Hid.
  { by apply refusal_answered, (identity_error_reason s0 request). }
  eapply hoare_bind; [by apply replay_ok |]. intros [r |]; [by apply hoare_ret |].
  destruct (request_content_error request t) as [reason |] eqn:Hcontent.
  { by apply refusal_answered, (content_error_reason request t). }
  apply (hoare_pre _ answers_ok); [by intros s -> |].
  destruct (vehicle_limit_error s0 (req_profile request)) as [reason |] eqn:Hlim.
  { by apply reject_and_cache_ok, (limit_error_reason s0 (req_profile request)). }
  eapply hoare_bind; [apply parking_interlock_ok |]. intros gate.
  apply hoare_pure. intros Hgate. destruct gate as [reason |].
  - by apply reject_and_cache_ok, Hgate.
  - apply apply_session_profile_ok; [| by apply (request_identity_seq s0)].
    by apply (request_content_valid request t).
Qed.

Lemma receive_session_profile_answers_ok request t :
  keeps answers_ok (receive_session_profile request t).
Proof.
  intros s Hs. pose proof (receive_session_profile_ok s request t Hs s eq_refl) as H.
  destruct (receive_session_profile request t s) as [[r | e] s']; [apply H | exact H].
Qed.

Lemma service_run_answers_ok ops (s : Svc) : answers_ok s -> answers_ok (service_run ops s).
Proof.
  revert s. induction ops as [| op ops IH]; intros s Hs; simpl; [done |]. apply IH.
  apply service_step_keeps; [apply answers_ok_frame | apply answers_ok_safety | |
    apply answers_ok_apply | | | done].
  - intros c t s' [H1 H2 H3 H4 H5]. rewrite on_receiver_state. by split.
  - intros request t _. apply receive_session_profile_answers_ok.
  - intros confirmed by_ _ _ s' [H1 H2 H3 H4 H5]. rewrite on_safety_state. by split.
Qed.

Lemma VehicleControlService_new_ok config driver session token (adapter : A) interval s :
  VehicleControlService_new config driver session token adapter interval = Ok s -> answers_ok s.
Proof.
  unfold VehicleControlService_new. intros H. apply result_bind_ok in H as (rcv & Hr & H).
  apply result_bind_ok in H as (machine & _ & H). apply throw_if_seq in H as [_ H].
  injection H as <-. unfold ControlReceiver_new in Hr. apply throw_if_seq in Hr as [Hids _].
  apply orb_false_iff in Hids as [Hids H3]. apply orb_false_iff in Hids as [H1 H2].
  by split.
Qed.
End answers.

(** ** Replays *)

Section replay.
Context {J : JsonApi} {A : Type} {VA : VehicleAdapter A}.
Notation Svc := (VehicleControlService J A).

(** The session the service serves. *)
Definition same_session (s0 s : Svc) : Prop :=
  svc_vehicle_id s = svc_vehicle_id s0 /\ svc_driver_id s = svc_driver_id s0 /\
  svc_session_id s = svc_session_id s0 /\ svc_control_token s = svc_control_token s0.

Lemma same_session_frame s0 : handler_frame (same_session s0).
Proof.
  split.
  - intros R m _ s. by rewrite on_adapter_state.
  - intros f Hf s. destruct (Hf s) as [_ _ _ _ _ _ E1 E2 E3 E4 _ _ _]. unfold same_session. simpl.
    by rewrite E1, E2, E3, E4.
Qed.

Lemma receive_session_profile_session s request t :
  same_session s (receive_session_profile request t s).2.
Proof.
  apply receive_session_profile_keeps; [apply same_session_frame | | by intros p s' | | done].
  - intros c s' H _. by rewrite on_adapter_state.
  - by split; [intros r' x s' | intros x s'].
Qed.

Lemma request_identity_same (s0 s : Svc) request :
  same_session s0 s -> request_identity_error s request = request_identity_error s0 request.
Proof. intros (E1 & E2 & E3 & E4). unfold request_identity_error. by rewrite E1, E2, E3, E4. Qed.

Lemma is_identical_refl request :
  SessionControlProfile_validate (req_profile request) = Ok tt ->
  is_identical_request request request = true.
Proof.
  intros Hv. unfold is_identical_request.
  by rewrite !Z.eqb_refl, !String.eqb_refl, SessionControlProfile_eqb_refl.
Qed.

(** The answer to a request the service remembers having accepted. *)
Lemma replay_of_accepted (s : Svc) request t r p :
  svc_started s = true -> 0 <= t -> request_identity_error s request = None ->
  SessionControlProfile_validate (req_profile request) = Ok tt ->
  svc_last_session_profile_request s = Some request ->
  svc_last_session_profile_result s = Some r -> svc_active_session_profile s = Some p ->
  let r' := r <| res_sent_at_utc_ms := t |> <| res_idempotent := true |>
              <| res_effective_profile := Some p |> in
  receive_session_profile request t s =
    (Ok r', s <| svc_last_session_profile_result := Some r' |>).
Proof.
  intros Hst Ht Hid Hv Hreq Hres Hact r'. unfold receive_session_profile, replay_session_profile.
  unfold require_started, mbind, M_bind, gets, get, lift, mret, M_ret, modify.
  rewrite Hst, (proj2 (Z.ltb_ge t 0) Ht). cbn [negb throw_if]. rewrite Hid, Hreq.
  rewrite Z.ltb_irrefl, Z.eqb_refl, is_identical_refl by done. cbn [negb].
  rewrite Hres, Hact. reflexivity.
Qed.
End replay.

(** ** Session-profile requests *)

(** Session profiles.  Whatever the adapter does: when the service answers a
    request "accepted" for the first time, the request named this vehicle,
    driver, session and token, its profile lies in the protocol's range and
    exceeds no limit of the vehicle, the profile is now the active one, and the
    answer reports it with the request's sequence number as revision and is
    remembered.  After any other answer, and after an exception, the active
    profile is the old one or none: a refused request never installs anything. *)
Theorem profile_request_installs_or_keeps {J : JsonApi} {A : Type} {VA : VehicleAdapter A}
    (request : SessionControlProfileRequest) (t : Z) (s : VehicleControlService J A) :
  match receive_session_profile request t s with
  | (Ok r, s') =>
      if res_accepted r && negb (res_idempotent r) then
        request_identity_error s request = None /\
        vehicle_limit_error s (req_profile request) = None /\
        profile_in_range (req_profile request) /\
        svc_active_session_profile s' = Some (req_profile request) /\
        res_applied_revision r = req_seq request /\
        res_effective_profile r = Some (req_profile request) /\
        svc_last_session_profile_request s' = Some request /\
        svc_last_session_profile_result s' = Some r
      else profile_kept s s'
  | (Throw _, s') => profile_kept s s'
  end.
Proof.
  pose proof (receive_session_profile_answered s request t s eq_refl) as H.
  destruct (receive_session_profile request t s) as [[r | e] s']; [| done].
  unfold profile_answered in H. destruct (res_accepted r && _); [| done].
  destruct H as (? & ? & ? & ?). split_and!; try tauto.
  by apply SessionControlProfile_validate_range.
Qed.

(** Every answer prints.  Whatever was called before, in whatever order and
    whatever the adapter did: an answer of the service to a session-profile
    request, old, repeated, conflicting, refused or accepted, satisfies the
    protocol's own validation, so that printing it cannot throw. *)
Theorem profile_answers_print {J : JsonApi} {A : Type} {VA : VehicleAdapter A}
    (config : VehicleConfig) (driver session token : string) (adapter : A) (interval t : Z)
    (ops : list service_op) (request : SessionControlProfileRequest)
    (r : SessionControlProfileResult) (s0 s' : VehicleControlService J A) :
  VehicleControlService_new config driver session token adapter interval = Ok s0 ->
  receive_session_profile request t (service_run ops s0) = (Ok r, s') ->
  exists text, SessionControlProfileResult_to_json r = Ok text.
Proof.
  intros Hnew Hr. apply VehicleControlService_new_ok in Hnew.
  pose proof (service_run_answers_ok ops s0 Hnew) as Hrun.
  pose proof (receive_session_profile_ok _ request t Hrun _ eq_refl) as H. rewrite Hr in H.
  destruct H as [Hv _]. unfold SessionControlProfileResult_to_json. rewrite Hv. simpl.
  unfold SessionControlProfileResult_validate in Hv. apply result_seq_ok in Hv as [_ Hv].
  apply result_seq_ok in Hv as [_ Hv]. apply result_seq_ok in Hv as [Hp _].
  destruct (res_effective_profile r) as [p |]; [| by eexists].
  unfold SessionControlProfile_to_json. rewrite Hp. by eexists.
Qed.

(** Replays are idempotent.  Sending the request that was just accepted once
    more, at any later time, answers the same verdict marked idempotent with a
    new time stamp, touches neither the adapter nor the active profile nor any
    other part of the service, and remembers that answer. *)
Theorem profile_replay_idempotent {J : JsonApi} {A : Type} {VA : VehicleAdapter A}
    (request : SessionControlProfileRequest) (t t' : Z) (r : SessionControlProfileResult)
    (s s' : VehicleControlService J A) :
  receive_session_profile request t s = (Ok r, s') ->
  res_accepted r && negb (res_idempotent r) = true -> svc_started s' = true -> 0 <= t' ->
  let r' := r <| res_sent_at_utc_ms := t' |> <| res_idempotent := true |> in
  receive_session_profile request t' s' =
    (Ok r', s' <| svc_last_session_profile_result := Some r' |>).
Proof.
  intros E Hacc Hst Ht r'.
  pose proof (receive_session_profile_answered s request t s eq_refl) as H. rewrite E in H.
  unfold profile_answered in H. rewrite Hacc in H.
  destruct H as (Hid & _ & Hv & Hact & _ & Heff & Hreq & Hres).
  pose proof (receive_session_profile_session s request t) as Hsame. rewrite E in Hsame.
  rewrite <- (request_identity_same s s' request Hsame) in Hid.
  rewrite (replay_of_accepted s' request t' r _ Hst Ht Hid Hv Hreq Hres Hact).
  subst r'. destruct r. simpl in *. by subst.
Qed.

Lemma profile_replay_idempotent_witness :
  let request := demo_request 1 (demo_profile (d_lit 10 0) (d_lit 100 0)) in
  match demo_with kMaxOrdinaryBrakePressureBar [SvcStart] with
  | Some s =>
      match receive_session_profile request 1000 s with
      | (Ok r, s') =>
          let r' := r <| res_sent_at_utc_ms := 1200 |> <| res_idempotent := true |> in
          receive_session_profile request 1200 s' =
            (Ok r', s' <| svc_last_session_profile_result := Some r' |>)
      | (Throw _, _) => False
      end
  | None => False
  end.
Proof.
  intros request. destruct (demo_with _ _) as [s |] eqn:E; [| demo_none E].
  assert (H : match receive_session_profile request 1000 s with
              | (Ok r, s') => res_accepted r && negb (res_idempotent r) && svc_started s'
              | (Throw _, _) => false
              end = true).
  { apply (demo_fact (fun s => match receive_session_profile request 1000 s with
              | (Ok r, s') => res_accepted r && negb (res_idempotent r) && svc_started s'
              | (Throw _, _) => false
              end) (demo_with kMaxOrdinaryBrakePressureBar [SvcStart]));
      [vm_compute; reflexivity | done]. }
  destruct (receive_session_profile request 1000 s) as [[r | e] s'] eqn:Er; [| done].
  apply andb_true_iff in H as [H1 H2].
  apply (profile_replay_idempotent request 1000 1200 r s s' Er H1 H2). lia.
Defined.


Lemma profile_answers_print_witness :
  let request := demo_request 1 (demo_profile (d_lit 10 0) (d_lit 100 0)) in
  let adapter := mkLogged MockVehicleAdapter_new [] in
  match demo_config kMaxOrdinaryBrakePressureBar with
  | Some config =>
      match @VehicleControlService_new JsonModel.api _ config "driver-1" "session-1" "token"
              adapter 100 with
      | Ok s0 =>
          match receive_session_profile request 1000 (service_run [SvcStart] s0) with
          | (Ok r, _) => exists text, @SessionControlProfileResult_to_json JsonModel.api r = Ok text
          | (Throw _, _) => False
          end
      | Throw _ => False
      end
  | None => False
  end.
Proof.
  intros request adapter.
  assert (H : match demo_config kMaxOrdinaryBrakePressureBar with
    | Some config =>
      match @VehicleControlService_new JsonModel.api _ config "driver-1" "session-1" "token"
              adapter 100 with
      | Ok s0 => is_ok (receive_session_profile request 1000 (service_run [SvcStart] s0)).1
      | Throw _ => false
      end
    | None => false
    end = true) by (vm_compute; reflexivity).
  destruct (demo_config _) as [config |]; [| done].
  destruct (VehicleControlService_new _ _ _ _ _ _) as [s0 | e] eqn:Enew; [| done].
  destruct (receive_session_profile _ _ _) as [[r | e] s'] eqn:Er; [| done].
  apply (profile_answers_print config "driver-1" "session-1" "token" adapter 100 1000 [SvcStart]
           request r s0 s' Enew Er).
Defined.

(** ** Two tolerances *)

(** A profile whose brake limit exceeds the vehicle's by half of the tolerance. *)
Definition slack_profile : SessionControlProfile :=
  demo_profile (d_lit 10 0) (d_lit 1000000000005 10).

Definition slack_demo : option Demo :=
  demo_with (d_lit 100 0) [SvcStart; SvcProfile (demo_request 1 slack_profile) 1000].

(** A disagreement.  [receive_session_profile] lets a profile exceed the
    vehicle's brake limit by up to 1e-9 bar; the conversion of a command's brake
    to the vehicle's scale allows no excess.  With a vehicle limit of 100 bar and
    a profile limit of 100.0000000005 bar the request is accepted and becomes the
    active profile, and from then on every ordinary command, even a neutral one,
    ends in an [std::invalid_argument] thrown out of [receive_command]. *)
Theorem brake_tolerances_disagree :
  match slack_demo with
  | Some s =>
      svc_active_session_profile s = Some slack_profile /\
      forall throttle brake, throttle ∈ [d_zero; d_one] -> brake ∈ [d_zero; d_one] ->
      exists message,
        (receive_command (demo_command 1 1000 d_zero throttle brake false) 1000 s).1 =
          Throw (InvalidArgument message)
  | None => False
  end.
Proof.
  destruct slack_demo as [s |] eqn:E; [| demo_none E]. split.
  { demo_eval svc_active_session_profile slack_demo. }
  set (throws := fun s : Demo => forallb (fun throttle => forallb (fun brake =>
        match (receive_command (demo_command 1 1000 d_zero throttle brake false) 1000 s).1 with
        | Throw (InvalidArgument _) => true
        | _ => false
        end) [d_zero; d_one]) [d_zero; d_one]).
  assert (H : throws s = true) by demo_eval throws slack_demo.
  intros throttle brake Ht Hb. unfold throws in H. rewrite forallb_forall in H.
  specialize (H throttle (proj1 (list_elem_of_In _ _) Ht)). rewrite forallb_forall in H.
  specialize (H brake (proj1 (list_elem_of_In _ _) Hb)).
  destruct (receive_command _ 1000 s).1 as [v | []]; try discriminate H. by eexists.
Qed.

(** ** The local reset *)

Section reset.
Context {J : JsonApi} {A : Type} {VA : VehicleAdapter A}.
Notation Svc := (VehicleControlService J (Logged A)).

(** The last actuator call released the stop. *)
Definition release_called (s : Svc) : Prop :=
  exists gear, last (lg_calls (svc_adapter s)) =
    Some (CallStop (mkControlOutput gear d_zero d_zero d_zero false false)
            VehicleStopContext_default).

Definition same_machine (machine : SafetyStateMachine) (s : Svc) : Prop := svc_safety s = machine.

Lemma same_machine_frame machine : handler_frame (same_machine machine).
Proof.
  split.
  - intros R m _ s. by rewrite on_adapter_state.
  - intros f Hf s H. unfold same_machine in *. simpl. by rewrite (ls_safety _ _ (Hf s)).
Qed.

(** The calls that log nothing keep [release_called]. *)
Definition released (machine : SafetyStateMachine) (s : Svc) : Prop :=
  same_machine machine s /\ release_called s.

Definition reset_outcome (machine : SafetyStateMachine) (confirmed : bool) (by_ : string)
    (reset : bool) (s : Svc) : Prop :=
  if reset then
    sm_state machine = SafetyEstop /\ confirmed = true /\ by_ <> "" /\
    svc_safety s = enter_standby machine /\ release_called s
  else svc_safety s = machine.

Lemma same_machine_silent machine P {R} (m : M A R) :
  keeps (fun s : Svc => same_machine machine s /\ P (lg_calls (svc_adapter s)))
    (on_adapter (inner m)).
Proof. intros s [H1 H2]. rewrite on_adapter_state. split; [done |]. simpl. by rewrite inner_calls. Qed.

Lemma refresh_silent machine P :
  keeps (fun s : Svc => same_machine machine s /\ P (lg_calls (svc_adapter s)))
    refresh_adapter_safe_stop_state.
Proof.
  unfold refresh_adapter_safe_stop_state, clear_session_profile.
  repeat first [apply same_machine_silent | apply keeps_modify; done | keeps_step].
Qed.

Lemma reset_estop_hoare (s0 : Svc) confirmed by_ :
  hoare (fun s => s = s0) (reset_estop confirmed by_)
    (reset_outcome (svc_safety s0) confirmed by_) (same_machine (svc_safety s0)).
Proof.
  set (machine := svc_safety s0). pose proof (same_machine_frame machine) as HF.
  assert (Hno : hoare (same_machine machine) (mret false) (reset_outcome machine confirmed by_)
                  (same_machine machine)) by (by apply hoare_ret).
  unfold reset_estop, safety_state. apply hoare_gets. intros s ->.
  apply (hoare_pre _ (same_machine machine)); [by intros s -> |].
  destruct (_ || _ || _) eqn:E; [done |]. apply orb_false_iff in E as [E E3].
  apply orb_false_iff in E as [E1 E2]. apply negb_false_iff, bool_decide_eq_true in E1.
  apply negb_false_iff in E2 as ->.
  apply hoare_keeps_bind; [by apply observe_for_reset_keeps | done |]. intros [gear |]; [| done].
  apply (hoare_bind _ (fun released s => same_machine machine s /\
    (released = true -> release_called s))).
  { intros s Hs. unfold try_catch, mbind, M_bind, mret, M_ret, modify.
    pose proof (on_adapter_state (va_apply_safe_stop
      (mkControlOutput gear d_zero d_zero d_zero false false) VehicleStopContext_default) s) as Ha.
    destruct (on_adapter _ s) as [[[] | e] s']; simpl in *; subst s'; [| by split].
    split; [done |]. intros _. exists gear. simpl. by rewrite logging_calls, last_snoc. }
  intros [].
  2: { apply hoare_ret. by intros s [Hs _]. }
  set (ok := fun s : Svc => same_machine (enter_standby machine) s /\ release_called s).
  apply (hoare_bind _ (fun reset s => reset = true /\ ok s)).
  { intros s [Hs Hr]. specialize (Hr eq_refl). unfold same_machine in Hs.
    unfold on_safety, zoom. rewrite Hs. unfold safety_reset_estop, mbind, M_bind, gets.
    rewrite E3, (bool_decide_eq_false_2 (sm_state machine <> SafetyEstop)) by tauto. simpl.
    by split_and!. }
  intros reset s [-> Hok]. revert s Hok. cbn [negb].
  apply (hoare_bind _ (fun _ => ok)); [by intros s Hok |]. intros _.
  apply (hoare_bind _ (fun _ => ok)).
  { intros s Hs. destruct (refresh_ok s) as [b Hb].
    pose proof (refresh_silent (enter_standby machine) (fun calls => exists gear, last calls =
      Some (CallStop (mkControlOutput gear d_zero d_zero d_zero false false)
            VehicleStopContext_default)) s Hs) as Hk.
    by destruct (refresh_adapter_safe_stop_state s) as [[] ?]. }
  intros _. apply hoare_ret. intros s [Hs Hr]. split_and!; try done.
  by apply String.eqb_neq.
Qed.
End reset.

(** The local reset.  Whatever the adapter does: a [reset_estop] that answers
    true was confirmed locally by a named person while the machine was in ESTOP,
    the machine is now in STANDBY with its last command forgotten, and the last
    actuator call was the release of the stop.  Any other answer, and any
    exception, leaves the safety machine exactly as it was. *)
Theorem reset_estop_guarded {J : JsonApi} {A : Type} {VA : VehicleAdapter A}
    (confirmed : bool) (by_ : string) (s : VehicleControlService J (Logged A)) :
  match reset_estop confirmed by_ s with
  | (Ok true, s') =>
      sm_state (svc_safety s) = SafetyEstop /\ confirmed = true /\ by_ <> "" /\
      svc_safety s' = enter_standby (svc_safety s) /\ release_called s'
  | (_, s') => svc_safety s' = svc_safety s
  end.
Proof.
  pose proof (reset_estop_hoare s confirmed by_ s eq_refl) as H.
  by destruct (reset_estop confirmed by_ s) as [[[] | e] s'].
Qed.
