(* ===== verification/CanSignal.v ===== *)
(** CanSignal: CAN frames and the signals inside them (vcu.hpp:19-62, vcu.cpp:10-122).

    A frame carries eight bytes, read as one little-endian 64-bit word; a signal is
    a bit field of that word.  Physical values are scaled and clamped before they
    are packed.

    - [extract_signal] after [insert_signal] is the inserted value for the same
      field and the old value for a disjoint one, at every start and width;
    - an encoded value fits its field. *)
From S2P Require Export Float64.

(** ** Frames *)

Record CanFrame := mkCanFrame {
  can_id : Z;
  can_dlc : Z;
  can_data : list Z;  (* eight bytes *)
  can_extended : bool;
}.

#[global] Instance eta_CanFrame : Settable CanFrame :=
  fields! mkCanFrame <can_id; can_dlc; can_data; can_extended>.

(** [CanFrame{id}] *)
Definition CanFrame_of_id (id : Z) : CanFrame := mkCanFrame id 8 (repeat 0 8%nat) true.

(** ** Signals *)

Definition signal_mask (length : Z) : Z :=
  if 64 <=? length then 2 ^ 64 - 1 else Z.shiftl 1 length - 1.

(** The loop over the bytes, from the byte at [index] on. *)
Fixpoint load_bytes (index value : Z) (data : list Z) : Z :=
  match data with
  | [] => value
  | byte :: data => load_bytes (index + 1) (Z.lor value (u64 (Z.shiftl byte (index * 8)))) data
  end.

Definition load_little_endian (data : list Z) : Z := load_bytes 0 0 data.

Definition store_little_endian (value : Z) : list Z :=
  map (fun index => Z.land (Z.shiftr value (index * 8)) 255) [0; 1; 2; 3; 4; 5; 6; 7].

Definition extract_signal (frame : CanFrame) (start length : Z) : Z :=
  Z.land (Z.shiftr (load_little_endian (can_data frame)) start) (signal_mask length).

Definition insert_signal (start length raw : Z) (frame : CanFrame) : CanFrame :=
  let payload := load_little_endian (can_data frame) in
  let mask := u64 (Z.shiftl (signal_mask length) start) in
  frame <| can_data :=
    store_little_endian
      (Z.lor (Z.land payload (Z.lnot mask)) (Z.land (u64 (Z.shiftl raw start)) mask)) |>.

(** ** Physical values *)

Definition encode_physical (value factor offset : double) (length : Z)
    (minimum maximum : double) : Z :=
  let bounded := d_clamp value minimum maximum in
  let raw := d_llround ((bounded ⊖ offset) ⊘ factor) in
  Z.min (Z.max raw 0) (signal_mask length).

Definition decode_physical (raw : Z) (factor offset : double) : double :=
  (d_of_Z raw ⊗ factor) ⊕ offset.

(** ** Bits *)

(** Bit by bit: turns [Z.testbit] of the bit operations into booleans. *)
Lemma testbit_mod2 a n i : 0 <= n -> Z.testbit (a mod 2 ^ n) i = (i <? n) && Z.testbit a i.
Proof.
  intros Hn. destruct (Z.ltb_spec i n); simpl.
  - by apply Z.mod_pow2_bits_low.
  - apply Z.mod_pow2_bits_high. lia.
Qed.

Lemma testbit_shiftl a n i : Z.testbit (Z.shiftl a n) i = (0 <=? i) && Z.testbit a (i - n).
Proof.
  destruct (Z.leb_spec 0 i); [by apply Z.shiftl_spec | by apply Z.testbit_neg_r].
Qed.

Lemma testbit_shiftr a n i : Z.testbit (Z.shiftr a n) i = (0 <=? i) && Z.testbit a (i + n).
Proof.
  destruct (Z.leb_spec 0 i); [by apply Z.shiftr_spec | by apply Z.testbit_neg_r].
Qed.

Lemma testbit_lnot a i : Z.testbit (Z.lnot a) i = (0 <=? i) && negb (Z.testbit a i).
Proof.
  destruct (Z.leb_spec 0 i); [by apply Z.lnot_spec | by apply Z.testbit_neg_r].
Qed.

Lemma testbit_u64 a i : Z.testbit (u64 a) i = (i <? 64) && Z.testbit a i.
Proof. by apply testbit_mod2. Qed.

Lemma testbit_mask length i :
  0 <= length -> Z.testbit (signal_mask length) i = (0 <=? i) && (i <? Z.min length 64).
Proof.
  intros Hl. unfold signal_mask. destruct (Z.leb_spec 64 length).
  - change (2 ^ 64 - 1) with (Z.ones 64). rewrite Z.testbit_ones by lia. f_equal. f_equal. lia.
  - rewrite Z.shiftl_1_l. replace (2 ^ length - 1) with (Z.ones length)
      by (rewrite Z.ones_equiv; lia).
    rewrite Z.testbit_ones by lia. f_equal. f_equal. lia.
Qed.

Lemma testbit_255 i : Z.testbit 255 i = (0 <=? i) && (i <? 8).
Proof. change 255 with (Z.ones 8). by apply Z.testbit_ones. Qed.

Create HintDb bits.
#[export] Hint Rewrite Z.lor_spec Z.land_spec testbit_shiftl testbit_shiftr testbit_lnot testbit_u64
  testbit_255 Z.testbit_0_l : bits.

(** Decides the comparisons of the goal that linear arithmetic decides. *)
Ltac decide_comparisons :=
  repeat match goal with
  | |- context [?a <? ?b] =>
      first [rewrite (proj2 (Z.ltb_lt a b)) by lia | rewrite (proj2 (Z.ltb_ge a b)) by lia]
  | |- context [?a <=? ?b] =>
      first [rewrite (proj2 (Z.leb_le a b)) by lia | rewrite (proj2 (Z.leb_gt a b)) by lia]
  end; cbn [andb orb negb].

(** ** Loading and storing *)
Lemma load_bytes_u64 data : forall index value,
  u64 value = value -> u64 (load_bytes index value data) = load_bytes index value data.
Proof.
  induction data as [| byte data IH]; intros index value Hv; simpl; [done |]. apply IH.
  apply Z.bits_inj'. intros i Hi. autorewrite with bits. rewrite <- Hv. autorewrite with bits.
  destruct (i <? 64); simpl; rewrite ?andb_false_r; done.
Qed.

Lemma load_range data : 0 <= load_little_endian data < 2 ^ 64.
Proof.
  unfold load_little_endian. rewrite <- load_bytes_u64 by done. apply u64_range.
Qed.

Lemma load_store value : load_little_endian (store_little_endian value) = u64 value.
Proof.
  unfold load_little_endian, store_little_endian. cbn [map load_bytes].
  apply Z.bits_inj'. intros i Hi. autorewrite with bits.
  destruct (Z.ltb_spec i 64) as [H | H]; [| decide_comparisons; done].
  assert (Hk : i < 8 \/ 8 <= i < 16 \/ 16 <= i < 24 \/ 24 <= i < 32 \/ 32 <= i < 40 \/
               40 <= i < 48 \/ 48 <= i < 56 \/ 56 <= i) by lia.
  destruct Hk as [Hk | [Hk | [Hk | [Hk | [Hk | [Hk | [Hk | Hk]]]]]]]; decide_comparisons;
    rewrite ?andb_false_r, ?orb_false_r, ?andb_true_r; simpl; f_equal; lia.
Qed.

(** A frame whose payload is eight bytes. *)
Definition frame_ok (frame : CanFrame) : Prop :=
  can_dlc frame = 8 /\ can_extended frame = true /\ length (can_data frame) = 8%nat /\
  Forall (fun byte => 0 <= byte < 256) (can_data frame).

Lemma frame_ok_of_id id : frame_ok (CanFrame_of_id id).
Proof. split_and!; try done. simpl. repeat constructor; lia. Qed.

Lemma store_bytes value : Forall (fun byte => 0 <= byte < 256) (store_little_endian value).
Proof.
  unfold store_little_endian. apply Forall_map, Forall_forall. intros index _.
  change 255 with (Z.ones 8). rewrite Z.land_ones by lia. by apply Z.mod_pos_bound.
Qed.

Lemma insert_signal_ok start length raw frame :
  frame_ok frame -> frame_ok (insert_signal start length raw frame).
Proof. intros (H1 & H2 & H3 & H4). split_and!; try done. apply store_bytes. Qed.

Lemma insert_signal_id start length raw frame :
  can_id (insert_signal start length raw frame) = can_id frame.
Proof. done. Qed.

(** The field of a signal, as a mask over the word. *)
Lemma field_mask_bit start length i :
  0 <= start -> 0 <= length -> start + length <= 64 -> 0 <= i ->
  Z.testbit (u64 (Z.shiftl (signal_mask length) start)) i =
  (start <=? i) && (i <? start + length).
Proof.
  intros Hs Hl H64 Hi. autorewrite with bits. rewrite testbit_mask by lia.
  destruct (Z.leb_spec start i), (Z.ltb_spec i (start + length)); try (exfalso; lia);
    decide_comparisons; rewrite ?andb_false_r; done.
Qed.

Lemma load_bit data i :
  Z.testbit (load_little_endian data) i = (i <? 64) && Z.testbit (load_little_endian data) i.
Proof.
  rewrite <- testbit_u64. unfold load_little_endian. by rewrite load_bytes_u64.
Qed.

(** The bits of a frame after an insertion. *)
Lemma insert_payload_bit start length raw frame i :
  0 <= start -> 0 <= length -> start + length <= 64 -> 0 <= i ->
  Z.testbit (load_little_endian (can_data (insert_signal start length raw frame))) i =
  if (start <=? i) && (i <? start + length) then Z.testbit raw (i - start)
  else Z.testbit (load_little_endian (can_data frame)) i.
Proof.
  intros Hs Hl H64 Hi. unfold insert_signal.
  change (can_data (frame <| can_data := ?d |>)) with d.
  rewrite load_store, testbit_u64, Z.lor_spec, !Z.land_spec, testbit_lnot, field_mask_bit by done.
  rewrite testbit_u64, testbit_shiftl, (proj2 (Z.leb_le 0 i) Hi). cbn [andb].
  destruct (Z.leb_spec start i), (Z.ltb_spec i (start + length)); cbn [andb negb];
    rewrite ?andb_false_r, ?andb_true_r, ?orb_false_r, <- ?load_bit; try done.
  decide_comparisons. done.
Qed.

Lemma extract_bit start length frame i :
  0 <= start -> 0 <= length -> start + length <= 64 -> 0 <= i ->
  Z.testbit (extract_signal frame start length) i =
  (i <? length) && Z.testbit (load_little_endian (can_data frame)) (i + start).
Proof.
  intros Hs Hl H64 Hi. unfold extract_signal.
  rewrite Z.land_spec, testbit_shiftr, testbit_mask, (proj2 (Z.leb_le 0 i) Hi) by lia.
  replace (Z.min length 64) with length by lia. cbn [andb]. by rewrite andb_comm.
Qed.

Lemma extract_insert_same start length raw frame :
  0 <= start -> 0 <= length -> start + length <= 64 ->
  extract_signal (insert_signal start length raw frame) start length = raw mod 2 ^ length.
Proof.
  intros Hs Hl H64. apply Z.bits_inj'. intros i Hi.
  rewrite extract_bit, insert_payload_bit, testbit_mod2 by lia.
  destruct (Z.ltb_spec i length); cbn [andb]; [| done]. decide_comparisons. f_equal. lia.
Qed.

Lemma extract_insert_other start length raw start' length' frame :
  0 <= start -> 0 <= length -> start + length <= 64 ->
  0 <= start' -> 0 <= length' -> start' + length' <= 64 ->
  start' + length' <= start \/ start + length <= start' ->
  extract_signal (insert_signal start length raw frame) start' length' =
  extract_signal frame start' length'.
Proof.
  intros Hs Hl H64 Hs' Hl' H64' Hdis. apply Z.bits_inj'. intros i Hi.
  rewrite !extract_bit, insert_payload_bit by lia.
  destruct (Z.ltb_spec i length'); cbn [andb]; [| done].
  destruct Hdis; decide_comparisons; rewrite ?andb_false_r; done.
Qed.

Lemma extract_range start length frame :
  0 <= start -> 0 <= length -> start + length <= 64 ->
  0 <= extract_signal frame start length < 2 ^ length.
Proof.
  intros Hs Hl H64.
  assert (E : extract_signal frame start length = extract_signal frame start length mod 2 ^ length).
  { apply Z.bits_inj'. intros i Hi. rewrite testbit_mod2, !extract_bit by lia.
    by destruct (i <? length). }
  rewrite E. apply Z.mod_pos_bound. lia.
Qed.

Lemma encode_range value factor offset length minimum maximum :
  0 <= length <= 64 -> 0 <= encode_physical value factor offset length minimum maximum < 2 ^ length.
Proof.
  intros Hl. unfold encode_physical.
  assert (Hm : 0 <= signal_mask length < 2 ^ length).
  { unfold signal_mask. destruct (Z.leb_spec 64 length).
    - replace length with 64 by lia. lia.
    - rewrite Z.shiftl_1_l. lia. }
  lia.
Qed.


(** ** Properties *)

(** Signals.  For every frame, every field [start, start + length) of the
    64-bit payload and every raw value: what is inserted is read back modulo the
    width, every field that does not overlap keeps its value, the identifier and
    the eight-byte shape of the frame are kept, and what is read from a field
    fits its width. *)
Theorem signal_roundtrip (frame : CanFrame) (start length raw : Z) :
  0 <= start -> 0 <= length -> start + length <= 64 ->
  let frame' := insert_signal start length raw frame in
  extract_signal frame' start length = raw mod 2 ^ length /\
  (forall start' length',
     0 <= start' -> 0 <= length' -> start' + length' <= 64 ->
     start' + length' <= start \/ start + length <= start' ->
     extract_signal frame' start' length' = extract_signal frame start' length') /\
  can_id frame' = can_id frame /\ (frame_ok frame -> frame_ok frame') /\
  0 <= extract_signal frame start length < 2 ^ length.
Proof.
  intros Hs Hl H64 frame'. split_and!.
  - by apply extract_insert_same.
  - intros. by apply extract_insert_other.
  - done.
  - apply insert_signal_ok.
  - by apply extract_range.
  - by apply extract_range.
Qed.

Lemma signal_roundtrip_witness :
  let frame := insert_signal 8 16 32000 (CanFrame_of_id 419476725) in
  extract_signal frame 8 16 = 32000 mod 2 ^ 16 /\ extract_signal frame 24 14 = 0.
Proof.
  intros frame.
  destruct (signal_roundtrip (CanFrame_of_id 419476725) 8 16 32000) as (H1 & H2 & _); try lia.
  split; [exact H1 |]. unfold frame. rewrite (H2 24 14) by lia. reflexivity.
Defined.
