(* ===== verification/Vcu.v ===== *)
(** Vcu: the parallel-driving controller of the chassis (vcu.hpp, vcu.cpp).

    [ParallelController] owns the handshake with the vehicle control unit: it
    takes CAN feedback in ([ingest]), advances its state machine once per 20 ms
    cycle and emits sixteen frames ([tick]).  [OperatorIdleParking] is the
    operator-input timer of the automatic parking.

    The local variables [tick] computes are the record [TickOutputs]; each block
    of [tick] that changes them is a function on it, in the order of the code. *)
From S2P Require Export CanSignal.

(** ** Constants *)

Definition kMotorCount : nat := 8.
Definition kSteeringAxisCount : nat := 4.
Definition kBrakeCount : nat := 8.
Definition kParkingBrakeCount : nat := 4.
Definition kTransmitFrameCount : nat := 16.
Definition kMotorTorqueBits : Z := 16.
Definition kMotorTorqueResolutionNm : double := d_lit 1 1.
Definition kMotorTorqueMinimumNm : double := d_lit (-3200) 0.
Definition kMotorTorqueMaximumNm : double := d_lit 33535 1.

Definition kAduEps01 : Z := 0x18F8D0F5.
Definition kAduEps03 : Z := 0x18F9D0F5.
Definition kAduEhb01 : Z := 0x18FFD0F5.
Definition kAduEhb02 : Z := 0x18FAD0F5.
Definition kAduEpb : Z := 0x18FBD0F5.
Definition kAduShake : Z := 0x18FCD0F5.
Definition kAduBody : Z := 0x18FDD0F5.
Definition kAduVehicleSpeed : Z := 0x18FED0F5.
Definition kWvcuHandshake : Z := 0x18F0F5D0.
Definition kWvcuVehicleStatus : Z := 0x18F2F5D0.
Definition kWvcuVehicleSpeed : Z := 0x18F3F5D0.
Definition kWvcuDriverIntention : Z := 0x18F5F5D0.
Definition kWvcuDriverIntention2 : Z := 0x18F6F5D0.
Definition kWvcuParkingBrake : Z := 0x18CFF4D0.

Definition kNoRequest : Z := 0.
Definition kNeutralGear : Z := 1.
Definition kIntelligentHandshakeRequest : Z := 2.
Definition kIntelligentHandshakeStatus : Z := 5.
Definition kManualHandshakeStatus : Z := 3.
Definition kNeutralGearRequest : Z := 1.
Definition kParkingBrakeHold : Z := 0.
Definition kParkingBrakeRelease : Z := 1.
Definition kParkingBrakePark : Z := 2.
Definition kByWireMode : Z := 1.
Definition kMotorEnable : Z := 1.
Definition kMotorTorqueMode : Z := 1.
Definition kTorqueZeroToleranceNm : double := d_lit 2 0.
Definition kStoppedSpeedToleranceMps : double := d_lit 1 1.

Definition kMotorCommandIds : list Z :=
  [0x18F0D0F5; 0x18F1D0F5; 0x18F2D0F5; 0x18F3D0F5; 0x18F4D0F5; 0x18F5D0F5; 0x18F6D0F5;
   0x18F7D0F5].
Definition kMotorStatus01Ids : list Z :=
  [0x18A0F4D0; 0x18A3F4D0; 0x18A6F4D0; 0x18A9F4D0; 0x18ACF4D0; 0x18AFF4D0; 0x18B2F4D0;
   0x18B5F4D0].
Definition kMotorStatus02Ids : list Z :=
  [0x18A1F4D0; 0x18A4F4D0; 0x18A7F4D0; 0x18AAF4D0; 0x18ADF4D0; 0x18B0F4D0; 0x18B3F4D0;
   0x18B6F4D0].
Definition kSteeringStatusIds : list Z := [0x18C0F4D0; 0x18C1F4D0; 0x18C2F4D0; 0x18C3F4D0].
Definition kBrakeStatusIds : list Z := [0x18C8F4D0; 0x18C9F4D0; 0x18CAF4D0; 0x18CBF4D0].

(** ** Data *)

(** [vcu::Command] *)
Record VcuCommand := mkVcuCommand {
  vc_gear : Z;
  vc_vehicle_speed_request_kph : double;
  vc_vehicle_speed_request_valid : bool;
  vc_motor_torque_nm : list double;
  vc_motor_speed_rpm : list double;
  vc_steering_angle_deg : list double;
  vc_steering_speed_degps : list double;
  vc_brake_pressure_bar : list double;
  vc_fault_reset : bool;
}.

#[global] Instance eta_VcuCommand : Settable VcuCommand :=
  fields! mkVcuCommand
    <vc_gear; vc_vehicle_speed_request_kph; vc_vehicle_speed_request_valid; vc_motor_torque_nm;
     vc_motor_speed_rpm; vc_steering_angle_deg; vc_steering_speed_degps; vc_brake_pressure_bar;
     vc_fault_reset>.

Definition zeros (n : nat) : list double := repeat d_zero n.

Definition VcuCommand_default : VcuCommand :=
  mkVcuCommand 1 d_zero false (zeros kMotorCount) (zeros kMotorCount) (zeros kSteeringAxisCount)
    (zeros kSteeringAxisCount) (zeros kBrakeCount) false.

(** [vcu::Feedback] *)
Record VcuFeedback := mkVcuFeedback {
  fb_handshake_status : Z;
  fb_handshake_valid : bool;
  fb_gear : Z;
  fb_gear_valid : bool;
  fb_emergency_switch : Z;
  fb_vmc_fault_code : Z;
  fb_vmc_fault_code_valid : bool;
  fb_driver_gear_request : Z;
  fb_driver_gear_request_valid : bool;
  fb_parking_brake_switch : Z;
  fb_parking_brake_switch_valid : bool;
  fb_brake_pedal_switch : Z;
  fb_brake_pedal_switch_valid : bool;
  fb_speed_mps : double;
  fb_speed_valid : bool;
  fb_parking_brake_status : list Z;
  fb_parking_brake_valid : list bool;
  fb_motor_mode : list Z;
  fb_motor_mode_valid : list bool;
  fb_motor_torque_nm : list double;
  fb_motor_torque_valid : list bool;
  fb_motor_speed_rpm : list double;
  fb_motor_speed_valid : list bool;
  fb_steering_mode : list Z;
  fb_steering_valid : list bool;
  fb_steering_angle_deg : list double;
  fb_brake_mode : list Z;
  fb_brake_valid : list bool;
  fb_brake_pressure_bar : list double;
}.

#[global] Instance eta_VcuFeedback : Settable VcuFeedback :=
  fields! mkVcuFeedback
    <fb_handshake_status; fb_handshake_valid; fb_gear; fb_gear_valid; fb_emergency_switch;
     fb_vmc_fault_code; fb_vmc_fault_code_valid; fb_driver_gear_request;
     fb_driver_gear_request_valid; fb_parking_brake_switch; fb_parking_brake_switch_valid;
     fb_brake_pedal_switch; fb_brake_pedal_switch_valid; fb_speed_mps; fb_speed_valid;
     fb_parking_brake_status; fb_parking_brake_valid; fb_motor_mode; fb_motor_mode_valid;
     fb_motor_torque_nm; fb_motor_torque_valid; fb_motor_speed_rpm; fb_motor_speed_valid;
     fb_steering_mode; fb_steering_valid; fb_steering_angle_deg; fb_brake_mode; fb_brake_valid;
     fb_brake_pressure_bar>.

Definition VcuFeedback_default : VcuFeedback :=
  mkVcuFeedback 0 false 0 false 0 0 false 0 false 0 false 0 false d_zero false
    (repeat 0 kParkingBrakeCount) (repeat false kParkingBrakeCount)
    (repeat 0 kMotorCount) (repeat false kMotorCount) (zeros kMotorCount)
    (repeat false kMotorCount) (zeros kMotorCount) (repeat false kMotorCount)
    (repeat 0 kSteeringAxisCount) (repeat false kSteeringAxisCount) (zeros kSteeringAxisCount)
    (repeat 0 kBrakeCount) (repeat false kBrakeCount) (zeros kBrakeCount).

(** [vcu::State] *)
Inductive VcuState : Type :=
| Standby | Initial | WaitParallelHandshake | WaitParkingBrakeReleased | WaitGear
| WaitActuatorModes | Ready | DisarmTorque | DisarmStop | DisarmNeutral | DisarmParkingBrake
| DisarmManual | Disarmed | VcuFault.

#[global] Instance VcuState_eq_dec : EqDecision VcuState.
Proof. solve_decision. Defined.

Definition state_name (state : VcuState) : string :=
  match state with
  | Standby => "standby"
  | Initial => "initial"
  | WaitParallelHandshake => "wait_parallel_handshake"
  | WaitParkingBrakeReleased => "wait_parking_brake_released"
  | WaitGear => "wait_gear"
  | WaitActuatorModes => "wait_actuator_modes"
  | Ready => "ready"
  | DisarmTorque => "disarm_torque"
  | DisarmStop => "disarm_stop"
  | DisarmNeutral => "disarm_neutral"
  | DisarmParkingBrake => "disarm_parking_brake"
  | DisarmManual => "disarm_manual"
  | Disarmed => "disarmed"
  | VcuFault => "fault"
  end.

(** [state == s1 || state == s2 || ...] *)
Definition state_in (state : VcuState) (states : list VcuState) : bool :=
  existsb (fun s => bool_decide (state = s)) states.

(** ** Operator idle parking *)

Record OperatorIdleParking := mkOperatorIdleParking {
  idle_seen : bool;
  idle_active : bool;
  idle_last_active_ms : Z;
}.

Definition OperatorIdleParking_reset : OperatorIdleParking := mkOperatorIdleParking false false 0.

Definition observe (active : bool) (now_ms : Z) (s : OperatorIdleParking) : OperatorIdleParking :=
  mkOperatorIdleParking (if active then true else idle_seen s) active
    (if active then now_ms else idle_last_active_ms s).

Definition idle_expired (now_ms timeout_ms : Z) (s : OperatorIdleParking) : bool :=
  if negb (idle_seen s) then true
  else
    let elapsed := Z.max 0 (now_ms - idle_last_active_ms s) in
    negb (idle_active s && (elapsed <? 200)) && (timeout_ms <=? elapsed).

(** ** Tests on the feedback arrays *)

Definition all_equal_valid (values : list Z) (valid : list bool) (expected : Z) : bool :=
  forallb (fun '(value, ok) => (ok : bool) && (value =? expected)) (zip values valid).

Definition all_valid (values : list bool) : bool := forallb (fun value => value) values.

Definition all_newer_than (values : list Z) (generation : Z) : bool :=
  forallb (fun value => generation <? value) values.

Definition all_finite_in_range (values : list double) (minimum maximum : double) : bool :=
  forallb (fun value => d_isfinite value && (value ≥ᵈ minimum) && (value ≤ᵈ maximum)) values.

Definition command_valid (command : VcuCommand) : bool :=
  (1 <=? vc_gear command) && (vc_gear command <=? 3) &&
  d_isfinite (vc_vehicle_speed_request_kph command) &&
  (vc_vehicle_speed_request_kph command ≥ᵈ d_zero) &&
  (vc_vehicle_speed_request_kph command ≤ᵈ d_lit 255 0) &&
  all_finite_in_range (vc_motor_torque_nm command) kMotorTorqueMinimumNm kMotorTorqueMaximumNm &&
  all_finite_in_range (vc_motor_speed_rpm command) (d_lit (-8000) 0) (d_lit 8383 0) &&
  all_finite_in_range (vc_steering_angle_deg command) (d_lit (-30) 0) (d_lit 30 0) &&
  all_finite_in_range (vc_steering_speed_degps command) d_zero (d_lit 255 0) &&
  all_finite_in_range (vc_brake_pressure_bar command) d_zero (d_lit 4095 1).

(** ** Frames of one cycle *)

(** [values[index]] of a fixed-size array; the indices are within it. *)
Definition at_Z (values : list Z) (index : nat) : Z := nth index values 0.
Definition at_D (values : list double) (index : nat) : double := nth index values d_zero.

Definition make_motor_frame (index : nat) (command mode : Z) (torque_nm speed_rpm : double) :
    CanFrame :=
  let frame := CanFrame_of_id (at_Z kMotorCommandIds index) in
  let frame := insert_signal 0 3 command frame in
  let frame := insert_signal 3 3 mode frame in
  let frame := insert_signal 8 kMotorTorqueBits
    (encode_physical torque_nm kMotorTorqueResolutionNm kMotorTorqueMinimumNm kMotorTorqueBits
       kMotorTorqueMinimumNm kMotorTorqueMaximumNm) frame in
  insert_signal 24 14
    (encode_physical speed_rpm d_one (d_lit (-8000) 0) 14 (d_lit (-8000) 0) (d_lit 8383 0)) frame.

(** One round of the loop of [make_steering_frame]. *)
Definition insert_steering_axis (first_axis local_axis : nat) (mode : list Z)
    (angle_deg speed_degps : list double) (frame : CanFrame) : CanFrame :=
  let axis := (first_axis + local_axis)%nat in
  let base := Z.of_nat local_axis * 32 in
  let frame := insert_signal base 8 (at_Z mode axis) frame in
  let frame := insert_signal (base + 8) 16
    (encode_physical (at_D angle_deg axis) (d_lit 1 1) (d_lit (-1575) 0) 16 (d_lit (-1575) 0)
       (d_lit 1575 0)) frame in
  insert_signal (base + 24) 8
    (encode_physical (at_D speed_degps axis) d_one d_zero 8 d_zero (d_lit 255 0)) frame.

Definition make_steering_frame (id : Z) (first_axis : nat) (mode : list Z)
    (angle_deg speed_degps : list double) : CanFrame :=
  foldl (fun frame local_axis =>
           insert_steering_axis first_axis local_axis mode angle_deg speed_degps frame)
        (CanFrame_of_id id) (seq 0 2).

(** One round of the loop of [make_brake_frame]. *)
Definition insert_brake (first_brake local_brake : nat) (mode : list Z)
    (pressure_bar : list double) (frame : CanFrame) : CanFrame :=
  let brake := (first_brake + local_brake)%nat in
  let base := Z.of_nat local_brake * 16 in
  let frame := insert_signal base 4 (at_Z mode brake) frame in
  insert_signal (base + 4) 12
    (encode_physical (at_D pressure_bar brake) (d_lit 1 1) d_zero 12 d_zero (d_lit 4095 1)) frame.

Definition make_brake_frame (id : Z) (first_brake : nat) (mode : list Z)
    (pressure_bar : list double) : CanFrame :=
  foldl (fun frame local_brake => insert_brake first_brake local_brake mode pressure_bar frame)
        (CanFrame_of_id id) (seq 0 4).

Definition make_epb_frame (requests : list Z) (steering_mode : Z) : CanFrame :=
  insert_signal 32 3 steering_mode
    (foldl (fun frame index => insert_signal (Z.of_nat index * 8) 2 (at_Z requests index) frame)
           (CanFrame_of_id kAduEpb) (seq 0 (length requests))).

Definition make_shake_frame (gear handshake_request : Z) (fault_reset : bool) : CanFrame :=
  let frame := CanFrame_of_id kAduShake in
  let frame := insert_signal 0 8 handshake_request frame in
  let frame := insert_signal 8 8 gear frame in
  let frame := insert_signal 16 8 kNoRequest frame in
  insert_signal 24 1 (if fault_reset then 1 else 0) frame.

Definition make_vehicle_speed_frame (speed_request_kph : double) (valid : bool) : CanFrame :=
  let frame := CanFrame_of_id kAduVehicleSpeed in
  let frame := insert_signal 0 8
    (encode_physical (if valid then d_floor speed_request_kph else d_zero) d_one d_zero 8 d_zero
       (d_lit 255 0)) frame in
  insert_signal 8 8 (if valid then 1 else 0) frame.

(** The index of [id], the length of the array when it is missing. *)
Fixpoint find_id (id : Z) (ids_to_search : list Z) : nat :=
  match ids_to_search with
  | [] => 0
  | x :: ids => if x =? id then 0 else S (find_id id ids)
  end.

(** [find_axis_id] is [find_id] on an array of the other size. *)
Definition find_axis_id (id : Z) (ids_to_search : list Z) : nat := find_id id ids_to_search.

(** ** The controller *)

Record ParallelController := mkParallelController {
  ctl_parking_release_generation : Z;
  ctl_automatic_parking : bool;
  ctl_automatic_park_requested : bool;
  ctl_parking_stopped_fresh : bool;
  ctl_parking_brake_bar : double;
  ctl_desired : VcuCommand;
  ctl_emergency : VcuCommand;
  ctl_feedback : VcuFeedback;
  ctl_state : VcuState;
  ctl_initial_frame_count : Z;
  ctl_emergency_stop : bool;
  ctl_physical_emergency_latched : bool;
  ctl_handshake_revoked : bool;
  ctl_revoked_handshake_status : Z;
  ctl_receive_generation : Z;
  ctl_state_entry_generation : Z;
  ctl_handshake_generation : Z;
  ctl_gear_generation : Z;
  ctl_speed_generation : Z;
  ctl_parking_brake_generation : Z;
  ctl_motor_mode_generation : list Z;
  ctl_motor_torque_generation : list Z;
  ctl_steering_generation : list Z;
  ctl_brake_generation : list Z;
}.

#[global] Instance eta_ParallelController : Settable ParallelController :=
  fields! mkParallelController
    <ctl_parking_release_generation; ctl_automatic_parking; ctl_automatic_park_requested;
     ctl_parking_stopped_fresh; ctl_parking_brake_bar; ctl_desired; ctl_emergency; ctl_feedback;
     ctl_state; ctl_initial_frame_count; ctl_emergency_stop; ctl_physical_emergency_latched;
     ctl_handshake_revoked; ctl_revoked_handshake_status; ctl_receive_generation;
     ctl_state_entry_generation; ctl_handshake_generation; ctl_gear_generation;
     ctl_speed_generation; ctl_parking_brake_generation; ctl_motor_mode_generation;
     ctl_motor_torque_generation; ctl_steering_generation; ctl_brake_generation>.

(** [reset], which the constructor calls: nothing of the old state survives. *)
Definition ParallelController_reset : ParallelController :=
  mkParallelController 0 false true false d_zero VcuCommand_default
    (VcuCommand_default <| vc_gear := kNeutralGear |>
       <| vc_brake_pressure_bar := repeat (d_lit 4095 1) kBrakeCount |>)
    VcuFeedback_default Standby 0 false false false 0 0 0 0 0 0 0
    (repeat 0 kMotorCount) (repeat 0 kMotorCount) (repeat 0 kSteeringAxisCount)
    (repeat 0 kSteeringAxisCount).

(** [enter(state)] *)
Definition enter (state : VcuState) (s : ParallelController) : ParallelController :=
  s <| ctl_state := state |> <| ctl_state_entry_generation := ctl_receive_generation s |>.

Definition begin_arming_emergency_disarm (s : ParallelController) : bool * ParallelController :=
  match ctl_state s with
  | Initial => (true, enter Disarmed s)
  | WaitParallelHandshake => (true, enter DisarmManual s)
  | WaitParkingBrakeReleased | WaitGear | WaitActuatorModes => (true, enter DisarmTorque s)
  | _ => (false, s)
  end.

Definition emergency_stop (s : ParallelController) : ParallelController :=
  (begin_arming_emergency_disarm (s <| ctl_emergency_stop := true |>)).2.

Definition transport_fault (s : ParallelController) : ParallelController :=
  enter VcuFault (s <| ctl_emergency_stop := true |>).

Definition set_automatic_parking (enabled requested stopped_fresh : bool) (brake_bar : double)
    (s : ParallelController) : ParallelController :=
  let s := if enabled && negb requested &&
              (negb (ctl_automatic_parking s) || ctl_automatic_park_requested s)
           then s <| ctl_parking_release_generation := ctl_receive_generation s |> else s in
  s <| ctl_automatic_parking := enabled |> <| ctl_automatic_park_requested := requested |>
    <| ctl_parking_stopped_fresh := stopped_fresh |> <| ctl_parking_brake_bar := brake_bar |>.

Definition parking_brakes_report (expected : Z) (s : ParallelController) : bool :=
  all_equal_valid (fb_parking_brake_status (ctl_feedback s))
    (fb_parking_brake_valid (ctl_feedback s)) expected.

Definition parking_released (s : ParallelController) : bool :=
  (negb (ctl_automatic_parking s) ||
   (negb (ctl_automatic_park_requested s) &&
    (ctl_parking_release_generation s <? ctl_parking_brake_generation s))) &&
  parking_brakes_report kParkingBrakeRelease s.

(** [std::abs(speed) <= kStoppedSpeedToleranceMps] *)
Definition stopped (s : ParallelController) : bool :=
  d_abs (fb_speed_mps (ctl_feedback s)) ≤ᵈ kStoppedSpeedToleranceMps.

Definition set_command (command : VcuCommand) (s : ParallelController) :
    bool * ParallelController :=
  if negb (command_valid command) ||
     state_in (ctl_state s) [DisarmTorque; DisarmStop; DisarmNeutral; DisarmParkingBrake;
                             DisarmManual; VcuFault]
  then (false, s)
  else
    let feedback := ctl_feedback s in
    let gear_changed := negb (vc_gear (ctl_desired s) =? vc_gear command) in
    if gear_changed && ((vc_gear command =? 2) || (vc_gear command =? 3)) &&
       (negb (fb_speed_valid feedback) || negb (fb_gear_valid feedback) ||
        (d_abs (fb_speed_mps feedback) >ᵈ kStoppedSpeedToleranceMps))
    then
      (false,
       emergency_stop
         (s <| ctl_desired ::= fun d =>
               d <| vc_motor_torque_nm := zeros kMotorCount |>
                 <| vc_motor_speed_rpm := zeros kMotorCount |>
                 <| vc_vehicle_speed_request_kph := d_zero |>
                 <| vc_vehicle_speed_request_valid := false |> |>))
    else
      let s := s <| ctl_desired := command |> in
      (true, if gear_changed && bool_decide (ctl_state s = Ready) then enter WaitGear s else s).

Definition set_emergency_command (command : VcuCommand) (s : ParallelController) :
    bool * ParallelController :=
  if negb (command_valid command) || negb (vc_gear command =? kNeutralGear) then (false, s)
  else
    (true, s <| ctl_emergency := command <| vc_motor_torque_nm := zeros kMotorCount |>
                                         <| vc_motor_speed_rpm := zeros kMotorCount |> |>).

Definition clear_emergency_stop (s : ParallelController) : ParallelController :=
  if negb (ctl_physical_emergency_latched s) && negb (ctl_handshake_revoked s)
  then s <| ctl_emergency_stop := false |> else s.

Definition parking_ready (s : ParallelController) : bool :=
  let feedback := ctl_feedback s in
  fb_gear_valid feedback && (fb_gear feedback =? kNeutralGear) &&
  (fb_emergency_switch feedback =? 0) && fb_driver_gear_request_valid feedback &&
  (fb_driver_gear_request feedback =? kNeutralGearRequest) && fb_handshake_valid feedback &&
  (fb_handshake_status feedback =? kManualHandshakeStatus) && fb_speed_valid feedback &&
  stopped s && parking_brakes_report kParkingBrakePark s.

Definition request_parallel_handshake (s : ParallelController) : bool * ParallelController :=
  if negb (state_in (ctl_state s) [Standby; Disarmed]) || negb (parking_ready s)
  then (false, s)
  else
    (true,
     enter Initial
       (s <| ctl_desired := VcuCommand_default <| vc_gear := kNeutralGear |> |>
          <| ctl_physical_emergency_latched := false |> <| ctl_emergency_stop := false |>
          <| ctl_handshake_revoked := false |> <| ctl_revoked_handshake_status := 0 |>
          <| ctl_initial_frame_count := 0 |>)).

Definition request_disarm (s : ParallelController) : ParallelController :=
  if state_in (ctl_state s) [Standby; Disarmed] then s
  else
    let s := s <| ctl_emergency_stop := true |> in
    if bool_decide (ctl_state s = Initial) then enter Disarmed s
    else if bool_decide (ctl_state s = WaitParallelHandshake) then enter DisarmManual s
    else if state_in (ctl_state s) [DisarmTorque; DisarmStop; DisarmNeutral; DisarmParkingBrake;
                                    DisarmManual; Disarmed]
    then s
    else enter DisarmTorque s.

(** ** Feedback *)

(** [++receive_generation_], a 64-bit counter. *)
Definition next_generation (s : ParallelController) : ParallelController :=
  s <| ctl_receive_generation ::= fun n => u64 (n + 1) |>.

Definition update_feedback (f : VcuFeedback -> VcuFeedback) (s : ParallelController) :
    ParallelController :=
  s <| ctl_feedback ::= f |>.

(** A handshake frame is recorded, then a return to manual revokes the handshake. *)
Definition record_handshake (frame : CanFrame) (s : ParallelController) : ParallelController :=
  let s := next_generation s in
  let s := s <| ctl_handshake_generation := ctl_receive_generation s |> in
  update_feedback
    (fun f => f <| fb_handshake_status := extract_signal frame 8 8 |>
                <| fb_handshake_valid := true |>) s.

Definition revoke_handshake (status : Z) (s : ParallelController) : ParallelController :=
  let s := s <| ctl_handshake_revoked := true |> <| ctl_revoked_handshake_status := status |>
             <| ctl_emergency_stop := true |> in
  if bool_decide (ctl_state s = Ready) then transport_fault s else enter DisarmTorque s.

Definition ingest_handshake (frame : CanFrame) (s : ParallelController) : ParallelController :=
  let status := extract_signal frame 8 8 in
  let s := record_handshake frame s in
  let accepted_parallel_handshake :=
    state_in (ctl_state s) [WaitParkingBrakeReleased; WaitGear; WaitActuatorModes; Ready] in
  if accepted_parallel_handshake && (status =? kManualHandshakeStatus) &&
     negb (ctl_handshake_revoked s)
  then revoke_handshake status s else s.

(** A status frame is recorded, then a pressed switch latches the emergency. *)
Definition record_vehicle_status (frame : CanFrame) (s : ParallelController) :
    ParallelController :=
  let s := next_generation s in
  let s := s <| ctl_gear_generation := ctl_receive_generation s |> in
  update_feedback
    (fun f => f <| fb_emergency_switch := extract_signal frame 0 2 |>
                <| fb_gear := extract_signal frame 2 2 |> <| fb_gear_valid := true |>
                <| fb_vmc_fault_code := extract_signal frame 16 8 |>
                <| fb_vmc_fault_code_valid := true |>) s.

Definition latch_physical_emergency (s : ParallelController) : ParallelController :=
  let s := s <| ctl_physical_emergency_latched := true |> <| ctl_emergency_stop := true |> in
  if bool_decide (ctl_state s = Ready) then enter DisarmTorque s
  else (begin_arming_emergency_disarm s).2.

Definition ingest_vehicle_status (frame : CanFrame) (s : ParallelController) :
    ParallelController :=
  let s := record_vehicle_status frame s in
  if negb (extract_signal frame 0 2 =? 0) then latch_physical_emergency s else s.

Definition ingest_vehicle_speed (frame : CanFrame) (s : ParallelController) :
    ParallelController :=
  let s := next_generation s in
  let s := s <| ctl_speed_generation := ctl_receive_generation s |> in
  let speed_kph := decode_physical (extract_signal frame 0 16) (d_lit 1 1) (d_lit (-500) 0) in
  update_feedback
    (fun f => f <| fb_speed_mps := speed_kph ⊘ d_lit 36 1 |> <| fb_speed_valid := true |>) s.

Definition ingest_driver_intention (frame : CanFrame) (s : ParallelController) :
    ParallelController :=
  update_feedback
    (fun f => f <| fb_driver_gear_request := extract_signal frame 57 3 |>
                <| fb_driver_gear_request_valid := true |>) (next_generation s).

Definition ingest_driver_intention2 (frame : CanFrame) (s : ParallelController) :
    ParallelController :=
  update_feedback
    (fun f => f <| fb_brake_pedal_switch := extract_signal frame 22 2 |>
                <| fb_brake_pedal_switch_valid := true |>
                <| fb_parking_brake_switch := extract_signal frame 24 2 |>
                <| fb_parking_brake_switch_valid := true |>) (next_generation s).

Definition ingest_parking_brake (frame : CanFrame) (s : ParallelController) :
    ParallelController :=
  let s := next_generation s in
  let s := s <| ctl_parking_brake_generation := ctl_receive_generation s |> in
  update_feedback
    (fun f => foldl
       (fun f index =>
          f <| fb_parking_brake_status ::=
                 <[index := extract_signal frame (Z.of_nat index * 16) 2]> |>
            <| fb_parking_brake_valid ::= <[index := true]> |>)
       f (seq 0 kParkingBrakeCount)) s.

Definition ingest_motor_status01 (index : nat) (frame : CanFrame) (s : ParallelController) :
    ParallelController :=
  let s := next_generation s in
  let s := s <| ctl_motor_torque_generation ::= <[index := ctl_receive_generation s]> |> in
  update_feedback
    (fun f => f
       <| fb_motor_speed_rpm ::=
            <[index := decode_physical (extract_signal frame 0 14) d_one (d_lit (-8000) 0)]> |>
       <| fb_motor_speed_valid ::= <[index := extract_signal frame 15 1 =? 1]> |>
       <| fb_motor_torque_nm ::=
            <[index := decode_physical (extract_signal frame 16 kMotorTorqueBits)
                         kMotorTorqueResolutionNm kMotorTorqueMinimumNm]> |>
       <| fb_motor_torque_valid ::= <[index := true]> |>) s.

Definition ingest_motor_status02 (index : nat) (frame : CanFrame) (s : ParallelController) :
    ParallelController :=
  let s := next_generation s in
  let s := s <| ctl_motor_mode_generation ::= <[index := ctl_receive_generation s]> |> in
  update_feedback
    (fun f => f <| fb_motor_mode ::= <[index := extract_signal frame 4 4]> |>
                <| fb_motor_mode_valid ::= <[index := true]> |>) s.

Definition ingest_steering (index : nat) (frame : CanFrame) (s : ParallelController) :
    ParallelController :=
  let s := next_generation s in
  let s := s <| ctl_steering_generation ::= <[index := ctl_receive_generation s]> |> in
  update_feedback
    (fun f => f
       <| fb_steering_mode ::= <[index := extract_signal frame 0 8]> |>
       <| fb_steering_angle_deg ::=
            <[index := decode_physical (extract_signal frame 8 16) (d_lit 1 1)
                         (d_lit (-1575) 0)]> |>
       <| fb_steering_valid ::= <[index := true]> |>) s.

Definition ingest_brake (brake_frame_index : nat) (frame : CanFrame) (s : ParallelController) :
    ParallelController :=
  let s := next_generation s in
  let s := s <| ctl_brake_generation ::= <[brake_frame_index := ctl_receive_generation s]> |> in
  update_feedback
    (fun f => foldl
       (fun f local_brake =>
          let brake_index := (brake_frame_index * 2 + local_brake)%nat in
          let base := Z.of_nat local_brake * 32 in
          f <| fb_brake_mode ::= <[brake_index := extract_signal frame base 4]> |>
            <| fb_brake_pressure_bar ::=
                 <[brake_index := decode_physical (extract_signal frame (base + 4) 12)
                                    (d_lit 1 1) d_zero]> |>
            <| fb_brake_valid ::= <[brake_index := true]> |>)
       f (seq 0 2)) s.

(** [ingest]: whether the frame was recognised, and the new state. *)
Definition ingest (frame : CanFrame) (s : ParallelController) : bool * ParallelController :=
  if negb (can_extended frame) || (can_dlc frame <? 8) then (false, s)
  else if can_id frame =? kWvcuHandshake then (true, ingest_handshake frame s)
  else if can_id frame =? kWvcuVehicleStatus then (true, ingest_vehicle_status frame s)
  else if can_id frame =? kWvcuVehicleSpeed then (true, ingest_vehicle_speed frame s)
  else if can_id frame =? kWvcuDriverIntention then (true, ingest_driver_intention frame s)
  else if can_id frame =? kWvcuDriverIntention2 then (true, ingest_driver_intention2 frame s)
  else if can_id frame =? kWvcuParkingBrake then (true, ingest_parking_brake frame s)
  else
    let motor_status01_index := find_id (can_id frame) kMotorStatus01Ids in
    if (motor_status01_index <? kMotorCount)%nat
    then (true, ingest_motor_status01 motor_status01_index frame s)
    else
    let motor_status02_index := find_id (can_id frame) kMotorStatus02Ids in
    if (motor_status02_index <? kMotorCount)%nat
    then (true, ingest_motor_status02 motor_status02_index frame s)
    else
    let steering_index := find_axis_id (can_id frame) kSteeringStatusIds in
    if (steering_index <? kSteeringAxisCount)%nat
    then (true, ingest_steering steering_index frame s)
    else
    let brake_frame_index := find_axis_id (can_id frame) kBrakeStatusIds in
    if (brake_frame_index <? kSteeringAxisCount)%nat
    then (true, ingest_brake brake_frame_index frame s)
    else (false, s).

(** ** The state machine *)

(** [std::all_of(torque, |t| <= kTorqueZeroToleranceNm)] *)
Definition torques_zero (s : ParallelController) : bool :=
  forallb (fun torque => d_abs torque ≤ᵈ kTorqueZeroToleranceNm)
          (fb_motor_torque_nm (ctl_feedback s)).

(** [generation > state_entry_generation_] *)
Definition fresh (generation : ParallelController -> Z) (s : ParallelController) : bool :=
  ctl_state_entry_generation s <? generation s.

Definition all_fresh (generations : ParallelController -> list Z) (s : ParallelController) :
    bool :=
  all_newer_than (generations s) (ctl_state_entry_generation s).

Definition handshake_reported (status : Z) (s : ParallelController) : bool :=
  fb_handshake_valid (ctl_feedback s) && fresh ctl_handshake_generation s &&
  (fb_handshake_status (ctl_feedback s) =? status).

Definition gear_reported (gear : Z) (s : ParallelController) : bool :=
  fb_gear_valid (ctl_feedback s) && fresh ctl_gear_generation s &&
  (fb_gear (ctl_feedback s) =? gear).

Definition stop_reported (s : ParallelController) : bool :=
  fb_speed_valid (ctl_feedback s) && fresh ctl_speed_generation s && stopped s.

Definition parking_brake_reported (status : Z) (s : ParallelController) : bool :=
  fresh ctl_parking_brake_generation s && parking_brakes_report status s.

Definition actuators_by_wire (s : ParallelController) : bool :=
  let feedback := ctl_feedback s in
  all_fresh ctl_motor_mode_generation s && all_fresh ctl_motor_torque_generation s &&
  all_fresh ctl_steering_generation s && all_fresh ctl_brake_generation s &&
  all_equal_valid (fb_motor_mode feedback) (fb_motor_mode_valid feedback) kMotorTorqueMode &&
  all_valid (fb_motor_torque_valid feedback) &&
  all_equal_valid (fb_steering_mode feedback) (fb_steering_valid feedback) kByWireMode &&
  all_equal_valid (fb_brake_mode feedback) (fb_brake_valid feedback) kByWireMode.

Definition torque_reported_zero (s : ParallelController) : bool :=
  all_valid (fb_motor_torque_valid (ctl_feedback s)) &&
  all_fresh ctl_motor_torque_generation s && torques_zero s.

(** The switch of [advance_state]. *)
Definition advance_phase (s : ParallelController) : ParallelController :=
  match ctl_state s with
  | Standby => s
  | Initial =>
      if 5 <=? ctl_initial_frame_count s then enter WaitParallelHandshake s
      else s <| ctl_initial_frame_count ::= Z.succ |>
  | WaitParallelHandshake =>
      if handshake_reported kIntelligentHandshakeStatus s
      then enter (if ctl_automatic_parking s then WaitGear else WaitParkingBrakeReleased) s
      else s
  | WaitParkingBrakeReleased =>
      if parking_brake_reported kParkingBrakeRelease s then enter WaitGear s else s
  | WaitGear =>
      if gear_reported (vc_gear (ctl_desired s)) s then enter WaitActuatorModes s else s
  | WaitActuatorModes => if actuators_by_wire s then enter Ready s else s
  | Ready => s
  | DisarmTorque => if torque_reported_zero s then enter DisarmStop s else s
  | DisarmStop => if stop_reported s then enter DisarmNeutral s else s
  | DisarmNeutral => if gear_reported kNeutralGear s then enter DisarmParkingBrake s else s
  | DisarmParkingBrake =>
      if parking_brake_reported kParkingBrakePark s then enter DisarmManual s else s
  | DisarmManual =>
      if handshake_reported kManualHandshakeStatus s && gear_reported kNeutralGear s &&
         stop_reported s && parking_brake_reported kParkingBrakePark s
      then enter Disarmed s else s
  | Disarmed | VcuFault => s
  end.

(** [emergency_stop_ || feedback_.emergency_switch != 0] *)
Definition stop_demanded (s : ParallelController) : bool :=
  ctl_emergency_stop s || negb (fb_emergency_switch (ctl_feedback s) =? 0).

Definition advance_state (s : ParallelController) : ParallelController :=
  let feedback := ctl_feedback s in
  let '(disarming, s1) :=
    if stop_demanded s then begin_arming_emergency_disarm s else (false, s) in
  if disarming then s1
  else
    let is_ready := bool_decide (ctl_state s = Ready) in
    if is_ready && fb_handshake_valid feedback &&
       negb (fb_handshake_status feedback =? kIntelligentHandshakeStatus)
    then transport_fault s
    else if is_ready && (negb (fb_gear_valid feedback) ||
                         negb (fb_gear feedback =? vc_gear (ctl_desired s)))
    then enter WaitGear (s <| ctl_emergency_stop := true |>)
    else advance_phase s.

(** ** One cycle *)

Record TickOutputs := mkTickOutputs {
  out_gear : Z;
  out_handshake_request : Z;
  out_steering_mode : Z;
  out_parking_brake : list Z;
  out_motor_command : list Z;
  out_motor_mode : list Z;
  out_steering_axis_mode : list Z;
  out_brake_mode : list Z;
  out_motor_torque : list double;
  out_motor_speed : list double;
  out_steering_angle : list double;
  out_steering_speed : list double;
  out_brake_pressure : list double;
  out_vehicle_speed_request_kph : double;
  out_vehicle_speed_request_valid : bool;
  out_fault_reset : bool;
}.

#[global] Instance eta_TickOutputs : Settable TickOutputs :=
  fields! mkTickOutputs
    <out_gear; out_handshake_request; out_steering_mode; out_parking_brake; out_motor_command;
     out_motor_mode; out_steering_axis_mode; out_brake_mode; out_motor_torque; out_motor_speed;
     out_steering_angle; out_steering_speed; out_brake_pressure; out_vehicle_speed_request_kph;
     out_vehicle_speed_request_valid; out_fault_reset>.

Definition TickOutputs_initial : TickOutputs :=
  mkTickOutputs kNoRequest kNoRequest kNoRequest (repeat kParkingBrakeHold kParkingBrakeCount)
    (repeat 0 kMotorCount) (repeat 0 kMotorCount) (repeat 0 kSteeringAxisCount)
    (repeat 0 kBrakeCount) (zeros kMotorCount) (zeros kMotorCount) (zeros kSteeringAxisCount)
    (zeros kSteeringAxisCount) (zeros kBrakeCount) d_zero false false.

Definition tick_authority (s : ParallelController) (o : TickOutputs) : TickOutputs :=
  let driving_authority_requested :=
    negb (state_in (ctl_state s) [Standby; Initial; Disarmed; DisarmManual]) in
  if driving_authority_requested && negb (ctl_handshake_revoked s)
  then o <| out_handshake_request := kIntelligentHandshakeRequest |> else o.

Definition tick_parking_release (s : ParallelController) (o : TickOutputs) : TickOutputs :=
  if state_in (ctl_state s) [WaitParkingBrakeReleased; WaitGear; WaitActuatorModes; Ready;
                             DisarmTorque; DisarmStop; DisarmNeutral]
  then
    (if ctl_handshake_revoked s then o
     else o <| out_parking_brake := repeat kParkingBrakeRelease kParkingBrakeCount |>)
      <| out_steering_mode := kByWireMode |>
  else o.

Definition tick_gear (s : ParallelController) (o : TickOutputs) : TickOutputs :=
  if state_in (ctl_state s) [WaitGear; WaitActuatorModes; Ready; DisarmTorque; DisarmStop]
  then o <| out_gear := vc_gear (ctl_desired s) |>
         <| out_steering_axis_mode := repeat kByWireMode kSteeringAxisCount |>
         <| out_brake_mode := repeat kByWireMode kBrakeCount |>
  else o.

Definition enable_motors (o : TickOutputs) : TickOutputs :=
  o <| out_motor_command := repeat kMotorEnable kMotorCount |>
    <| out_motor_mode := repeat kMotorTorqueMode kMotorCount |>.

Definition tick_motors (s : ParallelController) (o : TickOutputs) : TickOutputs :=
  if state_in (ctl_state s) [WaitActuatorModes; Ready; DisarmTorque; DisarmStop]
  then enable_motors o else o.

Definition tick_chassis (s : ParallelController) (o : TickOutputs) : TickOutputs :=
  if state_in (ctl_state s) [WaitGear; WaitActuatorModes; Ready]
  then o <| out_steering_angle := vc_steering_angle_deg (ctl_desired s) |>
         <| out_steering_speed := vc_steering_speed_degps (ctl_desired s) |>
         <| out_brake_pressure := vc_brake_pressure_bar (ctl_desired s) |>
  else o.

Definition tick_traction (s : ParallelController) (o : TickOutputs) : TickOutputs :=
  if bool_decide (ctl_state s = Ready)
  then o <| out_motor_torque := vc_motor_torque_nm (ctl_desired s) |>
         <| out_motor_speed := vc_motor_speed_rpm (ctl_desired s) |>
         <| out_vehicle_speed_request_kph := d_zero |>
         <| out_vehicle_speed_request_valid := false |>
         <| out_fault_reset := vc_fault_reset (ctl_desired s) |>
  else o.

Definition tick_automatic_parking (s : ParallelController) (o : TickOutputs) : TickOutputs :=
  if ctl_automatic_parking s && state_in (ctl_state s) [WaitGear; WaitActuatorModes; Ready]
  then
    let park := ctl_automatic_park_requested s || negb (bool_decide (ctl_state s = Ready)) in
    let torque_zero :=
      all_valid (fb_motor_torque_valid (ctl_feedback s)) && torques_zero s in
    let request :=
      if park then
        if ctl_parking_stopped_fresh s && torque_zero then kParkingBrakePark
        else kParkingBrakeHold
      else kParkingBrakeRelease in
    let o := o <| out_parking_brake := repeat request kParkingBrakeCount |> in
    if park || negb (parking_released s)
    then o <| out_motor_torque := zeros kMotorCount |>
           <| out_motor_speed := zeros kMotorCount |>
           <| out_steering_angle := zeros kSteeringAxisCount |>
           <| out_brake_pressure := repeat (ctl_parking_brake_bar s) kBrakeCount |>
    else o
  else o.

Definition tick_safety_brake (s : ParallelController) (o : TickOutputs) : TickOutputs :=
  let safety_brake :=
    stop_demanded s || state_in (ctl_state s) [VcuFault; DisarmTorque; DisarmStop] in
  if safety_brake then
    let o := o <| out_motor_torque := zeros kMotorCount |>
               <| out_motor_speed := zeros kMotorCount |>
               <| out_brake_pressure := vc_brake_pressure_bar (ctl_emergency s) |>
               <| out_vehicle_speed_request_kph := d_zero |>
               <| out_vehicle_speed_request_valid := false |> in
    if state_in (ctl_state s) [Ready; VcuFault; DisarmTorque; DisarmStop]
    then enable_motors o
           <| out_steering_axis_mode := repeat kByWireMode kSteeringAxisCount |>
           <| out_brake_mode := repeat kByWireMode kBrakeCount |>
           <| out_steering_angle := vc_steering_angle_deg (ctl_desired s) |>
           <| out_steering_speed := vc_steering_speed_degps (ctl_desired s) |>
    else o
  else o.

Definition tick_disarm (s : ParallelController) (o : TickOutputs) : TickOutputs :=
  match ctl_state s with
  | DisarmNeutral =>
      enable_motors (o <| out_gear := kNeutralGear |>)
        <| out_steering_axis_mode := repeat kByWireMode kSteeringAxisCount |>
        <| out_brake_mode := repeat kByWireMode kBrakeCount |>
        <| out_brake_pressure := vc_brake_pressure_bar (ctl_emergency s) |>
  | DisarmParkingBrake =>
      o <| out_gear := kNeutralGear |>
        <| out_parking_brake := repeat kParkingBrakePark kParkingBrakeCount |>
  | DisarmManual =>
      o <| out_gear := kNeutralGear |> <| out_handshake_request := kNoRequest |>
        <| out_parking_brake := repeat kParkingBrakePark kParkingBrakeCount |>
  | _ => o
  end.

(** The local variables of [tick] just before the frames are built. *)
Definition tick_outputs (s : ParallelController) : TickOutputs :=
  tick_disarm s (tick_safety_brake s (tick_automatic_parking s (tick_traction s
    (tick_chassis s (tick_motors s (tick_gear s (tick_parking_release s
      (tick_authority s TickOutputs_initial)))))))).

Definition tick_frames (o : TickOutputs) : list CanFrame :=
  map (fun index =>
         make_motor_frame index (at_Z (out_motor_command o) index) (at_Z (out_motor_mode o) index)
           (at_D (out_motor_torque o) index) (at_D (out_motor_speed o) index))
      (seq 0 kMotorCount) ++
  [make_steering_frame kAduEps01 0 (out_steering_axis_mode o) (out_steering_angle o)
     (out_steering_speed o);
   make_steering_frame kAduEps03 2 (out_steering_axis_mode o) (out_steering_angle o)
     (out_steering_speed o);
   make_brake_frame kAduEhb01 0 (out_brake_mode o) (out_brake_pressure o);
   make_brake_frame kAduEhb02 4 (out_brake_mode o) (out_brake_pressure o);
   make_epb_frame (out_parking_brake o) (out_steering_mode o);
   make_shake_frame (out_gear o) (out_handshake_request o) (out_fault_reset o);
   CanFrame_of_id kAduBody;
   make_vehicle_speed_frame (out_vehicle_speed_request_kph o)
     (out_vehicle_speed_request_valid o)].

Definition vcu_tick (s : ParallelController) : list CanFrame * ParallelController :=
  let s := advance_state s in
  (tick_frames (tick_outputs s), s).

(** ** Accessors *)

Definition ready (s : ParallelController) : bool := bool_decide (ctl_state s = Ready).

Definition disarmed (s : ParallelController) : bool := state_in (ctl_state s) [Standby; Disarmed].

Definition handshake_requested (s : ParallelController) : bool :=
  negb (state_in (ctl_state s) [Standby; Disarmed; VcuFault]).

Definition feedback_complete (s : ParallelController) : bool :=
  let feedback := ctl_feedback s in
  fb_handshake_valid feedback && fb_gear_valid feedback &&
  fb_driver_gear_request_valid feedback && fb_speed_valid feedback &&
  all_valid (fb_parking_brake_valid feedback) && all_valid (fb_motor_mode_valid feedback) &&
  all_valid (fb_motor_torque_valid feedback) && all_valid (fb_steering_valid feedback) &&
  all_valid (fb_brake_valid feedback).

(** ** The operations of the class *)

Inductive VcuOp : Type :=
| OpReset
| OpIngest (frame : CanFrame)
| OpTick
| OpSetCommand (command : VcuCommand)
| OpSetEmergencyCommand (command : VcuCommand)
| OpEmergencyStop
| OpClearEmergencyStop
| OpRequestParallelHandshake
| OpRequestDisarm
| OpTransportFault
| OpSetAutomaticParking (enabled requested stopped_fresh : bool) (brake_bar : double).

Definition vcu_step (op : VcuOp) (s : ParallelController) : ParallelController :=
  match op with
  | OpReset => ParallelController_reset
  | OpIngest frame => (ingest frame s).2
  | OpTick => (vcu_tick s).2
  | OpSetCommand command => (set_command command s).2
  | OpSetEmergencyCommand command => (set_emergency_command command s).2
  | OpEmergencyStop => emergency_stop s
  | OpClearEmergencyStop => clear_emergency_stop s
  | OpRequestParallelHandshake => (request_parallel_handshake s).2
  | OpRequestDisarm => request_disarm s
  | OpTransportFault => transport_fault s
  | OpSetAutomaticParking enabled requested stopped_fresh brake_bar =>
      set_automatic_parking enabled requested stopped_fresh brake_bar s
  end.

Definition vcu_run (ops : list VcuOp) (s : ParallelController) : ParallelController :=
  foldl (fun s op => vcu_step op s) s ops.
