(* ===== verification/VcuProperties.v ===== *)
(** VcuProperties: what the controller of Vcu.v guarantees.

    - every cycle emits the same sixteen well-formed frames; which torque,
      handshake, parking brake and brake pressure they carry is a function of the
      state the cycle ends in;
    - while a stop is demanded every wheel is braked, and torque is requested only
      when the controller is open to it.

    The theorems about runs are in VcuMachine and VcuLiveness. *)
From S2P Require Export Vcu.

(** ** Signals of the emitted frames *)
Lemma extract_of_id id start length :
  0 <= start -> 0 <= length -> start + length <= 64 ->
  extract_signal (CanFrame_of_id id) start length = 0.
Proof.
  intros Hs Hl H64. apply Z.bits_inj'. intros i Hi. rewrite extract_bit by done.
  change (load_little_endian (can_data (CanFrame_of_id id))) with 0.
  by rewrite !Z.testbit_0_l, andb_false_r.
Qed.

(** Reads a signal out of a sequence of insertions. *)
Ltac signals :=
  repeat first [rewrite extract_insert_same by lia | rewrite extract_insert_other by lia
               | rewrite extract_of_id by lia].

Ltac frame_shape :=
  repeat match goal with
  | |- frame_ok (insert_signal _ _ _ _) => apply insert_signal_ok
  | |- frame_ok (CanFrame_of_id _) => apply frame_ok_of_id
  end.

Lemma encode_mod value factor offset length minimum maximum :
  0 <= length <= 64 ->
  encode_physical value factor offset length minimum maximum mod 2 ^ length =
  encode_physical value factor offset length minimum maximum.
Proof. intros H. apply Z.mod_small, encode_range, H. Qed.

Lemma motor_frame_signals index command mode torque speed :
  let frame := make_motor_frame index command mode torque speed in
  extract_signal frame 0 3 = command mod 8 /\ extract_signal frame 3 3 = mode mod 8 /\
  extract_signal frame 8 16 =
    encode_physical torque kMotorTorqueResolutionNm kMotorTorqueMinimumNm 16
      kMotorTorqueMinimumNm kMotorTorqueMaximumNm /\
  extract_signal frame 24 14 =
    encode_physical speed d_one (d_lit (-8000) 0) 14 (d_lit (-8000) 0) (d_lit 8383 0).
Proof.
  unfold make_motor_frame, kMotorTorqueBits. cbv zeta.
  split_and!; signals; rewrite ?encode_mod by lia; reflexivity.
Qed.

Lemma brake_frame_signals id first_brake mode pressure k :
  (k < 4)%nat ->
  let frame := make_brake_frame id first_brake mode pressure in
  let base := Z.of_nat k * 16 in
  extract_signal frame base 4 = at_Z mode (first_brake + k) mod 16 /\
  extract_signal frame (base + 4) 12 =
    encode_physical (at_D pressure (first_brake + k)) (d_lit 1 1) d_zero 12 d_zero
      (d_lit 4095 1).
Proof.
  intros Hk. unfold make_brake_frame. cbn [seq foldl]. unfold insert_brake. cbv zeta.
  destruct k as [| [| [| [| k]]]]; [.. | lia];
    (split; [signals; reflexivity | signals; rewrite encode_mod by lia; reflexivity]).
Qed.

Lemma epb_frame_signals request steering_mode k :
  (k < kParkingBrakeCount)%nat ->
  let frame := make_epb_frame (repeat request kParkingBrakeCount) steering_mode in
  extract_signal frame (Z.of_nat k * 8) 2 = request mod 4 /\
  extract_signal frame 32 3 = steering_mode mod 8.
Proof.
  unfold kParkingBrakeCount. intros Hk. unfold make_epb_frame. cbn [length repeat seq foldl]. cbv zeta.
  destruct k as [| [| [| [| k]]]]; [.. | lia]; (split; signals; reflexivity).
Qed.

Lemma shake_frame_signals gear handshake_request fault_reset :
  let frame := make_shake_frame gear handshake_request fault_reset in
  extract_signal frame 0 8 = handshake_request mod 256 /\
  extract_signal frame 8 8 = gear mod 256 /\
  extract_signal frame 16 8 = 0 /\
  extract_signal frame 24 1 = if fault_reset then 1 else 0.
Proof.
  unfold make_shake_frame. cbv zeta. split_and!; signals; try reflexivity.
  by destruct fault_reset.
Qed.

Lemma steering_frame_ok id first_axis mode angle speed :
  frame_ok (make_steering_frame id first_axis mode angle speed).
Proof.
  unfold make_steering_frame. cbn [seq foldl]. unfold insert_steering_axis. cbv zeta. frame_shape.
Qed.

Lemma brake_frame_ok id first_brake mode pressure :
  frame_ok (make_brake_frame id first_brake mode pressure).
Proof. unfold make_brake_frame. cbn [seq foldl]. unfold insert_brake. cbv zeta. frame_shape. Qed.

Lemma epb_frame_ok request steering_mode :
  frame_ok (make_epb_frame (repeat request kParkingBrakeCount) steering_mode).
Proof. unfold make_epb_frame, kParkingBrakeCount. cbn [length repeat seq foldl]. frame_shape. Qed.

Lemma shake_frame_ok gear handshake_request fault_reset :
  frame_ok (make_shake_frame gear handshake_request fault_reset).
Proof. unfold make_shake_frame. cbv zeta. frame_shape. Qed.

Lemma speed_frame_ok request valid : frame_ok (make_vehicle_speed_frame request valid).
Proof. unfold make_vehicle_speed_frame. cbv zeta. frame_shape. Qed.

Lemma motor_frame_ok index command mode torque speed :
  frame_ok (make_motor_frame index command mode torque speed).
Proof. unfold make_motor_frame. cbv zeta. frame_shape. Qed.

(** ** The outputs of a cycle by state *)

(** Traction is transmitted: ready, nothing demands a stop and the parking is released. *)
Definition traction_open (s : ParallelController) : bool :=
  bool_decide (ctl_state s = Ready) && negb (stop_demanded s) &&
  (negb (ctl_automatic_parking s) ||
   (negb (ctl_automatic_park_requested s) && parking_released s)).

(** The parking brake request of a cycle. *)
Definition parking_request (s : ParallelController) : Z :=
  match ctl_state s with
  | WaitParkingBrakeReleased | DisarmTorque | DisarmStop | DisarmNeutral =>
      if ctl_handshake_revoked s then kParkingBrakeHold else kParkingBrakeRelease
  | WaitGear | WaitActuatorModes | Ready =>
      if ctl_automatic_parking s then
        if ctl_automatic_park_requested s || negb (bool_decide (ctl_state s = Ready)) then
          if ctl_parking_stopped_fresh s &&
             (all_valid (fb_motor_torque_valid (ctl_feedback s)) && torques_zero s)
          then kParkingBrakePark else kParkingBrakeHold
        else kParkingBrakeRelease
      else if ctl_handshake_revoked s then kParkingBrakeHold else kParkingBrakeRelease
  | DisarmParkingBrake | DisarmManual => kParkingBrakePark
  | Standby | Initial | WaitParallelHandshake | Disarmed | VcuFault => kParkingBrakeHold
  end.

(** The handshake request of a cycle. *)
Definition authority_request (s : ParallelController) : Z :=
  if state_in (ctl_state s) [Standby; Initial; Disarmed; DisarmManual] || ctl_handshake_revoked s
  then kNoRequest else kIntelligentHandshakeRequest.

(** The emergency pressure is demanded on every wheel, by wire. *)
Definition emergency_braking (s : ParallelController) : bool :=
  state_in (ctl_state s) [DisarmTorque; DisarmStop; DisarmNeutral; VcuFault] ||
  (state_in (ctl_state s) [WaitGear; WaitActuatorModes; Ready] && stop_demanded s).

#[local] Arguments tick_disarm : simpl never.
#[local] Arguments tick_safety_brake : simpl never.
#[local] Arguments tick_automatic_parking : simpl never.
#[local] Arguments tick_traction : simpl never.
#[local] Arguments tick_chassis : simpl never.
#[local] Arguments tick_motors : simpl never.
#[local] Arguments tick_gear : simpl never.
#[local] Arguments tick_parking_release : simpl never.
#[local] Arguments tick_authority : simpl never.
#[local] Arguments stop_demanded : simpl never.
#[local] Arguments parking_released : simpl never.
#[local] Arguments torques_zero : simpl never.
#[local] Arguments all_valid : simpl never.
#[local] Arguments repeat : simpl never.
#[local] Arguments zeros : simpl never.

(** Unfolds one block on a state whose phase is known, and the conditions it tests. *)
Ltac tick_block block E :=
  unfold block; rewrite ?E; simpl;
  repeat (match goal with
          | |- context [if ?b then _ else _] =>
              lazymatch b with
              | context [if _ then _ else _] => fail
              | context [?c && _] => destruct c eqn:?
              | context [?c || _] => destruct c eqn:?
              | _ => destruct b eqn:?
              end
          end; simpl).

(** The blocks from the last one to the first, in every phase. *)
Ltac tick_cases s :=
  unfold tick_outputs; destruct (ctl_state s) eqn:Estate; simpl;
  tick_block tick_disarm Estate; tick_block tick_safety_brake Estate;
  tick_block tick_automatic_parking Estate; tick_block tick_traction Estate;
  tick_block tick_chassis Estate; tick_block tick_motors Estate; tick_block tick_gear Estate;
  tick_block tick_parking_release Estate; tick_block tick_authority Estate;
  simpl in *; rewrite ?orb_false_r, ?orb_true_r, ?negb_true_iff, ?negb_false_iff in *; try congruence.

Lemma outputs_torque s :
  out_motor_torque (tick_outputs s) =
  if traction_open s then vc_motor_torque_nm (ctl_desired s) else zeros kMotorCount.
Proof. unfold traction_open. tick_cases s. Qed.

Lemma outputs_parking s :
  out_parking_brake (tick_outputs s) = repeat (parking_request s) kParkingBrakeCount.
Proof. unfold parking_request. tick_cases s. Qed.

Lemma outputs_authority s : out_handshake_request (tick_outputs s) = authority_request s.
Proof. unfold authority_request. tick_cases s. Qed.

Lemma outputs_emergency s :
  emergency_braking s = true ->
  out_brake_pressure (tick_outputs s) = vc_brake_pressure_bar (ctl_emergency s) /\
  out_brake_mode (tick_outputs s) = repeat kByWireMode kBrakeCount.
Proof.
  unfold emergency_braking. intros H. split; revert H; tick_cases s.
Qed.

Lemma outputs_speed_request s :
  out_vehicle_speed_request_kph (tick_outputs s) = d_zero /\
  out_vehicle_speed_request_valid (tick_outputs s) = false.
Proof. split; tick_cases s. Qed.

Lemma outputs_motor_speed s :
  out_motor_speed (tick_outputs s) =
  if traction_open s then vc_motor_speed_rpm (ctl_desired s) else zeros kMotorCount.
Proof. unfold traction_open. tick_cases s. Qed.

Lemma at_zeros n index : at_D (zeros n) index = d_zero.
Proof. unfold at_D, zeros. rewrite nth_repeat. done. Qed.

Lemma parking_request_small s : parking_request s mod 4 = parking_request s.
Proof.
  unfold parking_request. destruct (ctl_state s); try reflexivity;
    repeat (match goal with |- context [if ?b then _ else _] => destruct b end; try reflexivity).
Qed.

Lemma authority_request_small s : authority_request s mod 256 = authority_request s.
Proof. unfold authority_request. by destruct (_ || _). Qed.

(** When the parking brakes are applied. *)
Lemma parking_request_park s :
  parking_request s = kParkingBrakePark ->
  traction_open s = false /\
  (ctl_state s = DisarmParkingBrake \/ ctl_state s = DisarmManual \/
   (ctl_automatic_parking s = true /\ ctl_parking_stopped_fresh s = true /\
    all_valid (fb_motor_torque_valid (ctl_feedback s)) = true /\ torques_zero s = true)).
Proof.
  unfold parking_request, traction_open.
  destruct (ctl_state s) eqn:Es; simpl; try discriminate; auto;
    destruct (ctl_automatic_parking s), (ctl_automatic_park_requested s),
      (ctl_handshake_revoked s), (ctl_parking_stopped_fresh s),
      (all_valid (fb_motor_torque_valid (ctl_feedback s))), (torques_zero s);
    simpl; try discriminate; rewrite ?andb_false_r; intros _; split_and!; auto 6.
Qed.

Lemma advance_state_desired s : ctl_desired (advance_state s) = ctl_desired s.
Proof.
  unfold advance_state, begin_arming_emergency_disarm, advance_phase, transport_fault.
  destruct (stop_demanded s), (ctl_state s); try reflexivity;
    repeat (match goal with |- context [if ?b then _ else _] => destruct b end; try reflexivity).
Qed.

Lemma at_repeat value n index : (index < n)%nat -> at_Z (repeat value n) index = value.
Proof.
  revert index. induction n as [| n IH]; intros index Hi; [lia |].
  destruct index as [| index]; [reflexivity |]. apply IH. lia.
Qed.

Lemma emergency_closed s : emergency_braking s = true -> traction_open s = false.
Proof.
  unfold emergency_braking, traction_open.
  destruct (ctl_state s); simpl; try reflexivity; try discriminate. by intros ->.
Qed.

(** ** Properties of a cycle *)

(** The frame of a cycle at a position. *)
Definition frame_at (frames : list CanFrame) (index : nat) : CanFrame :=
  nth index frames (CanFrame_of_id 0).

Lemma motor_frame_at o index :
  (index < kMotorCount)%nat ->
  frame_at (tick_frames o) index =
  make_motor_frame index (at_Z (out_motor_command o) index) (at_Z (out_motor_mode o) index)
    (at_D (out_motor_torque o) index) (at_D (out_motor_speed o) index).
Proof.
  unfold kMotorCount. intros Hi. do 8 (destruct index as [| index]; [reflexivity |]). lia.
Qed.

Lemma zero_torque_raw :
  encode_physical d_zero kMotorTorqueResolutionNm kMotorTorqueMinimumNm 16
    kMotorTorqueMinimumNm kMotorTorqueMaximumNm = 32000.
Proof. reflexivity. Qed.

(** C40. Every cycle, in every state, emits the same sixteen extended eight-byte frames
    in the same order: eight motors, two steering, two brake frames, parking brake,
    handshake, body and vehicle speed; and the vehicle speed request is never valid. *)
Theorem cycle_frames_fixed (s : ParallelController) :
  let frames := (vcu_tick s).1 in
  map can_id frames =
    kMotorCommandIds ++ [kAduEps01; kAduEps03; kAduEhb01; kAduEhb02; kAduEpb; kAduShake;
                         kAduBody; kAduVehicleSpeed] /\
  length frames = kTransmitFrameCount /\
  Forall frame_ok frames /\
  extract_signal (frame_at frames 15) 0 8 = 0 /\ extract_signal (frame_at frames 15) 8 8 = 0.
Proof.
  change (vcu_tick s).1 with (tick_frames (tick_outputs (advance_state s))). cbv zeta.
  generalize (outputs_parking (advance_state s)), (outputs_speed_request (advance_state s)).
  generalize (tick_outputs (advance_state s)). intros o Hp [Hk Hv].
  split_and!; [unfold tick_frames; rewrite Hp; reflexivity | reflexivity | | |].
  - unfold tick_frames. apply Forall_app. split.
    + apply Forall_map, Forall_forall. intros. apply motor_frame_ok.
    + rewrite Hp.
      apply Forall_cons; split; [apply steering_frame_ok |].
      apply Forall_cons; split; [apply steering_frame_ok |].
      apply Forall_cons; split; [apply brake_frame_ok |].
      apply Forall_cons; split; [apply brake_frame_ok |].
      apply Forall_cons; split; [apply epb_frame_ok |].
      apply Forall_cons; split; [apply shake_frame_ok |].
      apply Forall_cons; split; [apply frame_ok_of_id |].
      apply Forall_cons; split; [apply speed_frame_ok | apply Forall_nil_2].
  - change (frame_at (tick_frames o) 15) with
      (make_vehicle_speed_frame (out_vehicle_speed_request_kph o)
         (out_vehicle_speed_request_valid o)).
    rewrite Hv. unfold make_vehicle_speed_frame. cbv zeta. signals. reflexivity.
  - change (frame_at (tick_frames o) 15) with
      (make_vehicle_speed_frame (out_vehicle_speed_request_kph o)
         (out_vehicle_speed_request_valid o)).
    rewrite Hv. unfold make_vehicle_speed_frame. cbv zeta. signals. reflexivity.
Qed.

Lemma closed_torque_zero s index :
  (index < kMotorCount)%nat -> traction_open (advance_state s) = false ->
  extract_signal (frame_at (vcu_tick s).1 index) 8 16 = 32000.
Proof.
  intros Hi Hc. unfold vcu_tick. cbv zeta. cbn [fst]. rewrite motor_frame_at by done.
  match goal with |- context [make_motor_frame ?i ?c ?m ?t ?v] =>
    destruct (motor_frame_signals i c m t v) as (_ & _ & -> & _) end.
  rewrite outputs_torque, Hc, at_zeros. exact zero_torque_raw.
Qed.

Lemma open_torque s index :
  (index < kMotorCount)%nat -> traction_open (advance_state s) = true ->
  extract_signal (frame_at (vcu_tick s).1 index) 8 16 =
    encode_physical (at_D (vc_motor_torque_nm (ctl_desired s)) index)
      kMotorTorqueResolutionNm kMotorTorqueMinimumNm 16
      kMotorTorqueMinimumNm kMotorTorqueMaximumNm.
Proof.
  intros Hi Hc. unfold vcu_tick. cbv zeta. cbn [fst]. rewrite motor_frame_at by done.
  match goal with |- context [make_motor_frame ?i ?c ?m ?t ?v] =>
    destruct (motor_frame_signals i c m t v) as (_ & _ & -> & _) end.
  by rewrite outputs_torque, Hc, advance_state_desired.
Qed.

(** Traction is transmitted only when it may be.  In the state a cycle ends in, the
    torque and speed fields of every motor frame are the encoding of the commanded
    values when the controller is [Ready], no stop is demanded (by the flag or by
    the emergency switch) and automatic parking, if enabled, is neither requested
    nor unconfirmed by fresh release feedback; in every other state they are
    physical zero: raw torque 32000 and raw speed 8000. *)
Theorem torque_only_when_open (s : ParallelController) (index : nat) :
  (index < kMotorCount)%nat ->
  let '(frames, s') := vcu_tick s in
  let frame := frame_at frames index in
  can_id frame = at_Z kMotorCommandIds index /\
  extract_signal frame 8 16 =
    (if traction_open s'
     then encode_physical (at_D (vc_motor_torque_nm (ctl_desired s')) index)
            kMotorTorqueResolutionNm kMotorTorqueMinimumNm 16
            kMotorTorqueMinimumNm kMotorTorqueMaximumNm
     else 32000) /\
  extract_signal frame 24 14 =
    (if traction_open s'
     then encode_physical (at_D (vc_motor_speed_rpm (ctl_desired s')) index)
            d_one (d_lit (-8000) 0) 14 (d_lit (-8000) 0) (d_lit 8383 0)
     else 8000) /\
  ctl_desired s' = ctl_desired s.
Proof.
  intros Hi. unfold vcu_tick. cbv zeta. rewrite motor_frame_at by done.
  set (s' := advance_state s).
  match goal with |- context [make_motor_frame ?i ?c ?m ?t ?v] =>
    destruct (motor_frame_signals i c m t v) as (_ & _ & Ht & Hv) end.
  rewrite Ht, Hv, outputs_torque, outputs_motor_speed.
  split_and!; [reflexivity | | |].
  - destruct (traction_open s'); [reflexivity |]. rewrite at_zeros. exact zero_torque_raw.
  - destruct (traction_open s'); [reflexivity |]. rewrite at_zeros. reflexivity.
  - apply advance_state_desired.
Qed.

(** The concrete state of the witnesses: ready, 100 Nm on every motor. *)
Definition demo_ready : ParallelController :=
  ParallelController_reset <| ctl_state := Ready |>
    <| ctl_desired ::= fun c => c <| vc_motor_torque_nm := repeat (d_lit 100 0) kMotorCount |> |>
    <| ctl_feedback ::= fun f =>
         f <| fb_gear := kNeutralGear |> <| fb_gear_valid := true |>
           <| fb_handshake_status := kIntelligentHandshakeStatus |>
           <| fb_handshake_valid := true |>
           <| fb_parking_brake_status := repeat kParkingBrakeRelease kParkingBrakeCount |>
           <| fb_parking_brake_valid := repeat true kParkingBrakeCount |> |>.

Lemma torque_only_when_open_witness :
  extract_signal (frame_at (vcu_tick demo_ready).1 3) 8 16 = 33000 /\
  extract_signal (frame_at (vcu_tick (demo_ready <| ctl_emergency_stop := true |>)).1 3) 8 16 = 32000.
Proof.
  split.
  - pose proof (torque_only_when_open demo_ready 3 ltac:(unfold kMotorCount; lia)) as (_ & H & _).
    exact H.
  - pose proof (torque_only_when_open (demo_ready <| ctl_emergency_stop := true |>) 3
                  ltac:(unfold kMotorCount; lia)) as (_ & H & _).
    exact H.
Defined.

(** The parking brake and the handshake as requested in every phase.  All four
    parking brakes get the same request; it is released or held while driving
    authority is held, and applied only when the vehicle has to stand: in the two
    last disarming phases, or under automatic parking after a fresh standstill
    report, with the measured torque of every motor within 2 Nm of zero, and then
    no traction is transmitted in the same cycle.  The handshake is requested in
    the phases from [WaitParallelHandshake] to [DisarmParkingBrake] and in [VcuFault],
    unless it was revoked. *)
Theorem parking_and_authority_requests (s : ParallelController) (k : nat) :
  (k < kParkingBrakeCount)%nat ->
  let '(frames, s') := vcu_tick s in
  let epb := extract_signal (frame_at frames 12) (Z.of_nat k * 8) 2 in
  epb = parking_request s' /\
  extract_signal (frame_at frames 13) 0 8 = authority_request s' /\
  (epb = kParkingBrakePark ->
   traction_open s' = false /\
   (ctl_state s' = DisarmParkingBrake \/ ctl_state s' = DisarmManual \/
    (ctl_automatic_parking s' = true /\ ctl_parking_stopped_fresh s' = true /\
     all_valid (fb_motor_torque_valid (ctl_feedback s')) = true /\ torques_zero s' = true))).
Proof.
  intros Hk. unfold vcu_tick. cbv zeta. set (s' := advance_state s). generalize s'. clear s'. intros s'.
  change (frame_at (tick_frames (tick_outputs s')) 12) with
    (make_epb_frame (out_parking_brake (tick_outputs s')) (out_steering_mode (tick_outputs s'))).
  change (frame_at (tick_frames (tick_outputs s')) 13) with
    (make_shake_frame (out_gear (tick_outputs s')) (out_handshake_request (tick_outputs s'))
       (out_fault_reset (tick_outputs s'))).
  rewrite outputs_parking, outputs_authority.
  destruct (epb_frame_signals (parking_request s') (out_steering_mode (tick_outputs s')) k Hk)
    as [-> _].
  match goal with |- context [make_shake_frame ?g ?h ?f] =>
    destruct (shake_frame_signals g h f) as [-> _] end.
  rewrite parking_request_small, authority_request_small.
  split_and!; [reflexivity | reflexivity | apply parking_request_park].
Qed.

Lemma parking_and_authority_requests_witness :
  extract_signal (frame_at (vcu_tick demo_ready).1 12) 24 2 = kParkingBrakeRelease /\
  extract_signal (frame_at (vcu_tick demo_ready).1 13) 0 8 = kIntelligentHandshakeRequest.
Proof.
  pose proof (parking_and_authority_requests demo_ready 3 ltac:(unfold kParkingBrakeCount; lia))
    as (H1 & H2 & _). split; [exact H1 | exact H2].
Defined.

(** The brake field of a wheel in a cycle that brakes. *)
Lemma emergency_brake_frame (s : ParallelController) (wheel : nat) :
  (wheel < kBrakeCount)%nat ->
  let s' := (vcu_tick s).2 in
  emergency_braking s' = true ->
  let frame := frame_at (vcu_tick s).1 (10 + wheel / 4) in
  let base := Z.of_nat (wheel mod 4) * 16 in
  extract_signal frame base 4 = kByWireMode /\
  extract_signal frame (base + 4) 12 =
    encode_physical (at_D (vc_brake_pressure_bar (ctl_emergency s')) wheel) (d_lit 1 1) d_zero 12
      d_zero (d_lit 4095 1) /\
  traction_open s' = false.
Proof.
  intros Hw. unfold vcu_tick. cbv zeta. cbn [fst snd]. generalize (advance_state s).
  intros s' He. destruct (outputs_emergency s' He) as [Hp Hm].
  assert (Hframe : frame_at (tick_frames (tick_outputs s')) (10 + wheel / 4) =
    make_brake_frame (if (wheel <? 4)%nat then kAduEhb01 else kAduEhb02)
      (wheel - wheel mod 4) (repeat kByWireMode kBrakeCount)
      (vc_brake_pressure_bar (ctl_emergency s'))).
  { rewrite <- Hp, <- Hm. generalize (tick_outputs s'). intros o. unfold kBrakeCount in Hw.
    do 8 (destruct wheel as [| wheel]; [reflexivity |]). lia. }
  rewrite Hframe.
  match goal with |- context [make_brake_frame ?i ?f ?m ?p] =>
    destruct (brake_frame_signals i f m p (wheel mod 4)) as [-> ->] end.
  { apply Nat.mod_upper_bound. lia. }
  assert (Hsum : (wheel - wheel mod 4 + wheel mod 4)%nat = wheel).
  { pose proof (Nat.Div0.mod_le wheel 4). lia. }
  rewrite Hsum. split_and!; [| reflexivity | by apply emergency_closed].
  rewrite at_repeat by done. reflexivity.
Qed.

(** Emergency braking reaches every wheel.  When a cycle ends in [VcuFault] or in one of the
    first three disarming phases, or in [WaitGear], [WaitActuatorModes] or [Ready] with a
    stop demanded, each of the eight brakes is commanded by wire with the pressure of the
    emergency command, whatever was commanded before, and traction is closed. *)
Theorem emergency_brakes_every_wheel (s : ParallelController) (wheel : nat) :
  (wheel < kBrakeCount)%nat ->
  let frames := (vcu_tick s).1 in
  let s' := (vcu_tick s).2 in
  emergency_braking s' = true ->
  let frame := frame_at frames (10 + wheel / 4) in
  let base := Z.of_nat (wheel mod 4) * 16 in
  extract_signal frame base 4 = kByWireMode /\
  extract_signal frame (base + 4) 12 =
    encode_physical (at_D (vc_brake_pressure_bar (ctl_emergency s')) wheel) (d_lit 1 1) d_zero 12
      d_zero (d_lit 4095 1) /\
  traction_open s' = false.
Proof. intros Hw. exact (emergency_brake_frame s wheel Hw). Qed.

Lemma emergency_brakes_every_wheel_witness :
  let s := demo_ready <| ctl_emergency_stop := true |> in
  emergency_braking (vcu_tick s).2 = true /\
  extract_signal (frame_at (vcu_tick s).1 11) 20 12 = 4095.
Proof.
  intros s. assert (He : emergency_braking (vcu_tick s).2 = true) by reflexivity.
  split; [exact He |].
  exact (proj1 (proj2 (emergency_brakes_every_wheel s 5 ltac:(unfold kBrakeCount; lia) He))).
Defined.
