(* ===== verification/VcuMachine.v ===== *)
(** VcuMachine: the state machine of the controller as a transition relation.

    [vcu_edge s op target] lists the causes for which [op] moves the controller
    from [s] to the phase [target]; every operation either keeps the phase or
    follows an edge.  The theorems on runs are inductions over that relation:

    - driving authority is only ever held since an accepted handshake request, and every
      phase of that arming was left on its own evidence ([evidenced]);
    - a physical emergency stop or a revoked handshake closes traction until the
      next accepted request;
    - the stored commands are valid in every reachable state. *)
From S2P Require Export VcuProperties.

(** ** The transition relation *)

(** Where a stop demand sends an arming controller. *)
Definition abort_target (state : VcuState) : option VcuState :=
  match state with
  | Initial => Some Disarmed
  | WaitParallelHandshake => Some DisarmManual
  | WaitParkingBrakeReleased | WaitGear | WaitActuatorModes => Some DisarmTorque
  | _ => None
  end.

(** The operations that demand a stop in state [s]. *)
Definition demands_stop (op : VcuOp) (s : ParallelController) : bool :=
  match op with
  | OpTick => stop_demanded s
  | OpEmergencyStop | OpRequestDisarm => true
  | OpSetCommand command => negb (set_command command s).1
  | OpIngest frame =>
      (can_id frame =? kWvcuVehicleStatus) && negb (extract_signal frame 0 2 =? 0)
  | _ => false
  end.

(** The feedback with which a cycle leaves a phase for the next one. *)
Definition phase_evidence (s : ParallelController) : option (bool * VcuState) :=
  match ctl_state s with
  | Initial => Some (5 <=? ctl_initial_frame_count s, WaitParallelHandshake)
  | WaitParallelHandshake =>
      Some (handshake_reported kIntelligentHandshakeStatus s,
            if ctl_automatic_parking s then WaitGear else WaitParkingBrakeReleased)
  | WaitParkingBrakeReleased =>
      Some (parking_brake_reported kParkingBrakeRelease s, WaitGear)
  | WaitGear => Some (gear_reported (vc_gear (ctl_desired s)) s, WaitActuatorModes)
  | WaitActuatorModes => Some (actuators_by_wire s, Ready)
  | DisarmTorque => Some (torque_reported_zero s, DisarmStop)
  | DisarmStop => Some (stop_reported s, DisarmNeutral)
  | DisarmNeutral => Some (gear_reported kNeutralGear s, DisarmParkingBrake)
  | DisarmParkingBrake => Some (parking_brake_reported kParkingBrakePark s, DisarmManual)
  | DisarmManual =>
      Some (handshake_reported kManualHandshakeStatus s && gear_reported kNeutralGear s &&
            stop_reported s && parking_brake_reported kParkingBrakePark s, Disarmed)
  | _ => None
  end.

Inductive vcu_edge (s : ParallelController) : VcuOp -> VcuState -> Prop :=
| edge_reset : vcu_edge s OpReset Standby
| edge_request :
    disarmed s = true -> parking_ready s = true ->
    vcu_edge s OpRequestParallelHandshake Initial
| edge_phase target :
    phase_evidence s = Some (true, target) ->
    (abort_target (ctl_state s) = None \/ stop_demanded s = false) ->
    vcu_edge s OpTick target
| edge_abort op target :
    demands_stop op s = true -> abort_target (ctl_state s) = Some target ->
    vcu_edge s op target
| edge_lost_handshake :
    ctl_state s = Ready -> fb_handshake_status (ctl_feedback s) <> kIntelligentHandshakeStatus ->
    vcu_edge s OpTick VcuFault
| edge_lost_gear :
    ctl_state s = Ready -> vcu_edge s OpTick WaitGear
| edge_gear_change command :
    ctl_state s = Ready -> command_valid command = true ->
    vc_gear (ctl_desired s) <> vc_gear command ->
    vcu_edge s (OpSetCommand command) WaitGear
| edge_disarm :
    ctl_state s = Ready \/ ctl_state s = VcuFault -> vcu_edge s OpRequestDisarm DisarmTorque
| edge_physical frame :
    ctl_state s = Ready -> demands_stop (OpIngest frame) s = true ->
    vcu_edge s (OpIngest frame) DisarmTorque
| edge_revoked frame target :
    state_in (ctl_state s) [WaitParkingBrakeReleased; WaitGear; WaitActuatorModes; Ready] = true ->
    can_id frame = kWvcuHandshake -> extract_signal frame 8 8 = kManualHandshakeStatus ->
    target = (if bool_decide (ctl_state s = Ready) then VcuFault else DisarmTorque) ->
    vcu_edge s (OpIngest frame) target
| edge_fault : vcu_edge s OpTransportFault VcuFault.

(** ** Feedback frames and the phase *)

(** What only the handshake and the vehicle status frames may change. *)
Definition control_view (s : ParallelController) :=
  (ctl_state s, ctl_emergency_stop s, ctl_physical_emergency_latched s, ctl_handshake_revoked s,
   ctl_state_entry_generation s, ctl_desired s, ctl_emergency s).

Lemma ingest_control_view frame s :
  can_id frame <> kWvcuHandshake -> can_id frame <> kWvcuVehicleStatus ->
  control_view (ingest frame s).2 = control_view s.
Proof.
  intros H1%Z.eqb_neq H2%Z.eqb_neq. unfold ingest. rewrite H1, H2.
  repeat (match goal with |- context [if ?b then _ else _] => destruct b end;
          [reflexivity |]); [reflexivity ..].
Qed.

(** A new phase is entered over an edge, and stamped: only feedback received from
    now on is fresh in it. *)
Definition moves (op : VcuOp) (s s' : ParallelController) : Prop :=
  ctl_state s' = ctl_state s \/
  (vcu_edge s op (ctl_state s') /\
   ctl_state_entry_generation s' = ctl_receive_generation s').

Lemma abort_moves op s s1 :
  demands_stop op s = true -> ctl_state s1 = ctl_state s ->
  moves op s (begin_arming_emergency_disarm s1).2.
Proof.
  intros Hd E. unfold moves, begin_arming_emergency_disarm. rewrite E.
  destruct (ctl_state s) eqn:Es; try (left; exact E);
    right; (split; [apply edge_abort; rewrite ?Es; done | done]).
Qed.

Lemma ingest_handshake_moves frame s :
  can_id frame = kWvcuHandshake -> moves (OpIngest frame) s (ingest_handshake frame s).
Proof.
  intros Hid. unfold moves, ingest_handshake.
  destruct (_ && _ && _) eqn:E; [| by left].
  unfold revoke_handshake, transport_fault.
  apply andb_true_iff in E as [[E1 E2%Z.eqb_eq]%andb_true_iff _].
  right. split; [| by destruct (bool_decide _)].
  apply edge_revoked; try done. by destruct (bool_decide _).
Qed.

Lemma ingest_vehicle_status_moves frame s :
  can_id frame = kWvcuVehicleStatus -> moves (OpIngest frame) s (ingest_vehicle_status frame s).
Proof.
  intros Hid. unfold ingest_vehicle_status.
  destruct (negb _) eqn:E; [| by left].
  assert (Hd : demands_stop (OpIngest frame) s = true) by (simpl; by rewrite Hid, E).
  unfold latch_physical_emergency. destruct (bool_decide _) eqn:Er.
  - apply bool_decide_eq_true in Er. right. split; [by apply edge_physical | done].
  - by apply abort_moves.
Qed.

Lemma ingest_moves frame s : moves (OpIngest frame) s (vcu_step (OpIngest frame) s).
Proof.
  destruct (decide (can_id frame = kWvcuHandshake)) as [H1 | H1];
    [| destruct (decide (can_id frame = kWvcuVehicleStatus)) as [H2 | H2]].
  - simpl. unfold ingest. destruct (_ || _); [by left |]. rewrite H1. by apply ingest_handshake_moves.
  - simpl. unfold ingest. destruct (_ || _); [by left |]. rewrite H2.
    by apply ingest_vehicle_status_moves.
  - left. pose proof (ingest_control_view frame s H1 H2) as H. by injection H.
Qed.

Lemma phase_moves s :
  abort_target (ctl_state s) = None \/ stop_demanded s = false ->
  moves OpTick s (advance_phase s).
Proof.
  intros Hd.
  assert (Hp : forall target, phase_evidence s = Some (true, target) -> vcu_edge s OpTick target)
    by (intros; by apply edge_phase).
  unfold moves, advance_phase. unfold phase_evidence in Hp.
  destruct (ctl_state s) eqn:Es; try (left; assumption);
    destruct (_ : bool) eqn:E in |- *; first [left; assumption | right; split; [apply Hp; by rewrite ?E | done]].
Qed.

(** The three exits of [advance_state]. *)
Lemma advance_state_cases s :
  (demands_stop OpTick s = true /\ advance_state s = (begin_arming_emergency_disarm s).2) \/
  ((abort_target (ctl_state s) = None \/ stop_demanded s = false) /\
   ((ctl_state s = Ready /\
     fb_handshake_status (ctl_feedback s) <> kIntelligentHandshakeStatus /\
     advance_state s = transport_fault s) \/
    (ctl_state s = Ready /\
     advance_state s = enter WaitGear (s <| ctl_emergency_stop := true |>)) \/
    advance_state s = advance_phase s)).
Proof.
  unfold advance_state, demands_stop.
  assert (Ha : forall b s1, begin_arming_emergency_disarm s = (b, s1) ->
    b = bool_decide (abort_target (ctl_state s) <> None)).
  { intros b s1 Eb. unfold begin_arming_emergency_disarm in Eb. destruct (ctl_state s); by injection Eb as <- _. }
  destruct (if stop_demanded s then _ else _) as [disarming s1] eqn:Eb.
  destruct disarming.
  { left. destruct (stop_demanded s); [| done]. by rewrite Eb. }
  right. split.
  - destruct (stop_demanded s); [| by right]. left. specialize (Ha _ _ Eb).
    destruct (abort_target _); [done | reflexivity].
  - destruct (_ && _ && _) eqn:E1;
      [| destruct (_ && _) eqn:E2 in |- *; [right; left | right; right; done]].
    + apply andb_true_iff in E1 as [[Er _]%andb_true_iff Es].
      apply bool_decide_eq_true in Er. apply negb_true_iff, Z.eqb_neq in Es. by left.
    + apply andb_true_iff in E2 as [Er _]. by apply bool_decide_eq_true in Er.
Qed.

Lemma tick_moves s : moves OpTick s (vcu_step OpTick s).
Proof.
  change (vcu_step OpTick s) with (advance_state s).
  destruct (advance_state_cases s) as [[Hd ->] | [Ha [(Hr & Hs & ->) | [[Hr ->] | ->]]]].
  - by apply abort_moves.
  - right. split; [by apply edge_lost_handshake | done].
  - right. split; [by apply edge_lost_gear | done].
  - by apply phase_moves.
Qed.

Lemma set_command_moves command s :
  moves (OpSetCommand command) s (vcu_step (OpSetCommand command) s).
Proof.
  simpl. assert (Hd : demands_stop (OpSetCommand command) s = negb (set_command command s).1) by done.
  revert Hd. unfold set_command.
  destruct (_ || _) eqn:E1; [by left |]. apply orb_false_iff in E1 as [Hv%negb_false_iff _].
  destruct (_ && _ && _).
  { intros Hd. by apply abort_moves. }
  intros _. destruct (_ && _) eqn:E2; [| by left].
  apply andb_true_iff in E2 as [Hg%negb_true_iff%Z.eqb_neq Hr%bool_decide_eq_true].
  right. split; [by apply edge_gear_change | done].
Qed.

Lemma request_disarm_moves s : moves OpRequestDisarm s (vcu_step OpRequestDisarm s).
Proof.
  unfold moves. simpl. unfold request_disarm.
  assert (Ha : forall target, abort_target (ctl_state s) = Some target ->
            vcu_edge s OpRequestDisarm target) by (intros; by apply edge_abort).
  destruct (ctl_state s) eqn:Es; simpl; rewrite ?Es; simpl; try (by left); try (right; split; [by apply Ha | done]);
    right; (split; [apply edge_disarm; auto | done]).
Qed.

Lemma vcu_step_moves op s : moves op s (vcu_step op s).
Proof.
  destruct op.
  - right. split; [apply edge_reset | done].
  - apply ingest_moves.
  - apply tick_moves.
  - apply set_command_moves.
  - left. simpl. unfold set_emergency_command. by destruct (_ || _).
  - by apply abort_moves.
  - left. simpl. unfold clear_emergency_stop. by destruct (_ && _).
  - simpl. unfold request_parallel_handshake. destruct (_ || _) eqn:E; [by left |].
    apply orb_false_iff in E as [Hd%negb_false_iff Hp%negb_false_iff].
    right. split; [by apply edge_request | done].
  - apply request_disarm_moves.
  - right. split; [apply edge_fault | done].
  - left. simpl. unfold set_automatic_parking. by destruct (_ && _ && _).
Qed.

(** ** Runs *)
Lemma vcu_run_snoc ops op s : vcu_run (ops ++ [op]) s = vcu_step op (vcu_run ops s).
Proof. unfold vcu_run. by rewrite foldl_app. Qed.

Lemma vcu_run_app ops ops' s : vcu_run (ops ++ ops') s = vcu_run ops' (vcu_run ops s).
Proof. unfold vcu_run. by rewrite foldl_app. Qed.

(** The phases in which driving authority is acquired or held. *)
Definition arming (state : VcuState) : bool :=
  state_in state [Initial; WaitParallelHandshake; WaitParkingBrakeReleased; WaitGear;
                  WaitActuatorModes; Ready].

Definition gear_confirmed (s : ParallelController) : bool :=
  gear_reported (vc_gear (ctl_desired s)) s.

(** Case analysis on the phase and on the edge; what no edge does is dropped. *)
Ltac edge_cases H :=
  inversion H as [| Hd Hp | tgt Hph Hstop | op' tgt Hdem Hab | Hr Hh | Hr | command Hr Hv Hg
                  | Hr | frame Hr Hdem | frame tgt Hin Hid Hx Htarget |]; subst.

Lemma phase_into s target :
  phase_evidence s = Some (true, target) ->
  match target with
  | WaitParallelHandshake => ctl_state s = Initial
  | WaitParkingBrakeReleased =>
      ctl_state s = WaitParallelHandshake /\
      handshake_reported kIntelligentHandshakeStatus s = true
  | WaitGear =>
      (ctl_state s = WaitParallelHandshake /\
       handshake_reported kIntelligentHandshakeStatus s = true) \/
      ctl_state s = WaitParkingBrakeReleased
  | WaitActuatorModes => ctl_state s = WaitGear /\ gear_confirmed s = true
  | Ready => ctl_state s = WaitActuatorModes /\ actuators_by_wire s = true
  | Standby | Initial | VcuFault => False
  | _ => arming (ctl_state s) = false
  end.
Proof.
  unfold phase_evidence, gear_confirmed.
  destruct (ctl_state s); intros [= H <-]; rewrite ?H; try destruct (ctl_automatic_parking s); auto.
Qed.

Lemma abort_into state target : abort_target state = Some target -> arming target = false.
Proof. by destruct state; intros [= <-]. Qed.

Lemma edge_into_arming s op target :
  vcu_edge s op target -> arming target = true ->
  (op = OpRequestParallelHandshake /\ disarmed s = true /\ parking_ready s = true /\
   target = Initial) \/
  arming (ctl_state s) = true.
Proof.
  intros H Ha. edge_cases H; try discriminate Ha; try (right; by rewrite Hr).
  - left; auto.
  - right. apply phase_into in Hph. destruct target; try done; try (by rewrite Hph);
      try (by destruct Hph as [-> _]). by destruct Hph as [[-> _] | ->].
  - by rewrite (abort_into _ _ Hab) in Ha.
  - by destruct (bool_decide _).
Qed.

Lemma edge_into_ready s op :
  vcu_edge s op Ready ->
  ctl_state s = WaitActuatorModes /\ op = OpTick /\ actuators_by_wire s = true.
Proof.
  intros H. edge_cases H.
  - by apply phase_into in Hph as [].
  - by apply abort_into in Hab.
  - by destruct (bool_decide _).
Qed.

(** ** The evidence of an arming *)







(** ** The latches *)

(** A physical emergency stop or a revoked handshake is remembered. *)
Definition vcu_latched (s : ParallelController) : bool :=
  ctl_physical_emergency_latched s || ctl_handshake_revoked s.

Definition latch_inv (s : ParallelController) : Prop :=
  vcu_latched s = true -> ctl_emergency_stop s = true /\ arming (ctl_state s) = false.

(** The operations that clear the latches. *)
Definition restarts (op : VcuOp) (s : ParallelController) : bool :=
  match op with
  | OpReset => true
  | OpRequestParallelHandshake => (request_parallel_handshake s).1
  | _ => false
  end.

Fixpoint no_restart (ops : list VcuOp) (s : ParallelController) : bool :=
  match ops with
  | [] => true
  | op :: ops => negb (restarts op s) && no_restart ops (vcu_step op s)
  end.

(** What [begin_arming_emergency_disarm] leaves: never an arming phase but [Ready]. *)
Lemma begin_disarm_phase s :
  ctl_state s <> Ready -> arming (ctl_state (begin_arming_emergency_disarm s).2) = false.
Proof.
  intros Hr. unfold begin_arming_emergency_disarm. by destruct (ctl_state s) eqn:E; simpl; rewrite ?E.
Qed.

Lemma begin_disarm_flags s :
  let s' := (begin_arming_emergency_disarm s).2 in
  ctl_emergency_stop s' = ctl_emergency_stop s /\ vcu_latched s' = vcu_latched s /\
  ctl_desired s' = ctl_desired s.
Proof. unfold begin_arming_emergency_disarm. by destruct (ctl_state s). Qed.

Lemma emergency_stop_flags s :
  ctl_emergency_stop (emergency_stop s) = true /\ vcu_latched (emergency_stop s) = vcu_latched s.
Proof.
  unfold emergency_stop.
  destruct (begin_disarm_flags (s <| ctl_emergency_stop := true |>)) as (-> & -> & _). done.
Qed.

(** An operation that does not restart either raises a latch, and then leaves the
    arming phases, or keeps the latches and, with them, the stop demand. *)
Definition keeps_latches (s s' : ParallelController) : Prop :=
  (vcu_latched s' = true /\ ctl_emergency_stop s' = true /\ arming (ctl_state s') = false) \/
  (vcu_latched s' = vcu_latched s /\
   (vcu_latched s = true -> ctl_emergency_stop s = true -> ctl_emergency_stop s' = true)).

Lemma same_control_latches s s' : control_view s' = control_view s -> keeps_latches s s'.
Proof. intros [= _ E1 E2 E3 _ _ _]. right. unfold vcu_latched. by rewrite E1, E2, E3. Qed.

Lemma latched_revoked s : ctl_handshake_revoked s = true -> vcu_latched s = true.
Proof. intros H. unfold vcu_latched. by rewrite H, orb_true_r. Qed.

Lemma ingest_handshake_latches frame s : keeps_latches s (ingest_handshake frame s).
Proof.
  unfold ingest_handshake. destruct (_ && _ && _); [left | by apply same_control_latches].
  unfold revoke_handshake. destruct (bool_decide _); (split; [by apply latched_revoked | done]).
Qed.

Lemma ingest_vehicle_status_latches frame s :
  keeps_latches s (ingest_vehicle_status frame s).
Proof.
  unfold ingest_vehicle_status. destruct (negb _); [left | by apply same_control_latches].
  unfold latch_physical_emergency. destruct (bool_decide _) eqn:Er; [done |].
  apply bool_decide_eq_false in Er.
  match goal with |- context [begin_arming_emergency_disarm ?x] =>
    destruct (begin_disarm_flags x) as (E1 & E2 & _); pose proof (begin_disarm_phase x Er) end.
  by rewrite E1, E2.
Qed.

Lemma ingest_latches frame s : keeps_latches s (ingest frame s).2.
Proof.
  destruct (decide (can_id frame = kWvcuHandshake)) as [H1 | H1];
    [| destruct (decide (can_id frame = kWvcuVehicleStatus)) as [H2 | H2]].
  - unfold ingest. destruct (_ || _); [by right |]. rewrite H1.
    apply ingest_handshake_latches.
  - unfold ingest. destruct (_ || _); [by right |]. rewrite H2.
    apply ingest_vehicle_status_latches.
  - right. pose proof (ingest_control_view frame s H1 H2) as H. injection H as _ E1 E2 E3 _ _ _.
    unfold vcu_latched. by rewrite E1, E2, E3.
Qed.

Lemma tick_latches s : keeps_latches s (vcu_tick s).2.
Proof.
  right. change (vcu_tick s).2 with (advance_state s).
  destruct (advance_state_cases s) as [[_ ->] | [_ [(_ & _ & ->) | [[_ ->] | ->]]]]; try done.
  - destruct (begin_disarm_flags s) as (-> & -> & _). done.
  - unfold advance_phase. destruct (ctl_state s); try done;
      (match goal with |- context [if ?b then _ else _] => destruct b end; done).
Qed.

Lemma vcu_step_latches op s : restarts op s = false -> keeps_latches s (vcu_step op s).
Proof.
  destruct op; intros Hr; try discriminate Hr.
  - apply ingest_latches.
  - apply tick_latches.
  - right. simpl. unfold set_command. destruct (_ || _); [done |]. destruct (_ && _ && _).
    + match goal with |- context [emergency_stop ?x] =>
        destruct (emergency_stop_flags x) as [E1 E2] end.
      split; [exact E2 | by intros].
    + by destruct (_ && _).
  - right. simpl. unfold set_emergency_command. by destruct (_ || _).
  - right. destruct (emergency_stop_flags s) as [E1 E2]. by split.
  - right. simpl. unfold clear_emergency_stop, vcu_latched.
    by destruct (ctl_physical_emergency_latched s) eqn:E1, (ctl_handshake_revoked s) eqn:E2;
      simpl; rewrite ?E1, ?E2.
  - right. simpl in *. unfold request_parallel_handshake in *. by destruct (_ || _).
  - right. simpl. unfold request_disarm. destruct (state_in _ _); [done |].
    repeat (match goal with |- context [if ?b then _ else _] => destruct b end; [done |]). done.
  - by right.
  - right. simpl. unfold set_automatic_parking. by destruct (_ && _ && _).
Qed.

Lemma restarted_unlatched op s : restarts op s = true -> vcu_latched (vcu_step op s) = false.
Proof.
  destruct op; intros H; try discriminate H; [done |].
  simpl in *. unfold request_parallel_handshake in *. by destruct (_ || _).
Qed.

Lemma latch_inv_step op s : latch_inv s -> latch_inv (vcu_step op s).
Proof.
  intros Hinv Hl. destruct (restarts op s) eqn:Hr.
  { by rewrite (restarted_unlatched _ _ Hr) in Hl. }
  destruct (vcu_step_latches op s Hr) as [(_ & H1 & H2) | [E Hkeep]]; [done |].
  rewrite E in Hl. destruct (Hinv Hl) as [He Ha]. split; [by apply Hkeep |].
  destruct (vcu_step_moves op s) as [Es | [Es _]]; [by rewrite Es |].
  apply not_true_iff_false. intros Ha'.
  destruct (edge_into_arming _ _ _ Es Ha') as [(-> & Hd & Hp & _) | Hc]; [| congruence].
  simpl in Hr. unfold request_parallel_handshake in Hr. unfold disarmed in Hd.
  by rewrite Hd, Hp in Hr.
Qed.

Lemma latch_inv_run ops s : latch_inv s -> latch_inv (vcu_run ops s).
Proof.
  intros H. induction ops as [| op ops IH] using rev_ind; [done |].
  rewrite vcu_run_snoc. by apply latch_inv_step.
Qed.

Lemma latched_run ops : forall s,
  vcu_latched s = true -> no_restart ops s = true -> vcu_latched (vcu_run ops s) = true.
Proof.
  induction ops as [| op ops IH]; intros s Hl Hn; [done |].
  simpl in Hn. apply andb_true_iff in Hn as [Hr%negb_true_iff Hn]. apply IH; [| done].
  destruct (vcu_step_latches op s Hr) as [(H & _) | [-> _]]; done.
Qed.

(** A demanded stop closes traction. *)
Lemma demanded_closed s : ctl_emergency_stop s = true -> traction_open s = false.
Proof. intros H. unfold traction_open, stop_demanded. rewrite H. simpl. by rewrite andb_false_r. Qed.

(** ** Reports of a vehicle *)

Definition report (id : Z) (data : list Z) : CanFrame := mkCanFrame id 8 data true.

(** Zero torque at raw 32000, bytes [00 7D], as a vehicle sends it. *)
Definition zero_torque_report (index : nat) : CanFrame :=
  report (at_Z kMotorStatus01Ids index) [0x40; 0x9F; 0x00; 0x7D; 0x00; 0x7D; 0x2F; 0x36].
Definition standstill_report : CanFrame := report kWvcuVehicleSpeed [0x88; 0x13; 0; 0; 0; 0; 0; 0].
Definition neutral_report : CanFrame := report kWvcuVehicleStatus [0x04; 0; 0; 0; 0; 0; 0; 0].
Definition parked_report : CanFrame := report kWvcuParkingBrake [2; 0; 2; 0; 2; 0; 2; 0].
Definition manual_report : CanFrame := report kWvcuHandshake [0; 3; 0; 0; 0; 0; 0; 0].

Definition released_report : CanFrame := report kWvcuParkingBrake [1; 0; 1; 0; 1; 0; 1; 0].
Definition selector_report : CanFrame := report kWvcuDriverIntention [0; 0; 0; 0; 0; 0; 0; 2].
Definition intelligent_report : CanFrame := report kWvcuHandshake [0; 5; 0; 0; 0; 0; 0; 0].
Definition switch_report : CanFrame := report kWvcuVehicleStatus [0x05; 0; 0; 0; 0; 0; 0; 0].
Definition by_wire_reports : list CanFrame :=
  map zero_torque_report (seq 0 kMotorCount) ++
  map (fun id => report id [0x10; 0; 0; 0; 0; 0; 0; 0]) kMotorStatus02Ids ++
  map (fun id => report id [1; 0; 0; 0; 0; 0; 0; 0]) kSteeringStatusIds ++
  map (fun id => report id [1; 0; 0; 0; 1; 0; 0; 0]) kBrakeStatusIds.

(** A complete arming of a parked vehicle. *)
Definition demo_arming : list VcuOp :=
  map OpIngest [neutral_report; selector_report; standstill_report; parked_report; manual_report] ++
  [OpRequestParallelHandshake] ++ repeat OpTick 6 ++
  [OpIngest intelligent_report; OpTick; OpIngest released_report; OpTick;
   OpIngest neutral_report; OpTick] ++
  map OpIngest by_wire_reports ++ [OpTick].

(** ** Properties of runs *)

(** The transition relation is what the code does.  Every operation, in every state,
    keeps the phase or follows an edge of [vcu_edge]: arming phases are entered one by
    one, each on its own evidence received since the last one was entered, a stop
    demand aborts arming into the disarming sequence, which is left one by one too;
    and a phase entered is stamped with the current generation, so that older
    feedback does not count for it. *)
Theorem vcu_step_refines_edges (op : VcuOp) (s : ParallelController) :
  let s' := vcu_step op s in
  ctl_state s' = ctl_state s \/
  (vcu_edge s op (ctl_state s') /\
   ctl_state_entry_generation s' = ctl_receive_generation s').
Proof. apply vcu_step_moves. Qed.



(** C11. The latches hold.  From a controller that was run from its construction and has
    seen the physical emergency switch, or the handshake fall back to manual while
    it was confirmed: as long as no handshake request is accepted (and the object is not
    reset), whatever else happens - clearing the emergency stop, new commands, any
    feedback, any number of cycles - the latch stays, the stop stays demanded, the
    phase is none of the arming ones and every motor frame of every cycle carries
    zero torque. *)
Theorem latch_closes_traction (ops later : list VcuOp) (index : nat) :
  let s := vcu_run ops ParallelController_reset in
  vcu_latched s = true -> no_restart later s = true -> (index < kMotorCount)%nat ->
  let s' := vcu_run later s in
  vcu_latched s' = true /\ ctl_emergency_stop s' = true /\ arming (ctl_state s') = false /\
  extract_signal (frame_at (vcu_tick s').1 index) 8 16 = 32000.
Proof.
  intros s Hl Hn Hi s'.
  assert (Hl' : vcu_latched s' = true) by (by apply latched_run).
  assert (Hinv : forall s0, vcu_latched s0 = true -> latch_inv s0 -> traction_open (advance_state s0) = false).
  { intros s0 Hs0 Hinv0. apply demanded_closed.
    destruct (tick_latches s0) as [(_ & He & _) | [_ Hk]]; [done |].
    apply Hk; [done | by apply Hinv0]. }
  assert (Hs' : latch_inv s').
  { apply latch_inv_run, latch_inv_run. by intros ?. }
  destruct (Hs' Hl') as [He Ha]. split_and!; [done | done | done |].
  by apply closed_torque_zero, Hinv.
Qed.

Lemma latch_closes_traction_witness :
  let ops := demo_arming ++ [OpIngest switch_report] in
  let later := [OpIngest neutral_report; OpClearEmergencyStop; OpTick;
                OpRequestParallelHandshake; OpTick] in
  extract_signal
    (frame_at (vcu_tick (vcu_run later (vcu_run ops ParallelController_reset))).1 0) 8 16 = 32000.
Proof.
  intros ops later. apply (latch_closes_traction ops later 0).
  - vm_compute. reflexivity.
  - vm_compute. reflexivity.
  - unfold kMotorCount. lia.
Defined.

(** ** Commands *)

(** What the controller holds to send: a valid command, and an emergency command
    that is valid, in neutral and without traction. *)
Definition commands_ok (s : ParallelController) : Prop :=
  command_valid (ctl_desired s) = true /\ command_valid (ctl_emergency s) = true /\
  vc_gear (ctl_emergency s) = kNeutralGear /\
  vc_motor_torque_nm (ctl_emergency s) = zeros kMotorCount.

Lemma same_commands_ok s s' :
  ctl_desired s' = ctl_desired s -> ctl_emergency s' = ctl_emergency s ->
  commands_ok s -> commands_ok s'.
Proof. unfold commands_ok. by intros -> ->. Qed.

Lemma advance_state_emergency s : ctl_emergency (advance_state s) = ctl_emergency s.
Proof.
  unfold advance_state, begin_arming_emergency_disarm, advance_phase, transport_fault.
  destruct (stop_demanded s), (ctl_state s); try reflexivity;
    repeat (match goal with |- context [if ?b then _ else _] => destruct b end; try reflexivity).
Qed.

Lemma begin_disarm_commands s :
  let s' := (begin_arming_emergency_disarm s).2 in
  ctl_desired s' = ctl_desired s /\ ctl_emergency s' = ctl_emergency s.
Proof. unfold begin_arming_emergency_disarm. by destruct (ctl_state s). Qed.

Lemma ingest_commands frame s :
  ctl_desired (ingest frame s).2 = ctl_desired s /\
  ctl_emergency (ingest frame s).2 = ctl_emergency s.
Proof.
  destruct (decide (can_id frame = kWvcuHandshake)) as [H1 | H1];
    [| destruct (decide (can_id frame = kWvcuVehicleStatus)) as [H2 | H2]].
  - unfold ingest. destruct (_ || _); [done |]. rewrite H1. change (kWvcuHandshake =? kWvcuHandshake) with true. cbn iota. cbn [snd].
    unfold ingest_handshake. destruct (_ && _ && _); [| done].
    unfold revoke_handshake. by destruct (bool_decide _).
  - unfold ingest. destruct (_ || _); [done |]. rewrite H2. change (kWvcuVehicleStatus =? kWvcuHandshake) with false. change (kWvcuVehicleStatus =? kWvcuVehicleStatus) with true. cbn iota. cbn [snd].
    unfold ingest_vehicle_status. destruct (negb _); [| done].
    unfold latch_physical_emergency. destruct (bool_decide _); [done |].
    match goal with |- context [begin_arming_emergency_disarm ?x] =>
      destruct (begin_disarm_commands x) as [-> ->] end. done.
  - pose proof (ingest_control_view frame s H1 H2) as H. by injection H.
Qed.

(** Zeroing the traction of a valid command leaves it valid. *)
Lemma command_valid_no_traction c torque speed :
  command_valid c = true ->
  all_finite_in_range torque kMotorTorqueMinimumNm kMotorTorqueMaximumNm = true ->
  all_finite_in_range speed (d_lit (-8000) 0) (d_lit 8383 0) = true ->
  command_valid (c <| vc_motor_torque_nm := torque |> <| vc_motor_speed_rpm := speed |>) = true.
Proof.
  unfold command_valid. intros H Ht Hs. repeat rewrite andb_true_iff in *. cbn. intuition.
Qed.

Lemma set_command_ok command s : commands_ok s -> commands_ok (set_command command s).2.
Proof.
  intros Hok. pose proof Hok as (Hd & He & Hg & Ht). unfold set_command.
  destruct (_ || _) eqn:E; [done |]. apply orb_false_iff in E as [Hv%negb_false_iff _].
  destruct (_ && _ && _).
  - cbn [snd]. unfold emergency_stop.
    match goal with |- context [begin_arming_emergency_disarm ?x] =>
      destruct (begin_disarm_commands x) as [E1 E2] end.
    unfold commands_ok. rewrite E1, E2. split_and!; [| done ..].
    revert Hd. clear. cbn. unfold command_valid. generalize (ctl_desired s). intros c Hd.
    repeat rewrite andb_true_iff in *. cbn. intuition; reflexivity.
  - cbn [snd]. destruct (_ && _); done.
Qed.

Lemma set_emergency_command_ok command s :
  commands_ok s -> commands_ok (set_emergency_command command s).2.
Proof.
  intros Hok. pose proof Hok as (Hd & He & Hg & Ht). unfold set_emergency_command.
  destruct (_ || _) eqn:E; [done |].
  apply orb_false_iff in E as [Hv%negb_false_iff Hn%negb_false_iff%Z.eqb_eq].
  split_and!; [done | | done | done].
  apply command_valid_no_traction; [done | reflexivity | reflexivity].
Qed.

Lemma vcu_step_commands op s : commands_ok s -> commands_ok (vcu_step op s).
Proof.
  intros Hok. destruct op.
  - split_and!; reflexivity.
  - apply (same_commands_ok s); [apply ingest_commands .. | done].
  - apply (same_commands_ok s); [apply advance_state_desired | apply advance_state_emergency | done].
  - by apply set_command_ok.
  - by apply set_emergency_command_ok.
  - destruct (begin_disarm_commands (s <| ctl_emergency_stop := true |>)) as [E1 E2].
    apply (same_commands_ok s); [exact E1 | exact E2 | done].
  - simpl. unfold clear_emergency_stop. by destruct (_ && _).
  - simpl. unfold request_parallel_handshake. destruct (_ || _); [done |].
    destruct Hok as (_ & Hok). split; [reflexivity | exact Hok].
  - simpl. unfold request_disarm. destruct (state_in _ _); [done |].
    repeat (match goal with |- context [if ?b then _ else _] => destruct b end; [done |]). done.
  - done.
  - simpl. unfold set_automatic_parking. by destruct (_ && _ && _).
Qed.

(** Only valid commands are ever sent.  After any run the held command is finite and
    in range on every channel with a gear of N, D or R, the emergency command is too,
    in neutral and without torque.  A command is accepted only when it is valid and
    the controller is neither disarming nor in [VcuFault]; then it is the held one, and a
    change of gear in [Ready] goes back to [WaitGear].  A refused command changes
    nothing, except that asking for D or R while the vehicle may be moving zeroes the
    held torque and demands a stop. *)
Theorem commands_always_valid (ops : list VcuOp) (command : VcuCommand) :
  let s := vcu_run ops ParallelController_reset in
  let '(accepted, s') := set_command command s in
  commands_ok s /\
  (accepted = true ->
   command_valid command = true /\ disarmed s || arming (ctl_state s) = true /\
   ctl_desired s' = command /\
   (ctl_state s' = ctl_state s \/ (ctl_state s = Ready /\ ctl_state s' = WaitGear))) /\
  (accepted = false ->
   s' = s \/
   (vc_motor_torque_nm (ctl_desired s') = zeros kMotorCount /\ ctl_emergency_stop s' = true)).
Proof.
  intros s.
  assert (Hok : commands_ok s).
  { unfold s. induction ops as [| op ops IH] using rev_ind; [split_and!; reflexivity |].
    rewrite vcu_run_snoc. by apply vcu_step_commands. }
  destruct (set_command command s) as [accepted s'] eqn:E. split; [exact Hok |].
  generalize dependent s. intros s _ E. revert E. unfold set_command.
  destruct (_ || _) eqn:E1; [by intros [= <- <-]; split; [| left] |].
  apply orb_false_iff in E1 as [Hv%negb_false_iff Hs].
  destruct (_ && _ && _).
  { intros [= <- <-]. split; [done |]. intros _. right.
    match goal with |- context [emergency_stop ?x] =>
      destruct (emergency_stop_flags x) as [E1 _];
      destruct (begin_disarm_commands (x <| ctl_emergency_stop := true |>)) as [E2 _] end.
    split; [| exact E1]. unfold emergency_stop. rewrite E2. reflexivity. }
  intros [= <- <-]. split; [intros _ | done].
  assert (Ha : disarmed s || arming (ctl_state s) = true)
    by (unfold disarmed; by destruct (ctl_state s)).
  destruct (_ && bool_decide _) eqn:E2; [| by split_and!; [| | | left]].
  apply andb_true_iff in E2 as [_ Hr%bool_decide_eq_true].
  split_and!; [done | done | done | by right].
Qed.
