(* ===== verification/VcuLiveness.v ===== *)
(** VcuLiveness: disarming ends.

    In a round the vehicle reports zero torque on every motor, standstill, neutral
    gear, the applied parking brakes and the manual handshake, and the controller
    runs one cycle.  Every phase of the disarming sequence is left after one such
    round, so five rounds bring [DisarmTorque] to [Disarmed]. *)
From S2P Require Export VcuMachine.

(** ** The reports of a round *)

Definition disarm_round : list VcuOp :=
  map (fun index => OpIngest (zero_torque_report index)) (seq 0 kMotorCount) ++
  [OpIngest standstill_report; OpIngest neutral_report; OpIngest parked_report;
   OpIngest manual_report; OpTick].

(** ** Room in the counters *)

(** The arrays have their sizes and [n] more frames do not wrap the counter. *)
Definition room (n : Z) (s : ParallelController) : Prop :=
  0 <= ctl_state_entry_generation s <= ctl_receive_generation s /\
  ctl_receive_generation s + n < 2 ^ 64 /\
  length (ctl_motor_torque_generation s) = kMotorCount /\
  length (fb_motor_torque_valid (ctl_feedback s)) = kMotorCount /\
  length (fb_motor_torque_nm (ctl_feedback s)) = kMotorCount /\
  length (fb_parking_brake_status (ctl_feedback s)) = kParkingBrakeCount /\
  length (fb_parking_brake_valid (ctl_feedback s)) = kParkingBrakeCount.

Definition disarming (state : VcuState) : bool :=
  state_in state [DisarmTorque; DisarmStop; DisarmNeutral; DisarmParkingBrake; DisarmManual].

(** The phase the round leads to. *)
Definition disarm_next (state : VcuState) : VcuState :=
  match state with
  | DisarmTorque => DisarmStop
  | DisarmStop => DisarmNeutral
  | DisarmNeutral => DisarmParkingBrake
  | DisarmParkingBrake => DisarmManual
  | DisarmManual => Disarmed
  | state => state
  end.

(** ** Motors *)

(** The first [n] motors have reported zero torque since the phase was entered. *)
Definition motors_reported (n : nat) (s : ParallelController) : Prop :=
  forall i, (i < n)%nat -> exists generation torque,
    ctl_motor_torque_generation s !! i = Some generation /\
    ctl_state_entry_generation s < generation /\
    fb_motor_torque_valid (ctl_feedback s) !! i = Some true /\
    fb_motor_torque_nm (ctl_feedback s) !! i = Some torque /\
    (d_abs torque ≤ᵈ kTorqueZeroToleranceNm) = true.

Lemma forallb_lookup {A} (f : A -> bool) (l : list A) :
  (forall i x, l !! i = Some x -> f x = true) -> forallb f l = true.
Proof.
  intros H. apply forallb_forall. intros x Hx%list_elem_of_In.
  apply list_elem_of_lookup in Hx as [i Hi]. by apply (H i).
Qed.

Lemma motors_reported_all s :
  room 0 s -> motors_reported kMotorCount s -> torque_reported_zero s = true.
Proof.
  intros (_ & _ & L1 & L2 & L3 & _) H. unfold torque_reported_zero, all_valid, all_fresh,
    all_newer_than, torques_zero.
  apply andb_true_iff; split; [apply andb_true_iff; split |]; apply forallb_lookup;
    intros i x Hi; pose proof (lookup_lt_Some _ _ _ Hi) as Hlt;
    (destruct (H i) as (g & t & Hg & Hlg & Hv & Ht & Hz); [lia |]).
  - congruence.
  - rewrite Hg in Hi. injection Hi as <-. by apply Z.ltb_lt.
  - rewrite Ht in Hi. by injection Hi as <-.
Qed.

Lemma ingest_zero_torque index s :
  (index < kMotorCount)%nat ->
  (ingest (zero_torque_report index) s).2 = ingest_motor_status01 index (zero_torque_report index) s.
Proof.
  unfold kMotorCount. intros Hi. do 8 (destruct index as [| index]; [reflexivity |]). lia.
Qed.

Lemma zero_torque_within index :
  (d_abs (decode_physical (extract_signal (zero_torque_report index) 16 kMotorTorqueBits)
            kMotorTorqueResolutionNm kMotorTorqueMinimumNm) ≤ᵈ kTorqueZeroToleranceNm) = true.
Proof. vm_compute. reflexivity. Qed.

(** A recorded frame leaves room for one less. *)
Lemma next_room n s :
  room (n + 1) s -> 0 <= n ->
  ctl_state_entry_generation s < u64 (ctl_receive_generation s + 1) /\
  u64 (ctl_receive_generation s + 1) + n < 2 ^ 64.
Proof. intros (H1 & H2 & _) Hn. rewrite u64_small by lia. lia. Qed.

Lemma motor_step n index s :
  0 <= n -> (index < kMotorCount)%nat -> room (n + 1) s -> motors_reported index s ->
  let s' := ingest_motor_status01 index (zero_torque_report index) s in
  room n s' /\ motors_reported (S index) s' /\ control_view s' = control_view s.
Proof.
  intros Hn Hi Hroom Hm. destruct (next_room n s Hroom Hn) as [Hg Hb].
  destruct Hroom as (H1 & H2 & L1 & L2 & L3 & L4 & L5).
  pose proof (zero_torque_within index) as Hz. revert Hz.
  unfold ingest_motor_status01. generalize (decode_physical
    (extract_signal (zero_torque_report index) 16 kMotorTorqueBits)
    kMotorTorqueResolutionNm kMotorTorqueMinimumNm). intros torque Hz.
  split_and!; [| | reflexivity].
  - unfold room. simpl. rewrite !length_insert. split_and!; auto; lia.
  - intros i Hlt. simpl. destruct (decide (i = index)) as [-> | Hne].
    + exists (u64 (ctl_receive_generation s + 1)), torque.
      split_and!; try done; apply list_lookup_insert_eq; lia.
    + destruct (Hm i) as (g & t & ? & ? & ? & ? & ?); [lia |]. exists g, t.
      rewrite !list_lookup_insert_ne by done. done.
Qed.

Lemma motors_round k : forall n s,
  0 <= n -> (k <= kMotorCount)%nat -> room (n + Z.of_nat k) s ->
  let s' := vcu_run (map (fun index => OpIngest (zero_torque_report index)) (seq 0 k)) s in
  room n s' /\ motors_reported k s' /\ control_view s' = control_view s.
Proof.
  induction k as [| k IH]; intros n s Hn Hk Hroom.
  - split_and!; [| by intros i Hi; lia | done]. by rewrite Z.add_0_r in Hroom.
  - rewrite seq_S, map_app, vcu_run_app. cbn [map]. rewrite Nat.add_0_l.
    destruct (IH (n + 1) s) as (Hr & Hm & Hc); [lia | lia | |].
    { by replace (n + 1 + Z.of_nat k) with (n + Z.of_nat (S k)) by lia. }
    set (s1 := vcu_run _ s) in *. unfold vcu_run. cbn [foldl]. cbv zeta.
    replace (vcu_step (OpIngest (zero_torque_report k)) s1)
      with (ingest_motor_status01 k (zero_torque_report k) s1)
      by (symmetry; apply ingest_zero_torque; lia).
    destruct (motor_step n k s1) as (Hr' & Hm' & Hc'); [lia.. | done | done |].
    split_and!; [done | done | congruence].
Qed.

(** ** The other reports *)
Lemma standstill_effect n s :
  0 <= n -> room (n + 1) s -> torque_reported_zero s = true ->
  let s' := (ingest standstill_report s).2 in
  room n s' /\ torque_reported_zero s' = true /\ stop_reported s' = true /\
  control_view s' = control_view s.
Proof.
  intros Hn Hroom Ht. destruct (next_room n s Hroom Hn) as [Hg Hb].
  change (ingest standstill_report s).2 with (ingest_vehicle_speed standstill_report s).
  destruct Hroom as (H1 & H2 & L). split_and!; [split_and!; simpl; try lia; apply L | exact Ht | | done].
  unfold stop_reported. apply andb_true_iff; split; [| vm_compute; reflexivity].
  apply andb_true_iff; split; [done | by apply Z.ltb_lt].
Qed.

Lemma neutral_effect n s :
  0 <= n -> room (n + 1) s -> torque_reported_zero s = true -> stop_reported s = true ->
  let s' := (ingest neutral_report s).2 in
  room n s' /\ torque_reported_zero s' = true /\ stop_reported s' = true /\
  gear_reported kNeutralGear s' = true /\ control_view s' = control_view s.
Proof.
  intros Hn Hroom Ht Hs. destruct (next_room n s Hroom Hn) as [Hg Hb].
  change (ingest neutral_report s).2 with (record_vehicle_status neutral_report s).
  destruct Hroom as (H1 & H2 & L).
  split_and!; [split_and!; simpl; try lia; apply L | exact Ht | exact Hs | | done].
  unfold gear_reported. apply andb_true_iff; split; [| reflexivity].
  apply andb_true_iff; split; [done | by apply Z.ltb_lt].
Qed.

Lemma parked_effect n s :
  0 <= n -> room (n + 1) s -> torque_reported_zero s = true -> stop_reported s = true ->
  gear_reported kNeutralGear s = true ->
  let s' := (ingest parked_report s).2 in
  room n s' /\ torque_reported_zero s' = true /\ stop_reported s' = true /\
  gear_reported kNeutralGear s' = true /\
  parking_brake_reported kParkingBrakePark s' = true /\ control_view s' = control_view s.
Proof.
  intros Hn Hroom Ht Hs Hgr. destruct (next_room n s Hroom Hn) as [Hg Hb].
  change (ingest parked_report s).2 with (ingest_parking_brake parked_report s).
  destruct Hroom as (H1 & H2 & L1 & L2 & L3 & Lp & Lv).
  split_and!; [| exact Ht | exact Hs | exact Hgr | | done].
  { split_and!; simpl; rewrite ?length_insert; try lia; done. }
  unfold parking_brake_reported. apply andb_true_iff; split; [by apply Z.ltb_lt |].
  unfold parking_brakes_report, all_equal_valid.
  change (fb_parking_brake_status (ctl_feedback (ingest_parking_brake parked_report s)))
    with (<[3%nat := 2]> (<[2%nat := 2]> (<[1%nat := 2]> (<[0%nat := 2]>
            (fb_parking_brake_status (ctl_feedback s)))))).
  change (fb_parking_brake_valid (ctl_feedback (ingest_parking_brake parked_report s)))
    with (<[3%nat := true]> (<[2%nat := true]> (<[1%nat := true]> (<[0%nat := true]>
            (fb_parking_brake_valid (ctl_feedback s)))))).
  destruct (fb_parking_brake_status (ctl_feedback s)) as [| p0 [| p1 [| p2 [| p3 [| ? ?]]]]];
    try discriminate Lp.
  destruct (fb_parking_brake_valid (ctl_feedback s)) as [| v0 [| v1 [| v2 [| v3 [| ? ?]]]]];
    try discriminate Lv.
  reflexivity.
Qed.

Lemma disarming_not_accepted s :
  disarming (ctl_state s) = true ->
  state_in (ctl_state s) [WaitParkingBrakeReleased; WaitGear; WaitActuatorModes; Ready] = false.
Proof. by destruct (ctl_state s). Qed.

Lemma manual_effect n s :
  0 <= n -> room (n + 1) s -> disarming (ctl_state s) = true ->
  torque_reported_zero s = true -> stop_reported s = true ->
  gear_reported kNeutralGear s = true -> parking_brake_reported kParkingBrakePark s = true ->
  let s' := (ingest manual_report s).2 in
  room n s' /\ torque_reported_zero s' = true /\ stop_reported s' = true /\
  gear_reported kNeutralGear s' = true /\
  parking_brake_reported kParkingBrakePark s' = true /\
  handshake_reported kManualHandshakeStatus s' = true /\ control_view s' = control_view s.
Proof.
  intros Hn Hroom Hd Ht Hs Hgr Hp. destruct (next_room n s Hroom Hn) as [Hg Hb].
  replace (ingest manual_report s).2 with (record_handshake manual_report s).
  2: { change (ingest manual_report s).2 with (ingest_handshake manual_report s).
       unfold ingest_handshake.
       change (ctl_state (record_handshake manual_report s)) with (ctl_state s).
       by rewrite (disarming_not_accepted s Hd). }
  destruct Hroom as (H1 & H2 & L).
  split_and!; [split_and!; simpl; try lia; apply L | exact Ht | exact Hs | exact Hgr | exact Hp | | done].
  unfold handshake_reported. apply andb_true_iff; split; [| reflexivity].
  apply andb_true_iff; split; [done | by apply Z.ltb_lt].
Qed.

(** ** A round *)
Lemma tick_disarming s :
  disarming (ctl_state s) = true -> torque_reported_zero s = true -> stop_reported s = true ->
  gear_reported kNeutralGear s = true -> parking_brake_reported kParkingBrakePark s = true ->
  handshake_reported kManualHandshakeStatus s = true ->
  vcu_step OpTick s = enter (disarm_next (ctl_state s)) s.
Proof.
  intros Hd H1 H2 H3 H4 H5. change (vcu_step OpTick s) with (advance_state s).
  destruct (advance_state_cases s) as [[_ E] | [_ [(Hr & _) | [[Hr _] | ->]]]].
  - unfold advance_state, begin_arming_emergency_disarm, advance_phase.
    rewrite H1, H2, H3, H4, H5.
    destruct (stop_demanded s), (ctl_state s); try discriminate Hd; reflexivity.
  - by rewrite Hr in Hd.
  - by rewrite Hr in Hd.
  - unfold advance_phase. rewrite H1, H2, H3, H4, H5. by destruct (ctl_state s).
Qed.

Lemma enter_room n state s : room n s -> room n (enter state s).
Proof. unfold room. simpl. intuition lia. Qed.

Lemma ingest_step frame s : vcu_step (OpIngest frame) s = (ingest frame s).2.
Proof. done. Qed.

Lemma control_view_same s s' :
  control_view s' = control_view s ->
  ctl_state s' = ctl_state s /\ ctl_emergency_stop s' = ctl_emergency_stop s.
Proof. by intros [= -> -> _ _ _ _ _]. Qed.

Lemma disarm_round_next n s :
  0 <= n -> room (n + 12) s -> disarming (ctl_state s) = true ->
  let s' := vcu_run disarm_round s in
  room n s' /\ ctl_state s' = disarm_next (ctl_state s) /\
  ctl_emergency_stop s' = ctl_emergency_stop s.
Proof.
  intros Hn Hroom Hd. unfold disarm_round. rewrite vcu_run_app.
  destruct (motors_round kMotorCount (n + 4) s) as (R1 & M1 & C1); [lia | done | |].
  { by replace (n + 4 + Z.of_nat kMotorCount) with (n + 12) by (unfold kMotorCount; lia). }
  set (s1 := vcu_run (map _ _) s) in *.
  assert (T1 : torque_reported_zero s1 = true).
  { apply motors_reported_all; [| done]. unfold room in *. intuition lia. }
  unfold vcu_run. cbn [foldl]. cbv zeta.
  rewrite !ingest_step.
  destruct (standstill_effect (n + 3) s1) as (R2 & T2 & S2 & C2);
    [lia | by replace (n + 3 + 1) with (n + 4) by lia | assumption |].
  set (s2 := (ingest standstill_report s1).2) in *.
  destruct (neutral_effect (n + 2) s2) as (R3 & T3 & S3 & G3 & C3);
    [lia | by replace (n + 2 + 1) with (n + 3) by lia | assumption .. |].
  set (s3 := (ingest neutral_report s2).2) in *.
  destruct (parked_effect (n + 1) s3) as (R4 & T4 & S4 & G4 & P4 & C4);
    [lia | by replace (n + 1 + 1) with (n + 2) by lia | assumption .. |].
  set (s4 := (ingest parked_report s3).2) in *.
  assert (C : control_view s4 = control_view s) by congruence.
  destruct (control_view_same _ _ C) as [Es _].
  destruct (manual_effect n s4) as (R5 & T5 & S5 & G5 & P5 & H5 & C5);
    [lia | exact R4 | by rewrite Es | assumption .. |].
  set (s5 := (ingest manual_report s4).2) in *.
  destruct (control_view_same s s5) as [Es5 Ee5]; [congruence |].
  rewrite (tick_disarming s5); [| by rewrite Es5 | assumption ..]. rewrite Es5.
  split_and!; [| done |].
  - by apply enter_room.
  - exact Ee5.
Qed.

(** The disarming phases in their order. *)
Lemma disarm_rounds k : forall n s,
  0 <= n -> room (n + 12 * Z.of_nat k) s ->
  (forall i, (i < k)%nat -> disarming (Nat.iter i disarm_next (ctl_state s)) = true) ->
  let s' := vcu_run (concat (repeat disarm_round k)) s in
  ctl_state s' = Nat.iter k disarm_next (ctl_state s).
Proof.
  induction k as [| k IH]; intros n s Hn Hroom Hd; [done |].
  cbn [repeat concat]. cbv zeta. rewrite vcu_run_app.
  destruct (disarm_round_next (n + 12 * Z.of_nat k) s) as (R & E & _); [lia | | apply (Hd 0%nat); lia |].
  { by replace (n + 12 * Z.of_nat k + 12) with (n + 12 * Z.of_nat (S k)) by lia. }
  rewrite (IH n _ Hn R), E; [by rewrite Nat.iter_succ_r |].
  intros i Hi. rewrite E, <- Nat.iter_succ_r. apply Hd. lia.
Qed.

(** ** Properties *)

(** C29. Disarming terminates.  From [DisarmTorque], with the arrays at their sizes and 60
    more frames not wrapping the 64-bit receive counter, five rounds in which the
    vehicle reports what the phases ask for (whatever it reported before, and whether
    or not a stop is still demanded) bring the controller to [Disarmed], from where a
    new handshake may be requested; after fewer rounds it is in the corresponding
    phase of the sequence torque, stop, neutral, parking brake, manual. *)
Theorem disarming_terminates (s : ParallelController) (rounds : nat) :
  ctl_state s = DisarmTorque -> room 60 s -> (rounds <= 5)%nat ->
  ctl_state (vcu_run (concat (repeat disarm_round rounds)) s) =
  nth rounds [DisarmTorque; DisarmStop; DisarmNeutral; DisarmParkingBrake; DisarmManual; Disarmed]
    VcuFault.
Proof.
  intros Hs Hroom Hk.
  rewrite (disarm_rounds rounds (60 - 12 * Z.of_nat rounds)); [| lia | |].
  - rewrite Hs. do 6 (destruct rounds as [| rounds]; [reflexivity |]). lia.
  - by replace (60 - 12 * Z.of_nat rounds + 12 * Z.of_nat rounds) with 60 by lia.
  - intros i Hi. rewrite Hs. do 5 (destruct i as [| i]; [reflexivity |]). lia.
Qed.

Lemma disarming_terminates_witness :
  let s := vcu_run [OpRequestDisarm] (ParallelController_reset <| ctl_state := Ready |>) in
  ctl_state (vcu_run (concat (repeat disarm_round 5)) s) = Disarmed.
Proof.
  intros s. apply (disarming_terminates s 5); [reflexivity | | lia].
  unfold room. split_and!; try reflexivity; simpl; lia.
Defined.
