(* ===== verification/SpeedControl.v ===== *)
(** SpeedControl: the arithmetic of the bridge's local speed control
    (deployments/chassis-control-bridge/mine_teleop_chassis_bridge.h).

    Functions of doubles: torque limits and slew, quantisation to the wire
    resolution, the speed PID with conditional integration, the overspeed and
    watchdog tests.  C [int] truth values are booleans, and a null pointer to a
    configuration or a state never reaches these functions from the bridge.

    - the PID output lies between zero and its ceiling and the integral stays
      there too, for every input; invalid inputs reset the state and give zero;
    - torque falls at once and rises at most at the configured rate;
    - the gear alone decides the direction of the torque. *)
From S2P Require Export Float64.

(** ** Constants *)

Definition MAX_FULL_SCALE_MOTOR_TORQUE_NM : double := d_lit 640 0.
Definition MIN_DBC_MOTOR_TORQUE_NM : double := d_lit (-3200) 0.
Definition MAX_DBC_MOTOR_TORQUE_NM : double := d_lit 33535 1.
Definition MOTOR_TORQUE_RESOLUTION_NM : double := d_lit 1 1.
Definition DEFAULT_MOTOR_TORQUE_RISE_RATE : double := d_zero.
Definition MAX_MOTOR_TORQUE_RISE_RATE : double := d_lit 32000 0.
Definition MAX_ORDINARY_BRAKE_PRESSURE_BAR : double := d_lit 3276 1.
Definition MAX_EMERGENCY_BRAKE_PRESSURE_BAR : double := d_lit 4095 1.
Definition BRAKE_PRESSURE_RESOLUTION_BAR : double := d_lit 1 1.
Definition MIN_CONTROL_TIMEOUT_MS : Z := 20.
Definition MAX_CONTROL_TIMEOUT_MS : Z := 60000.
Definition MAX_SPEED_FEEDBACK_TIMEOUT_MS : Z := 500.
Definition MIN_SPEED_PID_MAX_DT_MS : Z := 20.
Definition MAX_SPEED_PID_MAX_DT_MS : Z := 200.
Definition MAX_SPEED_PID_GAIN : double := d_lit 100 0.
Definition MAX_DERIVATIVE_FILTER_TAU_MS : double := d_lit 2000 0.
Definition SPEED_PID_SETPOINT_RESET_DEADBAND_MPS : double := d_lit 5 2.
Definition MAX_STEERING_REQUEST : double := d_one.

(** ** The standard library's part *)

(** [DBL_MAX] *)
Definition DBL_MAX : double := SFmax_float 53 1024.

(** [nextafter(x, DBL_MAX)] *)
Definition nextafter_max (x : double) : double :=
  if d_is_nan x then S754_nan
  else if x =ᵈ DBL_MAX then DBL_MAX
  else if x <ᵈ DBL_MAX then SFsucc 53 1024 x
  else SFpred 53 1024 x.

(** [fmin]: a NaN argument is ignored. *)
Definition d_fmin (a b : double) : double :=
  if d_is_nan a then b else if d_is_nan b then a else if b <ᵈ a then b else a.

(** ** Torque and pressure *)

(** [value == value && value >= -DBL_MAX && value <= DBL_MAX] *)
Definition chassis_finite (value : double) : bool :=
  (value =ᵈ value) && (value ≥ᵈ d_neg DBL_MAX) && (value ≤ᵈ DBL_MAX).

Definition speed_magnitude_mps (speed_mps : double) : double := d_abs speed_mps.

Definition bounded_motor_torque_nm (normalized_pid_output max_motor_torque_nm : double) :
    double :=
  if negb (chassis_finite normalized_pid_output) || negb (chassis_finite max_motor_torque_nm) ||
     negb (normalized_pid_output >ᵈ d_zero) || negb (max_motor_torque_nm >ᵈ d_zero)
  then d_zero
  else
    let normalized_traction :=
      if normalized_pid_output <ᵈ d_one then normalized_pid_output else d_one in
    let authoritative_limit := max_motor_torque_nm in
    let authoritative_limit :=
      if authoritative_limit >ᵈ MAX_FULL_SCALE_MOTOR_TORQUE_NM
      then MAX_FULL_SCALE_MOTOR_TORQUE_NM else authoritative_limit in
    let authoritative_limit :=
      if authoritative_limit >ᵈ MAX_DBC_MOTOR_TORQUE_NM
      then MAX_DBC_MOTOR_TORQUE_NM else authoritative_limit in
    normalized_traction ⊗ authoritative_limit.

(** Toward zero to the resolution of the wire. *)
Definition quantize_toward_zero (value resolution : double) : double :=
  d_floor (nextafter_max (value ⊘ resolution)) ⊗ resolution.

Definition motor_torque_limit_nm (normalized_pid_output max_motor_torque_nm : double) : double :=
  quantize_toward_zero (bounded_motor_torque_nm normalized_pid_output max_motor_torque_nm)
    MOTOR_TORQUE_RESOLUTION_NM.

Definition rise_limited_motor_torque_nm
    (previous_motor_torque_nm target_motor_torque_nm rise_rate_nm_per_second dt_seconds : double) :
    double :=
  if negb (chassis_finite previous_motor_torque_nm) ||
     negb (chassis_finite target_motor_torque_nm) ||
     (previous_motor_torque_nm <ᵈ d_zero) || (target_motor_torque_nm ≤ᵈ d_zero)
  then d_zero
  else if target_motor_torque_nm ≤ᵈ previous_motor_torque_nm then target_motor_torque_nm
  else if rise_rate_nm_per_second =ᵈ d_zero then target_motor_torque_nm
  else if negb (chassis_finite rise_rate_nm_per_second) || (rise_rate_nm_per_second <ᵈ d_zero) ||
          (rise_rate_nm_per_second >ᵈ MAX_MOTOR_TORQUE_RISE_RATE) ||
          negb (chassis_finite dt_seconds) || (dt_seconds ≤ᵈ d_zero)
  then d_zero
  else d_fmin target_motor_torque_nm
         (previous_motor_torque_nm ⊕ rise_rate_nm_per_second ⊗ dt_seconds).

Definition directional_motor_torque_nm (target_gear : Z) (motor_torque_magnitude_nm : double) :
    double :=
  if negb (chassis_finite motor_torque_magnitude_nm) || (motor_torque_magnitude_nm ≤ᵈ d_zero)
  then d_zero
  else
    let quantized_magnitude :=
      quantize_toward_zero motor_torque_magnitude_nm MOTOR_TORQUE_RESOLUTION_NM in
    if target_gear =? 3 then
      if quantized_magnitude >ᵈ MAX_DBC_MOTOR_TORQUE_NM then MAX_DBC_MOTOR_TORQUE_NM
      else quantized_magnitude
    else if target_gear =? 2 then
      let requested := d_neg quantized_magnitude in
      if requested <ᵈ MIN_DBC_MOTOR_TORQUE_NM then MIN_DBC_MOTOR_TORQUE_NM else requested
    else d_zero.

Definition quantize_brake_pressure_bar (brake_pressure_bar : double) : double :=
  if negb (brake_pressure_bar >ᵈ d_zero) then d_zero
  else
    let bounded :=
      if brake_pressure_bar >ᵈ MAX_ORDINARY_BRAKE_PRESSURE_BAR
      then MAX_ORDINARY_BRAKE_PRESSURE_BAR else brake_pressure_bar in
    quantize_toward_zero bounded BRAKE_PRESSURE_RESOLUTION_BAR.

Definition control_output_is_finite
    (wheel_torque wheel_speed steering_angle steering_speed brake_pressure : double) : bool :=
  chassis_finite wheel_torque && chassis_finite wheel_speed && chassis_finite steering_angle &&
  chassis_finite steering_speed && chassis_finite brake_pressure.

Definition control_timeout_is_valid (control_timeout_ms : Z) : bool :=
  (MIN_CONTROL_TIMEOUT_MS <=? control_timeout_ms) && (control_timeout_ms <=? MAX_CONTROL_TIMEOUT_MS).

(** ** The speed PID *)

Record SpeedPidConfig := mkSpeedPidConfig {
  pid_kp : double;
  pid_ki : double;
  pid_kd : double;
  pid_derivative_filter_tau_ms : double;
  pid_max_dt_ms : Z;
}.

(** [initialized] is zero or one; the code tests for both. *)
Record SpeedPidState := mkSpeedPidState {
  pid_integral : double;
  pid_filtered_measurement_derivative : double;
  pid_previous_measurement : double;
  pid_initialized : Z;
}.

#[global] Instance eta_SpeedPidState : Settable SpeedPidState :=
  fields! mkSpeedPidState
    <pid_integral; pid_filtered_measurement_derivative; pid_previous_measurement;
     pid_initialized>.

Definition speed_pid_config_is_valid (config : SpeedPidConfig) : bool :=
  chassis_finite (pid_kp config) && (pid_kp config >ᵈ d_zero) &&
  (pid_kp config ≤ᵈ MAX_SPEED_PID_GAIN) &&
  chassis_finite (pid_ki config) && (pid_ki config ≥ᵈ d_zero) &&
  (pid_ki config ≤ᵈ MAX_SPEED_PID_GAIN) &&
  chassis_finite (pid_kd config) && (pid_kd config ≥ᵈ d_zero) &&
  (pid_kd config ≤ᵈ MAX_SPEED_PID_GAIN) &&
  chassis_finite (pid_derivative_filter_tau_ms config) &&
  (pid_derivative_filter_tau_ms config ≥ᵈ d_zero) &&
  (pid_derivative_filter_tau_ms config ≤ᵈ MAX_DERIVATIVE_FILTER_TAU_MS) &&
  (MIN_SPEED_PID_MAX_DT_MS <=? pid_max_dt_ms config) &&
  (pid_max_dt_ms config <=? MAX_SPEED_PID_MAX_DT_MS).

Definition speed_pid_reset : SpeedPidState := mkSpeedPidState d_zero d_zero d_zero 0.

Definition speed_pid_setpoint_requires_reset (reference_valid : bool)
    (reference_gear target_gear : Z) (reference_speed_mps target_speed_mps : double) : bool :=
  negb reference_valid || negb (reference_gear =? target_gear) ||
  negb (chassis_finite reference_speed_mps) || negb (chassis_finite target_speed_mps) ||
  (d_abs (target_speed_mps ⊖ reference_speed_mps) >ᵈ SPEED_PID_SETPOINT_RESET_DEADBAND_MPS).

(** The guard of [speed_pid_step]. *)
Definition speed_pid_inputs_valid (config : SpeedPidConfig) (state : SpeedPidState)
    (target_speed_mps measured_speed_magnitude_mps traction_ceiling dt_seconds : double) : bool :=
  speed_pid_config_is_valid config && chassis_finite (pid_integral state) &&
  chassis_finite (pid_filtered_measurement_derivative state) &&
  chassis_finite (pid_previous_measurement state) &&
  ((pid_initialized state =? 0) || (pid_initialized state =? 1)) &&
  chassis_finite target_speed_mps && negb (target_speed_mps ≤ᵈ d_zero) &&
  chassis_finite measured_speed_magnitude_mps &&
  chassis_finite traction_ceiling && negb (traction_ceiling ≤ᵈ d_zero) &&
  chassis_finite dt_seconds && negb (dt_seconds ≤ᵈ d_zero) &&
  negb (dt_seconds ⊗ d_lit 1000 0 >ᵈ d_of_Z (pid_max_dt_ms config)).

(** [if (x < 0) x = 0; if (x > ceiling) x = ceiling;] *)
Definition pid_bound (ceiling x : double) : double :=
  let x := if x <ᵈ d_zero then d_zero else x in
  if x >ᵈ ceiling then ceiling else x.

(** The derivative term and the state that carries it. *)
Definition speed_pid_derivative (config : SpeedPidConfig) (state : SpeedPidState)
    (measured dt_seconds : double) : double * SpeedPidState :=
  if negb (pid_initialized state =? 0) then
    let raw_derivative := (measured ⊖ pid_previous_measurement state) ⊘ dt_seconds in
    let tau_seconds := pid_derivative_filter_tau_ms config ⊘ d_lit 1000 0 in
    let alpha := if tau_seconds ≤ᵈ d_zero then d_one
                 else dt_seconds ⊘ (tau_seconds ⊕ dt_seconds) in
    let filtered := pid_filtered_measurement_derivative state ⊕
      alpha ⊗ (raw_derivative ⊖ pid_filtered_measurement_derivative state) in
    (filtered, state <| pid_filtered_measurement_derivative := filtered |>)
  else (d_zero, state <| pid_initialized := 1 |>).

Definition speed_pid_step (config : SpeedPidConfig) (state : SpeedPidState)
    (target_speed_mps measured_speed_magnitude_mps traction_ceiling dt_seconds : double) :
    double * SpeedPidState :=
  if negb (speed_pid_inputs_valid config state target_speed_mps measured_speed_magnitude_mps
             traction_ceiling dt_seconds)
  then (d_zero, speed_pid_reset)
  else
    let traction_ceiling := if traction_ceiling >ᵈ d_one then d_one else traction_ceiling in
    let error := target_speed_mps ⊖ measured_speed_magnitude_mps in
    let '(derivative, state) :=
      speed_pid_derivative config state measured_speed_magnitude_mps dt_seconds in
    let state := state <| pid_previous_measurement := measured_speed_magnitude_mps |> in
    let state := state <| pid_integral ::= pid_bound traction_ceiling |> in
    let unconstrained := (pid_kp config ⊗ error ⊕ pid_integral state) ⊖
      (pid_kd config ⊗ derivative) in
    let saturated_high := unconstrained ≥ᵈ traction_ceiling in
    let saturated_low := unconstrained ≤ᵈ d_zero in
    let state :=
      if (negb saturated_high && negb saturated_low) || (saturated_high && (error <ᵈ d_zero)) ||
         (saturated_low && (error >ᵈ d_zero))
      then state <| pid_integral ::= fun i =>
                    pid_bound traction_ceiling (i ⊕ pid_ki config ⊗ error ⊗ dt_seconds) |>
      else state in
    let output := (pid_kp config ⊗ error ⊕ pid_integral state) ⊖ (pid_kd config ⊗ derivative) in
    (pid_bound traction_ceiling output, state).

(** ** Safety tests *)

Definition hard_overspeed (target_speed_mps measured_speed_mps margin_mps : double) : bool :=
  chassis_finite target_speed_mps && chassis_finite measured_speed_mps &&
  chassis_finite margin_mps && (target_speed_mps ≥ᵈ d_zero) && (margin_mps >ᵈ d_zero) &&
  (speed_magnitude_mps measured_speed_mps >ᵈ target_speed_mps ⊕ margin_mps).

Definition hard_overspeed_latch (already_latched : bool)
    (target_speed_mps measured_speed_mps margin_mps : double) : bool :=
  already_latched || hard_overspeed target_speed_mps measured_speed_mps margin_mps.

Definition control_watchdog_expired (active_control_state has_reference already_latched : bool)
    (elapsed_ms control_timeout_ms : Z) : bool :=
  active_control_state && has_reference && negb already_latched &&
  control_timeout_is_valid control_timeout_ms && (control_timeout_ms <=? elapsed_ms).

(** ** Bounds *)
Lemma pid_bound_range ceiling x :
  (d_zero ≤ᵈ ceiling) = true ->
  d_is_nan (pid_bound ceiling x) = true /\ d_is_nan x = true \/
  (d_zero ≤ᵈ pid_bound ceiling x) = true /\ (pid_bound ceiling x ≤ᵈ ceiling) = true.
Proof.
  intros Hc. unfold pid_bound.
  destruct (x <ᵈ d_zero) eqn:E1.
  - right. replace (ceiling <ᵈ d_zero) with false; [by split |].
    symmetry. by apply d_le_not_lt.
  - destruct (ceiling <ᵈ x) eqn:E2; [right; split; [done |] | ].
    { apply d_le_refl. by apply d_le_not_nan in Hc as []. }
    destruct (d_is_nan x) eqn:En; [by left | right].
    split; apply d_not_lt_le; try done. by apply d_le_not_nan in Hc as [].
Qed.

Lemma chassis_finite_not_nan x : chassis_finite x = true -> d_is_nan x = false.
Proof.
  unfold chassis_finite. rewrite !andb_true_iff. intros [_ H]. by apply d_le_not_nan in H as [].
Qed.

(** The ceiling in force. *)
Definition effective_ceiling (traction_ceiling : double) : double :=
  if traction_ceiling >ᵈ d_one then d_one else traction_ceiling.

Lemma effective_ceiling_range ceiling :
  chassis_finite ceiling = true -> (ceiling ≤ᵈ d_zero) = false ->
  (d_zero ≤ᵈ effective_ceiling ceiling) = true /\
  (effective_ceiling ceiling ≤ᵈ ceiling) = true /\ (effective_ceiling ceiling ≤ᵈ d_one) = true.
Proof.
  unfold chassis_finite, effective_ceiling. intros [[H1 H2]%andb_true_iff H3]%andb_true_iff H.
  destruct (d_le_not_nan _ _ H2) as [_ Hn].
  assert (H0 : (d_zero ≤ᵈ ceiling) = true).
  { apply d_not_lt_le; [done | done |]. apply not_true_iff_false. intros Hlt.
    apply d_lt_le in Hlt. congruence. }
  destruct (d_one <ᵈ ceiling) eqn:E.
  - split_and!; [reflexivity | by apply d_lt_le | reflexivity].
  - split_and!; [done | by apply d_le_refl | by apply d_not_lt_le].
Qed.

(** The speed PID is bounded.  Whatever its state and inputs, a step yields either
    NaN (which the caller treats as no traction) or an output between zero and both
    the ceiling and one, and leaves an integral that is NaN or in the same range;
    with an invalid configuration, state, target, measurement, ceiling or period
    the output is zero and the state is reset. *)
Theorem speed_pid_bounded (config : SpeedPidConfig) (state : SpeedPidState)
    (target measured ceiling dt : double) :
  let '(output, state') := speed_pid_step config state target measured ceiling dt in
  (speed_pid_inputs_valid config state target measured ceiling dt = false ->
   output = d_zero /\ state' = speed_pid_reset) /\
  (speed_pid_inputs_valid config state target measured ceiling dt = true ->
   (d_is_nan output = true \/
    (d_zero ≤ᵈ output) = true /\ (output ≤ᵈ ceiling) = true /\ (output ≤ᵈ d_one) = true) /\
   (d_is_nan (pid_integral state') = true \/
    (d_zero ≤ᵈ pid_integral state') = true /\ (pid_integral state' ≤ᵈ ceiling) = true) /\
   pid_previous_measurement state' = measured /\ pid_initialized state' = 1).
Proof.
  unfold speed_pid_step.
  destruct (speed_pid_inputs_valid _ _ _ _ _ _) eqn:Ev; cbn [negb]; cbv zeta; [| by split].
  assert (Hc : chassis_finite ceiling = true /\ (ceiling ≤ᵈ d_zero) = false /\
               ((pid_initialized state =? 0) || (pid_initialized state =? 1)) = true).
  { unfold speed_pid_inputs_valid in Ev. rewrite !andb_true_iff, !negb_true_iff in Ev.
    tauto. }
  destruct Hc as (Hf & Hp & Hi). destruct (effective_ceiling_range _ Hf Hp) as (H0 & H1 & H2).
  change (if d_one <ᵈ ceiling then d_one else ceiling) with (effective_ceiling ceiling).
  revert H0 H1 H2. generalize (effective_ceiling ceiling). intros c H0 H1 H2.
  assert (Hd : pid_initialized (speed_pid_derivative config state measured dt).2 = 1).
  { unfold speed_pid_derivative. destruct (pid_initialized state =? 0) eqn:E0; simpl; [done |].
    by apply orb_true_iff in Hi as [Hi | Hi%Z.eqb_eq]; [congruence |]. }
  destruct (speed_pid_derivative _ _ _ _) as [derivative state1]. cbn [snd] in Hd.
  split; [done | intros _].
  assert (Hb : forall x, d_is_nan (pid_bound c x) = true \/
            (d_zero ≤ᵈ pid_bound c x) = true /\ (pid_bound c x ≤ᵈ ceiling) = true /\
            (pid_bound c x ≤ᵈ d_one) = true).
  { intros x. destruct (pid_bound_range c x H0) as [[Hn _] | [Hl Hu]]; [by left | right].
    split_and!; [done | by apply (d_le_trans _ c) | by apply (d_le_trans _ c)]. }
  split; [apply Hb |].
  assert (Hb' : forall x, d_is_nan (pid_bound c x) = true \/
            (d_zero ≤ᵈ pid_bound c x) = true /\ (pid_bound c x ≤ᵈ ceiling) = true).
  { intros x. destruct (Hb x) as [? | (? & ? & _)]; auto. }
  destruct (_ || _ || _); (split; [apply Hb' | by split]).
Qed.

(** Torque rises at most at the configured rate and falls at once.  For a previous
    torque [p] that is not negative and a positive target [t], both finite: a target
    not above the previous torque is taken over unchanged, and so is every target
    when the rate is zero; otherwise the result is zero (a bad rate or period) or the
    smaller of the target and [p + rate * dt]. *)
Theorem torque_slew_exact (previous target rate dt : double) :
  let result := rise_limited_motor_torque_nm previous target rate dt in
  (result = d_zero \/ (result ≤ᵈ target) = true) /\
  (chassis_finite previous = true -> chassis_finite target = true ->
   (d_zero ≤ᵈ previous) = true -> (d_zero <ᵈ target) = true ->
   ((target ≤ᵈ previous) = true -> result = target) /\
   ((rate =ᵈ d_zero) = true -> result = target) /\
   ((target ≤ᵈ previous) = false -> (rate =ᵈ d_zero) = false ->
    result = d_zero \/ result = d_fmin target (previous ⊕ rate ⊗ dt))).
Proof.
  cbv zeta. unfold rise_limited_motor_torque_nm. split.
  - destruct (_ || _ || _ || _) eqn:E; [by left |]. right.
    assert (Hn : d_is_nan target = false).
    { rewrite !orb_false_iff, !negb_false_iff in E. destruct E as [[[_ E] _] _].
      by apply chassis_finite_not_nan. }
    destruct (target ≤ᵈ previous); [by apply d_le_refl |].
    destruct (rate =ᵈ d_zero); [by apply d_le_refl |].
    destruct (_ || _ || _ || _ || _) eqn:E2.
    + rewrite !orb_false_iff in E. destruct E as [_ E].
      destruct target as [[] | [] | | [] m e]; try done.
    + unfold d_fmin. rewrite Hn. destruct (d_is_nan (_ ⊕ _)); [by apply d_le_refl |].
      destruct (_ <ᵈ target) eqn:E3; [by apply d_lt_le | by apply d_le_refl].
  - intros Hp Ht H0 Hpos. rewrite Hp, Ht, (d_le_not_lt _ _ H0).
    replace (target ≤ᵈ d_zero) with false.
    2: { symmetry. apply not_true_iff_false. intros Hle.
         pose proof (d_lt_le_trans _ _ _ Hpos Hle) as Hc. by rewrite d_lt_irrefl in Hc. }
    cbn [negb orb]. split_and!.
    + by intros ->.
    + intros ->. by destruct (target ≤ᵈ previous).
    + intros -> ->. destruct (_ || _ || _ || _ || _); [by left | by right].
Qed.

(** The gear decides the direction.  Without a positive finite magnitude, and in
    every gear but reverse (2) and drive (3), the torque is zero; in drive it is the
    quantised magnitude capped at the largest encodable torque, in reverse its
    negation floored at the smallest. *)
Theorem torque_direction (gear : Z) (magnitude : double) :
  let torque := directional_motor_torque_nm gear magnitude in
  ((d_zero <ᵈ magnitude) = false -> torque = d_zero) /\
  (gear <> 2 -> gear <> 3 -> torque = d_zero) /\
  (chassis_finite magnitude = true -> (d_zero <ᵈ magnitude) = true ->
   let quantized := quantize_toward_zero magnitude MOTOR_TORQUE_RESOLUTION_NM in
   (gear = 3 -> torque = quantized \/ torque = MAX_DBC_MOTOR_TORQUE_NM) /\
   (gear = 2 -> torque = d_neg quantized \/ torque = MIN_DBC_MOTOR_TORQUE_NM)).
Proof.
  cbv zeta. unfold directional_motor_torque_nm. split_and!.
  - intros H. destruct (chassis_finite magnitude) eqn:Ef; [| done]. cbn [negb orb].
    replace (magnitude ≤ᵈ d_zero) with true; [done |]. symmetry.
    apply d_not_lt_le; [done | by apply chassis_finite_not_nan | done].
  - intros H2%Z.eqb_neq H3%Z.eqb_neq. rewrite H2, H3. by destruct (_ || _).
  - intros -> Hpos. replace (magnitude ≤ᵈ d_zero) with false.
    2: { symmetry. apply not_true_iff_false. intros Hle.
         pose proof (d_lt_le_trans _ _ _ Hpos Hle) as Hc. by rewrite d_lt_irrefl in Hc. }
    cbn [negb orb]. split; intros ->; simpl.
    + destruct (MAX_DBC_MOTOR_TORQUE_NM <ᵈ _); auto.
    + destruct (_ <ᵈ MIN_DBC_MOTOR_TORQUE_NM); auto.
Qed.
