(* ===== verification/ChassisBridge.v ===== *)
(** ChassisBridge: the runtime of the chassis control bridge
    (deployments/chassis-control-bridge/chassis_control_bridge.cpp, class
    BridgeRuntime): its state, feedback bookkeeping, stop provenance, the calls of
    the vehicle process and the runtime control profiles.  The control cycle of the
    I/O thread is in ChassisCycle.v, the exported C functions are in ChassisApi.v.

    Every public member function takes the runtime's mutex for its whole body, and
    so does every block of the I/O loop that touches the state, so a run is a
    sequence of these functions.  Time is the steady clock in nanoseconds, an
    argument of the functions that read it.  The protocol log is not modelled, nor
    are the members that only rate-limit or label it. *)
From S2P Require Export Adapter SpeedControl Vcu.

(** ** Constants *)

Definition kFeedbackTimeoutSeconds : double := d_lit 5 1.
Definition kAutomaticParkingBrakePressureBar : double := d_lit 100 0.
Definition kCriticalFeedbackIds : list Z :=
  [0x18F0F5D0; 0x18F2F5D0; 0x18F3F5D0; 0x18F5F5D0; 0x18CFF4D0;
   0x18A0F4D0; 0x18A3F4D0; 0x18A6F4D0; 0x18A9F4D0;
   0x18ACF4D0; 0x18AFF4D0; 0x18B2F4D0; 0x18B5F4D0;
   0x18A1F4D0; 0x18A4F4D0; 0x18A7F4D0; 0x18AAF4D0;
   0x18ADF4D0; 0x18B0F4D0; 0x18B3F4D0; 0x18B6F4D0;
   0x18C0F4D0; 0x18C1F4D0; 0x18C2F4D0; 0x18C3F4D0;
   0x18C8F4D0; 0x18C9F4D0; 0x18CAF4D0; 0x18CBF4D0].

(** The tolerance of the limit comparisons, [1e-9]. *)
Definition d_nano : double := d_lit 1 9.
Definition d_tenth : double := d_lit 1 1.

(** Errors as negated [errno] values. *)
Definition EIO : Z := 5.
Definition EFAULT : Z := 14.
Definition ETIMEDOUT : Z := 110.

(** [MineTeleopChassisApplyIssueV1] *)
Definition APPLY_ISSUE_NONE : Z := 0.
Definition APPLY_ISSUE_GENERIC_REJECTED : Z := 1.
Definition APPLY_ISSUE_RUNTIME_UNAVAILABLE : Z := 2.
Definition APPLY_ISSUE_PHYSICAL_EMERGENCY_LATCHED : Z := 3.
Definition APPLY_ISSUE_HARD_OVERSPEED_LATCHED : Z := 4.
Definition APPLY_ISSUE_DRIVE_GEAR_CHANGE_MOVING_OR_STALE : Z := 5.
Definition APPLY_ISSUE_ARGUMENTS_INVALID : Z := 6.

(** [MineTeleopChassisRuntimeControlIssueV1] *)
Definition RUNTIME_CONTROL_ISSUE_NONE : Z := 0.
Definition RUNTIME_CONTROL_ISSUE_GENERIC_REJECTED : Z := 1.
Definition RUNTIME_CONTROL_ISSUE_RUNTIME_UNAVAILABLE : Z := 2.
Definition RUNTIME_CONTROL_ISSUE_ARGUMENTS_INVALID : Z := 3.
Definition RUNTIME_CONTROL_ISSUE_PARKING_REQUIRED : Z := 4.
Definition RUNTIME_CONTROL_ISSUE_STALE_REVISION : Z := 5.

(** ** Stop sources and reasons *)

Definition STOP_SOURCE_NONE : Z := 0.
Definition STOP_SOURCE_DRIVER_PAGE : Z := 1.
Definition STOP_SOURCE_SESSION : Z := 2.
Definition STOP_SOURCE_WATCHDOG : Z := 3.
Definition STOP_SOURCE_SOFTWARE_FAULT : Z := 4.
Definition STOP_SOURCE_PHYSICAL_EMERGENCY : Z := 5.
Definition STOP_SOURCE_UNKNOWN : Z := 255.

Definition STOP_REASON_NONE : Z := 0.
Definition STOP_REASON_OPERATOR_ESTOP : Z := 1.
Definition STOP_REASON_VCU_HANDSHAKE_DISCONNECT : Z := 2.
Definition STOP_REASON_SESSION_LOST : Z := 4.
Definition STOP_REASON_CONTROL_APPLY_TIMEOUT : Z := 5.
Definition STOP_REASON_FEEDBACK_TIMEOUT : Z := 7.
Definition STOP_REASON_CONTROL_APPLY_FAILED : Z := 8.
Definition STOP_REASON_CHASSIS_CONTROL_FAULT : Z := 9.
Definition STOP_REASON_CAN_RECEIVE_FAILED : Z := 10.
Definition STOP_REASON_CAN_SEND_FAILED : Z := 11.
Definition STOP_REASON_IO_THREAD_EXCEPTION : Z := 12.
Definition STOP_REASON_HARD_OVERSPEED : Z := 13.
Definition STOP_REASON_ARMING_MOTION : Z := 15.
Definition STOP_REASON_CONTROL_COMMAND_INVALID : Z := 16.
Definition STOP_REASON_PHYSICAL_EMERGENCY_SWITCH : Z := 17.
Definition STOP_REASON_HANDSHAKE_REVOKED : Z := 18.
Definition STOP_REASON_VCU_STATE_FAULT : Z := 21.
Definition STOP_REASON_LEGACY_UNSPECIFIED : Z := 255.

(** The values the two [switch] statements list: 0-5 and 255, 0-24 and 255. *)
Definition valid_stop_source (value : Z) : bool :=
  existsb (Z.eqb value) [0; 1; 2; 3; 4; 5; 255].

Definition valid_stop_reason (value : Z) : bool :=
  existsb (Z.eqb value)
    [0; 1; 2; 3; 4; 5; 6; 7; 8; 9; 10; 11; 12; 13; 14; 15; 16; 17; 18; 19; 20; 21; 22; 23; 24; 255].

(** ** Phases *)

Definition handshake_state_code (state : VcuState) : Z :=
  match state with
  | Standby => 0 | Initial => 1 | WaitParallelHandshake => 2 | WaitParkingBrakeReleased => 3
  | WaitGear => 4 | WaitActuatorModes => 5 | Ready => 6 | DisarmTorque => 7 | DisarmStop => 8
  | DisarmNeutral => 9 | DisarmParkingBrake => 10 | DisarmManual => 11 | Disarmed => 12
  | VcuFault => 13
  end.

Definition is_disarming (state : VcuState) : bool :=
  state_in state [DisarmTorque; DisarmStop; DisarmNeutral; DisarmParkingBrake; DisarmManual].

Definition speed_safety_active_state (state : VcuState) : bool :=
  state_in state [WaitGear; WaitActuatorModes; Ready].

Definition stationary_arming_state (state : VcuState) : bool :=
  state_in state [WaitParkingBrakeReleased; WaitGear; WaitActuatorModes].

(** [std::max(minimum, std::min(maximum, value))] *)
Definition clamp_value (value minimum maximum : double) : double :=
  d_max minimum (d_min maximum value).

(** ** State *)

Record SpeedControlSettings := mkSpeedControlSettings {
  sc_enabled : bool;
  sc_hard_speed_limit_mps : double;
  sc_speed_feedback_timeout_ms : Z;
  sc_pid : SpeedPidConfig;
  sc_hard_overspeed_margin_mps : double;
  sc_motor_torque_rise_rate_nm_per_s : double;
}.

#[global] Instance eta_SpeedControlSettings : Settable SpeedControlSettings :=
  fields! mkSpeedControlSettings
    <sc_enabled; sc_hard_speed_limit_mps; sc_speed_feedback_timeout_ms; sc_pid;
     sc_hard_overspeed_margin_mps; sc_motor_torque_rise_rate_nm_per_s>.

Definition SpeedControlSettings_default : SpeedControlSettings :=
  mkSpeedControlSettings false d_zero MAX_SPEED_FEEDBACK_TIMEOUT_MS
    (mkSpeedPidConfig d_one d_zero d_zero d_zero 100) d_one DEFAULT_MOTOR_TORQUE_RISE_RATE.

Record RuntimeControlSettings := mkRuntimeControlSettings {
  rc_parking_idle_timeout_ms : Z;
  rc_active : bool;
  rc_revision : Z;
  rc_target_speed_limit_mps : double;
  rc_max_motor_torque_nm : double;
  rc_max_brake_pressure_bar : double;
  rc_max_steering_request : double;
  rc_motor_torque_rise_rate_nm_per_s : double;
}.

#[global] Instance eta_RuntimeControlSettings : Settable RuntimeControlSettings :=
  fields! mkRuntimeControlSettings
    <rc_parking_idle_timeout_ms; rc_active; rc_revision; rc_target_speed_limit_mps;
     rc_max_motor_torque_nm; rc_max_brake_pressure_bar; rc_max_steering_request;
     rc_motor_torque_rise_rate_nm_per_s>.

Definition RuntimeControlSettings_default : RuntimeControlSettings :=
  mkRuntimeControlSettings (-1) false 0 d_zero d_zero d_zero d_zero
    DEFAULT_MOTOR_TORQUE_RISE_RATE.

Record ControlIntent := mkControlIntent {
  ci_gear : Z;
  ci_target_speed_mps : double;
  ci_normalized_longitudinal : double;
  ci_steering : list double;  (* kSteeringAxisCount values *)
  ci_generation : Z;
}.

#[global] Instance eta_ControlIntent : Settable ControlIntent :=
  fields! mkControlIntent
    <ci_gear; ci_target_speed_mps; ci_normalized_longitudinal; ci_steering; ci_generation>.

Definition ControlIntent_default : ControlIntent :=
  mkControlIntent 1 d_zero d_zero (zeros kSteeringAxisCount) 0.

Record StopContext := mkStopContext {
  stop_ctx_source : Z;
  stop_ctx_reason : Z;
}.

Definition StopContext_default : StopContext := mkStopContext STOP_SOURCE_NONE STOP_REASON_NONE.

(** [MineTeleopChassisFeedback] *)
Record ChassisFeedback := mkChassisFeedback {
  cf_shake_hand_status : Z;
  cf_epb_status : list Z;
  cf_gear_status : Z;
  cf_mcu_mode : list Z;
  cf_eps_mode : list Z;
  cf_eps_angle : list double;
  cf_ehb_mode : list Z;
  cf_vehicle_speed : double;
  cf_vehicle_speed_valid : Z;
  cf_driver_gear_request : Z;
  cf_driver_gear_request_valid : Z;
}.

(** Members of [BridgeRuntime] and, last, the locals of [io_loop_impl] that live
    from one cycle to the next. *)
Record BridgeRuntime := mkBridgeRuntime {
  rt_full_scale_motor_torque_nm : double;
  rt_control_timeout_ms : Z;
  rt_open_speed_control : SpeedControlSettings;
  rt_speed_control : SpeedControlSettings;
  rt_runtime_control : RuntimeControlSettings;
  rt_physical_brake_input : bool;
  rt_max_ordinary_brake_pressure_bar : double;
  rt_controller : ParallelController;
  rt_running : bool;
  rt_last_seen : gmap Z Z;
  rt_feedback_generation : Z;
  rt_last_polled_generation : Z;
  rt_io_error : Z;
  rt_software_estop : bool;
  rt_operator_idle : OperatorIdleParking;
  rt_last_successful_apply : Z;
  rt_ready_since : Z;
  rt_last_successful_apply_valid : bool;
  rt_ready_since_valid : bool;
  rt_session_ready_latched : bool;
  rt_feedback_watchdog_armed : bool;
  rt_arming_feedback_state_entry : Z;
  rt_arming_feedback_state : VcuState;
  rt_arming_feedback_deadline_valid : bool;
  rt_control_watchdog_latched : bool;
  rt_hard_overspeed_latched : bool;
  rt_physical_emergency_reported : bool;
  rt_handshake_revoked_reported : bool;
  rt_recoverable_arming_timeout : bool;
  rt_chassis_control_fault_latched : bool;
  rt_clear_soft_stop_requested : bool;
  rt_pending_stop_context : StopContext;
  rt_stop_source : Z;
  rt_stop_reason : Z;
  rt_stop_sequence : Z;
  rt_latest_intent : ControlIntent;
  rt_latest_intent_valid : bool;
  rt_gear_rejection_latched : bool;
  rt_gear_rejection_retained_gear : Z;
  rt_intent_generation : Z;
  rt_speed_pid_state : SpeedPidState;
  rt_speed_pid_reference_valid : bool;
  rt_speed_pid_gear : Z;
  rt_speed_pid_target_mps : double;
  rt_last_traction_torque_magnitude_nm : double;
  rt_last_traction_gear : Z;
  rt_last_feedback : ChassisFeedback;
  rt_telemetry : BridgeTelemetry;
  rt_last_control_tick : option Z;
  rt_consecutive_send_failures : Z;
}.

#[global] Instance eta_BridgeRuntime : Settable BridgeRuntime :=
  fields! mkBridgeRuntime
    <rt_full_scale_motor_torque_nm; rt_control_timeout_ms; rt_open_speed_control;
     rt_speed_control; rt_runtime_control; rt_physical_brake_input;
     rt_max_ordinary_brake_pressure_bar; rt_controller; rt_running; rt_last_seen;
     rt_feedback_generation; rt_last_polled_generation; rt_io_error; rt_software_estop;
     rt_operator_idle; rt_last_successful_apply; rt_ready_since;
     rt_last_successful_apply_valid; rt_ready_since_valid; rt_session_ready_latched;
     rt_feedback_watchdog_armed; rt_arming_feedback_state_entry; rt_arming_feedback_state;
     rt_arming_feedback_deadline_valid; rt_control_watchdog_latched;
     rt_hard_overspeed_latched; rt_physical_emergency_reported;
     rt_handshake_revoked_reported; rt_recoverable_arming_timeout;
     rt_chassis_control_fault_latched; rt_clear_soft_stop_requested;
     rt_pending_stop_context; rt_stop_source; rt_stop_reason; rt_stop_sequence;
     rt_latest_intent; rt_latest_intent_valid; rt_gear_rejection_latched;
     rt_gear_rejection_retained_gear; rt_intent_generation; rt_speed_pid_state;
     rt_speed_pid_reference_valid; rt_speed_pid_gear; rt_speed_pid_target_mps;
     rt_last_traction_torque_magnitude_nm; rt_last_traction_gear; rt_last_feedback;
     rt_telemetry; rt_last_control_tick; rt_consecutive_send_failures>.

#[global] Instance eta_BridgeTelemetry : Settable BridgeTelemetry :=
  fields! mkBridgeTelemetry
    <bt_speed_mps; bt_gear; bt_steering_feedback; bt_throttle_feedback; bt_brake_feedback;
     bt_estop; bt_stop_source; bt_stop_reason; bt_stop_sequence>.

(** The constructor and the members' initialisers. *)
Definition BridgeRuntime_new (full_scale_motor_torque_nm : double) (control_timeout_ms : Z)
    (speed_control : SpeedControlSettings) (physical_brake_input : bool)
    (max_ordinary_brake_pressure_bar : double) : BridgeRuntime :=
  mkBridgeRuntime full_scale_motor_torque_nm control_timeout_ms speed_control speed_control
    RuntimeControlSettings_default physical_brake_input max_ordinary_brake_pressure_bar
    ParallelController_reset false ∅ 0 0 0 false OperatorIdleParking_reset 0 0 false false false
    false 0 Standby false false false false false false false false StopContext_default
    STOP_SOURCE_NONE STOP_REASON_NONE 0 ControlIntent_default false false 1 0 speed_pid_reset
    false 1 d_zero d_zero 1
    (mkChassisFeedback 0 [0; 0; 0; 0] 0 (repeat 0 8%nat) (repeat 0 4%nat) (repeat S754_nan 4%nat)
       (repeat 0 8%nat) d_zero 0 0 0)
    (mkBridgeTelemetry d_zero 1 d_zero d_zero d_zero 0 STOP_SOURCE_NONE STOP_REASON_NONE 0)
    None 0.

(** ** Small helpers *)

(** [duration<double>(ns).count()] and [duration_cast<milliseconds>(ns).count()] *)
Definition duration_seconds (ns : Z) : double := d_of_Z ns ⊘ d_of_Z 1000000000.
Definition duration_ms (ns : Z) : Z := Z.quot ns 1000000.

Definition on_controller (f : ParallelController -> ParallelController) (s : BridgeRuntime) :
    BridgeRuntime :=
  s <| rt_controller ::= f |>.

Definition controller_feedback (s : BridgeRuntime) : VcuFeedback :=
  ctl_feedback (rt_controller s).

(** [++intent_generation_] *)
Definition next_intent (s : BridgeRuntime) : BridgeRuntime :=
  s <| rt_intent_generation ::= fun n => u64 (n + 1) |>.

(** [gear_valid && 1 <= gear <= 3 ? gear : 1] *)
Definition reported_gear (s : BridgeRuntime) : Z :=
  let feedback := controller_feedback s in
  if fb_gear_valid feedback && (1 <=? fb_gear feedback) && (fb_gear feedback <=? 3)
  then fb_gear feedback else 1.

Definition reset_speed_pid (s : BridgeRuntime) : BridgeRuntime :=
  s <| rt_speed_pid_state := speed_pid_reset |> <| rt_speed_pid_reference_valid := false |>.

Definition reset_direct_traction (s : BridgeRuntime) : BridgeRuntime :=
  s <| rt_last_traction_torque_magnitude_nm := d_zero |> <| rt_last_traction_gear := 1 |>.

(** [latest_intent_.generation = ++intent_generation_] and the two resets. *)
Definition renew_intent (s : BridgeRuntime) : BridgeRuntime :=
  let s := next_intent s in
  let generation := rt_intent_generation s in
  reset_direct_traction (reset_speed_pid
    (s <| rt_latest_intent ::= fun i => i <| ci_generation := generation |> |>)).

Definition withdraw_latest_traction (s : BridgeRuntime) : BridgeRuntime :=
  let gear := reported_gear s in
  let s :=
    if rt_latest_intent_valid s then s
    else s <| rt_latest_intent ::= fun i => i <| ci_gear := gear |>
                                              <| ci_target_speed_mps := d_zero |> |>
           <| rt_latest_intent_valid := true |> in
  renew_intent
    (s <| rt_latest_intent ::= fun i => i <| ci_normalized_longitudinal := d_zero |> |>).

Definition hold_rejected_gear (requested_longitudinal : double) (s : BridgeRuntime) :
    BridgeRuntime :=
  let s :=
    if rt_latest_intent_valid s then s
    else s <| rt_latest_intent := ControlIntent_default |>
           <| rt_latest_intent_valid := true |> in
  let retained := rt_gear_rejection_retained_gear s in
  renew_intent
    (s <| rt_latest_intent ::= fun i =>
            i <| ci_gear := retained |> <| ci_target_speed_mps := d_zero |>
              <| ci_normalized_longitudinal := d_min d_zero requested_longitudinal |> |>).

(** ** Stop provenance *)

Definition latch_stop_provenance (source reason : Z) (s : BridgeRuntime) : BridgeRuntime :=
  let '(source, reason) :=
    if negb (valid_stop_source source) || negb (valid_stop_reason reason) ||
       (source =? STOP_SOURCE_NONE) || (reason =? STOP_REASON_NONE)
    then (STOP_SOURCE_UNKNOWN, STOP_REASON_LEGACY_UNSPECIFIED) else (source, reason) in
  let physical_override :=
    (source =? STOP_SOURCE_PHYSICAL_EMERGENCY) &&
    negb (rt_stop_source s =? STOP_SOURCE_PHYSICAL_EMERGENCY) in
  if negb (rt_stop_source s =? STOP_SOURCE_NONE) && negb physical_override then s
  else
    let sequence := u64 (rt_stop_sequence s + 1) in
    s <| rt_pending_stop_context := StopContext_default |>
      <| rt_stop_source := source |> <| rt_stop_reason := reason |>
      <| rt_stop_sequence := sequence |>
      <| rt_telemetry ::= fun t => t <| bt_stop_source := source |>
                                     <| bt_stop_reason := reason |>
                                     <| bt_stop_sequence := sequence |> |>.

Definition clear_stop_provenance (s : BridgeRuntime) : BridgeRuntime :=
  let s := s <| rt_pending_stop_context := StopContext_default |> in
  if rt_stop_source s =? STOP_SOURCE_NONE then s
  else
    let sequence := rt_stop_sequence s in
    s <| rt_stop_source := STOP_SOURCE_NONE |> <| rt_stop_reason := STOP_REASON_NONE |>
      <| rt_telemetry ::= fun t => t <| bt_stop_source := STOP_SOURCE_NONE |>
                                     <| bt_stop_reason := STOP_REASON_NONE |>
                                     <| bt_stop_sequence := sequence |> |>.

Definition consume_stop_context (default_source default_reason : Z) (s : BridgeRuntime) :
    StopContext * BridgeRuntime :=
  ((if stop_ctx_source (rt_pending_stop_context s) =? STOP_SOURCE_NONE
    then mkStopContext default_source default_reason else rt_pending_stop_context s),
   s <| rt_pending_stop_context := StopContext_default |>).

Definition set_stop_context (context : BridgeStopContextV1) (s : BridgeRuntime) :
    bool * BridgeRuntime :=
  let source := bsc_stop_source context in
  let reason := bsc_stop_reason context in
  let is_empty := (source =? STOP_SOURCE_NONE) && (reason =? STOP_REASON_NONE) in
  if negb (rt_running s) || negb (bsc_struct_size context =? sizeof_BridgeStopContextV1) ||
     negb (bsc_reserved context =? 0) || negb (valid_stop_source source) ||
     negb (valid_stop_reason reason) ||
     xorb (source =? STOP_SOURCE_NONE) (reason =? STOP_REASON_NONE) ||
     (source =? STOP_SOURCE_PHYSICAL_EMERGENCY) ||
     (reason =? STOP_REASON_PHYSICAL_EMERGENCY_SWITCH)
  then (false, s)
  else
    (true, s <| rt_pending_stop_context :=
                  if is_empty then StopContext_default else mkStopContext source reason |>).

(** Consume the pending context and latch it. *)
Definition latch_pending_stop (default_source default_reason : Z) (s : BridgeRuntime) :
    BridgeRuntime :=
  let '(context, s) := consume_stop_context default_source default_reason s in
  latch_stop_provenance (stop_ctx_source context) (stop_ctx_reason context) s.

(** ** Feedback *)

Definition feedback_fresh (now : Z) (s : BridgeRuntime) : bool :=
  forallb (fun id => match rt_last_seen s !! id with
                     | None => false
                     | Some seen =>
                         negb (duration_seconds (now - seen) >ᵈ kFeedbackTimeoutSeconds)
                     end) kCriticalFeedbackIds.

Definition feedback_id_fresh (id now : Z) (s : BridgeRuntime) : bool :=
  match rt_last_seen s !! id with
  | None => false
  | Some seen => duration_seconds (now - seen) ≤ᵈ kFeedbackTimeoutSeconds
  end.

Definition speed_feedback_fresh (now : Z) (s : BridgeRuntime) : bool :=
  let feedback := controller_feedback s in
  fb_speed_valid feedback && d_isfinite (fb_speed_mps feedback) &&
  match rt_last_seen s !! kWvcuVehicleSpeed with
  | None => false
  | Some seen =>
      duration_ms (now - seen) <=? sc_speed_feedback_timeout_ms (rt_speed_control s)
  end.

Definition gear_feedback_fresh (now : Z) (s : BridgeRuntime) : bool :=
  let feedback := controller_feedback s in
  fb_gear_valid feedback && (1 <=? fb_gear feedback) && (fb_gear feedback <=? 3) &&
  feedback_id_fresh kWvcuVehicleStatus now s.

Definition parking_gate_fresh (now : Z) (s : BridgeRuntime) : bool :=
  feedback_id_fresh kWvcuHandshake now s && feedback_id_fresh kWvcuDriverIntention now s &&
  feedback_id_fresh kWvcuVehicleSpeed now s && feedback_id_fresh kWvcuVehicleStatus now s &&
  feedback_id_fresh kWvcuParkingBrake now s.

Definition arming_feedback_fresh (state : VcuState) (now : Z) (s : BridgeRuntime) : bool :=
  match state with
  | WaitParkingBrakeReleased => parking_gate_fresh now s
  | WaitGear => parking_gate_fresh now s && feedback_id_fresh kWvcuVehicleStatus now s
  | WaitActuatorModes => feedback_fresh now s
  | _ => true
  end.

(** The measured speed is at most 0.1 m/s. *)
Definition speed_stopped (s : BridgeRuntime) : bool :=
  d_abs (fb_speed_mps (controller_feedback s)) ≤ᵈ d_tenth.

(** The largest of the valid values, not less than zero. *)
Definition max_valid (values : list double) (valid : list bool) : double :=
  foldl (fun best '(value, ok) => if (ok : bool) then d_max best value else best) d_zero
        (zip values valid).

Definition bool_int (b : bool) : Z := if b then 1 else 0.

Definition update_feedback_snapshot (s : BridgeRuntime) : BridgeRuntime :=
  let feedback := controller_feedback s in
  let estop := rt_software_estop s || negb (fb_emergency_switch feedback =? 0) in
  let source := rt_stop_source s in
  let reason := rt_stop_reason s in
  let sequence := rt_stop_sequence s in
  s <| rt_last_feedback :=
         mkChassisFeedback (fb_handshake_status feedback) (fb_parking_brake_status feedback)
           (fb_gear feedback) (fb_motor_mode feedback) (fb_steering_mode feedback)
           (map (fun '(angle, ok) => if (ok : bool) then angle else S754_nan)
              (zip (fb_steering_angle_deg feedback) (fb_steering_valid feedback)))
           (fb_brake_mode feedback) (fb_speed_mps feedback)
           (bool_int (fb_speed_valid feedback)) (fb_driver_gear_request feedback)
           (bool_int (fb_driver_gear_request_valid feedback)) |>
    <| rt_telemetry :=
         mkBridgeTelemetry
           (if fb_speed_valid feedback then fb_speed_mps feedback else d_zero)
           (if fb_gear_valid feedback then fb_gear feedback else 1)
           (if nth 0 (fb_steering_valid feedback) false
            then clamp_value (at_D (fb_steering_angle_deg feedback) 0 ⊘ d_lit 30 0)
                   (d_lit (-1) 0) d_one
            else d_zero)
           (clamp_value
              (max_valid (fb_motor_torque_nm feedback) (fb_motor_torque_valid feedback) ⊘
               kMotorTorqueMaximumNm) d_zero d_one)
           (clamp_value
              (max_valid (fb_brake_pressure_bar feedback) (fb_brake_valid feedback) ⊘
               d_lit 4095 1) d_zero d_one)
           (bool_int estop) (if estop then source else STOP_SOURCE_NONE)
           (if estop then reason else STOP_REASON_NONE) sequence |>.

(** [ingest_locked]: frames the controller does not know are only counted. *)
Definition ingest_locked (frame : CanFrame) (now : Z) (s : BridgeRuntime) : BridgeRuntime :=
  let '(known, controller) := ingest frame (rt_controller s) in
  let s := s <| rt_controller := controller |> in
  if negb known then s
  else
    let s :=
      if ctl_physical_emergency_latched controller
      then latch_stop_provenance STOP_SOURCE_PHYSICAL_EMERGENCY
             STOP_REASON_PHYSICAL_EMERGENCY_SWITCH s
      else s in
    update_feedback_snapshot
      (s <| rt_last_seen ::= <[can_id frame := now]> |>
         <| rt_feedback_generation ::= fun n => u64 (n + 1) |>).

(** ** Automatic parking and the recoverable timeout *)

Definition automatic_parking_enabled (s : BridgeRuntime) : bool :=
  (0 <=? rc_parking_idle_timeout_ms (rt_runtime_control s)) && rt_session_ready_latched s.

Definition automatic_parking_pressure_bar (s : BridgeRuntime) : double :=
  if rt_session_ready_latched s
  then d_min kAutomaticParkingBrakePressureBar (rt_max_ordinary_brake_pressure_bar s)
  else d_zero.

Definition arming_timeout_recovery_ready (now : Z) (s : BridgeRuntime) : bool :=
  rt_recoverable_arming_timeout s && (rt_io_error s =? - ETIMEDOUT) &&
  bool_decide (ctl_state (rt_controller s) = Disarmed) && parking_gate_fresh now s &&
  parking_ready (rt_controller s).

Definition recover_arming_timeout (s : BridgeRuntime) : BridgeRuntime :=
  s <| rt_io_error := 0 |> <| rt_recoverable_arming_timeout := false |>.

(** ** Intents *)

(** The three tests on an intent under an active profile. *)
Definition exceeds_runtime_profile (target_speed_mps normalized_longitudinal : double)
    (steering_values : list double) (steering_count : Z) (s : BridgeRuntime) : bool :=
  let control := rt_runtime_control s in
  let traction_limit :=
    if rt_full_scale_motor_torque_nm s >ᵈ d_zero
    then rc_max_motor_torque_nm control ⊘ rt_full_scale_motor_torque_nm s else d_zero in
  let checked_steering_count :=
    Z.max 0 (Z.min steering_count (Z.of_nat kSteeringAxisCount)) in
  let steering_exceeds_limit :=
    existsb (fun value => d_abs value >ᵈ rc_max_steering_request control ⊕ d_nano)
            (take (Z.to_nat checked_steering_count) steering_values) in
  (target_speed_mps >ᵈ rc_target_speed_limit_mps control ⊕ d_nano) ||
  (normalized_longitudinal >ᵈ traction_limit ⊕ d_nano) || steering_exceeds_limit.

(** The gear kept when a change is refused. *)
Definition retained_gear (s : BridgeRuntime) : Z :=
  let gear := ci_gear (rt_latest_intent s) in
  if rt_latest_intent_valid s && (1 <=? gear) && (gear <=? 3) then gear else reported_gear s.

(** The last lines of [store_intent]: the intent is taken over. *)
Definition accept_intent (now gear : Z) (target_speed_mps normalized_longitudinal : double)
    (steering_values : list double) (steering_count : Z) (operator_active : bool)
    (s : BridgeRuntime) : BridgeRuntime :=
  let copied := take (Z.to_nat (Z.min steering_count (Z.of_nat kSteeringAxisCount)))
                     steering_values in
  let s := next_intent s in
  let intent :=
    mkControlIntent gear target_speed_mps normalized_longitudinal
      (copied ++ drop (length copied) (zeros kSteeringAxisCount)) (rt_intent_generation s) in
  let active := operator_active && ready (rt_controller s) in
  s <| rt_operator_idle ::= observe active (duration_ms now) |>
    <| rt_latest_intent := intent |> <| rt_latest_intent_valid := true |>
    <| rt_last_successful_apply := now |> <| rt_last_successful_apply_valid := true |>
    <| rt_clear_soft_stop_requested := true |>.

(** A gear change needs the vehicle stopped, on fresh speed and gear feedback. *)
Definition gear_change_refused (now gear : Z) (s : BridgeRuntime) : bool :=
  (negb (rt_latest_intent_valid s) || negb (ci_gear (rt_latest_intent s) =? gear)) &&
  (negb (speed_feedback_fresh now s) || negb (gear_feedback_fresh now s) ||
   (d_abs (fb_speed_mps (controller_feedback s)) >ᵈ d_tenth)).

(** [store_intent]: the issue and the new state. *)
Definition store_intent (now gear : Z) (target_speed_mps normalized_longitudinal : double)
    (steering_values : list double) (steering_count : Z) (operator_active : bool)
    (s : BridgeRuntime) : Z * BridgeRuntime :=
  if negb (rt_running s) || negb (rt_io_error s =? 0)
  then (APPLY_ISSUE_RUNTIME_UNAVAILABLE, s)
  else if ctl_physical_emergency_latched (rt_controller s)
  then (APPLY_ISSUE_PHYSICAL_EMERGENCY_LATCHED, withdraw_latest_traction s)
  else if rt_hard_overspeed_latched s
  then (APPLY_ISSUE_HARD_OVERSPEED_LATCHED, withdraw_latest_traction s)
  else if (normalized_longitudinal >ᵈ d_zero) && negb (rc_active (rt_runtime_control s))
  then (APPLY_ISSUE_ARGUMENTS_INVALID, withdraw_latest_traction s)
  else if rc_active (rt_runtime_control s) &&
          exceeds_runtime_profile target_speed_mps normalized_longitudinal steering_values
            steering_count s
  then (APPLY_ISSUE_ARGUMENTS_INVALID, withdraw_latest_traction s)
  else
    (* [gear_changed] is computed before the retained gear is released *)
    let gear_refused := gear_change_refused now gear s in
    let retained_zero_output :=
      (gear =? rt_gear_rejection_retained_gear s) && (target_speed_mps ≤ᵈ d_nano) &&
      (normalized_longitudinal ≤ᵈ d_zero) in
    if rt_gear_rejection_latched s && negb retained_zero_output
    then (APPLY_ISSUE_DRIVE_GEAR_CHANGE_MOVING_OR_STALE,
          hold_rejected_gear normalized_longitudinal s)
    else
      let s := if rt_gear_rejection_latched s
               then s <| rt_gear_rejection_latched := false |> else s in
      if gear_refused
      then
        let retained := retained_gear s in
        (APPLY_ISSUE_DRIVE_GEAR_CHANGE_MOVING_OR_STALE,
         hold_rejected_gear normalized_longitudinal
           (s <| rt_gear_rejection_retained_gear := retained |>
              <| rt_gear_rejection_latched := true |>))
      else
        (APPLY_ISSUE_NONE,
         accept_intent now gear target_speed_mps normalized_longitudinal steering_values
           steering_count operator_active s).

(** ** Runtime control profiles *)

Definition pid_of_config (config : BridgeRuntimeControlConfigV3) : SpeedPidConfig :=
  mkSpeedPidConfig (brc_speed_pid_kp config) (brc_speed_pid_ki config)
    (brc_speed_pid_kd config) (brc_speed_pid_derivative_filter_tau_ms config)
    (brc_speed_pid_max_dt_ms config).

(** The arguments are within the bounds. *)
Definition runtime_control_arguments_valid (config : BridgeRuntimeControlConfigV3)
    (sizeof_config expected_profile_version : Z) (rise_rate : double) (s : BridgeRuntime) :
    bool :=
  (brc_struct_size config =? sizeof_config) &&
  (brc_profile_version config =? expected_profile_version) &&
  negb (brc_profile_revision config =? 0) && (brc_reserved config =? 0) &&
  d_isfinite (brc_target_speed_limit_mps config) &&
  negb (brc_target_speed_limit_mps config <ᵈ d_zero) &&
  negb (brc_target_speed_limit_mps config >ᵈ sc_hard_speed_limit_mps (rt_speed_control s)) &&
  d_isfinite (brc_max_motor_torque_nm config) &&
  negb (brc_max_motor_torque_nm config <ᵈ d_zero) &&
  negb (brc_max_motor_torque_nm config >ᵈ rt_full_scale_motor_torque_nm s) &&
  d_isfinite (brc_max_brake_pressure_bar config) &&
  negb (brc_max_brake_pressure_bar config <ᵈ d_zero) &&
  negb (brc_max_brake_pressure_bar config >ᵈ rt_max_ordinary_brake_pressure_bar s) &&
  d_isfinite (brc_max_steering_request config) &&
  negb (brc_max_steering_request config <ᵈ d_zero) &&
  negb (brc_max_steering_request config >ᵈ MAX_STEERING_REQUEST) &&
  d_isfinite rise_rate && negb (rise_rate <ᵈ d_zero) &&
  negb (rise_rate >ᵈ MAX_MOTOR_TORQUE_RISE_RATE) &&
  speed_pid_config_is_valid (pid_of_config config).

Definition pid_changed (pid current_pid : SpeedPidConfig) : bool :=
  (pid_kp pid ≠ᵈ pid_kp current_pid) || (pid_ki pid ≠ᵈ pid_ki current_pid) ||
  (pid_kd pid ≠ᵈ pid_kd current_pid) ||
  (pid_derivative_filter_tau_ms pid ≠ᵈ pid_derivative_filter_tau_ms current_pid) ||
  negb (pid_max_dt_ms pid =? pid_max_dt_ms current_pid).

(** The change widens a limit, or touches what may only change when parked. *)
Definition runtime_control_requires_parking (config : BridgeRuntimeControlConfigV3)
    (rise_rate : double) (parking_idle_timeout_ms : Z) (s : BridgeRuntime) : bool :=
  let control := rt_runtime_control s in
  negb (rc_active control) ||
  pid_changed (pid_of_config config) (sc_pid (rt_speed_control s)) ||
  (rise_rate ≠ᵈ sc_motor_torque_rise_rate_nm_per_s (rt_speed_control s)) ||
  negb (parking_idle_timeout_ms =? rc_parking_idle_timeout_ms control) ||
  (brc_target_speed_limit_mps config >ᵈ rc_target_speed_limit_mps control ⊕ d_nano) ||
  (brc_max_motor_torque_nm config >ᵈ rc_max_motor_torque_nm control ⊕ d_nano) ||
  (brc_max_brake_pressure_bar config ≠ᵈ rc_max_brake_pressure_bar control) ||
  (brc_max_steering_request config ≠ᵈ rc_max_steering_request control).

(** The new snapshot is installed and the old traction withdrawn. *)
Definition install_runtime_control (now : Z) (config : BridgeRuntimeControlConfigV3)
    (rise_rate : double) (parking_idle_timeout_ms : Z) (s : BridgeRuntime) : BridgeRuntime :=
  let next :=
    mkRuntimeControlSettings parking_idle_timeout_ms true (brc_profile_revision config)
      (brc_target_speed_limit_mps config) (brc_max_motor_torque_nm config)
      (brc_max_brake_pressure_bar config) (brc_max_steering_request config) rise_rate in
  let s := withdraw_latest_traction s in
  let s :=
    s <| rt_latest_intent ::= fun i => i <| ci_target_speed_mps := d_zero |> |>
      <| rt_speed_control ::= fun c =>
           c <| sc_pid := pid_of_config config |>
             <| sc_motor_torque_rise_rate_nm_per_s := rise_rate |> |>
      <| rt_runtime_control := next |>
      <| rt_operator_idle := OperatorIdleParking_reset |> in
  let stopped_fresh :=
    speed_feedback_fresh now s && feedback_fresh now s && speed_stopped s in
  on_controller
    (set_automatic_parking (automatic_parking_enabled s) true stopped_fresh
       (automatic_parking_pressure_bar s)) s.

(** [configure_runtime_control]: the issue, the applied revision, the new state. *)
Definition configure_runtime_control (now : Z) (config : BridgeRuntimeControlConfigV3)
    (sizeof_config expected_profile_version : Z) (has_session_rise_rate : bool)
    (session_rise_rate : double) (parking_idle_timeout_ms : Z) (s : BridgeRuntime) :
    Z * Z * BridgeRuntime :=
  let rise_rate :=
    if has_session_rise_rate then session_rise_rate
    else sc_motor_torque_rise_rate_nm_per_s (rt_open_speed_control s) in
  let recoverable := arming_timeout_recovery_ready now s in
  if negb (rt_running s) || (negb (rt_io_error s =? 0) && negb recoverable)
  then (RUNTIME_CONTROL_ISSUE_RUNTIME_UNAVAILABLE, 0, s)
  else if negb (runtime_control_arguments_valid config sizeof_config expected_profile_version
                  rise_rate s)
  then (RUNTIME_CONTROL_ISSUE_ARGUMENTS_INVALID, 0, s)
  else if rc_active (rt_runtime_control s) &&
          (brc_profile_revision config <=? rc_revision (rt_runtime_control s))
  then (RUNTIME_CONTROL_ISSUE_STALE_REVISION, 0, s)
  else if runtime_control_requires_parking config rise_rate parking_idle_timeout_ms s &&
          (negb (state_in (ctl_state (rt_controller s)) [Standby; Disarmed]) ||
           negb (parking_gate_fresh now s) || negb (parking_ready (rt_controller s)))
  then (RUNTIME_CONTROL_ISSUE_PARKING_REQUIRED, 0, s)
  else
    let s := if recoverable then recover_arming_timeout s else s in
    (RUNTIME_CONTROL_ISSUE_NONE, brc_profile_revision config,
     install_runtime_control now config rise_rate parking_idle_timeout_ms s).

(** Versions 1 and 2 have no fields after the ones they read here. *)
Definition configure_runtime_control_v1 (now : Z) (config : BridgeRuntimeControlConfigV3)
    (s : BridgeRuntime) : Z * Z * BridgeRuntime :=
  configure_runtime_control now config sizeof_BridgeRuntimeControlConfigV1 2 false d_zero (-1) s.

Definition configure_runtime_control_v2 (now : Z) (config : BridgeRuntimeControlConfigV3)
    (s : BridgeRuntime) : Z * Z * BridgeRuntime :=
  configure_runtime_control now config sizeof_BridgeRuntimeControlConfigV2 3 true
    (brc_motor_torque_rise_rate_nm_per_s config) (-1) s.

Definition configure_runtime_control_v3 (now : Z) (config : BridgeRuntimeControlConfigV3)
    (s : BridgeRuntime) : Z * Z * BridgeRuntime :=
  if negb (brc_struct_size config =? sizeof_BridgeRuntimeControlConfigV3) ||
     negb (brc_parking_reserved config =? 0) || (brc_parking_idle_timeout_ms config <? 0) ||
     (1000 <? brc_parking_idle_timeout_ms config)
  then (RUNTIME_CONTROL_ISSUE_ARGUMENTS_INVALID, 0, s)
  else configure_runtime_control now config sizeof_BridgeRuntimeControlConfigV3 4 true
         (brc_motor_torque_rise_rate_nm_per_s config) (brc_parking_idle_timeout_ms config) s.

Definition clear_runtime_control (s : BridgeRuntime) : Z * Z * BridgeRuntime :=
  let s := withdraw_latest_traction s in
  let open_control := rt_open_speed_control s in
  let parking_timeout := rc_parking_idle_timeout_ms (rt_runtime_control s) in
  (RUNTIME_CONTROL_ISSUE_NONE, 0,
   s <| rt_latest_intent ::= fun i => i <| ci_target_speed_mps := d_zero |> |>
     <| rt_speed_control ::= fun c =>
          c <| sc_pid := sc_pid open_control |>
            <| sc_motor_torque_rise_rate_nm_per_s :=
                 sc_motor_torque_rise_rate_nm_per_s open_control |> |>
     <| rt_runtime_control :=
          RuntimeControlSettings_default <| rc_parking_idle_timeout_ms := parking_timeout |> |>
     <| rt_operator_idle := OperatorIdleParking_reset |>).

(** ** Stops, handshake and parking *)

(** [emergency_stop]: whether the bridge runs, and the new state. *)
Definition bridge_emergency_stop (s : BridgeRuntime) : bool * BridgeRuntime :=
  if negb (rt_running s) then (false, s)
  else
    let s := latch_pending_stop STOP_SOURCE_UNKNOWN STOP_REASON_LEGACY_UNSPECIFIED s in
    let s := on_controller emergency_stop s in
    let s := s <| rt_clear_soft_stop_requested := false |> in
    let s := withdraw_latest_traction s in
    (true, s <| rt_software_estop := true |>).

(** The state is cleaned for a new session once the controller accepted. *)
Definition begin_session (s : BridgeRuntime) : BridgeRuntime :=
  let s := clear_stop_provenance s in
  let s :=
    s <| rt_last_successful_apply_valid := false |>
      <| rt_operator_idle := OperatorIdleParking_reset |> <| rt_ready_since_valid := false |>
      <| rt_session_ready_latched := false |> <| rt_feedback_watchdog_armed := false |>
      <| rt_arming_feedback_deadline_valid := false |>
      <| rt_control_watchdog_latched := false |> <| rt_hard_overspeed_latched := false |>
      <| rt_physical_emergency_reported := false |>
      <| rt_handshake_revoked_reported := false |>
      <| rt_recoverable_arming_timeout := false |> <| rt_gear_rejection_latched := false |>
      <| rt_gear_rejection_retained_gear := 1 |> <| rt_clear_soft_stop_requested := false |> in
  let s := next_intent s in
  let generation := rt_intent_generation s in
  let s := s <| rt_latest_intent := ControlIntent_default <| ci_generation := generation |> |>
             <| rt_latest_intent_valid := true |> in
  (reset_direct_traction (reset_speed_pid s)) <| rt_software_estop := false |>.

Definition hard_latch_recovery_ready (now : Z) (s : BridgeRuntime) : bool :=
  negb (rt_hard_overspeed_latched s) ||
  (bool_decide (ctl_state (rt_controller s) = Disarmed) && speed_feedback_fresh now s &&
   gear_feedback_fresh now s && (fb_gear (controller_feedback s) =? 1) && speed_stopped s).

Definition physical_latch_recovery_ready (now : Z) (s : BridgeRuntime) : bool :=
  negb (ctl_physical_emergency_latched (rt_controller s)) ||
  (state_in (ctl_state (rt_controller s)) [Disarmed; Standby] && speed_feedback_fresh now s &&
   gear_feedback_fresh now s && (fb_emergency_switch (controller_feedback s) =? 0) &&
   (fb_gear (controller_feedback s) =? 1) && speed_stopped s).

Definition bridge_request_parallel_handshake (now : Z) (s : BridgeRuntime) :
    bool * BridgeRuntime :=
  if negb (rt_running s) then (false, s)
  else
    let recoverable := arming_timeout_recovery_ready now s in
    if negb (rt_io_error s =? 0) && negb recoverable then (false, s)
    else if negb (parking_gate_fresh now s) || negb (parking_ready (rt_controller s)) ||
            negb (hard_latch_recovery_ready now s) || negb (physical_latch_recovery_ready now s)
    then (false, s)
    else
      let '(accepted, controller) := request_parallel_handshake (rt_controller s) in
      if negb accepted then (false, s)
      else
        let s := s <| rt_controller := controller |> in
        let s := if recoverable then recover_arming_timeout s else s in
        (true, begin_session s).

Definition request_park (s : BridgeRuntime) : bool * BridgeRuntime :=
  if negb (rt_running s) then (false, s)
  else
    let s := latch_pending_stop STOP_SOURCE_DRIVER_PAGE STOP_REASON_VCU_HANDSHAKE_DISCONNECT s in
    let s := s <| rt_gear_rejection_latched := false |>
               <| rt_gear_rejection_retained_gear := 1 |> in
    let s := on_controller request_disarm s in
    let s := withdraw_latest_traction s in
    (true, s <| rt_software_estop := true |>).

Definition fail_control_apply (s : BridgeRuntime) : BridgeRuntime :=
  let s := latch_stop_provenance STOP_SOURCE_SOFTWARE_FAULT STOP_REASON_CONTROL_APPLY_FAILED s in
  let s := on_controller emergency_stop s in
  let s := s <| rt_clear_soft_stop_requested := false |> in
  let s := withdraw_latest_traction s in
  s <| rt_software_estop := true |> <| rt_control_watchdog_latched := true |>.

(** [start]: the two commands are installed, then the protocol log and the CAN
    socket are opened; [log_opens] and [socket_opens] are what the system answers. *)
Definition bridge_start (log_opens socket_opens : bool) (initial emergency : VcuCommand)
    (s : BridgeRuntime) : Z * BridgeRuntime :=
  let '(ok1, c1) := set_command initial (rt_controller s) in
  let '(ok2, c2) := if ok1 then set_emergency_command emergency c1 else (false, c1) in
  let s := s <| rt_controller := c2 |> in
  if negb ok2 then (-2, s)
  else if negb log_opens then (-4, s)
  else if negb socket_opens then (-3, s)
  else (0, s <| rt_running := true |>).

(** The first block of [close]; the thread then waits for [disarmed], the
    15 s timeout or the end of the I/O thread. *)
Definition close_begin (s : BridgeRuntime) : BridgeRuntime :=
  let s := latch_pending_stop STOP_SOURCE_SESSION STOP_REASON_SESSION_LOST s in
  (on_controller request_disarm s) <| rt_software_estop := true |>.

Definition close_end (s : BridgeRuntime) : BridgeRuntime := s <| rt_running := false |>.

(** ** Reading the state *)

Definition bridge_poll (s : BridgeRuntime) : Z * ChassisFeedback * BridgeRuntime :=
  let feedback := rt_last_feedback s in
  if negb (rt_running s) then (-2, feedback, s)
  else if negb (rt_io_error s =? 0) then (rt_io_error s, feedback, s)
  else if negb (ready (rt_controller s)) || negb (feedback_complete (rt_controller s))
  then (1, feedback, s)
  else if rt_last_polled_generation s =? rt_feedback_generation s then (1, feedback, s)
  else (0, feedback, s <| rt_last_polled_generation := rt_feedback_generation s |>).

Definition bridge_handshake_status (now : Z) (s : BridgeRuntime) : BridgeHandshakeStatus :=
  let controller := rt_controller s in
  let state := ctl_state controller in
  let feedback := controller_feedback s in
  mkBridgeHandshakeStatus (handshake_state_code state)
    (bool_int (handshake_requested controller)) (bool_int (ready controller))
    (bool_int (is_disarming state))
    (bool_int (parking_gate_fresh now s && parking_ready controller))
    (fb_driver_gear_request feedback) (bool_int (fb_driver_gear_request_valid feedback))
    (fb_handshake_status feedback) (bool_int (fb_handshake_valid feedback))
    (fb_parking_brake_status feedback) (map bool_int (fb_parking_brake_valid feedback))
    (fb_speed_mps feedback) (bool_int (fb_speed_valid feedback))
    (bool_int (ctl_handshake_revoked controller)) (ctl_revoked_handshake_status controller)
    (fb_vmc_fault_code feedback) (bool_int (fb_vmc_fault_code_valid feedback))
    (fb_parking_brake_switch feedback) (bool_int (fb_parking_brake_switch_valid feedback))
    (fb_brake_pedal_switch feedback) (bool_int (fb_brake_pedal_switch_valid feedback)).

(** The loop over the critical identifiers: the largest age, -1 for a missing one. *)
Fixpoint max_feedback_age (now best : Z) (ids : list Z) (seen : gmap Z Z) : Z :=
  match ids with
  | [] => best
  | id :: ids =>
      match seen !! id with
      | None => -1
      | Some t => max_feedback_age now (Z.max best (duration_ms (now - t))) ids seen
      end
  end.

Definition bridge_can_feedback (now : Z) (s : BridgeRuntime) : BridgeCanFeedbackV1 :=
  let feedback := controller_feedback s in
  mkBridgeCanFeedbackV1 (bool_int (feedback_fresh now s))
    (max_feedback_age now 0 kCriticalFeedbackIds (rt_last_seen s))
    (fb_speed_mps feedback) (bool_int (fb_speed_valid feedback))
    (fb_gear feedback) (bool_int (fb_gear_valid feedback)) (fb_emergency_switch feedback)
    (fb_driver_gear_request feedback) (bool_int (fb_driver_gear_request_valid feedback))
    (fb_handshake_status feedback) (bool_int (fb_handshake_valid feedback))
    (fb_parking_brake_status feedback) (map bool_int (fb_parking_brake_valid feedback))
    (fb_motor_mode feedback) (map bool_int (fb_motor_mode_valid feedback))
    (fb_motor_torque_nm feedback) (map bool_int (fb_motor_torque_valid feedback))
    (fb_motor_speed_rpm feedback) (map bool_int (fb_motor_speed_valid feedback))
    (fb_steering_mode feedback) (map bool_int (fb_steering_valid feedback))
    (fb_steering_angle_deg feedback) (fb_brake_mode feedback)
    (map bool_int (fb_brake_valid feedback)) (fb_brake_pressure_bar feedback)
    (fb_vmc_fault_code feedback) (bool_int (fb_vmc_fault_code_valid feedback))
    (fb_parking_brake_switch feedback) (bool_int (fb_parking_brake_switch_valid feedback))
    (fb_brake_pedal_switch feedback) (bool_int (fb_brake_pedal_switch_valid feedback)).

(** ** Injected feedback *)

(** A frame with the given bytes set, the others zero. *)
Definition frame_with (id : Z) (bytes : list (nat * Z)) : CanFrame :=
  (CanFrame_of_id id) <| can_data ::= fun data =>
    foldl (fun data '(index, byte) => <[index := byte]> data) data bytes |>.

Definition inject_motor (feedback : ChassisFeedback) (index : nat) : list CanFrame :=
  [frame_with (at_Z kMotorStatus02Ids index)
     [(0%nat, u8 (Z.shiftl (Z.land (at_Z (cf_mcu_mode feedback) index) 15) 4))];
   frame_with (at_Z kMotorStatus01Ids index) [(2%nat, 0); (3%nat, 0x7D)]].

Definition inject_steering (feedback : ChassisFeedback) (index : nat) : CanFrame :=
  let angle := at_D (cf_eps_angle feedback) index in
  let angle :=
    if d_isfinite angle then clamp_value angle (d_lit (-1575) 0) (d_lit 1575 0) else d_zero in
  let raw := d_llround ((angle ⊕ d_lit 1575 0) ⊘ d_tenth) mod 2 ^ 16 in
  frame_with (at_Z kSteeringStatusIds index)
    [(0%nat, u8 (at_Z (cf_eps_mode feedback) index)); (1%nat, Z.land raw 255);
     (2%nat, Z.land (Z.shiftr raw 8) 255)].

Definition inject_brake (feedback : ChassisFeedback) (pair : nat) : CanFrame :=
  frame_with (at_Z kBrakeStatusIds pair)
    [(0%nat, u8 (at_Z (cf_ehb_mode feedback) (pair * 2)));
     (4%nat, u8 (at_Z (cf_ehb_mode feedback) (pair * 2 + 1)))].

Definition inject_speed (feedback : ChassisFeedback) : list CanFrame :=
  if cf_vehicle_speed_valid feedback =? 0 then []
  else
    let speed_kph :=
      clamp_value (cf_vehicle_speed feedback ⊗ d_lit 36 1) (d_lit (-500) 0) (d_lit 60535 1) in
    let raw := d_llround ((speed_kph ⊕ d_lit 500 0) ⊘ d_tenth) mod 2 ^ 16 in
    [frame_with kWvcuVehicleSpeed
       [(0%nat, Z.land raw 255); (1%nat, Z.land (Z.shiftr raw 8) 255)]].

Definition inject_selector (feedback : ChassisFeedback) : list CanFrame :=
  if cf_driver_gear_request_valid feedback =? 0 then []
  else [frame_with kWvcuDriverIntention
          [(7%nat, u8 (Z.shiftl (Z.land (cf_driver_gear_request feedback) 7) 1))]].

(** The frames [inject] builds, in its order. *)
Definition inject_frames (feedback : ChassisFeedback) : list CanFrame :=
  [frame_with kWvcuHandshake [(1%nat, u8 (cf_shake_hand_status feedback))];
   frame_with kWvcuVehicleStatus
     [(0%nat, u8 (Z.shiftl (Z.land (cf_gear_status feedback) 3) 2))];
   frame_with kWvcuParkingBrake
     (map (fun index => ((index * 2)%nat, u8 (at_Z (cf_epb_status feedback) index)))
        (seq 0 kParkingBrakeCount))] ++
  concat (map (inject_motor feedback) (seq 0 kMotorCount)) ++
  map (inject_steering feedback) (seq 0 kSteeringAxisCount) ++
  map (inject_brake feedback) (seq 0 kSteeringAxisCount) ++
  inject_speed feedback ++ inject_selector feedback.

(** [ingest_locked] reads the clock for every frame: [clock k] at the [k]-th. *)
Definition inject (feedback : ChassisFeedback) (clock : nat -> Z) (s : BridgeRuntime) :
    BridgeRuntime :=
  foldl (fun s '(k, frame) => ingest_locked frame (clock k) s) s
        (zip (seq 0 (length (inject_frames feedback))) (inject_frames feedback)).
