(* ===== verification/ChassisCycle.v ===== *)
(** ChassisCycle: the control cycle of the bridge's I/O thread
    (chassis_control_bridge.cpp: update_command_from_intent_locked, the watchdogs
    and io_loop_impl).

    A pass of the loop drains the CAN socket (one [ingest_locked] per frame), runs
    one cycle under the mutex ([control_cycle]) and sends the sixteen frames
    ([send_result]).  ChassisControl, the vendor's library, is a parameter of the
    cycle: what [UpdateVehicleState] and [GetControlInfo] answer to the vehicle
    state they are given.

    The blocks of [update_command_from_intent_locked] are functions on the state;
    the constants it computes first are the record [CycleInputs]. *)
From S2P Require Export ChassisBridge.

(** ** ChassisControl *)

(** [static_cast<float>], read back as a double. *)
Definition d_to_float (x : double) : double :=
  match x with
  | S754_finite s m e => binary_normalize 24 128 (cond_Zopp s (Zpos m)) e s
  | _ => x
  end.

(** [clamp_float(value, minimum, maximum)] *)
Definition clamp_float (value minimum maximum : double) : double :=
  d_to_float (clamp_value value minimum maximum).

(** The members of [VehicleState] that vary. *)
Record VehicleState := mkVehicleState {
  vs_cur_velocity : double;
  vs_target_velocity : double;
  vs_target_acceleration : double;
  vs_target_gear : Z;
  vs_target_steering_angle : list double;
}.

(** The members of the vendor's wheel control the bridge reads. *)
Record WheelControl := mkWheelControl {
  wc_wheel_torque : double;
  wc_wheel_speed : double;
  wc_eps_ang_req : double;
  wc_eps_ang_spd_req : double;
  wc_ehb_brk_pres_req : double;
}.

(** [UpdateVehicleState] fails, something throws, or [GetControlInfo] answers. *)
Inductive ChassisAnswer : Type :=
| UpdateRefused
| ChassisThrows
| Controls (controls : list WheelControl).

Definition kMaxSteeringAngleRad : double := d_lit 5235987755982988 16.
Definition kRadiansToDegrees : double := d_lit 5729577951308232 14.

Definition make_vehicle_state (current_speed_mps : double) (target_gear : Z)
    (target_vx target_ax : double) (steering_values : list double) : VehicleState :=
  let angle axis :=
    d_to_float (clamp_value (at_D steering_values axis) (d_lit (-1) 0) d_one ⊗
                kMaxSteeringAngleRad) in
  let axis_count := Nat.min (length steering_values) kSteeringAxisCount in
  let angles := concat (map (fun axis => [angle axis; angle axis]) (seq 0 axis_count)) in
  mkVehicleState
    (clamp_float (speed_magnitude_mps current_speed_mps) d_zero (d_lit 20 0))
    (clamp_float target_vx d_zero (d_lit 20 0))
    (clamp_float (d_min d_zero target_ax) (d_lit (-8) 0) d_zero)
    target_gear (angles ++ zeros (8 - length angles)).

Definition wheel_control_finite (control : WheelControl) : bool :=
  control_output_is_finite (wc_wheel_torque control) (wc_wheel_speed control)
    (wc_eps_ang_req control) (wc_eps_ang_spd_req control) (wc_ehb_brk_pres_req control).

Definition WheelControl_zero : WheelControl := mkWheelControl d_zero d_zero d_zero d_zero d_zero.

(** [command_from_chassis_control]; [None] when it throws. *)
Definition command_from_chassis_control (gear : Z) (controls : list WheelControl) :
    option VcuCommand :=
  if (length controls <? kMotorCount)%nat then None
  else if negb (forallb wheel_control_finite (take kMotorCount controls)) then None
  else
    let steering axis := nth (axis * 2) controls WheelControl_zero in
    Some
      (mkVcuCommand gear d_zero false (zeros kMotorCount) (zeros kMotorCount)
         (map (fun axis => clamp_value (wc_eps_ang_req (steering axis)) (d_lit (-30) 0)
                             (d_lit 30 0)) (seq 0 kSteeringAxisCount))
         (map (fun axis => clamp_value (wc_eps_ang_spd_req (steering axis) ⊗ kRadiansToDegrees)
                             d_zero (d_lit 255 0)) (seq 0 kSteeringAxisCount))
         (map (fun control => quantize_brake_pressure_bar (wc_ehb_brk_pres_req control))
            (take kMotorCount controls))
         false).

(** ** The safety blocks *)

Definition latch_chassis_control_fault (s : BridgeRuntime) : BridgeRuntime :=
  let s := latch_stop_provenance STOP_SOURCE_SOFTWARE_FAULT STOP_REASON_CHASSIS_CONTROL_FAULT s in
  let s := s <| rt_chassis_control_fault_latched := true |> <| rt_io_error := - EFAULT |> in
  let s := on_controller transport_fault s in
  withdraw_latest_traction
    (s <| rt_software_estop := true |> <| rt_clear_soft_stop_requested := false |>).

(** [check_control_watchdog_locked]: the time of the newest of the two references. *)
Definition watchdog_reference (s : BridgeRuntime) : option Z :=
  let reference := if rt_ready_since_valid s then Some (rt_ready_since s) else None in
  if rt_last_successful_apply_valid s &&
     match reference with None => true | Some t => t <? rt_last_successful_apply s end
  then Some (rt_last_successful_apply s) else reference.

Definition control_watchdog_fires (now : Z) (s : BridgeRuntime) : bool :=
  let reference := watchdog_reference s in
  let elapsed_count :=
    match reference with None => 0 | Some t => duration_ms (now - t) end in
  let retained_control_state :=
    rt_session_ready_latched s && speed_safety_active_state (ctl_state (rt_controller s)) in
  control_watchdog_expired retained_control_state (bool_decide (reference <> None))
    (rt_control_watchdog_latched s) (Z.max 0 elapsed_count) (rt_control_timeout_ms s).

Definition check_control_watchdog (now : Z) (s : BridgeRuntime) : BridgeRuntime :=
  if negb (control_watchdog_fires now s) then s
  else
    let s := latch_stop_provenance STOP_SOURCE_WATCHDOG STOP_REASON_CONTROL_APPLY_TIMEOUT s in
    let s := on_controller emergency_stop s in
    withdraw_latest_traction
      (s <| rt_software_estop := true |> <| rt_control_watchdog_latched := true |>
         <| rt_clear_soft_stop_requested := false |>).

(** What [update_command_from_intent_locked] computes before its first effect. *)
Record CycleInputs := mkCycleInputs {
  cy_intent : ControlIntent;
  cy_speed_fresh : bool;
  cy_actual_gear_matches : bool;
  cy_measured_speed_magnitude_mps : double;
  cy_state : VcuState;
  cy_physical_emergency_latched : bool;
  cy_feedback_fresh : bool;
  cy_measured_speed_mps : double;
}.

Definition cycle_inputs (now : Z) (s : BridgeRuntime) : CycleInputs :=
  let intent := if rt_latest_intent_valid s then rt_latest_intent s else ControlIntent_default in
  let feedback := controller_feedback s in
  mkCycleInputs intent (speed_feedback_fresh now s)
    (gear_feedback_fresh now s && (fb_gear feedback =? ci_gear intent))
    (speed_magnitude_mps (fb_speed_mps feedback)) (ctl_state (rt_controller s))
    (ctl_physical_emergency_latched (rt_controller s)) (feedback_fresh now s)
    (fb_speed_mps feedback).

Definition cy_driving_gear (c : CycleInputs) : bool :=
  (ci_gear (cy_intent c) =? 2) || (ci_gear (cy_intent c) =? 3).
Definition cy_brake_requested (c : CycleInputs) : bool :=
  ci_normalized_longitudinal (cy_intent c) <ᵈ d_zero.
Definition cy_traction_requested (c : CycleInputs) : bool :=
  ci_normalized_longitudinal (cy_intent c) >ᵈ d_zero.

Definition physical_emergency_block (c : CycleInputs) (s : BridgeRuntime) : BridgeRuntime :=
  if negb (cy_physical_emergency_latched c) then s
  else
    let s := latch_stop_provenance STOP_SOURCE_PHYSICAL_EMERGENCY
               STOP_REASON_PHYSICAL_EMERGENCY_SWITCH s in
    let s := s <| rt_clear_soft_stop_requested := false |> <| rt_software_estop := true |> in
    let s := reset_speed_pid s in
    if rt_physical_emergency_reported s then s
    else withdraw_latest_traction (s <| rt_physical_emergency_reported := true |>).

(** Latch the local overspeed stop for a reason. *)
Definition latch_hard_overspeed (reason : Z) (s : BridgeRuntime) : BridgeRuntime :=
  let s := latch_stop_provenance STOP_SOURCE_SOFTWARE_FAULT reason s in
  let s := s <| rt_hard_overspeed_latched := true |> in
  let s := on_controller emergency_stop s in
  reset_speed_pid (s <| rt_software_estop := true |>).

Definition arming_motion_block (c : CycleInputs) (s : BridgeRuntime) : BridgeRuntime :=
  if negb (cy_physical_emergency_latched c) && negb (rt_hard_overspeed_latched s) &&
     sc_enabled (rt_speed_control s) && stationary_arming_state (cy_state c) &&
     cy_speed_fresh c && (d_abs (cy_measured_speed_mps c) >ᵈ d_tenth)
  then latch_hard_overspeed STOP_REASON_ARMING_MOTION s else s.

Definition overspeed_block (c : CycleInputs) (s : BridgeRuntime) : BridgeRuntime :=
  if negb (cy_physical_emergency_latched c) && negb (rt_hard_overspeed_latched s) &&
     sc_enabled (rt_speed_control s) && speed_safety_active_state (cy_state c) &&
     cy_speed_fresh c &&
     hard_overspeed_latch (rt_hard_overspeed_latched s)
       (sc_hard_speed_limit_mps (rt_speed_control s)) (cy_measured_speed_mps c)
       (sc_hard_overspeed_margin_mps (rt_speed_control s))
  then latch_hard_overspeed STOP_REASON_HARD_OVERSPEED s else s.

Definition clear_soft_stop_block (c : CycleInputs) (s : BridgeRuntime) : BridgeRuntime :=
  if rt_clear_soft_stop_requested s && negb (cy_physical_emergency_latched c) &&
     negb (rt_hard_overspeed_latched s) && ready (rt_controller s) && cy_speed_fresh c &&
     cy_actual_gear_matches c
  then
    let s := on_controller clear_emergency_stop s in
    clear_stop_provenance
      (s <| rt_software_estop := false |> <| rt_control_watchdog_latched := false |>
         <| rt_clear_soft_stop_requested := false |>)
  else s.

(** ** Automatic parking and traction *)

Definition idle_park (now : Z) (s : BridgeRuntime) : bool :=
  negb (rc_active (rt_runtime_control s)) ||
  idle_expired (duration_ms now) (rc_parking_idle_timeout_ms (rt_runtime_control s))
    (rt_operator_idle s).

Definition automatic_parking_block (now : Z) (c : CycleInputs) (s : BridgeRuntime) :
    BridgeRuntime :=
  on_controller
    (set_automatic_parking (automatic_parking_enabled s) (idle_park now s)
       (cy_speed_fresh c && cy_feedback_fresh c &&
        (cy_measured_speed_magnitude_mps c ≤ᵈ d_tenth))
       (automatic_parking_pressure_bar s)) s.

Definition parking_allows_traction (now : Z) (c : CycleInputs) (s : BridgeRuntime) : bool :=
  negb (automatic_parking_enabled s) ||
  (negb (idle_park now s) && cy_feedback_fresh c && parking_released (rt_controller s)).

Definition traction_pid_active (now : Z) (c : CycleInputs) (s : BridgeRuntime) : bool :=
  sc_enabled (rt_speed_control s) && rc_active (rt_runtime_control s) &&
  negb (cy_physical_emergency_latched c) && negb (rt_hard_overspeed_latched s) &&
  negb (rt_control_watchdog_latched s) && negb (rt_software_estop s) &&
  parking_allows_traction now c s && cy_traction_requested c && cy_driving_gear c &&
  ready (rt_controller s) && cy_speed_fresh c && cy_actual_gear_matches c &&
  (ci_target_speed_mps (cy_intent c) >ᵈ d_zero).

(** [std::min(max_motor_torque_nm, full_scale_motor_torque_nm_)] *)
Definition session_torque_nm (s : BridgeRuntime) : double :=
  d_min (rc_max_motor_torque_nm (rt_runtime_control s)) (rt_full_scale_motor_torque_nm s).

(** The reference of the PID is kept through small changes of the target. *)
Definition pid_reference_block (c : CycleInputs) (s : BridgeRuntime) : BridgeRuntime :=
  let gear := ci_gear (cy_intent c) in
  let target := ci_target_speed_mps (cy_intent c) in
  let s := if rt_last_traction_gear s =? gear then s
           else (reset_direct_traction s) <| rt_last_traction_gear := gear |> in
  if speed_pid_setpoint_requires_reset (rt_speed_pid_reference_valid s) (rt_speed_pid_gear s)
       gear (rt_speed_pid_target_mps s) target
  then s <| rt_speed_pid_state := speed_pid_reset |> <| rt_speed_pid_reference_valid := true |>
         <| rt_speed_pid_gear := gear |> <| rt_speed_pid_target_mps := target |>
  else s.

(** The ceiling of the PID that the torque slew can reach in this period. *)
Definition reachable_normalized_output (dt_seconds : double) (s : BridgeRuntime) : double :=
  let motor_torque_limit_nm := bounded_motor_torque_nm d_one (session_torque_nm s) in
  let reachable_motor_torque_nm :=
    rise_limited_motor_torque_nm (rt_last_traction_torque_magnitude_nm s) motor_torque_limit_nm
      (sc_motor_torque_rise_rate_nm_per_s (rt_speed_control s)) dt_seconds in
  if motor_torque_limit_nm >ᵈ d_zero
  then d_clamp (reachable_motor_torque_nm ⊘ motor_torque_limit_nm) d_zero d_one else d_zero.

(** The normalised output: a brake request, a PID step, or nothing. *)
Definition normalized_output_block (now : Z) (dt_seconds : double) (c : CycleInputs)
    (s : BridgeRuntime) : double * BridgeRuntime :=
  if cy_brake_requested c && negb (cy_physical_emergency_latched c) &&
     negb (rt_hard_overspeed_latched s)
  then (ci_normalized_longitudinal (cy_intent c), reset_speed_pid s)
  else if traction_pid_active now c s then
    let s := pid_reference_block c s in
    let '(output, state) :=
      speed_pid_step (sc_pid (rt_speed_control s)) (rt_speed_pid_state s)
        (ci_target_speed_mps (cy_intent c)) (cy_measured_speed_magnitude_mps c)
        (reachable_normalized_output dt_seconds s) dt_seconds in
    (output, s <| rt_speed_pid_state := state |>)
  else (d_zero, reset_speed_pid s).

(** The torque magnitude; [active] is [traction_pid_active]. *)
Definition torque_block (active : bool) (normalized_output dt_seconds : double)
    (s : BridgeRuntime) : BridgeRuntime :=
  if active && (normalized_output >ᵈ d_zero) then
    let target := bounded_motor_torque_nm normalized_output (session_torque_nm s) in
    s <| rt_last_traction_torque_magnitude_nm ::= fun previous =>
           rise_limited_motor_torque_nm previous target
             (sc_motor_torque_rise_rate_nm_per_s (rt_speed_control s)) dt_seconds |>
  else reset_direct_traction s.

(** ** The command *)

(** The command built from the vendor's answer. *)
Definition bridge_command (c : CycleInputs) (base : VcuCommand) (s : BridgeRuntime) :
    VcuCommand :=
  let intent := cy_intent c in
  let direct_pressure_brake := rt_physical_brake_input s && cy_brake_requested c in
  let torque :=
    directional_motor_torque_nm (ci_gear intent) (rt_last_traction_torque_magnitude_nm s) in
  let command := base <| vc_motor_torque_nm := repeat torque kMotorCount |> in
  let command :=
    if rt_physical_brake_input s then
      let requested_pressure_bar :=
        if direct_pressure_brake
        then quantize_brake_pressure_bar
               (d_neg (ci_normalized_longitudinal intent) ⊗
                rt_max_ordinary_brake_pressure_bar s)
        else d_zero in
      let command :=
        if direct_pressure_brake
        then command <| vc_motor_torque_nm := zeros kMotorCount |> else command in
      command <| vc_brake_pressure_bar := repeat requested_pressure_bar kBrakeCount |>
    else command in
  if (0 <=? rc_parking_idle_timeout_ms (rt_runtime_control s)) &&
     negb (rt_session_ready_latched s)
  then command <| vc_motor_torque_nm := zeros kMotorCount |>
               <| vc_motor_speed_rpm := zeros kMotorCount |>
               <| vc_steering_angle_deg := zeros kSteeringAxisCount |>
               <| vc_brake_pressure_bar := zeros kBrakeCount |>
  else command.

(** What the vendor is asked. *)
Definition vehicle_state_of (c : CycleInputs) (normalized_output : double) (s : BridgeRuntime) :
    VehicleState :=
  let intent := cy_intent c in
  let direct_pressure_brake := rt_physical_brake_input s && cy_brake_requested c in
  make_vehicle_state
    (if cy_speed_fresh c then cy_measured_speed_magnitude_mps c else d_zero)
    (ci_gear intent) (ci_target_speed_mps intent)
    (if negb direct_pressure_brake && cy_brake_requested c then normalized_output else d_zero)
    (ci_steering intent).

(** The command is handed to the controller unless it is disarming or out. *)
Definition submit_command (command : VcuCommand) (s : BridgeRuntime) : BridgeRuntime :=
  let accepts_intent :=
    negb (state_in (ctl_state (rt_controller s))
            [DisarmTorque; DisarmStop; DisarmNeutral; DisarmParkingBrake; DisarmManual;
             Disarmed; VcuFault]) in
  if negb accepts_intent then s
  else
    let '(accepted, controller) := set_command command (rt_controller s) in
    let s := s <| rt_controller := controller |> in
    if accepted then s
    else
      let s := latch_stop_provenance STOP_SOURCE_SOFTWARE_FAULT
                 STOP_REASON_CONTROL_COMMAND_INVALID s in
      let s := on_controller emergency_stop s in
      reset_direct_traction (reset_speed_pid (s <| rt_software_estop := true |>)).

Definition latched_stop_block (c : CycleInputs) (s : BridgeRuntime) : BridgeRuntime :=
  if cy_physical_emergency_latched c || rt_hard_overspeed_latched s
  then on_controller emergency_stop s else s.

(** The vendor's fault, once latched, is a fault in every cycle. *)
Definition chassis_fault_block (s : BridgeRuntime) : BridgeRuntime :=
  let state := ctl_state (rt_controller s) in
  let s := if negb (is_disarming state) && negb (bool_decide (state = Disarmed))
           then on_controller transport_fault s else s in
  reset_direct_traction (reset_speed_pid (s <| rt_software_estop := true |>)).

(** The blocks before the vendor is asked. *)
Definition safety_blocks (now : Z) (c : CycleInputs) (s : BridgeRuntime) : BridgeRuntime :=
  automatic_parking_block now c
    (clear_soft_stop_block c (overspeed_block c (arming_motion_block c
      (physical_emergency_block c s)))).

(** The command of the vendor's answer; a refusal, an exception or an unusable
    answer is the fault. *)
Definition command_block (chassis : VehicleState -> ChassisAnswer) (c : CycleInputs)
    (normalized_output : double) (s : BridgeRuntime) : BridgeRuntime :=
  match chassis (vehicle_state_of c normalized_output s) with
  | UpdateRefused | ChassisThrows => latch_chassis_control_fault s
  | Controls controls =>
      match command_from_chassis_control (ci_gear (cy_intent c)) controls with
      | None => latch_chassis_control_fault s
      | Some base => latched_stop_block c (submit_command (bridge_command c base s) s)
      end
  end.

Definition update_command_from_intent (chassis : VehicleState -> ChassisAnswer)
    (now : Z) (dt_seconds : double) (s : BridgeRuntime) : BridgeRuntime :=
  if rt_chassis_control_fault_latched s then chassis_fault_block s
  else
    let c := cycle_inputs now s in
    let s := safety_blocks now c s in
    let active := traction_pid_active now c s in
    let '(normalized_output, s) := normalized_output_block now dt_seconds c s in
    let s := torque_block active normalized_output dt_seconds s in
    command_block chassis c normalized_output s.

(** ** One pass of the loop *)

Definition retained_feedback_timeout (now : Z) (s : BridgeRuntime) : bool :=
  rt_feedback_watchdog_armed s && speed_safety_active_state (ctl_state (rt_controller s)) &&
  negb (feedback_fresh now s).

Definition first_arming_feedback_timeout (now : Z) (s : BridgeRuntime) : bool :=
  let state := ctl_state (rt_controller s) in
  negb (rt_feedback_watchdog_armed s) && rt_arming_feedback_deadline_valid s &&
  bool_decide (state = rt_arming_feedback_state s) &&
  (500000000 <=? now - rt_arming_feedback_state_entry s) &&
  negb (arming_feedback_fresh state now s).

Definition check_feedback_timeout (now : Z) (s : BridgeRuntime) : BridgeRuntime :=
  let first := first_arming_feedback_timeout now s in
  if retained_feedback_timeout now s || first then
    let s := s <| rt_io_error := - ETIMEDOUT |> <| rt_recoverable_arming_timeout := first |> in
    let s := latch_stop_provenance STOP_SOURCE_WATCHDOG STOP_REASON_FEEDBACK_TIMEOUT s in
    let s := on_controller transport_fault s in
    withdraw_latest_traction (s <| rt_software_estop := true |>)
  else s.

(** After the tick: a revoked handshake is reported once. *)
Definition handshake_revoked_block (s : BridgeRuntime) : BridgeRuntime :=
  if ctl_handshake_revoked (rt_controller s) && negb (rt_handshake_revoked_reported s) then
    let s := s <| rt_handshake_revoked_reported := true |> <| rt_software_estop := true |>
               <| rt_clear_soft_stop_requested := false |> in
    latch_stop_provenance STOP_SOURCE_SOFTWARE_FAULT STOP_REASON_HANDSHAKE_REVOKED
      (withdraw_latest_traction s)
  else s.

Definition state_fault_block (state_before : VcuState) (s : BridgeRuntime) : BridgeRuntime :=
  if bool_decide (ctl_state (rt_controller s) = VcuFault) &&
     negb (bool_decide (state_before = VcuFault))
  then
    let s := latch_stop_provenance STOP_SOURCE_SOFTWARE_FAULT STOP_REASON_VCU_STATE_FAULT s in
    withdraw_latest_traction
      (s <| rt_software_estop := true |> <| rt_clear_soft_stop_requested := false |>)
  else s.

Definition session_ready_block (now : Z) (s : BridgeRuntime) : BridgeRuntime :=
  let state := ctl_state (rt_controller s) in
  if negb (rt_session_ready_latched s) && bool_decide (state = Ready) then
    s <| rt_session_ready_latched := true |> <| rt_feedback_watchdog_armed := true |>
      <| rt_ready_since := now |> <| rt_ready_since_valid := true |>
      <| rt_control_watchdog_latched := false |>
  else if rt_session_ready_latched s && negb (speed_safety_active_state state) then
    s <| rt_session_ready_latched := false |> <| rt_feedback_watchdog_armed := false |>
      <| rt_ready_since_valid := false |>
  else s.

Definition arming_deadline_block (now : Z) (s : BridgeRuntime) : BridgeRuntime :=
  let state := ctl_state (rt_controller s) in
  if negb (rt_feedback_watchdog_armed s) && stationary_arming_state state &&
     (negb (rt_arming_feedback_deadline_valid s) ||
      negb (bool_decide (rt_arming_feedback_state s = state)))
  then s <| rt_arming_feedback_state := state |> <| rt_arming_feedback_state_entry := now |>
         <| rt_arming_feedback_deadline_valid := true |>
  else if negb (stationary_arming_state state)
  then s <| rt_arming_feedback_deadline_valid := false |>
  else s.

(** [dt] of the cycle: since the last one, 20 ms for the first. *)
Definition control_dt_seconds (now : Z) (s : BridgeRuntime) : double :=
  match rt_last_control_tick s with
  | Some last => duration_seconds (now - last)
  | None => d_lit 20 0 ⊘ d_lit 1000 0
  end.

(** The part of the cycle before the controller's tick. *)
Definition before_tick (chassis : VehicleState -> ChassisAnswer) (now : Z) (s : BridgeRuntime) :
    BridgeRuntime :=
  let dt_seconds := control_dt_seconds now s in
  let s := s <| rt_last_control_tick := Some now |> in
  update_command_from_intent chassis now dt_seconds
    (check_control_watchdog now (check_feedback_timeout now s)).

(** The part after it. *)
Definition after_tick (state_before : VcuState) (now : Z) (s : BridgeRuntime) : BridgeRuntime :=
  update_feedback_snapshot (arming_deadline_block now (session_ready_block now
    (state_fault_block state_before (handshake_revoked_block s)))).

(** The block under the mutex: the frames to send, and the new state. *)
Definition control_cycle (chassis : VehicleState -> ChassisAnswer) (now : Z)
    (s : BridgeRuntime) : list CanFrame * BridgeRuntime :=
  let state_before := ctl_state (rt_controller s) in
  let s := before_tick chassis now s in
  let '(frames, controller) := vcu_tick (rt_controller s) in
  (frames, after_tick state_before now (s <| rt_controller := controller |>)).

(** A failed receive: a transport fault, whatever the error. *)
Definition receive_failed (receive_result : Z) (s : BridgeRuntime) : BridgeRuntime :=
  let s := s <| rt_io_error := receive_result |> in
  let s := latch_stop_provenance STOP_SOURCE_SOFTWARE_FAULT STOP_REASON_CAN_RECEIVE_FAILED s in
  (on_controller transport_fault s) <| rt_software_estop := true |>.

(** The bookkeeping after sending: the third failed cycle in a row is a fault. *)
Definition send_result (all_sent : bool) (s : BridgeRuntime) : BridgeRuntime :=
  if all_sent then s <| rt_consecutive_send_failures := 0 |>
  else
    let s := s <| rt_consecutive_send_failures ::= Z.succ |> in
    if rt_consecutive_send_failures s =? 3 then
      let s := s <| rt_io_error := - EIO |> in
      let s := latch_stop_provenance STOP_SOURCE_SOFTWARE_FAULT STOP_REASON_CAN_SEND_FAILED s in
      (on_controller transport_fault s) <| rt_software_estop := true |>
    else s.

(** An exception that leaves the loop ends the thread. *)
Definition io_loop_exception (s : BridgeRuntime) : BridgeRuntime :=
  let s := s <| rt_io_error := - EFAULT |> in
  let s := latch_stop_provenance STOP_SOURCE_SOFTWARE_FAULT STOP_REASON_IO_THREAD_EXCEPTION s in
  (on_controller transport_fault s) <| rt_software_estop := true |> <| rt_running := false |>.

(** What [socket_.receive] answers: a frame (with the clock of [ingest_locked]), a
    special frame that is only counted, or an error, which ends the draining. *)
Inductive Received : Type :=
| ReceivedFrame (frame : CanFrame) (now : Z)
| ReceivedSpecial
| ReceivedError (receive_result : Z).

Fixpoint drain_socket (received : list Received) (s : BridgeRuntime) : BridgeRuntime :=
  match received with
  | [] => s
  | ReceivedFrame frame now :: received => drain_socket received (ingest_locked frame now s)
  | ReceivedSpecial :: received => drain_socket received s
  | ReceivedError result :: _ => receive_failed result s
  end.

(** One pass of [io_loop_impl]: the frames it sends, and the new state. *)
Definition io_loop_pass (chassis : VehicleState -> ChassisAnswer) (received : list Received)
    (now : Z) (send : CanFrame -> bool) (s : BridgeRuntime) : list CanFrame * BridgeRuntime :=
  let '(frames, s) := control_cycle chassis now (drain_socket received s) in
  (frames, send_result (forallb send frames) s).
