(* ===== verification/ChassisApi.v ===== *)
(** ChassisApi: the C functions the chassis bridge library exports
    (chassis_control_bridge.cpp from open_bridge_locked to the end).

    The state is [g_runtime], the one runtime there may be; every function holds the
    API mutex.  Pointers that may be null are options.  [ChassisHost] is what the
    machine answers: ChassisControl, the protocol log, the CAN socket and the clock.

    ChassisLink.v makes these functions the chassis platform the vehicle adapter of
    Adapter.v loads. *)
From S2P Require Export ChassisCycle.

(** ** The host *)

Record ChassisHost := mkChassisHost {
  host_initialize : bool;                        (* ChassisControl [Initialize] *)
  host_chassis : VehicleState -> ChassisAnswer;  (* its answer to a vehicle state *)
  host_log_opens : bool;
  host_socket_opens : bool;
  host_now : Z;                                  (* the steady clock *)
}.

(** ** Opening *)

(** The neutral vehicle at rest, with the given acceleration. *)
Definition seed_state (target_ax : double) : VehicleState :=
  make_vehicle_state d_zero 1 d_zero target_ax (zeros kSteeringAxisCount).

(** A seed command: refused ([-2]), thrown ([-5]), or the command. *)
Definition seed_command (host : ChassisHost) (target_ax : double) : Z + VcuCommand :=
  match host_chassis host (seed_state target_ax) with
  | UpdateRefused => inl (-2)
  | ChassisThrows => inl (-5)
  | Controls controls =>
      match command_from_chassis_control 1 controls with
      | None => inl (-5)
      | Some command => inr command
      end
  end.

Definition open_bridge (host : ChassisHost) (can_interface : option string)
    (full_scale_motor_torque_nm : double) (control_timeout_ms : Z)
    (speed_control : SpeedControlSettings) (physical_brake_input : bool)
    (max_ordinary_brake_pressure_bar : double) (g : option BridgeRuntime) :
    Z * option BridgeRuntime :=
  match can_interface, g with
  | None, _ | Some EmptyString, _ | _, Some _ => (-1, g)
  | Some _, None =>
      if negb (host_initialize host) then (-2, None)
      else
        match seed_command host (d_lit (-8) 0) with
        | inl code => (code, None)
        | inr braking =>
            let emergency :=
              braking <| vc_motor_torque_nm := zeros kMotorCount |>
                      <| vc_brake_pressure_bar :=
                           repeat MAX_EMERGENCY_BRAKE_PRESSURE_BAR kBrakeCount |> in
            match seed_command host d_zero with
            | inl code => (code, None)
            | inr initial =>
                let '(start_result, runtime) :=
                  bridge_start (host_log_opens host) (host_socket_opens host) initial emergency
                    (BridgeRuntime_new full_scale_motor_torque_nm control_timeout_ms
                       speed_control physical_brake_input max_ordinary_brake_pressure_bar) in
                if negb (start_result =? 0) then (start_result, None)
                else (0, Some runtime)
            end
        end
  end.

(** The checks [open_v3] and [open_v4] share ([open_configured_bridge]). *)
Definition open_config_valid (config : BridgeOpenConfigV4) (sizeof_config : Z)
    (rise_rate : double) : bool :=
  let pid := mkSpeedPidConfig (boc_speed_pid_kp config) (boc_speed_pid_ki config)
    (boc_speed_pid_kd config) (boc_speed_pid_derivative_filter_tau_ms config)
    (boc_speed_pid_max_dt_ms config) in
  (boc_struct_size config =? sizeof_config) &&
  d_isfinite (boc_full_scale_motor_torque_nm config) &&
  negb (boc_full_scale_motor_torque_nm config <ᵈ d_zero) &&
  negb (boc_full_scale_motor_torque_nm config >ᵈ MAX_FULL_SCALE_MOTOR_TORQUE_NM) &&
  d_isfinite (boc_hard_speed_limit_mps config) &&
  negb (boc_hard_speed_limit_mps config <ᵈ d_zero) &&
  negb (boc_hard_speed_limit_mps config >ᵈ d_lit 20 0) &&
  control_timeout_is_valid (boc_control_timeout_ms config) &&
  negb (boc_speed_feedback_timeout_ms config <? 20) &&
  negb (MAX_SPEED_FEEDBACK_TIMEOUT_MS <? boc_speed_feedback_timeout_ms config) &&
  negb (boc_control_timeout_ms config <? boc_speed_feedback_timeout_ms config) &&
  speed_pid_config_is_valid pid &&
  d_isfinite (boc_hard_overspeed_margin_mps config) &&
  negb (boc_hard_overspeed_margin_mps config ≤ᵈ d_zero) &&
  negb (boc_hard_overspeed_margin_mps config >ᵈ d_lit 10 0) &&
  d_isfinite (boc_max_ordinary_brake_pressure_bar config) &&
  negb (boc_max_ordinary_brake_pressure_bar config <ᵈ d_zero) &&
  negb (boc_max_ordinary_brake_pressure_bar config >ᵈ MAX_ORDINARY_BRAKE_PRESSURE_BAR) &&
  d_isfinite rise_rate && negb (rise_rate <ᵈ d_zero) &&
  negb (rise_rate >ᵈ MAX_MOTOR_TORQUE_RISE_RATE).

Definition open_configured_bridge (host : ChassisHost) (config : option BridgeOpenConfigV4)
    (sizeof_config : Z) (rise_rate : double) (g : option BridgeRuntime) :
    Z * option BridgeRuntime :=
  match config with
  | None => (-1, g)
  | Some config =>
      if negb (open_config_valid config sizeof_config rise_rate) then (-1, g)
      else
        let speed_control :=
          mkSpeedControlSettings true (boc_hard_speed_limit_mps config)
            (boc_speed_feedback_timeout_ms config)
            (mkSpeedPidConfig (boc_speed_pid_kp config) (boc_speed_pid_ki config)
               (boc_speed_pid_kd config) (boc_speed_pid_derivative_filter_tau_ms config)
               (boc_speed_pid_max_dt_ms config))
            (boc_hard_overspeed_margin_mps config) rise_rate in
        open_bridge host (Some (boc_can_interface config))
          (boc_full_scale_motor_torque_nm config) (boc_control_timeout_ms config)
          speed_control true (boc_max_ordinary_brake_pressure_bar config) g
  end.

(** [open_v3] reads the common prefix and takes the default rise rate. *)
Definition chassis_open_v3 (host : ChassisHost) (config : option BridgeOpenConfigV4)
    (g : option BridgeRuntime) : Z * option BridgeRuntime :=
  open_configured_bridge host config sizeof_BridgeOpenConfigV3 DEFAULT_MOTOR_TORQUE_RISE_RATE g.

Definition chassis_open_v4 (host : ChassisHost) (config : option BridgeOpenConfigV4)
    (g : option BridgeRuntime) : Z * option BridgeRuntime :=
  open_configured_bridge host config sizeof_BridgeOpenConfigV4
    match config with
    | None => S754_nan
    | Some config => boc_motor_torque_rise_rate_nm_per_s config
    end g.

(** [open_v2]'s structure is the common prefix; no physical brake input. *)
Definition open_v2_valid (config : BridgeOpenConfigV4) : bool :=
  (boc_struct_size config =? sizeof_BridgeOpenConfigV2) &&
  d_isfinite (boc_full_scale_motor_torque_nm config) &&
  negb (boc_full_scale_motor_torque_nm config <ᵈ d_zero) &&
  negb (boc_full_scale_motor_torque_nm config >ᵈ MAX_FULL_SCALE_MOTOR_TORQUE_NM) &&
  d_isfinite (boc_hard_speed_limit_mps config) &&
  negb (boc_hard_speed_limit_mps config <ᵈ d_zero) &&
  negb (boc_hard_speed_limit_mps config >ᵈ d_lit 20 0) &&
  control_timeout_is_valid (boc_control_timeout_ms config) &&
  negb (boc_speed_feedback_timeout_ms config <? 20) &&
  negb (MAX_SPEED_FEEDBACK_TIMEOUT_MS <? boc_speed_feedback_timeout_ms config) &&
  negb (boc_control_timeout_ms config <? boc_speed_feedback_timeout_ms config) &&
  speed_pid_config_is_valid
    (mkSpeedPidConfig (boc_speed_pid_kp config) (boc_speed_pid_ki config)
       (boc_speed_pid_kd config) (boc_speed_pid_derivative_filter_tau_ms config)
       (boc_speed_pid_max_dt_ms config)) &&
  d_isfinite (boc_hard_overspeed_margin_mps config) &&
  negb (boc_hard_overspeed_margin_mps config ≤ᵈ d_zero) &&
  negb (boc_hard_overspeed_margin_mps config >ᵈ d_lit 10 0).

Definition chassis_open_v2 (host : ChassisHost) (config : option BridgeOpenConfigV4)
    (g : option BridgeRuntime) : Z * option BridgeRuntime :=
  match config with
  | None => (-1, g)
  | Some config =>
      if negb (open_v2_valid config) then (-1, g)
      else
        let speed_control :=
          SpeedControlSettings_default <| sc_enabled := true |>
            <| sc_hard_speed_limit_mps := boc_hard_speed_limit_mps config |>
            <| sc_speed_feedback_timeout_ms := boc_speed_feedback_timeout_ms config |>
            <| sc_pid := mkSpeedPidConfig (boc_speed_pid_kp config) (boc_speed_pid_ki config)
                 (boc_speed_pid_kd config) (boc_speed_pid_derivative_filter_tau_ms config)
                 (boc_speed_pid_max_dt_ms config) |>
            <| sc_hard_overspeed_margin_mps := boc_hard_overspeed_margin_mps config |> in
        open_bridge host (Some (boc_can_interface config))
          (boc_full_scale_motor_torque_nm config) (boc_control_timeout_ms config)
          speed_control false d_zero g
  end.

(** [MineTeleopChassisOpenConfigV1]: three fields. *)
Definition sizeof_BridgeOpenConfigV1 : Z := 24.

Definition chassis_open_v1 (host : ChassisHost) (config : option (Z * string * double))
    (g : option BridgeRuntime) : Z * option BridgeRuntime :=
  match config with
  | None => (-1, g)
  | Some (struct_size, can_interface, full_scale_motor_torque_nm) =>
      if negb (struct_size =? sizeof_BridgeOpenConfigV1) ||
         negb (d_isfinite full_scale_motor_torque_nm) ||
         (full_scale_motor_torque_nm <ᵈ d_zero) ||
         (full_scale_motor_torque_nm >ᵈ MAX_FULL_SCALE_MOTOR_TORQUE_NM)
      then (-1, g)
      else open_bridge host (Some can_interface) full_scale_motor_torque_nm 800
             SpeedControlSettings_default false d_zero g
  end.

(** The legacy [open]: no speed control, hence no traction. *)
Definition chassis_open (host : ChassisHost) (can_interface : option string)
    (g : option BridgeRuntime) : Z * option BridgeRuntime :=
  open_bridge host can_interface (d_lit 300 0) 800 SpeedControlSettings_default false d_zero g.

(** ** Applying a state *)

Definition apply_result (result_code issue_id : Z) : BridgeApplyResultV1 :=
  mkBridgeApplyResultV1 sizeof_BridgeApplyResultV1 result_code issue_id 0.

(** The arguments of [apply_state_v3] are usable. *)
Definition apply_arguments_valid (target_gear : Z) (target_vx target_ax : double)
    (steering_values : option (list double)) (steering_count operator_active : Z) : bool :=
  let checked_steering_count := Z.max 0 (Z.min steering_count (Z.of_nat kSteeringAxisCount)) in
  let steering_finite :=
    match steering_values with
    | None => false
    | Some values => forallb d_isfinite (take (Z.to_nat checked_steering_count) values)
    end in
  ((operator_active =? 0) || (operator_active =? 1)) &&
  bool_decide (steering_values <> None) && negb (steering_count <? 0) &&
  (1 <=? target_gear) && (target_gear <=? 4) &&
  d_isfinite target_vx && negb (target_vx <ᵈ d_zero) && negb (target_vx >ᵈ d_lit 20 0) &&
  d_isfinite target_ax && negb (target_ax <ᵈ d_lit (-1) 0) && negb (target_ax >ᵈ d_one) &&
  steering_finite.

(** [apply_state_v3] with a result to fill: the code, the result, the new state.
    Nothing in it throws once the log is left out. *)
Definition chassis_apply_state_v3 (now target_gear : Z) (target_vx target_ax : double)
    (steering_values : option (list double)) (steering_count operator_active : Z)
    (g : option BridgeRuntime) : Z * BridgeApplyResultV1 * option BridgeRuntime :=
  let finish result_code issue_id g := (result_code, apply_result result_code issue_id, g) in
  match g with
  | None => finish (-1) APPLY_ISSUE_RUNTIME_UNAVAILABLE g
  | Some runtime =>
      if negb (apply_arguments_valid target_gear target_vx target_ax steering_values
                 steering_count operator_active)
      then finish (-1) APPLY_ISSUE_ARGUMENTS_INVALID (Some (fail_control_apply runtime))
      else if target_gear =? 4 then
        let '(accepted, runtime) := request_park runtime in
        finish (if accepted : bool then 0 else -3)
          (if accepted : bool then APPLY_ISSUE_NONE else APPLY_ISSUE_GENERIC_REJECTED)
          (Some runtime)
      else
        let '(issue_id, runtime) :=
          store_intent now target_gear target_vx target_ax (default [] steering_values)
            steering_count (negb (operator_active =? 0)) runtime in
        finish (if issue_id =? APPLY_ISSUE_NONE then 0 else -3) issue_id (Some runtime)
  end.

Definition chassis_apply_state_v2 (now gear : Z) (vx ax : double)
    (steering : option (list double)) (count : Z) (g : option BridgeRuntime) :
    Z * BridgeApplyResultV1 * option BridgeRuntime :=
  chassis_apply_state_v3 now gear vx ax steering count 0 g.

Definition chassis_apply_state (now target_gear : Z) (target_vx target_ax : double)
    (steering_values : option (list double)) (steering_count : Z) (g : option BridgeRuntime) :
    Z * option BridgeRuntime :=
  let '(code, _, g) :=
    chassis_apply_state_v2 now target_gear target_vx target_ax steering_values steering_count g
  in (code, g).

(** ** Runtime control *)

Definition runtime_control_result_code (issue_id : Z) : Z :=
  if issue_id =? RUNTIME_CONTROL_ISSUE_NONE then 0
  else if issue_id =? RUNTIME_CONTROL_ISSUE_ARGUMENTS_INVALID then -1
  else if issue_id =? RUNTIME_CONTROL_ISSUE_RUNTIME_UNAVAILABLE then -2
  else -3.

Definition runtime_control_result (result_code issue_id applied_revision : Z) :
    BridgeRuntimeControlResultV1 :=
  mkBridgeRuntimeControlResultV1 sizeof_BridgeRuntimeControlResultV1 result_code issue_id 0
    applied_revision.

Definition configure_runtime_control_entrypoint
    (configure : BridgeRuntimeControlConfigV3 -> BridgeRuntime -> Z * Z * BridgeRuntime)
    (config : option BridgeRuntimeControlConfigV3) (g : option BridgeRuntime) :
    Z * BridgeRuntimeControlResultV1 * option BridgeRuntime :=
  let finish code issue revision g := (code, runtime_control_result code issue revision, g) in
  match config, g with
  | None, _ => finish (-1) RUNTIME_CONTROL_ISSUE_ARGUMENTS_INVALID 0 g
  | Some _, None => finish (-2) RUNTIME_CONTROL_ISSUE_RUNTIME_UNAVAILABLE 0 g
  | Some config, Some runtime =>
      let '(issue_id, applied_revision, runtime) := configure config runtime in
      finish (runtime_control_result_code issue_id) issue_id
        (if issue_id =? RUNTIME_CONTROL_ISSUE_NONE then applied_revision else 0) (Some runtime)
  end.

Definition chassis_configure_runtime_control_v3 (now : Z)
    (config : option BridgeRuntimeControlConfigV3) (g : option BridgeRuntime) :
    Z * BridgeRuntimeControlResultV1 * option BridgeRuntime :=
  configure_runtime_control_entrypoint (configure_runtime_control_v3 now) config g.

Definition chassis_configure_runtime_control_v2 (now : Z)
    (config : option BridgeRuntimeControlConfigV3) (g : option BridgeRuntime) :
    Z * BridgeRuntimeControlResultV1 * option BridgeRuntime :=
  configure_runtime_control_entrypoint (configure_runtime_control_v2 now) config g.

Definition chassis_configure_runtime_control_v1 (now : Z)
    (config : option BridgeRuntimeControlConfigV3) (g : option BridgeRuntime) :
    Z * BridgeRuntimeControlResultV1 * option BridgeRuntime :=
  configure_runtime_control_entrypoint (configure_runtime_control_v1 now) config g.

Definition chassis_clear_runtime_control_v1 (g : option BridgeRuntime) :
    Z * BridgeRuntimeControlResultV1 * option BridgeRuntime :=
  let finish code issue g := (code, runtime_control_result code issue 0, g) in
  match g with
  | None => finish (-2) RUNTIME_CONTROL_ISSUE_RUNTIME_UNAVAILABLE g
  | Some runtime =>
      let '(issue_id, _, runtime) := clear_runtime_control runtime in
      finish (runtime_control_result_code issue_id) issue_id (Some runtime)
  end.

(** ** The remaining functions *)

(** A function that succeeds with 0, is refused with -2, and needs a runtime. *)
Definition on_runtime (f : BridgeRuntime -> bool * BridgeRuntime) (g : option BridgeRuntime) :
    Z * option BridgeRuntime :=
  match g with
  | None => (-1, g)
  | Some runtime => let '(ok, runtime) := f runtime in (if ok : bool then 0 else -2, Some runtime)
  end.

Definition chassis_set_stop_context_v1 (context : option BridgeStopContextV1)
    (g : option BridgeRuntime) : Z * option BridgeRuntime :=
  match context with
  | None => (-1, g)
  | Some context => on_runtime (set_stop_context context) g
  end.

Definition chassis_emergency_stop (g : option BridgeRuntime) : Z * option BridgeRuntime :=
  on_runtime bridge_emergency_stop g.

Definition chassis_request_parallel_handshake (now : Z) (g : option BridgeRuntime) :
    Z * option BridgeRuntime :=
  on_runtime (bridge_request_parallel_handshake now) g.

Definition chassis_disconnect_parallel_handshake (g : option BridgeRuntime) :
    Z * option BridgeRuntime :=
  on_runtime request_park g.

Definition chassis_poll_feedback (g : option BridgeRuntime) :
    Z * option ChassisFeedback * option BridgeRuntime :=
  match g with
  | None => (-1, None, g)
  | Some runtime =>
      let '(code, feedback, runtime) := bridge_poll runtime in (code, Some feedback, Some runtime)
  end.

Definition chassis_read_handshake_status (now : Z) (g : option BridgeRuntime) :
    Z * option BridgeHandshakeStatus :=
  match g with
  | None => (-1, None)
  | Some runtime => (0, Some (bridge_handshake_status now runtime))
  end.

Definition chassis_read_telemetry (g : option BridgeRuntime) : Z * option BridgeTelemetry :=
  match g with None => (-1, None) | Some runtime => (0, Some (rt_telemetry runtime)) end.

Definition chassis_read_can_feedback_v1 (now : Z) (g : option BridgeRuntime) :
    Z * option BridgeCanFeedbackV1 :=
  match g with
  | None => (-1, None)
  | Some runtime => (0, Some (bridge_can_feedback now runtime))
  end.

Definition chassis_update_feedback (clock : nat -> Z) (feedback : option ChassisFeedback)
    (g : option BridgeRuntime) : Z * option BridgeRuntime :=
  match g, feedback with
  | Some runtime, Some feedback => (0, Some (inject feedback clock runtime))
  | _, _ => (-1, g)
  end.

(** [close]: the result, the released runtime after the disarm request, which its
    own thread still runs until it is disarmed, and the empty [g_runtime]. *)
Definition chassis_close (g : option BridgeRuntime) :
    Z * option BridgeRuntime * option BridgeRuntime :=
  (0, (fun runtime => if rt_running runtime then close_begin runtime else runtime) <$> g, None).
