(* ===== verification/ChassisSafety.v ===== *)
(** ChassisSafety: what the chassis bridge guarantees about traction.

    - a cycle transmits torque only when the operator asks for it, every latch is
      open, the profile is active, and the speed, gear and operator inputs are fresh
     
      ([bridge_traction_guarded]). *)
From S2P Require Export ChassisApi VcuMachine.

(** ** Frame lemmas: what the helpers leave alone *)

(** The members only the safety blocks change. *)
Definition safety_view (s : BridgeRuntime) :=
  (rt_controller s, rt_hard_overspeed_latched s, rt_chassis_control_fault_latched s,
   rt_control_watchdog_latched s, rt_software_estop s, rt_clear_soft_stop_requested s).

(** The inputs of a cycle: configuration and feedback bookkeeping. *)
Definition config_view (s : BridgeRuntime) :=
  (rt_speed_control s, rt_runtime_control s, rt_last_seen s, rt_session_ready_latched s,
   rt_operator_idle s, rt_full_scale_motor_torque_nm s, rt_physical_brake_input s,
   rt_max_ordinary_brake_pressure_bar s).

Definition bridge_view (s : BridgeRuntime) := (safety_view s, config_view s).

Lemma latch_provenance_view source reason s :
  bridge_view (latch_stop_provenance source reason s) = bridge_view s.
Proof.
  unfold latch_stop_provenance. destruct (_ || _ || _ || _); destruct (negb _ && negb _); done.
Qed.

Lemma clear_provenance_view s : bridge_view (clear_stop_provenance s) = bridge_view s.
Proof. unfold clear_stop_provenance. by destruct (_ =? _). Qed.

Lemma reset_pid_view s : bridge_view (reset_speed_pid s) = bridge_view s.
Proof. done. Qed.

Lemma reset_traction_view s : bridge_view (reset_direct_traction s) = bridge_view s.
Proof. done. Qed.

Lemma withdraw_view s : bridge_view (withdraw_latest_traction s) = bridge_view s.
Proof. unfold withdraw_latest_traction. by destruct (rt_latest_intent_valid s). Qed.

Lemma hold_gear_view longitudinal s :
  bridge_view (hold_rejected_gear longitudinal s) = bridge_view s.
Proof. unfold hold_rejected_gear. by destruct (rt_latest_intent_valid s). Qed.

Lemma snapshot_view s : bridge_view (update_feedback_snapshot s) = bridge_view s.
Proof. done. Qed.

(** A view equality, field by field. *)
Lemma view_controller s s' : bridge_view s' = bridge_view s -> rt_controller s' = rt_controller s.
Proof. by intros [=]. Qed.

Lemma view_config s s' : bridge_view s' = bridge_view s -> config_view s' = config_view s.
Proof. by intros [= ]; unfold config_view; congruence. Qed.

Lemma view_safety s s' : bridge_view s' = bridge_view s -> safety_view s' = safety_view s.
Proof. by intros [= ]; unfold safety_view; congruence. Qed.

Lemma view_hard s s' :
  bridge_view s' = bridge_view s -> rt_hard_overspeed_latched s' = rt_hard_overspeed_latched s.
Proof. by intros [=]. Qed.

(** ** Controllers that may still transmit torque *)

(** The phases from which a tick can end in [Ready], without a demanded stop. *)
Definition live (c : ParallelController) : Prop :=
  ctl_emergency_stop c = false /\ (ctl_state c = Ready \/ ctl_state c = WaitActuatorModes).

Lemma advance_keeps_stop c :
  ctl_emergency_stop (advance_state c) = false -> ctl_emergency_stop c = false.
Proof.
  destruct (advance_state_cases c) as [[_ ->] | [_ [(_ & _ & ->) | [[_ ->] | ->]]]]; try done.
  - by destruct (begin_disarm_flags c) as (-> & _).
  - unfold advance_phase. destruct (ctl_state c); try done;
      (match goal with |- context [if ?b then _ else _] => destruct b end; done).
Qed.

Lemma advance_to_ready c :
  ctl_state (advance_state c) = Ready -> ctl_state c = Ready \/ ctl_state c = WaitActuatorModes.
Proof.
  intros H. destruct (vcu_step_moves OpTick c) as [E | [E _]].
  - left. change (vcu_step OpTick c) with (advance_state c) in E. congruence.
  - change (vcu_step OpTick c) with (advance_state c) in E. rewrite H in E.
    destruct (edge_into_ready _ _ E) as [Hw _]. by right.
Qed.

Lemma open_live c : traction_open (advance_state c) = true -> live c.
Proof.
  unfold traction_open. rewrite !andb_true_iff. intros [[Hr%bool_decide_eq_true Hs] _].
  apply negb_true_iff in Hs. unfold stop_demanded in Hs. apply orb_false_iff in Hs as [Hs _].
  split; [by apply advance_keeps_stop | by apply advance_to_ready].
Qed.

Lemma fault_not_live c : ctl_state c = VcuFault -> ~ live c.
Proof. intros H [_ [H' | H']]; congruence. Qed.

Lemma stopped_not_live c : ctl_emergency_stop c = true -> ~ live c.
Proof. intros H [H' _]; congruence. Qed.

Lemma emergency_stop_state c :
  ctl_state (emergency_stop c) = ctl_state c \/ ~ live (emergency_stop c).
Proof. right. apply stopped_not_live, emergency_stop_flags. Qed.

Lemma emergency_stop_fault c :
  ctl_state c = VcuFault -> ctl_state (emergency_stop c) = VcuFault.
Proof.
  intros H. unfold emergency_stop, begin_arming_emergency_disarm.
  change (ctl_state (c <| ctl_emergency_stop := true |>)) with (ctl_state c). rewrite H. exact H.
Qed.

Lemma set_command_live command c :
  live (set_command command c).2 ->
  (set_command command c).1 = true /\ ctl_desired (set_command command c).2 = command /\
  live c \/ (set_command command c).1 = false.
Proof.
  unfold set_command. destruct (_ || _); [by right | left]. revert H.
  destruct (_ && _ && _).
  - intros Hl. exfalso. revert Hl. apply stopped_not_live, emergency_stop_flags.
  - cbn [fst snd]. destruct (_ && bool_decide _); intros [He Hs]; [| done].
    cbn in Hs. by destruct Hs.
Qed.

(** ** The blocks of the cycle *)
Lemma normalized_output_view now dt c s :
  bridge_view (normalized_output_block now dt c s).2 = bridge_view s.
Proof.
  unfold normalized_output_block. destruct (_ && _ && _); [done |].
  destruct (traction_pid_active now c s); [| done].
  assert (E : bridge_view (pid_reference_block c s) = bridge_view s).
  { unfold pid_reference_block.
    destruct (_ =? _); destruct (speed_pid_setpoint_requires_reset _ _ _ _ _); done. }
  destruct (speed_pid_step _ _ _ _ _ _) as [output state]. exact E.
Qed.

Lemma torque_block_view active output dt s :
  bridge_view (torque_block active output dt s) = bridge_view s.
Proof. unfold torque_block. by destruct (_ && _). Qed.

(** No torque without an active PID and a positive output. *)
Lemma torque_block_zero active output dt s :
  active && (output >ᵈ d_zero) = false ->
  rt_last_traction_torque_magnitude_nm (torque_block active output dt s) = d_zero.
Proof. unfold torque_block. by intros ->. Qed.

Lemma latch_hard_overspeed_latched reason s :
  rt_hard_overspeed_latched (latch_hard_overspeed reason s) = true.
Proof. done. Qed.

Lemma clear_block_hard c s :
  rt_hard_overspeed_latched (clear_soft_stop_block c s) = rt_hard_overspeed_latched s.
Proof.
  unfold clear_soft_stop_block. destruct (_ && _ && _ && _ && _ && _); [| done].
  match goal with |- rt_hard_overspeed_latched (clear_stop_provenance ?x) = _ =>
    pose proof (clear_provenance_view x) as E end.
  exact (view_hard _ _ E).
Qed.

(** The motion the local speed guard reacts to. *)
Definition local_overspeed (c : CycleInputs) (s : BridgeRuntime) : bool :=
  sc_enabled (rt_speed_control s) && cy_speed_fresh c &&
  ((stationary_arming_state (cy_state c) && (d_abs (cy_measured_speed_mps c) >ᵈ d_tenth)) ||
   (speed_safety_active_state (cy_state c) &&
    hard_overspeed (sc_hard_speed_limit_mps (rt_speed_control s)) (cy_measured_speed_mps c)
      (sc_hard_overspeed_margin_mps (rt_speed_control s)))).

(** A block that latches a local overspeed, seen when it did not. *)
Lemma arming_block_open c s :
  cy_physical_emergency_latched c = false ->
  rt_hard_overspeed_latched (arming_motion_block c s) = false ->
  arming_motion_block c s = s /\
  sc_enabled (rt_speed_control s) && stationary_arming_state (cy_state c) && cy_speed_fresh c &&
  (d_abs (cy_measured_speed_mps c) >ᵈ d_tenth) = false.
Proof.
  unfold arming_motion_block. intros ->. cbn [negb andb].
  destruct (rt_hard_overspeed_latched s) eqn:E; cbn [negb andb]; [by rewrite E |].
  match goal with |- context [if ?b then _ else _] => destruct b end; [| done].
  by rewrite latch_hard_overspeed_latched.
Qed.

Lemma overspeed_block_open c s :
  cy_physical_emergency_latched c = false ->
  rt_hard_overspeed_latched (overspeed_block c s) = false ->
  overspeed_block c s = s /\
  sc_enabled (rt_speed_control s) && speed_safety_active_state (cy_state c) &&
  cy_speed_fresh c &&
  hard_overspeed (sc_hard_speed_limit_mps (rt_speed_control s)) (cy_measured_speed_mps c)
    (sc_hard_overspeed_margin_mps (rt_speed_control s)) = false.
Proof.
  unfold overspeed_block. intros ->. cbn [negb andb].
  destruct (rt_hard_overspeed_latched s) eqn:E; cbn [negb andb]; [by rewrite E |].
  unfold hard_overspeed_latch. cbn [orb].
  match goal with |- context [if ?b then _ else _] => destruct b end; [| done].
  by rewrite latch_hard_overspeed_latched.
Qed.

(** When nothing latched, the safety blocks only clear a soft stop and set the parking. *)
Lemma safety_blocks_open now c s :
  cy_physical_emergency_latched c = false ->
  rt_hard_overspeed_latched (safety_blocks now c s) = false ->
  safety_blocks now c s = automatic_parking_block now c (clear_soft_stop_block c s) /\
  rt_hard_overspeed_latched s = false /\ local_overspeed c s = false.
Proof.
  intros Hp. unfold safety_blocks.
  change (rt_hard_overspeed_latched (automatic_parking_block now c ?x))
    with (rt_hard_overspeed_latched x).
  rewrite clear_block_hard. unfold physical_emergency_block. rewrite Hp. cbn [negb].
  intros H. destruct (overspeed_block_open _ _ Hp H) as [E2 F2]. rewrite E2 in H |- *.
  destruct (arming_block_open _ _ Hp H) as [E1 F1]. rewrite E1 in H, F2 |- *.
  split_and!; [done | done |]. unfold local_overspeed.
  destruct (sc_enabled _), (cy_speed_fresh c); cbn [andb] in *; try done.
  rewrite !andb_true_r in F1, F2. by rewrite F1, F2.
Qed.

(** The clear block acts only when asked to, with the vehicle ready. *)
Lemma clear_block_cases c s :
  clear_soft_stop_block c s = s \/
  (rt_clear_soft_stop_requested s = true /\ cy_speed_fresh c = true /\
   cy_actual_gear_matches c = true /\ ready (rt_controller s) = true /\
   rt_controller (clear_soft_stop_block c s) = clear_emergency_stop (rt_controller s) /\
   config_view (clear_soft_stop_block c s) = config_view s).
Proof.
  unfold clear_soft_stop_block. destruct (_ && _ && _ && _ && _ && _) eqn:E; [right | by left].
  rewrite !andb_true_iff in E. destruct E as [[[[[E1 _] _] E4] E5] E6].
  match goal with |- context [clear_stop_provenance ?x] =>
    pose proof (clear_provenance_view x) as Ev end.
  split_and!; try done; [by rewrite (view_controller _ _ Ev) | by rewrite (view_config _ _ Ev)].
Qed.

Lemma at_repeat_D x n index : (index < n)%nat -> at_D (repeat x n) index = x.
Proof. intros H. unfold at_D. by rewrite nth_repeat_lt. Qed.

(** The torque of a command is that of its direction and magnitude, or zero. *)
Lemma bridge_command_torque c base s index :
  (index < kMotorCount)%nat ->
  at_D (vc_motor_torque_nm (bridge_command c base s)) index = d_zero \/
  at_D (vc_motor_torque_nm (bridge_command c base s)) index =
    directional_motor_torque_nm (ci_gear (cy_intent c)) (rt_last_traction_torque_magnitude_nm s).
Proof.
  intros Hi. unfold bridge_command. cbv zeta.
  destruct (_ && negb (rt_session_ready_latched s)); [left; apply at_zeros |].
  destruct (rt_physical_brake_input s) eqn:Ep; cbn [andb];
    [destruct (cy_brake_requested c); [left; apply at_zeros |] |];
    right; exact (at_repeat_D _ _ _ Hi).
Qed.

(** ** From a transmitted torque back to the inputs of the cycle *)
Lemma chassis_fault_state s : ctl_state (rt_controller (latch_chassis_control_fault s)) = VcuFault.
Proof. unfold latch_chassis_control_fault. by rewrite (view_controller _ _ (withdraw_view _)). Qed.

Lemma latched_stop_live c s :
  live (rt_controller (latched_stop_block c s)) ->
  rt_controller (latched_stop_block c s) = rt_controller s.
Proof.
  unfold latched_stop_block. destruct (_ || _); [| done].
  intros H. exfalso. revert H. apply stopped_not_live, emergency_stop_flags.
Qed.

Lemma live_accepts c :
  live c -> state_in (ctl_state c) [DisarmTorque; DisarmStop; DisarmNeutral; DisarmParkingBrake;
                                    DisarmManual; Disarmed; VcuFault] = false.
Proof. by intros [_ [-> | ->]]. Qed.

Lemma submit_live command s :
  live (rt_controller (submit_command command s)) ->
  ctl_desired (rt_controller (submit_command command s)) = command /\ live (rt_controller s).
Proof.
  unfold submit_command. rewrite negb_involutive.
  destruct (state_in _ _) eqn:Ea; [by intros H%live_accepts; congruence |].
  pose proof (set_command_live command (rt_controller s)) as Hs.
  destruct (set_command command (rt_controller s)) as [accepted controller]. cbn [fst snd] in Hs.
  destruct accepted.
  - intros H. by destruct (Hs H) as [(_ & Hd & Hl) | ?].
  - intros H. exfalso. revert H. apply stopped_not_live, emergency_stop_flags.
Qed.

(** Whatever the earlier blocks left, torque after the vendor's answer means that the
    PID was active and the answer was usable. *)
Lemma torque_needs_active chassis now dt c s index :
  (index < kMotorCount)%nat ->
  let active := traction_pid_active now c s in
  let r := normalized_output_block now dt c s in
  let s3 := torque_block active r.1 dt r.2 in
  let s4 := command_block chassis c r.1 s3 in
  live (rt_controller s4) ->
  at_D (vc_motor_torque_nm (ctl_desired (rt_controller s4))) index <> d_zero ->
  active = true /\ live (rt_controller s) /\
  exists vehicle controls base,
    chassis vehicle = Controls controls /\
    command_from_chassis_control (ci_gear (cy_intent c)) controls = Some base.
Proof.
  intros Hi active r s3 s4 Hl Ht.
  assert (Hv : rt_controller s3 = rt_controller s).
  { apply view_controller. unfold s3, r. rewrite torque_block_view. apply normalized_output_view. }
  unfold s4, command_block in Hl, Ht.
  destruct (chassis _) as [| | controls] eqn:Ec;
    [destruct (fault_not_live _ (chassis_fault_state _) Hl) .. |].
  destruct (command_from_chassis_control _ controls) as [base |] eqn:Eb;
    [| destruct (fault_not_live _ (chassis_fault_state _) Hl)].
  pose proof (latched_stop_live _ _ Hl) as El. rewrite El in Hl, Ht. clear El.
  destruct (submit_live _ _ Hl) as [Hd Hl3]. rewrite Hv in Hl3.
  split_and!; [| done | by eexists _, _, _].
  destruct active eqn:Ea; [done | exfalso; apply Ht].
  rewrite Hd. destruct (bridge_command_torque c base s3 index Hi) as [-> | ->]; [done |].
  unfold s3. rewrite torque_block_zero by done. done.
Qed.

(** ** The guard of the cycle *)

(** Everything that must hold at the start of a cycle for it to transmit torque: no
    watchdog fires, nothing is latched, or what was latched is a soft stop an accepted
    intent asked to clear; the profile is active; speed and gear are fresh, the
    measured gear is the requested driving gear; the operator asks for traction with
    a positive target; the controller is ready and parking is not in the way. *)
Definition traction_admissible (now : Z) (s : BridgeRuntime) : bool :=
  let c := cycle_inputs now s in
  negb (retained_feedback_timeout now s) && negb (first_arming_feedback_timeout now s) &&
  negb (control_watchdog_fires now s) &&
  negb (rt_chassis_control_fault_latched s) && negb (rt_hard_overspeed_latched s) &&
  negb (ctl_physical_emergency_latched (rt_controller s)) && negb (local_overspeed c s) &&
  (rt_clear_soft_stop_requested s ||
   (negb (rt_software_estop s) && negb (rt_control_watchdog_latched s) &&
    negb (ctl_emergency_stop (rt_controller s)))) &&
  sc_enabled (rt_speed_control s) && rc_active (rt_runtime_control s) &&
  cy_speed_fresh c && cy_actual_gear_matches c && cy_driving_gear c &&
  cy_traction_requested c && (ci_target_speed_mps (cy_intent c) >ᵈ d_zero) &&
  ready (rt_controller s) &&
  (negb (automatic_parking_enabled s) ||
   (negb (idle_park now s) && feedback_fresh now s &&
    parking_brakes_report kParkingBrakeRelease (rt_controller s))).

Lemma admissible_requested now s :
  traction_admissible now s = true -> cy_traction_requested (cycle_inputs now s) = true.
Proof. unfold traction_admissible. cbv zeta. rewrite !andb_true_iff. tauto. Qed.

Lemma admissible_enabled now s :
  traction_admissible now s = true -> sc_enabled (rt_speed_control s) = true.
Proof. unfold traction_admissible. cbv zeta. rewrite !andb_true_iff. tauto. Qed.

(** The watchdogs that stop the cycle leave a state no torque comes from. *)
Lemma timeout_fired now s :
  retained_feedback_timeout now s || first_arming_feedback_timeout now s = true ->
  ctl_state (rt_controller (check_feedback_timeout now s)) = VcuFault.
Proof.
  unfold check_feedback_timeout. intros ->.
  by rewrite (view_controller _ _ (withdraw_view _)).
Qed.

Lemma watchdog_fired now s :
  control_watchdog_fires now s = true ->
  safety_view (check_control_watchdog now s) =
    (emergency_stop (rt_controller s), rt_hard_overspeed_latched s,
     rt_chassis_control_fault_latched s, true, true, false).
Proof.
  unfold check_control_watchdog. intros ->. cbn [negb].
  rewrite (view_safety _ _ (withdraw_view _)).
  pose proof (view_safety _ _
    (latch_provenance_view STOP_SOURCE_WATCHDOG STOP_REASON_CONTROL_APPLY_TIMEOUT s)) as E.
  revert E. generalize (latch_stop_provenance STOP_SOURCE_WATCHDOG
    STOP_REASON_CONTROL_APPLY_TIMEOUT s). intros s1 [=]. unfold safety_view, on_controller. cbn.
  congruence.
Qed.

(** What automatic parking leaves alone. *)
Lemma set_parking_fields enabled requested stopped bar c :
  let c' := set_automatic_parking enabled requested stopped bar c in
  ctl_state c' = ctl_state c /\ ctl_emergency_stop c' = ctl_emergency_stop c /\
  ctl_feedback c' = ctl_feedback c.
Proof. unfold set_automatic_parking. by destruct (enabled && negb requested && _). Qed.

Lemma parking_block_fields now c s :
  let s' := automatic_parking_block now c s in
  ctl_state (rt_controller s') = ctl_state (rt_controller s) /\
  ctl_emergency_stop (rt_controller s') = ctl_emergency_stop (rt_controller s) /\
  ctl_feedback (rt_controller s') = ctl_feedback (rt_controller s) /\
  rt_software_estop s' = rt_software_estop s /\
  rt_control_watchdog_latched s' = rt_control_watchdog_latched s /\
  config_view s' = config_view s.
Proof.
  cbv zeta. unfold automatic_parking_block.
  destruct (set_parking_fields (automatic_parking_enabled s) (idle_park now s)
       (cy_speed_fresh c && cy_feedback_fresh c &&
        (cy_measured_speed_magnitude_mps c ≤ᵈ d_tenth))
       (automatic_parking_pressure_bar s) (rt_controller s)) as (E1 & E2 & E3).
  by split_and!.
Qed.

Lemma clear_stop_fields c :
  ctl_state (clear_emergency_stop c) = ctl_state c /\
  ctl_feedback (clear_emergency_stop c) = ctl_feedback c.
Proof. unfold clear_emergency_stop. by destruct (_ && _). Qed.

(** What an active PID says of a state. *)
Lemma active_fields now c s :
  traction_pid_active now c s = true ->
  cy_physical_emergency_latched c = false /\ rt_hard_overspeed_latched s = false /\
  rt_control_watchdog_latched s = false /\ rt_software_estop s = false /\
  ctl_state (rt_controller s) = Ready.
Proof.
  unfold traction_pid_active. rewrite !andb_true_iff, !negb_true_iff. unfold ready.
  rewrite bool_decide_eq_true. tauto.
Qed.

Lemma active_before_parking now c s :
  traction_pid_active now c (automatic_parking_block now c s) = true ->
  live (rt_controller (automatic_parking_block now c s)) ->
  rt_control_watchdog_latched s = false /\ rt_software_estop s = false /\
  ctl_state (rt_controller s) = Ready /\ ctl_emergency_stop (rt_controller s) = false.
Proof.
  intros Ha [Hl _]. destruct (active_fields _ _ _ Ha) as (_ & _ & H5 & H6 & H10).
  destruct (parking_block_fields now c s) as (F1 & F2 & _ & F4 & F5 & _).
  rewrite F1 in H10. rewrite F2 in Hl. rewrite F4 in H6. rewrite F5 in H5. by split_and!.
Qed.

(** The latches a clear request may have removed. *)
Lemma clear_block_open c s :
  rt_control_watchdog_latched (clear_soft_stop_block c s) = false ->
  rt_software_estop (clear_soft_stop_block c s) = false ->
  ctl_emergency_stop (rt_controller (clear_soft_stop_block c s)) = false ->
  rt_clear_soft_stop_requested s ||
  (negb (rt_software_estop s) && negb (rt_control_watchdog_latched s) &&
   negb (ctl_emergency_stop (rt_controller s))) = true.
Proof.
  destruct (clear_block_cases c s) as [-> | [-> _]]; [| done].
  intros -> -> ->. apply orb_true_r.
Qed.

Lemma clear_block_fields c s :
  ctl_state (rt_controller (clear_soft_stop_block c s)) = ctl_state (rt_controller s) /\
  ctl_feedback (rt_controller (clear_soft_stop_block c s)) = ctl_feedback (rt_controller s) /\
  config_view (clear_soft_stop_block c s) = config_view s.
Proof.
  destruct (clear_block_cases c s) as [-> | (_ & _ & _ & _ & -> & ->)]; [done |].
  destruct (clear_stop_fields (rt_controller s)) as [-> ->]. done.
Qed.

(** The state the safety blocks leave, under an active PID, in terms of the one they found. *)
Lemma active_blocks now c s :
  traction_pid_active now c (safety_blocks now c s) = true ->
  live (rt_controller (safety_blocks now c s)) ->
  cy_physical_emergency_latched c = false /\ rt_hard_overspeed_latched s = false /\
  local_overspeed c s = false /\
  rt_clear_soft_stop_requested s ||
   (negb (rt_software_estop s) && negb (rt_control_watchdog_latched s) &&
    negb (ctl_emergency_stop (rt_controller s))) = true /\
  ctl_state (rt_controller s) = Ready /\
  config_view (safety_blocks now c s) = config_view s /\
  ctl_feedback (rt_controller (safety_blocks now c s)) = ctl_feedback (rt_controller s).
Proof.
  intros Ha Hl. destruct (active_fields _ _ _ Ha) as (Hp & Hh1 & _).
  destruct (safety_blocks_open now c s Hp Hh1) as (E & Hh & Ho).
  rewrite E in Ha, Hl |- *. clear E Hh1.
  destruct (active_before_parking _ _ _ Ha Hl) as (H5 & H6 & H10 & Hs).
  destruct (parking_block_fields now c (clear_soft_stop_block c s)) as (_ & _ & F3 & _ & _ & F6).
  destruct (clear_block_fields c s) as (G1 & G2 & G3).
  rewrite F3, F6, G2, G3, <- G1.
  split_and!; [exact Hp | exact Hh | exact Ho | | exact H10 | reflexivity | reflexivity].
  exact (clear_block_open _ _ H5 H6 Hs).
Qed.

(** Without a firing watchdog, the command is updated from the state as it was. *)
Definition ticked (now : Z) (s : BridgeRuntime) : BridgeRuntime :=
  s <| rt_last_control_tick := Some now |>.

(** The pre-blocks of a cycle whose PID is active changed nothing. *)
Lemma watchdogs_silent now s :
  let s0 := check_control_watchdog now (check_feedback_timeout now s) in
  ctl_state (rt_controller s0) = Ready ->
  rt_clear_soft_stop_requested s0 || negb (rt_software_estop s0) = true ->
  s0 = s /\ retained_feedback_timeout now s = false /\
  first_arming_feedback_timeout now s = false /\ control_watchdog_fires now s = false.
Proof.
  intros s0. unfold s0. clear s0.
  destruct (control_watchdog_fires now (check_feedback_timeout now s)) eqn:Ew.
  - pose proof (watchdog_fired _ _ Ew) as E. unfold safety_view in E.
    injection E as _ _ _ _ -> ->. done.
  - unfold check_control_watchdog. rewrite Ew. cbn [negb].
    destruct (retained_feedback_timeout now s || first_arming_feedback_timeout now s) eqn:Et.
    + rewrite (timeout_fired _ _ Et). done.
    + apply orb_false_iff in Et as Ht. destruct Ht as [-> ->].
      unfold check_feedback_timeout in *. rewrite Et in *. done.
Qed.

Lemma config_active now c s s1 :
  config_view s1 = config_view s ->
  ctl_feedback (rt_controller s1) = ctl_feedback (rt_controller s) ->
  cy_feedback_fresh c = feedback_fresh now s ->
  traction_pid_active now c s1 = true ->
  sc_enabled (rt_speed_control s) && rc_active (rt_runtime_control s) && cy_speed_fresh c &&
  cy_actual_gear_matches c && cy_driving_gear c && cy_traction_requested c &&
  (ci_target_speed_mps (cy_intent c) >ᵈ d_zero) = true /\
  negb (automatic_parking_enabled s) ||
  (negb (idle_park now s) && feedback_fresh now s &&
   parking_brakes_report kParkingBrakeRelease (rt_controller s)) = true.
Proof.
  intros Ev Ef Efr Ha.
  assert (Es : rt_speed_control s1 = rt_speed_control s) by (injection Ev; auto).
  assert (Er : rt_runtime_control s1 = rt_runtime_control s) by (injection Ev; auto).
  assert (El : rt_session_ready_latched s1 = rt_session_ready_latched s) by (injection Ev; auto).
  assert (Ei : rt_operator_idle s1 = rt_operator_idle s) by (injection Ev; auto).
  clear Ev. revert Ha.
  unfold traction_pid_active, parking_allows_traction, automatic_parking_enabled, idle_park,
    parking_released, parking_brakes_report.
  rewrite Es, Er, El, Ei, Ef, Efr, !andb_true_iff, !orb_true_iff, !andb_true_iff. tauto.
Qed.

Lemma cycle_frames chassis now s :
  (control_cycle chassis now s).1 = (vcu_tick (rt_controller (before_tick chassis now s))).1.
Proof. unfold control_cycle. by destruct (vcu_tick _). Qed.

Lemma fault_block_state s :
  ctl_state (rt_controller (chassis_fault_block s)) = VcuFault \/
  is_disarming (ctl_state (rt_controller (chassis_fault_block s))) = true \/
  ctl_state (rt_controller (chassis_fault_block s)) = Disarmed.
Proof.
  unfold chassis_fault_block. cbv zeta.
  destruct (is_disarming (ctl_state (rt_controller s))) eqn:E; cbn [negb andb]; [by right; left |].
  case_bool_decide; cbn [negb]; [by right; right | by left].
Qed.

Lemma fault_block_not_live s : ~ live (rt_controller (chassis_fault_block s)).
Proof.
  intros [_ Hs]. destruct (fault_block_state s) as [E | [E | E]]; destruct Hs as [Hs | Hs];
    rewrite Hs in E; done.
Qed.

Lemma update_open chassis now dt s index :
  (index < kMotorCount)%nat ->
  let s' := update_command_from_intent chassis now dt s in
  live (rt_controller s') ->
  at_D (vc_motor_torque_nm (ctl_desired (rt_controller s'))) index <> d_zero ->
  let c := cycle_inputs now s in
  rt_chassis_control_fault_latched s = false /\
  traction_pid_active now c (safety_blocks now c s) = true /\
  live (rt_controller (safety_blocks now c s)) /\
  exists vehicle controls base,
    chassis vehicle = Controls controls /\
    command_from_chassis_control (ci_gear (cy_intent c)) controls = Some base.
Proof.
  intros Hi. unfold update_command_from_intent. cbv zeta.
  destruct (rt_chassis_control_fault_latched s) eqn:Ef;
    [by intros H; destruct (fault_block_not_live _ H) |].
  generalize (cycle_inputs now s). intros c. generalize (safety_blocks now c s). intros s1 Hl Ht.
  pose proof (torque_needs_active chassis now dt c s1 index Hi) as H. cbv zeta in H.
  destruct (normalized_output_block now dt c s1) as [output s2].
  split; [done |]. exact (H Hl Ht).
Qed.

(** The inputs of the cycle do not depend on the time of the last one. *)
Lemma ticked_inputs now s :
  cycle_inputs now (ticked now s) = cycle_inputs now s /\
  traction_admissible now (ticked now s) = traction_admissible now s.
Proof. split; reflexivity. Qed.

Lemma admissible_of_active now s :
  let c := cycle_inputs now s in
  retained_feedback_timeout now s = false -> first_arming_feedback_timeout now s = false ->
  control_watchdog_fires now s = false -> rt_chassis_control_fault_latched s = false ->
  traction_pid_active now c (safety_blocks now c s) = true ->
  live (rt_controller (safety_blocks now c s)) ->
  traction_admissible now s = true.
Proof.
  intros c H1 H2 H3 H4 Ha Hl.
  destruct (active_blocks _ _ _ Ha Hl) as (Hp & Hh & Ho & Hs & Hr & Hv & Hf).
  destruct (config_active now c s _ Hv Hf eq_refl Ha) as [Hc Hk].
  rewrite !andb_true_iff in Hc. destruct Hc as [[[[[[C1 C2] C3] C4] C5] C6] C7].
  change (ctl_physical_emergency_latched (rt_controller s) = false) in Hp.
  unfold traction_admissible, ready. cbv zeta.
  rewrite H1, H2, H3, H4, Hh, Hp, Hs, C1, C2, Hk. fold c.
  rewrite Ho, C3, C4, C5, C6, C7, (bool_decide_eq_true_2 _ Hr). reflexivity.
Qed.

(** A torque that is not zero, traced back through the cycle. *)
Lemma cycle_torque_guarded (chassis : VehicleState -> ChassisAnswer) (now : Z)
    (s : BridgeRuntime) (index : nat) :
  (index < kMotorCount)%nat ->
  extract_signal (frame_at (control_cycle chassis now s).1 index) 8 16 <> 32000 ->
  traction_admissible now s = true /\
  exists vehicle controls base,
    chassis vehicle = Controls controls /\
    command_from_chassis_control (ci_gear (cy_intent (cycle_inputs now s))) controls = Some base.
Proof.
  intros Hi. rewrite cycle_frames. intros Ht.
  destruct (traction_open (advance_state (rt_controller (before_tick chassis now s)))) eqn:Ho;
    [| by destruct Ht; apply closed_torque_zero].
  apply open_live in Ho as Hl.
  assert (Hd : at_D (vc_motor_torque_nm (ctl_desired
                 (rt_controller (before_tick chassis now s)))) index <> d_zero).
  { intros Hz. apply Ht. by rewrite (open_torque _ _ Hi Ho), Hz. }
  clear Ht Ho. unfold before_tick in Hl, Hd. cbv zeta in Hl, Hd.
  change (s <| rt_last_control_tick := Some now |>) with (ticked now s) in Hl, Hd.
  destruct (update_open _ _ _ _ _ Hi Hl Hd) as (Hf & Ha & Hl1 & Hv). clear Hl Hd.
  destruct (active_blocks _ _ _ Ha Hl1) as (_ & _ & _ & Hs & Hr & _).
  destruct (watchdogs_silent now (ticked now s) Hr) as (E & H1 & H2 & H3).
  { revert Hs. destruct (rt_clear_soft_stop_requested _); [done |]. cbn [orb].
    rewrite !andb_true_iff. tauto. }
  rewrite E in Hf, Ha, Hl1, Hv.
  destruct (ticked_inputs now s) as [Ec Et]. rewrite Ec in Hv.
  split; [| exact Hv]. rewrite <- Et. by apply admissible_of_active.
Qed.

(** C9. The bridge drives only on a full set of reasons.  Whatever the state of the
    bridge and whatever the vendor's library answers, when the torque field of a motor
    frame sent in a cycle is not the encoding of zero, then at the start of that cycle
    no watchdog fires, no fault, overspeed or physical emergency is latched or about to
    be, a soft stop is absent or an accepted intent asked to clear it, the runtime
    profile is active, speed and gear feedback are fresh, the measured gear is the
    requested driving gear, the operator asks for traction with a positive target, the
    controller is ready and the parking brakes are released; and the vendor's answer
    in that cycle was usable. *)
Theorem bridge_traction_guarded (chassis : VehicleState -> ChassisAnswer) (now : Z)
    (s : BridgeRuntime) (index : nat) :
  (index < kMotorCount)%nat ->
  extract_signal (frame_at (control_cycle chassis now s).1 index) 8 16 <> 32000 ->
  traction_admissible now s = true /\
  exists vehicle controls base,
    chassis vehicle = Controls controls /\
    command_from_chassis_control (ci_gear (cy_intent (cycle_inputs now s))) controls = Some base.
Proof. exact (cycle_torque_guarded chassis now s index). Qed.

(** A bridge that drives: ready in D at 1 m/s, asked for 3 m/s, everything fresh. *)
Definition demo_now : Z := 10000000000.

Definition demo_pid : SpeedPidConfig := mkSpeedPidConfig d_one d_zero d_zero d_zero 100.

Definition demo_bridge : BridgeRuntime :=
  let settings :=
    SpeedControlSettings_default <| sc_enabled := true |>
      <| sc_hard_speed_limit_mps := d_lit 10 0 |> <| sc_pid := demo_pid |> in
  (BridgeRuntime_new (d_lit 300 0) 800 settings true (d_lit 100 0))
    <| rt_running := true |>
    <| rt_runtime_control :=
         mkRuntimeControlSettings (-1) true 1 (d_lit 5 0) (d_lit 100 0) (d_lit 100 0) d_one d_zero |>
    <| rt_session_ready_latched := true |>
    <| rt_feedback_watchdog_armed := true |>
    <| rt_ready_since := demo_now |> <| rt_ready_since_valid := true |>
    <| rt_last_seen := list_to_map (map (fun id => (id, demo_now)) kCriticalFeedbackIds) |>
    <| rt_latest_intent :=
         mkControlIntent 3 (d_lit 3 0) (d_lit 5 1) (zeros kSteeringAxisCount) 1 |>
    <| rt_latest_intent_valid := true |>
    <| rt_controller := demo_ready <| ctl_desired ::= fun d => d <| vc_gear := 3 |> |>
         <| ctl_feedback ::= fun f => f <| fb_gear := 3 |> <| fb_speed_mps := d_one |>
                                        <| fb_speed_valid := true |> |> |>.

(** A vendor library that answers zeros. *)
Definition demo_chassis (vehicle : VehicleState) : ChassisAnswer :=
  Controls (repeat WheelControl_zero kMotorCount).

Lemma demo_bridge_torque :
  extract_signal (frame_at (control_cycle demo_chassis (demo_now + 20000000) demo_bridge).1 2)
    8 16 = 33000.
Proof. vm_compute. reflexivity. Qed.

Lemma bridge_traction_guarded_witness :
  let now := demo_now + 20000000 in
  extract_signal (frame_at (control_cycle demo_chassis now demo_bridge).1 2) 8 16 = 33000 /\
  traction_admissible now demo_bridge = true.
Proof.
  split; [exact demo_bridge_torque |].
  refine (proj1 (bridge_traction_guarded demo_chassis _ demo_bridge 2 _ _)).
  - unfold kMotorCount. lia.
  - rewrite demo_bridge_torque. discriminate.
Defined.
