(* ===== verification/ChassisStops.v ===== *)
(** ChassisStops: the stops of the chassis bridge act in the cycle that finds them.

    - a cycle in which a feedback deadline or the control watchdog fires brakes every
      wheel with the emergency pressure and transmits no torque ([watchdogs_brake]). *)
From S2P Require Export ChassisSafety.

(** ** Controllers that brake *)

(** The phases in which a demanded stop brakes at the next tick. *)
Definition braking (c : ParallelController) : bool :=
  state_in (ctl_state c) [DisarmTorque; VcuFault] ||
  (ctl_emergency_stop c && state_in (ctl_state c) [WaitGear; WaitActuatorModes; Ready]).

(** The controller brakes, with the given emergency command. *)
Definition brakes_with (emergency : VcuCommand) (c : ParallelController) : Prop :=
  braking c = true /\ ctl_emergency c = emergency.

Lemma emergency_stop_brakes c e :
  state_in (ctl_state c) [WaitGear; WaitActuatorModes; Ready; DisarmTorque; VcuFault] = true ->
  ctl_emergency c = e -> brakes_with e (emergency_stop c).
Proof.
  unfold brakes_with, braking, emergency_stop, begin_arming_emergency_disarm.
  change (ctl_state (c <| ctl_emergency_stop := true |>)) with (ctl_state c).
  destruct (ctl_state c) eqn:E; intros H <-; try discriminate; split; try reflexivity;
    cbn; rewrite ?E; reflexivity.
Qed.

Lemma braking_state c :
  braking c = true ->
  state_in (ctl_state c) [WaitGear; WaitActuatorModes; Ready; DisarmTorque; VcuFault] = true.
Proof. unfold braking. destruct (ctl_state c); try done; by destruct (ctl_emergency_stop c). Qed.

Lemma stop_keeps_braking c e : brakes_with e c -> brakes_with e (emergency_stop c).
Proof. intros [Hb He]. by apply emergency_stop_brakes; [apply braking_state |]. Qed.

Lemma fault_brakes c : brakes_with (ctl_emergency c) (transport_fault c).
Proof. done. Qed.

Lemma parking_keeps_braking enabled requested stopped bar c e :
  brakes_with e c -> brakes_with e (set_automatic_parking enabled requested stopped bar c).
Proof.
  unfold brakes_with, braking, set_automatic_parking.
  by destruct (enabled && negb requested && _).
Qed.

Lemma set_command_keeps_braking command c e :
  brakes_with e c -> brakes_with e (set_command command c).2.
Proof.
  intros Hb. unfold set_command. destruct (negb (command_valid command) || _) eqn:E1; [done |].
  apply orb_false_iff in E1 as [_ E1].
  destruct (negb _ && _ && _).
  - apply stop_keeps_braking. exact Hb.
  - destruct Hb as [Hb He]. cbn [snd]. unfold brakes_with, braking in *.
    change (ctl_state (c <| ctl_desired := command |>)) with (ctl_state c).
    destruct (negb _ && bool_decide _) eqn:E2; [| done].
    apply andb_true_iff in E2 as [_ E2%bool_decide_eq_true]. rewrite E2 in Hb.
    apply andb_true_iff in Hb as [Hb _]. cbn. by rewrite Hb.
Qed.

(** A tick of a braking controller sends the emergency pressure. *)
Lemma braking_advance c : braking c = true -> emergency_braking (advance_state c) = true.
Proof.
  intros Hb. pose proof (braking_state _ Hb) as Hr.
  destruct (advance_state_cases c) as [[_ ->] | [_ [(_ & _ & ->) | [[_ ->] | E]]]]; try done.
  - revert Hb Hr. unfold braking, begin_arming_emergency_disarm, emergency_braking, stop_demanded.
    destruct (ctl_state c) eqn:Es; intros Hb Hr; try discriminate Hr; cbn; rewrite ?Es; try done;
    destruct (ctl_emergency_stop c); done.
  - rewrite E. revert Hb Hr. unfold advance_phase, braking, emergency_braking, stop_demanded.
    destruct (ctl_state c) eqn:Es; intros Hb Hr; try discriminate Hr;
      try (match goal with |- context [if ?b then _ else _] => destruct b end);
      cbn; rewrite ?Es; cbn in *; try done; destruct (ctl_emergency_stop c); done.
Qed.

Lemma braking_tick c e :
  brakes_with e c ->
  emergency_braking (vcu_tick c).2 = true /\ ctl_emergency (vcu_tick c).2 = e.
Proof.
  intros [Hb He]. change (vcu_tick c).2 with (advance_state c).
  split; [by apply braking_advance | by rewrite advance_state_emergency].
Qed.

(** ** The update of the command keeps the brakes *)

(** Nothing can clear the stop, and the controller brakes. *)
Definition brakes_now (e : VcuCommand) (s : BridgeRuntime) : Prop :=
  (rt_clear_soft_stop_requested s = false \/ ctl_state (rt_controller s) = VcuFault) /\
  brakes_with e (rt_controller s).

Lemma view_clear s s' :
  bridge_view s' = bridge_view s ->
  rt_clear_soft_stop_requested s' = rt_clear_soft_stop_requested s.
Proof. by intros [=]. Qed.

Lemma view_stopping e s s' : bridge_view s' = bridge_view s -> brakes_now e s -> brakes_now e s'.
Proof.
  intros E [H1 H2]. unfold brakes_now. by rewrite (view_clear _ _ E), (view_controller _ _ E).
Qed.

Lemma latch_overspeed_stopping e reason s : brakes_now e s -> brakes_now e (latch_hard_overspeed reason s).
Proof.
  intros H. apply (view_stopping e _ _ (latch_provenance_view STOP_SOURCE_SOFTWARE_FAULT reason s)) in H.
  unfold latch_hard_overspeed. revert H.
  generalize (latch_stop_provenance STOP_SOURCE_SOFTWARE_FAULT reason s). intros s1 [H1 H2].
  split; [| exact (stop_keeps_braking _ _ H2)].
  destruct H1 as [H1 | H1]; [by left | right; exact (emergency_stop_fault _ H1)].
Qed.

Lemma physical_block_stopping e c s : brakes_now e s -> brakes_now e (physical_emergency_block c s).
Proof.
  intros H. unfold physical_emergency_block. destruct (negb _); [done |].
  apply (view_stopping e _ _ (latch_provenance_view STOP_SOURCE_PHYSICAL_EMERGENCY
    STOP_REASON_PHYSICAL_EMERGENCY_SWITCH s)) in H. revert H.
  generalize (latch_stop_provenance STOP_SOURCE_PHYSICAL_EMERGENCY
    STOP_REASON_PHYSICAL_EMERGENCY_SWITCH s). intros s1 [H1 H2].
  match goal with |- context [if ?b then _ else _] => destruct b end;
    [by split; [left |] |].
  eapply view_stopping; [apply withdraw_view | by split; [left |]].
Qed.

Lemma safety_blocks_stopping e now c s : brakes_now e s -> brakes_now e (safety_blocks now c s).
Proof.
  intros H. unfold safety_blocks.
  assert (H1 : brakes_now e (overspeed_block c (arming_motion_block c (physical_emergency_block c s)))).
  { apply (physical_block_stopping e c) in H. revert H. generalize (physical_emergency_block c s).
    intros s1 H. assert (H2 : brakes_now e (arming_motion_block c s1)).
    { unfold arming_motion_block. destruct (_ && _ && _ && _ && _ && _); [| done].
      by apply latch_overspeed_stopping. }
    revert H2. generalize (arming_motion_block c s1). intros s2 H2.
    unfold overspeed_block. destruct (_ && _ && _ && _ && _ && _); [| done].
    by apply latch_overspeed_stopping. }
  revert H1. generalize (overspeed_block c (arming_motion_block c (physical_emergency_block c s))).
  intros s1 [H1 H2].
  assert (E : clear_soft_stop_block c s1 = s1).
  { destruct (clear_block_cases c s1) as [E | (Hc & _ & _ & Hr & _)]; [done |].
    apply bool_decide_eq_true in Hr. destruct H1 as [H1 | H1]; congruence. }
  rewrite E. split; [| exact (parking_keeps_braking _ _ _ _ _ _ H2)].
  destruct H1 as [H1 | H1]; [by left | right].
  by rewrite (proj1 (parking_block_fields now c s1)).
Qed.

Lemma submit_stopping e command s :
  brakes_with e (rt_controller s) -> brakes_with e (rt_controller (submit_command command s)).
Proof.
  intros H. unfold submit_command. destruct (negb _); [done |].
  pose proof (set_command_keeps_braking command _ _ H) as Hs.
  destruct (set_command command (rt_controller s)) as [accepted controller]. cbn [snd] in Hs.
  destruct accepted; [exact Hs |].
  set (s1 := s <| rt_controller := controller |>).
  assert (H1 : brakes_with e (rt_controller s1)) by exact Hs.
  rewrite <- (view_controller _ _ (latch_provenance_view STOP_SOURCE_SOFTWARE_FAULT
    STOP_REASON_CONTROL_COMMAND_INVALID s1)) in H1.
  exact (stop_keeps_braking _ _ H1).
Qed.

Lemma chassis_fault_brakes s : brakes_with (ctl_emergency (rt_controller s))
  (rt_controller (latch_chassis_control_fault s)).
Proof.
  unfold latch_chassis_control_fault. rewrite (view_controller _ _ (withdraw_view _)).
  rewrite <- (view_controller _ _ (latch_provenance_view STOP_SOURCE_SOFTWARE_FAULT
    STOP_REASON_CHASSIS_CONTROL_FAULT s)) at 1.
  apply fault_brakes.
Qed.

Lemma latched_stop_stopping e c s :
  brakes_with e (rt_controller s) -> brakes_with e (rt_controller (latched_stop_block c s)).
Proof.
  intros H. unfold latched_stop_block. destruct (_ || _); [exact (stop_keeps_braking _ _ H) | done].
Qed.

Lemma command_block_stopping chassis e c output s :
  brakes_with e (rt_controller s) ->
  brakes_with e (rt_controller (command_block chassis c output s)).
Proof.
  intros H. pose proof (chassis_fault_brakes s) as Hf. rewrite (proj2 H) in Hf.
  unfold command_block. destruct (chassis _) as [| | controls]; [exact Hf .. |].
  destruct (command_from_chassis_control _ _); [| exact Hf].
  by apply latched_stop_stopping, submit_stopping.
Qed.

Lemma fault_block_stopping e s :
  brakes_with e (rt_controller s) -> brakes_with e (rt_controller (chassis_fault_block s)).
Proof.
  intros [H <-]. unfold chassis_fault_block. cbv zeta.
  destruct (negb _ && negb _); [exact (fault_brakes (rt_controller s)) | by split].
Qed.

Lemma update_stopping chassis e now dt s :
  brakes_now e s -> brakes_with e (rt_controller (update_command_from_intent chassis now dt s)).
Proof.
  intros H. unfold update_command_from_intent. cbv zeta.
  destruct (rt_chassis_control_fault_latched s); [apply fault_block_stopping, H |].
  generalize (cycle_inputs now s). intros c.
  apply (safety_blocks_stopping e now c) in H. revert H.
  generalize (safety_blocks now c s). intros s1 [_ H].
  rewrite <- (view_controller _ _ (normalized_output_view now dt c s1)) in H.
  destruct (normalized_output_block now dt c s1) as [output s2]. cbn [snd] in H.
  rewrite <- (view_controller _ _ (torque_block_view (traction_pid_active now c s1) output dt s2)) in H.
  by apply command_block_stopping.
Qed.

(** ** The watchdogs *)

(** One of the three deadlines of the loop is over. *)
Definition deadline_missed (now : Z) (s : BridgeRuntime) : bool :=
  retained_feedback_timeout now s || first_arming_feedback_timeout now s ||
  control_watchdog_fires now s.

Lemma timeout_controller now s :
  retained_feedback_timeout now s || first_arming_feedback_timeout now s = true ->
  rt_controller (check_feedback_timeout now s) = transport_fault (rt_controller s).
Proof.
  unfold check_feedback_timeout. cbv zeta. intros ->.
  rewrite (view_controller _ _ (withdraw_view _)).
  match goal with |- context [latch_stop_provenance ?a ?b ?x] =>
    exact (f_equal transport_fault (view_controller _ _ (latch_provenance_view a b x))) end.
Qed.

Lemma watchdog_state now s :
  control_watchdog_fires now s = true ->
  state_in (ctl_state (rt_controller s)) [WaitGear; WaitActuatorModes; Ready; DisarmTorque; VcuFault]
    = true.
Proof.
  unfold control_watchdog_fires, control_watchdog_expired. rewrite !andb_true_iff.
  intros [[[[[_ H] _] _] _] _]. revert H. unfold speed_safety_active_state.
  by destruct (ctl_state (rt_controller s)).
Qed.

Lemma timeout_stopping now s :
  retained_feedback_timeout now s || first_arming_feedback_timeout now s = true ->
  brakes_now (ctl_emergency (rt_controller s)) (check_feedback_timeout now s).
Proof.
  intros H. unfold brakes_now. rewrite (timeout_controller _ _ H).
  split; [by right | apply fault_brakes].
Qed.

Lemma watchdog_stopping now s :
  control_watchdog_fires now s = true ->
  brakes_now (ctl_emergency (rt_controller s)) (check_control_watchdog now s).
Proof.
  intros H. pose proof (watchdog_fired _ _ H) as E. unfold safety_view in E.
  assert (Ec : rt_controller (check_control_watchdog now s) = emergency_stop (rt_controller s))
    by (injection E; auto).
  assert (Er : rt_clear_soft_stop_requested (check_control_watchdog now s) = false)
    by (injection E; auto).
  unfold brakes_now. rewrite Ec, Er. split; [by left |].
  by apply emergency_stop_brakes; [eapply watchdog_state |].
Qed.

Lemma watchdog_keeps_stopping now e s : brakes_now e s -> brakes_now e (check_control_watchdog now s).
Proof.
  intros H. destruct (control_watchdog_fires now s) eqn:E.
  - rewrite <- (proj2 (proj2 H)). by apply watchdog_stopping.
  - unfold check_control_watchdog. by rewrite E.
Qed.

Lemma deadline_stopping now s :
  deadline_missed now s = true ->
  brakes_now (ctl_emergency (rt_controller s))
    (check_control_watchdog now (check_feedback_timeout now s)).
Proof.
  unfold deadline_missed. intros H. destruct (retained_feedback_timeout now s ||
    first_arming_feedback_timeout now s) eqn:E.
  - by apply watchdog_keeps_stopping, timeout_stopping.
  - unfold check_feedback_timeout. rewrite E. by apply watchdog_stopping.
Qed.

(** C17. A missed deadline brakes in the same cycle.  When the feedback of a driving or
    arming session is late, or no control has been applied within the timeout while the
    session is kept, then in that very cycle, whatever the vendor's library answers and
    whatever was requested, each of the eight brakes is commanded by wire with the
    pressure of the emergency command and every motor's torque is zero. *)
Theorem watchdogs_brake (chassis : VehicleState -> ChassisAnswer) (now : Z)
    (s : BridgeRuntime) (wheel : nat) :
  (wheel < kBrakeCount)%nat -> deadline_missed now s = true ->
  let frames := (control_cycle chassis now s).1 in
  let frame := frame_at frames (10 + wheel / 4) in
  let base := Z.of_nat (wheel mod 4) * 16 in
  extract_signal frame base 4 = kByWireMode /\
  extract_signal frame (base + 4) 12 =
    encode_physical (at_D (vc_brake_pressure_bar (ctl_emergency (rt_controller s))) wheel)
      (d_lit 1 1) d_zero 12 d_zero (d_lit 4095 1) /\
  extract_signal (frame_at frames wheel) 8 16 = 32000.
Proof.
  intros Hw Hd. cbv zeta. rewrite cycle_frames. unfold before_tick. cbv zeta.
  change (s <| rt_last_control_tick := Some now |>) with (ticked now s).
  pose proof (update_stopping chassis _ now (control_dt_seconds now s) _
                (deadline_stopping now (ticked now s) Hd)) as H.
  change (ctl_emergency (rt_controller (ticked now s))) with (ctl_emergency (rt_controller s)) in H.
  revert H. generalize (update_command_from_intent chassis now (control_dt_seconds now s)
    (check_control_watchdog now (check_feedback_timeout now (ticked now s)))).
  intros s1 H. destruct (braking_tick _ _ H) as [Hb He].
  destruct (emergency_brake_frame (rt_controller s1) wheel Hw Hb) as (H1 & H2 & H3).
  rewrite He in H2. split; [exact H1 |]. split; [exact H2 |].
  by apply closed_torque_zero.
Qed.

(** The driving bridge of the examples, silent for a second. *)
Lemma watchdogs_brake_witness :
  let s := demo_bridge <| rt_controller ::= fun c =>
             c <| ctl_emergency ::= fun d =>
                    d <| vc_brake_pressure_bar :=
                           repeat MAX_EMERGENCY_BRAKE_PRESSURE_BAR kBrakeCount |> |> |> in
  let now := demo_now + 1000000000 in
  deadline_missed now s = true /\
  extract_signal (frame_at (control_cycle demo_chassis now s).1 11) 20 12 = 4095.
Proof.
  intros s now. assert (Hd : deadline_missed now s = true) by (vm_compute; reflexivity).
  split; [exact Hd |].
  destruct (watchdogs_brake demo_chassis now s 5 ltac:(unfold kBrakeCount; lia) Hd) as (_ & H & _).
  etransitivity; [exact H | vm_compute; reflexivity].
Defined.
