(* ===== verification/ChassisRuns.v ===== *)
(** ChassisRuns: the operations of the bridge as a transition system, and what holds
    over its runs.

    Every operation takes the mutex of the runtime for its whole body, so any
    interleaving of the callers and the I/O thread is a list of these steps.

    - the overspeed and vendor fault latches hold until a session is accepted, or for
      ever, and close traction meanwhile ([bridge_latch_holds]);
    - the stored intent asks for traction only within the active profile
      ([intent_within_profile]);
    - once withdrawn, it asks for none until a new intent is accepted
      ([withdrawn_until_intent]);
    - a bridge opened through an old entry point never requests torque
      ([legacy_open_no_traction]).

    [tame] relates the states of an operation that can only take traction away. *)
From S2P Require Export ChassisStops.

(** ** Steps *)

Inductive BridgeOp : Type :=
| BoStart (log_opens socket_opens : bool) (initial emergency : VcuCommand)
| BoIngest (frame : CanFrame) (now : Z)
| BoStoreIntent (now gear : Z) (target_speed_mps normalized_longitudinal : double)
    (steering_values : list double) (steering_count : Z) (operator_active : bool)
| BoConfigure (now : Z) (config : BridgeRuntimeControlConfigV3) (sizeof_config version : Z)
    (has_rise_rate : bool) (rise_rate : double) (parking_idle_timeout_ms : Z)
| BoClearProfile
| BoStopContext (context : BridgeStopContextV1)
| BoEmergencyStop
| BoHandshake (now : Z)
| BoPark
| BoFailApply
| BoPoll
| BoCloseBegin
| BoCloseEnd
| BoCycle (chassis : VehicleState -> ChassisAnswer) (now : Z)
| BoReceiveFailed (receive_result : Z)
| BoSendResult (all_sent : bool)
| BoIoException.

Definition bridge_step (op : BridgeOp) (s : BridgeRuntime) : BridgeRuntime :=
  match op with
  | BoStart log_opens socket_opens initial emergency =>
      (bridge_start log_opens socket_opens initial emergency s).2
  | BoIngest frame now => ingest_locked frame now s
  | BoStoreIntent now gear speed longitudinal steering count active =>
      (store_intent now gear speed longitudinal steering count active s).2
  | BoConfigure now config size version has_rate rate timeout =>
      (configure_runtime_control now config size version has_rate rate timeout s).2
  | BoClearProfile => (clear_runtime_control s).2
  | BoStopContext context => (set_stop_context context s).2
  | BoEmergencyStop => (bridge_emergency_stop s).2
  | BoHandshake now => (bridge_request_parallel_handshake now s).2
  | BoPark => (request_park s).2
  | BoFailApply => fail_control_apply s
  | BoPoll => (bridge_poll s).2
  | BoCloseBegin => close_begin s
  | BoCloseEnd => close_end s
  | BoCycle chassis now => (control_cycle chassis now s).2
  | BoReceiveFailed result => receive_failed result s
  | BoSendResult all_sent => send_result all_sent s
  | BoIoException => io_loop_exception s
  end.

Definition bridge_run (ops : list BridgeOp) (s : BridgeRuntime) : BridgeRuntime :=
  foldl (fun s op => bridge_step op s) s ops.

(** The step accepts a new session. *)
Definition starts_session (op : BridgeOp) (s : BridgeRuntime) : bool :=
  match op with
  | BoHandshake now => (bridge_request_parallel_handshake now s).1
  | _ => false
  end.

Fixpoint no_session (ops : list BridgeOp) (s : BridgeRuntime) : bool :=
  match ops with
  | [] => true
  | op :: ops => negb (starts_session op s) && no_session ops (bridge_step op s)
  end.

(** ** Latches *)

(** The two latches and the switch of the speed controller. *)
Definition latch_view (s : BridgeRuntime) :=
  (rt_hard_overspeed_latched s, rt_chassis_control_fault_latched s,
   sc_enabled (rt_speed_control s)).

(** The intent asks for no traction, or is within the active profile. *)
Definition intent_fits (i : ControlIntent) (control : RuntimeControlSettings) (full_scale : double) :
    Prop :=
  (ci_normalized_longitudinal i >ᵈ d_zero) = true ->
  rc_active control = true /\
  (ci_target_speed_mps i >ᵈ rc_target_speed_limit_mps control ⊕ d_nano) = false /\
  (ci_normalized_longitudinal i >ᵈ
   (if full_scale >ᵈ d_zero then rc_max_motor_torque_nm control ⊘ full_scale else d_zero) ⊕ d_nano)
    = false.

Definition intent_inv (s : BridgeRuntime) : Prop :=
  intent_fits (rt_latest_intent s) (rt_runtime_control s) (rt_full_scale_motor_torque_nm s).

(** What an operation may do to the latches and the intent: a latch stays, and the
    intent is as it was under the same profile, or asks for no traction; the speed
    controller is enabled or not as it was. *)
Definition tame (s s' : BridgeRuntime) : Prop :=
  (rt_hard_overspeed_latched s = true -> rt_hard_overspeed_latched s' = true) /\
  (rt_chassis_control_fault_latched s = true -> rt_chassis_control_fault_latched s' = true) /\
  ((rt_latest_intent s' = rt_latest_intent s /\ rt_runtime_control s' = rt_runtime_control s /\
    rt_full_scale_motor_torque_nm s' = rt_full_scale_motor_torque_nm s) \/
   (ci_normalized_longitudinal (rt_latest_intent s') >ᵈ d_zero) = false) /\
  sc_enabled (rt_speed_control s') = sc_enabled (rt_speed_control s).

#[export] Instance tame_refl : Reflexive tame.
Proof. intros s. split_and!; [done | done | by left | done]. Qed.

#[export] Instance tame_trans : Transitive tame.
Proof.
  intros s1 s2 s3 (A1 & A2 & A3 & A4) (B1 & B2 & B3 & B4).
  split_and!; [tauto | tauto | | congruence].
  destruct B3 as [(-> & -> & ->) | B3]; [exact A3 | by right].
Qed.

(** The fields [tame] reads, for operations that leave them alone. *)
Definition tame_view (s : BridgeRuntime) :=
  (rt_hard_overspeed_latched s, rt_chassis_control_fault_latched s, rt_latest_intent s,
   rt_runtime_control s, rt_full_scale_motor_torque_nm s, sc_enabled (rt_speed_control s)).

Lemma tame_of_view s s' : tame_view s' = tame_view s -> tame s s'.
Proof.
  intros [=]. split_and!; [congruence | congruence | left; split_and!; congruence | congruence].
Qed.

Lemma tame_inv s s' : tame s s' -> intent_inv s -> intent_inv s'.
Proof.
  intros (_ & _ & [(E1 & E2 & E3) | H] & _) Hi; unfold intent_inv, intent_fits in *.
  - by rewrite E1, E2, E3.
  - congruence.
Qed.

(** ** What each helper does to them *)
Lemma tame_latch_provenance source reason s : tame s (latch_stop_provenance source reason s).
Proof.
  apply tame_of_view. unfold latch_stop_provenance.
  destruct (_ || _ || _ || _); destruct (negb _ && negb _); done.
Qed.

Lemma tame_clear_provenance s : tame s (clear_stop_provenance s).
Proof. apply tame_of_view. unfold clear_stop_provenance. by destruct (_ =? _). Qed.

Lemma tame_on_controller f s : tame s (on_controller f s).
Proof. by apply tame_of_view. Qed.

Lemma tame_reset_pid s : tame s (reset_speed_pid s).
Proof. by apply tame_of_view. Qed.

Lemma tame_reset_traction s : tame s (reset_direct_traction s).
Proof. by apply tame_of_view. Qed.

Lemma tame_snapshot s : tame s (update_feedback_snapshot s).
Proof. by apply tame_of_view. Qed.

Lemma tame_withdraw s : tame s (withdraw_latest_traction s).
Proof.
  unfold withdraw_latest_traction.
  split_and!; [| | right |]; by destruct (rt_latest_intent_valid s).
Qed.

Lemma not_positive_min x : (d_min d_zero x >ᵈ d_zero) = false.
Proof. unfold d_min. destruct (x <ᵈ d_zero) eqn:E; [| done]. by apply d_le_not_lt, d_lt_le. Qed.

Lemma tame_hold_gear longitudinal s : tame s (hold_rejected_gear longitudinal s).
Proof.
  unfold hold_rejected_gear.
  split_and!; [| | right |]; destruct (rt_latest_intent_valid s); try done;
    apply not_positive_min.
Qed.

Lemma tame_pending_stop source reason s : tame s (latch_pending_stop source reason s).
Proof.
  unfold latch_pending_stop, consume_stop_context.
  etransitivity; [| apply tame_latch_provenance]. by apply tame_of_view.
Qed.

(** A record update of other fields is tame; this applies it to the last update. *)
Ltac tame_fields := apply tame_of_view; reflexivity.

Lemma tame_raise_overspeed s : tame s (s <| rt_hard_overspeed_latched := true |>).
Proof. split_and!; [done | done | by left | done]. Qed.

Lemma tame_raise_fault s : tame s (s <| rt_chassis_control_fault_latched := true |>).
Proof. split_and!; [done | done | by left | done]. Qed.

(** Peels the outermost helper of a composition. *)
Ltac tame_peel :=
  match goal with
  | |- tame ?s ?s => reflexivity
  | |- tame _ (latch_stop_provenance ?a ?b ?x) =>
      transitivity x; [| apply tame_latch_provenance]
  | |- tame _ (clear_stop_provenance ?x) => transitivity x; [| apply tame_clear_provenance]
  | |- tame _ (latch_pending_stop ?a ?b ?x) => transitivity x; [| apply tame_pending_stop]
  | |- tame _ (on_controller ?f ?x) => transitivity x; [| apply tame_on_controller]
  | |- tame _ (withdraw_latest_traction ?x) => transitivity x; [| apply tame_withdraw]
  | |- tame _ (hold_rejected_gear ?l ?x) => transitivity x; [| apply tame_hold_gear]
  | |- tame _ (reset_speed_pid ?x) => transitivity x; [| apply tame_reset_pid]
  | |- tame _ (reset_direct_traction ?x) => transitivity x; [| apply tame_reset_traction]
  | |- tame _ (update_feedback_snapshot ?x) => transitivity x; [| apply tame_snapshot]
  | |- tame _ (?x <| rt_hard_overspeed_latched := true |>) =>
      transitivity x; [| apply tame_raise_overspeed]
  | |- tame _ (?x <| rt_chassis_control_fault_latched := true |>) =>
      transitivity x; [| apply tame_raise_fault]
  | |- tame _ (set_field _ _ ?x) => transitivity x; [| generalize x; intro; tame_fields]
  | |- tame _ (if ?b then _ else _) => destruct b
  end.

Ltac tame_all := cbv zeta; repeat tame_peel.

Lemma tame_emergency_stop s : tame s (bridge_emergency_stop s).2.
Proof. unfold bridge_emergency_stop. destruct (negb _); cbn [snd]; tame_all. Qed.

Lemma tame_park s : tame s (request_park s).2.
Proof. unfold request_park. destruct (negb _); cbn [snd]; tame_all. Qed.

Lemma tame_fail_apply s : tame s (fail_control_apply s).
Proof. unfold fail_control_apply. tame_all. Qed.

Lemma tame_close s : tame s (close_begin s).
Proof. unfold close_begin. tame_all. Qed.

Lemma tame_receive_failed result s : tame s (receive_failed result s).
Proof. unfold receive_failed. tame_all. Qed.

Lemma tame_exception s : tame s (io_loop_exception s).
Proof. unfold io_loop_exception. tame_all. Qed.

Lemma tame_send_result all_sent s : tame s (send_result all_sent s).
Proof. unfold send_result. tame_all. Qed.

Lemma tame_ingest frame now s : tame s (ingest_locked frame now s).
Proof.
  unfold ingest_locked. destruct (ingest frame (rt_controller s)) as [known controller].
  destruct known; cbn [negb]; tame_all.
Qed.

Lemma tame_stop_context context s : tame s (set_stop_context context s).2.
Proof. unfold set_stop_context. cbv zeta. destruct (_ || _); cbn [snd]; tame_all. Qed.

Lemma tame_poll s : tame s (bridge_poll s).2.
Proof.
  unfold bridge_poll. cbv zeta.
  repeat match goal with |- context [if ?b then _ else _] => destruct b; [reflexivity |] end.
  cbn [snd]. tame_all.
Qed.

Lemma tame_start log_opens socket_opens initial emergency s :
  tame s (bridge_start log_opens socket_opens initial emergency s).2.
Proof.
  unfold bridge_start. destruct (set_command initial _) as [ok1 c1].
  destruct (if ok1 then _ else _) as [ok2 c2].
  destruct ok2, log_opens, socket_opens; cbn [negb snd]; tame_all.
Qed.

(** ** The cycle *)
Lemma tame_feedback_timeout now s : tame s (check_feedback_timeout now s).
Proof. unfold check_feedback_timeout. tame_all. Qed.

Lemma tame_control_watchdog now s : tame s (check_control_watchdog now s).
Proof. unfold check_control_watchdog. tame_all. Qed.

Lemma tame_chassis_fault s : tame s (latch_chassis_control_fault s).
Proof. unfold latch_chassis_control_fault. tame_all. Qed.

Lemma tame_overspeed reason s : tame s (latch_hard_overspeed reason s).
Proof. unfold latch_hard_overspeed. tame_all. Qed.

Lemma tame_safety_blocks now c s : tame s (safety_blocks now c s).
Proof.
  unfold safety_blocks.
  transitivity (physical_emergency_block c s); [unfold physical_emergency_block; tame_all |].
  generalize (physical_emergency_block c s). clear s. intros s.
  transitivity (arming_motion_block c s);
    [unfold arming_motion_block; destruct (_ && _); [apply tame_overspeed | done] |].
  generalize (arming_motion_block c s). clear s. intros s.
  transitivity (overspeed_block c s);
    [unfold overspeed_block; destruct (_ && _); [apply tame_overspeed | done] |].
  generalize (overspeed_block c s). clear s. intros s.
  transitivity (clear_soft_stop_block c s); [unfold clear_soft_stop_block; tame_all |].
  apply tame_on_controller.
Qed.

Lemma tame_normalized_output now dt c s : tame s (normalized_output_block now dt c s).2.
Proof.
  unfold normalized_output_block. destruct (_ && _ && _); [cbn [snd]; tame_all |].
  destruct (traction_pid_active now c s); [| cbn [snd]; tame_all].
  destruct (speed_pid_step _ _ _ _ _ _) as [output state]. cbn [snd].
  transitivity (pid_reference_block c s); [unfold pid_reference_block; tame_all |].
  generalize (pid_reference_block c s). intros. tame_all.
Qed.

Lemma tame_torque active output dt s : tame s (torque_block active output dt s).
Proof. unfold torque_block. tame_all. Qed.

Lemma tame_submit command s : tame s (submit_command command s).
Proof.
  unfold submit_command. cbv zeta. destruct (negb _); [done |].
  destruct (set_command command (rt_controller s)) as [accepted controller]. tame_all.
Qed.

Lemma tame_command_block chassis c output s : tame s (command_block chassis c output s).
Proof.
  unfold command_block. destruct (chassis _); [apply tame_chassis_fault .. |].
  destruct (command_from_chassis_control _ _) as [base |]; [| apply tame_chassis_fault].
  transitivity (submit_command (bridge_command c base s) s); [apply tame_submit |].
  generalize (submit_command (bridge_command c base s) s). intros s1.
  unfold latched_stop_block. tame_all.
Qed.

Lemma tame_update chassis now dt s : tame s (update_command_from_intent chassis now dt s).
Proof.
  unfold update_command_from_intent. cbv zeta.
  destruct (rt_chassis_control_fault_latched s); [unfold chassis_fault_block; tame_all |].
  generalize (cycle_inputs now s). intros c.
  transitivity (safety_blocks now c s); [apply tame_safety_blocks |].
  generalize (safety_blocks now c s). clear s. intros s.
  pose proof (tame_normalized_output now dt c s) as H.
  destruct (normalized_output_block now dt c s) as [output s1]. cbn [snd] in H.
  transitivity s1; [exact H |].
  transitivity (torque_block (traction_pid_active now c s) output dt s1); [apply tame_torque |].
  apply tame_command_block.
Qed.

Lemma tame_after_tick state now s : tame s (after_tick state now s).
Proof.
  unfold after_tick.
  transitivity (handshake_revoked_block s); [unfold handshake_revoked_block; tame_all |].
  generalize (handshake_revoked_block s). clear s. intros s.
  transitivity (state_fault_block state s); [unfold state_fault_block; tame_all |].
  generalize (state_fault_block state s). clear s. intros s.
  transitivity (session_ready_block now s); [unfold session_ready_block; tame_all |].
  generalize (session_ready_block now s). clear s. intros s.
  transitivity (arming_deadline_block now s); [unfold arming_deadline_block; tame_all |].
  apply tame_snapshot.
Qed.

Lemma tame_cycle chassis now s : tame s (control_cycle chassis now s).2.
Proof.
  unfold control_cycle. cbv zeta. destruct (vcu_tick _) as [frames controller]. cbn [snd].
  transitivity (before_tick chassis now s).
  - unfold before_tick. cbv zeta.
    transitivity (check_control_watchdog now (check_feedback_timeout now (ticked now s)));
      [| apply tame_update].
    transitivity (check_feedback_timeout now (ticked now s)); [| apply tame_control_watchdog].
    transitivity (ticked now s); [by apply tame_of_view | apply tame_feedback_timeout].
  - etransitivity; [| apply tame_after_tick]. tame_all.
Qed.

(** ** Profiles and sessions *)

(** Installing a profile and clearing it withdraw the traction first. *)
Lemma withdraw_idle s :
  (ci_normalized_longitudinal (rt_latest_intent (withdraw_latest_traction s)) >ᵈ d_zero) = false.
Proof. unfold withdraw_latest_traction. by destruct (rt_latest_intent_valid s). Qed.

Lemma tame_keep s x s' :
  tame s x -> (ci_normalized_longitudinal (rt_latest_intent x) >ᵈ d_zero) = false ->
  latch_view s' = latch_view x ->
  ci_normalized_longitudinal (rt_latest_intent s') = ci_normalized_longitudinal (rt_latest_intent x) ->
  tame s s'.
Proof.
  intros (H1 & H2 & _ & H4) Hl [=] E3.
  split_and!; [| | right |]; congruence || (intros; intuition congruence).
Qed.

Lemma tame_install now config rate timeout s :
  tame s (install_runtime_control now config rate timeout s).
Proof.
  unfold install_runtime_control.
  pose proof (tame_withdraw s) as H1. pose proof (withdraw_idle s) as H2. revert H1 H2.
  generalize (withdraw_latest_traction s). intros x H1 H2. cbv zeta.
  by apply (tame_keep s x).
Qed.

Lemma tame_clear_profile s : tame s (clear_runtime_control s).2.
Proof.
  unfold clear_runtime_control.
  pose proof (tame_withdraw s) as H1. pose proof (withdraw_idle s) as H2. revert H1 H2.
  generalize (withdraw_latest_traction s). intros x H1 H2. cbv zeta. cbn [snd].
  by apply (tame_keep s x).
Qed.

Lemma tame_configure now config size version has_rate rate timeout s :
  tame s (configure_runtime_control now config size version has_rate rate timeout s).2.
Proof.
  unfold configure_runtime_control. cbv zeta.
  repeat match goal with |- context [if ?b then (_, s) else _] => destruct b; [done |] end.
  cbn [snd]. etransitivity; [| apply tame_install].
  destruct (arming_timeout_recovery_ready now s); [by apply tame_of_view | done].
Qed.

Lemma begin_session_keeps s :
  rt_chassis_control_fault_latched (begin_session s) = rt_chassis_control_fault_latched s /\
  rt_speed_control (begin_session s) = rt_speed_control s.
Proof.
  assert (H1 : rt_chassis_control_fault_latched (begin_session s) =
               rt_chassis_control_fault_latched (clear_stop_provenance s)) by reflexivity.
  assert (H2 : rt_speed_control (begin_session s) =
               rt_speed_control (clear_stop_provenance s)) by reflexivity.
  rewrite H1, H2. unfold clear_stop_provenance. by destruct (_ =? _).
Qed.

(** A session keeps the vendor fault latch, and starts with a neutral intent. *)
Lemma session_effect now s :
  let r := bridge_request_parallel_handshake now s in
  (r.1 = false /\ r.2 = s) \/
  (r.1 = true /\
   rt_chassis_control_fault_latched r.2 = rt_chassis_control_fault_latched s /\
   ci_normalized_longitudinal (rt_latest_intent r.2) = d_zero /\
   rt_speed_control r.2 = rt_speed_control s).
Proof.
  cbv zeta. unfold bridge_request_parallel_handshake. cbv zeta.
  destruct (negb (rt_running s)); [by left |]. destruct (negb _ && negb _); [by left |].
  destruct (negb (parking_gate_fresh now s) || _ || _ || _); [by left |].
  destruct (request_parallel_handshake (rt_controller s)) as [accepted controller].
  destruct accepted; cbn [negb]; [right | by left]. cbn [fst snd].
  destruct (begin_session_keeps (if arming_timeout_recovery_ready now s
    then recover_arming_timeout (s <| rt_controller := controller |>)
    else s <| rt_controller := controller |>)) as [E1 E2].
  split_and!; [done | rewrite E1 | done | rewrite E2];
    by destruct (arming_timeout_recovery_ready now s).
Qed.

(** ** Intents *)

(** What [store_intent] does: a refusal leaves the state or withdraws the traction,
    and an accepted intent is within the profile. *)
Lemma store_intent_effect now gear speed longitudinal steering count active s :
  let r := store_intent now gear speed longitudinal steering count active s in
  (r.1 <> APPLY_ISSUE_NONE /\ tame s r.2 /\
   (rt_running s && (rt_io_error s =? 0) = false \/
    (ci_normalized_longitudinal (rt_latest_intent r.2) >ᵈ d_zero) = false)) \/
  (r.1 = APPLY_ISSUE_NONE /\ rt_hard_overspeed_latched s = false /\
   rt_hard_overspeed_latched r.2 = false /\
   rt_chassis_control_fault_latched r.2 = rt_chassis_control_fault_latched s /\ intent_inv r.2 /\
   rt_speed_control r.2 = rt_speed_control s).
Proof.
  cbv zeta. unfold store_intent.
  destruct (negb (rt_running s) || _) eqn:E0.
  { left. split_and!; [done | done | left]. by rewrite <- negb_true_iff, negb_andb. }
  clear E0.
  assert (Hw : (ci_normalized_longitudinal
                  (rt_latest_intent (withdraw_latest_traction s)) >ᵈ d_zero) = false)
    by (unfold withdraw_latest_traction; by destruct (rt_latest_intent_valid s)).
  assert (Hh : forall x, (ci_normalized_longitudinal
                  (rt_latest_intent (hold_rejected_gear longitudinal x)) >ᵈ d_zero) = false)
    by (intros x; unfold hold_rejected_gear; destruct (rt_latest_intent_valid x);
        apply not_positive_min).
  destruct (ctl_physical_emergency_latched _);
    [left; split_and!; [done | apply tame_withdraw | by right] |].
  destruct (rt_hard_overspeed_latched s) eqn:Eh;
    [left; split_and!; [done | apply tame_withdraw | by right] |].
  destruct (_ && negb (rc_active _)) eqn:E1;
    [left; split_and!; [done | apply tame_withdraw | by right] |].
  destruct (rc_active _ && _) eqn:E2;
    [left; split_and!; [done | apply tame_withdraw | by right] |].
  cbv zeta. destruct (rt_gear_rejection_latched s && negb _);
    [left; split_and!; [done | apply tame_hold_gear | right; apply Hh] |].
  destruct (gear_change_refused now gear s).
  { left. cbn [fst snd]. split_and!; [done | | right; apply Hh].
    etransitivity; [| apply tame_hold_gear]. destruct (rt_gear_rejection_latched s);
    by apply tame_of_view. }
  right. cbn [fst snd].
  assert (Hi : intent_inv (accept_intent now gear speed longitudinal steering count active s)).
  { unfold intent_inv, intent_fits, accept_intent. cbn. intros Hp. rewrite Hp in E1.
    cbn [andb] in E1. apply negb_false_iff in E1. rewrite E1 in E2. cbn [andb] in E2.
    unfold exceeds_runtime_profile in E2. cbv zeta in E2. apply orb_false_iff in E2 as [E2 _].
    apply orb_false_iff in E2 as [E2 E3]. by split_and!. }
  split_and!; destruct (rt_gear_rejection_latched s); done.
Qed.

(** ** Runs *)

(** The step accepts an intent of the operator. *)
Definition accepts_intent (op : BridgeOp) (s : BridgeRuntime) : bool :=
  match op with
  | BoStoreIntent now gear speed longitudinal steering count active =>
      (store_intent now gear speed longitudinal steering count active s).1 =? APPLY_ISSUE_NONE
  | _ => false
  end.

Lemma bridge_step_quiet op s :
  starts_session op s = false ->
  tame s (bridge_step op s) \/
  (accepts_intent op s = true /\ rt_hard_overspeed_latched s = false /\
   rt_chassis_control_fault_latched (bridge_step op s) = rt_chassis_control_fault_latched s /\
   intent_inv (bridge_step op s) /\
   sc_enabled (rt_speed_control (bridge_step op s)) = sc_enabled (rt_speed_control s)).
Proof.
  destruct op; intros H; cbn [bridge_step];
    [left; apply tame_start | left; apply tame_ingest | | left; apply tame_configure
    | left; apply tame_clear_profile | left; apply tame_stop_context
    | left; apply tame_emergency_stop | | left; apply tame_park | left; apply tame_fail_apply
    | left; apply tame_poll | left; apply tame_close | left; by apply tame_of_view
    | left; apply tame_cycle | left; apply tame_receive_failed | left; apply tame_send_result
    | left; apply tame_exception].
  - pose proof (store_intent_effect now gear target_speed_mps normalized_longitudinal
      steering_values steering_count operator_active s) as E. cbv zeta in E.
    destruct E as [(_ & E & _) | (E0 & E1 & _ & E2 & E3 & E4)]; [by left | right].
    split_and!; [by apply Z.eqb_eq | done .. | by rewrite E4].
  - left. cbn [starts_session] in H.
    destruct (session_effect now s) as [[_ ->] | [E _]]; [done | congruence].
Qed.

Lemma intent_inv_step op s : intent_inv s -> intent_inv (bridge_step op s).
Proof.
  intros Hi. destruct (starts_session op s) eqn:E.
  - destruct op; try discriminate E. cbn [starts_session bridge_step] in *.
    destruct (session_effect now s) as [[E' _] | (_ & _ & Hz & _)]; [congruence |].
    unfold intent_inv, intent_fits. rewrite Hz. discriminate.
  - destruct (bridge_step_quiet op s E) as [H | (_ & _ & _ & H & _)]; [by eapply tame_inv | done].
Qed.

Lemma intent_inv_run ops : forall s, intent_inv s -> intent_inv (bridge_run ops s).
Proof.
  induction ops as [| op ops IH]; intros s Hs; [done |].
  apply (IH (bridge_step op s)), intent_inv_step, Hs.
Qed.

Lemma fault_step op s :
  rt_chassis_control_fault_latched s = true ->
  rt_chassis_control_fault_latched (bridge_step op s) = true.
Proof.
  intros Hf. destruct (starts_session op s) eqn:E.
  - destruct op; try discriminate E. cbn [starts_session bridge_step] in *.
    destruct (session_effect now s) as [[E' _] | (_ & -> & _)]; [congruence | done].
  - destruct (bridge_step_quiet op s E) as [(_ & H & _) | (_ & _ & -> & _)]; auto.
Qed.

Lemma fault_run ops : forall s,
  rt_chassis_control_fault_latched s = true ->
  rt_chassis_control_fault_latched (bridge_run ops s) = true.
Proof.
  induction ops as [| op ops IH]; intros s Hs; [done |].
  apply (IH (bridge_step op s)), fault_step, Hs.
Qed.

Lemma overspeed_run ops : forall s,
  rt_hard_overspeed_latched s = true -> no_session ops s = true ->
  rt_hard_overspeed_latched (bridge_run ops s) = true.
Proof.
  induction ops as [| op ops IH]; intros s Hs Hn; [done |].
  cbn [no_session] in Hn. apply andb_true_iff in Hn as [Hn%negb_true_iff Hr].
  apply (IH (bridge_step op s)); [| exact Hr].
  destruct (bridge_step_quiet op s Hn) as [(H & _) | (_ & H & _)]; [auto | congruence].
Qed.

(** A latched state transmits no torque. *)
Lemma latched_torque_zero chassis now s index :
  (index < kMotorCount)%nat ->
  rt_hard_overspeed_latched s || rt_chassis_control_fault_latched s = true ->
  extract_signal (frame_at (control_cycle chassis now s).1 index) 8 16 = 32000.
Proof.
  intros Hi Hl. destruct (Z.eq_dec (extract_signal
    (frame_at (control_cycle chassis now s).1 index) 8 16) 32000) as [E | E]; [exact E |].
  destruct (cycle_torque_guarded _ _ _ _ Hi E) as [Ha _]. exfalso. revert Ha.
  unfold traction_admissible. cbv zeta. rewrite !andb_true_iff, !negb_true_iff.
  apply orb_true_iff in Hl. destruct Hl; intuition congruence.
Qed.

(** C20. A latched fault closes traction for as long as it is latched.  Whatever runs
    after the vendor's library failed once (commands, frames, cycles, stops, new
    sessions, profiles, in any order), and whatever runs after a hard overspeed
    before a session is accepted, every later cycle transmits zero torque on every motor. *)
Theorem bridge_latch_holds (ops : list BridgeOp) (s : BridgeRuntime)
    (chassis : VehicleState -> ChassisAnswer) (now : Z) (index : nat) :
  (index < kMotorCount)%nat ->
  rt_chassis_control_fault_latched s = true \/
  (rt_hard_overspeed_latched s = true /\ no_session ops s = true) ->
  extract_signal (frame_at (control_cycle chassis now (bridge_run ops s)).1 index) 8 16 = 32000.
Proof.
  intros Hi Hl. apply latched_torque_zero; [done |]. destruct Hl as [Hf | [Hh Hn]].
  - rewrite (fault_run ops s Hf). apply orb_true_r.
  - by rewrite (overspeed_run ops s Hh Hn).
Qed.

(** The operator asks for traction again, in the same gear, a cycle later. *)
Definition demo_retry : list BridgeOp :=
  [BoCycle demo_chassis (demo_now + 20000000);
   BoStoreIntent (demo_now + 30000000) 3 (d_lit 3 0) (d_lit 1 1) (zeros 2) 2 true;
   BoCycle demo_chassis (demo_now + 40000000)].

Lemma bridge_latch_holds_witness :
  let s := demo_bridge <| rt_hard_overspeed_latched := true |> in
  no_session demo_retry s = true /\
  extract_signal (frame_at (control_cycle demo_chassis (demo_now + 60000000)
                              (bridge_run demo_retry s)).1 0) 8 16 = 32000.
Proof.
  intros s. assert (Hn : no_session demo_retry s = true) by (vm_compute; reflexivity).
  split; [exact Hn |].
  exact (bridge_latch_holds demo_retry s demo_chassis (demo_now + 60000000) 0
           ltac:(unfold kMotorCount; lia) (or_intror (conj eq_refl Hn))).
Defined.

(** Traction is only ever stored within the active profile.  Over every run of the
    bridge's operations from a new runtime, the intent the cycle works on asks for
    traction only while a runtime profile is active, and then its target speed and its
    normalised longitudinal command are within that profile's limits (up to 1e-9). *)
Theorem intent_within_profile (ops : list BridgeOp) (full_scale : double) (timeout : Z)
    (settings : SpeedControlSettings) (physical_brake_input : bool) (max_brake : double) :
  intent_inv (bridge_run ops
    (BridgeRuntime_new full_scale timeout settings physical_brake_input max_brake)).
Proof. apply intent_inv_run. intros H. discriminate H. Qed.

(** ** Withdrawn traction *)

(** The stored intent asks for no traction. *)
Definition idle (s : BridgeRuntime) : bool :=
  negb (ci_normalized_longitudinal (rt_latest_intent s) >ᵈ d_zero).

Fixpoint no_intent (ops : list BridgeOp) (s : BridgeRuntime) : bool :=
  match ops with
  | [] => true
  | op :: ops => negb (accepts_intent op s) && no_intent ops (bridge_step op s)
  end.

(** The step is a stop: it must take traction away. *)
Definition withdraws (op : BridgeOp) (s : BridgeRuntime) : bool :=
  match op with
  | BoEmergencyStop | BoPark => rt_running s
  | BoFailApply | BoClearProfile => true
  | BoConfigure now config size version has_rate rate timeout =>
      (configure_runtime_control now config size version has_rate rate timeout s).1.1 =?
      RUNTIME_CONTROL_ISSUE_NONE
  | BoHandshake now => starts_session op s
  | BoStoreIntent now gear speed longitudinal steering count active =>
      rt_running s && (rt_io_error s =? 0) && negb (accepts_intent op s)
  | BoCycle chassis now => deadline_missed now s
  | _ => false
  end.

Lemma tame_idle s s' : tame s s' -> idle s = true -> idle s' = true.
Proof.
  unfold idle. intros (_ & _ & [(E & _) | H] & _) Hi; [by rewrite E | by rewrite H].
Qed.

(** The last operation of these left [withdraw_latest_traction]'s intent. *)
Lemma withdraw_idle_true s : idle (withdraw_latest_traction s) = true.
Proof. unfold idle. by rewrite withdraw_idle. Qed.

Lemma idle_same s s' :
  ci_normalized_longitudinal (rt_latest_intent s') = ci_normalized_longitudinal (rt_latest_intent s) ->
  idle s = true -> idle s' = true.
Proof. unfold idle. by intros ->. Qed.

Lemma idle_step op s : accepts_intent op s = false -> idle s = true -> idle (bridge_step op s) = true.
Proof.
  intros Ha Hi. destruct (starts_session op s) eqn:E.
  - destruct op; try discriminate E. cbn [starts_session bridge_step] in *.
    destruct (session_effect now s) as [[E' _] | (_ & _ & Hz & _)]; [congruence |].
    unfold idle. by rewrite Hz.
  - destruct (bridge_step_quiet op s E) as [H | (H & _)]; [by eapply tame_idle | congruence].
Qed.

Lemma idle_run ops : forall s,
  idle s = true -> no_intent ops s = true -> idle (bridge_run ops s) = true.
Proof.
  induction ops as [| op ops IH]; intros s Hs Hn; [done |].
  cbn [no_intent] in Hn. apply andb_true_iff in Hn as [Hn%negb_true_iff Hr].
  apply (IH (bridge_step op s)); [by apply idle_step | exact Hr].
Qed.

Lemma idle_torque_zero chassis now s index :
  (index < kMotorCount)%nat -> idle s = true ->
  extract_signal (frame_at (control_cycle chassis now s).1 index) 8 16 = 32000.
Proof.
  intros Hi Hl. destruct (Z.eq_dec (extract_signal
    (frame_at (control_cycle chassis now s).1 index) 8 16) 32000) as [E | E]; [exact E |].
  destruct (cycle_torque_guarded _ _ _ _ Hi E) as [Ha%admissible_requested _]. exfalso.
  revert Ha. unfold cy_traction_requested, cycle_inputs. cbn [cy_intent].
  unfold idle in Hl. apply negb_true_iff in Hl.
  destruct (rt_latest_intent_valid s); [by rewrite Hl | discriminate].
Qed.

(** *** Each stop leaves no traction *)
Lemma deadline_idle now s :
  deadline_missed now s = true ->
  idle (check_control_watchdog now (check_feedback_timeout now s)) = true.
Proof.
  unfold deadline_missed. intros H. destruct (retained_feedback_timeout now s ||
    first_arming_feedback_timeout now s) eqn:E.
  - apply (tame_idle (check_feedback_timeout now s)); [apply tame_control_watchdog |].
    unfold check_feedback_timeout. cbv zeta. rewrite E. apply withdraw_idle_true.
  - unfold check_feedback_timeout at 1. cbv zeta. rewrite E. cbn [orb] in H.
    unfold check_control_watchdog. rewrite H. apply withdraw_idle_true.
Qed.

Lemma cycle_idle chassis now s :
  deadline_missed now s = true -> idle (control_cycle chassis now s).2 = true.
Proof.
  intros Hd. unfold control_cycle. cbv zeta.
  assert (Hb : idle (before_tick chassis now s) = true).
  { unfold before_tick. cbv zeta. eapply tame_idle; [apply tame_update |].
    exact (deadline_idle now (ticked now s) Hd). }
  revert Hb. generalize (before_tick chassis now s). intros s1 Hb.
  destruct (vcu_tick (rt_controller s1)) as [frames controller]. cbn [snd].
  eapply tame_idle; [apply tame_after_tick |]. exact Hb.
Qed.

Lemma configure_idle now config size version has_rate rate timeout s :
  let r := configure_runtime_control now config size version has_rate rate timeout s in
  r.1.1 = RUNTIME_CONTROL_ISSUE_NONE -> idle r.2 = true.
Proof.
  cbv zeta. unfold configure_runtime_control. cbv zeta.
  repeat match goal with |- context [if ?b then (_, s) else _] =>
    destruct b; [discriminate |] end.
  cbn [fst snd]. intros _. unfold install_runtime_control.
  match goal with |- context [withdraw_latest_traction ?x] =>
    pose proof (withdraw_idle_true x) as H; revert H; generalize (withdraw_latest_traction x) end.
  intros x. cbv zeta. by apply idle_same.
Qed.

Lemma withdraws_idle op s : withdraws op s = true -> idle (bridge_step op s) = true.
Proof.
  destruct op; cbn [withdraws bridge_step]; intros H; try discriminate H.
  - rewrite !andb_true_iff, negb_true_iff in H. destruct H as [Hr Ha].
    pose proof (store_intent_effect now gear target_speed_mps normalized_longitudinal
      steering_values steering_count operator_active s) as E. cbv zeta in E.
    cbn [accepts_intent] in Ha.
    destruct E as [(_ & _ & [E | E]) | (E & _)];
      [by rewrite (proj1 Hr), (proj2 Hr) in E | unfold idle; by rewrite E |].
    rewrite E in Ha. discriminate Ha.
  - by apply configure_idle, Z.eqb_eq.
  - unfold clear_runtime_control. pose proof (withdraw_idle_true s) as Hw. revert Hw.
    generalize (withdraw_latest_traction s). intros x. cbv zeta. by apply idle_same.
  - unfold bridge_emergency_stop. rewrite H. cbn [negb snd].
    match goal with |- context [withdraw_latest_traction ?x] =>
      pose proof (withdraw_idle_true x) as Hw; revert Hw; generalize (withdraw_latest_traction x) end.
    intros x. by apply idle_same.
  - cbn [starts_session] in H. destruct (session_effect now s) as [[E _] | (_ & _ & E & _)];
      [congruence | unfold idle; by rewrite E].
  - unfold request_park. rewrite H. cbn [negb snd].
    match goal with |- context [withdraw_latest_traction ?x] =>
      pose proof (withdraw_idle_true x) as Hw; revert Hw; generalize (withdraw_latest_traction x) end.
    intros x. by apply idle_same.
  - unfold fail_control_apply.
    match goal with |- context [withdraw_latest_traction ?x] =>
      pose proof (withdraw_idle_true x) as Hw; revert Hw; generalize (withdraw_latest_traction x) end.
    intros x. by apply idle_same.
  - by apply cycle_idle.
Qed.

(** After a stop, only a new accepted intent drives.  Whatever was stored before: an
    emergency stop, a park request, a failed apply, a cleared or newly installed profile,
    a new session, a refused intent or a missed deadline takes the traction away, and
    then every cycle transmits zero torque on every motor until the bridge accepts an
    intent of the operator, whatever else runs in between. *)
Theorem withdrawn_until_intent (op : BridgeOp) (later : list BridgeOp) (s : BridgeRuntime)
    (chassis : VehicleState -> ChassisAnswer) (now : Z) (index : nat) :
  (index < kMotorCount)%nat -> withdraws op s = true -> no_intent later (bridge_step op s) = true ->
  extract_signal
    (frame_at (control_cycle chassis now (bridge_run (op :: later) s)).1 index) 8 16 = 32000.
Proof.
  intros Hi Hw Hn. apply idle_torque_zero; [done |].
  exact (idle_run later (bridge_step op s) (withdraws_idle op s Hw) Hn).
Qed.

Lemma withdrawn_until_intent_witness :
  let op := BoStoreIntent (demo_now + 10000000) 2 (d_lit 3 0) (d_lit 1 1) (zeros 2) 2 true in
  let later := [BoPoll; BoCycle demo_chassis (demo_now + 20000000)] in
  withdraws op demo_bridge = true /\
  extract_signal (frame_at (control_cycle demo_chassis (demo_now + 40000000)
                              (bridge_run (op :: later) demo_bridge)).1 7) 8 16 = 32000.
Proof.
  intros op later. assert (Hw : withdraws op demo_bridge = true) by (vm_compute; reflexivity).
  split; [exact Hw |].
  exact (withdrawn_until_intent op later demo_bridge demo_chassis (demo_now + 40000000) 7
           ltac:(unfold kMotorCount; lia) Hw ltac:(vm_compute; reflexivity)).
Defined.

(** ** Runtimes without a speed controller *)
Lemma enabled_step op s :
  sc_enabled (rt_speed_control (bridge_step op s)) = sc_enabled (rt_speed_control s).
Proof.
  destruct (starts_session op s) eqn:E.
  - destruct op; try discriminate E. cbn [starts_session bridge_step] in *.
    destruct (session_effect now s) as [[E' _] | (_ & _ & _ & ->)]; [congruence | done].
  - destruct (bridge_step_quiet op s E) as [(_ & _ & _ & H) | (_ & _ & _ & _ & H)]; exact H.
Qed.

Lemma enabled_run ops : forall s,
  sc_enabled (rt_speed_control (bridge_run ops s)) = sc_enabled (rt_speed_control s).
Proof.
  induction ops as [| op ops IH]; intros s; [done |].
  change (bridge_run (op :: ops) s) with (bridge_run ops (bridge_step op s)).
  by rewrite IH, enabled_step.
Qed.

Lemma open_bridge_runtime host can_interface full_scale timeout settings brake max_brake g code s :
  g = None ->
  open_bridge host can_interface full_scale timeout settings brake max_brake g = (code, Some s) ->
  rt_speed_control s = settings.
Proof.
  intros ->. unfold open_bridge. destruct can_interface as [[| a name] |]; try discriminate.
  destruct (host_initialize host); [cbn [negb] | discriminate].
  destruct (seed_command host (d_lit (-8) 0)) as [| braking]; [discriminate |].
  destruct (seed_command host d_zero) as [| initial]; [discriminate |]. cbv zeta.
  match goal with |- context [bridge_start ?a ?b ?c ?d ?e] =>
    assert (H : rt_speed_control (bridge_start a b c d e).2 = settings);
    [| destruct (bridge_start a b c d e) as [result runtime]] end.
  { unfold bridge_start. destruct (set_command initial _) as [ok1 c1].
    destruct (if ok1 then _ else _) as [ok2 c2].
    by destruct ok2, (host_log_opens host), (host_socket_opens host). }
  destruct (negb (result =? 0)); [discriminate |]. cbn [snd] in H. intros [= _ <-]. exact H.
Qed.

(** The legacy entry points never drive.  A runtime opened by [open] or [open_v1],
    which cannot supply a speed controller, transmits zero torque on every motor in
    every cycle of every run, whatever profile is installed and whatever is asked. *)
Theorem legacy_open_no_traction (host : ChassisHost) (can_interface : option string)
    (config : option (Z * string * double)) (code : Z) (s : BridgeRuntime) (ops : list BridgeOp)
    (chassis : VehicleState -> ChassisAnswer) (now : Z) (index : nat) :
  (index < kMotorCount)%nat ->
  chassis_open host can_interface None = (code, Some s) \/
  chassis_open_v1 host config None = (code, Some s) ->
  extract_signal (frame_at (control_cycle chassis now (bridge_run ops s)).1 index) 8 16 = 32000.
Proof.
  intros Hi Ho.
  assert (He : sc_enabled (rt_speed_control (bridge_run ops s)) = false).
  { rewrite enabled_run. destruct Ho as [Ho | Ho].
    - by rewrite (open_bridge_runtime _ _ _ _ _ _ _ _ _ _ eq_refl Ho).
    - unfold chassis_open_v1 in Ho. destruct config as [[[size name] torque] |]; [| discriminate].
      destruct (_ || _); [discriminate |].
      by rewrite (open_bridge_runtime _ _ _ _ _ _ _ _ _ _ eq_refl Ho). }
  destruct (Z.eq_dec (extract_signal
    (frame_at (control_cycle chassis now (bridge_run ops s)).1 index) 8 16) 32000) as [E | E];
    [exact E |].
  destruct (cycle_torque_guarded _ _ _ _ Hi E) as [Ha%admissible_enabled _]. congruence.
Qed.

Definition demo_host : ChassisHost := mkChassisHost true demo_chassis true true demo_now.

(** The runtime the legacy entry point opens on it. *)
Definition demo_legacy : BridgeRuntime :=
  default demo_bridge (chassis_open demo_host (Some "can0"%string) None).2.

Lemma legacy_open_no_traction_witness :
  chassis_open demo_host (Some "can0"%string) None = (0, Some demo_legacy) /\
  extract_signal (frame_at (control_cycle demo_chassis (demo_now + 60000000)
                              (bridge_run demo_retry demo_legacy)).1 0) 8 16 = 32000.
Proof.
  assert (Ho : chassis_open demo_host (Some "can0"%string) None = (0, Some demo_legacy))
    by (vm_compute; reflexivity).
  split; [exact Ho |].
  exact (legacy_open_no_traction demo_host (Some "can0"%string) None 0 demo_legacy demo_retry
           demo_chassis (demo_now + 60000000) 0 ltac:(unfold kMotorCount; lia) (or_introl Ho)).
Defined.
