(* ===== verification/ChassisCalls.v ===== *)
(** ChassisCalls: the exact behaviour of the bridge's calls.

    - a handshake request is accepted exactly when the vehicle is parked and recovered,
      and then starts a clean session ([session_request_exact]);
    - a runtime profile is installed as a whole within the vehicle's bounds, or nothing
      changes ([profile_install_exact]);
    - the exported apply function reports what it did and never leaves traction behind
      a refusal ([apply_reports]). *)
From S2P Require Export ChassisRuns.

(** ** Sessions *)

(** When a handshake request is accepted. *)
Definition session_admissible (now : Z) (s : BridgeRuntime) : bool :=
  rt_running s && ((rt_io_error s =? 0) || arming_timeout_recovery_ready now s) &&
  parking_gate_fresh now s && parking_ready (rt_controller s) &&
  hard_latch_recovery_ready now s && physical_latch_recovery_ready now s &&
  state_in (ctl_state (rt_controller s)) [Standby; Disarmed].

Lemma recovery_clears now s :
  (rt_io_error s =? 0) || arming_timeout_recovery_ready now s = true ->
  rt_io_error (if arming_timeout_recovery_ready now s then recover_arming_timeout s else s) = 0.
Proof.
  destruct (arming_timeout_recovery_ready now s); [done |].
  rewrite orb_false_r. by intros ->%Z.eqb_eq.
Qed.

Lemma begin_session_io s : rt_io_error (begin_session s) = rt_io_error s.
Proof.
  transitivity (rt_io_error (clear_stop_provenance s)); [reflexivity |].
  unfold clear_stop_provenance. by destruct (_ =? _).
Qed.

Lemma begin_session_source s :
  rt_stop_source (begin_session s) = STOP_SOURCE_NONE /\
  rt_controller (begin_session s) = rt_controller s.
Proof.
  split.
  - transitivity (rt_stop_source (clear_stop_provenance s)); [reflexivity |].
    unfold clear_stop_provenance.
    destruct (rt_stop_source _ =? _) eqn:E; [by apply Z.eqb_eq in E | done].
  - transitivity (rt_controller (clear_stop_provenance s)); [reflexivity |].
    unfold clear_stop_provenance. by destruct (_ =? _).
Qed.

(** What an accepted request leaves. *)
Definition clean_session (s : BridgeRuntime) : Prop :=
  ctl_state (rt_controller s) = Initial /\
  ctl_emergency_stop (rt_controller s) = false /\
  ctl_physical_emergency_latched (rt_controller s) = false /\
  ctl_handshake_revoked (rt_controller s) = false /\
  rt_software_estop s = false /\ rt_hard_overspeed_latched s = false /\
  rt_control_watchdog_latched s = false /\ rt_clear_soft_stop_requested s = false /\
  rt_gear_rejection_latched s = false /\ rt_session_ready_latched s = false /\
  rt_feedback_watchdog_armed s = false /\ rt_last_successful_apply_valid s = false /\
  rt_operator_idle s = OperatorIdleParking_reset /\
  rt_latest_intent s = ControlIntent_default <| ci_generation := rt_intent_generation s |> /\
  rt_last_traction_torque_magnitude_nm s = d_zero /\ rt_speed_pid_state s = speed_pid_reset /\
  rt_stop_source s = STOP_SOURCE_NONE /\ rt_io_error s = 0.

Lemma begin_session_clean s :
  ctl_state (rt_controller s) = Initial -> ctl_emergency_stop (rt_controller s) = false ->
  ctl_physical_emergency_latched (rt_controller s) = false ->
  ctl_handshake_revoked (rt_controller s) = false -> rt_io_error s = 0 ->
  clean_session (begin_session s).
Proof.
  intros H1 H2 H3 H4 H5. destruct (begin_session_source s) as [E1 E2].
  unfold clean_session. rewrite E1, E2, begin_session_io. by split_and!.
Qed.

(** Sessions start parked and clean.  A handshake request is accepted exactly when
    the bridge runs without an error (or its arming timeout may be recovered), the five
    parking reports are fresh and say the vehicle stands parked under manual control, a
    hard overspeed or physical emergency stop is recovered from, and the controller is
    in [Standby] or [Disarmed].  A refusal changes nothing; an accepted request leaves
    the controller in [Initial], every soft latch open, the neutral intent, no torque,
    no PID history and no stop cause. *)
Theorem session_request_exact (now : Z) (s : BridgeRuntime) :
  let r := bridge_request_parallel_handshake now s in
  r.1 = session_admissible now s /\
  if r.1 then clean_session r.2 /\
              rt_chassis_control_fault_latched r.2 = rt_chassis_control_fault_latched s
  else r.2 = s.
Proof.
  cbv zeta. unfold bridge_request_parallel_handshake, session_admissible. cbv zeta.
  destruct (rt_running s); cbn [negb andb]; [| done].
  assert (Hx : negb (rt_io_error s =? 0) && negb (arming_timeout_recovery_ready now s) =
    negb ((rt_io_error s =? 0) || arming_timeout_recovery_ready now s)) by (by rewrite negb_orb).
  rewrite Hx. clear Hx.
  destruct ((rt_io_error s =? 0) || arming_timeout_recovery_ready now s) eqn:Eio;
    cbn [negb andb]; [| done].
  destruct (parking_gate_fresh now s); cbn [negb andb orb]; [| done].
  destruct (parking_ready (rt_controller s)) eqn:Ep; cbn [negb andb orb]; [| done].
  destruct (hard_latch_recovery_ready now s); cbn [negb andb orb]; [| done].
  destruct (physical_latch_recovery_ready now s); cbn [negb andb orb]; [| done].
  unfold request_parallel_handshake. rewrite Ep.
  destruct (state_in _ _); cbn [negb andb orb]; [| done].
  cbn [fst snd]. split; [done |].
  match goal with |- context [begin_session ?x] => set (s1 := x) end.
  assert (Hs : rt_io_error s1 = 0 /\ ctl_state (rt_controller s1) = Initial /\
    ctl_emergency_stop (rt_controller s1) = false /\
    ctl_physical_emergency_latched (rt_controller s1) = false /\
    ctl_handshake_revoked (rt_controller s1) = false /\
    rt_chassis_control_fault_latched s1 = rt_chassis_control_fault_latched s).
  { pose proof (recovery_clears now s Eio) as H. unfold s1.
    destruct (arming_timeout_recovery_ready now s); by split_and!. }
  clearbody s1. destruct Hs as (H1 & H2 & H3 & H4 & H5 & H6).
  split; [by apply begin_session_clean | by rewrite (proj1 (begin_session_keeps s1))].
Qed.

(** ** Profiles *)

(** The vehicle stands parked, freshly reported, outside a session. *)
Definition parked_for_change (now : Z) (s : BridgeRuntime) : bool :=
  state_in (ctl_state (rt_controller s)) [Standby; Disarmed] && parking_gate_fresh now s &&
  parking_ready (rt_controller s).

(** A profile after installation: the configured limits, and no traction. *)
Definition profile_installed (config : BridgeRuntimeControlConfigV3) (rise_rate : double)
    (parking_idle_timeout_ms : Z) (s s' : BridgeRuntime) : Prop :=
  rt_runtime_control s' =
    mkRuntimeControlSettings parking_idle_timeout_ms true (brc_profile_revision config)
      (brc_target_speed_limit_mps config) (brc_max_motor_torque_nm config)
      (brc_max_brake_pressure_bar config) (brc_max_steering_request config) rise_rate /\
  rt_speed_control s' =
    (rt_speed_control s) <| sc_pid := pid_of_config config |>
                         <| sc_motor_torque_rise_rate_nm_per_s := rise_rate |> /\
  ci_target_speed_mps (rt_latest_intent s') = d_zero /\
  ci_normalized_longitudinal (rt_latest_intent s') = d_zero /\
  rt_last_traction_torque_magnitude_nm s' = d_zero /\
  rt_operator_idle s' = OperatorIdleParking_reset /\
  rt_open_speed_control s' = rt_open_speed_control s /\ rt_running s' = rt_running s.

Lemma withdraw_keeps s :
  let x := withdraw_latest_traction s in
  rt_speed_control x = rt_speed_control s /\ rt_open_speed_control x = rt_open_speed_control s /\
  rt_running x = rt_running s /\
  ci_normalized_longitudinal (rt_latest_intent x) = d_zero /\
  rt_last_traction_torque_magnitude_nm x = d_zero.
Proof.
  cbv zeta. unfold withdraw_latest_traction. split_and!; by destruct (rt_latest_intent_valid s).
Qed.

Lemma install_installs now config rise_rate timeout s :
  profile_installed config rise_rate timeout s
    (install_runtime_control now config rise_rate timeout s).
Proof.
  unfold install_runtime_control. pose proof (withdraw_keeps s) as H. cbv zeta in H. revert H.
  generalize (withdraw_latest_traction s). intros x (H1 & H2 & H3 & H4 & H5). cbv zeta.
  unfold profile_installed. rewrite <- H1, <- H2, <- H3. split_and!; first [reflexivity | assumption].
Qed.

Lemma installed_recovered now config rise_rate timeout s :
  profile_installed config rise_rate timeout
    (if arming_timeout_recovery_ready now s then recover_arming_timeout s else s) =
  profile_installed config rise_rate timeout s.
Proof. by destruct (arming_timeout_recovery_ready now s). Qed.

(** A runtime profile is installed as a whole or not at all.  When the bridge answers
    without an issue, the arguments were within the vehicle's bounds, the revision is
    newer than the active one, the vehicle stood parked if the change activates a
    profile, raises the speed or torque limit, or touches the brake, steering, PID, rise
    rate or parking settings; the new limits are exactly the configured ones, the applied
    revision is reported, and the stored traction is withdrawn.  With any issue the
    runtime is unchanged and the reported revision is zero. *)
Theorem profile_install_exact (now : Z) (config : BridgeRuntimeControlConfigV3)
    (sizeof_config version : Z) (has_rise_rate : bool) (rise_rate : double)
    (parking_idle_timeout_ms : Z) (s : BridgeRuntime) :
  let '(issue, revision, s') :=
    configure_runtime_control now config sizeof_config version has_rise_rate rise_rate
      parking_idle_timeout_ms s in
  let rate := if has_rise_rate then rise_rate
              else sc_motor_torque_rise_rate_nm_per_s (rt_open_speed_control s) in
  if issue =? RUNTIME_CONTROL_ISSUE_NONE then
    revision = brc_profile_revision config /\
    rt_running s = true /\
    runtime_control_arguments_valid config sizeof_config version rate s = true /\
    (rc_active (rt_runtime_control s) = true ->
     rc_revision (rt_runtime_control s) < brc_profile_revision config) /\
    (runtime_control_requires_parking config rate parking_idle_timeout_ms s = true ->
     parked_for_change now s = true) /\
    profile_installed config rate parking_idle_timeout_ms s s'
  else revision = 0 /\ s' = s.
Proof.
  unfold configure_runtime_control. cbv zeta.
  set (rate := if has_rise_rate then rise_rate else _).
  destruct (rt_running s) eqn:Er; cbn [negb orb]; [| done].
  destruct (negb _ && negb _); [done |].
  destruct (runtime_control_arguments_valid _ _ _ rate s) eqn:Ev; cbn [negb]; [| done].
  destruct (rc_active _ && _) eqn:Es; [done |].
  destruct (runtime_control_requires_parking _ _ _ s && _) eqn:Ep; [done |].
  change (RUNTIME_CONTROL_ISSUE_NONE =? RUNTIME_CONTROL_ISSUE_NONE) with true. cbv iota.
  split_and!; [done | done | done | | |].
  - intros Ha. rewrite Ha in Es. by apply Z.leb_gt in Es.
  - intros Hr. rewrite Hr in Ep. cbn [andb] in Ep.
    rewrite !orb_false_iff, !negb_false_iff in Ep. unfold parked_for_change.
    destruct Ep as [[-> ->] ->]. done.
  - rewrite <- (installed_recovered now). apply install_installs.
Qed.

(** ** Applying a state *)
Lemma fail_apply_stops s :
  ctl_emergency_stop (rt_controller (fail_control_apply s)) = true /\
  rt_software_estop (fail_control_apply s) = true /\ idle (fail_control_apply s) = true.
Proof.
  split_and!; [| done | exact (withdraws_idle BoFailApply s eq_refl)].
  unfold fail_control_apply. cbv zeta.
  generalize (latch_stop_provenance STOP_SOURCE_SOFTWARE_FAULT STOP_REASON_CONTROL_APPLY_FAILED s).
  intros y.
  pose proof (view_controller _ _ (withdraw_view
    ((on_controller emergency_stop y) <| rt_clear_soft_stop_requested := false |>))) as H.
  revert H. generalize (withdraw_latest_traction
    ((on_controller emergency_stop y) <| rt_clear_soft_stop_requested := false |>)).
  intros w H. transitivity (ctl_emergency_stop (rt_controller w)); [reflexivity |].
  rewrite H. exact (proj1 (emergency_stop_flags (rt_controller y))).
Qed.

(** What the exported function answers and leaves. *)
Lemma apply_effect (now gear : Z) (vx ax : double) (steering : option (list double))
    (count active : Z) (g : option BridgeRuntime) :
  let '(code, result, g') := chassis_apply_state_v3 now gear vx ax steering count active g in
  bar_struct_size result = sizeof_BridgeApplyResultV1 /\ bar_result_code result = code /\
  bar_reserved result = 0 /\ (code = 0 <-> bar_issue_id result = APPLY_ISSUE_NONE) /\
  match g, g' with
  | None, _ => code = -1 /\ g' = None
  | Some s, Some s' =>
      (apply_arguments_valid gear vx ax steering count active = false ->
       code = -1 /\ s' = fail_control_apply s /\
       ctl_emergency_stop (rt_controller s') = true /\ rt_software_estop s' = true) /\
      (rt_running s && (rt_io_error s =? 0) = true -> code <> 0 -> idle s' = true) /\
      (code = 0 ->
       if gear =? 4 then s' = (request_park s).2
       else store_intent now gear vx ax (default [] steering) count (negb (active =? 0)) s =
            (APPLY_ISSUE_NONE, s'))
  | Some _, None => False
  end.
Proof.
  unfold chassis_apply_state_v3. cbv zeta. destruct g as [s |]; [| by split_and!].
  destruct (apply_arguments_valid gear vx ax steering count active) eqn:Ev; cbn [negb].
  2: { destruct (fail_apply_stops s) as (H1 & H2 & H3). by split_and!. }
  destruct (gear =? 4) eqn:E4.
  - unfold request_park. destruct (rt_running s) eqn:Er; cbn [negb]; by split_and!.
  - pose proof (withdraws_idle (BoStoreIntent now gear vx ax (default [] steering) count
      (negb (active =? 0))) s) as Hw. cbn [withdraws bridge_step accepts_intent] in Hw.
    destruct (store_intent now gear vx ax _ _ _ s) as [issue s'] eqn:Es. cbn [fst snd] in Hw.
    destruct (issue =? APPLY_ISSUE_NONE) eqn:Ei.
    + apply Z.eqb_eq in Ei as ->. by split_and!.
    + apply Z.eqb_neq in Ei. split_and!; try done.
      intros Hr _. apply Hw. by rewrite Hr.
Qed.

(** The apply function reports what it did.  Without a runtime it answers -1 and
    does nothing.  With one, the result structure always repeats the returned code, the
    code is zero exactly when the issue is none, invalid arguments are answered with -1
    and a local emergency stop, a park request with the disarming, and a refused intent
    with -3; and whenever a running bridge without an I/O error does not answer zero, the
    runtime it leaves asks for no traction. *)
Theorem apply_reports (now gear : Z) (vx ax : double) (steering : option (list double))
    (count active : Z) (g : option BridgeRuntime) :
  let '(code, result, g') := chassis_apply_state_v3 now gear vx ax steering count active g in
  bar_struct_size result = sizeof_BridgeApplyResultV1 /\ bar_result_code result = code /\
  bar_reserved result = 0 /\ (code = 0 <-> bar_issue_id result = APPLY_ISSUE_NONE) /\
  match g, g' with
  | None, _ => code = -1 /\ g' = None
  | Some s, Some s' =>
      (apply_arguments_valid gear vx ax steering count active = false ->
       code = -1 /\ s' = fail_control_apply s /\
       ctl_emergency_stop (rt_controller s') = true /\ rt_software_estop s' = true) /\
      (rt_running s && (rt_io_error s =? 0) = true -> code <> 0 -> idle s' = true) /\
      (code = 0 ->
       if gear =? 4 then s' = (request_park s).2
       else store_intent now gear vx ax (default [] steering) count (negb (active =? 0)) s =
            (APPLY_ISSUE_NONE, s'))
  | Some _, None => False
  end.
Proof. exact (apply_effect now gear vx ax steering count active g). Qed.

(** An accepted intent is stored as it was given. *)
Lemma store_intent_stores now gear vx ax steering count active s s' :
  store_intent now gear vx ax steering count active s = (APPLY_ISSUE_NONE, s') ->
  let copied := take (Z.to_nat (Z.min count (Z.of_nat kSteeringAxisCount))) steering in
  rt_latest_intent s' =
    mkControlIntent gear vx ax (copied ++ drop (length copied) (zeros kSteeringAxisCount))
      (rt_intent_generation s') /\ intent_inv s'.
Proof.
  intros H. cbv zeta. pose proof (store_intent_effect now gear vx ax steering count active s) as E.
  rewrite H in E. cbn [fst snd] in E.
  destruct E as [[E _] | (_ & _ & _ & _ & Hi & _)]; [done | split; [| exact Hi]].
  revert H. unfold store_intent. cbv zeta.
  repeat match goal with |- context [if ?b then (?i, ?x) else _] =>
    destruct b; [intros [=] |] end.
  intros [= <-]. reflexivity.
Qed.
