(* ===== verification/ChassisProvenance.v ===== *)
(** ChassisProvenance: the recorded cause of a stop.

    The bridge promises that the first cause of a stop stays recorded until the stop is
    cleared, and that only the physical emergency switch may supersede it
    ([first_stop_cause]). *)
From S2P Require Export ChassisRuns.

(** The recorded cause and its number. *)
Definition cause (s : BridgeRuntime) : Z * Z * Z :=
  (rt_stop_source s, rt_stop_reason s, rt_stop_sequence s).

(** A context waiting for the next stop is not the physical emergency. *)
Definition pending_ok (s : BridgeRuntime) : Prop :=
  stop_ctx_source (rt_pending_stop_context s) <> STOP_SOURCE_PHYSICAL_EMERGENCY.

(** The recorded cause stays, or the physical emergency takes its place, once. *)
Definition cause_kept (s s' : BridgeRuntime) : Prop :=
  cause s' = cause s \/
  (rt_stop_source s <> STOP_SOURCE_PHYSICAL_EMERGENCY /\
   cause s' = (STOP_SOURCE_PHYSICAL_EMERGENCY, STOP_REASON_PHYSICAL_EMERGENCY_SWITCH,
               u64 (rt_stop_sequence s + 1))).

Definition settled (s s' : BridgeRuntime) : Prop :=
  pending_ok s ->
  pending_ok s' /\ (rt_stop_source s <> STOP_SOURCE_NONE -> cause_kept s s') /\
  (rt_clear_soft_stop_requested s = false -> rt_clear_soft_stop_requested s' = false).

#[export] Instance settled_refl : Reflexive settled.
Proof. intros s H. split_and!; [done | by left | done]. Qed.

#[export] Instance settled_trans : Transitive settled.
Proof.
  intros s1 s2 s3 H12 H23 Hp. destruct (H12 Hp) as (Hp2 & A & A'). destruct (H23 Hp2) as (Hp3 & B & B').
  split_and!; [done | | auto]. intros Hn. destruct (A Hn) as [E | [Hs E]].
  - assert (Es : rt_stop_source s2 = rt_stop_source s1) by (by injection E).
    assert (Eq : rt_stop_sequence s2 = rt_stop_sequence s1) by (by injection E).
    destruct B as [E' | [Hs' E']]; [by rewrite Es | left; congruence | right].
    split; [by rewrite <- Es | by rewrite E', Eq].
  - assert (Es : rt_stop_source s2 = STOP_SOURCE_PHYSICAL_EMERGENCY) by (by injection E).
    destruct B as [E' | [Hs' _]]; [by rewrite Es | right | congruence].
    split; [done | congruence].
Qed.

Definition settled_view (s : BridgeRuntime) :=
  (cause s, rt_pending_stop_context s, rt_clear_soft_stop_requested s).

Lemma settled_of_view s s' : settled_view s' = settled_view s -> settled s s'.
Proof.
  intros E Hp. unfold settled_view in E. injection E as E1 E2 E3 E4 E5.
  unfold pending_ok, cause_kept, cause. rewrite E1, E2, E3, E4, E5.
  split_and!; [done | by left | done].
Qed.

Lemma settled_latch source reason s :
  source <> STOP_SOURCE_PHYSICAL_EMERGENCY \/
    (source = STOP_SOURCE_PHYSICAL_EMERGENCY /\ reason = STOP_REASON_PHYSICAL_EMERGENCY_SWITCH) ->
  settled s (latch_stop_provenance source reason s).
Proof.
  intros Hs. unfold latch_stop_provenance.
  destruct (negb (valid_stop_source source) || _ || _ || _) eqn:Ev.
  - change (STOP_SOURCE_UNKNOWN =? STOP_SOURCE_PHYSICAL_EMERGENCY) with false. cbn [andb negb].
    rewrite andb_true_r. destruct (rt_stop_source s =? STOP_SOURCE_NONE) eqn:En; cbn [negb].
    + intros Hp. apply Z.eqb_eq in En. by split_and!.
    + reflexivity.
  - destruct (rt_stop_source s =? STOP_SOURCE_NONE) eqn:En; cbn [negb andb].
    + intros Hp. apply Z.eqb_eq in En. by split_and!.
    + destruct (source =? STOP_SOURCE_PHYSICAL_EMERGENCY) eqn:Ep; cbn [andb negb]; [| reflexivity].
      destruct (rt_stop_source s =? STOP_SOURCE_PHYSICAL_EMERGENCY) eqn:Eq; cbn [negb]; [reflexivity |].
      apply Z.eqb_eq in Ep. apply Z.eqb_neq in Eq.
      destruct Hs as [Hs | [-> ->]]; [congruence |].
      intros Hp. split_and!; [done | | done]. intros _. by right.
Qed.

(** ** The helpers *)
Lemma settled_software reason s :
  settled s (latch_stop_provenance STOP_SOURCE_SOFTWARE_FAULT reason s).
Proof. apply settled_latch. by left. Qed.

Lemma settled_watchdog reason s : settled s (latch_stop_provenance STOP_SOURCE_WATCHDOG reason s).
Proof. apply settled_latch. by left. Qed.

Lemma settled_physical s :
  settled s (latch_stop_provenance STOP_SOURCE_PHYSICAL_EMERGENCY
               STOP_REASON_PHYSICAL_EMERGENCY_SWITCH s).
Proof. apply settled_latch. by right. Qed.

Lemma settled_pending source reason s :
  source <> STOP_SOURCE_PHYSICAL_EMERGENCY -> settled s (latch_pending_stop source reason s).
Proof.
  intros Hs Hp. unfold latch_pending_stop, consume_stop_context.
  set (s1 := s <| rt_pending_stop_context := StopContext_default |>).
  assert (H1 : settled s s1) by (intros _; split_and!; [done | by left | done]).
  refine (settled_trans _ _ _ H1 _ Hp). apply settled_latch. left.
  by destruct (_ =? STOP_SOURCE_NONE).
Qed.

Lemma settled_on_controller f s : settled s (on_controller f s).
Proof. by apply settled_of_view. Qed.

Lemma settled_reset_pid s : settled s (reset_speed_pid s).
Proof. by apply settled_of_view. Qed.

Lemma settled_reset_traction s : settled s (reset_direct_traction s).
Proof. by apply settled_of_view. Qed.

Lemma settled_snapshot s : settled s (update_feedback_snapshot s).
Proof. by apply settled_of_view. Qed.

Lemma settled_withdraw s : settled s (withdraw_latest_traction s).
Proof. apply settled_of_view. unfold withdraw_latest_traction. by destruct (rt_latest_intent_valid s). Qed.

Lemma settled_hold_gear longitudinal s : settled s (hold_rejected_gear longitudinal s).
Proof. apply settled_of_view. unfold hold_rejected_gear. by destruct (rt_latest_intent_valid s). Qed.

Lemma settled_lower_clear s : settled s (s <| rt_clear_soft_stop_requested := false |>).
Proof. intros H. split_and!; [done | by left | done]. Qed.

(** Peels the outermost helper of a composition. *)
Ltac settled_peel :=
  match goal with
  | |- settled ?s ?s => reflexivity
  | |- settled _ (latch_stop_provenance STOP_SOURCE_SOFTWARE_FAULT ?b ?x) =>
      transitivity x; [| apply settled_software]
  | |- settled _ (latch_stop_provenance STOP_SOURCE_WATCHDOG ?b ?x) =>
      transitivity x; [| apply settled_watchdog]
  | |- settled _ (latch_stop_provenance STOP_SOURCE_PHYSICAL_EMERGENCY ?b ?x) =>
      transitivity x; [| apply settled_physical]
  | |- settled _ (latch_pending_stop ?a ?b ?x) => transitivity x; [| by apply settled_pending]
  | |- settled _ (on_controller ?f ?x) => transitivity x; [| apply settled_on_controller]
  | |- settled _ (withdraw_latest_traction ?x) => transitivity x; [| apply settled_withdraw]
  | |- settled _ (hold_rejected_gear ?l ?x) => transitivity x; [| apply settled_hold_gear]
  | |- settled _ (reset_speed_pid ?x) => transitivity x; [| apply settled_reset_pid]
  | |- settled _ (reset_direct_traction ?x) => transitivity x; [| apply settled_reset_traction]
  | |- settled _ (update_feedback_snapshot ?x) => transitivity x; [| apply settled_snapshot]
  | |- settled _ (?x <| rt_clear_soft_stop_requested := false |>) =>
      transitivity x; [| apply settled_lower_clear]
  | |- settled _ (set_field _ _ ?x) =>
      transitivity x; [| generalize x; intro; apply settled_of_view; reflexivity]
  | |- settled _ (if ?b then _ else _) => destruct b
  end.

Ltac settled_all := cbv zeta; repeat settled_peel.

(** ** The cycle *)
Lemma settled_feedback_timeout now s : settled s (check_feedback_timeout now s).
Proof. unfold check_feedback_timeout. settled_all. Qed.

Lemma settled_control_watchdog now s : settled s (check_control_watchdog now s).
Proof. unfold check_control_watchdog. settled_all. Qed.

Lemma settled_chassis_fault s : settled s (latch_chassis_control_fault s).
Proof. unfold latch_chassis_control_fault. settled_all. Qed.

Lemma settled_overspeed reason s : settled s (latch_hard_overspeed reason s).
Proof. unfold latch_hard_overspeed. settled_all. Qed.

(** The blocks before the clear block, and the clear block when nothing asks for it. *)
Lemma settled_safety_blocks now c s :
  pending_ok s -> rt_clear_soft_stop_requested s = false -> settled s (safety_blocks now c s).
Proof.
  intros Hp Hc. unfold safety_blocks.
  assert (H : settled s (overspeed_block c (arming_motion_block c (physical_emergency_block c s)))).
  { transitivity (physical_emergency_block c s); [unfold physical_emergency_block; settled_all |].
    generalize (physical_emergency_block c s). intros s1.
    transitivity (arming_motion_block c s1);
      [unfold arming_motion_block; destruct (_ && _); [apply settled_overspeed | done] |].
    generalize (arming_motion_block c s1). intros s2.
    unfold overspeed_block. destruct (_ && _); [apply settled_overspeed | done]. }
  destruct (H Hp) as (_ & _ & Hc2). specialize (Hc2 Hc). revert H Hc2.
  generalize (overspeed_block c (arming_motion_block c (physical_emergency_block c s))).
  intros s3 H Hc2. unfold clear_soft_stop_block. rewrite Hc2. cbn [andb].
  transitivity s3; [exact H | apply settled_on_controller].
Qed.

Lemma settled_normalized_output now dt c s : settled s (normalized_output_block now dt c s).2.
Proof.
  unfold normalized_output_block. destruct (_ && _ && _); [cbn [snd]; settled_all |].
  destruct (traction_pid_active now c s); [| cbn [snd]; settled_all].
  destruct (speed_pid_step _ _ _ _ _ _) as [output state]. cbn [snd].
  transitivity (pid_reference_block c s); [unfold pid_reference_block; settled_all |].
  generalize (pid_reference_block c s). intros. settled_all.
Qed.

Lemma settled_submit command s : settled s (submit_command command s).
Proof.
  unfold submit_command. cbv zeta. destruct (negb _); [done |].
  destruct (set_command command (rt_controller s)) as [accepted controller]. settled_all.
Qed.

Lemma settled_command_block chassis c output s : settled s (command_block chassis c output s).
Proof.
  unfold command_block. destruct (chassis _); [apply settled_chassis_fault .. |].
  destruct (command_from_chassis_control _ _) as [base |]; [| apply settled_chassis_fault].
  transitivity (submit_command (bridge_command c base s) s); [apply settled_submit |].
  generalize (submit_command (bridge_command c base s) s). intros s1.
  unfold latched_stop_block. settled_all.
Qed.

Lemma settled_update chassis now dt s :
  pending_ok s -> rt_clear_soft_stop_requested s = false ->
  settled s (update_command_from_intent chassis now dt s).
Proof.
  intros Hp Hc. unfold update_command_from_intent. cbv zeta.
  destruct (rt_chassis_control_fault_latched s); [unfold chassis_fault_block; settled_all |].
  generalize (cycle_inputs now s). intros c.
  transitivity (safety_blocks now c s); [by apply settled_safety_blocks |].
  generalize (safety_blocks now c s). clear s Hp Hc. intros s.
  pose proof (settled_normalized_output now dt c s) as H.
  destruct (normalized_output_block now dt c s) as [output s1]. cbn [snd] in H.
  transitivity s1; [exact H |].
  transitivity (torque_block (traction_pid_active now c s) output dt s1);
    [unfold torque_block; settled_all | apply settled_command_block].
Qed.

Lemma settled_after_tick state now s : settled s (after_tick state now s).
Proof.
  unfold after_tick.
  transitivity (handshake_revoked_block s); [unfold handshake_revoked_block; settled_all |].
  generalize (handshake_revoked_block s). clear s. intros s.
  transitivity (state_fault_block state s); [unfold state_fault_block; settled_all |].
  generalize (state_fault_block state s). clear s. intros s.
  transitivity (session_ready_block now s); [unfold session_ready_block; settled_all |].
  generalize (session_ready_block now s). clear s. intros s.
  transitivity (arming_deadline_block now s); [unfold arming_deadline_block; settled_all |].
  apply settled_snapshot.
Qed.

Lemma settled_cycle chassis now s :
  pending_ok s -> rt_clear_soft_stop_requested s = false ->
  settled s (control_cycle chassis now s).2.
Proof.
  intros Hp Hc. unfold control_cycle. cbv zeta.
  destruct (vcu_tick _) as [frames controller]. cbn [snd].
  transitivity (before_tick chassis now s).
  - unfold before_tick. cbv zeta.
    assert (H : settled s (check_control_watchdog now (check_feedback_timeout now (ticked now s)))).
    { transitivity (check_feedback_timeout now (ticked now s)); [| apply settled_control_watchdog].
      transitivity (ticked now s); [by apply settled_of_view | apply settled_feedback_timeout]. }
    destruct (H Hp) as (Hp2 & _ & Hc2). etransitivity; [exact H |].
    by apply settled_update; [| apply Hc2].
  - etransitivity; [| apply settled_after_tick]. settled_all.
Qed.

(** ** Pending contexts, when the stop may be cleared *)
Lemma pending_of s s' : settled s s' -> pending_ok s -> pending_ok s'.
Proof. intros H Hp. by destruct (H Hp). Qed.

Lemma pending_clear s : pending_ok (clear_stop_provenance s).
Proof. unfold clear_stop_provenance. by destruct (_ =? _). Qed.

Lemma pending_safety_blocks now c s : pending_ok s -> pending_ok (safety_blocks now c s).
Proof.
  intros Hp. unfold safety_blocks.
  assert (H : pending_ok (overspeed_block c (arming_motion_block c (physical_emergency_block c s)))).
  { apply (pending_of (physical_emergency_block c s)).
    - generalize (physical_emergency_block c s). intros s1.
      transitivity (arming_motion_block c s1);
        [unfold arming_motion_block; destruct (_ && _); [apply settled_overspeed | done] |].
      generalize (arming_motion_block c s1). intros s2.
      unfold overspeed_block. destruct (_ && _); [apply settled_overspeed | done].
    - apply (pending_of s); [| exact Hp]. unfold physical_emergency_block. settled_all. }
  revert H. generalize (overspeed_block c (arming_motion_block c (physical_emergency_block c s))).
  intros s3 H. apply (pending_of (clear_soft_stop_block c s3)); [apply settled_on_controller |].
  unfold clear_soft_stop_block. destruct (_ && _); [apply pending_clear | exact H].
Qed.

Lemma pending_update chassis now dt s :
  pending_ok s -> pending_ok (update_command_from_intent chassis now dt s).
Proof.
  intros Hp. unfold update_command_from_intent. cbv zeta.
  destruct (rt_chassis_control_fault_latched s).
  { apply (pending_of s); [unfold chassis_fault_block; settled_all | exact Hp]. }
  generalize (cycle_inputs now s). intros c. apply (pending_safety_blocks now c) in Hp. revert Hp.
  generalize (safety_blocks now c s). clear s. intros s Hp.
  pose proof (settled_normalized_output now dt c s) as H.
  destruct (normalized_output_block now dt c s) as [output s1]. cbn [snd] in H.
  apply (pending_of s); [| exact Hp]. transitivity s1; [exact H |].
  transitivity (torque_block (traction_pid_active now c s) output dt s1);
    [unfold torque_block; settled_all | apply settled_command_block].
Qed.

Lemma pending_cycle chassis now s : pending_ok s -> pending_ok (control_cycle chassis now s).2.
Proof.
  intros Hp. unfold control_cycle. cbv zeta.
  assert (Hb : pending_ok (before_tick chassis now s)).
  { unfold before_tick. cbv zeta. apply pending_update.
    apply (pending_of (ticked now s)); [| exact Hp].
    transitivity (check_feedback_timeout now (ticked now s));
      [apply settled_feedback_timeout | apply settled_control_watchdog]. }
  revert Hb. generalize (before_tick chassis now s). intros s1 Hb.
  destruct (vcu_tick (rt_controller s1)) as [frames controller]. cbn [snd].
  apply (pending_of s1); [| exact Hb]. etransitivity; [| apply settled_after_tick]. settled_all.
Qed.

(** ** The other operations *)
Lemma settled_ingest frame now s : settled s (ingest_locked frame now s).
Proof.
  unfold ingest_locked. destruct (ingest frame (rt_controller s)) as [known controller].
  destruct known; cbn [negb]; settled_all.
Qed.

Lemma settled_configure now config size version has_rate rate timeout s :
  settled s (configure_runtime_control now config size version has_rate rate timeout s).2.
Proof.
  unfold configure_runtime_control. cbv zeta.
  repeat match goal with |- context [if ?b then (_, s) else _] => destruct b; [done |] end.
  cbn [snd]. transitivity (if arming_timeout_recovery_ready now s then recover_arming_timeout s else s).
  - destruct (arming_timeout_recovery_ready now s); [by apply settled_of_view | done].
  - match goal with |- settled ?x _ => generalize x end. intros x.
    unfold install_runtime_control. transitivity (withdraw_latest_traction x); [settled_all |].
    generalize (withdraw_latest_traction x). intros y. by apply settled_of_view.
Qed.

Lemma settled_clear_profile s : settled s (clear_runtime_control s).2.
Proof.
  unfold clear_runtime_control. transitivity (withdraw_latest_traction s); [settled_all |].
  generalize (withdraw_latest_traction s). intros y. by apply settled_of_view.
Qed.

(** What storing an intent does to the cause and the pending context: nothing. *)
Lemma store_intent_cause now gear vx ax steering count active s :
  let s' := (store_intent now gear vx ax steering count active s).2 in
  cause s' = cause s /\ rt_pending_stop_context s' = rt_pending_stop_context s.
Proof.
  assert (Hw : forall x, cause (withdraw_latest_traction x) = cause x /\
    rt_pending_stop_context (withdraw_latest_traction x) = rt_pending_stop_context x)
    by (intros x; unfold withdraw_latest_traction; by destruct (rt_latest_intent_valid x)).
  assert (Hh : forall x, cause (hold_rejected_gear ax x) = cause x /\
    rt_pending_stop_context (hold_rejected_gear ax x) = rt_pending_stop_context x)
    by (intros x; unfold hold_rejected_gear; by destruct (rt_latest_intent_valid x)).
  cbv zeta. unfold store_intent. cbv zeta.
  destruct (negb (rt_running s) || _); [done |].
  destruct (ctl_physical_emergency_latched _); [apply Hw |].
  destruct (rt_hard_overspeed_latched s); [apply Hw |].
  destruct (_ && negb (rc_active _)); [apply Hw |].
  destruct (rc_active _ && _); [apply Hw |].
  destruct (rt_gear_rejection_latched s && _); [apply Hh |].
  destruct (gear_change_refused now gear s); cbn [snd];
    [rewrite (proj1 (Hh _)), (proj2 (Hh _)) |]; by destruct (rt_gear_rejection_latched s).
Qed.

(** The step may clear the recorded cause: a new session, or a cycle in which an
    accepted intent asks to clear a soft stop. *)
Definition clears_stop (op : BridgeOp) (s : BridgeRuntime) : bool :=
  match op with
  | BoHandshake now => starts_session op s
  | BoCycle chassis now => rt_clear_soft_stop_requested s
  | _ => false
  end.

Lemma settled_kept s s' :
  settled s s' -> pending_ok s ->
  pending_ok s' /\ (rt_stop_source s <> STOP_SOURCE_NONE -> cause_kept s s').
Proof. intros H Hp. destruct (H Hp) as (H1 & H2 & _). by split. Qed.

Lemma settled_stop_context context s :
  pending_ok s -> settled s (set_stop_context context s).2.
Proof.
  intros Hp. unfold set_stop_context. cbv zeta. destruct (_ || _) eqn:E; cbn [snd]; [done |].
  intros _. split_and!; [| by left | done].
  rewrite !orb_false_iff in E. destruct E as [[_ E%Z.eqb_neq] _].
  unfold pending_ok. destruct (_ && _); [done | exact E].
Qed.

Lemma begin_session_pending s : pending_ok (begin_session s).
Proof.
  assert (E : rt_pending_stop_context (begin_session s) =
              rt_pending_stop_context (clear_stop_provenance s)) by reflexivity.
  unfold pending_ok. rewrite E. apply pending_clear.
Qed.

Lemma session_pending now s :
  pending_ok s -> pending_ok (bridge_request_parallel_handshake now s).2.
Proof.
  intros Hp. unfold bridge_request_parallel_handshake. cbv zeta.
  destruct (negb (rt_running s)); [done |]. destruct (negb _ && negb _); [done |].
  destruct (negb (parking_gate_fresh now s) || _ || _ || _); [done |].
  destruct (request_parallel_handshake (rt_controller s)) as [accepted controller].
  destruct accepted; cbn [negb snd]; [apply begin_session_pending | done].
Qed.

Lemma step_settled op s :
  pending_ok s ->
  pending_ok (bridge_step op s) /\
  (rt_stop_source s <> STOP_SOURCE_NONE -> clears_stop op s = false ->
   cause_kept s (bridge_step op s)).
Proof.
  intros Hp. assert (Hq : settled s (bridge_step op s) ->
    pending_ok (bridge_step op s) /\ (rt_stop_source s <> STOP_SOURCE_NONE ->
      clears_stop op s = false -> cause_kept s (bridge_step op s))).
  { intros H. destruct (settled_kept _ _ H Hp) as [H1 H2]. split; auto. }
  destruct op; cbn [bridge_step] in *.
  - apply Hq. unfold bridge_start. destruct (set_command initial _) as [ok1 c1].
    destruct (if ok1 then _ else _) as [ok2 c2].
    destruct ok2, log_opens, socket_opens; cbn [negb snd]; settled_all.
  - apply Hq, settled_ingest.
  - destruct (store_intent_cause now gear target_speed_mps normalized_longitudinal
      steering_values steering_count operator_active s) as [E1 E2].
    split; [unfold pending_ok; by rewrite E2 | intros _ _; by left].
  - apply Hq, settled_configure.
  - apply Hq, settled_clear_profile.
  - by apply Hq, settled_stop_context.
  - apply Hq. unfold bridge_emergency_stop. destruct (negb _); cbn [snd]; settled_all.
  - split; [by apply session_pending |]. cbn [clears_stop starts_session]. intros _ Hc.
    destruct (session_effect now s) as [[_ ->] | (E & _)]; [by left | congruence].
  - apply Hq. unfold request_park. destruct (negb _); cbn [snd]; settled_all.
  - apply Hq. unfold fail_control_apply. settled_all.
  - apply Hq. unfold bridge_poll. cbv zeta.
    repeat match goal with |- context [if ?b then (_, s) else _] => destruct b; [done |] end.
    cbn [snd]. settled_all.
  - apply Hq. unfold close_begin. settled_all.
  - apply Hq. unfold close_end. settled_all.
  - split; [by apply pending_cycle |]. cbn [clears_stop]. intros Hn Hc.
    exact (proj2 (settled_kept _ _ (settled_cycle chassis now s Hp Hc) Hp) Hn).
  - apply Hq. unfold receive_failed. settled_all.
  - apply Hq. unfold send_result. settled_all.
  - apply Hq. unfold io_loop_exception. settled_all.
Qed.

Lemma pending_run ops : forall s, pending_ok s -> pending_ok (bridge_run ops s).
Proof.
  induction ops as [| op ops IH]; intros s Hp; [done |].
  exact (IH (bridge_step op s) (proj1 (step_settled op s Hp))).
Qed.

(** The first cause of a stop stays recorded.  In every state a run of the bridge
    reaches, while a stop cause is recorded, every operation that cannot clear the stop
    (any but an accepted session and a cycle in which an accepted intent asks to clear a
    soft stop) keeps the source, the reason and the number of the stop, or replaces them
    once by the physical emergency switch with the next number; the physical
    emergency itself is never replaced. *)
Theorem first_stop_cause (ops : list BridgeOp) (op : BridgeOp) (full_scale : double)
    (timeout : Z) (settings : SpeedControlSettings) (brake_input : bool) (max_brake : double) :
  let s := bridge_run ops (BridgeRuntime_new full_scale timeout settings brake_input max_brake) in
  rt_stop_source s <> STOP_SOURCE_NONE -> clears_stop op s = false ->
  cause (bridge_step op s) = cause s \/
  (rt_stop_source s <> STOP_SOURCE_PHYSICAL_EMERGENCY /\
   cause (bridge_step op s) =
     (STOP_SOURCE_PHYSICAL_EMERGENCY, STOP_REASON_PHYSICAL_EMERGENCY_SWITCH,
      u64 (rt_stop_sequence s + 1))).
Proof.
  intros s. refine (proj2 (step_settled op s (pending_run ops _ _))). discriminate.
Qed.

(** An operator stop, then a late failure of the vendor's library. *)
Lemma first_stop_cause_witness :
  let ops :=
    [BoStart true true VcuCommand_default VcuCommand_default;
     BoStopContext (mkBridgeStopContextV1 sizeof_BridgeStopContextV1 STOP_SOURCE_DRIVER_PAGE
                      STOP_REASON_OPERATOR_ESTOP 0);
     BoEmergencyStop] in
  let s := bridge_run ops (BridgeRuntime_new (d_lit 300 0) 800 SpeedControlSettings_default true
                             (d_lit 100 0)) in
  cause s = (STOP_SOURCE_DRIVER_PAGE, STOP_REASON_OPERATOR_ESTOP, 1) /\
  let s' := bridge_step (BoCycle (fun _ => UpdateRefused) demo_now) s in
  (cause s' = cause s \/ rt_stop_source s' = STOP_SOURCE_PHYSICAL_EMERGENCY) /\
  rt_chassis_control_fault_latched s' = true.
Proof.
  intros ops s. assert (Hc : cause s = (STOP_SOURCE_DRIVER_PAGE, STOP_REASON_OPERATOR_ESTOP, 1))
    by (vm_compute; reflexivity).
  split; [exact Hc |]. cbv zeta. split; [| vm_compute; reflexivity].
  destruct (first_stop_cause ops (BoCycle (fun _ => UpdateRefused) demo_now) (d_lit 300 0) 800
    SpeedControlSettings_default true (d_lit 100 0) ltac:(vm_compute; discriminate)
    ltac:(vm_compute; reflexivity)) as [H | [_ H]]; [left; exact H | right].
  exact (f_equal (fun c => c.1.1) H).
Defined.
