(* ===== verification/ChassisLink.v ===== *)
(** ChassisLink: the vehicle adapter of Adapter.v on the bridge of ChassisApi.v.

    [bridge_library] makes the bridge's exported functions the chassis platform the
    adapter loads; the dynamic loader and SocketCAN stay those of any platform [Sys].
    The theorems follow a command and a stop from the adapter's interface into the
    bridge's state ([adapter_command_reaches_bridge], [adapter_stop_reaches_bridge]). *)
From S2P Require Export ChassisCalls AdapterProperties.

(** ** The world behind the adapter *)

(** The operating system, what the machine answers, and [g_runtime]. *)
Record ChassisWorld (Sys : Type) := mkChassisWorld {
  cw_sys : Sys;
  cw_host : ChassisHost;
  cw_bridge : option BridgeRuntime;
}.
Arguments mkChassisWorld {Sys}.
Arguments cw_sys {Sys}.
Arguments cw_host {Sys}.
Arguments cw_bridge {Sys}.

Section world.
Context {Sys : Type} {P : ChassisPlatform Sys}.
Notation World := (ChassisWorld Sys).

Definition on_sys {A} (m : M Sys A) : M World A :=
  zoom cw_sys (fun sys w => mkChassisWorld sys (cw_host w) (cw_bridge w)) m.

(** A call of the bridge, by its effect on [g_runtime]. *)
Definition with_bridge (w : World) (g : option BridgeRuntime) : World :=
  mkChassisWorld (cw_sys w) (cw_host w) g.

(** The structures as the adapter initialises them. *)
Definition BridgeHandshakeStatus_zero : BridgeHandshakeStatus :=
  mkBridgeHandshakeStatus 0 0 0 0 0 0 0 0 0 (repeat 0 4%nat) (repeat 0 4%nat) d_zero 0 0 0 0 0 0 0
    0 0.
Definition BridgeTelemetry_zero : BridgeTelemetry :=
  mkBridgeTelemetry d_zero 0 d_zero d_zero d_zero 0 0 0 0.
Definition BridgeCanFeedbackV1_zero : BridgeCanFeedbackV1 :=
  mkBridgeCanFeedbackV1 0 0 d_zero 0 0 0 0 0 0 0 0 (repeat 0 4%nat) (repeat 0 4%nat)
    (repeat 0 8%nat) (repeat 0 8%nat) (zeros 8) (repeat 0 8%nat) (zeros 8) (repeat 0 8%nat)
    (repeat 0 4%nat) (repeat 0 4%nat) (zeros 4) (repeat 0 8%nat) (repeat 0 8%nat) (zeros 8)
    0 0 0 0 0 0.

(** Unloading the library destroys its [g_runtime]. *)
#[export] Instance bridge_library : ChassisPlatform World := {|
  dl_open path := on_sys (dl_open path);
  dl_symbol name := on_sys (dl_symbol name);
  dl_query name := on_sys (dl_query name);
  dl_unload w := mkChassisWorld (dl_unload (cw_sys w)) (cw_host w) None;
  sc_control_socket := on_sys sc_control_socket;
  sc_interface_index name := on_sys (sc_interface_index name);
  sc_interface_is_up name := on_sys (sc_interface_is_up name);
  sc_bitrate index name := on_sys (sc_bitrate index name);
  sc_tx_queue_length name query := on_sys (sc_tx_queue_length name query);
  sc_set_tx_queue_length name length := on_sys (sc_set_tx_queue_length name length);
  br_open_v4 config w :=
    let '(code, g) := chassis_open_v4 (cw_host w) (Some config) (cw_bridge w) in
    (code, with_bridge w g);
  br_apply_state gear vx ax steering w :=
    let '(code, g) := chassis_apply_state (host_now (cw_host w)) gear vx ax (Some steering)
                        (Z.of_nat (length steering)) (cw_bridge w) in
    (code, with_bridge w g);
  br_apply_state_v3 gear vx ax steering active w :=
    let '(code, result, g) :=
      chassis_apply_state_v3 (host_now (cw_host w)) gear vx ax (Some steering)
        (Z.of_nat (length steering)) active (cw_bridge w) in
    (code, result, with_bridge w g);
  br_configure_runtime_control_v3 config w :=
    let '(code, result, g) :=
      chassis_configure_runtime_control_v3 (host_now (cw_host w)) (Some config) (cw_bridge w) in
    (code, result, with_bridge w g);
  br_clear_runtime_control_v1 w :=
    let '(code, result, g) := chassis_clear_runtime_control_v1 (cw_bridge w) in
    (code, result, with_bridge w g);
  br_emergency_stop w :=
    let '(code, g) := chassis_emergency_stop (cw_bridge w) in (code, with_bridge w g);
  br_request_parallel_handshake w :=
    let '(code, g) :=
      chassis_request_parallel_handshake (host_now (cw_host w)) (cw_bridge w) in
    (code, with_bridge w g);
  br_disconnect_parallel_handshake w :=
    let '(code, g) := chassis_disconnect_parallel_handshake (cw_bridge w) in
    (code, with_bridge w g);
  br_poll_feedback w :=
    let '(code, _, g) := chassis_poll_feedback (cw_bridge w) in (code, with_bridge w g);
  br_read_handshake_status w :=
    let '(code, status) :=
      chassis_read_handshake_status (host_now (cw_host w)) (cw_bridge w) in
    (code, default BridgeHandshakeStatus_zero status, w);
  br_read_telemetry w :=
    let '(code, telemetry) := chassis_read_telemetry (cw_bridge w) in
    (code, default BridgeTelemetry_zero telemetry, w);
  br_read_can_feedback_v1 w :=
    let '(code, feedback) :=
      chassis_read_can_feedback_v1 (host_now (cw_host w)) (cw_bridge w) in
    (code, default BridgeCanFeedbackV1_zero feedback, w);
  br_set_stop_context_v1 context w :=
    let '(code, g) := chassis_set_stop_context_v1 (Some context) (cw_bridge w) in
    (code, with_bridge w g);
  br_close w :=
    let '(code, _, g) := chassis_close (cw_bridge w) in (code, with_bridge w g);
|}.
End world.

(** ** A command, from the adapter to the bridge *)

Section link.
Context {Sys : Type} {P : ChassisPlatform Sys}.
Notation World := (ChassisWorld Sys).
Notation Dyn := (DynamicLibraryVehicleAdapter World).

Lemma apply_request_steering (s : Dyn) c gear v a steering active :
  apply_request s c = Ok (gear, v, a, steering, active) ->
  steering = repeat (cmd_steering c) 4%nat.
Proof.
  unfold apply_request. intros H. apply result_bind_ok in H as (v' & _ & H).
  apply result_bind_ok in H as (a' & _ & H). apply result_bind_ok in H as (g' & _ & H).
  by injection H as _ _ _ <- _.
Qed.

(** The call the adapter makes. *)
Lemma bridge_apply_call (w : World) gear v a steering active :
  br_apply_state_v3 gear v a steering active w =
  let r := chassis_apply_state_v3 (host_now (cw_host w)) gear v a (Some steering)
             (Z.of_nat (length steering)) active (cw_bridge w) in
  (r.1, with_bridge w r.2).
Proof. unfold br_apply_state_v3, bridge_library. by destruct (chassis_apply_state_v3 _ _ _ _ _ _ _ _) as [[? ?] ?]. Qed.

(** C35. A command reaches the bridge unchanged or is refused without traction.  On an
    open adapter over a running bridge without an I/O error: applying a command either
    succeeds, and then the bridge has stored exactly the request computed from the
    command (or, in gear P, has started the disarming); or it throws, and then the
    request could not be computed and the bridge was not called, or the bridge refused
    it, the exception carries the bridge's issue, and the bridge is left asking for no
    traction.  The adapter never sees an inconsistent result structure. *)
Theorem adapter_command_reaches_bridge (s : Dyn) (c : ControlCommand) (rt : BridgeRuntime) :
  dyn_opened s = true -> cw_bridge (dyn_bridge s) = Some rt ->
  rt_running rt = true -> rt_io_error rt = 0 ->
  match dynamic_apply_control c s with
  | (Ok _, s') => exists rt' gear v a steering active,
      cw_bridge (dyn_bridge s') = Some rt' /\
      apply_request s c = Ok (gear, v, a, steering, active) /\
      if gear =? 4 then rt' = (request_park rt).2
      else rt_latest_intent rt' =
             mkControlIntent gear v a steering (rt_intent_generation rt') /\ intent_inv rt'
  | (Throw e, s') => exists rt',
      cw_bridge (dyn_bridge s') = Some rt' /\
      ((apply_request s c = Throw e /\ rt' = rt) \/
       (idle rt' = true /\ exists issue code, code <> 0 /\
        e = VehicleAdapterControlRejected_new (bridge_apply_issue_code issue) code))
  end.
Proof.
  intros Hopen Hb Hr Hio. unfold dynamic_apply_control, require_opened.
  unfold mbind, M_bind, gets, get, lift, modify, throw. rewrite Hopen. cbn [negb throw_if].
  destruct (apply_request s c) as [[[[[gear v] a] steering] active] | e] eqn:Eq.
  2: { exists rt. split; [exact Hb | by left]. }
  pose proof (apply_request_steering _ _ _ _ _ _ _ Eq) as Hst.
  rewrite on_bridge_state. unfold call. rewrite bridge_apply_call. cbv zeta. rewrite Hb.
  pose proof (apply_effect (host_now (cw_host (dyn_bridge s))) gear v a (Some steering)
                (Z.of_nat (length steering)) active (Some rt)) as E.
  destruct (chassis_apply_state_v3 _ _ _ _ _ _ _ _) as [[code result] g'].
  destruct E as (H1 & H2 & H3 & H4 & Hg). destruct g' as [rt' |]; [| done].
  destruct Hg as (_ & Hn & Hok). cbn [fst snd]. rewrite H1, H2, H3, !Z.eqb_refl. cbn [negb orb].
  destruct (code =? 0) eqn:Ec; cbn [negb andb].
  - apply Z.eqb_eq in Ec as ->. rewrite (proj1 H4 eq_refl). change (0 =? kBridgeApplyIssueNone) with true.
    cbn [negb]. exists rt', gear, v, a, steering, active.
    split; [reflexivity |]. split; [reflexivity |].
    specialize (Hok eq_refl). destruct (gear =? 4); [exact Hok |].
    apply store_intent_stores in Hok. subst steering. exact Hok.
  - apply Z.eqb_neq in Ec. exists rt'. split; [reflexivity | right]. split.
    + apply Hn; [by rewrite Hr, Hio | exact Ec].
    + by exists (bar_issue_id result), code.
Qed.

(** ** A stop, from the adapter to the bridge *)

(** The contexts the bridge takes: known values, both or neither given, and not the
    physical emergency, which only the bridge itself may report. *)
Definition stop_context_taken (x : VehicleStopContext) : bool :=
  let source := VehicleStopSource_value (stop_source x) in
  let reason := VehicleStopReason_value (stop_reason x) in
  valid_stop_source source && valid_stop_reason reason &&
  eqb (source =? STOP_SOURCE_NONE) (reason =? STOP_REASON_NONE) &&
  negb (source =? STOP_SOURCE_PHYSICAL_EMERGENCY) &&
  negb (reason =? STOP_REASON_PHYSICAL_EMERGENCY_SWITCH).

Definition raw_stop_context (x : VehicleStopContext) : BridgeStopContextV1 :=
  mkBridgeStopContextV1 sizeof_BridgeStopContextV1 (VehicleStopSource_value (stop_source x))
    (VehicleStopReason_value (stop_reason x)) 0.

Lemma set_stop_context_taken x rt :
  rt_running rt = true -> (set_stop_context (raw_stop_context x) rt).1 = stop_context_taken x.
Proof.
  intros Hr. unfold set_stop_context, stop_context_taken. cbv zeta. rewrite Hr. cbn [negb orb].
  change (bsc_struct_size (raw_stop_context x) =? sizeof_BridgeStopContextV1) with true.
  change (bsc_reserved (raw_stop_context x) =? 0) with true. cbn [negb orb].
  change (bsc_stop_source (raw_stop_context x)) with (VehicleStopSource_value (stop_source x)).
  change (bsc_stop_reason (raw_stop_context x)) with (VehicleStopReason_value (stop_reason x)).
  destruct (valid_stop_source _); cbn [negb orb andb fst]; [| reflexivity].
  destruct (valid_stop_reason _); cbn [negb orb andb fst]; [| reflexivity].
  destruct (_ =? STOP_SOURCE_NONE), (_ =? STOP_REASON_NONE); cbn [xorb eqb orb andb fst];
    try reflexivity;
    destruct (_ =? STOP_SOURCE_PHYSICAL_EMERGENCY), (_ =? STOP_REASON_PHYSICAL_EMERGENCY_SWITCH);
    reflexivity.
Qed.

Lemma set_stop_context_keeps x rt :
  rt_running (set_stop_context x rt).2 = rt_running rt /\
  ((set_stop_context x rt).1 = false -> (set_stop_context x rt).2 = rt).
Proof. unfold set_stop_context. cbv zeta. by destruct (_ || _). Qed.

Lemma emergency_stop_stops rt :
  rt_running rt = true ->
  let rt' := (bridge_emergency_stop rt).2 in
  (bridge_emergency_stop rt).1 = true /\ ctl_emergency_stop (rt_controller rt') = true /\
  rt_software_estop rt' = true /\ rt_clear_soft_stop_requested rt' = false /\ idle rt' = true.
Proof.
  intros Hr. cbv zeta. split; [unfold bridge_emergency_stop; by rewrite Hr |].
  pose proof (withdraws_idle BoEmergencyStop rt Hr) as Hi. cbn [bridge_step] in Hi.
  rewrite Hi. clear Hi. unfold bridge_emergency_stop. rewrite Hr. cbn [negb fst snd]. cbv zeta.
  generalize (latch_pending_stop STOP_SOURCE_UNKNOWN STOP_REASON_LEGACY_UNSPECIFIED rt). intros y.
  pose proof (withdraw_view
    ((on_controller emergency_stop y) <| rt_clear_soft_stop_requested := false |>)) as H.
  pose proof (view_controller _ _ H) as H1. pose proof (view_clear _ _ H) as H2.
  revert H1 H2. clear H. generalize (withdraw_latest_traction
    ((on_controller emergency_stop y) <| rt_clear_soft_stop_requested := false |>)).
  intros w H1 H2. split_and!; [| done | exact H2 | done].
  transitivity (ctl_emergency_stop (rt_controller w)); [reflexivity |].
  rewrite H1. exact (proj1 (emergency_stop_flags (rt_controller y))).
Qed.

Lemma stop_context_call (w : World) rt raw :
  cw_bridge w = Some rt ->
  br_set_stop_context_v1 raw w =
    ((if (set_stop_context raw rt).1 then 0 else -2),
     with_bridge w (Some (set_stop_context raw rt).2)).
Proof.
  intros Hb. unfold br_set_stop_context_v1, bridge_library. rewrite Hb.
  unfold chassis_set_stop_context_v1, on_runtime. by destruct (set_stop_context raw rt).
Qed.

Lemma emergency_stop_call (w : World) rt :
  cw_bridge w = Some rt ->
  br_emergency_stop w =
    ((if (bridge_emergency_stop rt).1 then 0 else -2),
     with_bridge w (Some (bridge_emergency_stop rt).2)).
Proof.
  intros Hb. unfold br_emergency_stop, bridge_library. rewrite Hb.
  unfold chassis_emergency_stop, on_runtime. by destruct (bridge_emergency_stop rt).
Qed.

(** C36. An emergency stop reaches the controller.  On an open adapter over a running
    bridge, applying a full stop succeeds exactly when the bridge takes its context (a
    source and a reason together, or neither, and not the physical emergency), and then
    the controller's stop is demanded, the software stop latched, nothing asks to clear
    it and no traction is stored; otherwise it throws, and the bridge is as it was. *)
Theorem adapter_stop_reaches_bridge (s : Dyn) (o : ControlOutput) (x : VehicleStopContext)
    (rt : BridgeRuntime) :
  dyn_opened s = true -> cw_bridge (dyn_bridge s) = Some rt -> rt_running rt = true ->
  out_estop o || out_full_emergency_brake o = true ->
  let outcome := dynamic_apply_safe_stop o x s in
  is_ok outcome.1 = stop_context_taken x /\
  exists rt', cw_bridge (dyn_bridge outcome.2) = Some rt' /\
    if stop_context_taken x
    then ctl_emergency_stop (rt_controller rt') = true /\ rt_software_estop rt' = true /\
         rt_clear_soft_stop_requested rt' = false /\ idle rt' = true
    else rt' = rt.
Proof.
  intros Hopen Hb Hr Hs outcome. subst outcome.
  pose proof (safe_stop_calls o x s Hopen Hs) as H. cbv zeta in H.
  fold (raw_stop_context x) in H. rewrite (stop_context_call _ _ _ Hb) in H. cbn [fst snd] in H.
  pose proof (set_stop_context_taken x rt Hr) as Ht.
  destruct (set_stop_context_keeps (raw_stop_context x) rt) as [Hk1 Hk2].
  destruct (set_stop_context (raw_stop_context x) rt) as [taken rt1]. cbn [fst snd] in *.
  rewrite <- Ht in *. destruct taken; cbn [Z.eqb] in H.
  - rewrite Hr in Hk1. destruct (emergency_stop_stops rt1 Hk1) as (E0 & E).
    rewrite (emergency_stop_call (with_bridge (dyn_bridge s) (Some rt1)) rt1 eq_refl), E0 in H. cbn [fst snd Z.eqb] in H.
    destruct H as [-> ->]. split; [reflexivity |]. eexists. split; [reflexivity | exact E].
  - destruct H as [-> ->]. split; [reflexivity |]. exists rt1. split; [reflexivity | by apply Hk2].
Qed.
End link.

(** ** The examples' adapter, over the examples' bridge *)

Definition demo_adapter (rt : BridgeRuntime) :
    DynamicLibraryVehicleAdapter (ChassisWorld ToyBridge) :=
  mkDynamicLibraryVehicleAdapter "/opt/libchassis.so" "can0" 500000 128 (d_lit 10 0) (d_lit 300 0)
    d_zero (d_lit 200 0) (d_lit 100 0) (d_lit 100 0) 1 500 200 d_one (d_lit 2 1) d_zero
    (d_lit 100 0) 100 d_one true true true 0 0 ""
    (mkChassisWorld (mkToyBridge 0 [] 1 0) demo_host (Some rt)).

(** A full throttle command, in reverse while the vehicle drives forward. *)
Definition link_command (gear : string) : ControlCommand :=
  mkControlCommand 1 "v" "d" "s" 7 1000 gear d_zero (d_lit 4 1) d_zero false "tok" true.

Lemma adapter_command_reaches_bridge_witness :
  match dynamic_apply_control (link_command "R") (demo_adapter demo_bridge) with
  | (Throw e, s') => exists rt', cw_bridge (dyn_bridge s') = Some rt' /\
      rt_latest_intent_valid rt' = true
  | _ => False
  end.
Proof.
  pose proof (adapter_command_reaches_bridge (demo_adapter demo_bridge) (link_command "R")
    demo_bridge eq_refl eq_refl eq_refl eq_refl) as H.
  destruct (dynamic_apply_control (link_command "R") (demo_adapter demo_bridge)) as [[u | e] s']
    eqn:E; [exfalso; vm_compute in E; discriminate E |].
  destruct H as (rt' & Hb & _). exists rt'. split; [exact Hb |].
  vm_compute in E. injection E as _ Es. rewrite <- Es in Hb. vm_compute in Hb.
  injection Hb as <-. reflexivity.
Defined.

Lemma adapter_stop_reaches_bridge_witness :
  let o := mkControlOutput "N" d_zero d_zero d_one true true in
  let x := mkVehicleStopContext DriverPage OperatorEstop in
  let outcome := dynamic_apply_safe_stop o x (demo_adapter demo_bridge) in
  is_ok outcome.1 = true /\
  exists rt', cw_bridge (dyn_bridge outcome.2) = Some rt' /\
              ctl_emergency_stop (rt_controller rt') = true /\ idle rt' = true.
Proof.
  intros o x outcome.
  destruct (adapter_stop_reaches_bridge (demo_adapter demo_bridge) o x demo_bridge eq_refl
    eq_refl eq_refl eq_refl) as (H1 & rt' & H2 & H3).
  split; [exact H1 |]. exists rt'. split; [exact H2 |].
  change (stop_context_taken x) with true in H3. destruct H3 as (Ha & _ & _ & Hi). by split.
Defined.
