(* ===== verification/Driver.v ===== *)
(** Driver: the state of the driver console, its locks and its primitives (server.hpp:325-518,
    server.cpp:597-606, 4226-4400, 4817-4854, 5738-5795).

    - [DriverConfig], [DriverState] in the groups the mutexes guard, [DriverProcess];
    - [ThreadApi]: the other threads; [lock_guard], which lets them run before it takes a
      lock;
    - the two signaling connections, [reset_native_control_state] and
      [note_native_control_failure], [refresh_time_sync].

    Other threads may change anything no lock of this thread guards, whenever it takes a
    lock: a property of one call holds for every interleaving.  The records of the optional
    control trace ([control_trace_commands]) are left out: nothing reads them back. *)
From S2P Require Export Intent Channel TimeSync WebSocket.

Record DriverControlLimitsConfig := mkDriverControlLimitsConfig {
  dl_initial_target_speed_kph : double;
  dl_initial_max_motor_torque_nm : double;
  dl_initial_max_brake_pressure_bar : double;
  dl_initial_service_brake_pressure_bar : double;
  dl_initial_hard_brake_pressure_bar : double;
  dl_initial_max_steering_angle_deg : double;
}.

(** What the runtime reads of its configuration; the pages and the gamepad have the rest. *)
Record DriverConfig := mkDriverConfig {
  dc_driver_id : string;
  dc_signaling_url : string;
  dc_resolve_entries : list string;
  dc_browser_event_log_path : string;
  dc_browser_event_log_max_bytes : Z;
  dc_browser_event_log_files : Z;
  dc_rate_hz : Z;
  dc_intent_lease_ms : Z;
  dc_max_time_sync_uncertainty_ms : Z;
  dc_time_sync_interval_ms : Z;
  dc_time_sync_samples : Z;
  dc_control_limits : DriverControlLimitsConfig;
}.

(** The control profile the browser prepared last. *)
Record DriverProfile := mkDriverProfile {
  dp_target_speed_kph : double;
  dp_max_motor_torque_nm : double;
  dp_max_brake_pressure_bar : double;
  dp_service_brake_pressure_bar : double;
  dp_hard_brake_pressure_bar : double;
  dp_max_steering_angle_deg : double;
  dp_speed_pid_kp : double;
  dp_speed_pid_ki : double;
  dp_speed_pid_kd : double;
  dp_speed_pid_derivative_filter_tau_ms : double;
  dp_speed_pid_max_dt_ms : Z;
  dp_motor_torque_rise_rate_nm_per_s : double;
  dp_parking_idle_timeout_ms : Z;
  dp_initialized : bool;
  dp_last_prepared_seq : Z;
  dp_service_brake_limit : double;
  dp_hard_brake_limit : double;
}.

(** The mutexes of the runtime, and the one of a log export. *)
Inductive Lock : Type :=
| AuthenticationMutex   (* authentication_mutex_, recursive *)
| ControlLeaseMutex     (* control_lease_mutex_ *)
| SignalingSendMutex    (* signaling_send_mutex_ *)
| TimeSyncMutex         (* time_sync_mutex_ *)
| SignalingSocketMutex  (* signaling_websocket_mutex_ *)
| UpdateMutex           (* native_control_update_mutex_ *)
| ControlSocketMutex    (* control_signaling_websocket_mutex_ *)
| StatusMutex           (* native_control_status_mutex_ *)
| StateMutex            (* mutex_ *)
| LogExportMutex        (* log_export_mutex_ *)
| IdentityMutex         (* identity_mutex_ *)
| ExportProgressMutex   (* ControllerLogExport::Impl::mutex *)
| ApprovalWaitMutex     (* approval_wait_mutex_ *)
| ControlWaitMutex      (* native_control_wait_mutex_ *)
| BrowserEventLogMutex. (* browser_event_log_mutex_ *)

#[global] Instance Lock_eq_dec : EqDecision Lock.
Proof. solve_decision. Defined.

Section state.
Context {J : JsonApi} {W : Type} {Sockets : WebSocketApi W}.

(** The members [mutex_] guards. *)
Record DriverSession := mkDriverSession {
  ds_vehicle_id : string;
  ds_password : string;
  ds_driver_token : string;
  ds_driver_token_expires_at_ms : Z;
  ds_signaling_service_instance_id : string;
  ds_signaling_restart_recoveries : Z;
  ds_signaling_available : bool;
  ds_session_id : string;
  ds_control_token : string;
  ds_control_token_expires_at_ms : Z;
  ds_control_token_renew_at_ms : Z;
  ds_sequence : Z;
  ds_control_sequence : Z;
  ds_control_session_generation : Z;
  ds_connected_at_ms : Z;
  ds_profile : DriverProfile;
  ds_pending_mobile_approval : json;
  ds_signaling_messages : json;
  ds_webrtc_metrics : json;
  ds_last_webrtc_audit_key : string;
  ds_authorized_vehicles : json;
}.

(** The members [control_signaling_websocket_mutex_] guards. *)
Record ControlSocket := mkControlSocket {
  cs_websocket : option ws;
  cs_session_id : string;
  cs_last_ack_seq : Z;
  cs_ack_window : NativeControlAcknowledgementWindow;
  cs_next_connect_monotonic_ms : Z;
  cs_reconnect_delay_ms : Z;
}.

(** The members [signaling_websocket_mutex_] guards. *)
Record SignalingSocket := mkSignalingSocket {
  ss_websocket : option ws;
  ss_session_id : string;
  ss_pending_messages : list json;
  ss_delivery_cursor : Z;
  ss_reconnects : Z;
}.

(** The atomics of the sender, and the error [native_control_status_mutex_] guards. *)
Record NativeControlStatus := mkNativeControlStatus {
  ns_estop_wakeup : bool;
  ns_commands_sent : Z;
  ns_send_failures : Z;
  ns_last_sent_at_utc_ms : Z;
  ns_last_sent_monotonic_ms : Z;
  ns_last_gap_ms : Z;
  ns_max_gap_ms : Z;
  ns_last_seq : Z;
  ns_scheduled_at_monotonic_ms : Z;
  ns_last_ack_received_at_utc_ms : Z;
  ns_last_ack_cloud_received_at_utc_ms : Z;
  ns_last_error : string;
}.

(** [log_export_] is a number the host gave for the export; [log_export_mutex_] guards it and
    the token of the driver it is for. *)
Record DriverState := mkDriverState {
  dv_driver_id : string;
  dv_session : DriverSession;
  dv_control : ControlSocket;
  dv_signaling : SignalingSocket;
  dv_intent : NativeControlIntentStore;
  dv_clock : SynchronizedClock;
  dv_status : NativeControlStatus;
  dv_connect_cancellation_generation : Z;
  dv_shutting_down : bool;
  dv_log_export : option Z;
  dv_log_export_owner_token : string;
}.
End state.
Arguments DriverSession J : clear implicits.
Arguments ControlSocket {J} W {Sockets}.
Arguments SignalingSocket {J} W {Sockets}.
Arguments DriverState {J} W {Sockets}.

#[global] Instance eta_DriverProfile : Settable DriverProfile :=
  fields! mkDriverProfile
    <dp_target_speed_kph; dp_max_motor_torque_nm; dp_max_brake_pressure_bar;
     dp_service_brake_pressure_bar; dp_hard_brake_pressure_bar; dp_max_steering_angle_deg;
     dp_speed_pid_kp; dp_speed_pid_ki; dp_speed_pid_kd; dp_speed_pid_derivative_filter_tau_ms;
     dp_speed_pid_max_dt_ms; dp_motor_torque_rise_rate_nm_per_s; dp_parking_idle_timeout_ms;
     dp_initialized; dp_last_prepared_seq; dp_service_brake_limit; dp_hard_brake_limit>.

#[global] Instance eta_DriverSession J : Settable (DriverSession J) :=
  fields! (@mkDriverSession J)
    <ds_vehicle_id; ds_password; ds_driver_token; ds_driver_token_expires_at_ms;
     ds_signaling_service_instance_id; ds_signaling_restart_recoveries; ds_signaling_available;
     ds_session_id; ds_control_token; ds_control_token_expires_at_ms; ds_control_token_renew_at_ms;
     ds_sequence; ds_control_sequence; ds_control_session_generation; ds_connected_at_ms;
     ds_profile; ds_pending_mobile_approval; ds_signaling_messages; ds_webrtc_metrics;
     ds_last_webrtc_audit_key; ds_authorized_vehicles>.

#[global] Instance eta_NativeControlStatus : Settable NativeControlStatus :=
  fields! mkNativeControlStatus
    <ns_estop_wakeup; ns_commands_sent; ns_send_failures; ns_last_sent_at_utc_ms;
     ns_last_sent_monotonic_ms; ns_last_gap_ms; ns_max_gap_ms; ns_last_seq;
     ns_scheduled_at_monotonic_ms; ns_last_ack_received_at_utc_ms;
     ns_last_ack_cloud_received_at_utc_ms; ns_last_error>.

Section setters.
Context {J : JsonApi} {W : Type} {Sockets : WebSocketApi W}.

#[global] Instance eta_ControlSocket : Settable (ControlSocket W) :=
  fields! mkControlSocket
    <cs_websocket; cs_session_id; cs_last_ack_seq; cs_ack_window; cs_next_connect_monotonic_ms;
     cs_reconnect_delay_ms>.

#[global] Instance eta_SignalingSocket : Settable (SignalingSocket W) :=
  fields! mkSignalingSocket
    <ss_websocket; ss_session_id; ss_pending_messages; ss_delivery_cursor; ss_reconnects>.

#[global] Instance eta_DriverState : Settable (DriverState W) :=
  fields! mkDriverState
    <dv_driver_id; dv_session; dv_control; dv_signaling; dv_intent; dv_clock; dv_status;
     dv_connect_cancellation_generation; dv_shutting_down; dv_log_export; dv_log_export_owner_token>.
End setters.

(** The other threads: what they have done when this one runs again, and whether
    [try_lock] gets the lock. *)
Class ThreadApi {J : JsonApi} (W : Type) {Sockets : WebSocketApi W} : Type := {
  thr_others : DriverState W -> W -> DriverState W * W;
  thr_try_lock : W -> bool * W;
}.

(** One acquisition of a lock: what the thread held before and what it then sees. *)
Record LockEvent {J : JsonApi} (W : Type) {Sockets : WebSocketApi W} := mkLockEvent {
  ev_lock : Lock;
  ev_held : list Lock;
  ev_state : DriverState W;
}.
Arguments mkLockEvent {J W Sockets}.
Arguments ev_lock {J W Sockets}.
Arguments ev_held {J W Sockets}.
Arguments ev_state {J W Sockets}.

(** The members and the machine; the locks held and their history are not data of the
    program, they record what the thread does. *)
Record DriverProcess {J : JsonApi} (W : Type) {Sockets : WebSocketApi W} := mkDriverProcess {
  drv_state : DriverState W;
  drv_host : W;
  drv_held : list Lock;
  drv_trace : list (LockEvent W);
}.
Arguments mkDriverProcess {J W Sockets}.
Arguments drv_state {J W Sockets}.
Arguments drv_host {J W Sockets}.
Arguments drv_held {J W Sockets}.
Arguments drv_trace {J W Sockets}.

#[global] Instance eta_DriverProcess {J : JsonApi} W {Sockets : WebSocketApi W} :
  Settable (DriverProcess W) :=
  fields! mkDriverProcess <drv_state; drv_host; drv_held; drv_trace>.

(** ** Values *)

Definition control_lease_renew_at (now_ms expires_at_ms : Z) : Z :=
  if expires_at_ms <=? now_ms then now_ms else now_ms + (expires_at_ms - now_ms) ÷ 3.

(** The share of the pressure limit. *)
Definition brake_limit (pressure_bar max_pressure_bar : double) : double :=
  if max_pressure_bar >ᵈ d_zero then pressure_bar ⊘ max_pressure_bar else d_zero.

(** [reset_control_profile_locked] *)
Definition reset_control_profile (limits : DriverControlLimitsConfig) : DriverProfile :=
  let max_brake := dl_initial_max_brake_pressure_bar limits in
  let service_brake := dl_initial_service_brake_pressure_bar limits in
  let hard_brake := dl_initial_hard_brake_pressure_bar limits in
  mkDriverProfile (dl_initial_target_speed_kph limits) (dl_initial_max_motor_torque_nm limits)
    max_brake service_brake hard_brake (dl_initial_max_steering_angle_deg limits)
    d_zero d_zero d_zero d_zero 0 d_zero 500 false 0
    (brake_limit service_brake max_brake) (brake_limit hard_brake max_brake).

(** The assignments every end of a session makes. *)
Definition clear_session {J : JsonApi} (config : DriverConfig) (s : DriverSession J) : DriverSession J :=
  s <| ds_session_id := ""%string |> <| ds_control_token := ""%string |>
    <| ds_control_token_expires_at_ms := 0 |> <| ds_control_token_renew_at_ms := 0 |>
    <| ds_sequence := 0 |> <| ds_profile := reset_control_profile (dc_control_limits config) |>
    <| ds_connected_at_ms := 0 |>.

Definition clear_driver_token {J : JsonApi} (s : DriverSession J) : DriverSession J :=
  s <| ds_driver_token := ""%string |> <| ds_driver_token_expires_at_ms := 0 |>.

(** [value.value(key, std::int64_t{default})] *)
Definition value_int64 {J : JsonApi} (key : string) (default : Z) (value : json) : result Z :=
  field ← value_json key (j_int default) value; get_int64 field.

(** [if (session_id_ == session) { ... }] *)
Definition clear_if {J : JsonApi} (config : DriverConfig) (session : string) (s : DriverSession J) :
    DriverSession J :=
  if String.eqb (ds_session_id s) session then clear_session config s else s.

(** The statuses that say the driver has no authority any more. *)
Definition ends_authority (status : Z) : bool :=
  (status =? 401) || (status =? 403) || (status =? 404) || (status =? 409).

(** ** Locks *)

Section driver.
Context {J : JsonApi} {W : Type} {Http : HttpTransport W} {Clock : ClockApi W} {Sort : SampleSort}.
Context {Sockets : WebSocketApi W} {Threads : ThreadApi W}.
Notation D := (DriverProcess W).

(** What the others did, except to the members the thread keeps locked. *)
Definition shielded (held : list Lock) (mine others : DriverState W) : DriverState W :=
  let kept {A} (l : Lock) (member : DriverState W -> A) : A :=
    if bool_decide (l ∈ held) then member mine else member others in
  others <| dv_session := kept StateMutex dv_session |>
         <| dv_driver_id := kept IdentityMutex dv_driver_id |>
         <| dv_control := kept ControlSocketMutex dv_control |>
         <| dv_signaling := kept SignalingSocketMutex dv_signaling |>
         <| dv_log_export := kept LogExportMutex dv_log_export |>
         <| dv_log_export_owner_token := kept LogExportMutex dv_log_export_owner_token |>.

Definition others_run : M D unit := fun p =>
  let '(others, w) := thr_others (drv_state p) (drv_host p) in
  (Ok tt, p <| drv_state := shielded (drv_held p) (drv_state p) others |> <| drv_host := w |>).

(** [std::lock_guard lock(l); m] *)
Definition holding {A} (l : Lock) (m : M D A) : M D A := fun p =>
  let held := drv_held p in
  let event := mkLockEvent l held (drv_state p) in
  match m (p <| drv_held := l :: held |> <| drv_trace ::= cons event |>) with
  | (answer, p) => (answer, p <| drv_held := held |>)
  end.

Definition lock_guard {A} (l : Lock) (m : M D A) : M D A := others_run;; holding l m.

(** [std::lock_guard lock(authentication_mutex_); m] *)
Definition authentication_guard {A} (m : M D A) : M D A :=
  held ← gets drv_held;
  if bool_decide (AuthenticationMutex ∈ held) then m else lock_guard AuthenticationMutex m.

(** ** Members and machine *)

Definition this : M D (DriverState W) := gets drv_state.
Definition this_update (f : DriverState W -> DriverState W) : M D unit :=
  modify (fun p => p <| drv_state ::= f |>).
Definition session_update (f : DriverSession J -> DriverSession J) : M D unit :=
  this_update (fun s => s <| dv_session ::= f |>).
Definition status_update (f : NativeControlStatus -> NativeControlStatus) : M D unit :=
  this_update (fun s => s <| dv_status ::= f |>).
Definition control_update (f : ControlSocket W -> ControlSocket W) : M D unit :=
  this_update (fun s => s <| dv_control ::= f |>).
Definition signaling_update (f : SignalingSocket W -> SignalingSocket W) : M D unit :=
  this_update (fun s => s <| dv_signaling ::= f |>).

Definition on_machine {A} (m : M W A) : M D A := zoom drv_host (fun w p => p <| drv_host := w |>) m.
Definition on_intent {A} (m : M NativeControlIntentStore A) : M D A :=
  zoom (fun p => dv_intent (drv_state p))
    (fun intent p => p <| drv_state ::= fun s => s <| dv_intent := intent |> |>) m.

(** [clock_.now_ms()] *)
Definition clock_now_ms : M D Z :=
  others_run;; s ← this; on_machine (synchronized_now_ms (dv_clock s)).

Definition steady_now_ms : M D Z := now ← on_machine steady_now_ns; mret (now ÷ 1000000).

Definition driver_id : M D string := lock_guard IdentityMutex (s ← this; mret (dv_driver_id s)).

(** A call on the connection of a socket record, which stays in place. *)
Definition on_control_ws {A} (h : ws) (m : M (ws * W) A) : M D A := fun p =>
  match m (h, drv_host p) with
  | (answer, (h, w)) =>
      (answer, p <| drv_state ::= fun s => s <| dv_control ::= fun c => c <| cs_websocket := Some h |> |> |>
                 <| drv_host := w |>)
  end.

Definition on_signaling_ws {A} (h : ws) (m : M (ws * W) A) : M D A := fun p =>
  match m (h, drv_host p) with
  | (answer, (h, w)) =>
      (answer, p <| drv_state ::= fun s => s <| dv_signaling ::= fun c => c <| ss_websocket := Some h |> |> |>
                 <| drv_host := w |>)
  end.

(** [if (websocket) websocket->close();] *)
Definition close_control_ws : M D unit :=
  s ← this;
  match cs_websocket (dv_control s) with Some h => on_control_ws h ws_close | None => mret tt end.
Definition close_signaling_ws : M D unit :=
  s ← this;
  match ss_websocket (dv_signaling s) with Some h => on_signaling_ws h ws_close | None => mret tt end.

(** ** The control connection *)

Context (config : DriverConfig).

Definition token_header (token : string) : list (string * string) :=
  [("X-Mine-Teleop-Driver-Token", token)]%string.

(** The members a closed control connection leaves, the delays of a reconnection aside. *)
Definition drop_control_ws (c : ControlSocket W) : ControlSocket W :=
  c <| cs_websocket := None |> <| cs_session_id := ""%string |> <| cs_last_ack_seq := 0 |>
    <| cs_ack_window := [] |>.

Definition close_control_signaling_websocket : M D unit :=
  lock_guard ControlSocketMutex
    (close_control_ws;;
     control_update (fun c => (drop_control_ws c) <| cs_next_connect_monotonic_ms := 0 |>
                                                <| cs_reconnect_delay_ms := 100 |>)).

(** Whether the session is still the one a generation stands for. *)
Definition session_is (session_id : string) (generation : Z) (s : DriverSession J) : bool :=
  String.eqb (ds_session_id s) session_id && (ds_control_session_generation s =? generation).

(** The checks of a call from the sender, which names its generation: whether to go on. *)
Definition may_reconnect (session_id token : string) (expected_generation : Z) : M D bool :=
  current ← lock_guard StateMutex
    (s ← this;
     mret (session_is session_id expected_generation (dv_session s) &&
           String.eqb (ds_driver_token (dv_session s)) token));
  if negb current then mret false
  else
    now ← steady_now_ms;
    s ← this;
    mret (negb (now <? cs_next_connect_monotonic_ms (dv_control s))).

Definition control_ws_current (url session_id : string) (c : ControlSocket W) : bool :=
  match cs_websocket c with
  | Some h => ws_connected h && String.eqb (ws_url h) url && String.eqb (cs_session_id c) session_id
  | None => false
  end.

Definition connect_control_signaling_websocket (session_id token : string) (expected_generation : Z) :
    M D bool :=
  identity ← driver_id;
  url ← lift (signaling_websocket_url (dc_signaling_url config) session_id identity "");
  let url := url +:+ "&send_only=1" in
  lock_guard ControlSocketMutex
    (go_on ← (if expected_generation =? 0 then mret true
              else may_reconnect session_id token expected_generation);
     if negb go_on then mret false
     else
       s ← this;
       if control_ws_current url session_id (dv_control s) then mret true
       else
         next ← on_machine (ws_open 1000 (dc_resolve_entries config) url (token_header token));
         close_control_ws;;
         control_update (fun c => (drop_control_ws c) <| cs_websocket := Some next |>
                                    <| cs_session_id := session_id |>
                                    <| cs_next_connect_monotonic_ms := 0 |>);;
         mret true).

(** ** Sessions of the native control *)

(** [native_control_cv_.notify_all()] wakes the threads of [ThreadApi]. *)
Definition reset_native_control_state : M D unit :=
  lock_guard UpdateMutex
    (close_control_signaling_websocket;;
     on_intent reset;;
     status_update (fun n => n <| ns_last_sent_monotonic_ms := 0 |>
                               <| ns_last_ack_received_at_utc_ms := 0 |>
                               <| ns_last_ack_cloud_received_at_utc_ms := 0 |>);;
     lock_guard StateMutex
       (session_update (fun s => s <| ds_control_sequence := 0 |>
                                   <| ds_control_session_generation ::= fun g => u64 (g + 1) |>));;
     status_update (fun n => n <| ns_estop_wakeup := false |>)).

Definition note_native_control_failure (error session_id : string) (generation : Z) : M D unit :=
  lock_guard UpdateMutex
    (current ← lock_guard StateMutex (s ← this; mret (session_is session_id generation (dv_session s)));
     if negb current then mret tt
     else
       status_update (fun n => n <| ns_send_failures ::= fun k => u64 (k + 1) |>);;
       lock_guard StatusMutex (status_update (fun n => n <| ns_last_error := error |>));;
       on_intent invalidate;;
       lock_guard ControlSocketMutex
         (close_control_ws;;
          control_update drop_control_ws;;
          now_monotonic_ms ← steady_now_ms;
          control_update (fun c =>
            c <| cs_next_connect_monotonic_ms := now_monotonic_ms + cs_reconnect_delay_ms c |>
              <| cs_reconnect_delay_ms := Z.min (cs_reconnect_delay_ms c * 2) 1000 |>))).

Definition close_signaling_websocket : M D unit :=
  lock_guard SignalingSocketMutex
    (close_signaling_ws;;
     signaling_update (fun c => c <| ss_websocket := None |> <| ss_session_id := ""%string |>
                                  <| ss_pending_messages := [] |> <| ss_delivery_cursor := 0 |>)).

Definition clear_session_if (session : string) : M D unit :=
  lock_guard StateMutex (session_update (clear_if config session)).

(** ** The clock *)

(** [clock_.refresh_due(config_.time_sync_interval_ms)] *)
Definition clock_refresh_due : M D bool :=
  others_run;;
  s ← this;
  on_machine (refresh_due (dv_clock s) (dc_time_sync_interval_ms config)).

(** [signaling_http_url_] *)
Context (signaling_http_url : string).

Definition refresh_time_sync : M D TimeSyncStatus :=
  lock_guard TimeSyncMutex
    (due ← clock_refresh_due;
     if negb due then others_run;; s ← this; mret (sc_status (dv_clock s))
     else
       clock ← on_machine (synchronize signaling_http_url (dc_time_sync_samples config));
       others_run;;
       this_update (fun s => s <| dv_clock := clock |>);;
       let status := sc_status clock in
       if negb (acceptable status (dc_max_time_sync_uncertainty_ms config)) then
         throw (RuntimeError ("driver time synchronization uncertainty " +:+
                              to_string_Z (ts_uncertainty_ms status) +:+ "ms exceeds limit " +:+
                              to_string_Z (dc_max_time_sync_uncertainty_ms config) +:+ "ms"))
       else mret status).
End driver.
