(* ===== verification/DriverControl.v ===== *)
(** DriverControl: how the driver console sends control commands (server.cpp:4416-4816,
    4856-4915, 5943-5998).

    - [update_control_intent], the browser's input; [send_native_control_sample], one period
      of the sender, with its window of acknowledgements; [native_control_sender_loop];
    - [renew_control_authority] and [native_control_lease_loop].

    A loop runs for a number of rounds, the times its thread wakes before it is asked to
    stop.  The counters of the status page are updated in one step. *)
From S2P Require Export Driver.

(** The command a sample stands for. *)
Definition sample_command (vehicle identity session control_token : string) (sequence sent_at : Z)
    (sample : NativeControlIntentSample) : ControlCommand :=
  let intent := smp_intent sample in
  mkControlCommand kProtocolVersion vehicle identity session sequence sent_at (int_gear intent)
    (int_steering intent) (int_throttle intent) (int_brake intent) (int_estop intent) control_token
    (smp_fresh sample && negb (smp_requires_fresh_input sample) && negb (int_estop intent) &&
     negb (is_neutral intent)).

(** Acknowledgements older than this stop the sender. *)
Definition kAcknowledgementStallMs : Z := 500.

Section control.
Context {J : JsonApi} {W : Type} {Http : HttpTransport W} {Clock : ClockApi W} {Sort : SampleSort}.
Context {Sockets : WebSocketApi W} {Threads : ThreadApi W}.
Context (config : DriverConfig) (signaling_http_url : string).
Notation D := (DriverProcess W).

(** The envelope around a command. *)
Definition control_payload (sample : NativeControlIntentSample) (command : ControlCommand) : json :=
  j_set_all [("intent_seq", j_uint (int_intent_seq (smp_intent sample)));
             ("intent_fresh", j_bool (smp_fresh sample && negb (smp_requires_fresh_input sample)));
             ("intent_requires_fresh_input", j_bool (smp_requires_fresh_input sample))]%string
    (ControlCommand_to_json command).

Definition control_envelope (sample : NativeControlIntentSample) (command : ControlCommand) : json :=
  j_set_all [("sender", j_string (cmd_driver_id command));
             ("recipient", j_string (cmd_vehicle_id command));
             ("type", j_string "control_command");
             ("payload", control_payload sample command)]%string
    (ProtocolMetadata_to_json (ControlCommand_metadata command)).

(** ** The browser's input *)

(** The intent a request carries, with the session it is meant for. *)
Definition intent_of_request (input : json) : result (string * Z * NativeControlIntent) :=
  throw_if (negb (is_object input)) (InvalidArgument "control intent must be an object");;
  expected_session_id ← required_string "session_id" input;
  expected_session_generation ← required_uint64 "session_generation" input;
  ui_instance_id ← required_string "ui_instance_id" input;
  intent_seq ← required_uint64 "intent_seq" input;
  gear ← required_string "gear" input;
  '(steering, throttle, brake, estop) ←
    rethrow_json (fun what => InvalidArgument ("invalid control intent: " +:+ what))
      (steering ← j_at "steering" input ≫= get_double;
       throttle ← j_at "throttle" input ≫= get_double;
       brake ← j_at "brake" input ≫= get_double;
       estop ← value_bool "estop" false input;
       Ok (steering, throttle, brake, estop));
  let intent := mkNativeControlIntent ui_instance_id intent_seq gear steering throttle brake estop in
  NativeControlIntent_validate intent;;
  Ok (expected_session_id, expected_session_generation, intent).

Definition not_connected (s : DriverSession J) : bool :=
  string_empty (ds_session_id s) || string_empty (ds_driver_token s) || string_empty (ds_control_token s).

(** The part under [native_control_update_mutex_]. *)
Definition install_intent (expected_session_id : string) (expected_session_generation : Z)
    (intent : NativeControlIntent) : M D NativeControlIntentUpdate :=
  lock_guard UpdateMutex
    (lock_guard StateMutex
       (s ← this;
        lift (throw_if (not_connected (dv_session s)) (RuntimeError "driver console is not connected"));;
        lift (throw_if (negb (session_is expected_session_id expected_session_generation (dv_session s)))
                (RuntimeError "control intent belongs to a stale or different native control session")));;
     now ← steady_now_ms;
     on_intent (update intent now)).

Definition update_control_intent (input : json) : M D json :=
  '(expected_session_id, expected_session_generation, intent) ← lift (intent_of_request input);
  updated ← install_intent expected_session_id expected_session_generation intent;
  when (upd_accepted updated && int_estop intent)
    (status_update (fun n => n <| ns_estop_wakeup := true |>));;
  s ← this;
  mret (j_object
    [("accepted", j_bool (upd_accepted updated)); ("duplicate", j_bool (upd_duplicate updated));
     ("requires_fresh_input", j_bool (upd_requires_fresh_input updated));
     ("reason", j_string (upd_reason updated)); ("intent_seq", j_uint (int_intent_seq intent));
     ("session_id", j_string expected_session_id);
     ("session_generation", j_uint expected_session_generation);
     ("lease_ms", j_int (st_lease_ms (dv_intent s)));
     ("transport", j_string "native_signaling_websocket");
     ("delivery_state", j_string "native_periodic_sender_owned")]%string).

(** ** One sample *)

(** What a sample takes with it from the state. *)
Record SampleContext := mkSampleContext {
  sx_sample : NativeControlIntentSample;
  sx_session : string;
  sx_identity : string;
  sx_control_token : string;
  sx_driver_token : string;
  sx_vehicle : string;
  sx_control_token_expires_at_ms : Z;
  sx_sequence : Z;
  sx_generation : Z;
}.

Definition take_control_sample : M D (option SampleContext) :=
  lock_guard UpdateMutex
    (now ← steady_now_ms;
     sample ← on_intent (sample now);
     if negb (smp_active sample) then mret None
     else
       lock_guard StateMutex
         (s ← this;
          if not_connected (dv_session s) then mret None
          else
            identity ← driver_id;
            session_update (fun s => s <| ds_control_sequence ::= fun k => u64 (k + 1) |>);;
            s ← this;
            let s := dv_session s in
            mret (Some (mkSampleContext sample (ds_session_id s) identity (ds_control_token s)
                          (ds_driver_token s) (ds_vehicle_id s) (ds_control_token_expires_at_ms s)
                          (ds_control_sequence s) (ds_control_session_generation s))))).

(** The command of a sample, while the lease lasts. *)
Definition prepare_command (x : SampleContext) : M D ControlCommand :=
  now ← clock_now_ms;
  lift (throw_if (sx_control_token_expires_at_ms x <=? now)
          (RuntimeError "control authority lease expired"));;
  sent_at ← clock_now_ms;
  let command := sample_command (sx_vehicle x) (sx_identity x) (sx_session x) (sx_control_token x)
                   (sx_sequence x) sent_at (sx_sample x) in
  lift (ControlCommand_validate command);;
  mret command.

(** The sequence number a message acknowledges. *)
Definition acknowledged_sequence (sequence : Z) (message : json) : result Z :=
  (if j_contains "error" message then
     error ← value_string "error" "native control signaling message was rejected" message;
     Throw (RuntimeError error)
   else Ok tt);;
  event ← value_string "event" "" message;
  mismatch ← (if negb (String.eqb event "signaling_ack") then Ok true
              else type ← value_string "type" "" message; Ok (negb (String.eqb type "control_command")));
  throw_if mismatch (RuntimeError "native control signaling acknowledgement is invalid");;
  acknowledged_seq ← value_uint64 "seq" 0 message;
  throw_if ((acknowledged_seq =? 0) || (sequence <? acknowledged_seq))
    (RuntimeError "native control signaling acknowledgement sequence is invalid");;
  Ok acknowledged_seq.

(** A call on the control connection, which the caller has checked. *)
Definition control_ws_call {A} (m : M (ws * W) A) : M D A :=
  s ← this;
  match cs_websocket (dv_control s) with
  | Some h => on_control_ws h m
  | None => throw (RuntimeError "native control signaling websocket is not connected")
  end.

Definition on_window {A} (m : M NativeControlAcknowledgementWindow A) : M D A :=
  zoom (fun p => cs_ack_window (dv_control (drv_state p)))
    (fun window p => p <| drv_state ::= fun s => s <| dv_control ::= fun c => c <| cs_ack_window := window |> |> |>)
    m.

Definition handle_acknowledgement (sequence : Z) (message : json) : M D unit :=
  acknowledged_seq ← lift (acknowledged_sequence sequence message);
  control_update (fun c => c <| cs_last_ack_seq := Z.max (cs_last_ack_seq c) acknowledged_seq |>);;
  s ← this;
  on_window (acknowledge_through (cs_last_ack_seq (dv_control s)));;
  received_at_utc_ms ← clock_now_ms;
  status_update (fun n => n <| ns_last_ack_received_at_utc_ms := received_at_utc_ms |>);;
  cloud_received_at_utc_ms ← lift (value_int64 "cloud_received_at_utc_ms" 0 message);
  when (0 <? cloud_received_at_utc_ms)
    (status_update (fun n => n <| ns_last_ack_cloud_received_at_utc_ms := cloud_received_at_utc_ms |>));;
  control_update (fun c => c <| cs_next_connect_monotonic_ms := 0 |> <| cs_reconnect_delay_ms := 100 |>).

Fixpoint drain_acknowledgements (rounds : nat) (sequence : Z) : M D unit :=
  match rounds with
  | O => mret tt
  | S rounds =>
      received ← control_ws_call (ws_receive_json 0);
      match received with
      | ReceivedTimeout => mret tt
      | ReceivedClosed => throw (RuntimeError "native control signaling websocket closed")
      | ReceivedMessage message =>
          handle_acknowledgement sequence message;;
          drain_acknowledgements rounds sequence
      end
  end.

(** Whether the sample still belongs to the session; the connection must, too. *)
Definition sample_is_current (x : SampleContext) : M D bool :=
  lock_guard StateMutex
    (s ← this;
     mret (session_is (sx_session x) (sx_generation x) (dv_session s) &&
           String.eqb (ds_control_token (dv_session s)) (sx_control_token x))).

Definition control_ws_serves (session_id : string) (c : ControlSocket W) : bool :=
  match cs_websocket c with
  | Some h => ws_connected h && String.eqb (cs_session_id c) session_id
  | None => false
  end.

Definition check_stall : M D unit :=
  monotonic_ms ← steady_now_ms;
  s ← this;
  let window := cs_ack_window (dv_control s) in
  lift (throw_if ((0 <? window_pending_count window)%nat &&
                  (kAcknowledgementStallMs <=? oldest_age_ms monotonic_ms window))
          (RuntimeError "native control signaling acknowledgements stalled for 500ms")).

(** The part under [control_signaling_websocket_mutex_]: when the command left, if it did. *)
Definition exchange_control (x : SampleContext) (envelope : json) : M D (option Z) :=
  lock_guard ControlSocketMutex
    (current ← sample_is_current x;
     if negb current then mret None
     else
       s ← this;
       lift (throw_if (negb (control_ws_serves (sx_session x) (dv_control s)))
               (RuntimeError "native control signaling websocket is not connected"));;
       drain_acknowledgements 16 (sx_sequence x);;
       check_stall;;
       control_ws_call (ws_send_json envelope 20);;
       sent_monotonic_ms ← steady_now_ms;
       on_window (note_sent (sx_sequence x) sent_monotonic_ms);;
       mret (Some sent_monotonic_ms)).

Definition count_sent (sequence sent_at_ms sent_monotonic_ms : Z) (n : NativeControlStatus) :
    NativeControlStatus :=
  let previous := ns_last_sent_at_utc_ms n in
  let gap_ms := if 0 <? previous then Z.max 0 (sent_at_ms - previous) else 0 in
  n <| ns_last_sent_at_utc_ms := sent_at_ms |> <| ns_last_sent_monotonic_ms := sent_monotonic_ms |>
    <| ns_last_gap_ms := gap_ms |> <| ns_max_gap_ms := Z.max (ns_max_gap_ms n) gap_ms |>
    <| ns_commands_sent ::= fun k => u64 (k + 1) |> <| ns_last_seq := sequence |>.

(** The [try] block. *)
Definition deliver_sample (x : SampleContext) : M D bool :=
  command ← prepare_command x;
  connected ← connect_control_signaling_websocket config (sx_session x) (sx_driver_token x) (sx_generation x);
  if negb connected then mret false
  else
    sent ← exchange_control x (control_envelope (sx_sample x) command);
    match sent with
    | None => mret false
    | Some sent_monotonic_ms =>
        sent_at_ms ← clock_now_ms;
        status_update (count_sent (sx_sequence x) sent_at_ms sent_monotonic_ms);;
        lock_guard StatusMutex (status_update (fun n => n <| ns_last_error := ""%string |>));;
        mret true
    end.

Definition send_native_control_sample : M D bool :=
  taken ← take_control_sample;
  match taken with
  | None => mret false
  | Some x =>
      try_catch_std (deliver_sample x)
        (fun error => note_native_control_failure (what error) (sx_session x) (sx_generation x);; mret false)
  end.

(** ** Renewal of the authority *)

Definition not_renewed (reason : string) : json :=
  j_object [("renewed", j_bool false); ("reason", j_string reason)]%string.

(** The answers that end the session. *)
Definition authority_lost (e : exn) : bool :=
  match e with HttpStatusError status _ _ _ => ends_authority status | _ => false end.

Definition post_renewal (session identity token : string) : M D json :=
  encoded ← lift (client_url_encode session);
  try_catch
    (on_machine (post_json_response (signaling_http_url +:+ "/sessions/" +:+ encoded +:+ "/renew")
       (j_object [("actor", j_string identity); ("token", j_string token)]%string)))
    (fun error =>
       when (authority_lost error)
         (close_signaling_websocket;; reset_native_control_state;; clear_session_if config session);;
       throw error).

(** The lease of an answer, installed unless the session has changed. *)
Definition install_lease (session control_token : string) (now expires_at_ms : Z) : M D bool :=
  lock_guard StateMutex
    (s ← this;
     if negb (String.eqb (ds_session_id (dv_session s)) session) ||
        negb (String.eqb (ds_control_token (dv_session s)) control_token) then mret false
     else
       session_update (fun s =>
         s <| ds_control_token_expires_at_ms := expires_at_ms |>
           <| ds_control_token_renew_at_ms := control_lease_renew_at now expires_at_ms |>);;
       mret true).

Definition renewal_expiry (session control_token : string) (now : Z) (response : json) : result Z :=
  renewed_session ← value_string "session_id" "" response;
  changed ← (if negb (String.eqb renewed_session session) then Ok true
             else renewed_token ← value_string "control_token" "" response;
                  Ok (negb (String.eqb renewed_token control_token)));
  throw_if changed (RuntimeError "control authority renewal changed the active session or token");;
  expires_at_ms ← required_int64 "control_token_expires_at_utc_ms" response;
  throw_if (expires_at_ms <=? now) (RuntimeError "control authority renewal returned an expired lease");;
  Ok expires_at_ms.

Definition renew_control_authority : M D json :=
  lock_guard ControlLeaseMutex
    ('(s, identity) ← lock_guard StateMutex (s ← this; identity ← driver_id; mret (dv_session s, identity));
     let token := ds_driver_token s in
     let session := ds_session_id s in
     let control_token := ds_control_token s in
     if string_empty token || string_empty session || string_empty control_token then
       mret (not_renewed "not_connected")
     else
       now ← clock_now_ms;
       if now <? ds_control_token_renew_at_ms s then mret (not_renewed "not_due")
       else
         response ← post_renewal session identity token;
         expires_at_ms ← lift (renewal_expiry session control_token now response);
         installed ← install_lease session control_token now expires_at_ms;
         if negb installed then mret (not_renewed "session_changed")
         else
           mret (j_object [("renewed", j_bool true); ("session_id", j_string session);
                           ("control_token_expires_at_utc_ms", j_int expires_at_ms)]%string)).

(** ** The threads *)

(** A wait gives up its mutex, lets the others run and takes the mutex again. *)
Definition await_period : M D unit :=
  lock_guard ControlWaitMutex
    (others_run;; status_update (fun n => n <| ns_estop_wakeup := false |>)).

Definition await_lease_check : M D unit := lock_guard ControlWaitMutex others_run.

Definition sender_period_ms : Z := Z.max 1 (d_llround (d_lit 1000 0 ⊘ d_of_Z (dc_rate_hz config))).

(** The periods from the time [next_send], in nanoseconds. *)
Fixpoint sender_periods (rounds : nat) (next_send : Z) : M D unit :=
  match rounds with
  | O => mret tt
  | S rounds =>
      await_period;;
      status_update (fun n => n <| ns_scheduled_at_monotonic_ms := next_send ÷ 1000000 |>);;
      _ ← send_native_control_sample;
      now ← on_machine steady_now_ns;
      sender_periods rounds (now + sender_period_ms * 1000000)
  end.

Definition native_control_sender_loop (rounds : nat) : M D unit :=
  next_send ← on_machine steady_now_ns; sender_periods rounds next_send.

(** The session whose lease is due, with its generation. *)
Definition lease_due : M D (option (string * Z)) :=
  lock_guard StateMutex
    (s ← this;
     let s := dv_session s in
     if string_empty (ds_session_id s) || string_empty (ds_control_token s) then mret None
     else
       now ← clock_now_ms;
       mret (if ds_control_token_renew_at_ms s <=? now
             then Some (ds_session_id s, ds_control_session_generation s) else None)).

Definition renew_due_lease : M D unit :=
  due ← lease_due;
  match due with
  | None => mret tt
  | Some (renewal_session, renewal_generation) =>
      try_catch_std (_ ← renew_control_authority; mret tt)
        (fun error =>
           note_native_control_failure ("control authority renewal failed: " +:+ what error)
             renewal_session renewal_generation)
  end.

Fixpoint native_control_lease_loop (rounds : nat) : M D unit :=
  match rounds with
  | O => mret tt
  | S rounds => await_lease_check;; renew_due_lease;; native_control_lease_loop rounds
  end.
End control.
