(* ===== verification/DriverSignaling.v ===== *)
(** DriverSignaling: the signaling connection of the driver console (server.cpp:4277-4318,
    4782-4836, 5423-5737).

    - [append_websocket_messages], what a delivery adds and when it is acknowledged;
    - [connect_signaling_websocket], [poll_signaling], [send_signaling_message] with its one
      retry, and the WebRTC messages it carries; [ingest_webrtc_metrics].

    [burst] bounds how many messages one call takes from the connection. *)
From S2P Require Export Driver.

Definition value_int {J : JsonApi} (key : string) (default : Z) (value : json) : result Z :=
  field ← value_json key (j_int default) value; get_int field.

(** The error a message of the server reports. *)
Definition check_rejection {J : JsonApi} (rejected : string -> exn) (message : json) : result unit :=
  if j_contains "error" message then
    error ← value_string "error" "websocket signaling rejected" message;
    Throw (rejected error)
  else Ok tt.

Section signaling.
Context {J : JsonApi} {W : Type} {Http : HttpTransport W} {Clock : ClockApi W} {Sort : SampleSort}.
Context {Sockets : WebSocketApi W} {Threads : ThreadApi W}.
Context (config : DriverConfig) (signaling_http_url : string) (burst : nat).
Notation D := (DriverProcess W).
Notation Socket := (SignalingSocket W).

(** ** Deliveries *)

Definition push_message (message : json) (c : Socket) : Socket :=
  c <| ss_pending_messages ::= fun messages => messages ++ [message] |>.

(** One message of a delivery, whose cursor the envelope bounds when it has one. *)
Definition append_message (envelope_cursor : option Z) (message : json) : M Socket unit :=
  lift (throw_if (negb (is_object message)) (RuntimeError "websocket signaling message is invalid"));;
  match envelope_cursor with
  | None => modify (push_message message)
  | Some envelope_cursor =>
      message_cursor ← lift (required_uint64 "delivery_cursor" message);
      lift (throw_if (envelope_cursor <? message_cursor)
              (RuntimeError "websocket signaling message exceeds its delivery cursor"));;
      c ← get;
      if message_cursor <=? ss_delivery_cursor c then mret tt
      else modify (fun c => (push_message message c) <| ss_delivery_cursor := message_cursor |>)
  end.

Fixpoint append_messages (envelope_cursor : option Z) (messages : list json) : M Socket unit :=
  match messages with
  | [] => mret tt
  | message :: messages =>
      append_message envelope_cursor message;; append_messages envelope_cursor messages
  end.

Definition on_signaling {A} (m : M Socket A) : M D A :=
  zoom (fun p => dv_signaling (drv_state p))
    (fun c p => p <| drv_state ::= fun s => s <| dv_signaling := c |> |>) m.

(** A call on the signaling connection; without one it is refused with [message]. *)
Definition signaling_ws_call {A} (message : string) (m : M (ws * W) A) : M D A :=
  s ← this;
  match ss_websocket (dv_signaling s) with
  | Some h => if ws_connected h then on_signaling_ws h m else throw (RuntimeError message)
  | None => throw (RuntimeError message)
  end.

Definition delivery_ack (cursor : Z) : json :=
  j_object [("event", j_string "signaling_delivery_ack"); ("delivery_cursor", j_uint cursor)]%string.

Definition append_websocket_messages (envelope : json) : M D unit :=
  messages ← lift (value_json "messages" (j_array []) envelope);
  lift (throw_if (negb (is_array messages)) (RuntimeError "websocket signaling envelope is invalid"));;
  cursor ← lift (if j_contains "delivery_cursor" envelope
                 then cursor ← required_uint64 "delivery_cursor" envelope; Ok (Some cursor)
                 else Ok None);
  on_signaling (append_messages cursor (j_elements messages));;
  match cursor with
  | None => mret tt
  | Some envelope_cursor =>
      s ← this;
      lift (throw_if (ss_delivery_cursor (dv_signaling s) <? envelope_cursor)
              (RuntimeError "websocket signaling envelope has a missing delivery cursor"));;
      signaling_ws_call "websocket signaling closed before delivery acknowledgement"
        (ws_send_json (delivery_ack envelope_cursor) 5000)
  end.

(** A message that is not an error: a delivery is taken in. *)
Definition take_delivery (message : json) : M D bool :=
  event ← lift (value_string "event" "" message);
  if String.eqb event "signaling_messages" then append_websocket_messages message;; mret true
  else mret false.

(** ** The connection *)

(** What a look at the open connection says: it can stay as it is. *)
Definition probe_signaling (h : ws) : M D bool :=
  probe ← on_signaling_ws h (ws_receive_json 0);
  match probe with
  | ReceivedTimeout => mret true
  | ReceivedClosed => mret false
  | ReceivedMessage message =>
      (if j_contains "error" message then
         close_signaling_ws;; lift (check_rejection RuntimeError message)
       else mret tt);;
      _ ← take_delivery message;
      mret true
  end.

Definition keep_signaling_ws (url : string) : M D bool :=
  s ← this;
  match ss_websocket (dv_signaling s) with
  | Some h => if ws_connected h && String.eqb (ws_url h) url then probe_signaling h else mret false
  | None => mret false
  end.

(** The members once the connection [next] of a session is there. *)
Definition install_signaling_ws (next : ws) (session_id : string) (c : Socket) : Socket :=
  let same_session := String.eqb (ss_session_id c) session_id in
  let reconnecting := same_session && negb (string_empty (ss_session_id c)) in
  let c := c <| ss_websocket := Some next |> <| ss_session_id := session_id |> in
  let c := if same_session then c
           else c <| ss_pending_messages := [] |> <| ss_delivery_cursor := 0 |> in
  if reconnecting then c <| ss_reconnects ::= fun k => u64 (k + 1) |> else c.

Definition connect_signaling_websocket (session_id token : string) : M D unit :=
  identity ← driver_id;
  url ← lift (signaling_websocket_url (dc_signaling_url config) session_id identity "");
  lock_guard SignalingSocketMutex
    (kept ← keep_signaling_ws url;
     if (kept : bool) then mret tt
     else
       next ← on_machine (ws_open 5000 (dc_resolve_entries config) url (token_header token));
       close_signaling_ws;;
       signaling_update (install_signaling_ws next session_id)).

Definition remote_session_is_active (session_id token : string) : M D bool :=
  encoded_session ← lift (client_url_encode session_id);
  identity ← driver_id;
  encoded_identity ← lift (client_url_encode identity);
  response ← on_machine (http_get (signaling_http_url +:+ "/sessions/" +:+ encoded_session +:+ "?actor=" +:+
                                   encoded_identity) (token_header token));
  let status := hr_status response in
  if ends_authority status then mret false
  else
    lift (throw_if ((status <? 200) || (300 <=? status))
            (RuntimeError ("session authority check failed with HTTP status " +:+ to_string_Z status)));;
    lift (value ← j_parse (hr_body response);
          if negb (is_object value) then Ok false
          else
            session ← value_string "session_id" "" value;
            if negb (String.eqb session session_id) then Ok false
            else state ← value_string "state" "" value; Ok (String.eqb state "active")).

Definition drop_signaling_ws : M D unit :=
  lock_guard SignalingSocketMutex
    (close_signaling_ws;; signaling_update (fun c => c <| ss_websocket := None |>)).

(** After a failure: a new connection while the session is active, or its end.  A poll also
    records whether the server answers. *)
Definition reconnect_or_end (polling : bool) (unavailable session token : string) : M D unit :=
  let answers (available : bool) (s : DriverSession J) :=
    if polling then s <| ds_signaling_available := available |> else s in
  drop_signaling_ws;;
  active ← try_catch_std (remote_session_is_active session token)
    (fun error =>
       when polling (lock_guard StateMutex (session_update (answers false)));;
       throw (RuntimeError (unavailable +:+ "; local session is retained pending verification: " +:+ what error)));
  if negb active then
    reset_native_control_state;;
    lock_guard StateMutex (session_update (fun s => clear_if config session (answers true s)));;
    close_signaling_websocket;;
    throw (RuntimeError "signaling authority is no longer valid")
  else connect_signaling_websocket session token.

(** ** Polling *)

Fixpoint drain_rounds (rounds : nat) (wait : Z) : M D unit :=
  match rounds with
  | O => mret tt
  | S rounds =>
      received ← signaling_ws_call "websocket is not connected" (ws_receive_json wait);
      match received with
      | ReceivedTimeout => mret tt
      | ReceivedClosed => throw (RuntimeError "websocket signaling connection closed")
      | ReceivedMessage message =>
          lift (check_rejection RuntimeError message);;
          _ ← take_delivery message;
          drain_rounds rounds 0
      end
  end.

Definition kFirstWaitMs : Z := 150.

(** [throw] unless there is a connection. *)
Definition require_signaling_ws : M D unit :=
  s ← this;
  lift (throw_if (negb (match ss_websocket (dv_signaling s) with Some h => ws_connected h | None => false end))
          (RuntimeError "websocket signaling is not connected")).

(** The lambda [drain]. *)
Definition drain : M D json :=
  lock_guard SignalingSocketMutex
    (require_signaling_ws;;
     s ← this;
     drain_rounds burst (match ss_pending_messages (dv_signaling s) with [] => kFirstWaitMs | _ => 0 end);;
     s ← this;
     signaling_update (fun c => c <| ss_pending_messages := [] |>);;
     mret (j_array (ss_pending_messages (dv_signaling s)))).

Definition poll_signaling : M D json :=
  s ← lock_guard StateMutex this;
  let token := ds_driver_token (dv_session s) in
  let session := ds_session_id (dv_session s) in
  lift (throw_if (string_empty token || string_empty session)
          (RuntimeError "driver console is not connected"));;
  messages ← try_catch_std drain
    (fun _ => reconnect_or_end true "signaling reconnect is unavailable" session token;; drain);
  lock_guard StateMutex
    (s ← this;
     lift (throw_if (negb (String.eqb (ds_session_id (dv_session s)) session))
             (RuntimeError "driver session changed during signaling poll"));;
     session_update (fun s => s <| ds_signaling_messages := messages |> <| ds_signaling_available := true |>));;
  mret (j_object [("session_id", j_string session); ("messages", messages)]%string).

(** ** Messages to the vehicle *)

(** Who a message is from and to, under its sequence number. *)
Definition next_signaling_metadata : M D (DriverSession J * string) :=
  lock_guard StateMutex
    (s ← this;
     lift (throw_if (string_empty (ds_session_id (dv_session s)) ||
                     string_empty (ds_driver_token (dv_session s)))
             (RuntimeError "driver console is not connected"));;
     identity ← driver_id;
     session_update (fun s => s <| ds_sequence ::= fun k => u64 (k + 1) |>);;
     s ← this;
     mret (dv_session s, identity)).

Definition signaling_request (s : DriverSession J) (identity type : string) (now : Z) (payload : json) : json :=
  j_set_all [("sender", j_string identity); ("recipient", j_string (ds_vehicle_id s));
             ("token", j_string (ds_driver_token s)); ("type", j_string type); ("payload", payload)]%string
    (ProtocolMetadata_to_json
       (mkProtocolMetadata kProtocolVersion (ds_vehicle_id s) identity (ds_session_id s) (ds_sequence s) now)).

(** Whether a message acknowledges the request. *)
Definition acknowledges (type : string) (sequence : Z) (message : json) : result bool :=
  event ← value_string "event" "" message;
  if negb (String.eqb event "signaling_ack") then Ok false
  else
    acknowledged_type ← value_string "type" "" message;
    if negb (String.eqb acknowledged_type type) then Ok false
    else if negb (j_contains "seq" message) then Ok true
    else seq ← value_uint64 "seq" 0 message; Ok (seq =? sequence).

Definition acknowledgement_report (type session : string) (sequence : Z) (message : json) : result json :=
  queued ← value_int "queued" 0 message;
  message_id ← value_string "message_id" "" message;
  delivery_cursor ← value_uint64 "delivery_cursor" 0 message;
  duplicate ← value_bool "duplicate" false message;
  Ok (j_object [("queued", j_int queued); ("transport", j_string "websocket"); ("type", j_string type);
                ("seq", j_uint sequence); ("message_id", j_string message_id);
                ("delivery_cursor", j_uint delivery_cursor); ("duplicate", j_bool duplicate);
                ("session_id", j_string session)]%string).

Definition acknowledgement_timeout {A} : M D A :=
  throw (RuntimeError "websocket signaling acknowledgement timed out").

(** Waits for the acknowledgement; what else comes is taken in or passed over. *)
Fixpoint await_acknowledgement (rounds : nat) (type session : string) (sequence deadline : Z) : M D json :=
  match rounds with
  | O => acknowledgement_timeout
  | S rounds =>
      now ← on_machine steady_now_ns;
      if deadline <=? now then acknowledgement_timeout
      else
        now ← on_machine steady_now_ns;
        received ← signaling_ws_call "websocket is not connected"
                     (ws_receive_json ((deadline - now) ÷ 1000000));
        match received with
        | ReceivedTimeout => acknowledgement_timeout
        | ReceivedClosed =>
            throw (RuntimeError "websocket signaling connection closed before acknowledgement")
        | ReceivedMessage message =>
            lift (check_rejection SignalingRejected message);;
            taken ← take_delivery message;
            if (taken : bool) then await_acknowledgement rounds type session sequence deadline
            else
              acknowledged ← lift (acknowledges type sequence message);
              if (acknowledged : bool) then lift (acknowledgement_report type session sequence message)
              else await_acknowledgement rounds type session sequence deadline
        end
  end.

(** The lambda [exchange]. *)
Definition exchange_message (type session : string) (sequence : Z) (request : json) : M D json :=
  lock_guard SignalingSocketMutex
    (require_signaling_ws;;
     signaling_ws_call "websocket is not connected" (ws_send_json request 5000);;
     now ← on_machine steady_now_ns;
     await_acknowledgement burst type session sequence (now + 5000000000)).

(** A rejection by the server is final. *)
Definition attempt_exchange (exchange : M D json) (failed : exn -> M D json) : M D json :=
  try_catch_std exchange
    (fun error =>
       match error with
       | SignalingRejected message => throw (RuntimeError message)
       | _ => failed error
       end).

Definition send_signaling_message (type : string) (payload : json) : M D json :=
  lock_guard SignalingSendMutex
    ('(s, identity) ← next_signaling_metadata;
     now ← clock_now_ms;
     let session := ds_session_id s in
     let exchange :=
       exchange_message type session (ds_sequence s) (signaling_request s identity type now payload) in
     attempt_exchange exchange
       (fun first =>
          reconnect_or_end false "signaling retry is unavailable" session (ds_driver_token s);;
          attempt_exchange exchange
            (fun error => throw (RuntimeError ("websocket signaling retry failed after " +:+ what first +:+
                                               ": " +:+ what error))))).

(** ** WebRTC *)

Definition known_codec (codec : string) : bool := string_in codec ["h265"; "hevc"; "h264"; "avc"]%string.

Definition codecs_of (input : json) : result (list string) :=
  let missing := Throw (InvalidArgument "media capabilities must contain a codecs array") in
  if negb (is_object input) || negb (j_contains "codecs" input) then missing
  else
    codecs ← j_at "codecs" input;
    if negb (is_array codecs) then missing
    else
      codecs ← map_result (fun value =>
                 throw_if (negb (is_string value)) (InvalidArgument "media codec capability must be a string");;
                 codec ← get_string value; Ok (lower codec)) (j_elements codecs);
      let codecs := filter (fun codec => is_true (known_codec codec)) codecs in
      Ok (match codecs with [] => ["h264"%string] | _ => codecs end).

Definition send_media_capabilities (input : json) : M D json :=
  codecs ← lift (codecs_of input);
  send_signaling_message "media_capabilities" (j_object [("codecs", j_array (map j_string codecs))]%string).

Definition ice_servers : M D json :=
  '(s, identity) ← lock_guard StateMutex
    (s ← this;
     lift (throw_if (string_empty (ds_session_id (dv_session s)) ||
                     string_empty (ds_driver_token (dv_session s)))
             (RuntimeError "driver console is not connected"));;
     identity ← driver_id;
     mret (dv_session s, identity));
  session ← lift (client_url_encode (ds_session_id s));
  actor ← lift (client_url_encode identity);
  on_machine (get_json (signaling_http_url +:+ "/sessions/" +:+ session +:+ "/ice_servers?actor=" +:+ actor)
                (token_header (ds_driver_token s))).

Definition send_media_fallback (input : json) : M D json :=
  let refused := Throw (InvalidArgument "media fallback must request H.264") in
  lift (if negb (is_object input) then refused
        else codec ← value_string "codec" "" input; if negb (String.eqb (lower codec) "h264") then refused
             else Ok tt);;
  reason ← lift (value_string "reason" "browser_decode_failure" input);
  send_signaling_message "media_fallback" (j_object [("codec", j_string "h264"); ("reason", j_string reason)]%string).

Definition send_webrtc_answer (input : json) : M D json :=
  let refused := Throw (InvalidArgument "WebRTC answer must contain type=answer and SDP") in
  lift (if negb (is_object input) then refused
        else
          type ← value_string "type" "" input;
          if negb (String.eqb type "answer") then refused
          else sdp ← value_string "sdp" "" input; if string_empty sdp then refused else Ok tt);;
  sdp ← lift (j_at "sdp" input);
  send_signaling_message "webrtc_answer" (j_object [("type", j_string "answer"); ("sdp", sdp)]%string).

Definition send_webrtc_ice_candidate (input : json) : M D json :=
  candidate ← lift (if negb (j_contains "candidate" input) then Ok input
                    else candidate ← j_at "candidate" input;
                         Ok (if is_object candidate then candidate else input));
  let refused := Throw (InvalidArgument "WebRTC ICE candidate is required") in
  lift (if negb (is_object candidate) then refused
        else text ← value_string "candidate" "" candidate; if string_empty text then refused else Ok tt);;
  send_signaling_message "ice_candidate" candidate.

(** ** Metrics *)

(** What the browser reports of its connection. *)
Record WebRtcReport := mkWebRtcReport {
  wr_connection_state : string;
  wr_connection_method : string;
  wr_turn_in_use : bool;
  wr_synchronized : bool;
  wr_uncertainty_ms : Z;
}.

Definition report_of_metrics (input : json) : result WebRtcReport :=
  throw_if (negb (is_object input)) (InvalidArgument "WebRTC metrics must be an object");;
  connection_state ← required_string "connection_state" input;
  connection_method ← required_string "connection_method" input;
  throw_if (negb (string_in connection_state
                    ["new"; "connecting"; "connected"; "disconnected"; "failed"; "closed"]%string))
    (InvalidArgument "invalid WebRTC connection state");;
  throw_if (negb (string_in connection_method ["unknown"; "direct"; "STUN"; "TURN"]%string))
    (InvalidArgument "invalid WebRTC connection method");;
  let not_boolean := Throw (InvalidArgument "turn_in_use must be a boolean") in
  turn_in_use ← (if negb (j_contains "turn_in_use" input) then not_boolean
                 else field ← j_at "turn_in_use" input;
                      if negb (is_boolean field) then not_boolean else get_bool field);
  throw_if (negb (Bool.eqb turn_in_use (String.eqb connection_method "TURN")))
    (InvalidArgument "TURN usage does not match the WebRTC connection method");;
  time_sync ← value_json "time_sync" (j_object []) input;
  throw_if (negb (is_object time_sync)) (InvalidArgument "time_sync must be an object");;
  synchronized ← value_bool "synchronized" false time_sync;
  uncertainty_ms ← value_int64 "uncertainty_ms" 0 time_sync;
  throw_if (uncertainty_ms <? 0) (InvalidArgument "time_sync uncertainty must be non-negative");;
  Ok (mkWebRtcReport connection_state connection_method turn_in_use synchronized uncertainty_ms).

Definition time_sync_acceptable (r : WebRtcReport) : bool :=
  wr_synchronized r && (wr_uncertainty_ms r <=? dc_max_time_sync_uncertainty_ms config).

Definition line_feed : string := String "010"%char "".

Definition report_key (r : WebRtcReport) : string :=
  wr_connection_state r +:+ line_feed +:+ wr_connection_method r +:+ line_feed +:+
  (if wr_turn_in_use r then "turn" else "not-turn") +:+ line_feed +:+
  (if time_sync_acceptable r then "time-ok" else "time-anomaly").

(** Keeps the metrics; the session to report to when they say something new. *)
Definition keep_metrics (input : json) (received_at_ms : Z) (r : WebRtcReport) :
    M D (string * option (DriverSession J)) :=
  lock_guard StateMutex
    (session_update (fun s => s <| ds_webrtc_metrics := j_set "received_at_ms" (j_int received_at_ms) input |>);;
     s ← this;
     let s := dv_session s in
     let audit_key := ds_session_id s +:+ line_feed +:+ report_key r in
     if negb (string_empty (ds_session_id s)) && negb (string_empty (ds_driver_token s)) &&
        negb (String.eqb audit_key (ds_last_webrtc_audit_key s)) then
       session_update (fun s => s <| ds_last_webrtc_audit_key := audit_key |>);;
       mret (audit_key, Some s)
     else mret (audit_key, None)).

Definition post_report (s : DriverSession J) (r : WebRtcReport) (received_at_ms : Z) : M D json :=
  session ← lift (client_url_encode (ds_session_id s));
  identity ← driver_id;
  on_machine (post_json_response (signaling_http_url +:+ "/sessions/" +:+ session +:+ "/webrtc_connection")
    (j_object [("actor", j_string identity); ("token", j_string (ds_driver_token s));
               ("connection_state", j_string (wr_connection_state r));
               ("connection_method", j_string (wr_connection_method r));
               ("turn_in_use", j_bool (wr_turn_in_use r));
               ("time_sync_synchronized", j_bool (wr_synchronized r));
               ("time_sync_acceptable", j_bool (time_sync_acceptable r));
               ("time_sync_uncertainty_ms", j_int (wr_uncertainty_ms r));
               ("sampled_at_utc_ms", j_int received_at_ms)]%string)).

(** The response the browser gets for an answer of the server, and the error if there was one. *)
Definition metrics_response (response : json) (answer : result json) : json * option exn :=
  match answer with
  | Throw error => (response, Some error)
  | Ok reported =>
      let response := j_set "reported" (j_bool true) response in
      match value_string "event" "" reported with
      | Ok event => (j_set "audit_event" (j_string event) response, None)
      | Throw error => (response, Some error)
      end
  end.

Definition forget_audit_key (audit_key : string) (s : DriverSession J) : DriverSession J :=
  if String.eqb (ds_last_webrtc_audit_key s) audit_key then s <| ds_last_webrtc_audit_key := ""%string |> else s.

Definition ingest_webrtc_metrics (input : json) : M D json :=
  r ← lift (report_of_metrics input);
  received_at_ms ← on_machine system_now_ms;
  '(audit_key, due) ← keep_metrics input received_at_ms r;
  let response := j_object [("accepted", j_bool true); ("received_at_ms", j_int received_at_ms);
                            ("reported", j_bool false)]%string in
  match due with
  | None => mret response
  | Some s =>
      answer ← try_catch_std (reported ← post_report s r received_at_ms; mret (Ok reported))
                 (fun error => mret (Throw error));
      match metrics_response response answer with
      | (response, None) => mret response
      | (response, Some error) =>
          lock_guard StateMutex (session_update (forget_audit_key audit_key));;
          mret (j_set "report_error" (j_string (what error)) response)
      end
  end.
End signaling.
