(* ===== verification/DriverSessions.v ===== *)
(** DriverSessions: logging in, control sessions and their end in the driver console
    (server.cpp:4917-5421).

    - [login], [vehicles] with the recovery after a restart of the server;
    - [connect]: [await_control_session], the wait for an approval, then the new session;
    - [end_session], [disconnect].

    [rounds] bounds the requests one wait for an approval makes: each waits half a second
    and the wait ends after ten minutes at the latest, so 1,202 are enough. *)
From S2P Require Export DriverControl DriverSignaling.

(** [std::iscntrl] of the C locale. *)
Definition is_cntrl (c : ascii) : bool :=
  (nat_of_ascii c <? 32)%nat || (nat_of_ascii c =? 127)%nat.

Definition identity_is_valid (identity : string) : bool :=
  negb (string_empty identity) && (String.length identity <=? 128)%nat &&
  negb (existsb (fun c => is_space c || is_cntrl c) (chars identity)).

(** A control session as the server grants it. *)
Record SessionGrant := mkSessionGrant {
  sg_session_id : string;
  sg_control_token : string;
  sg_expires_at_ms : Z;
}.

(** [NativeControlIntent{"native-session-bootstrap", 1, "N", ...}] *)
Definition bootstrap_intent : NativeControlIntent :=
  mkNativeControlIntent "native-session-bootstrap" 1 "N" d_zero d_zero d_zero false.

Definition kApprovalWaitNs : Z := 10 * 60 * 1000000000.

Section sessions.
Context {J : JsonApi} {W : Type} {Http : HttpTransport W} {Clock : ClockApi W} {Sort : SampleSort}.
Context {Sockets : WebSocketApi W} {Threads : ThreadApi W}.
Context (config : DriverConfig) (signaling_http_url : string) (burst rounds : nat).
Notation D := (DriverProcess W).
Notation connect_control_signaling_websocket := (connect_control_signaling_websocket config).
Notation connect_signaling_websocket := (connect_signaling_websocket config).
Notation remote_session_is_active := (remote_session_is_active signaling_http_url).

(** [std::lock_guard lock(mutex_); session members = f(session members);] *)
Definition locked_update (f : DriverSession J -> DriverSession J) : M D unit :=
  lock_guard StateMutex (session_update f).

(** What the members are under [mutex_]. *)
Definition locked_session : M D (DriverSession J) := lock_guard StateMutex (s ← this; mret (dv_session s)).

(** [if (clock_.refresh_due(...)) static_cast<void>(refresh_time_sync());] *)
Definition refresh_clock_if_due : M D unit :=
  due ← clock_refresh_due config;
  when due (_ ← refresh_time_sync config signaling_http_url; mret tt).

(** ** Identity and vehicles *)

Definition fetch_authorized_vehicles (token : string) (expires_at_ms : Z) : M D json :=
  identity ← driver_id;
  encoded ← lift (client_url_encode identity);
  response ← on_machine (get_json (signaling_http_url +:+ "/drivers/" +:+ encoded +:+ "/vehicles")
                           (token_header token));
  listed ← lift (value_json "vehicles" (j_array []) response);
  lift (throw_if (negb (is_array listed)) (RuntimeError "authorized vehicle response is invalid"));;
  s ← lock_guard StateMutex
    (session_update (fun s => s <| ds_authorized_vehicles := listed |> <| ds_signaling_available := true |>);;
     s ← this; mret (dv_session s));
  identity ← driver_id;
  mret (j_object [("authenticated", j_bool true); ("driver_id", j_string identity);
                  ("token_expires_at_utc_ms", j_int expires_at_ms);
                  ("service_instance_id", j_string (ds_signaling_service_instance_id s));
                  ("vehicles", listed)]%string).

(** The vehicles of the token the console has, unless it does not serve any more. *)
Definition resume_login : M D (option json) :=
  s ← locked_session;
  if string_empty (ds_driver_token s) then mret None
  else
    now ← clock_now_ms;
    if ds_driver_token_expires_at_ms s <=? now then mret None
    else
      try_catch_std
        (result ← fetch_authorized_vehicles (ds_driver_token s) (ds_driver_token_expires_at_ms s);
         mret (Some (j_set "authenticated" (j_bool true) result)))
        (fun _ =>
           reset_native_control_state;;
           locked_update (fun s => clear_session config (clear_driver_token s));;
           mret None).

Definition login_locked (password : string) : M D json :=
  refresh_clock_if_due;;
  resumed ← resume_login;
  match resumed with
  | Some result => mret result
  | None =>
      s ← this;
      let credential := if string_empty password then ds_password (dv_session s) else password in
      lift (throw_if (string_empty credential) (InvalidArgument "driver password is required"));;
      identity ← driver_id;
      response ← on_machine (post_json_response (signaling_http_url +:+ "/auth/driver_login")
        (j_object [("driver_id", j_string identity); ("password", j_string credential)]%string));
      lock_guard StateMutex
        (session_update (fun s => s <| ds_password := credential |>);;
         token ← lift (required_string "token" response);
         session_update (fun s => s <| ds_driver_token := token |>);;
         expires_at_ms ← lift (value_int64 "expires_at_ms" 0 response);
         session_update (fun s => s <| ds_driver_token_expires_at_ms := expires_at_ms |>);;
         instance ← lift (required_string "service_instance_id" response);
         session_update (fun s => s <| ds_signaling_service_instance_id := instance |>
                                    <| ds_signaling_available := true |>));;
      token ← lift (required_string "token" response);
      expires_at_ms ← lift (value_int64 "expires_at_ms" 0 response);
      result ← fetch_authorized_vehicles token expires_at_ms;
      mret (j_set "authenticated" (j_bool true) result)
  end.

(** Another identity is taken only when nobody is logged in. *)
Definition switch_identity (password identity : string) : M D unit :=
  lock_guard StateMutex
    (s ← this;
     lift (throw_if (negb (string_empty (ds_driver_token (dv_session s))) ||
                     negb (string_empty (ds_session_id (dv_session s))))
             (HttpStatusError 409 "log out before switching driver ID" "" ""));;
     lift (throw_if (string_empty password) (InvalidArgument "driver password is required"));;
     lock_guard IdentityMutex
       (this_update (fun s => s <| dv_driver_id := identity |>);;
        session_update (fun s => s <| ds_password := ""%string |>))).

Definition login (password requested_driver_id : string) : M D json :=
  authentication_guard
    (identity ← (if string_empty requested_driver_id then driver_id else mret requested_driver_id);
     lift (throw_if (negb (identity_is_valid identity))
             (InvalidArgument "driver ID is required and must not contain whitespace"));;
     current ← driver_id;
     when (negb (String.eqb identity current)) (switch_identity password identity);;
     login_locked password).

(** After a restart the server knows no token: the console logs in again. *)
Definition recover_after_restart (error : exn) (service_instance_id : string) : M D json :=
  health ← on_machine (get_json (signaling_http_url +:+ "/health") []);
  observed_instance_id ← lift (value_string "service_instance_id" "" health);
  if string_empty service_instance_id || string_empty observed_instance_id ||
     String.eqb observed_instance_id service_instance_id
  then throw error
  else
    close_signaling_websocket;;
    reset_native_control_state;;
    locked_update (fun s => (clear_session config (clear_driver_token s)) <| ds_authorized_vehicles := j_array [] |>);;
    recovered ← login_locked "";
    locked_update (fun s => s <| ds_signaling_restart_recoveries ::= fun k => u64 (k + 1) |>);;
    mret (j_set_all [("signaling_restart_recovered", j_bool true);
                     ("previous_service_instance_id", j_string service_instance_id);
                     ("control_authority_recovered", j_bool false)]%string recovered).

Definition stale_vehicle (vehicle : json) : json :=
  if negb (is_object vehicle) then vehicle
  else j_set_all [("online", j_bool false); ("controllable", j_bool false); ("controlled_by", j_string "");
                  ("session_id", j_string ""); ("state", j_string "signaling_unavailable")]%string vehicle.

(** The last list while the server cannot be reached. *)
Definition stale_vehicles (expires_at_ms : Z) (service_instance_id : string) : M D json :=
  s ← lock_guard StateMutex
    (session_update (fun s => s <| ds_signaling_available := false |>);; s ← this; mret (dv_session s));
  identity ← driver_id;
  mret (j_object [("authenticated", j_bool true); ("driver_id", j_string identity);
                  ("token_expires_at_utc_ms", j_int expires_at_ms);
                  ("service_instance_id", j_string service_instance_id);
                  ("signaling_available", j_bool false); ("stale", j_bool true);
                  ("vehicles", j_array (map stale_vehicle (j_elements (ds_authorized_vehicles s))))]%string).

Definition vehicles : M D json :=
  authentication_guard
    (s ← locked_session;
     let service_instance_id := ds_signaling_service_instance_id s in
     lift (throw_if (string_empty (ds_driver_token s)) (HttpStatusError 401 "driver login is required" "" ""));;
     try_catch (fetch_authorized_vehicles (ds_driver_token s) (ds_driver_token_expires_at_ms s))
       (fun error =>
          match error with
          | HttpStatusError status _ _ _ =>
              locked_update (fun s => s <| ds_signaling_available := true |>);;
              if negb (status =? 401) && negb (status =? 403) then throw error
              else recover_after_restart error service_instance_id
          | HttpTransportError _ => stale_vehicles (ds_driver_token_expires_at_ms s) service_instance_id
          | ForeignException => throw error
          | _ => locked_update (fun s => s <| ds_signaling_available := false |>);; throw error
          end)).

(** ** The wait for an approval *)

Definition cancel_pending_connect : M D unit :=
  others_run;;
  this_update (fun s => s <| dv_connect_cancellation_generation ::= fun g => u64 (g + 1) |>).

(** [if (connect_cancellation_generation_.load() != generation) throw ...] *)
Definition check_cancelled (generation : Z) : M D unit :=
  others_run;;
  s ← this;
  lift (throw_if (negb (dv_connect_cancellation_generation s =? generation)) (RuntimeError "连接申请已取消")).

(** The variables of the wait, next to the process. *)
Record ApprovalWait := mkApprovalWait {
  aw_approval_id : string;
  aw_deadline : Z;
  aw_process : D;
}.

#[global] Instance eta_ApprovalWait : Settable ApprovalWait :=
  fields! mkApprovalWait <aw_approval_id; aw_deadline; aw_process>.

Definition in_process {A} (m : M D A) : M ApprovalWait A :=
  zoom aw_process (fun p a => a <| aw_process := p |>) m.

(** An answer that says an approval is pending. *)
Definition note_pending_approval (vehicle_id response_body : string) : M ApprovalWait unit :=
  pending ← lift (j_parse response_body);
  request_id ← lift (required_string "request_id" pending);
  a ← get;
  lift (throw_if (negb (string_empty (aw_approval_id a)) && negb (String.eqb (aw_approval_id a) request_id))
          (RuntimeError "连接申请已被替换"));;
  modify (fun a => a <| aw_approval_id := request_id |>);;
  remaining_ms ← lift (required_int64 "remaining_ms" pending);
  let remaining_ms := Z.min (Z.max remaining_ms 0) 600000 in
  now ← in_process (on_machine steady_now_ns);
  modify (fun a => a <| aw_deadline := Z.min (aw_deadline a) (now + remaining_ms * 1000000) |>);;
  in_process (lock_guard StateMutex
    (expires_at ← lift (j_at "expires_at_utc_ms" pending);
     session_update (fun s => s <| ds_pending_mobile_approval :=
       j_object [("request_id", j_string request_id); ("vehicle_id", j_string vehicle_id);
                 ("expires_at_utc_ms", expires_at)]%string |>))).

Definition session_request (identity vehicle_id token approval_id : string) : json :=
  let request := j_object [("driver_id", j_string identity); ("vehicle_id", j_string vehicle_id);
                           ("token", j_string token)]%string in
  if string_empty approval_id then request
  else j_set "approval_request_id" (j_string approval_id) request.

(** One request; [None] while the approval is pending. *)
Definition request_session (identity vehicle_id token : string) (generation : Z) :
    M ApprovalWait (option json) :=
  in_process (check_cancelled generation);;
  now ← in_process (on_machine steady_now_ns);
  a ← get;
  lift (throw_if (aw_deadline a <=? now) (RuntimeError "手机审批已超时"));;
  try_catch
    (granted ← in_process (on_machine (post_json_response (signaling_http_url +:+ "/sessions")
                 (session_request identity vehicle_id token (aw_approval_id a))));
     mret (Some granted))
    (fun error =>
       match error with
       | HttpStatusError status _ issue_code response_body =>
           if negb (status =? 409) || negb (String.eqb issue_code "mobile_approval_pending") then throw error
           else note_pending_approval vehicle_id response_body;; mret None
       | _ => throw error
       end).

(** [approval_wait_cv_.wait_until], for half a second at most. *)
Definition await_approval : M D unit := lock_guard ApprovalWaitMutex others_run.

(** [while (true)]; between two requests the thread waits. *)
Fixpoint request_rounds (rounds : nat) (identity vehicle_id token : string) (generation : Z) :
    M ApprovalWait json :=
  match rounds with
  | O => throw (RuntimeError "手机审批已超时")
  | S rounds =>
      granted ← request_session identity vehicle_id token generation;
      match granted with
      | Some session => mret session
      | None => in_process await_approval;; request_rounds rounds identity vehicle_id token generation
      end
  end.

Definition cancel_approval (identity vehicle_id token approval_id : string) : M D unit :=
  when (negb (string_empty approval_id))
    (try_catch_std
       (_ ← on_machine (post_json_response (signaling_http_url +:+ "/sessions/approval/cancel")
              (j_set "approval_request_id" (j_string approval_id)
                 (session_request identity vehicle_id token "")));
        mret tt)
       (fun _ => mret tt)).

(** [try { m } catch (...) { cancel; throw; }] with the variables of the wait. *)
Definition with_approval (m : M ApprovalWait json) (deadline : Z) (cancel : string -> M D unit) : M D json := fun p =>
  match m (mkApprovalWait "" deadline p) with
  | (Ok session, a) => (Ok session, aw_process a)
  | (Throw error, a) => (cancel (aw_approval_id a);; throw error) (aw_process a)
  end.

Definition await_control_session (vehicle_id token : string) (generation : Z) : M D json :=
  identity ← driver_id;
  now ← on_machine steady_now_ns;
  with_approval (request_rounds rounds identity vehicle_id token generation) (now + kApprovalWaitNs)
    (cancel_approval identity vehicle_id token).

(** ** Connecting *)

(** [find_if] on the vehicle identifiers. *)
Fixpoint find_vehicle (target : string) (available : list json) : result (option json) :=
  match available with
  | [] => Ok None
  | vehicle :: available =>
      vehicle_id ← value_string "vehicle_id" "" vehicle;
      if String.eqb vehicle_id target then Ok (Some vehicle) else find_vehicle target available
  end.

(** The lambda [validate_target]. *)
Definition validate_target (target : string) : M D unit :=
  listed ← vehicles;
  available ← lift (j_at "vehicles" listed);
  selected ← lift (find_vehicle target (j_elements available));
  lift (match selected with
        | None => Throw (InvalidArgument "vehicle is not authorized for this driver")
        | Some vehicle =>
            controllable ← value_bool "controllable" false vehicle;
            if (controllable : bool) then Ok tt
            else
              state ← value_string "state" "unknown" vehicle;
              Throw (RuntimeError ("vehicle is not controllable: " +:+ state))
        end).

Definition offline_report (identity session : string) : json :=
  j_object [("driver_id", j_string identity); ("connected", j_bool false); ("session_id", j_string session)]%string.

Definition end_session_locked (reason : string) : M D json :=
  s ← locked_session;
  let token := ds_driver_token s in
  let session := ds_session_id s in
  if string_empty session then
    reset_native_control_state;;
    lock_guard StateMutex
      (session_update (fun s => s <| ds_profile := reset_control_profile (dc_control_limits config) |>);;
       identity ← driver_id;
       mret (offline_report identity ""))
  else
    lift (throw_if (string_empty token) (RuntimeError "driver login is required to end the session"));;
    encoded ← lift (client_url_encode session);
    identity ← driver_id;
    response ← on_machine (post_json_response (signaling_http_url +:+ "/sessions/" +:+ encoded +:+ "/end")
      (j_object [("actor", j_string identity); ("token", j_string token); ("reason", j_string reason)]%string));
    close_signaling_websocket;;
    reset_native_control_state;;
    clear_session_if config session;;
    identity ← driver_id;
    mret (j_set_all [("driver_id", j_string identity); ("connected", j_bool false);
                     ("session_id", j_string session)]%string response).

Definition connected_report (identity vehicle session : string) (generation connected_at_ms : Z)
    (time_sync : TimeSyncStatus) : json :=
  j_object [("runtime", j_string "cpp"); ("driver_id", j_string identity); ("vehicle_id", j_string vehicle);
            ("connected", j_bool true); ("session_id", j_string session);
            ("control_session_generation", j_uint generation);
            ("connected_at_ms", j_int connected_at_ms);
            ("time_sync", TimeSyncStatus_to_json time_sync)]%string.

(** [clock_.status()] *)
Definition clock_status : M D TimeSyncStatus := others_run;; s ← this; mret (sc_status (dv_clock s)).

(** An existing session of the target goes on while the server still knows it. *)
Definition resume_session (session token : string) : M D (option json) :=
  active ← try_catch_std (remote_session_is_active session token)
    (fun error =>
       throw (RuntimeError
         ("cannot verify the existing driver session; local authority was retained: " +:+ what error)));
  if negb active then mret None
  else
    connect_signaling_websocket session token;;
    _ ← connect_control_signaling_websocket session token 0;
    lock_guard StateMutex
      (identity ← driver_id;
       status ← clock_status;
       s ← this;
       let s := dv_session s in
       mret (Some (connected_report identity (ds_vehicle_id s) (ds_session_id s)
                     (ds_control_session_generation s) (ds_connected_at_ms s) status))).

(** What comes before a new session: [Some] when the existing one goes on. *)
Definition settle_existing (current target token : string) (session : string) : M D (option json) :=
  if string_empty session then validate_target target;; mret None
  else if String.eqb current target then
    resumed ← resume_session session token;
    match resumed with
    | Some report => mret (Some report)
    | None =>
        reset_native_control_state;;
        locked_update (clear_session config);;
        validate_target target;;
        mret None
    end
  else
    validate_target target;;
    _ ← end_session_locked "driver_vehicle_switch";
    mret None.

Definition install_session (target : string) (grant : SessionGrant) (connected_at_ms : Z) : M D Z :=
  lock_guard UpdateMutex
    (generation ← lock_guard StateMutex
       (session_update (fun s =>
          s <| ds_vehicle_id := target |> <| ds_session_id := sg_session_id grant |>
            <| ds_control_token := sg_control_token grant |>
            <| ds_control_token_expires_at_ms := sg_expires_at_ms grant |>
            <| ds_control_token_renew_at_ms := control_lease_renew_at connected_at_ms (sg_expires_at_ms grant) |>
            <| ds_sequence := 0 |> <| ds_control_sequence := 0 |>
            <| ds_control_session_generation ::= fun g => u64 (g + 1) |>
            <| ds_profile := reset_control_profile (dc_control_limits config) |>
            <| ds_connected_at_ms := connected_at_ms |>);;
        s ← this;
        mret (ds_control_session_generation (dv_session s)));
     now ← steady_now_ms;
     bootstrap ← on_intent (update bootstrap_intent now);
     lift (throw_if (negb (upd_accepted bootstrap))
             (RuntimeError "native control bootstrap intent was rejected"));;
     mret generation).

(** The connections of a new session; without them it is ended again. *)
Definition open_connections (session token : string) (generation : Z) : M D unit :=
  try_catch
    (check_cancelled generation;;
     connect_signaling_websocket session token;;
     _ ← connect_control_signaling_websocket session token 0;
     check_cancelled generation)
    (fun failure =>
       try_catch_std (_ ← end_session_locked "signaling_websocket_connect_failed"; mret tt)
         (fun _ => reset_native_control_state;; clear_session_if config session);;
       throw failure).

Definition grant_of (session : json) : result (string * string) :=
  session_id ← required_string "session_id" session;
  control_token ← required_string "control_token" session;
  Ok (session_id, control_token).

Definition new_session (target token : string) (generation : Z) : M D json :=
  reset_native_control_state;;
  session ← await_control_session target token generation;
  '(session_id, control_token) ← lift (grant_of session);
  connected_at_ms ← clock_now_ms;
  expires_at_ms ← lift (required_int64 "control_token_expires_at_utc_ms" session);
  lift (throw_if (expires_at_ms <=? connected_at_ms)
          (RuntimeError "new control authority lease is already expired"));;
  control_generation ← install_session target (mkSessionGrant session_id control_token expires_at_ms)
                         connected_at_ms;
  open_connections session_id token generation;;
  try_catch_std (_ ← vehicles; mret tt) (fun _ => mret tt);;
  identity ← driver_id;
  status ← clock_status;
  mret (connected_report identity target session_id control_generation connected_at_ms status).

Definition connect_locked (requested_vehicle_id : string) (generation : Z) : M D json :=
  refresh_clock_if_due;;
  s ← locked_session;
  let current_session := ds_session_id s in
  let current_vehicle := ds_vehicle_id s in
  current_token ← (if string_empty (ds_driver_token s) then
                     _ ← login "" ""; s ← locked_session; mret (ds_driver_token s)
                   else mret (ds_driver_token s));
  let target := if string_empty requested_vehicle_id then current_vehicle else requested_vehicle_id in
  lift (throw_if (string_empty target) (InvalidArgument "vehicle_id is required"));;
  settled ← settle_existing current_vehicle target current_token current_session;
  match settled with
  | Some report => mret report
  | None => new_session target current_token generation
  end.

Definition forget_pending_approval : M D unit :=
  locked_update (fun s => s <| ds_pending_mobile_approval := j_object [] |>).

(** [std::unique_lock operation(authentication_mutex_, std::try_to_lock)] *)
Definition try_authentication {A} (m : M D A) (refused : M D A) : M D A :=
  owned ← on_machine (fun w => let '(owned, w) := thr_try_lock w in (Ok owned, w));
  if (owned : bool) then lock_guard AuthenticationMutex m else refused.

Definition connect (requested_vehicle_id : string) : M D json :=
  try_authentication
    (s ← this;
     let generation := dv_connect_cancellation_generation s in
     others_run;;
     s ← this;
     lift (throw_if (dv_shutting_down s) (RuntimeError "控制端正在退出"));;
     try_catch
       (result ← connect_locked requested_vehicle_id generation; forget_pending_approval;; mret result)
       (fun error => forget_pending_approval;; throw error))
    (throw (RuntimeError "已有连接或退出操作正在进行")).

(** ** Ending *)

Definition end_session (reason : string) : M D json :=
  cancel_pending_connect;;
  authentication_guard (end_session_locked reason).

(** What a console nobody is logged in to forgets. *)
Definition forget_driver (s : DriverSession J) : DriverSession J :=
  (clear_session config s) <| ds_authorized_vehicles := j_array [] |> <| ds_password := ""%string |>.

Definition disconnect (reason : string) : M D json :=
  cancel_pending_connect;;
  authentication_guard
    (s ← locked_session;
     let token := ds_driver_token s in
     let session := ds_session_id s in
     if string_empty token then
       close_signaling_websocket;;
       reset_native_control_state;;
       lock_guard StateMutex
         (session_update forget_driver;;
          identity ← driver_id;
          mret (j_object [("driver_id", j_string identity); ("state", j_string "offline");
                          ("session_id", j_string session)]%string))
     else
       identity ← driver_id;
       response ← on_machine (post_json_response (signaling_http_url +:+ "/auth/driver_logout")
         (j_object [("driver_id", j_string identity); ("token", j_string token);
                    ("reason", j_string reason)]%string));
       close_signaling_websocket;;
       reset_native_control_state;;
       locked_update (fun s => if String.eqb (ds_driver_token s) token
                               then forget_driver (clear_driver_token s) else s);;
       mret (j_set "session_id" (j_string session) response)).
End sessions.
