(* ===== verification/DriverConsole.v ===== *)
(** DriverConsole: what the pages of the driver console call (server.cpp:4226-4242,
    5738-5942, 6000-6117, 6147-6323).

    - [DriverConsoleRuntime_new]; [prepare_control_profile] and the profile's reports;
    - [status]; [record_browser_event], a line of the event log;
    - [start_log_export], [log_export_status], [log_export_zip]; [prepare_shutdown];
    - [handle], the routes of [DriverConsoleHttpApp] and the statuses of its errors.

    [ConsoleHost] is what other parts answer: the page and its assets, the worker that exports
    session logs, the files of the event log. *)
From S2P Require Export DriverSessions.

(** The file operations of the event log fail with an exception. *)
Class ConsoleHost {J : JsonApi} (W : Type) : Type := {
  con_asset : string -> M W ServerResponse;
  con_page : string;
  con_scene : json;
  con_export_start : list string -> M W Z;
  con_export_progress : Z -> M W json;
  con_export_bundle : Z -> M W string;
  con_export_request_stop : Z -> M W unit;
  con_export_join : Z -> M W unit;
  con_parent_path : string -> string;
  con_create_directories : string -> M W unit;
  con_rotate_jsonl_log : string -> Z -> Z -> Z -> M W unit;
  con_append : string -> string -> M W unit;
}.

Definition d_pressure_limit : double := d_lit 3276 1.

(** [!(!isfinite(value) || value < 0.0 || value > maximum)] *)
Definition in_bounds (value maximum : double) : bool :=
  d_isfinite value && negb (value <ᵈ d_zero) && negb (value >ᵈ maximum).

(** The bounds the console checks a profile against. *)
Definition profile_in_schema (p : SessionControlProfile) : bool :=
  in_bounds (prof_target_speed_kph p) (d_lit 72 0) && in_bounds (prof_max_motor_torque_nm p) (d_lit 640 0) &&
  in_bounds (prof_max_brake_pressure_bar p) d_pressure_limit &&
  d_isfinite (prof_service_brake_pressure_bar p) && d_isfinite (prof_hard_brake_pressure_bar p) &&
  negb (prof_service_brake_pressure_bar p <ᵈ d_zero) &&
  negb (prof_service_brake_pressure_bar p >ᵈ prof_hard_brake_pressure_bar p) &&
  negb (prof_hard_brake_pressure_bar p >ᵈ prof_max_brake_pressure_bar p) &&
  in_bounds (prof_max_steering_angle_deg p) (d_lit 30 0) &&
  d_isfinite (prof_speed_pid_kp p) && negb (prof_speed_pid_kp p ≤ᵈ d_zero) &&
  negb (prof_speed_pid_kp p >ᵈ d_lit 100 0) &&
  in_bounds (prof_speed_pid_ki p) (d_lit 100 0) && in_bounds (prof_speed_pid_kd p) (d_lit 100 0) &&
  in_bounds (prof_speed_pid_derivative_filter_tau_ms p) (d_lit 2000 0) &&
  (20 <=? prof_speed_pid_max_dt_ms p) && (prof_speed_pid_max_dt_ms p <=? 200) &&
  in_bounds (prof_motor_torque_rise_rate_nm_per_s p) (d_lit 32000 0).

(** The numeric fields a profile must have, in the order they are checked. *)
Definition numeric_profile_fields : list string :=
  ["target_speed_kph"; "max_motor_torque_nm"; "max_brake_pressure_bar"; "service_brake_pressure_bar";
   "hard_brake_pressure_bar"; "max_steering_angle_deg"; "speed_pid_kp"; "speed_pid_ki"; "speed_pid_kd";
   "speed_pid_derivative_filter_tau_ms"; "speed_pid_max_dt_ms"; "motor_torque_rise_rate_nm_per_s";
   "parking_idle_timeout_ms"]%string.

Fixpoint check_numeric {J : JsonApi} (fields : list string) (input : json) : result unit :=
  match fields with
  | [] => Ok tt
  | field :: fields =>
      let refused := Throw (InvalidArgument ("control profile requires numeric " +:+ field)) in
      (if negb (j_contains field input) then refused
       else value ← j_at field input; if is_number value then Ok tt else refused);;
      check_numeric fields input
  end.

Section profile.
Context {J : JsonApi}.

Definition check_profile_version (input : json) : result unit :=
  let refused := Throw (InvalidArgument "control profile requires profile_version 4") in
  if negb (j_contains "profile_version" input) then refused
  else
    field ← j_at "profile_version" input;
    if negb (is_number_integer field) then refused
    else version ← get_int field; if version =? kSessionControlProfileVersion then Ok tt else refused.

(** [input.at("parking_idle_timeout_ms")], checked twice. *)
Definition parking_of (input : json) : result Z :=
  field ← j_at "parking_idle_timeout_ms" input;
  throw_if (negb (is_number_integer field) || j_lt_int field 0 || j_gt_int field 1000)
    (InvalidArgument "parking_idle_timeout_ms must be an integer");;
  parking ← get_int field;
  throw_if ((parking <? 0) || (1000 <? parking))
    (InvalidArgument "parking_idle_timeout_ms must be in [0, 1000]");;
  Ok parking.

(** The profile a request of the browser holds. *)
Definition profile_of_input (input : json) : result SessionControlProfile :=
  throw_if (negb (is_object input)) (InvalidArgument "control profile requires an object");;
  check_numeric numeric_profile_fields input;;
  check_profile_version input;;
  throw_if (negb (length (j_items input) =? 14)%nat)
    (InvalidArgument "control profile must contain exactly the V4 fields");;
  parking ← parking_of input;
  target_speed_kph ← j_at "target_speed_kph" input ≫= get_double;
  max_motor_torque_nm ← j_at "max_motor_torque_nm" input ≫= get_double;
  max_brake_pressure_bar ← j_at "max_brake_pressure_bar" input ≫= get_double;
  service_brake_pressure_bar ← j_at "service_brake_pressure_bar" input ≫= get_double;
  hard_brake_pressure_bar ← j_at "hard_brake_pressure_bar" input ≫= get_double;
  max_steering_angle_deg ← j_at "max_steering_angle_deg" input ≫= get_double;
  speed_pid_kp ← j_at "speed_pid_kp" input ≫= get_double;
  speed_pid_ki ← j_at "speed_pid_ki" input ≫= get_double;
  speed_pid_kd ← j_at "speed_pid_kd" input ≫= get_double;
  tau ← j_at "speed_pid_derivative_filter_tau_ms" input ≫= get_double;
  max_dt ← j_at "speed_pid_max_dt_ms" input;
  throw_if (negb (is_number_integer max_dt)) (InvalidArgument "speed_pid_max_dt_ms must be an integer");;
  max_dt ← get_int max_dt;
  rise_rate ← j_at "motor_torque_rise_rate_nm_per_s" input ≫= get_double;
  let p := mkSessionControlProfile kSessionControlProfileVersion target_speed_kph max_motor_torque_nm
             max_brake_pressure_bar service_brake_pressure_bar hard_brake_pressure_bar
             max_steering_angle_deg speed_pid_kp speed_pid_ki speed_pid_kd tau max_dt rise_rate parking in
  throw_if (negb (profile_in_schema p))
    (InvalidArgument "control profile V4 values are outside the controller schema bounds");;
  Ok p.

Definition store_profile (p : SessionControlProfile) (d : DriverProfile) : DriverProfile :=
  mkDriverProfile (prof_target_speed_kph p) (prof_max_motor_torque_nm p) (prof_max_brake_pressure_bar p)
    (prof_service_brake_pressure_bar p) (prof_hard_brake_pressure_bar p) (prof_max_steering_angle_deg p)
    (prof_speed_pid_kp p) (prof_speed_pid_ki p) (prof_speed_pid_kd p)
    (prof_speed_pid_derivative_filter_tau_ms p) (prof_speed_pid_max_dt_ms p)
    (prof_motor_torque_rise_rate_nm_per_s p) (prof_parking_idle_timeout_ms p) true
    (dp_last_prepared_seq d)
    (brake_limit (prof_service_brake_pressure_bar p) (prof_max_brake_pressure_bar p))
    (brake_limit (prof_hard_brake_pressure_bar p) (prof_max_brake_pressure_bar p)).

(** The request the browser sends over its data channel. *)
Definition profile_request (s : DriverSession J) (identity : string) (now : Z) (p : SessionControlProfile) : json :=
  j_set_all [("type", j_string "session_control_profile"); ("control_token", j_string (ds_control_token s));
             ("profile_version", j_int kSessionControlProfileVersion);
             ("parking_idle_timeout_ms", j_int (prof_parking_idle_timeout_ms p));
             ("target_speed_kph", j_double (prof_target_speed_kph p));
             ("max_motor_torque_nm", j_double (prof_max_motor_torque_nm p));
             ("max_brake_pressure_bar", j_double (prof_max_brake_pressure_bar p));
             ("service_brake_pressure_bar", j_double (prof_service_brake_pressure_bar p));
             ("hard_brake_pressure_bar", j_double (prof_hard_brake_pressure_bar p));
             ("max_steering_angle_deg", j_double (prof_max_steering_angle_deg p));
             ("speed_pid_kp", j_double (prof_speed_pid_kp p)); ("speed_pid_ki", j_double (prof_speed_pid_ki p));
             ("speed_pid_kd", j_double (prof_speed_pid_kd p));
             ("speed_pid_derivative_filter_tau_ms", j_double (prof_speed_pid_derivative_filter_tau_ms p));
             ("speed_pid_max_dt_ms", j_int (prof_speed_pid_max_dt_ms p));
             ("motor_torque_rise_rate_nm_per_s", j_double (prof_motor_torque_rise_rate_nm_per_s p))]%string
    (ProtocolMetadata_to_json
       (mkProtocolMetadata kProtocolVersion (ds_vehicle_id s) identity (ds_session_id s) (ds_sequence s) now)).

(** [control_profile_locked] *)
Definition driver_profile_json (d : DriverProfile) : json :=
  j_object [("profile_version", j_int kSessionControlProfileVersion);
            ("target_speed_kph", j_double (dp_target_speed_kph d));
            ("max_motor_torque_nm", j_double (dp_max_motor_torque_nm d));
            ("max_brake_pressure_bar", j_double (dp_max_brake_pressure_bar d));
            ("service_brake_pressure_bar", j_double (dp_service_brake_pressure_bar d));
            ("hard_brake_pressure_bar", j_double (dp_hard_brake_pressure_bar d));
            ("max_steering_angle_deg", j_double (dp_max_steering_angle_deg d));
            ("speed_pid_kp", j_double (dp_speed_pid_kp d)); ("speed_pid_ki", j_double (dp_speed_pid_ki d));
            ("speed_pid_kd", j_double (dp_speed_pid_kd d));
            ("speed_pid_derivative_filter_tau_ms", j_double (dp_speed_pid_derivative_filter_tau_ms d));
            ("speed_pid_max_dt_ms", j_int (dp_speed_pid_max_dt_ms d));
            ("motor_torque_rise_rate_nm_per_s", j_double (dp_motor_torque_rise_rate_nm_per_s d));
            ("parking_idle_timeout_ms", j_int (dp_parking_idle_timeout_ms d));
            ("initialized", j_bool (dp_initialized d));
            ("last_prepared_seq", j_uint (dp_last_prepared_seq d))]%string.

Definition control_limits_json (d : DriverProfile) : json :=
  j_object [("service_brake", j_double (dp_service_brake_limit d));
            ("hard_brake", j_double (dp_hard_brake_limit d));
            ("max_brake", j_double (dp_hard_brake_limit d))]%string.
End profile.

(** ** The runtime *)

Section console.
Context {J : JsonApi} {W : Type} {Http : HttpTransport W} {Clock : ClockApi W} {Sort : SampleSort}.
Context {Sockets : WebSocketApi W} {Threads : ThreadApi W} {Host : ConsoleHost W}.
Context (config : DriverConfig) (signaling_http_url : string) (burst rounds : nat).
Notation D := (DriverProcess W).

Definition prepare_control_profile (input : json) : M D json :=
  p ← lift (profile_of_input input);
  lock_guard StateMutex
    (s ← this;
     lift (throw_if (not_connected (dv_session s)) (RuntimeError "driver console is not connected"));;
     session_update (fun s => s <| ds_profile ::= store_profile p |>);;
     session_update (fun s => s <| ds_sequence ::= fun k => u64 (k + 1) |>);;
     session_update (fun s => s <| ds_profile ::= fun d => d <| dp_last_prepared_seq := ds_sequence s |> |>);;
     identity ← driver_id;
     now ← clock_now_ms;
     s ← this;
     let s := dv_session s in
     mret (j_object [("prepared", j_bool true); ("transport", j_string "webrtc_data_channel");
                     ("delivery_state", j_string "browser_data_channel_pending");
                     ("request", profile_request s identity now p);
                     ("control_profile", driver_profile_json (ds_profile s))]%string)).

Definition driver_control_limits : M D json :=
  s ← locked_session; mret (control_limits_json (ds_profile s)).

Definition control_profile : M D json :=
  s ← locked_session; mret (driver_profile_json (ds_profile s)).

(** ** Status *)

(** Renews the lease and the clock when they are due; a failure does not show. *)
Definition refresh_due_parts : M D unit :=
  timestamp_ms ← clock_now_ms;
  s ← locked_session;
  when (negb (string_empty (ds_session_id s)) && (ds_control_token_renew_at_ms s <=? timestamp_ms))
    (try_catch_std (_ ← renew_control_authority config signaling_http_url; mret tt) (fun _ => mret tt));;
  due ← (if string_empty (ds_driver_token s) then mret false else clock_refresh_due config);
  when due
    (try_catch_std (_ ← refresh_time_sync config signaling_http_url; mret tt) (fun _ => mret tt)).

Definition socket_connected (websocket : option ws) : bool :=
  match websocket with Some h => ws_connected h | None => false end.

Definition native_control_json (generation : Z) (sample : NativeControlIntentSample) (lease_ms : Z)
    (c : ControlSocket W) (n : NativeControlStatus) (last_error : string) (age_ms now_ms : Z) : json :=
  let intent := smp_intent sample in
  j_object
    [("transport", j_string "native_signaling_websocket"); ("session_generation", j_uint generation);
     ("rate_hz", j_int (dc_rate_hz config)); ("intent_lease_ms", j_int lease_ms);
     ("intent_active", j_bool (smp_active sample)); ("intent_fresh", j_bool (smp_fresh sample));
     ("requires_fresh_input", j_bool (smp_requires_fresh_input sample));
     ("effective_intent_seq", j_uint (int_intent_seq intent)); ("effective_gear", j_string (int_gear intent));
     ("effective_steering", j_double (int_steering intent));
     ("effective_throttle", j_double (int_throttle intent));
     ("effective_brake", j_double (int_brake intent)); ("effective_estop", j_bool (int_estop intent));
     ("websocket_connected", j_bool (socket_connected (cs_websocket c)));
     ("next_connect_in_ms", j_int (Z.max 0 (cs_next_connect_monotonic_ms c - now_ms)));
     ("reconnect_delay_ms", j_int (cs_reconnect_delay_ms c));
     ("commands_sent_total", j_uint (ns_commands_sent n)); ("send_failures_total", j_uint (ns_send_failures n));
     ("last_sent_at_utc_ms", j_int (ns_last_sent_at_utc_ms n));
     ("last_sent_monotonic_ms", j_int (ns_last_sent_monotonic_ms n));
     ("last_gap_ms", j_int (ns_last_gap_ms n)); ("max_gap_ms", j_int (ns_max_gap_ms n));
     ("last_seq", j_uint (ns_last_seq n)); ("last_ack_seq", j_uint (cs_last_ack_seq c));
     ("unacknowledged_age_ms", j_int age_ms);
     ("last_ack_received_at_utc_ms", j_int (ns_last_ack_received_at_utc_ms n));
     ("last_ack_cloud_received_at_utc_ms", j_int (ns_last_ack_cloud_received_at_utc_ms n));
     ("last_error", j_string last_error)]%string.

(** [last_control_prepared_at_utc_ms_] and [control_commands_prepared_total_] stay 0. *)
Definition status_json (identity : string) (s : DriverSession J) (c : SignalingSocket W) (connected : bool)
    (native_control : json) (time_sync : TimeSyncStatus) : json :=
  j_object
    [("runtime", j_string "cpp"); ("driver_id", j_string identity); ("vehicle_id", j_string (ds_vehicle_id s));
     ("authenticated", j_bool (negb (string_empty (ds_driver_token s))));
     ("driver_token_expires_at_utc_ms", j_int (ds_driver_token_expires_at_ms s));
     ("signaling_service_instance_id", j_string (ds_signaling_service_instance_id s));
     ("signaling_restart_recoveries", j_uint (ds_signaling_restart_recoveries s));
     ("signaling_available", j_bool (ds_signaling_available s));
     ("connected", j_bool (negb (string_empty (ds_session_id s))));
     ("pending_mobile_approval", ds_pending_mobile_approval s); ("session_id", j_string (ds_session_id s));
     ("control_session_generation", j_uint (ds_control_session_generation s));
     ("control_token_expires_at_utc_ms", j_int (ds_control_token_expires_at_ms s));
     ("sequence", j_uint (ds_sequence s)); ("connected_at_ms", j_int (ds_connected_at_ms s));
     ("last_control_prepared_at_utc_ms", j_int 0); ("control_commands_prepared_total", j_uint 0);
     ("signaling_transport", j_string "websocket"); ("signaling_websocket_connected", j_bool connected);
     ("signaling_websocket_reconnects", j_uint (ss_reconnects c));
     ("signaling_delivery_cursor", j_uint (ss_delivery_cursor c));
     ("pending_signaling_deliveries", j_uint (Z.of_nat (length (ss_pending_messages c))));
     ("native_control", native_control); ("time_sync", TimeSyncStatus_to_json time_sync);
     ("webrtc_metrics", ds_webrtc_metrics s); ("last_signaling_messages", ds_signaling_messages s);
     ("authorized_vehicles", ds_authorized_vehicles s)]%string.

Definition status : M D json :=
  refresh_due_parts;;
  signaling ← lock_guard SignalingSocketMutex (s ← this; mret (dv_signaling s));
  '(control, age_ms) ← lock_guard ControlSocketMutex
    (now ← steady_now_ms; s ← this;
     mret (dv_control s, oldest_age_ms now (cs_ack_window (dv_control s))));
  now ← steady_now_ms;
  others_run;;
  native_sample ← on_intent (sample now);
  last_error ← lock_guard StatusMutex (s ← this; mret (ns_last_error (dv_status s)));
  lock_guard StateMutex
    (identity ← driver_id;
     s ← this;
     now ← steady_now_ms;
     let native_control :=
       native_control_json (ds_control_session_generation (dv_session s)) native_sample
         (st_lease_ms (dv_intent s)) control (dv_status s) last_error age_ms now in
     time_sync ← clock_status;
     s ← this;
     mret (status_json identity (dv_session s) signaling (socket_connected (ss_websocket signaling))
             native_control time_sync)).

(** ** The event log *)

Definition append_driver_log_record (record : json) : M D unit :=
  let path := dc_browser_event_log_path config in
  if string_empty path then mret tt
  else
    text ← lift (j_dump record);
    let line := text +:+ line_feed in
    let size := Z.of_nat (String.length line) in
    lift (throw_if (dc_browser_event_log_max_bytes config <? size)
            (InvalidArgument "driver event exceeds configured log size"));;
    lock_guard BrowserEventLogMutex
      (when (negb (string_empty (con_parent_path path)))
         (on_machine (con_create_directories (con_parent_path path)));;
       on_machine (con_rotate_jsonl_log path (dc_browser_event_log_max_bytes config)
                     (dc_browser_event_log_files config) size);;
       on_machine (con_append path line)).

Definition event_name_char (c : ascii) : bool :=
  let n := Ascii.nat_of_ascii c in ui_instance_id_char c || (n =? 46)%nat.

Definition browser_sent_at (received_at : Z) (input : json) : result Z :=
  let invalid := Throw (InvalidArgument "browser event timestamp is invalid") in
  if negb (j_contains "sent_at_utc_ms" input) then Ok received_at
  else
    timestamp ← j_at "sent_at_utc_ms" input;
    sent_at ← (if is_number_unsigned timestamp then
                 value ← get_uint64 timestamp; if 2 ^ 63 - 1 <? value then invalid else Ok value
               else if is_number_integer timestamp then get_int64 timestamp
               else invalid);
    if sent_at <? 0 then invalid else Ok sent_at.

Definition event_of (input : json) : result (string * json) :=
  throw_if (negb (is_object input)) (InvalidArgument "browser event must be an object");;
  event ← value_string "event" "" input;
  throw_if (string_empty event || (128 <? String.length event)%nat ||
            negb (forallb event_name_char (chars event)))
    (InvalidArgument "browser event name is invalid");;
  details ← (if j_contains "details" input
             then details ← j_at "details" input; Ok (sanitize_log_value details)
             else Ok (j_object []));
  throw_if (negb (is_object details)) (InvalidArgument "browser event details must be an object");;
  Ok (event, details).

Definition record_browser_event (input : json) : M D json :=
  '(event, details) ← lift (event_of input);
  received_at ← on_machine system_now_ms;
  sent_at ← lift (browser_sent_at received_at input);
  s ← locked_session;
  identity ← driver_id;
  let answer (recorded : bool) :=
    j_object [("recorded", j_bool recorded); ("event", j_string event)]%string in
  if string_empty (dc_browser_event_log_path config) then mret (answer false)
  else
    append_driver_log_record
      (j_object [("event", j_string event); ("sent_at_utc_ms", j_int received_at);
                 ("browser_sent_at_utc_ms", j_int sent_at); ("driver_id", j_string identity);
                 ("vehicle_id", j_string (ds_vehicle_id s)); ("session_id", j_string (ds_session_id s));
                 ("details", details)]%string);;
    mret (answer true).

Definition log_sessions : M D json :=
  s ← locked_session;
  lift (throw_if (string_empty (ds_driver_token s)) (InvalidArgument "请先登录后查看会话日志"));;
  identity ← driver_id;
  lift (HttpClient_new 2000 (dc_resolve_entries config));;
  on_machine (post_json_response (signaling_http_url +:+ "/sessions/logs/driver")
    (j_object [("operation", j_string "list"); ("driver_id", j_string identity);
               ("token", j_string (ds_driver_token s))]%string)).

(** ** The export of logs *)

(** [ControllerLogExport::status], [zip] and [cancel]. *)
Definition export_status (export : Z) : M D json :=
  lock_guard ExportProgressMutex (on_machine (con_export_progress export)).

Definition export_in_state (state : string) (progress : json) : result bool :=
  value ← j_at "state" progress;
  if is_string value then text ← get_string value; Ok (String.eqb text state) else Ok false.

Definition export_zip (export : Z) : M D string :=
  lock_guard ExportProgressMutex
    (progress ← on_machine (con_export_progress export);
     ready ← lift (export_in_state "ready" progress);
     lift (throw_if (negb ready) (InvalidArgument "export is not ready"));;
     on_machine (con_export_bundle export)).

Definition cancel_log_export : M D unit :=
  s ← this;
  match dv_log_export s with
  | Some export => on_machine (con_export_request_stop export)
  | None => mret tt
  end.

(** [log_export_ = next;], which ends the export before: its worker is stopped and joined. *)
Definition replace_log_export (next : Z) : M D unit :=
  s ← this;
  this_update (fun s => s <| dv_log_export := Some next |>);;
  match dv_log_export s with
  | Some export => on_machine (con_export_request_stop export);; on_machine (con_export_join export)
  | None => mret tt
  end.

Definition export_running : M D bool :=
  s ← this;
  match dv_log_export s with
  | Some export => progress ← export_status export; lift (export_in_state "collecting" progress)
  | None => mret false
  end.

Definition start_log_export (key : string) : M D json :=
  authentication_guard
    (others_run;;
     s ← this;
     lift (throw_if (dv_shutting_down s) (InvalidArgument "控制端正在退出"));;
     token ← lock_guard StateMutex
       (s ← this;
        lift (throw_if (negb (string_empty (ds_session_id (dv_session s))))
                (InvalidArgument "请先结束控制会话再导出日志"));;
        mret (ds_driver_token (dv_session s)));
     lift (throw_if (string_empty token) (InvalidArgument "请先登录后导出日志"));;
     lock_guard LogExportMutex
       (running ← export_running;
        lift (throw_if running (InvalidArgument "已有日志导出任务正在进行"));;
        identity ← driver_id;
        next ← on_machine (con_export_start
                 ([signaling_http_url; identity; token; key; dc_browser_event_log_path config] ++
                  dc_resolve_entries config));
        replace_log_export next;;
        this_update (fun s => s <| dv_log_export_owner_token := token |>);;
        export_status next)).

(** The export of the driver who is logged in, if there is one. *)
Definition own_log_export (token : string) (s : DriverState W) : option Z :=
  if string_empty token || negb (String.eqb token (dv_log_export_owner_token s)) then None
  else dv_log_export s.

Definition log_export_status : M D json :=
  session ← locked_session;
  lock_guard LogExportMutex
    (s ← this;
     match own_log_export (ds_driver_token session) s with
     | Some export => export_status export
     | None => mret (j_object [("state", j_string "idle")]%string)
     end).

Definition log_export_zip : M D string :=
  session ← locked_session;
  lock_guard LogExportMutex
    (s ← this;
     match own_log_export (ds_driver_token session) s with
     | Some export => export_zip export
     | None => throw (InvalidArgument "当前登录无可下载的会话日志")
     end).

Definition prepare_shutdown : M D unit :=
  others_run;;
  this_update (fun s => s <| dv_shutting_down := true |>);;
  lock_guard LogExportMutex cancel_log_export;;
  cancel_pending_connect;;
  reset_native_control_state.

(** ** The routes *)

Definition error_json (message : string) : json := j_object [("error", j_string message)]%string.

(** [return ServerResponse::json(status, m);] *)
Definition answer_json (status : Z) (m : M D json) : M D ServerResponse :=
  value ← m; lift (ServerResponse_json status value).

Definition with_body (request : HttpRequest) (f : json -> M D json) : M D json :=
  body ← lift (HttpRequest_json_body request); f body.

Definition driver_get (request : HttpRequest) (not_found : M D ServerResponse) : M D ServerResponse :=
  let path := http_path request in
  if starts_with "/assets/" path then on_machine (con_asset path)
  else if String.eqb path "/api/scene-config" then answer_json 200 (mret con_scene)
  else if String.eqb path "/health" then
    answer_json 200 (mret (j_object [("status", j_string "ok"); ("runtime", j_string "cpp")]%string))
  else if String.eqb path "/api/time" then
    answer_json 200 (now ← on_machine system_now_ms; mret (j_object [("now_ms", j_int now)]%string))
  else if String.eqb path "/api/status" then answer_json 200 status
  else if String.eqb path "/api/vehicles" then answer_json 200 (vehicles config signaling_http_url)
  else if String.eqb path "/api/log-sessions" then answer_json 200 log_sessions
  else if String.eqb path "/api/log-export" then answer_json 200 log_export_status
  else if String.eqb path "/api/log-export/download" then
    archive ← log_export_zip;
    mret (mkServerResponse 200 "application/zip" archive
            [("Content-Disposition", "attachment; filename=mine-teleop-session.zip");
             ("Cache-Control", "no-store")]%string)
  else if String.eqb path "/api/control-limits" then answer_json 200 driver_control_limits
  else if String.eqb path "/api/control-profile" then answer_json 200 control_profile
  else if String.eqb path "/" then mret (mkServerResponse 200 "text/html; charset=utf-8" con_page [])
  else not_found.

Definition gone (message : string) : M D ServerResponse := answer_json 410 (mret (error_json message)).

Definition driver_post (request : HttpRequest) (not_found : M D ServerResponse) : M D ServerResponse :=
  let path := http_path request in
  let ok (f : json -> M D json) := answer_json 200 (with_body request f) in
  let send (message : json -> M D json) := ok message in
  if String.eqb path "/api/log-export" then
    answer_json 202 (with_body request (fun body => key ← lift (required_string "key" body); start_log_export key))
  else if String.eqb path "/api/login" then
    ok (fun body =>
          password ← lift (required_string "password" body);
          driver ← lift (required_string "driver_id" body);
          login config signaling_http_url password driver)
  else if String.eqb path "/api/connect" then
    ok (fun body =>
          vehicle ← lift (value_string "vehicle_id" "" body);
          connect config signaling_http_url rounds vehicle)
  else if String.eqb path "/api/end-session" then
    ok (fun body =>
          reason ← lift (value_string "reason" "driver_session_end" body);
          end_session config signaling_http_url reason)
  else if String.eqb path "/api/disconnect" then
    ok (fun body =>
          reason ← lift (value_string "reason" "driver_console_disconnect" body);
          disconnect config signaling_http_url reason)
  else if String.eqb path "/api/poll-signaling" then
    answer_json 200 (poll_signaling config signaling_http_url burst)
  else if String.eqb path "/api/webrtc/ice-servers" then answer_json 200 (ice_servers signaling_http_url)
  else if String.eqb path "/api/webrtc/capabilities" then send (send_media_capabilities config signaling_http_url burst)
  else if String.eqb path "/api/webrtc/fallback" then send (send_media_fallback config signaling_http_url burst)
  else if String.eqb path "/api/webrtc/answer" then send (send_webrtc_answer config signaling_http_url burst)
  else if String.eqb path "/api/webrtc/ice-candidate" then
    send (send_webrtc_ice_candidate config signaling_http_url burst)
  else if String.eqb path "/api/webrtc/metrics" then ok (ingest_webrtc_metrics config signaling_http_url)
  else if String.eqb path "/api/browser-event" then ok record_browser_event
  else if String.eqb path "/api/control-limits" then
    gone "legacy control-limit mutation is retired; use /api/control-profile"
  else if String.eqb path "/api/control-profile" then ok prepare_control_profile
  else if String.eqb path "/api/control-intent" then ok update_control_intent
  else if String.eqb path "/api/control" then
    gone "legacy browser control packet endpoint is retired; use /api/control-intent"
  else if string_in path ["/api/control/keyboard"; "/api/control/gamepad"] then
    gone "legacy specialized control endpoint is retired; use /api/control-intent"
  else not_found.

Definition driver_routes (request : HttpRequest) : M D ServerResponse :=
  let not_found := answer_json 404 (mret (error_json "not found")) in
  if String.eqb (http_method request) "GET" then driver_get request not_found
  else if String.eqb (http_method request) "POST" then driver_post request not_found
  else not_found.

(** The status of an exception. *)
Definition driver_error_status (e : exn) : Z :=
  match e with
  | HttpStatusError status _ _ _ => if (400 <=? status) && (status <=? 599) then status else 502
  | InvalidArgument _ => 400
  | _ => 409
  end.

(** [DriverConsoleHttpApp::handle] *)
Definition driver_handle (request : HttpRequest) : M D ServerResponse :=
  try_catch_std (driver_routes request)
    (fun error => lift (ServerResponse_json (driver_error_status error) (error_json (what error)))).
End console.

(** ** The constructor *)

Definition has_scheme (scheme : string) : bool := string_in scheme ["http"; "ws"; "https"; "wss"]%string.

(** The host of [authority], in brackets or before the port. *)
Definition authority_host (authority : list ascii) : option (list ascii) :=
  match authority with
  | "["%char :: rest =>
      match break_at "]"%char rest with
      | (_, None) => None
      | (host, Some after) =>
          match after with
          | [] => Some host
          | c :: _ => if Ascii.eqb c ":"%char then Some host else None
          end
      end
  | _ => Some (break_at ":"%char authority).1
  end.

Definition before_any (separators : list ascii) (s : list ascii) : list ascii :=
  (fix go s := match s with
               | [] => []
               | c :: s => if existsb (Ascii.eqb c) separators then [] else c :: go s
               end) s.

Definition signaling_url_is_secure_or_loopback (value : string) : bool :=
  let value := chars (lower (trim value)) in
  match find_text (chars "://") value with
  | None => false
  | Some scheme_end =>
      let scheme := of_chars (take scheme_end value) in
      if negb (has_scheme scheme) then false
      else
        let authority := before_any (chars "/?#") (drop (scheme_end + 3) value) in
        if (length authority =? 0)%nat || existsb (Ascii.eqb "@"%char) authority then false
        else
          match authority_host authority with
          | None | Some [] => false
          | Some host =>
              string_in scheme ["https"; "wss"] ||
              string_in (of_chars host) ["127.0.0.1"; "localhost"; "::1"]
          end
  end.

Definition DriverSession_new {J : JsonApi} (config : DriverConfig) (vehicle_id password : string) : DriverSession J :=
  mkDriverSession vehicle_id password "" 0 "" 0 false "" "" 0 0 0 0 0 0
    (reset_control_profile (dc_control_limits config)) (j_object []) (j_array []) (j_object []) "" (j_array []).

(** The members, and [signaling_http_url_]. *)
Definition DriverConsoleRuntime_new {J : JsonApi} {W : Type} {Sockets : WebSocketApi W}
    (config : DriverConfig) (vehicle_id password : string) : result (DriverState W * string) :=
  signaling_http_url ← normalize_signaling_http_url (dc_signaling_url config);
  HttpClient_new 5000 (dc_resolve_entries config);;
  intent ← NativeControlIntentStore_new (dc_intent_lease_ms config);
  throw_if (string_empty vehicle_id) (InvalidArgument "vehicle id is required");;
  throw_if (negb (signaling_url_is_secure_or_loopback (dc_signaling_url config)))
    (InvalidArgument
       "public signaling URL must use HTTPS or WSS; HTTP/WS is allowed only on loopback");;
  Ok (mkDriverState (dc_driver_id config) (DriverSession_new config vehicle_id password)
        (mkControlSocket None "" 0 [] 0 100) (mkSignalingSocket None "" [] 0 0) intent
        SynchronizedClock_new (mkNativeControlStatus false 0 0 0 0 0 0 0 0 0 0 "") 0 false None "",
      signaling_http_url).
