(* ===== verification/DriverLocks.v ===== *)
(** DriverLocks: the threads of the driver console never wait for each other in a circle.

    - [driver_thread], what the threads of the console run;
    - [lock_edge], that some execution takes a lock while it holds another;
      [lock_graph_acyclic].

    [lock_within] is the logic of the proof: a computation run under locks of a rank below [r]
    only takes locks above those it holds, and gives back what it took. *)
From S2P Require Export DriverConsole.

(** ** Ranks *)

Definition lock_rank (l : Lock) : nat :=
  match l with
  | AuthenticationMutex => 0 | ControlLeaseMutex => 1 | SignalingSendMutex => 2 | TimeSyncMutex => 3
  | SignalingSocketMutex => 4 | UpdateMutex => 5 | ControlSocketMutex => 6 | StatusMutex => 7
  | StateMutex => 8 | LogExportMutex => 9 | IdentityMutex => 10 | ExportProgressMutex => 11
  | ApprovalWaitMutex => 12 | ControlWaitMutex => 13 | BrowserEventLogMutex => 14
  end.

Definition below (r : nat) (held : list Lock) : Prop := Forall (fun h => (lock_rank h < r)%nat) held.

Section locks.
Context {J : JsonApi} {W : Type} {Http : HttpTransport W} {Clock : ClockApi W} {Sort : SampleSort}.
Context {Sockets : WebSocketApi W} {Threads : ThreadApi W}.
Notation D := (DriverProcess W).

Definition upwards (e : LockEvent W) : Prop := below (lock_rank (ev_lock e)) (ev_held e).

Definition lock_within {A} (r : nat) (m : M D A) : Prop := forall p,
  below r (drv_held p) -> Forall upwards (drv_trace p) ->
  drv_held (m p).2 = drv_held p /\ Forall upwards (drv_trace (m p).2).

(** ** Structure *)

(** What does not touch the locks. *)
Lemma within_silent {A} r (m : M D A) :
  (forall p, drv_held (m p).2 = drv_held p /\ drv_trace (m p).2 = drv_trace p) -> lock_within r m.
Proof. intros Hm p _ Ht. destruct (Hm p) as [-> ->]. done. Qed.

Lemma within_bind {A B} r (m : M D A) (f : A -> M D B) :
  lock_within r m -> (forall a, lock_within r (f a)) -> lock_within r (m ≫= f).
Proof.
  intros Hm Hf p Hp Ht. destruct (Hm p Hp Ht) as [Hh Ht'].
  unfold mbind, M_bind. destruct (m p) as [[a | e] q]; simpl in *; [| done].
  destruct (Hf a q) as [-> ?]; [by rewrite Hh | done | done].
Qed.

Lemma within_try {A} r (m : M D A) h :
  lock_within r m -> (forall e, lock_within r (h e)) -> lock_within r (try_catch m h).
Proof.
  intros Hm Hh p Hp Ht. destruct (Hm p Hp Ht) as [Hl Ht'].
  unfold try_catch. destruct (m p) as [[a | e] q]; simpl in *; [done |].
  destruct (Hh e q) as [-> ?]; [by rewrite Hl | done | done].
Qed.

Lemma within_ret {A} r (a : A) : lock_within r (mret a).
Proof. by apply within_silent. Qed.
Lemma within_throw {A} r e : lock_within r (throw (A := A) e).
Proof. by apply within_silent. Qed.
Lemma within_lift {A} r (x : result A) : lock_within r (lift x).
Proof. by apply within_silent. Qed.
Lemma within_gets {A} r (f : D -> A) : lock_within r (gets f).
Proof. by apply within_silent. Qed.
Lemma within_this r : lock_within r (this (W := W)).
Proof. by apply within_silent. Qed.
Lemma within_update r f : lock_within r (this_update f).
Proof. by apply within_silent. Qed.

Lemma within_when r b (m : M D unit) : lock_within r m -> lock_within r (when b m).
Proof. intros Hm. destruct b; [done | apply within_ret]. Qed.

Lemma within_try_std {A} r (m : M D A) h :
  lock_within r m -> (forall e, lock_within r (h e)) -> lock_within r (try_catch_std m h).
Proof.
  intros Hm Hh. apply within_try; [done |]. intros e.
  destruct (is_std_exception e); [apply Hh | apply within_throw].
Qed.

Lemma within_machine {A} r (m : M W A) : lock_within r (on_machine m).
Proof. apply within_silent. intros p. unfold on_machine, zoom. by destruct (m (drv_host p)). Qed.

Lemma within_intent {A} r (m : M NativeControlIntentStore A) : lock_within r (on_intent (W := W) m).
Proof. apply within_silent. intros p. unfold on_intent, zoom. by destruct (m _). Qed.

Lemma within_window {A} r (m : M NativeControlAcknowledgementWindow A) : lock_within r (on_window (W := W) m).
Proof. apply within_silent. intros p. unfold on_window, zoom. by destruct (m _). Qed.

Lemma within_signaling {A} r (m : M (SignalingSocket W) A) : lock_within r (on_signaling m).
Proof. apply within_silent. intros p. unfold on_signaling, zoom. by destruct (m _). Qed.

Lemma within_control_ws {A} r h (m : M (ws * W) A) : lock_within r (on_control_ws h m).
Proof. apply within_silent. intros p. unfold on_control_ws. by destruct (m _) as [? []]. Qed.

Lemma within_signaling_ws {A} r h (m : M (ws * W) A) : lock_within r (on_signaling_ws h m).
Proof. apply within_silent. intros p. unfold on_signaling_ws. by destruct (m _) as [? []]. Qed.

Lemma within_interleave r : lock_within r (others_run (W := W)).
Proof. apply within_silent. intros p. unfold others_run. by destruct (thr_others _ _). Qed.

(** ** Locks *)
Lemma below_weaken r r' held : (r <= r')%nat -> below r held -> below r' held.
Proof. intros Hr H. eapply Forall_impl; [exact H |]. simpl. intros l. lia. Qed.

Lemma within_lock {A} r l (m : M D A) :
  (r <= lock_rank l)%nat -> lock_within (S (lock_rank l)) m -> lock_within r (lock_guard l m).
Proof.
  intros Hr Hm. apply within_bind; [apply within_interleave | intros _ p Hp Ht].
  unfold holding. specialize (Hm (p <| drv_held := l :: drv_held p |>
    <| drv_trace ::= cons (mkLockEvent l (drv_held p) (drv_state p)) |>)).
  destruct (m _) as [a q]. simpl in *. destruct Hm as [_ Hq].
  - constructor; [lia |]. eapply below_weaken; [| exact Hp]. lia.
  - constructor; [| done]. by eapply below_weaken.
  - done.
Qed.

(** The recursive lock comes first, or is held already. *)
Lemma within_authentication {A} (m : M D A) : lock_within 1 m -> lock_within 1 (authentication_guard m).
Proof.
  intros Hm p Hp Ht.
  assert (E : authentication_guard m p =
    (if bool_decide (AuthenticationMutex ∈ drv_held p) then m p else lock_guard AuthenticationMutex m p))
    by (unfold authentication_guard, mbind, M_bind, gets; by case_bool_decide).
  rewrite E. case_bool_decide as Hin; [by apply Hm |].
  apply (within_lock 0 AuthenticationMutex m); [done | done | | done].
  destruct (drv_held p) as [| l held]; [constructor |].
  apply Forall_cons in Hp as [Hl _]. exfalso. apply Hin.
  destruct l; simpl in Hl; try lia. apply list_elem_of_here.
Qed.

Lemma within_weaken {A} r r' (m : M D A) : (r <= r')%nat -> lock_within r' m -> lock_within r m.
Proof. intros Hr Hm p Hp. apply Hm. by eapply below_weaken. Qed.
End locks.

Create HintDb lock_within.
#[export] Hint Resolve within_ret within_throw within_lift within_gets within_this within_update
  within_machine within_intent within_window within_signaling within_control_ws within_signaling_ws
  within_interleave : lock_within.

(** One step along the syntax; a computation with a lemma of its own is closed by it. *)
Ltac within_step :=
  match goal with
  | |- forall _, _ => intro
  | |- lock_within _ (let _ := _ in _) => cbv zeta
  | |- lock_within _ (let '_ := ?x in _) => destruct x
  | |- lock_within _ (mbind _ _) => apply within_bind
  | |- lock_within _ (try_catch_std _ _) => apply within_try_std
  | |- lock_within _ (try_catch _ _) => apply within_try
  | |- lock_within _ (when _ _) => apply within_when
  | |- lock_within _ (lock_guard _ _) => apply within_lock; [simpl; lia |]; simpl lock_rank
  | |- lock_within _ (if ?b then _ else _) => destruct b
  | |- lock_within _ (match ?x with _ => _ end) => destruct x
  | |- lock_within _ _ => solve [eauto with lock_within | eapply within_weaken; [| solve [eauto with lock_within]]; lia]
  end.
Ltac within_auto := repeat within_step.

(** ** Operations *)

Section operations.
Context {J : JsonApi} {W : Type} {Http : HttpTransport W} {Clock : ClockApi W} {Sort : SampleSort}.
Context {Sockets : WebSocketApi W} {Threads : ThreadApi W} {Host : ConsoleHost W}.
Context (config : DriverConfig) (signaling_http_url : string) (burst rounds : nat).
Notation D := (DriverProcess W).

Ltac unfold_within f := intros; unfold f; within_auto.

Lemma within_driver_id r : (r <= 10)%nat -> lock_within r (driver_id (W := W)).
Proof. intros. unfold driver_id. within_auto. Qed.
Hint Resolve within_driver_id | 2 : lock_within.
Lemma within_clock_now r : lock_within r (clock_now_ms (W := W)).
Proof. unfold_within (@clock_now_ms). Qed.
Lemma within_steady r : lock_within r (steady_now_ms (W := W)).
Proof. unfold_within (@steady_now_ms). Qed.
Lemma within_session_update r f : lock_within r (session_update (W := W) f).
Proof. unfold_within (@session_update). Qed.
Lemma within_status_update r f : lock_within r (status_update (W := W) f).
Proof. unfold_within (@status_update). Qed.
Lemma within_control_update r f : lock_within r (control_update (W := W) f).
Proof. unfold_within (@control_update). Qed.
Lemma within_signaling_update r f : lock_within r (signaling_update (W := W) f).
Proof. unfold_within (@signaling_update). Qed.
Lemma within_close_control r : lock_within r (close_control_ws (W := W)).
Proof. unfold_within (@close_control_ws). Qed.
Lemma within_close_signaling r : lock_within r (close_signaling_ws (W := W)).
Proof. unfold_within (@close_signaling_ws). Qed.
Hint Resolve within_clock_now within_steady within_session_update within_status_update
  within_control_update within_signaling_update within_close_control within_close_signaling : lock_within.

Lemma within_may_reconnect a b c : lock_within 7 (may_reconnect (W := W) a b c).
Proof. unfold_within (@may_reconnect). Qed.
Hint Resolve within_may_reconnect : lock_within.
Lemma within_connect_control a b c : lock_within 6 (connect_control_signaling_websocket (W := W) config a b c).
Proof. unfold_within (@connect_control_signaling_websocket). Qed.
Lemma within_close_control_socket : lock_within 6 (close_control_signaling_websocket (W := W)).
Proof. unfold_within (@close_control_signaling_websocket). Qed.
Hint Resolve within_connect_control within_close_control_socket : lock_within.
Lemma within_reset_native : lock_within 5 (reset_native_control_state (W := W)).
Proof. unfold_within (@reset_native_control_state). Qed.
Lemma within_failure a b c : lock_within 5 (note_native_control_failure (W := W) a b c).
Proof. unfold_within (@note_native_control_failure). Qed.
Lemma within_close_signaling_socket : lock_within 4 (close_signaling_websocket (W := W)).
Proof. unfold_within (@close_signaling_websocket). Qed.
Lemma within_clear_session a : lock_within 8 (clear_session_if (W := W) config a).
Proof. unfold_within (@clear_session_if). Qed.
Lemma within_refresh_due r : lock_within r (clock_refresh_due (W := W) config).
Proof. unfold_within (@clock_refresh_due). Qed.
Hint Resolve within_reset_native within_failure within_close_signaling_socket within_clear_session
  within_refresh_due : lock_within.
Lemma within_time_sync : lock_within 3 (refresh_time_sync (W := W) config signaling_http_url).
Proof. unfold_within (@refresh_time_sync). Qed.
Hint Resolve within_time_sync : lock_within.

Lemma within_update_intent a : lock_within 5 (update_control_intent (W := W) a).
Proof. unfold update_control_intent, install_intent. within_auto. Qed.
Lemma within_drain_acks n k : lock_within 7 (drain_acknowledgements (W := W) n k).
Proof.
  induction n; simpl; [apply within_ret |]. unfold control_ws_call, handle_acknowledgement.
  within_auto.
Qed.
Hint Resolve within_update_intent within_drain_acks : lock_within.
Lemma within_exchange x e : lock_within 6 (exchange_control (W := W) x e).
Proof. unfold exchange_control, sample_is_current, check_stall, control_ws_call. within_auto. Qed.
Hint Resolve within_exchange : lock_within.
Lemma within_send_sample : lock_within 5 (send_native_control_sample (W := W) config).
Proof.
  unfold send_native_control_sample, take_control_sample, deliver_sample, prepare_command. within_auto.
Qed.
Lemma within_renew : lock_within 1 (renew_control_authority (W := W) config signaling_http_url).
Proof. unfold renew_control_authority, post_renewal, install_lease. within_auto. Qed.
Hint Resolve within_send_sample within_renew : lock_within.
Lemma within_sender n : lock_within 5 (native_control_sender_loop (W := W) config n).
Proof.
  unfold native_control_sender_loop. within_auto. generalize a. induction n; intros t; simpl;
    [apply within_ret |]. unfold await_period. within_auto.
Qed.
Lemma within_lease n : lock_within 1 (native_control_lease_loop (W := W) config signaling_http_url n).
Proof.
  induction n; simpl; [apply within_ret |]. unfold await_lease_check, renew_due_lease, lease_due. within_auto.
Qed.
Hint Resolve within_sender within_lease : lock_within.

Lemma within_append m : lock_within 5 (append_websocket_messages (W := W) m).
Proof. unfold append_websocket_messages, signaling_ws_call. within_auto. Qed.
Hint Resolve within_append : lock_within.
Lemma within_take m : lock_within 5 (take_delivery (W := W) m).
Proof. unfold_within (@take_delivery). Qed.
Hint Resolve within_take : lock_within.
Lemma within_connect_signaling a b : lock_within 4 (connect_signaling_websocket (W := W) config a b).
Proof. unfold connect_signaling_websocket, keep_signaling_ws, probe_signaling. within_auto. Qed.
Lemma within_remote a b : lock_within 9 (remote_session_is_active (W := W) signaling_http_url a b).
Proof. unfold_within (@remote_session_is_active). Qed.
Hint Resolve within_connect_signaling within_remote : lock_within.
Lemma within_reconnect a b c d : lock_within 4 (reconnect_or_end (W := W) config signaling_http_url a b c d).
Proof. unfold reconnect_or_end, drop_signaling_ws. within_auto. Qed.
Lemma within_drain n k : lock_within 5 (drain_rounds (W := W) n k).
Proof. revert k. induction n; intros k; simpl; [apply within_ret |]. unfold signaling_ws_call. within_auto. Qed.
Hint Resolve within_reconnect within_drain : lock_within.
Lemma within_poll : lock_within 4 (poll_signaling (W := W) config signaling_http_url burst).
Proof. unfold poll_signaling, drain, require_signaling_ws. within_auto. Qed.
Lemma within_await n a b c d : lock_within 5 (await_acknowledgement (W := W) n a b c d).
Proof.
  induction n; simpl; unfold acknowledgement_timeout; [apply within_throw |]. unfold signaling_ws_call.
  within_auto.
Qed.
Hint Resolve within_poll within_await : lock_within.
Lemma within_exchange_message a b c d : lock_within 4 (exchange_message (W := W) burst a b c d).
Proof. unfold exchange_message, require_signaling_ws, signaling_ws_call. within_auto. Qed.
Hint Resolve within_exchange_message : lock_within.
Lemma within_send a b : lock_within 2 (send_signaling_message (W := W) config signaling_http_url burst a b).
Proof. unfold send_signaling_message, next_signaling_metadata, attempt_exchange. within_auto. Qed.
Hint Resolve within_send : lock_within.
Lemma within_metrics a : lock_within 8 (ingest_webrtc_metrics (W := W) config signaling_http_url a).
Proof. unfold ingest_webrtc_metrics, keep_metrics, post_report. within_auto. Qed.
Lemma within_ice : lock_within 8 (ice_servers (W := W) signaling_http_url).
Proof. unfold_within (@ice_servers). Qed.
Hint Resolve within_metrics within_ice : lock_within.

Lemma within_locked_update f : lock_within 8 (locked_update (W := W) f).
Proof. unfold_within (@locked_update). Qed.
Lemma within_locked_session : lock_within 8 (locked_session (W := W)).
Proof. unfold_within (@locked_session). Qed.
Lemma within_refresh : lock_within 3 (refresh_clock_if_due (W := W) config signaling_http_url).
Proof. unfold_within (@refresh_clock_if_due). Qed.
Lemma within_fetch a b : lock_within 8 (fetch_authorized_vehicles (W := W) signaling_http_url a b).
Proof. unfold_within (@fetch_authorized_vehicles). Qed.
Hint Resolve within_locked_update within_locked_session within_refresh within_fetch : lock_within.
Lemma within_login_locked a : lock_within 1 (login_locked (W := W) config signaling_http_url a).
Proof. unfold login_locked, resume_login. within_auto. Qed.
Hint Resolve within_login_locked : lock_within.
Lemma within_login a b : lock_within 1 (login (W := W) config signaling_http_url a b).
Proof. unfold login, switch_identity. apply within_authentication. within_auto. Qed.
Lemma within_vehicles : lock_within 1 (vehicles (W := W) config signaling_http_url).
Proof.
  unfold vehicles, recover_after_restart, stale_vehicles. apply within_authentication. within_auto.
Qed.
Hint Resolve within_login within_vehicles : lock_within.
Lemma within_check_cancelled g : lock_within 9 (check_cancelled (W := W) g).
Proof. unfold_within (@check_cancelled). Qed.
Lemma within_cancel_connect r : lock_within r (cancel_pending_connect (W := W)).
Proof. unfold_within (@cancel_pending_connect). Qed.
Hint Resolve within_check_cancelled within_cancel_connect : lock_within.
Lemma within_end_locked a : lock_within 1 (end_session_locked (W := W) config signaling_http_url a).
Proof. unfold_within (@end_session_locked). Qed.
Lemma within_clock_status r : lock_within r (clock_status (W := W)).
Proof. unfold_within (@clock_status). Qed.
Hint Resolve within_end_locked within_clock_status : lock_within.

(** The wait for an approval, whose variables stand next to the process. *)
Definition waits {A} (m : M (ApprovalWait (W := W)) A) : Prop := forall a,
  below 1 (drv_held (aw_process a)) -> Forall upwards (drv_trace (aw_process a)) ->
  drv_held (aw_process (m a).2) = drv_held (aw_process a) /\
  Forall upwards (drv_trace (aw_process (m a).2)).

Lemma waits_bind {A B} (m : M (ApprovalWait (W := W)) A) (f : A -> M ApprovalWait B) :
  waits m -> (forall a, waits (f a)) -> waits (m ≫= f).
Proof.
  intros Hm Hf a Ha Ht. destruct (Hm a Ha Ht) as [Hh Ht'].
  unfold mbind, M_bind. destruct (m a) as [[x | e] b]; simpl in *; [| done].
  destruct (Hf x b) as [-> ?]; [by rewrite Hh | done | done].
Qed.

Lemma waits_try {A} (m : M (ApprovalWait (W := W)) A) h :
  waits m -> (forall e, waits (h e)) -> waits (try_catch m h).
Proof.
  intros Hm Hh a Ha Ht. destruct (Hm a Ha Ht) as [Hl Ht'].
  unfold try_catch. destruct (m a) as [[x | e] b]; simpl in *; [done |].
  destruct (Hh e b) as [-> ?]; [by rewrite Hl | done | done].
Qed.

Lemma waits_silent {A} (m : M (ApprovalWait (W := W)) A) :
  (forall a, aw_process (m a).2 = aw_process a) -> waits m.
Proof. intros Hm a _ Ht. by rewrite Hm. Qed.

Lemma waits_process {A} (m : M D A) : lock_within 1 m -> waits (in_process m).
Proof.
  intros Hm a Ha Ht. destruct (Hm _ Ha Ht) as [Hl Ht']. unfold in_process, zoom.
  by destruct (m (aw_process a)).
Qed.

Ltac waits_step :=
  match goal with
  | |- forall _, _ => intro
  | |- waits (mbind _ _) => apply waits_bind
  | |- waits (try_catch _ _) => apply waits_try
  | |- waits (in_process _) => apply waits_process; solve [within_auto]
  | |- waits (if ?b then _ else _) => destruct b
  | |- waits (match ?x with _ => _ end) => destruct x
  | |- waits _ => solve [by apply waits_silent | eauto]
  end.

Lemma waits_rounds n a b c d : waits (request_rounds signaling_http_url n a b c d).
Proof.
  induction n; simpl; [by apply waits_silent |]. unfold request_session, note_pending_approval, await_approval.
  repeat waits_step.
Qed.

Lemma within_await_session a b c : lock_within 1 (await_control_session (W := W) signaling_http_url rounds a b c).
Proof.
  unfold await_control_session. within_auto. intros p Hp Ht. unfold with_approval.
  destruct (waits_rounds rounds a0 a b c (mkApprovalWait "" (a1 + kApprovalWaitNs) p) Hp Ht) as [Hh Ht'].
  destruct (request_rounds _ _ _ _ _ _ _) as [[x | e] q]; simpl in *; [done |].
  rewrite <- Hh. assert (lock_within 1 (cancel_approval (W := W) signaling_http_url a0 a b (aw_approval_id q);;
                                   throw (A := json) e)) as H
    by (unfold cancel_approval; within_auto).
  by apply H; [rewrite Hh |].
Qed.
Hint Resolve within_await_session : lock_within.

Lemma within_validate a : lock_within 1 (validate_target (W := W) config signaling_http_url a).
Proof. unfold_within (@validate_target). Qed.
Hint Resolve within_validate : lock_within.
Lemma within_settle a b c d : lock_within 1 (settle_existing (W := W) config signaling_http_url a b c d).
Proof. unfold settle_existing, resume_session. within_auto. Qed.
Lemma within_open a b c : lock_within 1 (open_connections (W := W) config signaling_http_url a b c).
Proof. unfold_within (@open_connections). Qed.
Lemma within_install a b c : lock_within 5 (install_session (W := W) config a b c).
Proof. unfold_within (@install_session). Qed.
Hint Resolve within_settle within_open within_install : lock_within.
Lemma within_new_session a b c : lock_within 1 (new_session (W := W) config signaling_http_url rounds a b c).
Proof. unfold_within (@new_session). Qed.
Hint Resolve within_new_session : lock_within.
Lemma within_connect_locked a b : lock_within 1 (connect_locked (W := W) config signaling_http_url rounds a b).
Proof. unfold_within (@connect_locked). Qed.
Hint Resolve within_connect_locked : lock_within.
Lemma within_connect a : lock_within 0 (connect (W := W) config signaling_http_url rounds a).
Proof. unfold connect, try_authentication, forget_pending_approval. within_auto. Qed.
Lemma within_end a : lock_within 1 (end_session (W := W) config signaling_http_url a).
Proof. unfold end_session. apply within_bind; intros; [| apply within_authentication]; within_auto. Qed.
Lemma within_disconnect a : lock_within 1 (disconnect (W := W) config signaling_http_url a).
Proof. unfold disconnect. apply within_bind; intros; [| apply within_authentication]; within_auto. Qed.
Lemma within_cancel_export r : lock_within r (cancel_log_export (W := W)).
Proof. unfold_within (@cancel_log_export). Qed.
Hint Resolve within_cancel_export : lock_within.
Lemma within_shutdown : lock_within 5 (prepare_shutdown (W := W)).
Proof. unfold_within (@prepare_shutdown). Qed.
Lemma within_export_status r a : (r <= 11)%nat -> lock_within r (export_status (W := W) a).
Proof. intros. unfold export_status. within_auto. Qed.
Lemma within_export_zip r a : (r <= 11)%nat -> lock_within r (export_zip (W := W) a).
Proof. intros. unfold export_zip. within_auto. Qed.
Hint Resolve within_export_status within_export_zip | 2 : lock_within.
Lemma within_start_export a : lock_within 1 (start_log_export (W := W) config signaling_http_url a).
Proof.
  apply within_authentication. unfold export_running, replace_log_export. within_auto.
Qed.
Lemma within_log_export_status : lock_within 8 (log_export_status (W := W)).
Proof. unfold_within (@log_export_status). Qed.
Lemma within_log_export_zip : lock_within 8 (log_export_zip (W := W)).
Proof. unfold_within (@log_export_zip). Qed.
Hint Resolve within_start_export within_log_export_status within_log_export_zip : lock_within.
Lemma within_prepare_profile a : lock_within 8 (prepare_control_profile (W := W) a).
Proof. unfold_within (@prepare_control_profile). Qed.
Lemma within_status : lock_within 1 (status (W := W) config signaling_http_url).
Proof. unfold status, refresh_due_parts. within_auto. Qed.
Lemma within_event a : lock_within 8 (record_browser_event (W := W) config a).
Proof. unfold record_browser_event, append_driver_log_record. within_auto. Qed.
Hint Resolve within_connect within_end within_disconnect within_shutdown within_prepare_profile
  within_status within_event : lock_within.

Lemma within_handle request : lock_within 0 (driver_handle (W := W) config signaling_http_url burst rounds request).
Proof.
  unfold driver_handle, driver_routes, driver_get, driver_post, driver_control_limits, control_profile,
    log_sessions, gone, with_body, answer_json, send_media_capabilities, send_media_fallback,
    send_webrtc_answer, send_webrtc_ice_candidate. within_auto.
Qed.
Hint Resolve within_handle : lock_within.

(** ** Threads *)

(** A request that a thread of the HTTP server handles, the two threads of the runtime for
    as long as they run, and the shutdown.  Two more threads are outside the model, and hold no
    mutex when they take one: the worker of a log export takes the export's (session_logs.cpp:
    758-823), the writer of the control trace its own, the identity's and the event log's
    (server.cpp:109-170); the sender only tries the trace's. *)
Inductive driver_thread : Type :=
| ServesRequest (request : HttpRequest)
| SendsSamples (rounds : nat)
| RenewsLeases (rounds : nat)
| ShutsDown.

Definition run_thread (t : driver_thread) : M D unit :=
  match t with
  | ServesRequest request =>
      _ ← driver_handle config signaling_http_url burst rounds request; mret tt
  | SendsSamples rounds => native_control_sender_loop config rounds
  | RenewsLeases rounds => native_control_lease_loop config signaling_http_url rounds
  | ShutsDown =>
      prepare_shutdown;;
      _ ← disconnect config signaling_http_url "control_client_shutdown";
      cancel_log_export;;
      close_control_signaling_websocket;;
      close_signaling_websocket
  end.

(** Some thread, from some state, takes [l'] while it holds [l]. *)
Definition lock_edge (l l' : Lock) : Prop := exists t p e,
  drv_held p = [] /\ drv_trace p = [] /\ e ∈ drv_trace (run_thread t p).2 /\
  l ∈ ev_held e /\ ev_lock e = l'.

Lemma within_thread t : lock_within 0 (run_thread t).
Proof. destruct t; simpl; within_auto. Qed.

Lemma lock_edge_up l l' : lock_edge l l' -> (lock_rank l < lock_rank l')%nat.
Proof.
  intros (t & p & e & Hp & Ht & He & Hl & <-).
  destruct (within_thread t p) as [_ H]; [by rewrite Hp; constructor | by rewrite Ht; constructor |].
  rewrite Forall_forall in H. specialize (H e He). unfold upwards, below in H.
  rewrite Forall_forall in H. by apply H.
Qed.

(** C16. The threads of the driver console cannot wait for each other's locks in a circle.
    Whatever requests come - the export of logs included -, however the threads interleave and
    whatever the network, the clocks and the other threads do, the locks a thread takes while it
    holds others only lead upwards: the graph of such pairs, over all executions of all
    [driver_thread]s and over the fourteen mutexes of the runtime and the one of a log export,
    has no cycle. *)
Theorem lock_graph_acyclic : forall l, ~ tc lock_edge l l.
Proof.
  intros l H. enough (forall a b, tc lock_edge a b -> (lock_rank a < lock_rank b)%nat) as Hup
    by (specialize (Hup l l H); lia).
  clear. intros a b H. induction H as [a b H | a b c H _ IH]; apply lock_edge_up in H; lia.
Qed.
End operations.
