(* ===== verification/DriverSending.v ===== *)
(** DriverSending: what leaves the driver console as a control command.

    - [command_authorised]: the evidence an envelope needs; [sends_only_authorised];
    - [machine_keeps]: the calls on the machine other than the sending of a message.

    The locks a thread has taken, newest first, tie the envelope to the states it was made
    from and checked against ([taken_from], [session_confirmed]). *)
From S2P Require Export DriverConsole.

Section sending.
Context {J : JsonApi} {W : Type} {Http : HttpTransport W} {Clock : ClockApi W} {Sort : SampleSort}.
Context {Sockets : WebSocketApi W} {Threads : ThreadApi W}.
Notation D := (DriverProcess W).

(** ** The evidence *)

(** [x] was taken when [native_control_update_mutex_] and then [mutex_] were locked: an active
    sample of the intent there, and the session of a connected console with its next sequence
    number. *)
Definition taken_from (trace : list (LockEvent W)) (x : SampleContext) : Prop :=
  exists update session identity now,
  update ∈ trace /\ session ∈ trace /\ identity ∈ trace /\
  ev_lock identity = IdentityMutex /\ sx_identity x = dv_driver_id (ev_state identity) /\
  ev_lock update = UpdateMutex /\ ev_lock session = StateMutex /\ UpdateMutex ∈ ev_held session /\
  (sample now (dv_intent (ev_state update))).1 = Ok (sx_sample x) /\ smp_active (sx_sample x) = true /\
  let s := dv_session (ev_state session) in
  not_connected s = false /\
  sx_session x = ds_session_id s /\ sx_control_token x = ds_control_token s /\
  sx_driver_token x = ds_driver_token s /\ sx_vehicle x = ds_vehicle_id s /\
  sx_generation x = ds_control_session_generation s /\
  sx_control_token_expires_at_ms x = ds_control_token_expires_at_ms s /\
  sx_sequence x = u64 (ds_control_sequence s + 1).

(** The last lock taken was [mutex_], under the lock of the control connection, and the
    session, its generation and its token were still those of [x]. *)
Definition session_confirmed (trace : list (LockEvent W)) (x : SampleContext) : Prop := exists e earlier,
  trace = e :: earlier /\ ev_lock e = StateMutex /\ ControlSocketMutex ∈ ev_held e /\
  session_is (sx_session x) (sx_generation x) (dv_session (ev_state e)) = true /\
  ds_control_token (dv_session (ev_state e)) = sx_control_token x.

(** The command was made while the lease lasted, at the time it states. *)
Definition made_in_time (P : W -> Prop) (x : SampleContext) (command : ControlCommand) : Prop :=
  exists q now sent_at,
    P (drv_host q) /\ taken_from (drv_trace q) x /\
    (clock_now_ms q).1 = Ok now /\ now < sx_control_token_expires_at_ms x /\
    (clock_now_ms (clock_now_ms q).2).1 = Ok sent_at /\
    command = sample_command (sx_vehicle x) (sx_identity x) (sx_session x) (sx_control_token x)
                (sx_sequence x) sent_at (sx_sample x).

(** No acknowledgement is overdue, by the clock read last. *)
Definition not_stalled (p : D) : Prop := exists q now,
  steady_now_ms q = (Ok now, p) /\
  (cs_ack_window (dv_control (drv_state p)) = [] \/
   oldest_age_ms now (cs_ack_window (dv_control (drv_state p))) < kAcknowledgementStallMs).

Definition command_authorised (P : W -> Prop) (p : D) (envelope : json) : Prop := exists x command,
  taken_from (drv_trace p) x /\ made_in_time P x command /\ ControlCommand_validate command = Ok tt /\
  session_confirmed (drv_trace p) x /\ cs_session_id (dv_control (drv_state p)) = sx_session x /\
  not_stalled p /\ envelope = control_envelope (sx_sample x) command.

(** What is not a message keeps [P]. *)
Record machine_keeps (P : W -> Prop) : Prop := {
  mk_now w : P w -> P (clk_now_ms w).2;
  mk_steady w : P w -> P (clk_steady_ns w).2;
  mk_others s w : P w -> P (thr_others s w).2;
  mk_open timeout resolve url headers w : P w -> P (ws_open timeout resolve url headers w).2;
  mk_receive timeout h w : P w -> P (ws_receive_json timeout (h, w)).2.2;
  mk_close h w : P w -> P (ws_close (h, w)).2.2;
}.

(** ** The locks a computation takes *)

(** What taking a lock makes of a process the others have left as [q]. *)
Definition acquired (l : Lock) (q : D) : D :=
  q <| drv_held := l :: drv_held q |>
    <| drv_trace ::= cons (mkLockEvent l (drv_held q) (drv_state q)) |>.

(** The others keep their hands off what is locked. *)
Record interleaved (p q : D) : Prop := {
  il_held : drv_held q = drv_held p;
  il_trace : drv_trace q = drv_trace p;
  il_session : StateMutex ∈ drv_held p -> dv_session (drv_state q) = dv_session (drv_state p);
  il_control : ControlSocketMutex ∈ drv_held p -> dv_control (drv_state q) = dv_control (drv_state p);
}.

Lemma interleave_interleaved p : interleaved p (others_run p).2.
Proof.
  unfold others_run. destruct (thr_others _ _) as [s w]. split; simpl; try done; intros H;
    unfold shielded; simpl; by rewrite bool_decide_eq_true_2.
Qed.

Context (P : W -> Prop) (Keeps : machine_keeps P).
Notation I := (fun p : D => P (drv_host p)).

Lemma hoare_lock {A} l (m : M D A) Pre Q (E : D -> Prop) :
  (forall p, Pre p -> I p) ->
  (forall p q, Pre p -> interleaved p q -> I q ->
     hoare (fun s => s = acquired l q) m (fun a s => Q a (s <| drv_held := drv_held q |>))
       (fun s => E (s <| drv_held := drv_held q |>))) ->
  hoare Pre (lock_guard l m) Q E.
Proof.
  intros HI Hm p Hp. pose proof (interleave_interleaved p) as Hil.
  assert (Hw : I (others_run p).2).
  { pose proof (mk_others P Keeps (drv_state p) (drv_host p) (HI p Hp)) as H.
    unfold others_run. by destruct (thr_others _ _). }
  unfold lock_guard, mbind, M_bind.
  assert (E0 : (others_run p).1 = Ok tt) by (unfold others_run; by destruct (thr_others _ _)).
  destruct (others_run p) as [r q] eqn:Eq. simpl in *. subst r.
  specialize (Hm p q Hp Hil Hw (acquired l q) eq_refl). unfold holding.
  change (q <| drv_held := l :: drv_held q |>
            <| drv_trace ::= cons (mkLockEvent l (drv_held q) (drv_state q)) |>) with (acquired l q).
  by destruct (m (acquired l q)) as [[a | e] s].
Qed.

(** ** Reading clocks *)
Lemma steady_reads p : I p -> exists t w, steady_now_ms p = (Ok t, p <| drv_host := w |>) /\ P w.
Proof.
  intros Hp. pose proof (mk_steady P Keeps (drv_host p) Hp) as Hw.
  unfold steady_now_ms, on_machine, zoom, steady_now_ns, mbind, M_bind.
  destruct (clk_steady_ns (drv_host p)) as [t w]. by exists (t ÷ 1000000), w.
Qed.

Lemma clock_reads p : I p -> exists now q, clock_now_ms p = (Ok now, q) /\ I q /\ interleaved p q.
Proof.
  intros Hp. pose proof (mk_others P Keeps (drv_state p) (drv_host p) Hp) as Hw.
  pose proof (interleave_interleaved p) as Hil. unfold clock_now_ms.
  assert (E : others_run p = (Ok tt, (others_run p).2))
    by (unfold others_run; by destruct (thr_others _ _)).
  assert (Hq : I (others_run p).2) by (unfold others_run; by destruct (thr_others _ _)).
  rewrite (bind_run _ _ _ _ _ E). destruct (others_run p) as [r q]. simpl in *. clear E.
  rewrite (bind_run this _ q (drv_state q) q eq_refl).
  assert (exists now w, synchronized_now_ms (dv_clock (drv_state q)) (drv_host q) = (Ok now, w) /\ P w)
    as (now & w & E & Hw').
  { unfold synchronized_now_ms, since_anchor, system_now_ms, steady_now_ns, mbind, M_bind.
    pose proof (mk_now P Keeps _ Hq). pose proof (mk_steady P Keeps _ Hq). destruct (negb _).
    - destruct (clk_now_ms (drv_host q)) as [t w]. by exists t, w.
    - destruct (clk_steady_ns (drv_host q)) as [t w]. eexists _, w. split; [reflexivity | done]. }
  unfold on_machine, zoom. rewrite E. eexists _, _. split; [reflexivity | split; [done |]].
  destruct Hil. by split.
Qed.

(** ** The sample *)
Lemma driver_id_reads p : I p -> exists identity q e,
  driver_id p = (Ok identity, q) /\ I q /\ drv_held q = drv_held p /\ drv_trace q = e :: drv_trace p /\
  ev_lock e = IdentityMutex /\ identity = dv_driver_id (ev_state e) /\
  (StateMutex ∈ drv_held p -> dv_session (drv_state q) = dv_session (drv_state p)).
Proof.
  intros Hp. pose proof (mk_others P Keeps (drv_state p) (drv_host p) Hp) as Hw.
  pose proof (interleave_interleaved p) as [Hh Ht Hs _]. unfold driver_id, lock_guard.
  assert (E : others_run p = (Ok tt, (others_run p).2))
    by (unfold others_run; by destruct (thr_others _ _)).
  assert (Hq : I (others_run p).2) by (unfold others_run; by destruct (thr_others _ _)).
  rewrite (bind_run _ _ _ _ _ E). destruct (others_run p) as [r q]. simpl in *. clear E.
  unfold holding. simpl. eexists _, _, _. split; [reflexivity |]. simpl.
  by rewrite Ht.
Qed.

Lemma take_spec :
  hoare I take_control_sample
    (fun o p => I p /\ match o with Some x => taken_from (drv_trace p) x | None => True end) I.
Proof.
  unfold take_control_sample. apply hoare_lock; [done |]. intros p q _ _ Hq s ->.
  set (e0 := mkLockEvent UpdateMutex (drv_held q) (drv_state q)).
  destruct (steady_reads (acquired UpdateMutex q) Hq) as (now & w & E & Hw).
  rewrite (bind_run _ _ _ _ _ E). clear E.
  unfold on_intent at 1, zoom, mbind at 1, M_bind at 1. simpl.
  destruct (sample now (dv_intent (drv_state q))) as [[smp | e] store] eqn:Es; [| done].
  destruct (negb (smp_active smp)) eqn:Ea; [done |]. apply negb_false_iff in Ea.
  set (p1 := (acquired UpdateMutex q) <| drv_host := w |>
               <| drv_state ::= fun s => s <| dv_intent := store |> |>).
  revert Hw. assert (H1 : drv_trace p1 = e0 :: drv_trace q) by done. assert (H2 : drv_held p1 = UpdateMutex :: drv_held q) by done.
  change w with (drv_host p1). generalize p1 H1 H2. clear p1 H1 H2. intros p1 Ht1 Hh1 Hp1.
  apply (hoare_lock StateMutex _ (fun p => p = p1)
    (fun o p => P (drv_host p) /\ match o with Some x => taken_from (drv_trace p) x | None => True end)
    (fun p => P (drv_host p))); [by intros ? -> | | done].
  clear Hq. intros ? q1 -> [Hh Ht _ _] Hq1 s ->.
  rewrite (bind_run this _ _ _ _ eq_refl). simpl.
  destruct (not_connected (dv_session (drv_state q1))) eqn:Ec; [done |].
  destruct (driver_id_reads (acquired StateMutex q1) Hq1) as (identity & q2 & e2 & E & Hq2 & Hh2 & Ht2 & Hl2 & Hi & Hs2).
  rewrite (bind_run _ _ _ _ _ E). clear E. specialize (Hs2 (list_elem_of_here _ _)).
  rewrite (bind_run _ _ _ _ _ (eq_refl : session_update _ q2 = (Ok tt, _))).
  rewrite (bind_run this _ _ _ _ eq_refl). simpl. split; [done |].
  eexists e0, (mkLockEvent StateMutex (drv_held q1) (drv_state q1)), e2, now.
  rewrite Ht2. simpl. rewrite Ht, Ht1, Hh, Hh1, Hs2. simpl. rewrite Es. split_and!; try done; set_solver.
Qed.

Lemma taken_from_grows t' t x : taken_from t x -> taken_from (t' ++ t) x.
Proof.
  intros (u & s & i & now & Hu & Hs & Hi & H). exists u, s, i, now.
  split_and!; try apply elem_of_app; auto; apply H.
Qed.

Lemma prepare_spec x :
  hoare (fun p => I p /\ taken_from (drv_trace p) x) (prepare_command x)
    (fun command p => I p /\ taken_from (drv_trace p) x /\ made_in_time P x command /\
                      ControlCommand_validate command = Ok tt) I.
Proof.
  intros p [Hp Ht]. unfold prepare_command.
  destruct (clock_reads p Hp) as (now & q & E1 & Hq & Hil1). rewrite (bind_run _ _ _ _ _ E1).
  destruct (Z.leb_spec (sx_control_token_expires_at_ms x) now) as [|Hlease]; [done |].
  rewrite (bind_run _ _ q tt q eq_refl).
  destruct (clock_reads q Hq) as (sent_at & q2 & E2 & Hq2 & Hil2). rewrite (bind_run _ _ _ _ _ E2).
  cbv zeta. destruct (ControlCommand_validate _) as [[] | e] eqn:Ev; simpl; [| done].
  rewrite (il_trace _ _ Hil2), (il_trace _ _ Hil1). split_and!; try done.
  exists p, now, sent_at. rewrite E1. simpl. by rewrite E2.
Qed.

(** ** What leaves the evidence in place *)

(** [m] keeps [P] and takes locks, perhaps. *)
Definition grows {A} (m : M D A) : Prop := forall p, I p ->
  I (m p).2 /\ exists t, drv_trace (m p).2 = t ++ drv_trace p.

(** [m] keeps [P], takes no lock and leaves the session of a locked connection. *)
Definition stays {A} (m : M D A) : Prop := forall p, I p ->
  I (m p).2 /\ drv_held (m p).2 = drv_held p /\ drv_trace (m p).2 = drv_trace p /\
  (ControlSocketMutex ∈ drv_held p ->
   cs_session_id (dv_control (drv_state (m p).2)) = cs_session_id (dv_control (drv_state p))).

Lemma stays_bind {A B} (m : M D A) (f : A -> M D B) : stays m -> (forall a, stays (f a)) -> stays (m ≫= f).
Proof.
  intros Hm Hf p Hp. destruct (Hm p Hp) as (H1 & H2 & H3 & H4). unfold mbind, M_bind.
  destruct (m p) as [[a | e] q]; simpl in *; [| done].
  destruct (Hf a q H1) as (H5 & H6 & H7 & H8). rewrite H6, H7, H2. split_and!; try done.
  intros Hin. rewrite H8, H4; [done | done | by rewrite H2].
Qed.

Lemma stays_same {A} (m : M D A) :
  (forall p, drv_host (m p).2 = drv_host p /\ drv_held (m p).2 = drv_held p /\
     drv_trace (m p).2 = drv_trace p /\
     cs_session_id (dv_control (drv_state (m p).2)) = cs_session_id (dv_control (drv_state p))) -> stays m.
Proof. intros Hm p Hp. destruct (Hm p) as (-> & ? & ? & ?). done. Qed.

Lemma stays_when b (m : M D unit) : stays m -> stays (when b m).
Proof. intros Hm. destruct b; [done |]. by apply stays_same. Qed.

Lemma stays_steady : stays steady_now_ms.
Proof. intros p Hp. destruct (steady_reads p Hp) as (t & w & -> & Hw). done. Qed.

Lemma stays_clock : stays clock_now_ms.
Proof.
  intros p Hp. destruct (clock_reads p Hp) as (t & q & -> & Hq & [? ? _ Hc]). split_and!; try done.
  intros H. simpl. by rewrite Hc.
Qed.

Lemma stays_receive timeout : stays (control_ws_call (ws_receive_json timeout)).
Proof.
  intros p Hp. unfold control_ws_call. rewrite (bind_run this _ p _ p eq_refl).
  destruct (cs_websocket _) as [h |]; [| done].
  pose proof (mk_receive P Keeps timeout h _ Hp) as Hw. unfold on_control_ws.
  by destruct (ws_receive_json timeout (h, drv_host p)) as [r [h' w]].
Qed.

Lemma stays_window {A} (m : M NativeControlAcknowledgementWindow A) : stays (on_window m).
Proof. apply stays_same. intros p. unfold on_window, zoom. by destruct (m _). Qed.

Lemma stays_drain rounds sequence : stays (drain_acknowledgements rounds sequence).
Proof.
  induction rounds as [| rounds IH]; simpl; [by apply stays_same |].
  apply stays_bind; [apply stays_receive |]. intros [message | |]; [| by apply stays_same..].
  apply stays_bind; [| done]. unfold handle_acknowledgement.
  repeat first [ apply stays_clock | apply stays_window | apply stays_when | by apply stays_same
               | apply stays_bind; [| intros ?] ].
Qed.

Lemma grows_stays {A} (m : M D A) : stays m -> grows m.
Proof. intros Hm p Hp. destruct (Hm p Hp) as (? & _ & ? & _). split; [done |]. by exists []. Qed.

Lemma grows_bind {A B} (m : M D A) (f : A -> M D B) : grows m -> (forall a, grows (f a)) -> grows (m ≫= f).
Proof.
  intros Hm Hf p Hp. destruct (Hm p Hp) as (H1 & t & H2). unfold mbind, M_bind.
  destruct (m p) as [[a | e] q]; simpl in *; [| by eauto].
  destruct (Hf a q H1) as (H3 & t' & H4). split; [done |]. exists (t' ++ t). by rewrite H4, H2, app_assoc.
Qed.

Lemma grows_lock {A} l (m : M D A) : grows m -> grows (lock_guard l m).
Proof.
  intros Hm p Hp. set (R := fun s => I s /\ exists t, drv_trace s = t ++ drv_trace p).
  assert (hoare (fun s => s = p) (lock_guard l m) (fun _ => R) R) as H.
  { apply hoare_lock; [by intros ? -> |]. intros ? q -> Hil Hq s ->.
    destruct (Hm (acquired l q) Hq) as (H1 & t & H2). destruct (m (acquired l q)) as [[a | e] s];
      (split; [done |]; exists (t ++ [mkLockEvent l (drv_held q) (drv_state q)]); simpl in *;
       by rewrite H2, <- app_assoc, (il_trace _ _ Hil)). }
  specialize (H p eq_refl). by destruct (lock_guard l m p) as [[a | e] s].
Qed.

Lemma hoare_grows {A} (m : M D A) : grows m -> hoare I m (fun _ => I) I.
Proof. intros Hm p Hp. destruct (Hm p Hp) as [H _]. by destruct (m p) as [[a | e] q]. Qed.

Lemma grows_when b (m : M D unit) : grows m -> grows (when b m).
Proof. intros Hm. destruct b; [done |]. by apply grows_stays, stays_same. Qed.

Lemma grows_close : grows close_control_ws.
Proof.
  intros p Hp. unfold close_control_ws. rewrite (bind_run this _ p _ p eq_refl).
  destruct (cs_websocket _) as [h |]; [| split; [done | by exists []]].
  pose proof (mk_close P Keeps h _ Hp) as Hw. unfold on_control_ws.
  destruct (ws_close (h, drv_host p)) as [r [h' w]]. split; [done | by exists []].
Qed.

Lemma grows_open timeout resolve url headers : grows (on_machine (ws_open timeout resolve url headers)).
Proof.
  intros p Hp. pose proof (mk_open P Keeps timeout resolve url headers _ Hp) as Hw.
  unfold on_machine, zoom. destruct (ws_open _ _ _ _ _) as [r w]. split; [done | by exists []].
Qed.

Lemma grows_update f : grows (this_update f).
Proof. intros p Hp. split; [done | by exists []]. Qed.

Lemma grows_driver_id : grows driver_id.
Proof. apply grows_lock. intros p Hp. split; [done | by exists []]. Qed.

Ltac grows_step :=
  match goal with
  | |- forall _, _ => intro
  | |- grows (mbind _ _) => apply grows_bind
  | |- grows (lock_guard _ _) => apply grows_lock
  | |- grows driver_id => apply grows_driver_id
  | |- grows close_control_ws => apply grows_close
  | |- grows steady_now_ms => apply grows_stays, stays_steady
  | |- grows clock_now_ms => apply grows_stays, stays_clock
  | |- grows (on_machine (ws_open _ _ _ _)) => apply grows_open
  | |- grows (if ?b then _ else _) => destruct b
  | |- grows (match ?x with _ => _ end) => destruct x
  | |- grows _ => first [apply grows_update | solve [apply grows_stays; by apply stays_same]]
  end.

Context (config : DriverConfig).

Lemma grows_connect a b c : grows (connect_control_signaling_websocket config a b c).
Proof. unfold connect_control_signaling_websocket, may_reconnect. repeat grows_step. Qed.

Lemma grows_failure a b c : grows (note_native_control_failure a b c).
Proof.
  unfold note_native_control_failure. repeat grows_step.
Qed.

(** ** The exchange *)

(** The only message a sample sends is one with the evidence. *)
Definition sends_keep : Prop := forall p h envelope,
  I p -> cs_websocket (dv_control (drv_state p)) = Some h -> command_authorised P p envelope ->
  P (ws_send_json envelope 20 (h, drv_host p)).2.2.

Lemma current_spec x :
  hoare (fun p => I p /\ taken_from (drv_trace p) x /\ ControlSocketMutex ∈ drv_held p) (sample_is_current x)
    (fun current p => I p /\ taken_from (drv_trace p) x /\ ControlSocketMutex ∈ drv_held p /\
                      (current = true -> session_confirmed (drv_trace p) x)) I.
Proof.
  apply hoare_lock; [by intros p [] |]. intros p q (Hp & Ht & Hin) [Hh Htr _ _] Hq s ->.
  rewrite (bind_run this _ _ _ _ eq_refl). simpl. rewrite Htr, Hh. split_and!; try done.
  - apply (taken_from_grows [_] _ _ Ht).
  - intros H. apply andb_true_iff in H as [H1 H2]. apply String.eqb_eq in H2.
    eexists _, _. split; [reflexivity |]. simpl. done.
Qed.

Lemma stall_spec (R : D -> Prop) :
  (forall p w, R p -> P w -> R (p <| drv_host := w |>)) -> (forall p, R p -> I p) ->
  hoare R check_stall (fun _ p => R p /\ not_stalled p) I.
Proof.
  intros HR HI p Hp. unfold check_stall.
  destruct (steady_reads p (HI p Hp)) as (now & w & E & Hw). rewrite (bind_run _ _ _ _ _ E).
  rewrite (bind_run this _ _ _ _ eq_refl). cbv zeta. simpl.
  destruct (_ && _) eqn:Es; simpl; [done |]. split; [by apply HR |]. exists p, now. split; [done |]. simpl.
  destruct (cs_ack_window _) as [| e window] eqn:Ew; [by left | right].
  apply andb_false_iff in Es as [Es | Es]; [by apply Nat.ltb_ge in Es; simpl in Es; lia |].
  by apply Z.leb_gt in Es.
Qed.

(** What is known of the sample while its command is on the way. *)
Definition sample_ready (x : SampleContext) (p : D) : Prop :=
  I p /\ taken_from (drv_trace p) x /\ ControlSocketMutex ∈ drv_held p /\ session_confirmed (drv_trace p) x /\
  cs_session_id (dv_control (drv_state p)) = sx_session x.

Lemma ready_drain x rounds sequence :
  hoare (sample_ready x) (drain_acknowledgements rounds sequence) (fun _ => sample_ready x) I.
Proof.
  intros p (Hp & Ht & Hin & Hc & Hs). destruct (stays_drain rounds sequence p Hp) as (H1 & H2 & H3 & H4).
  destruct (drain_acknowledgements rounds sequence p) as [[a | e] q]; simpl in *; [| done].
  unfold sample_ready. rewrite H2, H3, H4 by done. done.
Qed.

Lemma control_ws_serves_session session_id (c : ControlSocket W) :
  control_ws_serves session_id c = true -> cs_session_id c = session_id.
Proof.
  unfold control_ws_serves. destruct (cs_websocket c); [| done].
  intros H. apply andb_true_iff in H as [_ H]. by apply String.eqb_eq.
Qed.

Lemma exchange_spec x command :
  sends_keep -> made_in_time P x command -> ControlCommand_validate command = Ok tt ->
  hoare (fun p => I p /\ taken_from (drv_trace p) x)
    (exchange_control x (control_envelope (sx_sample x) command)) (fun _ => I) I.
Proof.
  intros Hsend Hm Hv. unfold exchange_control. apply hoare_lock; [by intros p [] |].
  intros p q [Hp Ht] Hil Hq. apply (hoare_pre _ (fun s => I s /\ taken_from (drv_trace s) x /\
                                                         ControlSocketMutex ∈ drv_held s)).
  { intros s ->. split_and!; [done | | simpl; set_solver].
    simpl. rewrite (il_trace _ _ Hil). apply (taken_from_grows [_] _ _ Ht). }
  eapply hoare_bind; [apply current_spec |]. intros [|]; simpl; [| by apply hoare_ret; intros ? []].
  intros s (Hs & Hts & Hin & Hc). specialize (Hc eq_refl). rewrite (bind_run this _ _ _ _ eq_refl).
  destruct (control_ws_serves _ _) eqn:Ew; [| done]. apply control_ws_serves_session in Ew.
  rewrite (bind_run _ _ s tt s eq_refl). clear p q Hp Ht Hil Hq. revert s Hs Hts Hin Hc Ew.
  enough (hoare (sample_ready x)
    (drain_acknowledgements 16 (sx_sequence x);; check_stall;;
     control_ws_call (ws_send_json (control_envelope (sx_sample x) command) 20);;
     sent_monotonic_ms ← steady_now_ms;
     on_window (note_sent (sx_sequence x) sent_monotonic_ms);; mret (Some sent_monotonic_ms))
    (fun _ => I) I) as H.
  { intros s Hs Hts Hin Hc Ew. apply H. by split_and!. }
  eapply hoare_bind; [apply ready_drain | intros []].
  eapply hoare_bind.
  { apply (stall_spec (sample_ready x)); [| by intros ? []]. by intros ? ? (_ & H) Hw. }
  intros [] p [(Hp & Ht & Hin & Hc & Hs) Hstall]. unfold control_ws_call.
  assert (Hauth : command_authorised P p (control_envelope (sx_sample x) command))
    by (exists x, command; by split_and!).
  assert (Hafter : grows (sent_monotonic_ms ← steady_now_ms;
      on_window (note_sent (sx_sequence x) sent_monotonic_ms);; mret (Some sent_monotonic_ms))).
  { apply grows_bind; [apply grows_stays, stays_steady | intros t].
    apply grows_bind; [apply grows_stays, stays_window | intros _]. by apply grows_stays, stays_same. }
  assert (Hcall : forall r p', (s ← this; match cs_websocket (dv_control s) with
      | Some h => on_control_ws h (ws_send_json (control_envelope (sx_sample x) command) 20)
      | None => throw (RuntimeError "native control signaling websocket is not connected") end) p = (r, p') -> I p').
  { intros r p'. rewrite (bind_run this _ p _ p eq_refl).
    destruct (cs_websocket (dv_control (drv_state p))) as [h |] eqn:Eh; [| by intros [= _ <-]].
    pose proof (Hsend p h _ Hp Eh Hauth) as Hw. unfold on_control_ws.
    destruct (ws_send_json _ 20 (h, drv_host p)) as [? [h' w]]. by intros [= _ <-]. }
  unfold mbind at 1, M_bind at 1.
  destruct ((s ← this; _) p) as [[a | e] p'] eqn:E; [| by eapply Hcall].
  destruct (Hafter p' (Hcall _ _ eq_refl)) as [H _].
  by destruct ((sent_monotonic_ms ← steady_now_ms; _) p') as [[? | ?] ?].
Qed.

Lemma deliver_spec x :
  sends_keep -> hoare (fun p => I p /\ taken_from (drv_trace p) x) (deliver_sample config x) (fun _ => I) I.
Proof.
  intros Hsend. unfold deliver_sample. eapply hoare_bind; [apply prepare_spec |]. intros command.
  intros p (Hp & Ht & Hm & Hv). revert p Hp Ht.
  enough (hoare (fun p => I p /\ taken_from (drv_trace p) x)
    (connected ← connect_control_signaling_websocket config (sx_session x) (sx_driver_token x) (sx_generation x);
     if negb connected then mret false
     else
       sent ← exchange_control x (control_envelope (sx_sample x) command);
       match sent with
       | None => mret false
       | Some sent_monotonic_ms =>
           sent_at_ms ← clock_now_ms;
           status_update (count_sent (sx_sequence x) sent_at_ms sent_monotonic_ms);;
           lock_guard StatusMutex (status_update (fun n => n <| ns_last_error := ""%string |>));;
           mret true
       end) (fun _ => I) I) as H by (intros p Hp Ht; by apply H).
  apply (hoare_bind _ (fun _ p => I p /\ taken_from (drv_trace p) x)).
  { intros p [Hp Ht]. destruct (grows_connect (sx_session x) (sx_driver_token x) (sx_generation x) p Hp)
      as (H1 & t & H2). destruct (connect_control_signaling_websocket _ _ _ _ p) as [[a | e] q]; [| done].
    simpl in *. split; [done |]. rewrite H2. by apply taken_from_grows. }
  intros [|]; simpl; [| by apply hoare_ret; intros ? []].
  eapply hoare_bind; [by apply exchange_spec |]. intros [sent |]; [| by apply hoare_ret].
  apply hoare_grows. repeat grows_step.
Qed.

(** C15. Every command the console sends is authorised.  Whatever the other threads, the network and
    the clocks do, whenever the periodic sender sends a message on the control connection, it is
    the envelope of a valid command made from an active sample of the browser's intent, while
    the lease of the control token lasted, with the session, token, generation and next sequence
    number the console had then; the last thing checked before is that session, generation and
    token are still the same; the connection was opened for that session; and no acknowledgement
    is overdue by 500 ms.  Said with any property [P] of the machine that the other calls keep:
    it holds after the sample if every authorised sending keeps it. *)
Theorem sends_only_authorised (p : D) :
  sends_keep -> P (drv_host p) -> P (drv_host (send_native_control_sample config p).2).
Proof.
  intros Hsend. revert p. apply (proj1 (hoare_state I _ I)). unfold send_native_control_sample.
  eapply hoare_bind; [apply take_spec |]. intros [x |]; [| by apply hoare_ret; intros ? []].
  intros q Hq. pose proof (deliver_spec x Hsend q Hq) as H. unfold try_catch_std, try_catch.
  destruct (deliver_sample config x q) as [[b | e] q']; [done |].
  destruct (is_std_exception e); [| done].
  revert q' H. apply hoare_grows, grows_bind; [apply grows_failure | intros _; by apply grows_stays, stays_same].
Qed.
End sending.
