(* ===== verification/DriverDemo.v ===== *)
(** DriverDemo: a driver console on a small machine, for concrete inputs.

    - [Bench]: a clock, what the network has answered and will, what was sent; its instances
      of the machine's interfaces, with nobody else interfering;
    - [bench_console]: a console in a session, its browser driving. *)
From S2P Require Export DriverConsole TimeSyncProperties.

Local Notation value := JsonModel.value.

(** Answers to requests and messages to come, newest first; the clock stands still. *)
Record Bench := mkBench {
  bn_now_ms : Z;
  bn_answers : list (string + HttpResponse);
  bn_inbox : list value;
  bn_requests : list HttpExchange;
  bn_sent : list value;
}.

#[global] Instance eta_Bench : Settable Bench :=
  fields! mkBench <bn_now_ms; bn_answers; bn_inbox; bn_requests; bn_sent>.

Record BenchSocket := mkBenchSocket { bs_connected : bool; bs_url : string }.

#[global] Instance bench_http : HttpTransport Bench := {|
  http_perform exchange w :=
    match bn_answers w with
    | [] => (inl "no answer"%string, w <| bn_requests ::= cons exchange |>)
    | answer :: answers => (answer, w <| bn_answers := answers |> <| bn_requests ::= cons exchange |>)
    end;
  curl_escape value := Some value;
|}.

#[global] Instance bench_clock : ClockApi Bench := {|
  clk_now_ms w := (bn_now_ms w, w);
  clk_steady_ns w := (bn_now_ms w * 1000000, w);
|}.

#[global] Instance bench_sockets : WebSocketApi (J := JsonModel.api) Bench := {|
  ws := BenchSocket;
  ws_open _ _ url _ := fun w => (Ok (mkBenchSocket true url), w);
  ws_connected := bs_connected;
  ws_url := bs_url;
  ws_send_json message _ := fun '(h, w) => (Ok tt, (h, w <| bn_sent ::= cons message |>));
  ws_receive_json _ := fun '(h, w) =>
    match bn_inbox w with
    | [] => (Ok ReceivedTimeout, (h, w))
    | message :: inbox => (Ok (ReceivedMessage message), (h, w <| bn_inbox := inbox |>))
    end;
  ws_close := fun '(h, w) => (Ok tt, (mkBenchSocket false (bs_url h), w));
|}.

#[global] Instance bench_threads : ThreadApi (J := JsonModel.api) Bench := {|
  thr_others s w := (s, w);
  thr_try_lock w := (true, w);
|}.

Definition bench_limits : DriverControlLimitsConfig :=
  mkDriverControlLimitsConfig (d_lit 20 0) (d_lit 320 0) (d_lit 100 0) (d_lit 30 0) (d_lit 100 0) (d_lit 30 0).

Definition bench_config : DriverConfig :=
  mkDriverConfig "driver-1" "ws://127.0.0.1:8765" [] "" 2048 3 20 200 25 30000 3 bench_limits.

(** Straight on in D with some throttle. *)
Definition bench_intent : NativeControlIntent :=
  mkNativeControlIntent "page-1" 8 "D" d_zero (d_lit 25 2) d_zero false.

Definition bench_session : DriverSession JsonModel.api :=
  (DriverSession_new bench_config "vehicle-1" "secret")
    <| ds_driver_token := "driver-token"%string |> <| ds_driver_token_expires_at_ms := 900000 |>
    <| ds_session_id := "session-1"%string |> <| ds_control_token := "control-token"%string |>
    <| ds_control_token_expires_at_ms := 60000 |> <| ds_control_token_renew_at_ms := 20000 |>
    <| ds_control_session_generation := 2 |> <| ds_control_sequence := 6 |>.

Definition bench_state (received_at_ms : Z) (window : list (Z * Z)) : DriverState Bench :=
  mkDriverState "driver-1" bench_session (mkControlSocket None "" 0 window 0 100)
    (mkSignalingSocket None "" [] 0 0)
    (mkNativeControlIntentStore 200 (Some bench_intent) received_at_ms false false)
    SynchronizedClock_new (mkNativeControlStatus false 0 0 0 0 0 0 0 0 0 0 "") 0 false None "".

Definition bench_machine (now_ms : Z) : Bench := mkBench now_ms [] [] [] [].

(** The browser's input came at 9,900 ms; it is [now_ms]. *)
Definition bench_console (now_ms : Z) : DriverProcess Bench :=
  mkDriverProcess (bench_state 9900 []) (bench_machine now_ms) [] [].

(** The text of the members [path] names. *)
Fixpoint member_text (path : list string) (v : value) : result value :=
  match path with
  | [] => Ok v
  | k :: path => field ← j_at (JsonApi := JsonModel.api) k v; member_text path field
  end.
