(* ===== verification/DriverProperties.v ===== *)
(** DriverProperties: more properties of the driver console, and witnesses at concrete inputs.

    - [sampled_command_read_back]: what the vehicle reads in an envelope of a sample;
    - [prepared_profile_read_back]: what it reads in a prepared profile;
    - [failure_withdraws_control]: the console after a failure of its sender;
    - [deliveries_appended_once]: the signaling messages of a delivery and of its repetition;
    - [time_sync_gate_opens]: the check of the clock that the second attempt passes. *)
From S2P Require Export DriverSending DriverDemo.

Local Notation value := JsonModel.value.

(** ** Commands *)
Lemma control_payload_has {J : JsonApi} {L : JsonLaws} smp c : has_command (control_payload smp c) c.
Proof.
  apply has_command_set_all; [| apply has_command_to_json].
  intros k Hk. revert k Hk. apply Forall_forall. by apply (bool_decide_unpack _).
Qed.

(** What a sample shows of the intent in a sound store. *)
Lemma sample_is_safe t s smp :
  store_ok s -> 0 <= t -> (sample t s).1 = Ok smp -> smp_requires_fresh_input smp = true ->
  no_actuation (smp_intent smp) = true.
Proof.
  intros Hs Ht E Hr. destruct (sample_view t s) as [_ H]. specialize (H Ht). rewrite E in H.
  destruct (st_latest s) as [l |] eqn:El.
  - destruct H as (smp' & [= <-] & _ & Hreq & _ & Hi). rewrite <- Hreq, Hr in Hi. simpl in Hi.
    destruct (int_estop l) eqn:Ee; simpl in Hi; [| exact Hi].
    destruct (ok_estop s Hs l El) as [_ Hno]. specialize (Hno Ee). rewrite Hi. unfold no_actuation in *. exact Hno.
  - injection H as ->. by vm_compute.
Qed.

(** An update that is accepted as neutral input, which a store that requires fresh input waits
    for. *)
Definition confirms_neutral (op : intent_op) (s : NativeControlIntentStore) : bool :=
  match op with
  | OpUpdate i t => is_neutral i && match (update i t s).1 with Ok u => upd_accepted u | Throw _ => false end
  | _ => false
  end.

Fixpoint unconfirmed (ops : list intent_op) (s : NativeControlIntentStore) : bool :=
  match ops with
  | [] => true
  | op :: ops => negb (confirms_neutral op s) && unconfirmed ops (intent_step op s)
  end.

Lemma unconfirmed_step_required op s :
  confirms_neutral op s = false -> st_requires_fresh_input s = true ->
  st_requires_fresh_input (intent_step op s) = true.
Proof.
  intros Hop Hr. destruct op as [i t | t | |]; simpl; try done.
  - pose proof (update_view i t s) as [_ H]. simpl in Hop.
    destruct (update i t s).1 as [u | e]; [| by rewrite H].
    destruct (upd_accepted u).
    + destruct H as (_ & _ & _ & _ & _ & _ & -> & _). rewrite andb_true_r in Hop. by rewrite Hr, Hop.
    + destruct H as (_ & _ & _ & ->). by rewrite Hr.
  - destruct (sample_view t s) as [-> _]. simpl. by rewrite Hr.
Qed.

(** Until neutral input is confirmed, a store that requires it shows no motion. *)
Lemma unconfirmed_sample ops t : forall s,
  store_ok s -> st_requires_fresh_input s = true -> unconfirmed ops s = true -> 0 <= t ->
  exists smp, (sample t (foldl (flip intent_step) s ops)).1 = Ok smp /\
    smp_requires_fresh_input smp = true /\ no_actuation (smp_intent smp) = true.
Proof.
  induction ops as [| op ops IH]; intros s Hs Hr Hu Ht; simpl in *.
  - destruct (sample_view t s) as [_ V]. specialize (V Ht).
    destruct (st_latest s) as [l |] eqn:El; [| by eexists].
    destruct V as (smp & E & _ & Hq & _). rewrite Hr in Hq. exists smp. split_and!; [done | done |].
    by apply (sample_no_actuation s t smp); [| | left].
  - apply andb_true_iff in Hu as [Hop%negb_true_iff Hu].
    apply IH; [by apply intent_step_store_ok | by apply unconfirmed_step_required | done | done].
Qed.

(** C25. The vehicle reads in the envelope of a sample the command the console made, and nothing in
    it asks for motion that the driver has not confirmed.  From a sound intent store, the
    metadata of the envelope and the command in its payload read back as they were; the
    operator counts as active only for fresh input that no emergency stop overrides, and a
    sample that needs fresh input carries no steering, throttle or brake. *)
Theorem sampled_command_read_back {J : JsonApi} {L : JsonLaws} (store : NativeControlIntentStore) (t : Z)
    (smp : NativeControlIntentSample) (vehicle identity session token : string) (sequence sent_at : Z) :
  let command := sample_command vehicle identity session token sequence sent_at smp in
  store_ok store -> 0 <= t -> (sample t store).1 = Ok smp ->
  is_u64 sequence = true -> is_i64 sent_at = true -> ControlCommand_validate command = Ok tt ->
  ProtocolMetadata_from_json (control_envelope smp command) = Ok (ControlCommand_metadata command) /\
  (exists payload, j_at "payload" (control_envelope smp command) = Ok payload /\
     ControlCommand_from_json payload = Ok command) /\
  (cmd_operator_active command = true ->
   smp_fresh smp = true /\ smp_requires_fresh_input smp = false /\ cmd_estop command = false) /\
  (smp_requires_fresh_input smp = true ->
   cmd_steering command = d_zero /\ cmd_throttle command = d_zero /\ cmd_brake command = d_zero).
Proof.
  intros command Hs Ht E Hseq Hsent Hv.
  assert (Htyped : metadata_typed (ControlCommand_metadata command) = true)
    by (unfold metadata_typed; simpl; by rewrite Hseq, Hsent).
  assert (Hobj : is_object (ProtocolMetadata_to_json (ControlCommand_metadata command)) = true)
    by apply is_object_object.
  split_and!.
  - apply ProtocolMetadata_from_json_has; [| done | by apply result_seq_ok in Hv as [? _]].
    apply has_metadata_set_all; [| apply has_metadata_to_json].
    intros k Hk. revert k Hk. apply Forall_forall. by apply (bool_decide_unpack _).
  - exists (control_payload smp command). split.
    + apply j_at_set_all_in; [done | by apply (bool_decide_unpack _) | set_solver].
    + apply ControlCommand_from_json_has; [apply control_payload_has | done | done].
  - subst command. simpl. intros H. bool_prop. done.
  - intros Hr. pose proof (sample_is_safe t store smp Hs Ht E Hr) as Hno. unfold no_actuation in Hno.
    rewrite !andb_true_iff, !bool_decide_eq_true in Hno. by destruct Hno as [[? ?] ?].
Qed.

Definition driving_store (received_at_ms : Z) : NativeControlIntentStore :=
  mkNativeControlIntentStore 200 (Some bench_intent) received_at_ms false false.

(** Input a hundred milliseconds old. *)
Lemma sampled_command_read_back_witness : exists smp payload,
  (sample 10000 (driving_store 9900)).1 = Ok smp /\
  j_at (JsonApi := JsonModel.api) "payload"
    (control_envelope smp (sample_command "vehicle-1" "driver-1" "session-1" "token" 7 10000 smp)) = Ok payload /\
  ControlCommand_from_json payload = Ok (sample_command "vehicle-1" "driver-1" "session-1" "token" 7 10000 smp).
Proof.
  eexists. destruct (sampled_command_read_back (J := JsonModel.api) (driving_store 9900) 10000
    (mkNativeControlIntentSample true true false bench_intent)
    "vehicle-1" "driver-1" "session-1" "token" 7 10000) as (_ & (payload & H1 & H2) & _).
  - split; [done | | ]; intros i [= <-]; [split; done | reflexivity].
  - lia.
  - reflexivity.
  - reflexivity.
  - reflexivity.
  - vm_compute. reflexivity.
  - exists payload. split; [reflexivity |]. by split.
Defined.

(** ** The sender's messages *)

Definition is_control_command (message : value) : Prop :=
  j_at (JsonApi := JsonModel.api) "type" message = Ok (j_string "control_command").

Definition only_commands (w : Bench) : Prop := Forall is_control_command (bn_sent w).

Lemma authorised_is_command P p envelope :
  command_authorised (J := JsonModel.api) (W := Bench) P p envelope -> is_control_command envelope.
Proof.
  intros (x & command & _ & _ & _ & _ & _ & _ & ->).
  apply j_at_set_all_in; [apply is_object_object | by apply (bool_decide_unpack _) | set_solver].
Qed.

Lemma bench_keeps : machine_keeps (J := JsonModel.api) only_commands.
Proof.
  split; try done. intros timeout h w Hw. simpl. by destruct (bn_inbox w).
Qed.

(** The input is fresh: one command leaves. *)
Lemma sends_only_authorised_witness :
  length (bn_sent (drv_host (send_native_control_sample bench_config (bench_console 10000)).2)) = 1%nat /\
  only_commands (drv_host (send_native_control_sample bench_config (bench_console 10000)).2).
Proof.
  split; [vm_compute; reflexivity |].
  apply (sends_only_authorised only_commands bench_keeps bench_config (bench_console 10000)).
  - intros p h envelope Hp _ Ha. constructor; [by eapply authorised_is_command | exact Hp].
  - constructor.
Defined.

(** ** Profiles *)
Lemma require_range_ok value maximum label :
  require_finite_range value d_zero maximum label = Ok tt <-> in_bounds value maximum = true.
Proof.
  unfold require_finite_range, in_bounds. rewrite throw_if_ok.
  by destruct (d_isfinite value), (value <ᵈ d_zero), (value >ᵈ maximum).
Qed.

(** The order of the pressures bounds them all. *)
Lemma pressures_bounded service hard max limit :
  in_bounds max limit = true -> d_isfinite service = true -> d_isfinite hard = true ->
  (service <ᵈ d_zero) = false -> (service >ᵈ hard) = false -> (hard >ᵈ max) = false ->
  in_bounds service limit = true /\ in_bounds hard limit = true.
Proof.
  unfold in_bounds. intros Hm Hs Hh H0 Hsh Hhm. bool_prop.
  assert (d_is_nan limit = false \/ d_is_nan limit = true) as [Hl | Hl] by (destruct (d_is_nan limit); auto).
  - assert (d_isfinite max = true) as Hmf by done.
    apply d_isfinite_not_nan in Hmf, Hs as Hs', Hh as Hh'.
    apply d_not_lt_le in H0, Hsh, Hhm; try done.
    assert (max ≤ᵈ limit = true) as Hml by (by apply d_not_lt_le).
    assert (hard ≤ᵈ limit = true) as Hhl by (by eapply d_le_trans).
    assert (service ≤ᵈ limit = true) as Hsl by (by eapply d_le_trans).
    rewrite Hs, Hh, !d_le_not_lt; try done. by eapply d_le_trans.
  - destruct limit; try discriminate.
    apply d_isfinite_not_nan in Hs as Hs', Hh as Hh'.
    apply d_not_lt_le in H0, Hsh; try done.
    rewrite Hs, Hh, (d_le_not_lt _ _ H0), (d_le_not_lt d_zero hard) by (by eapply d_le_trans).
    by destruct service, hard.
Qed.

(** For the version the console writes and a parking timeout it has checked before, its literal
    bounds and the constants of the protocol accept the same profiles. *)
Lemma profile_schemas_accept (p : SessionControlProfile) :
  prof_profile_version p = kSessionControlProfileVersion -> 0 <= prof_parking_idle_timeout_ms p <= 1000 ->
  profile_in_schema p = true <-> SessionControlProfile_validate p = Ok tt.
Proof.
  intros Hver Hpark. unfold SessionControlProfile_validate.
  assert (E72 : kChassisControlMaxTargetSpeedKph = d_lit 72 0) by (vm_compute; reflexivity).
  rewrite E72, Hver, (proj2 (Z.ltb_ge _ 0)), (proj2 (Z.ltb_ge 1000 _)) by lia.
  unfold profile_in_schema. split.
  - intros H. rewrite !andb_true_iff, !negb_true_iff in H. destruct_and! H.
    destruct (pressures_bounded (prof_service_brake_pressure_bar p) (prof_hard_brake_pressure_bar p)
                (prof_max_brake_pressure_bar p) d_pressure_limit) as [Hs Hh]; try assumption.
    assert (Hkp : in_bounds (prof_speed_pid_kp p) kMaxSpeedPidGain = true).
    { unfold in_bounds. destruct (prof_speed_pid_kp p <ᵈ d_zero) eqn:E; [apply d_lt_le in E; congruence |].
      apply andb_true_iff; split; [apply andb_true_iff; split; [assumption | reflexivity] |].
      apply negb_true_iff. assumption. }
    repeat (apply result_seq_ok; split; [first [apply require_range_ok; assumption | apply throw_if_ok] |]);
      [.. | apply require_range_ok; assumption].
    + reflexivity.
    + reflexivity.
    + apply orb_false_iff. split; assumption.
    + assumption.
    + apply orb_false_iff. rewrite !Z.ltb_ge. split; apply Z.leb_le; assumption.
  - intros H. repeat (apply result_seq_ok in H as [? H]).
    repeat match goal with
    | H : require_finite_range _ _ _ _ = Ok tt |- _ => apply require_range_ok in H
    | H : throw_if _ _ = Ok tt |- _ => apply throw_if_ok in H
    end.
    repeat match goal with
    | H : _ || _ = false |- _ => apply orb_false_iff in H as [? ?]
    | H : (_ <? _) = false |- _ => apply Z.ltb_ge, Z.leb_le in H
    | H : in_bounds (?f p) ?m = true |- _ =>
        lazymatch f with
        | prof_service_brake_pressure_bar => idtac
        | prof_hard_brake_pressure_bar => idtac
        | prof_speed_pid_kp => idtac
        end; apply andb_true_iff in H as [H ?]; apply andb_true_iff in H as [? ?]
    end.
    repeat match goal with |- _ && _ = true => apply andb_true_iff; split end;
      first [assumption | apply negb_true_iff; assumption].
Qed.

(** What a request of the browser must hold. *)
Lemma profile_of_input_ok {J : JsonApi} input p :
  profile_of_input input = Ok p ->
  prof_profile_version p = kSessionControlProfileVersion /\ 0 <= prof_parking_idle_timeout_ms p <= 1000 /\
  profile_in_schema p = true.
Proof.
  unfold profile_of_input. intros H.
  do 4 apply result_bind_ok in H as (? & _ & H).
  apply result_bind_ok in H as (parking & Hpark & H).
  do 11 (apply result_bind_ok in H as (? & _ & H)).
  do 3 apply result_bind_ok in H as (? & _ & H). cbv zeta in H.
  apply throw_if_seq in H as [Hs [= <-]]. apply negb_false_iff in Hs. split; [done |]. split; [| exact Hs].
  simpl. unfold parking_of in Hpark. apply result_bind_ok in Hpark as (? & _ & Hpark).
  do 2 apply result_bind_ok in Hpark as (? & _ & Hpark).
  apply throw_if_seq in Hpark as [Hp [= ->]]. apply orb_false_iff in Hp as [?%Z.ltb_ge ?%Z.ltb_ge]. lia.
Qed.

(** C27. The vehicle reads a prepared profile as the driver set it.  Whatever the browser asks for,
    the request the console prepares from it is read by the vehicle's parser, whole and valid,
    as this profile for this session, under the console's sequence number and control token. *)
Theorem prepared_profile_read_back {J : JsonApi} {L : JsonLaws} (input : json) (p : SessionControlProfile)
    (s : DriverSession J) (identity : string) (now : Z) :
  let metadata := mkProtocolMetadata kProtocolVersion (ds_vehicle_id s) identity (ds_session_id s)
                    (ds_sequence s) now in
  profile_of_input input = Ok p -> ds_control_token s <> ""%string ->
  metadata_typed metadata = true -> ProtocolMetadata_validate metadata = Ok tt ->
  SessionControlProfileRequest_from_json (profile_request s identity now p) =
    Ok (mkSessionControlProfileRequest kProtocolVersion (ds_vehicle_id s) identity (ds_session_id s)
          (ds_sequence s) now (ds_control_token s) p).
Proof.
  intros metadata Hin Htok Ht Hv. apply profile_of_input_ok in Hin as (Hver & Hpark & Hschema).
  set (r := mkSessionControlProfileRequest _ _ _ _ _ _ _ p).
  set (base := j_set_all [("type", j_string "session_control_profile");
                          ("control_token", j_string (ds_control_token s))]%string
                 (ProtocolMetadata_to_json metadata)).
  assert (E : profile_request s identity now p = j_set_all (SessionControlProfile_fields p) base)
    by (unfold profile_request, SessionControlProfile_fields; by rewrite Hver).
  assert (Hb : is_object base = true) by (apply is_object_set_all, is_object_object).
  assert (Hout : forall k, k ∈ metadata_keys ++ ["type"; "control_token"]%string ->
                           k ∉ (SessionControlProfile_fields p).*1)
    by (intros k Hk; revert k Hk; apply Forall_forall; by apply (bool_decide_unpack _)).
  rewrite E. apply (SessionControlProfileRequest_from_json_has _ r).
  - apply has_metadata_set_all; [intros k Hk; apply Hout, elem_of_app; by left |].
    apply has_metadata_set_all; [| apply has_metadata_to_json].
    intros k Hk. revert k Hk. apply Forall_forall. by apply (bool_decide_unpack _).
  - rewrite j_at_set_all_out; [| exact Hb | apply Hout; by apply (bool_decide_unpack _)].
    apply j_at_set_all_in; [apply is_object_object | by apply (bool_decide_unpack _) | set_solver].
  - rewrite j_at_set_all_out; [| exact Hb | apply Hout; by apply (bool_decide_unpack _)].
    apply j_at_set_all_in; [apply is_object_object | by apply (bool_decide_unpack _) | set_solver].
  - by apply has_profile_set_all.
  - exact Ht.
  - unfold profile_typed, in_bounds. simpl. rewrite Hver. unfold is_i32.
    assert (20 <= prof_speed_pid_max_dt_ms p <= 200).
    { unfold profile_in_schema in Hschema. repeat (apply andb_true_iff in Hschema as [Hschema ?]). bool_prop. lia. }
    rewrite !andb_true_iff, !Z.leb_le, !Z.ltb_lt. unfold kSessionControlProfileVersion. lia.
  - unfold SessionControlProfileRequest_validate. apply result_seq_ok. split; [exact Hv |].
    apply result_seq_ok. split; [apply throw_if_ok; by apply String.eqb_neq |].
    by apply profile_schemas_accept.
Qed.

Definition bench_profile : SessionControlProfile :=
  SessionControlProfile_default <| prof_target_speed_kph := d_lit 12 0 |>
    <| prof_max_motor_torque_nm := d_lit 300 0 |> <| prof_max_brake_pressure_bar := d_lit 100 0 |>
    <| prof_service_brake_pressure_bar := d_lit 30 0 |> <| prof_hard_brake_pressure_bar := d_lit 90 0 |>
    <| prof_max_steering_angle_deg := d_lit 25 0 |>.

Definition bench_profile_input : value := j_object (SessionControlProfile_fields bench_profile).

Definition profile_session : DriverSession JsonModel.api := bench_session <| ds_sequence := 3 |>.

Lemma prepared_profile_read_back_witness :
  profile_of_input bench_profile_input = Ok bench_profile /\
  SessionControlProfileRequest_from_json (profile_request profile_session "driver-1" 10000 bench_profile) =
  Ok (mkSessionControlProfileRequest kProtocolVersion (ds_vehicle_id profile_session) "driver-1"
        (ds_session_id profile_session) (ds_sequence profile_session) 10000 (ds_control_token profile_session)
        bench_profile).
Proof.
  assert (H : profile_of_input bench_profile_input = Ok bench_profile) by (vm_compute; reflexivity).
  split; [exact H |].
  apply (prepared_profile_read_back (J := JsonModel.api) bench_profile_input bench_profile profile_session
           "driver-1" 10000 H).
  - vm_compute. discriminate.
  - vm_compute. reflexivity.
  - vm_compute. reflexivity.
Defined.

(** ** Deliveries *)

Section deliveries.
Context {J : JsonApi} {W : Type} {Sockets : WebSocketApi W}.
Notation Socket := (SignalingSocket W).

(** The messages a delivery adds, with the cursors they are delivered under. *)
Definition adds (messages new : list json) (cursors : list Z) (last : Z) (c c' : Socket) : Prop :=
  ss_pending_messages c' = ss_pending_messages c ++ new /\ new `sublist_of` messages /\
  Forall2 (fun message cursor => required_uint64 "delivery_cursor" message = Ok cursor) new cursors /\
  StronglySorted Z.lt (ss_delivery_cursor c :: cursors) /\
  ss_delivery_cursor c' = List.last cursors (ss_delivery_cursor c) /\ Forall (fun k => k <= last) cursors.

(** Every message is refused or at most at the cursor afterwards. *)
Definition taken_in (last : Z) (c : Socket) (message : json) : Prop :=
  is_object message = true /\ exists cursor, required_uint64 "delivery_cursor" message = Ok cursor /\
  cursor <= last /\ cursor <= ss_delivery_cursor c.

Lemma append_message_ok last message c c' :
  append_message (Some last) message c = (Ok tt, c') ->
  exists cursor, is_object message = true /\ required_uint64 "delivery_cursor" message = Ok cursor /\
    cursor <= last /\
    c' = if cursor <=? ss_delivery_cursor c then c
         else (push_message message c) <| ss_delivery_cursor := cursor |>.
Proof.
  unfold append_message. destruct (is_object message); [| discriminate].
  rewrite (bind_run _ _ c tt c eq_refl). unfold mbind at 1, M_bind at 1, lift at 1.
  destruct (required_uint64 "delivery_cursor" message) as [cursor | e]; [| discriminate].
  destruct (Z.ltb_spec last cursor); [discriminate |]. rewrite (bind_run _ _ c tt c eq_refl).
  rewrite (bind_run get _ c c c eq_refl). intros H'. exists cursor. split_and!; try done.
  by destruct (cursor <=? ss_delivery_cursor c); injection H' as <-.
Qed.

Lemma last_of_cons (k d : Z) ks : List.last (k :: ks) d = List.last ks k.
Proof.
  revert k d. induction ks as [| a ks IH]; intros k d; [done |].
  change (List.last (a :: ks) d = List.last (a :: ks) k). by rewrite !IH.
Qed.

Lemma append_messages_adds last messages c c' :
  append_messages (Some last) messages c = (Ok tt, c') ->
  (exists new cursors, adds messages new cursors last c c') /\ Forall (taken_in last c') messages /\
  ss_delivery_cursor c <= ss_delivery_cursor c' /\ ss_websocket c' = ss_websocket c.
Proof.
  revert c. induction messages as [| message messages IH]; intros c; simpl.
  { intros [= <-]. split_and!; [| done..]. exists [], []. split_and!; try done; [by rewrite app_nil_r |].
    repeat constructor. }
  unfold mbind, M_bind. destruct (append_message (Some last) message c) as [[[] | e] c1] eqn:E; [| discriminate].
  intros H. apply append_message_ok in E as (cursor & Ho & Hc & Hl & E).
  destruct (IH c1 H) as ((new & cursors & Hp & Hsub & Hf & Hss & Hlast & Hall) & Htaken & Hle & Hws).
  destruct (Z.leb_spec cursor (ss_delivery_cursor c)) as [Hk | Hk]; subst c1.
  - split_and!; [| constructor; [| done] | done | done].
    + exists new, cursors. split_and!; try done. by apply sublist_cons.
    + split; [done |]. exists cursor. split_and!; [done | done | lia].
  - simpl in *. split_and!; [| constructor; [| done] | lia | done].
    + exists (message :: new), (cursor :: cursors). split_and!.
      * by rewrite Hp, <- app_assoc.
      * by apply sublist_skip.
      * by constructor.
      * inversion Hss as [| ? ? Hss' Hall']; subst. constructor; [done |].
        constructor; [done |]. eapply Forall_impl; [exact Hall' |]. simpl. lia.
      * by rewrite Hlast, last_of_cons.
      * by constructor.
    + split; [done |]. exists cursor. split_and!; [done | done | lia].
Qed.

Lemma append_messages_again last messages c :
  Forall (taken_in last c) messages -> append_messages (Some last) messages c = (Ok tt, c).
Proof.
  induction 1 as [| message messages (Ho & cursor & Hc & Hl & Hk) _ IH]; simpl; [done |].
  erewrite bind_run; [exact IH |]. unfold append_message. rewrite Ho.
  rewrite (bind_run _ _ c tt c eq_refl). rewrite (bind_run _ _ c cursor c) by (unfold lift; by rewrite Hc).
  rewrite (proj2 (Z.ltb_ge last cursor)) by lia. rewrite (bind_run _ _ c tt c eq_refl).
  rewrite (bind_run get _ c c c eq_refl). by rewrite (proj2 (Z.leb_le cursor _)).
Qed.

(** A delivery is appended once, in order, and acknowledged when it is complete.  When an
    envelope with a cursor is taken in, what joins the pending messages is a part of its messages
    in their order, under strictly increasing cursors above the one reached before and at most
    the envelope's; the cursor reached is then the envelope's, the acknowledgement sent is for it,
    and the same messages delivered again add nothing. *)
Theorem deliveries_appended_once (envelope : json) (last : Z) (p q : DriverProcess W) :
  j_contains "delivery_cursor" envelope = true -> required_uint64 "delivery_cursor" envelope = Ok last ->
  ss_delivery_cursor (dv_signaling (drv_state p)) <= last ->
  append_websocket_messages envelope p = (Ok tt, q) ->
  exists messages new cursors h c',
    value_json "messages" (j_array []) envelope = Ok messages /\
    adds (j_elements messages) new cursors last (dv_signaling (drv_state p)) c' /\
    ss_delivery_cursor c' = last /\ ss_websocket c' = Some h /\
    drv_host q = (ws_send_json (delivery_ack last) 5000 (h, drv_host p)).2.2 /\
    ss_pending_messages (dv_signaling (drv_state q)) = ss_pending_messages c' /\
    ss_delivery_cursor (dv_signaling (drv_state q)) = last /\
    append_messages (Some last) (j_elements messages) c' = (Ok tt, c').
Proof.
  intros Hc Hl Hstart. unfold append_websocket_messages. unfold mbind at 1, M_bind at 1, lift at 1.
  destruct (value_json "messages" (j_array []) envelope) as [messages | e]; [| discriminate].
  destruct (is_array messages); [| discriminate]. rewrite (bind_run _ _ p tt p eq_refl).
  rewrite Hc, Hl. rewrite (bind_run _ _ p (Some last) p eq_refl).
  unfold on_signaling at 1, zoom, mbind at 1, M_bind at 1.
  destruct (append_messages (Some last) (j_elements messages) (dv_signaling (drv_state p)))
    as [[[] | e] c'] eqn:E; [| discriminate].
  apply append_messages_adds in E as ((new & cursors & Hadds) & Htaken & _ & _).
  rewrite (bind_run this _ _ _ _ eq_refl). simpl.
  destruct (Z.ltb_spec (ss_delivery_cursor c') last) as [Hlt | Hge]; [discriminate |].
  erewrite bind_run by reflexivity. unfold signaling_ws_call. rewrite (bind_run this _ _ _ _ eq_refl). simpl.
  destruct (ss_websocket c') as [h |] eqn:Eh; [| discriminate]. destruct (ws_connected h); [| discriminate].
  unfold on_signaling_ws. simpl. destruct (ws_send_json (delivery_ack last) 5000 (h, drv_host p)) as [r [h' w']] eqn:Ew.
  intros [= -> <-]. simpl.
  assert (Hle : ss_delivery_cursor c' <= last).
  { destruct Hadds as (_ & _ & _ & _ & -> & Hall). clear -Hall Hstart. revert Hall.
    destruct cursors as [| k cursors] using rev_ind; [done |]. intros Hall.
    rewrite List.last_last. apply Forall_app in Hall as [_ Hall]. by inversion Hall. }
  exists messages, new, cursors, h, c'. split_and!; try done; try lia; [by rewrite Ew |].
  by apply append_messages_again.
Qed.
End deliveries.

Definition bench_signaling : DriverProcess Bench :=
  (bench_console 10000) <| drv_state ::= fun s => s <| dv_signaling :=
    mkSignalingSocket (Some (mkBenchSocket true "ws://127.0.0.1:8765/signaling")) "session-1" [] 4 0 |> |>.

Definition delivery (cursor : Z) (messages : list value) : value :=
  JsonModel.JObject [("event", JsonModel.JString "signaling_messages"); ("delivery_cursor", JsonModel.JInt cursor);
                     ("messages", JsonModel.JArray messages)]%string.

Definition delivered (cursor : Z) : value :=
  JsonModel.JObject [("type", JsonModel.JString "webrtc_offer"); ("delivery_cursor", JsonModel.JInt cursor)]%string.

(** Four has been delivered before; five and seven are new. *)
Definition bench_delivery : @json JsonModel.api := delivery 7 [delivered 4; delivered 5; delivered 7].

Lemma deliveries_appended_once_witness :
  exists q messages c',
    append_websocket_messages bench_delivery bench_signaling = (Ok tt, q) /\
    ss_pending_messages (dv_signaling (drv_state q)) = [delivered 5; delivered 7] /\
    append_messages (Some 7) (j_elements messages) c' = (Ok tt, c') /\ ss_delivery_cursor c' = 7.
Proof.
  destruct (append_websocket_messages bench_delivery bench_signaling) as [r q] eqn:E.
  assert (Hr : r = Ok tt) by (change r with (r, q).1; rewrite <- E; vm_compute; reflexivity).
  assert (Hq : ss_pending_messages (dv_signaling (drv_state q)) = [delivered 5; delivered 7])
    by (change q with (r, q).2; rewrite <- E; vm_compute; reflexivity).
  subst r.
  destruct (deliveries_appended_once bench_delivery 7 bench_signaling q)
    as (messages & new & cursors & h & c' & _ & _ & H7 & _ & _ & _ & _ & Hagain).
  - vm_compute. reflexivity.
  - vm_compute. reflexivity.
  - vm_compute. discriminate.
  - exact E.
  - exists q, messages, c'. split; [reflexivity |]. split; [exact Hq |]. split; [exact Hagain | exact H7].
Defined.

(** ** A thread that nobody interferes with *)

Section quiet.
Context {J : JsonApi} {W : Type} {Http : HttpTransport W} {Clock : ClockApi W} {Sort : SampleSort}.
Context {Sockets : WebSocketApi W} {Threads : ThreadApi W}.
Notation D := (DriverProcess W).

Definition quiet_threads : Prop := forall s w, thr_others s w = (s, w).

Context (Quiet : quiet_threads).

Lemma others_quiet (p : D) : others_run p = (Ok tt, p).
Proof.
  unfold others_run. rewrite Quiet. destruct p as [[] w held trace]. unfold shielded. simpl.
  by repeat case_bool_decide.
Qed.

Lemma lock_quiet {A} l (m : M D A) p : lock_guard l m p = holding l m p.
Proof. unfold lock_guard. by rewrite (bind_run _ _ _ _ _ (others_quiet p)). Qed.

(** A lock's part of the history and of the locks held aside. *)
Lemma holding_run {A} l (m : M D A) p a q :
  m (p <| drv_held := l :: drv_held p |> <| drv_trace ::= cons (mkLockEvent l (drv_held p) (drv_state p)) |>) =
    (a, q) ->
  holding l m p = (a, q <| drv_held := drv_held p |>).
Proof. intros E. unfold holding. by rewrite E. Qed.

Lemma steady_run (p : D) :
  steady_now_ms p =
    (Ok ((clk_steady_ns (drv_host p)).1 ÷ 1000000), p <| drv_host := (clk_steady_ns (drv_host p)).2 |>).
Proof.
  unfold steady_now_ms, on_machine, zoom, steady_now_ns, mbind, M_bind.
  by destruct (clk_steady_ns (drv_host p)).
Qed.

(** The machine when a connection there may be has been closed. *)
Definition closed_host (p : D) : W :=
  match cs_websocket (dv_control (drv_state p)) with
  | Some h => (ws_close (h, drv_host p)).2.2
  | None => drv_host p
  end.

Lemma close_runs (p : D) : (forall h w, (ws_close (h, w)).1 = Ok tt) -> exists h,
  close_control_ws p =
    (Ok tt, p <| drv_state ::= fun s => s <| dv_control ::= fun c => c <| cs_websocket := h |> |> |>
              <| drv_host := closed_host p |>).
Proof.
  intros Hclose. unfold close_control_ws, closed_host. rewrite (bind_run this _ p _ p eq_refl).
  destruct (cs_websocket (dv_control (drv_state p))) as [h |] eqn:Eh.
  - specialize (Hclose h (drv_host p)). unfold on_control_ws.
    destruct (ws_close (h, drv_host p)) as [r [h' w]]. simpl in Hclose. subst r. by exists (Some h').
  - exists None. destruct p as [[? ? [] ? ? ? ? ? ? ? ?] ? ? ?]. simpl in *. by subst.
Qed.

(** C19. After a failure of its sender the console does not control the vehicle any more.  When no
    other thread interferes ([quiet_threads]), the failure of a session that is still the
    current one is counted and kept; the control connection is closed and dropped with its
    window of acknowledgements; the next attempt waits until the steady clock, read when the
    connection has been closed, has advanced by the delay, which doubles up to a second; and
    the session stays.  The intent store then shows no motion: whatever updates, samples,
    invalidations and resets follow, until an update is accepted as neutral input every sample
    requires fresh input and has no steering, throttle or brake. *)
Theorem failure_withdraws_control (error session : string) (generation : Z) (p : D) :
  session_is session generation (dv_session (drv_state p)) = true ->
  store_ok (dv_intent (drv_state p)) ->
  (forall h w, (ws_close (h, w)).1 = Ok tt) ->
  exists q,
    note_native_control_failure error session generation p = (Ok tt, q) /\
    let c := dv_control (drv_state q) in let before := dv_control (drv_state p) in
    let clock := clk_steady_ns (closed_host p) in
    cs_websocket c = None /\ cs_session_id c = ""%string /\ cs_ack_window c = [] /\
    cs_next_connect_monotonic_ms c = clock.1 ÷ 1000000 + cs_reconnect_delay_ms before /\
    drv_host q = clock.2 /\
    cs_reconnect_delay_ms c = Z.min (cs_reconnect_delay_ms before * 2) 1000 /\
    dv_session (drv_state q) = dv_session (drv_state p) /\
    ns_send_failures (dv_status (drv_state q)) = u64 (ns_send_failures (dv_status (drv_state p)) + 1) /\
    ns_last_error (dv_status (drv_state q)) = error /\
    (forall ops t, unconfirmed ops (dv_intent (drv_state q)) = true -> 0 <= t ->
       exists smp, (sample t (foldl (flip intent_step) (dv_intent (drv_state q)) ops)).1 = Ok smp /\
         smp_requires_fresh_input smp = true /\ no_actuation (smp_intent smp) = true).
Proof.
  intros Hs Hok Hclose. unfold note_native_control_failure. rewrite lock_quiet.
  unfold holding. set (p1 := p <| drv_held := _ |> <| drv_trace ::= _ |>).
  erewrite bind_run.
  2: { rewrite lock_quiet. apply holding_run. by rewrite (bind_run this _ _ _ _ eq_refl). }
  simpl. rewrite Hs. cbn [negb]. rewrite (bind_run (status_update _) _ _ tt _ eq_refl).
  erewrite bind_run by (rewrite lock_quiet; by apply holding_run).
  erewrite (bind_run (on_intent invalidate)) by reflexivity.
  rewrite lock_quiet. unfold holding at 1.
  set (p2 := _ <| drv_trace ::= _ |>). destruct (close_runs p2 Hclose) as (h & E).
  rewrite (bind_run _ _ _ _ _ E). rewrite (bind_run (control_update _) _ _ tt _ eq_refl).
  erewrite (bind_run steady_now_ms) by apply steady_run. simpl.
  eexists. split; [reflexivity |]. simpl. split_and!; try done.
  intros ops t. by apply unconfirmed_sample; [destruct Hok; split |].
Qed.

Context (config : DriverConfig) (signaling_http_url : string).

Lemma synchronize_synchronized origin count w clock w' :
  synchronize origin count w = (Ok clock, w') -> ts_synchronized (sc_status clock) = true.
Proof.
  unfold synchronize, mbind, M_bind, lift. destruct (throw_if _ _) as [[] | e]; [| discriminate].
  destruct (normalize_signaling_http_url origin) as [base | e]; [| discriminate].
  destruct (take_samples base _ w) as [[samples | e] w1]; [| discriminate].
  unfold system_now_ms, steady_now_ns.
  destruct (clk_now_ms w1) as [at_local w2]. destruct (clk_steady_ns w2) as [anchor w3]. by intros [= <- _].
Qed.

(** C39. A clock that fails its check is used all the same.  When a synchronisation gives a clock
    whose uncertainty is over the limit, the attempt fails, but the console keeps that clock; and
    as long as it is younger than the refresh interval, the check every login and every
    connection begins with passes without another look at it. *)
Theorem time_sync_gate_opens (p : D) (clock : SynchronizedClock) (w1 w2 : W) :
  0 < dc_time_sync_interval_ms config ->
  refresh_due (dv_clock (drv_state p)) (dc_time_sync_interval_ms config) (drv_host p) = (Ok true, w1) ->
  synchronize signaling_http_url (dc_time_sync_samples config) w1 = (Ok clock, w2) ->
  acceptable (sc_status clock) (dc_max_time_sync_uncertainty_ms config) = false ->
  exists q message,
    refresh_time_sync config signaling_http_url p = (Throw (RuntimeError message), q) /\
    dv_clock (drv_state q) = clock /\
    forall q', dv_clock (drv_state q') = clock ->
      ((clk_steady_ns (drv_host q')).1 - sc_steady_anchor_ns clock) ÷ 1000000 < dc_time_sync_interval_ms config ->
      exists q'', refresh_clock_if_due config signaling_http_url q' = (Ok tt, q'') /\
        dv_clock (drv_state q'') = clock.
Proof.
  intros Hi Hdue Hsync Hbad. unfold refresh_time_sync. rewrite lock_quiet.
  unfold holding. set (p1 := p <| drv_held := _ |> <| drv_trace ::= _ |>).
  assert (E1 : clock_refresh_due config p1 = (Ok true, p1 <| drv_host := w1 |>)).
  { unfold clock_refresh_due. rewrite (bind_run _ _ _ _ _ (others_quiet p1)).
    rewrite (bind_run this _ _ _ _ eq_refl). unfold on_machine, zoom. simpl. by rewrite Hdue. }
  rewrite (bind_run _ _ _ _ _ E1). cbn [negb].
  assert (E2 : on_machine (synchronize signaling_http_url (dc_time_sync_samples config)) (p1 <| drv_host := w1 |>) =
               (Ok clock, p1 <| drv_host := w2 |>)).
  { unfold on_machine, zoom. simpl. rewrite Hsync. by destruct p. }
  rewrite (bind_run _ _ _ _ _ E2), (bind_run _ _ _ _ _ (others_quiet _)).
  rewrite (bind_run (this_update _) _ _ tt _ eq_refl). cbv zeta. rewrite Hbad. simpl.
  eexists _, _. split; [reflexivity |]. split; [done |].
  intros q' Hq' Helapsed. unfold refresh_clock_if_due.
  assert (E3 : exists w, clock_refresh_due config q' = (Ok false, q' <| drv_host := w |>)).
  { unfold clock_refresh_due. rewrite (bind_run _ _ _ _ _ (others_quiet q')).
    rewrite (bind_run this _ _ _ _ eq_refl). unfold on_machine, zoom, refresh_due.
    rewrite (proj2 (Z.leb_gt _ 0)) by lia. erewrite bind_run by reflexivity.
    rewrite Hq', (synchronize_synchronized _ _ _ _ _ Hsync). cbn [negb].
    unfold since_anchor, steady_now_ns, mbind, M_bind.
    destruct (clk_steady_ns (drv_host q')) as [t w]. simpl in *. exists w.
    by rewrite (proj2 (Z.leb_gt _ _) Helapsed). }
  destruct E3 as [w E3]. rewrite (bind_run _ _ _ _ _ E3). eexists. by split.
Qed.
End quiet.

Lemma bench_quiet : quiet_threads (J := JsonModel.api) (W := Bench).
Proof. done. Qed.

Lemma failure_withdraws_control_witness : exists q,
  note_native_control_failure "broken" "session-1" 2 (bench_console 10000) = (Ok tt, q) /\
  cs_next_connect_monotonic_ms (dv_control (drv_state q)) = 10100 /\
  exists smp, (sample 10001 (intent_step (OpUpdate (bench_intent <| int_intent_seq := 9 |>) 10000)
                               (dv_intent (drv_state q)))).1 = Ok smp /\
    smp_requires_fresh_input smp = true /\ no_actuation (smp_intent smp) = true.
Proof.
  destruct (failure_withdraws_control bench_quiet "broken" "session-1" 2 (bench_console 10000))
    as (q & E & _ & _ & _ & Hnext & _ & _ & _ & _ & _ & Hsample).
  - vm_compute. reflexivity.
  - split; [discriminate | intros i [= <-]; split; done | intros i [= <-]; reflexivity].
  - intros h w. reflexivity.
  - exists q. split; [exact E | split; [exact Hnext |]].
    apply (Hsample [OpUpdate (bench_intent <| int_intent_seq := 9 |>) 10000]); [| lia].
    assert (Eq : (note_native_control_failure "broken" "session-1" 2 (bench_console 10000)).2 = q)
      by (rewrite E; reflexivity).
    rewrite <- Eq. vm_compute. reflexivity.
Defined.

(** Three answers whose offsets lie a hundred milliseconds apart. *)
Definition bench_time (server_ms : Z) : string + HttpResponse :=
  inr (mkHttpResponse 200 (JsonModel.print (JsonModel.JObject
    [("client_send_ms", JsonModel.JInt 10000); ("server_receive_ms", JsonModel.JInt server_ms);
     ("server_send_ms", JsonModel.JInt server_ms)]%string))).

Definition bench_unsteady : DriverProcess Bench :=
  (bench_console 10000) <| drv_host ::= fun w =>
    w <| bn_answers := [bench_time 10000; bench_time 10100; bench_time 10200] |> |>.

Lemma time_sync_gate_opens_witness : exists q message,
  refresh_time_sync bench_config "http://127.0.0.1:8765" bench_unsteady = (Throw (RuntimeError message), q) /\
  exists q'', refresh_clock_if_due bench_config "http://127.0.0.1:8765" q = (Ok tt, q'').
Proof.
  destruct (synchronize (J := JsonModel.api) "http://127.0.0.1:8765" 3 (drv_host bench_unsteady))
    as [[clock | e] w2] eqn:E; [| vm_compute in E; discriminate E].
  assert (Hbad : acceptable (sc_status clock) 25 = false)
    by (vm_compute in E; injection E as <- _; vm_compute; reflexivity).
  destruct (time_sync_gate_opens bench_quiet bench_config "http://127.0.0.1:8765" bench_unsteady clock
              (drv_host bench_unsteady) w2) as (q & message & Hq & Hclock & Hnext).
  - vm_compute. reflexivity.
  - vm_compute. reflexivity.
  - exact E.
  - exact Hbad.
  - exists q, message. split; [exact Hq |].
    destruct (Hnext q Hclock) as (q'' & H & _); [| exists q''; exact H].
    vm_compute in E. injection E as <- _. clear -Hq.
    assert (Hh : bn_now_ms (drv_host q) = 10000).
    { change q with (Throw (RuntimeError message) : result TimeSyncStatus, q).2. rewrite <- Hq.
      vm_compute. reflexivity. }
    destruct q as [s w held trace]. simpl in *. rewrite Hh. vm_compute. reflexivity.
Defined.
