(* ===== verification/MediaSignaling.v ===== *)
(** MediaSignaling: the vehicle's connection to the signaling server (webrtc_media.cpp:37-170,
    196-206, 237-356, 358-499; media.hpp:61-127).

    - [classify_media_signaling_error], [classify_camera_issue], [camera_failure_decision];
    - [MediaSignalingSequence], the sequence numbers that outlive a media attempt;
    - [CriticalCameraControlLatch], the latch of a camera fault that outlives it too;
    - [MediaSignalingClient]: registration, the session, messages.

    Every operation of the sequence and of the latch holds its mutex for the whole body, and
    [send] holds [send_mutex_], so each is one step.  The retrying of a request, the certificates
    and the timeouts of the HTTP client are left out, as in HttpClient. *)
From S2P Require Export Config TimeSync Protocol.

(** ** Decisions *)

Inductive CameraFailureAction : Type := ReopenLane | DisableLane.

Record CameraFailureDecision := mkCameraFailureDecision {
  cfd_inhibit_control : bool;
  cfd_lane_action : CameraFailureAction;
}.

Definition camera_failure_decision (camera : CameraConfig) (failures_in_media_attempt : Z)
    (retryable : bool) : result CameraFailureDecision :=
  throw_if (failures_in_media_attempt <=? 0)
    (InvalidArgument "camera failure count must be positive");;
  Ok (mkCameraFailureDecision (cam_critical_for_control camera)
        (if retryable && (failures_in_media_attempt <=? cam_reopen_attempts camera)
         then ReopenLane else DisableLane)).

Inductive MediaSignalingErrorKind : Type :=
| SessionEnded | ConnectionRefresh | ConnectionStale | SequenceConflict | SignalingUnavailable
| Fatal.

#[global] Instance MediaSignalingErrorKind_eq_dec : EqDecision MediaSignalingErrorKind.
Proof. solve_decision. Defined.

(** The status, the message and the issue code of an [HttpStatusError]. *)
Definition classify_media_signaling_error (status : Z) (message issue_code : string) :
    MediaSignalingErrorKind :=
  let code c := String.eqb issue_code c in
  let says text := string_contains text message in
  if status =? 404 then SessionEnded
  else if (500 <=? status) && (status <? 600) then SignalingUnavailable
  else if negb (status =? 409) then Fatal
  else if code "session_not_active" || says "session is not active" then SessionEnded
  else if code "vehicle_offline" || says "vehicle is offline" then ConnectionRefresh
  else if code "vehicle_connection_generation_stale" ||
          says "vehicle connection generation is stale" then ConnectionStale
  else if code "signaling_sequence_older" || code "signaling_sequence_reused" ||
          says "sequence is older than the previous message" ||
          says "sequence was reused with different content" then SequenceConflict
  else Fatal.

Definition camera_encoded_frame_fresh (last_encoded_ms now_ms timeout_ms : Z) : bool :=
  (0 <? last_encoded_ms) && (last_encoded_ms <=? now_ms) && (now_ms - last_encoded_ms <=? timeout_ms).

(** ** Camera errors *)

(** Without the advice to the operator. *)
Record CameraIssue := mkCameraIssue {
  ci_code : string;
  ci_stage : string;
  ci_retryable : bool;
}.

(** What an error text contains and the issue it is, in the order the texts are tried. *)
Definition camera_issue_table : list (list string * CameraIssue) :=
  [(["camera media source configuration is invalid";
     "native camera acquisition requires an mjpeg";
     "CCG2 camera acquisition requires a uyvy";
     "CCG2 capture requires";
     "unsupported camera backend";
     "camera input pipeline configuration is invalid";
     "camera input pipeline codec is unsupported"],
    mkCameraIssue "camera_config_invalid" "camera_config" false);
   (["camera is not a vendor SDK source"],
    mkCameraIssue "camera_source_type_invalid" "camera_config" false);
   (["cannot create media pipe"],
    mkCameraIssue "camera_bridge_pipe_failed" "vendor_bridge_start" true);
   (["cannot fork media process"],
    mkCameraIssue "camera_bridge_fork_failed" "vendor_bridge_start" true);
   (["camera process exited"],
    mkCameraIssue "camera_bridge_exited" "vendor_bridge_capture" true);
   (["MJPEG frame exceeded"],
    mkCameraIssue "camera_frame_too_large" "camera_capture" false);
   (["timed out waiting for camera frame";
     "timed out waiting for V4L2 frame"],
    mkCameraIssue "camera_frame_timeout" "camera_capture" true);
   (["media poll failed";
     "V4L2 poll failed"],
    mkCameraIssue "camera_poll_failed" "camera_capture" true);
   (["media read failed"],
    mkCameraIssue "camera_bridge_read_failed" "vendor_bridge_capture" true);
   (["cannot open V4L2 camera"],
    mkCameraIssue "camera_open_failed" "v4l2_open" true);
   (["VIDIOC_QUERYCAP failed"],
    mkCameraIssue "camera_querycap_failed" "v4l2_capabilities" false);
   (["must support V4L2 capture and streaming"],
    mkCameraIssue "camera_node_not_capture_capable" "v4l2_capabilities" false);
   (["VIDIOC_S_FMT MJPEG failed"],
    mkCameraIssue "camera_mjpeg_format_rejected" "v4l2_format" false);
   (["VIDIOC_S_FMT CCG2 YUYV failed";
     "CCG2 driver did not negotiate reported YUYV"],
    mkCameraIssue "camera_ccg2_yuyv_format_rejected" "v4l2_format" false);
   (["CCG2 driver negotiated unexpected dimensions";
     "CCG2 driver returned invalid UYVY dimensions"],
    mkCameraIssue "camera_ccg2_dimensions_mismatch" "v4l2_format" false);
   (["CCG2 driver returned bytesperline";
     "CCG2 driver returned sizeimage";
     "CCG2 driver returned an overflowing UYVY layout";
     "CCG2 UYVY bytesperline";
     "CCG2 UYVY frame layout overflows";
     "CCG2 UYVY packed frame size overflows"],
    mkCameraIssue "camera_ccg2_layout_invalid" "v4l2_format" false);
   (["CCG2 UYVY frame is shorter"],
    mkCameraIssue "camera_ccg2_frame_short" "v4l2_capture" true);
   (["CCG2 driver returned invalid timeperframe";
     "CCG2 driver returned unexpected timeperframe"],
    mkCameraIssue "camera_ccg2_fps_mismatch" "v4l2_frame_rate" false);
   (["CCG2 V4L2 buffer flagged error"],
    mkCameraIssue "camera_ccg2_buffer_error" "v4l2_capture" true);
   (["does not provide native MJPEG"],
    mkCameraIssue "camera_native_mjpeg_unavailable" "v4l2_format" false);
   (["VIDIOC_S_PARM failed"],
    mkCameraIssue "camera_fps_rejected" "v4l2_frame_rate" false);
   (["mmap buffers are unavailable"],
    mkCameraIssue "camera_mmap_buffers_unavailable" "v4l2_buffers" true);
   (["VIDIOC_QUERYBUF failed"],
    mkCameraIssue "camera_query_buffer_failed" "v4l2_buffers" true);
   (["mmap failed"],
    mkCameraIssue "camera_mmap_failed" "v4l2_buffers" true);
   (["VIDIOC_QBUF failed"],
    mkCameraIssue "camera_queue_buffer_failed" "v4l2_stream" true);
   (["VIDIOC_STREAMON failed"],
    mkCameraIssue "camera_stream_on_failed" "v4l2_stream" true);
   (["VIDIOC_DQBUF failed"],
    mkCameraIssue "camera_dequeue_buffer_failed" "v4l2_capture" true);
   (["invalid capture buffer"],
    mkCameraIssue "camera_invalid_capture_buffer" "v4l2_capture" true);
   (["invalid MJPEG frame"],
    mkCameraIssue "camera_invalid_mjpeg_frame" "camera_decode_boundary" true);
   (["camera frame does not match configured input caps"],
    mkCameraIssue "camera_input_caps_mismatch" "camera_decode_boundary" false);
   (["native JPEG encoder failed"],
    mkCameraIssue "camera_test_jpeg_encode_failed" "test_source_encode" false);
   (["cannot allocate GStreamer camera buffer"],
    mkCameraIssue "camera_gstreamer_buffer_allocation_failed" "gstreamer_push" true);
   (["GStreamer appsrc rejected camera frame"],
    mkCameraIssue "camera_appsrc_push_failed" "gstreamer_push" true)].

Definition classify_camera_issue (error : string) : CameraIssue :=
  match List.find (fun entry => existsb (fun text => string_contains text error) entry.1)
          camera_issue_table with
  | Some (_, issue) => issue
  | None => mkCameraIssue "camera_capture_failed" "camera_capture" true
  end.

(** ** Sequence numbers *)

Record MediaSignalingSequence := mkMediaSignalingSequence {
  msq_connection_generation : Z;
  msq_session_id : string;
  msq_value : Z;
}.

Definition MediaSignalingSequence_new : MediaSignalingSequence := mkMediaSignalingSequence 0 "" 0.

Definition next_sequence (connection_generation : Z) (session_id : string) : M MediaSignalingSequence Z :=
  lift (throw_if ((connection_generation =? 0) || string_empty session_id)
          (InvalidArgument "media signaling sequence scope is incomplete"));;
  s ← get;
  let s := if negb (msq_connection_generation s =? connection_generation) ||
              negb (String.eqb (msq_session_id s) session_id)
           then mkMediaSignalingSequence connection_generation session_id 0 else s in
  put s;;
  lift (throw_if (msq_value s =? 2 ^ 64 - 1) (RuntimeError "media signaling sequence is exhausted"));;
  put (mkMediaSignalingSequence connection_generation session_id (msq_value s + 1));;
  mret (msq_value s + 1).

(** ** The latch of a critical camera *)

Definition kCriticalCameraStartupTimeoutMs : Z := 15000.

Record CriticalCameraControlLatch := mkCriticalCameraControlLatch {
  ccl_session_id : string;
  ccl_inhibited : bool;
  ccl_armed : bool;
  ccl_startup_started_ms : option Z;
}.

#[global] Instance eta_CriticalCameraControlLatch : Settable CriticalCameraControlLatch :=
  fields! mkCriticalCameraControlLatch
    <ccl_session_id; ccl_inhibited; ccl_armed; ccl_startup_started_ms>.

Definition CriticalCameraControlLatch_new : CriticalCameraControlLatch :=
  mkCriticalCameraControlLatch "" false false None.

Definition latch_needs_session {S} (session_id : string) : M S unit :=
  lift (throw_if (string_empty session_id)
          (InvalidArgument "critical camera control latch requires a non-empty session id")).

Definition latch_enter_session (session_id : string) : M CriticalCameraControlLatch bool :=
  latch_needs_session session_id;;
  s ← get;
  when (negb (String.eqb (ccl_session_id s) session_id))
    (put (mkCriticalCameraControlLatch session_id false false None));;
  gets ccl_inhibited.

(** Answers whether this is the first inhibition of the session. *)
Definition latch_inhibit (session_id : string) : M CriticalCameraControlLatch bool :=
  latch_needs_session session_id;;
  s ← get;
  lift (throw_if (string_empty (ccl_session_id s))
          (LogicError "critical camera control latch session was not entered"));;
  lift (throw_if (negb (String.eqb (ccl_session_id s) session_id))
          (LogicError "critical camera control latch session does not match the active session"));;
  put (s <| ccl_inhibited := true |>);;
  mret (negb (ccl_inhibited s)).

Definition latch_inhibited_for (session_id : string) : M CriticalCameraControlLatch bool :=
  latch_needs_session session_id;;
  s ← get;
  lift (throw_if (negb (String.eqb (ccl_session_id s) session_id))
          (LogicError "critical camera control latch session does not match the active session"));;
  mret (ccl_inhibited s).

Definition latch_startup_grace_active (session_id : string) (now_ms : Z) :
    M CriticalCameraControlLatch bool :=
  s ← get;
  lift (throw_if (string_empty session_id || negb (String.eqb (ccl_session_id s) session_id) ||
                  (now_ms <? 0))
          (LogicError "invalid critical camera startup scope or time"));;
  let started_ms := default now_ms (ccl_startup_started_ms s) in
  put (s <| ccl_startup_started_ms := Some started_ms |>);;
  mret (negb (ccl_inhibited s) && negb (ccl_armed s) && (started_ms <=? now_ms) &&
        (now_ms - started_ms <? kCriticalCameraStartupTimeoutMs)).

Definition latch_arm_for_control (session_id : string) : M CriticalCameraControlLatch bool :=
  s ← get;
  lift (throw_if (string_empty session_id || negb (String.eqb (ccl_session_id s) session_id))
          (LogicError "critical camera control scope does not match the active session"));;
  if ccl_inhibited s then mret false
  else put (s <| ccl_armed := true |>);; mret true.

(** ** The client *)

Definition trim_origin (value : string) : result string :=
  let value := replace_prefix "ws://" "http://" value in
  let value := replace_prefix "wss://" "https://" value in
  let value := if ends_with "/signaling" value then without_suffix "/signaling" value else value in
  let value := without_slashes value in
  throw_if (negb (starts_with "http://" value) && negb (starts_with "https://" value))
    (InvalidArgument "media signaling URL must use ws, wss, http, or https");;
  Ok value.

(** The shared sequence is kept here; whoever rebuilds the client passes it on. *)
Record MediaSignalingClient := mkMediaSignalingClient {
  msc_origin : string;
  msc_vehicle_id : string;
  msc_device_token : string;
  msc_connection_id : string;
  msc_connection_generation : Z;
  msc_clock : SynchronizedClock;
  msc_session_id : string;
  msc_driver_id : string;
  msc_control_token : string;
  msc_sequence : MediaSignalingSequence;
}.

#[global] Instance eta_MediaSignalingClient : Settable MediaSignalingClient :=
  fields! mkMediaSignalingClient
    <msc_origin; msc_vehicle_id; msc_device_token; msc_connection_id; msc_connection_generation;
     msc_clock; msc_session_id; msc_driver_id; msc_control_token; msc_sequence>.

Section client.
Context {J : JsonApi} {W : Type} {Http : HttpTransport W} {Clock : ClockApi W} {Sort : SampleSort}.
Notation C := (MediaSignalingClient * W)%type.

Definition client_host {A} (m : M W A) : M C A := zoom snd (fun w p => (p.1, w)) m.
Definition client_get : M C MediaSignalingClient := gets fst.
Definition media_client_update (f : MediaSignalingClient -> MediaSignalingClient) : M C unit :=
  modify (fun p => (f p.1, p.2)).

Definition MediaSignalingClient_new (origin vehicle_id device_token connection_id : string)
    (sequence : MediaSignalingSequence) : M W MediaSignalingClient :=
  origin ← lift (trim_origin origin);
  lift (throw_if (string_empty vehicle_id || string_empty device_token)
          (InvalidArgument "vehicle id and device token are required"));;
  connection_id ←
    (if string_empty connection_id then
       now_ns ← steady_now_ns;
       mret ("vehicle-media-" +:+ vehicle_id +:+ "-" +:+ to_string_Z now_ns)
     else mret connection_id);
  mret (mkMediaSignalingClient origin vehicle_id device_token connection_id 0
          SynchronizedClock_new "" "" "" sequence).

Definition device_header (token : string) : list (string * string) :=
  [("X-Mine-Teleop-Device-Token", token)]%string.

Definition register_online : M C unit :=
  c ← client_get;
  response ← client_host (post_json_response (msc_origin c +:+ "/vehicles/online")
    (j_object [("vehicle_id", j_string (msc_vehicle_id c));
               ("device_token", j_string (msc_device_token c));
               ("connection_id", j_string (msc_connection_id c))]%string));
  generation ← lift (field ← j_at "connection_generation" response; get_uint64 field);
  media_client_update (fun c => c <| msc_connection_generation := generation |>).

Definition synchronize_time (sample_count : Z) : M C TimeSyncStatus :=
  c ← client_get;
  clock ← client_host (synchronize (msc_origin c) sample_count);
  media_client_update (fun c => c <| msc_clock := clock |>);;
  mret (sc_status clock).

Definition time_sync_refresh_due (interval_ms : Z) : M C bool :=
  c ← client_get; client_host (refresh_due (msc_clock c) interval_ms).

Definition client_now_ms : M C Z :=
  c ← client_get; client_host (synchronized_now_ms (msc_clock c)).

Definition require_connection : M C unit :=
  c ← client_get;
  lift (throw_if (msc_connection_generation c =? 0)
          (RuntimeError "media signaling connection is not registered")).

Definition require_session : M C unit :=
  require_connection;;
  c ← client_get;
  lift (throw_if (string_empty (msc_session_id c) || string_empty (msc_driver_id c))
          (RuntimeError "media signaling session is unavailable")).

(** Answers whether the vehicle has a session with everything control needs. *)
Definition discover_session : M C bool :=
  require_connection;;
  c ← client_get;
  vehicle ← lift (client_url_encode (msc_vehicle_id c));
  response ← client_host (get_json
    (msc_origin c +:+ "/vehicles/" +:+ vehicle +:+ "/session?connection_generation=" +:+
     to_string_Z (msc_connection_generation c)) (device_header (msc_device_token c)));
  session ← lift (value_string "session_id" "" response);
  media_client_update (fun c => c <| msc_session_id := session |>);;
  driver ← lift (value_string "driver_id" "" response);
  media_client_update (fun c => c <| msc_driver_id := driver |>);;
  token ← lift (value_string "control_token" "" response);
  media_client_update (fun c => c <| msc_control_token := token |>);;
  mret (negb (string_empty session) && negb (string_empty driver) && negb (string_empty token)).

Definition poll (types : string) : M C json :=
  require_session;;
  c ← client_get;
  session ← lift (client_url_encode (msc_session_id c));
  vehicle ← lift (client_url_encode (msc_vehicle_id c));
  types ← lift (client_url_encode types);
  client_host (get_json
    (msc_origin c +:+ "/signaling/" +:+ session +:+ "/messages?recipient=" +:+ vehicle +:+
     "&connection_generation=" +:+ to_string_Z (msc_connection_generation c) +:+ "&types=" +:+ types)
    (device_header (msc_device_token c))).

Definition native_control_websocket_url : M C string :=
  require_session;;
  c ← client_get;
  url ← lift (signaling_websocket_url (msc_origin c) (msc_session_id c) (msc_vehicle_id c)
                (to_string_Z (msc_connection_generation c)));
  mret (url +:+ "&types=control_command").

Definition vehicle_ice_servers : M C json :=
  require_session;;
  c ← client_get;
  session ← lift (client_url_encode (msc_session_id c));
  vehicle ← lift (client_url_encode (msc_vehicle_id c));
  client_host (get_json
    (msc_origin c +:+ "/sessions/" +:+ session +:+ "/ice_servers?actor=" +:+ vehicle +:+
     "&connection_generation=" +:+ to_string_Z (msc_connection_generation c))
    (device_header (msc_device_token c))).

(** A number is used up whether or not the message arrives. *)
Definition send_signal (type : string) (payload : json) : M C unit :=
  require_session;;
  c ← client_get;
  seq ← zoom (fun p => msc_sequence p.1)
          (fun s p => (p.1 <| msc_sequence := s |>, p.2))
          (next_sequence (msc_connection_generation c) (msc_session_id c));
  now_ms ← client_now_ms;
  let metadata := mkProtocolMetadata kProtocolVersion (msc_vehicle_id c) (msc_driver_id c)
                    (msc_session_id c) seq now_ms in
  let message :=
    j_set_all [("sender", j_string (msc_vehicle_id c)); ("recipient", j_string (msc_driver_id c));
               ("device_token", j_string (msc_device_token c));
               ("connection_generation", j_uint (msc_connection_generation c));
               ("type", j_string type); ("payload", payload)]%string
      (ProtocolMetadata_to_json metadata) in
  session ← lift (client_url_encode (msc_session_id c));
  client_host (post_json_response
    (msc_origin c +:+ "/signaling/" +:+ session +:+ "/messages") message);;
  mret tt.
End client.
