(* ===== verification/VehicleRuntime.v ===== *)
(** VehicleRuntime: the members of the vehicle's media runtime that control uses, and their
    primitives (webrtc_media.cpp:508-616, 1044-1072, 2237-2382, 4011-4107).

    - [VehicleRuntime], the control members of [VehicleMediaRuntime::Impl]; [Lane];
    - [RuntimeHost]: the data channel, the standard output, new adapters, and the flags other
      threads raise without a lock;
    - the messages to the driver's browser.

    One [VehicleProcess] is the runtime, its machine and the connection of the receiver thread.
    The functions of this and the next files that end in [_locked], and the bodies under
    [control_mutex], are atomic: what may come between them is in VehicleThreads.  GStreamer's
    pipeline, the advice to the operator in the diagnostics and the control trace
    ([control_log_commands]) are left out: nothing reads them back. *)
From S2P Require Export MediaSignaling ControlService WebSocket.

(** ** State *)

(** The counters of the runtime (webrtc_media.cpp:4054-4092), named as there without the prefix
    [native_control_] and the suffix [_total]. *)
Inductive Counter : Type :=
| accepted_control_commands | rejected_control_commands | control_link_loss_count
| websocket_connection_attempts | websocket_connections | websocket_reconnects
| transport_errors | protocol_errors | transport_consecutive_errors
| websocket_envelopes | websocket_messages | websocket_superseded_messages
| websocket_post_error_discards | stale_nonzero_intents_discarded
| stale_safe_heartbeats_forwarded | stale_safe_heartbeats_accepted
| stale_safe_inactive_state_discards | stale_safe_native_gap_discards
| stale_safe_untrusted_gear_discards | fresh_gear_updates | trusted_gear_invalidations
| estop_gear_freezes | estop_gear_freezes_after_apply_error | estop_gear_overrides
| profile_not_ready_discards | handshake_not_ready_discards
| delivery_acks_sent | delivery_acknowledgements | watchdog_ticks | watchdog_skipped_intervals.

#[global] Instance Counter_eq_dec : EqDecision Counter.
Proof. solve_decision. Defined.

(** A camera: what its frames and its failures change. *)
Record Lane := mkLane {
  ln_camera : CameraConfig;
  ln_encoded : Z;
  ln_last_encoded_ms : Z;
  ln_last_encoded_steady_ms : Z;
  ln_failure_count : Z;
  ln_reopen_count : Z;
  ln_disabled : bool;
  ln_error : string;
  ln_pipeline_started_steady_ms : Z;
}.

#[global] Instance eta_Lane : Settable Lane :=
  fields! mkLane
    <ln_camera; ln_encoded; ln_last_encoded_ms; ln_last_encoded_steady_ms; ln_failure_count;
     ln_reopen_count; ln_disabled; ln_error; ln_pipeline_started_steady_ms>.

Record PipelineFailure := mkPipelineFailure {
  pf_error : string;
  pf_issue_code : string;
  pf_stage : string;
  pf_retryable : bool;
}.

Definition PipelineFailure_none : PipelineFailure := mkPipelineFailure "" "" "" false.

Record VehicleRuntime {J : JsonApi} {A : Type} := mkVehicleRuntime {
  vr_config : VehicleConfig;
  vr_signaling : MediaSignalingClient;
  vr_latch : CriticalCameraControlLatch;
  vr_frame_timeout_ms : Z;
  vr_control_channel : option Z;
  vr_lanes : list Lane;
  vr_stop_requested : bool;
  vr_pending_signals : list (string * json);
  vr_pipeline_failure : PipelineFailure;
  vr_service : option (VehicleControlService J A);
  vr_fresh_gear : option string;   (* native_control_last_accepted_fresh_gear *)
  vr_estop_gear : option string;   (* native_control_estop_frozen_gear *)
  vr_transport_running : bool;     (* the two threads are joinable *)
  vr_service_started : bool;
  vr_issue_code : string;
  vr_link_open : bool;
  vr_control_inhibited : bool;
  vr_link_ever_opened : bool;
  vr_link_opened_this_attempt : bool;
  vr_last_control_received_at_ms : Z;
  vr_last_accepted_monotonic_ms : Z;
  vr_websocket_connected : bool;
  vr_counters : Counter -> Z;
  vr_last_connected_at_ms : Z;
  vr_last_message_at_ms : Z;
  vr_last_error_at_ms : Z;
  vr_freshness_cutoff_at_ms : Z;
  vr_last_error_log_monotonic_ms : Z;
  vr_last_vcu_status_ms : option Z;
  vr_last_telemetry_seq : Z;
  vr_control_status_seq : Z;
  vr_last_handshake_state : string;
  vr_last_rejection_reason : string;
  vr_last_rejection_log_ms : option Z;
  vr_last_rejection_status_issue_code : string;
  vr_last_rejection_status_ms : option Z;
}.
Arguments VehicleRuntime J A : clear implicits.
Arguments mkVehicleRuntime {J A}.

#[global] Instance eta_VehicleRuntime {J A} : Settable (VehicleRuntime J A) :=
  fields! mkVehicleRuntime
    <vr_config; vr_signaling; vr_latch; vr_frame_timeout_ms; vr_control_channel; vr_lanes;
     vr_stop_requested; vr_pending_signals; vr_pipeline_failure; vr_service; vr_fresh_gear;
     vr_estop_gear; vr_transport_running; vr_service_started; vr_issue_code; vr_link_open;
     vr_control_inhibited; vr_link_ever_opened; vr_link_opened_this_attempt;
     vr_last_control_received_at_ms; vr_last_accepted_monotonic_ms; vr_websocket_connected;
     vr_counters; vr_last_connected_at_ms; vr_last_message_at_ms; vr_last_error_at_ms;
     vr_freshness_cutoff_at_ms; vr_last_error_log_monotonic_ms; vr_last_vcu_status_ms;
     vr_last_telemetry_seq; vr_control_status_seq; vr_last_handshake_state;
     vr_last_rejection_reason; vr_last_rejection_log_ms; vr_last_rejection_status_issue_code;
     vr_last_rejection_status_ms>.

(** The machine of the runtime.  [mh_raised]: whether other threads have set [stop_requested]
    and [control_inhibited], which no lock guards, since this one last looked.
    [mh_create_adapter] is [create_vehicle_adapter] on the machine, [mh_release_adapter] the end
    of an adapter: what it did is done to the machine. *)
Class RuntimeHost {J : JsonApi} (A W : Type) : Type := {
  mh_print : string -> W -> W;
  mh_create_channel : W -> option Z * W;
  mh_channel_send : Z -> string -> W -> W;
  mh_channel_close : Z -> W -> W;
  mh_create_adapter : VehicleConfig -> M W A;
  mh_release_adapter : A -> W -> W;
  mh_raised : W -> bool * bool * W;
}.

(** The connection and the delay of a reconnection are the receiver thread's own. *)
Record VehicleProcess {J : JsonApi} (A W : Type) {Sockets : WebSocketApi W} := mkVehicleProcess {
  vp_runtime : VehicleRuntime J A;
  vp_host : W;
  vp_websocket : option ws;
  vp_reconnect_delay : Z;
}.
Arguments mkVehicleProcess {J A W Sockets}.
Arguments vp_runtime {J A W Sockets}.
Arguments vp_host {J A W Sockets}.
Arguments vp_websocket {J A W Sockets}.
Arguments vp_reconnect_delay {J A W Sockets}.

#[global] Instance eta_VehicleProcess {J : JsonApi} A W {Sockets : WebSocketApi W} :
  Settable (VehicleProcess A W) :=
  fields! mkVehicleProcess <vp_runtime; vp_host; vp_websocket; vp_reconnect_delay>.

Section runtime.
Context {J : JsonApi} {A W : Type} {VA : VehicleAdapter A}.
Context {Http : HttpTransport W} {Clock : ClockApi W} {Sort : SampleSort}.
Context {Sockets : WebSocketApi W} {Host : RuntimeHost A W}.
Notation V := (VehicleProcess A W).
Notation Rt := (VehicleRuntime J A).
Notation Svc := (VehicleControlService J A).

(** ** Primitives *)

Definition runtime : M V Rt := gets vp_runtime.
Definition runtime_update (f : Rt -> Rt) : M V unit := modify (fun p => p <| vp_runtime ::= f |>).
Definition on_world {R} (m : M W R) : M V R := zoom vp_host (fun w p => p <| vp_host := w |>) m.
Definition world_update (f : W -> W) : M V unit := modify (fun p => p <| vp_host ::= f |>).

(** A call of the signaling client, which also works on the machine. *)
Definition on_client {R} (m : M (MediaSignalingClient * W) R) : M V R :=
  zoom (fun p => (vr_signaling (vp_runtime p), vp_host p))
    (fun cw p => p <| vp_runtime ::= fun s => s <| vr_signaling := cw.1 |> |> <| vp_host := cw.2 |>) m.

Definition on_latch {R} (m : M CriticalCameraControlLatch R) : M V R :=
  zoom (fun p => vr_latch (vp_runtime p))
    (fun l p => p <| vp_runtime ::= fun s => s <| vr_latch := l |> |>) m.

(** [control_service->...]; every caller has seen that the pointer is not null. *)
Definition on_service {R} (m : M Svc R) : M V R := fun p =>
  match vr_service (vp_runtime p) with
  | Some svc =>
      let '(answer, svc) := m svc in
      (answer, p <| vp_runtime ::= fun s => s <| vr_service := Some svc |> |>)
  | None => (Throw (LogicError "control_service is null"), p)
  end.

Definition media_now_ms : M V Z := on_client client_now_ms.
Definition monotonic_ms : M V Z := now ← on_world steady_now_ns; mret (now ÷ 1000000).

Definition set_counter (c : Counter) (value : Z) (s : Rt) : Rt :=
  s <| vr_counters ::= fun f c' => if bool_decide (c' = c) then value else f c' |>.
Definition add_counter (c : Counter) (n : Z) : M V unit :=
  runtime_update (fun s => set_counter c (u64 (vr_counters s c + n)) s).
Definition count (c : Counter) : M V unit := add_counter c 1.

(** What the other threads have raised meanwhile is seen. *)
Definition flags_seen : M V unit := fun p =>
  let '(stop, inhibited, w) := mh_raised (vp_host p) in
  (Ok tt, p <| vp_host := w |>
            <| vp_runtime ::= fun s => s <| vr_stop_requested ::= orb stop |>
                                         <| vr_control_inhibited ::= orb inhibited |> |>).

Definition stop_seen : M V bool := flags_seen;; s ← runtime; mret (vr_stop_requested s).

Definition service_running (s : Rt) : bool :=
  vr_service_started s && bool_decide (is_Some (vr_service s)).

(** [!stop_requested && !control_inhibited && control_service_started && control_service &&
    control_link_open] *)
Definition control_usable : M V bool :=
  flags_seen;;
  s ← runtime;
  mret (negb (vr_stop_requested s) && negb (vr_control_inhibited s) && service_running s &&
        vr_link_open s).

(** [invalidate_native_control_trusted_gear_locked] *)
Definition invalidate_trusted_gear : M V unit :=
  s ← runtime;
  match vr_fresh_gear s with
  | None => mret tt
  | Some _ =>
      runtime_update (fun s => s <| vr_fresh_gear := None |>);; count trusted_gear_invalidations
  end.

(** [control_service.reset()]: the destructor of the service, then that of its adapter. *)
Definition drop_service : M V unit :=
  s ← runtime;
  match vr_service s with
  | Some svc =>
      let svc := (destroy svc).2 in
      world_update (mh_release_adapter (svc_adapter svc));;
      runtime_update (fun s => s <| vr_service := None |>)
  | None => mret tt
  end.

(** [control_service->close(context)], then the flag and the pointer; an error is kept for the
    diagnostics. *)
Definition close_service (context : VehicleStopContext) : M V (option string) :=
  s ← runtime;
  error ← (if service_running s then
             try_catch_std (on_service (close context);; mret None) (fun e => mret (Some (what e)))
           else mret None);
  runtime_update (fun s => s <| vr_service_started := false |>);;
  drop_service;;
  mret error.

(** ** Output *)

Definition print_line (value : json) : M V unit :=
  text ← lift (j_dump value); world_update (mh_print text).

(** [std::cout << Json({{"event", event}, ...}).dump()] *)
Definition print_event_at (at_ms : Z) (event : string) (fields : list (string * json)) : M V unit :=
  s ← runtime;
  print_line (j_object ([("event", j_string event); ("event_at_utc_ms", j_int at_ms);
                         ("vehicle_id", j_string (cfg_vehicle_id (vr_config s)));
                         ("session_id", j_string (msc_session_id (vr_signaling s)))]%string ++ fields)).

Definition print_event (event : string) (fields : list (string * json)) : M V unit :=
  at_ms ← media_now_ms; print_event_at at_ms event fields.

(** The field most of them have besides. *)
Definition driver_field (s : Rt) : string * json :=
  ("driver_id"%string, j_string (msc_driver_id (vr_signaling s))).

Definition emit_diagnostic (event issue_code stage error : string) (retryable : bool)
    (details : list (string * json)) : M V unit :=
  at_ms ← media_now_ms;
  s ← runtime;
  let severity := if string_empty error then "info" else "error" in
  let fields :=
    [("event", j_string event); ("issue_code", j_string issue_code); ("stage", j_string stage);
     ("subsystem", j_string "vehicle_media"); ("severity", j_string severity);
     ("retryable", j_bool retryable); ("event_at_utc_ms", j_int at_ms);
     ("vehicle_id", j_string (cfg_vehicle_id (vr_config s)));
     ("driver_id", j_string (msc_driver_id (vr_signaling s)));
     ("session_id", j_string (msc_session_id (vr_signaling s)))]%string in
  let fields := if string_empty error then fields else fields ++ [("error", j_string error)]%string in
  print_line (j_set_all fields (j_object details)).

(** The diagnostic of a stop that failed, if one did. *)
Definition report_close_error (stage : string) (error : option string)
    (details : list (string * json)) : M V unit :=
  match error with
  | None => mret tt
  | Some error =>
      emit_diagnostic "vehicle_vcu_safe_stop_failed" "vcu_safe_stop_or_close_failed" stage error true
        details
  end.

Definition queue_signal (type : string) (payload : json) : M V unit :=
  runtime_update (fun s => s <| vr_pending_signals ::= fun q => q ++ [(type, payload)] |>).

(** [gst_webrtc_data_channel_close] on the channel, if there is one. *)
Definition close_channel (channel : option Z) : M V unit :=
  match channel with Some ch => world_update (mh_channel_close ch) | None => mret tt end.

Definition channel_send (value : json) : M V unit :=
  text ← lift (j_dump value);
  s ← runtime;
  match vr_control_channel s with Some ch => world_update (mh_channel_send ch text) | None => mret tt end.

(** [control_channel == nullptr || !control_link_open] *)
Definition link_down (s : Rt) : bool :=
  bool_decide (vr_control_channel s = None) || negb (vr_link_open s).

(** [++control_status_seq] *)
Definition next_status_seq : M V Z :=
  runtime_update (fun s => s <| vr_control_status_seq ::= fun n => u64 (n + 1) |>);;
  s ← runtime; mret (vr_control_status_seq s).

(** ** Construction *)

(** A new runtime around what outlives the one before: the sequence and the latch.  The members
    of the pipeline and of the trace are left out. *)
Definition VehicleRuntime_new (config : VehicleConfig) (signaling_url device_token connection_id : string)
    (sequence : MediaSignalingSequence) (latch : CriticalCameraControlLatch) (frame_timeout_ms : Z) :
    M W Rt :=
  client ← MediaSignalingClient_new signaling_url (cfg_vehicle_id config) device_token connection_id
             sequence;
  lift (throw_if (frame_timeout_ms <=? 0) (InvalidArgument "frame timeout must be positive"));;
  mret (mkVehicleRuntime config client latch frame_timeout_ms None [] false [] PipelineFailure_none
          None None None false false "" false false false false 0 0 false (fun _ => 0) 0 0 0 0 0
          None 0 0 "" "" None "" None).
End runtime.
