(* ===== verification/VehicleControl.v ===== *)
(** VehicleControl: the control messages of the media runtime (webrtc_media.cpp:1207-1793,
    1795-2073, 2237-2380).

    - the messages to the browser: rejections, telemetry, profile and handshake status;
    - [handle_control_message], for the data channel and for the native connection;
    - [handle_native_control_websocket_envelope], [note_native_control_transport_error].

    Each body under [control_mutex] is one step; the flags that have no lock are looked at where
    the code looks at them ([flags_seen]). *)
From S2P Require Export VehicleRuntime.

Inductive ControlMessageTransport : Type := DataChannel | NativeSignaling.

#[global] Instance ControlMessageTransport_eq_dec : EqDecision ControlMessageTransport.
Proof. solve_decision. Defined.

Definition control_transport_name (transport : ControlMessageTransport) : string :=
  match transport with
  | NativeSignaling => "native_signaling_websocket"
  | DataChannel => "webrtc_data_channel"
  end.

(** The result a profile request gets when nothing can be driven. *)
Definition not_connected_result (request : SessionControlProfileRequest) (now_ms : Z) :
    SessionControlProfileResult :=
  mkSessionControlProfileResult (req_protocol_version request) (req_vehicle_id request)
    (req_driver_id request) (req_session_id request) (req_seq request) now_ms false false 0
    "driver_not_connected" None.

(** A command that asks for nothing: what a sender without fresh input repeats. *)
Definition stale_safe_heartbeat (command : ControlCommand) (fresh : bool) : bool :=
  negb (cmd_estop command) && negb fresh && (cmd_steering command =ᵈ d_zero) &&
  (cmd_throttle command =ᵈ d_zero) && (cmd_brake command =ᵈ d_zero).

Definition kDriveGearIssue : string := "vcu_drive_gear_change_moving_or_stale".

Section messages.
Context {J : JsonApi} {A W : Type} {VA : VehicleAdapter A}.
Context {Http : HttpTransport W} {Clock : ClockApi W} {Sort : SampleSort}.
Context {Sockets : WebSocketApi W} {Host : RuntimeHost A W}.
Notation V := (VehicleProcess A W).
Notation Rt := (VehicleRuntime J A).
Notation Svc := (VehicleControlService J A).

(** ** To the browser *)

(** At most one in half a second for the same reason. *)
Definition send_control_command_rejected_locked (command_seq intent_seq : Z) (issue_code : string) :
    M V unit :=
  s ← runtime;
  if link_down s then mret tt
  else
    let stable_issue_code :=
      if String.eqb issue_code kDriveGearIssue then kDriveGearIssue
      else "vcu_control_apply_rejected"%string in
    timestamp_ms ← media_now_ms;
    s ← runtime;
    if String.eqb stable_issue_code (vr_last_rejection_status_issue_code s) &&
       match vr_last_rejection_status_ms s with
       | Some last => timestamp_ms - last <? 500
       | None => false
       end
    then mret tt
    else
      runtime_update (fun s => s <| vr_last_rejection_status_issue_code := stable_issue_code |>
                                 <| vr_last_rejection_status_ms := Some timestamp_ms |>);;
      status_seq ← next_status_seq;
      channel_send (j_object
        [("event", j_string "control_command_rejected");
         ("protocol_version", j_int kProtocolVersion);
         ("vehicle_id", j_string (cfg_vehicle_id (vr_config s)));
         ("driver_id", j_string (msc_driver_id (vr_signaling s)));
         ("session_id", j_string (msc_session_id (vr_signaling s)));
         ("control_status_seq", j_uint status_seq);
         ("command_seq", j_uint command_seq);
         ("intent_seq", j_uint intent_seq);
         ("accepted", j_bool false);
         ("issue_code", j_string stable_issue_code)]%string).

(** The last telemetry record, once. *)
Definition send_latest_vehicle_telemetry_locked : M V unit :=
  s ← runtime;
  if link_down s || negb (service_running s) then mret tt
  else
    history ← on_service (gets svc_telemetry_history);
    match last history with
    | None => mret tt
    | Some telemetry =>
        sequence ← lift (value_uint64 "seq" 0 telemetry);
        if sequence =? vr_last_telemetry_seq s then mret tt
        else
          status_seq ← next_status_seq;
          channel_send (j_set "control_status_seq" (j_uint status_seq) telemetry);;
          runtime_update (fun s => s <| vr_last_telemetry_seq := sequence |>)
    end.

Definition send_session_control_profile_status_locked (result : SessionControlProfileResult) :
    M V unit :=
  s ← runtime;
  if link_down s then mret tt
  else
    message ← lift (SessionControlProfileResult_to_json result);
    status_seq ← next_status_seq;
    let message := j_set_all [("event", j_string "session_control_profile_status");
                              ("control_status_seq", j_uint status_seq)]%string message in
    message ←
      (if service_running s then
         svc ← on_service get;
         profile ← lift (session_control_profile svc);
         mret (j_set_all [("hard_limits", control_limits svc);
                          ("session_control_profile", profile)]%string message)
       else mret message);
    channel_send message.

(** What the handshake status message says of the service: its status and limits, and whether
    the vehicle may be driven as far as the handshake goes. *)
Definition handshake_report : M V (VcuHandshakeStatus * json * bool) :=
  s ← runtime;
  if service_running s then
    status ← on_service (on_adapter va_vcu_handshake_status);
    svc ← on_service get;
    mock ← (if String.eqb (fs_commissioning_mode (cfg_field_safety (vr_config s))) "bench" then
              adapter ← on_service (on_adapter va_status);
              mret (String.eqb (ast_adapter_type adapter) "mock")
            else mret false);
    mret (status, control_limits svc, vh_ready status || mock)
  else
    mret (VcuHandshakeStatus_default <| vh_supported := true |> <| vh_state := "fault"%string |>,
          vehicle_control_limits (vr_config s), false).

Definition note_handshake_state (status : VcuHandshakeStatus) : M V unit :=
  s ← runtime;
  if String.eqb (vh_state status) (vr_last_handshake_state s) then mret tt
  else
    emit_diagnostic "vehicle_vcu_handshake_state_changed" "vcu_handshake_state_changed"
      "vcu_handshake" "" true
      [("from", j_string (vr_last_handshake_state s)); ("to", j_string (vh_state status));
       ("status", VcuHandshakeStatus_to_json status)]%string;;
    runtime_update (fun s => s <| vr_last_handshake_state := vh_state status |>).

Definition send_vcu_handshake_status_locked (result : string) : M V unit :=
  s ← runtime;
  if link_down s then mret tt
  else
    try_catch_std
      (report ← handshake_report;
       let '(status, hard_limits, admission_ready) := report in
       when (negb admission_ready) invalidate_trusted_gear;;
       status_seq ← next_status_seq;
       sent_at ← media_now_ms;
       s ← runtime;
       let message := j_object
         [("event", j_string "vcu_handshake_status");
          ("protocol_version", j_int kProtocolVersion);
          ("vehicle_id", j_string (cfg_vehicle_id (vr_config s)));
          ("driver_id", j_string (msc_driver_id (vr_signaling s)));
          ("session_id", j_string (msc_session_id (vr_signaling s)));
          ("control_status_seq", j_uint status_seq);
          ("sent_at_utc_ms", j_int sent_at);
          ("driver_connected", j_bool true);
          ("result", j_string result);
          ("adapter_ready", j_bool (service_running s));
          ("status", VcuHandshakeStatus_to_json status);
          ("hard_limits", hard_limits)]%string in
       channel_send (if string_empty (vr_issue_code s) then message
                     else j_set "issue_code" (j_string (vr_issue_code s)) message);;
       note_handshake_state status)
      (fun e =>
         invalidate_trusted_gear;;
         print_event "vehicle_vcu_handshake_status_failed" [("error", j_string (what e))]%string).

(** ** Requests of the browser *)

(** Under [control_mutex]; a request from a channel that is not the current one is dropped. *)
Definition receive_profile_request (channel : option Z) (request : SessionControlProfileRequest) :
    M V unit :=
  s ← runtime;
  if negb (bool_decide (vr_control_channel s = channel)) then mret tt
  else
    usable ← control_usable;
    timestamp_ms ← media_now_ms;
    result ←
      (if negb usable then mret (not_connected_result request timestamp_ms)
       else
         result ← on_service (receive_session_profile request timestamp_ms);
         when (res_accepted result) invalidate_trusted_gear;;
         mret result);
    send_session_control_profile_status_locked result;;
    print_event "vehicle_session_control_profile_received"
      [driver_field s; ("request_seq", j_uint (req_seq request));
       ("accepted", j_bool (res_accepted result)); ("idempotent", j_bool (res_idempotent result));
       ("reason", j_string (res_reason result))]%string.

(** [None]: the service threw, which has been reported. *)
Definition handshake_command (action : string) : M V (option bool) :=
  try_catch_std
    (accepted ← (if String.eqb action "connect" then on_service request_vcu_handshake
                 else if String.eqb action "disconnect" then on_service disconnect_vcu_handshake
                 else mret false);
     mret (Some accepted))
    (fun e =>
       emit_diagnostic "vehicle_vcu_handshake_command_failed" "vcu_handshake_command_failed"
         "vcu_handshake_command" (what e) true
         [("action", j_string action); ("safety_action", j_string "local_full_stop")]%string;;
       mret None).

Definition receive_handshake_command (channel : option Z) (action : string) : M V unit :=
  s ← runtime;
  if negb (bool_decide (vr_control_channel s = channel)) then mret tt
  else
    usable ← control_usable;
    if negb usable then send_vcu_handshake_status_locked "driver_not_connected"
    else
      answer ← handshake_command action;
      match answer with
      | None => mret tt
      | Some accepted =>
          when accepted invalidate_trusted_gear;;
          status ← on_service (on_adapter va_vcu_handshake_status);
          print_event "vehicle_vcu_handshake_command"
            [driver_field s; ("action", j_string action); ("accepted", j_bool accepted);
             ("vcu_handshake", VcuHandshakeStatus_to_json status)]%string;;
          send_vcu_handshake_status_locked
            (if (accepted : bool) then "command_accepted" else "command_rejected")
      end.

(** A periodic command on the data channel is refused: it has one way, the native connection. *)
Definition refuse_legacy_command : M V unit :=
  count rejected_control_commands;;
  s ← runtime;
  let rejected_count := vr_counters s rejected_control_commands in
  if (rejected_count =? 1) || (rejected_count mod 100 =? 0) then
    print_event "vehicle_control_transport_rejected"
      [driver_field s; ("transport", j_string (control_transport_name DataChannel));
       ("reason", j_string "legacy_data_channel_control_disabled");
       ("rejected_commands", j_uint rejected_count)]%string
  else mret tt.

(** ** Native commands *)

(** [adapter.type == "mock"] on the bench, or the handshake is ready; an error is not. *)
Definition handshake_admits : M V bool :=
  s ← runtime;
  adapter ← on_service (on_adapter va_status);
  if String.eqb (fs_commissioning_mode (cfg_field_safety (vr_config s))) "bench" &&
     String.eqb (ast_adapter_type adapter) "mock"
  then mret true
  else
    try_catch (status ← on_service (on_adapter va_vcu_handshake_status); mret (vh_ready status))
      (fun _ => mret false).

(** [session_control_profile().value("active", false)] *)
Definition profile_active : M V bool :=
  svc ← on_service get;
  lift (profile ← session_control_profile svc; value_bool "active" false profile).

(** The gear of an emergency stop: the one frozen by the first, or the last trusted one. *)
Definition estop_gear (s : Rt) (command : ControlCommand) : string :=
  match vr_estop_gear s with
  | Some gear => gear
  | None => default (cmd_gear command) (vr_fresh_gear s)
  end.

Definition override_estop_gear (command : ControlCommand) : M V ControlCommand :=
  s ← runtime;
  let gear := estop_gear s command in
  when (negb (String.eqb (cmd_gear command) gear)) (count estop_gear_overrides);;
  mret (command <| cmd_gear := gear |>).

(** Whether a session profile and the handshake admit an ordinary command. *)
Definition authority_admits : M V bool :=
  active ← profile_active;
  ready ← handshake_admits;
  if active && ready then mret true
  else
    invalidate_trusted_gear;;
    count (if active then handshake_not_ready_discards else profile_not_ready_discards);;
    mret false.

(** Whether a command without fresh input may keep control going. *)
Definition heartbeat_admits (command : ControlCommand) (acquired_monotonic_ms : Z) : M V bool :=
  state ← on_service safety_state;
  s ← runtime;
  let previous := vr_last_accepted_monotonic_ms s in
  if negb (bool_decide (state = SafetyControlActive)) then
    count stale_safe_inactive_state_discards;; mret false
  else if (previous <=? 0) || (acquired_monotonic_ms <? previous) ||
          (cc_degraded_timeout_ms (cfg_control (vr_config s)) <=? acquired_monotonic_ms - previous)
  then count stale_safe_native_gap_discards;; mret false
  else if negb (bool_decide (vr_fresh_gear s = Some (cmd_gear command))) then
    count stale_safe_untrusted_gear_discards;; mret false
  else count stale_safe_heartbeats_forwarded;; mret true.

(** What of a native command goes to the service, if anything does. *)
Definition native_gate (command : ControlCommand) (fresh : bool) (acquired_monotonic_ms : Z) :
    M V (option ControlCommand) :=
  usable ← control_usable;
  if negb usable then count rejected_control_commands;; mret None
  else if cmd_estop command then
    command ← override_estop_gear command; mret (Some command)
  else
    let heartbeat := stale_safe_heartbeat command fresh in
    if negb fresh && negb heartbeat then count stale_nonzero_intents_discarded;; mret None
    else
      authorised ← authority_admits;
      if negb authorised then mret None
      else
        admitted ← (if heartbeat then heartbeat_admits command acquired_monotonic_ms else mret true);
        mret (if (admitted : bool) then Some command else None).

(** When the service throws on an emergency stop it has latched, the gear is frozen all the
    same. *)
Definition freeze_gear_after_error (command : ControlCommand) : M V unit :=
  s ← runtime;
  match vr_service s with
  | Some svc =>
      if cmd_estop command && bool_decide (vr_estop_gear s = None) &&
         bool_decide (sm_state (svc_safety svc) = SafetyEstop)
      then
        runtime_update (fun s => s <| vr_estop_gear := Some (cmd_gear command) |>);;
        count estop_gear_freezes;; count estop_gear_freezes_after_apply_error
      else mret tt
  | None => mret tt
  end.

(** The first emergency stop freezes the gear, a fresh command is one to trust. *)
Definition note_gear (command effective : ControlCommand) (fresh : bool) : M V unit :=
  s ← runtime;
  if cmd_estop command && bool_decide (vr_estop_gear s = None) then
    runtime_update (fun s => s <| vr_estop_gear := Some (cmd_gear command) |>);;
    count estop_gear_freezes
  else if negb (cmd_estop command) && fresh then
    runtime_update (fun s => s <| vr_fresh_gear := Some (cmd_gear effective) |>);;
    count fresh_gear_updates
  else mret tt.

Definition note_accepted (command effective : ControlCommand) (fresh heartbeat : bool)
    (received_at_ms acquired_monotonic_ms : Z) : M V unit :=
  count accepted_control_commands;;
  s ← runtime;
  let accepted_count := vr_counters s accepted_control_commands in
  note_gear command effective fresh;;
  when heartbeat (count stale_safe_heartbeats_accepted);;
  runtime_update (fun s => s <| vr_last_control_received_at_ms := received_at_ms |>
                             <| vr_last_accepted_monotonic_ms := acquired_monotonic_ms |>);;
  if (accepted_count =? 1) || (accepted_count mod 100 =? 0) then
    print_event_at received_at_ms "vehicle_native_control_progress"
      [driver_field s; ("transport", j_string (control_transport_name NativeSignaling));
       ("accepted_commands", j_uint accepted_count);
       ("rejected_commands", j_uint (vr_counters s rejected_control_commands))]%string
  else mret tt.

(** Reported when the reason changes and every five seconds. *)
Definition note_refused (command : ControlCommand) (intent_seq : Z) (result : ReceiveResult) :
    M V unit :=
  count rejected_control_commands;;
  at_ms ← media_now_ms;
  when (negb (string_empty (rr_issue_code result)))
    (send_control_command_rejected_locked (cmd_seq command) intent_seq (rr_issue_code result));;
  s ← runtime;
  if String.eqb (rr_reason result) (vr_last_rejection_reason s) &&
     match vr_last_rejection_log_ms s with Some last => at_ms - last <? 5000 | None => false end
  then mret tt
  else
    runtime_update (fun s => s <| vr_last_rejection_reason := rr_reason result |>
                               <| vr_last_rejection_log_ms := Some at_ms |>);;
    let feedback_problem := String.eqb (rr_reason result) "can_feedback_missing" ||
                            String.eqb (rr_reason result) "can_feedback_poll_failed" in
    let issue := rr_issue_code result in
    emit_diagnostic "vehicle_control_command_rejected"
      (if negb (string_empty issue) then issue
       else if feedback_problem then "vcu_feedback_blocks_control" else "control_command_rejected")
      (if feedback_problem then "vcu_feedback_gate" else "control_validation")
      (rr_reason result) true
      [("reason", j_string (rr_reason result));
       ("transport", j_string (control_transport_name NativeSignaling));
       ("safety_action",
        j_string (if String.eqb issue kDriveGearIssue then "traction_withdrawn_retained_gear"
                  else "local_full_stop"))]%string.

Definition receive_native_command (message : json) : M V unit :=
  command ← lift (ControlCommand_from_json message);
  intent_seq ← lift (value_uint64 "intent_seq" 0 message);
  lift (throw_if (intent_seq =? 0) (InvalidArgument "intent_seq must be positive"));;
  fresh ← lift (value_bool "intent_fresh" false message);
  acquired_monotonic_ms ← monotonic_ms;
  received_at_ms ← media_now_ms;
  admitted ← native_gate command fresh acquired_monotonic_ms;
  match admitted with
  | None => mret tt
  | Some command =>
      result ← try_catch (on_service (receive_command command received_at_ms))
                 (fun e => freeze_gear_after_error command;; throw e);
      match rr_accepted result, rr_command result with
      | true, Some effective =>
          note_accepted command effective fresh (stale_safe_heartbeat command fresh) received_at_ms
            acquired_monotonic_ms
      | _, _ => note_refused command intent_seq result
      end
  end.

(** The kinds of message: by its type and event, before the transport. *)
Definition dispatch_control_message (channel : option Z) (transport : ControlMessageTransport)
    (message : json) : M V unit :=
  let native := bool_decide (transport = NativeSignaling) in
  type ← lift (value_string "type" "" message);
  if String.eqb type "session_control_profile" then
    if native then count rejected_control_commands
    else
      request ← lift (SessionControlProfileRequest_from_json message);
      receive_profile_request channel request
  else
    event ← lift (value_string "event" "" message);
    if String.eqb event "vcu_handshake_command" then
      if native then count rejected_control_commands
      else
        action ← lift (value_string "action" "" message);
        receive_handshake_command channel action
    else if native then receive_native_command message
    else refuse_legacy_command.

Definition kMaxControlMessage : Z := 64 * 1024.

Definition handle_control_message (channel : option Z) (data : string)
    (transport : ControlMessageTransport) : M V unit :=
  if string_empty data || (kMaxControlMessage <? Z.of_nat (String.length data)) then
    count rejected_control_commands
  else
    try_catch_std (message ← lift (j_parse data); dispatch_control_message channel transport message)
      (fun e =>
         count rejected_control_commands;;
         print_event "vehicle_control_message_rejected"
           [("transport", j_string (control_transport_name transport));
            ("reason", j_string "invalid_control_message"); ("error", j_string (what e))]%string).

(** ** Deliveries of the native connection *)

Definition kNativeControlWebSocketSendTimeout : Z := 20.

Definition kNativeControlDiagnosticInterval : Z := 5000.

(** An ordinary command sent before the error is worth nothing any more. *)
Definition note_native_control_transport_error (error : string) (protocol_error : bool) : M V unit :=
  count transport_errors;;
  count transport_consecutive_errors;;
  when protocol_error (count protocol_errors);;
  error_at_ms ← media_now_ms;
  runtime_update (fun s => s <| vr_last_error_at_ms := error_at_ms |>
                             <| vr_freshness_cutoff_at_ms := error_at_ms |>
                             <| vr_websocket_connected := false |>);;
  now_monotonic_ms ← monotonic_ms;
  s ← runtime;
  let last_log_ms := vr_last_error_log_monotonic_ms s in
  if negb (last_log_ms =? 0) && (now_monotonic_ms - last_log_ms <? kNativeControlDiagnosticInterval)
  then mret tt
  else
    runtime_update (fun s => s <| vr_last_error_log_monotonic_ms := now_monotonic_ms |>);;
    try_catch
      (emit_diagnostic "vehicle_native_control_websocket_failed"
         (if protocol_error then "native_control_websocket_protocol_failed"
          else "native_control_websocket_connection_failed") "native_control_signaling" error true
         [("transport", j_string (control_transport_name NativeSignaling));
          ("protocol_error", j_bool protocol_error);
          ("consecutive_errors", j_uint (vr_counters s transport_consecutive_errors));
          ("errors_total", j_uint (vr_counters s transport_errors));
          ("safety_action", j_string "local_watchdog_safe_stop")]%string)
      (fun _ => mret tt).

(** [websocket.send_json(...)] on the connection of the receiver thread. *)
Definition native_ws {R} (m : M (ws * W) R) : M V R := fun p =>
  match vp_websocket p with
  | Some h =>
      let '(answer, (h, w)) := m (h, vp_host p) in
      (answer, p <| vp_websocket := Some h |> <| vp_host := w |>)
  | None => (Throw (LogicError "no connection"), p)
  end.

(** A message of a delivery: its cursor and its command, if it is one that may be considered. *)
Definition scan_message (delivery_cursor : Z) (message : json) : result (Z * ControlCommand) :=
  type ← (if is_object message then value_string "type" "" message else Ok ""%string);
  throw_if (negb (is_object message) || negb (String.eqb type "control_command"))
    (InvalidArgument "unexpected message type");;
  message_cursor ← (field ← j_at "delivery_cursor" message; get_uint64 field);
  throw_if ((message_cursor =? 0) || (delivery_cursor <? message_cursor))
    (InvalidArgument "invalid message delivery cursor");;
  payload ← j_at "payload" message;
  throw_if (negb (is_object payload)) (InvalidArgument "control payload must be an object");;
  command ← ControlCommand_from_json payload;
  intent_seq ← (field ← j_at "intent_seq" payload; get_uint64 field);
  throw_if (intent_seq =? 0) (InvalidArgument "intent_seq must be positive");;
  fresh ← (if j_contains "intent_fresh" payload then j_at "intent_fresh" payload else Ok j_null);
  throw_if (negb (j_contains "intent_fresh" payload) || negb (is_boolean fresh))
    (InvalidArgument "intent_fresh must be a boolean");;
  Ok (message_cursor, command).

(** The best message so far and its cursor. *)
Record DeliveryScan := mkDeliveryScan {
  scn_newest : option json;
  scn_newest_cursor : Z;
  scn_newest_estop : option json;
  scn_newest_estop_cursor : Z;
  scn_valid_messages : Z;
  scn_first_protocol_issue : string;
}.

Definition DeliveryScan_new : DeliveryScan := mkDeliveryScan None 0 None 0 0 "".

Definition scan_step (delivery_cursor : Z) (scan : DeliveryScan) (message : json) :
    result DeliveryScan :=
  match scan_message delivery_cursor message with
  | Ok (cursor, command) =>
      let newer := scn_newest_cursor scan <=? cursor in
      let newer_estop := cmd_estop command && (scn_newest_estop_cursor scan <=? cursor) in
      Ok (mkDeliveryScan
            (if newer then Some message else scn_newest scan)
            (if newer then cursor else scn_newest_cursor scan)
            (if newer_estop then Some message else scn_newest_estop scan)
            (if newer_estop then cursor else scn_newest_estop_cursor scan)
            (scn_valid_messages scan + 1) (scn_first_protocol_issue scan))
  | Throw e =>
      if is_std_exception e then
        Ok (mkDeliveryScan (scn_newest scan) (scn_newest_cursor scan) (scn_newest_estop scan)
              (scn_newest_estop_cursor scan) (scn_valid_messages scan)
              (if string_empty (scn_first_protocol_issue scan) then what e
               else scn_first_protocol_issue scan))
      else Throw e
  end.

Definition scan_delivery (delivery_cursor : Z) (messages : list json) : result DeliveryScan :=
  fold_result (scan_step delivery_cursor) DeliveryScan_new messages.

Definition sibling_error (issue : string) : exn :=
  InvalidArgument ("native control WebSocket contained an invalid sibling message: " +:+ issue).

(** The newest emergency stop, or the newest command: the one that counts. *)
Definition selected_message (scan : DeliveryScan) : result json :=
  match scn_newest_estop scan, scn_newest scan with
  | Some estop, _ => Ok estop
  | None, Some newest =>
      throw_if (negb (string_empty (scn_first_protocol_issue scan)))
        (sibling_error (scn_first_protocol_issue scan));;
      Ok newest
  | None, None =>
      Throw (InvalidArgument
        (if string_empty (scn_first_protocol_issue scan)
         then "native control WebSocket contained no valid control command"
         else "invalid native control WebSocket message: " +:+ scn_first_protocol_issue scan))
  end.

(** The command is handled, unless it was sent before the last error. *)
Definition apply_delivery (payload : json) : M V unit :=
  sent_at_ms ← lift (field ← j_at "sent_at_utc_ms" payload; get_int64 field);
  estop ← lift (value_bool "estop" false payload);
  s ← runtime;
  let cutoff_ms := vr_freshness_cutoff_at_ms s in
  if negb estop && (0 <? cutoff_ms) && (sent_at_ms <=? cutoff_ms) then
    count websocket_post_error_discards
  else
    data ← lift (j_dump payload);
    handle_control_message None data NativeSignaling.

Definition delivery_ack_of (delivery_cursor : Z) (payload : json) : result json :=
  session ← value_string "session_id" "" payload;
  seq ← value_uint64 "seq" 0 payload;
  intent_seq ← value_uint64 "intent_seq" 0 payload;
  Ok (j_object [("event", j_string "signaling_delivery_ack");
                ("delivery_cursor", j_uint delivery_cursor);
                ("trace_session_id", j_string session); ("seq", j_uint seq);
                ("intent_seq", j_uint intent_seq)]%string).

Definition handle_delivery (envelope : json) : M V unit :=
  delivery_cursor ← lift (field ← j_at "delivery_cursor" envelope; get_uint64 field);
  lift (throw_if (delivery_cursor =? 0)
          (InvalidArgument "native control WebSocket delivery cursor must be positive"));;
  messages ← lift (j_at "messages" envelope);
  let elements := j_elements messages in
  lift (throw_if (negb (is_array messages) || bool_decide (elements = []))
          (InvalidArgument "native control WebSocket messages must be a non-empty array"));;
  count websocket_envelopes;;
  add_counter websocket_messages (Z.of_nat (length elements));;
  scan ← lift (scan_delivery delivery_cursor elements);
  (match scn_newest scan with
   | Some _ => when (1 <? scn_valid_messages scan)
                 (add_counter websocket_superseded_messages (scn_valid_messages scan - 1))
   | None => mret tt
   end);;
  selected ← lift (selected_message scan);
  payload ← lift (j_at "payload" selected);
  apply_delivery payload;;
  ack ← lift (delivery_ack_of delivery_cursor payload);
  native_ws (ws_send_json ack kNativeControlWebSocketSendTimeout);;
  count delivery_acks_sent;;
  at_ms ← media_now_ms;
  runtime_update (fun s => s <| vr_last_message_at_ms := at_ms |>);;
  lift (throw_if (negb (string_empty (scn_first_protocol_issue scan)))
          (sibling_error (scn_first_protocol_issue scan))).

Definition handle_native_control_websocket_envelope (envelope : json) : M V unit :=
  lift (throw_if (negb (is_object envelope))
          (InvalidArgument "native control WebSocket envelope must be an object"));;
  error ← lift (if j_contains "error" envelope
                then value_string "error" "native control WebSocket was rejected" envelope
                else Ok ""%string);
  lift (throw_if (j_contains "error" envelope) (RuntimeError error));;
  event ← lift (value_string "event" "" envelope);
  if String.eqb event "signaling_delivery_acknowledged" then count delivery_acknowledgements
  else
    lift (throw_if (negb (String.eqb event "signaling_messages"))
            (InvalidArgument "native control WebSocket returned an unexpected event"));;
    handle_delivery envelope.
End messages.
