(* ===== verification/VehicleCameras.v ===== *)
(** VehicleCameras: when the vehicle's control runs, and what ends it (webrtc_media.cpp:806-826,
    850-962, 1073-1153, 2190-2235, 2382-2555, 2627-2744, 2920-2936, 3171-3251, 3269-3299).

    Everything here is one step: a body under [control_mutex], or a part of a function between
    two of them, named after the function.  VehicleThreads puts the parts together.

    - [start_control_service], [tick_control_service];
    - the ends of control: the link ([on_control_channel_close]), a pipeline fault ([fault_stop_locked]), a
      critical camera ([camera_stop_locked]), the end of an attempt ([detach_control_locked]). *)
From S2P Require Export VehicleControl.

Definition session_lost : VehicleStopContext := mkVehicleStopContext Session SessionLost.
Definition camera_failed : VehicleStopContext := mkVehicleStopContext SoftwareFault CriticalCameraFailed.
Definition pipeline_failed : VehicleStopContext := mkVehicleStopContext SoftwareFault MediaPipelineFailed.
Definition vcu_fault : VehicleStopContext := mkVehicleStopContext SoftwareFault VcuStateFault.

Section cameras.
Context {J : JsonApi} {A W : Type} {VA : VehicleAdapter A}.
Context {Http : HttpTransport W} {Clock : ClockApi W} {Sort : SampleSort}.
Context {Sockets : WebSocketApi W} {Host : RuntimeHost A W}.
Notation V := (VehicleProcess A W).
Notation Rt := (VehicleRuntime J A).

(** ** Cameras *)

Definition update_lane (i : nat) (f : Lane -> Lane) : M V unit :=
  runtime_update (fun s => s <| vr_lanes ::= alter f i |>).

(** [count_encoded], the counters of its latency aside. *)
Definition count_encoded (i : nat) : M V unit :=
  encoded_at_ms ← media_now_ms;
  steady_ms ← monotonic_ms;
  update_lane i (fun l => l <| ln_encoded ::= fun n => u64 (n + 1) |>
                            <| ln_last_encoded_ms := encoded_at_ms |>
                            <| ln_last_encoded_steady_ms := steady_ms |>).

(** Each look at a camera reads the clock. *)
Fixpoint lanes_ready (frame_timeout_ms : Z) (lanes : list Lane) : M V bool :=
  match lanes with
  | [] => mret true
  | lane :: lanes =>
      if negb (cam_critical_for_control (ln_camera lane)) then lanes_ready frame_timeout_ms lanes
      else if ln_disabled lane then mret false
      else
        now ← monotonic_ms;
        if camera_encoded_frame_fresh (ln_last_encoded_steady_ms lane) now frame_timeout_ms
        then lanes_ready frame_timeout_ms lanes else mret false
  end.

Definition critical_cameras_ready : M V bool :=
  s ← runtime; lanes_ready (vr_frame_timeout_ms s) (vr_lanes s).

(** [control_inhibited.exchange(true)]: whether it was set before. *)
Definition inhibit_exchange : M V bool :=
  flags_seen;;
  s ← runtime;
  runtime_update (fun s => s <| vr_control_inhibited := true |>);;
  mret (vr_control_inhibited s).

(** The latch of the session; an error is kept for the diagnostics. *)
Definition inhibit_latch : M V (option string) :=
  s ← runtime;
  try_catch_std (on_latch (latch_inhibit (msc_session_id (vr_signaling s)));; mret None)
    (fun e => mret (Some (what e))).

(** The locked part of [inhibit_control_for_critical_camera]: the error of the stop and the
    channel to close. *)
Definition camera_stop_locked : M V (option string * option Z) :=
  runtime_update (fun s => s <| vr_issue_code := "critical_camera_failed"%string |>);;
  invalidate_trusted_gear;;
  error ← close_service camera_failed;
  send_vcu_handshake_status_locked "critical_camera_failed";;
  s ← runtime;
  mret (error, vr_control_channel s).

(** The camera, if any, whose output has been stale for too long. *)
Definition stale_lane (now_ms frame_timeout_ms : Z) (lane : Lane) : bool :=
  let reference := if 0 <? ln_last_encoded_steady_ms lane then ln_last_encoded_steady_ms lane
                   else ln_pipeline_started_steady_ms lane in
  cam_critical_for_control (ln_camera lane) && negb (ln_disabled lane) && (0 <? reference) &&
  negb (now_ms - reference <=? frame_timeout_ms).

Definition find_stale_lane : M V (option Lane) :=
  flags_seen;;
  s ← runtime;
  if negb (rt_control_enabled (cfg_runtime (vr_config s))) || vr_stop_requested s ||
     vr_control_inhibited s
  then mret None
  else
    now_ms ← monotonic_ms;
    grace ← on_latch (latch_startup_grace_active (msc_session_id (vr_signaling s)) now_ms);
    if (grace : bool) then mret None
    else
      flags_seen;;
      s ← runtime;
      match List.find (stale_lane now_ms (vr_frame_timeout_ms s)) (vr_lanes s) with
      | Some lane => mret (if vr_stop_requested s then None else Some lane)
      | None => mret None
      end.

(** ** Faults of the pipeline *)

(** The first error of an attempt is kept: whether this is it. *)
Definition note_pipeline_failure (failure : PipelineFailure) : M V bool :=
  s ← runtime;
  let first := string_empty (pf_error (vr_pipeline_failure s)) in
  when first (runtime_update (fun s => s <| vr_pipeline_failure := failure |>));;
  mret first.

Definition request_stop : M V unit := runtime_update (fun s => s <| vr_stop_requested := true |>).

(** The locked part of [stop_control_for_pipeline_fault]. *)
Definition fault_stop_locked (issue_code : string) : M V (option string * option Z) :=
  runtime_update (fun s => s <| vr_issue_code := issue_code |>);;
  invalidate_trusted_gear;;
  error ← close_service pipeline_failed;
  send_vcu_handshake_status_locked "media_pipeline_failed";;
  s ← runtime;
  mret (error, vr_control_channel s).

(** ** Starting control *)

Definition set_issue_code (code : string) : M V unit :=
  runtime_update (fun s => s <| vr_issue_code := code |>).

(** A flag raised while the adapter opened: the service is closed again. *)
Definition retract_service : M V bool :=
  s ← runtime;
  let inhibited := vr_control_inhibited s in
  try_catch_std (on_service (close (if inhibited then camera_failed else session_lost)))
    (fun e => report_close_error "camera_safety" (Some (what e))
                [("safety_action", j_string "physical_estop_required_video_continues")]%string);;
  drop_service;;
  s ← runtime;
  set_issue_code (if vr_control_inhibited s then "critical_camera_failed" else "media_pipeline_failed");;
  mret false.

(** [control_service->start(...)], then the flags are looked at again. *)
Definition open_service : M V bool :=
  media_now_ms;;
  on_service start;;
  flags_seen;;
  s ← runtime;
  if vr_stop_requested s || vr_control_inhibited s then retract_service
  else
    runtime_update (fun s => s <| vr_service_started := true |> <| vr_last_telemetry_seq := 0 |>);;
    mret true.

(** A new service on a new adapter. *)
Definition create_service : M V bool :=
  invalidate_trusted_gear;;
  set_issue_code "";;
  s ← runtime;
  adapter ← on_world (mh_create_adapter (vr_config s));
  let client := vr_signaling s in
  svc ← (match VehicleControlService_new (vr_config s) (msc_driver_id client)
                 (msc_session_id client) (msc_control_token client) adapter 100 with
         | Ok svc => mret svc
         | Throw e => world_update (mh_release_adapter adapter);; throw e
         end);
  drop_service;;
  runtime_update (fun s => s <| vr_service := Some svc |>);;
  open_service.

(** The locked part of [start_control_service]: [None] when the service was running. *)
Definition start_locked : M V (option bool) :=
  flags_seen;;
  s ← runtime;
  if service_running s then mret None
  else if vr_stop_requested s || link_down s then mret (Some false)
  else if vr_control_inhibited s then set_issue_code "critical_camera_failed";; mret (Some false)
  else
    ready ← critical_cameras_ready;
    if negb ready then set_issue_code "critical_camera_not_ready";; mret (Some false)
    else
      armed ← on_latch (latch_arm_for_control (msc_session_id (vr_signaling s)));
      if negb armed then set_issue_code "critical_camera_failed";; mret (Some false)
      else created ← create_service; mret (Some created).

Definition adapter_details (config : VehicleConfig) : list (string * json) :=
  [("adapter_type", j_string (vac_type (cfg_vehicle_adapter config)));
   ("can_interface", j_string (vac_can_interface (cfg_vehicle_adapter config)));
   ("can_bitrate", j_int (hw_can_bitrate (cfg_hardware config)));
   ("can_tx_queue_length", j_int (hw_can_tx_queue_length (cfg_hardware config)));
   ("bridge_library_path", j_string (vac_bridge_library_path (cfg_vehicle_adapter config)))]%string.

(** What a failed start leaves: no service. *)
Definition start_failed_locked : M V unit :=
  runtime_update (fun s => s <| vr_service_started := false |>);;
  drop_service;;
  set_issue_code "vcu_adapter_start_failed".

Definition start_control_service : M V bool :=
  s ← runtime;
  let config := vr_config s in
  if negb (rt_control_enabled (cfg_runtime config)) then mret false
  else
    try_catch_std
      (started ← start_locked;
       match started with
       | None => mret true
       | Some false => mret false
       | Some true =>
           emit_diagnostic "vehicle_vcu_adapter_ready" "vcu_adapter_ready" "vcu_adapter_start" ""
             true (adapter_details config);;
           mret true
       end)
      (fun e =>
         start_failed_locked;;
         emit_diagnostic "vehicle_vcu_adapter_start_failed" "vcu_adapter_start_failed"
           "vcu_adapter_start" (what e) true
           (adapter_details config ++
            [("safety_action", j_string "control_not_started_video_continues")]%string);;
         mret false).

(** Whether cameras that were not ready are what control waits for. *)
Definition waiting_for_cameras_locked : M V bool :=
  flags_seen;;
  s ← runtime;
  mret (negb (vr_stop_requested s || link_down s || vr_service_started s) &&
        String.eqb (vr_issue_code s) "critical_camera_not_ready").

(** The channel to close after a start that failed for another reason than a camera. *)
Definition failed_channel_locked : M V (option Z) :=
  s ← runtime;
  mret (if String.eqb (vr_issue_code s) "critical_camera_not_ready" then None
        else vr_control_channel s).

(** ** The data channel *)

(** The locked part of [configure_control_data_channel]. *)
Definition publish_channel_locked (channel : Z) : M V unit :=
  flags_seen;;
  s ← runtime;
  if vr_stop_requested s then close_channel (Some channel)
  else
    runtime_update (fun s => s <| vr_control_status_seq := 0 |>
                               <| vr_last_rejection_status_issue_code := ""%string |>
                               <| vr_last_rejection_status_ms := None |>
                               <| vr_control_channel := Some channel |>).

(** The first locked part of [on_control_channel_open]: whether the channel is the current one. *)
Definition link_opened_locked (channel : Z) : M V bool :=
  flags_seen;;
  s ← runtime;
  if vr_stop_requested s || negb (bool_decide (vr_control_channel s = Some channel)) then mret false
  else
    invalidate_trusted_gear;;
    runtime_update (fun s => s <| vr_link_open := true |> <| vr_link_ever_opened := true |>
                               <| vr_link_opened_this_attempt := true |>);;
    mret true.

(** [on_control_channel_close] *)
Definition on_control_channel_close (channel : Z) : M V unit :=
  s ← runtime;
  if negb (bool_decide (vr_control_channel s = Some channel)) then mret tt
  else
    runtime_update (fun s => s <| vr_link_open := false |>);;
    if negb (vr_link_open s) then mret tt
    else
      invalidate_trusted_gear;;
      count control_link_loss_count;;
      (if service_running s then
         try_catch_std (on_service (close session_lost))
           (fun e => report_close_error "vcu_data_channel_close" (Some (what e))
                       [("safety_action", j_string "local_full_stop_requested")]%string);;
         runtime_update (fun s => s <| vr_service_started := false |>);;
         drop_service
       else mret tt);;
      s ← runtime;
      print_event "vehicle_control_data_channel_closed"
        [driver_field s;
         ("accepted_commands", j_uint (vr_counters s accepted_control_commands));
         ("rejected_commands", j_uint (vr_counters s rejected_control_commands));
         ("last_received_at_utc_ms", j_int (vr_last_control_received_at_ms s));
         ("safety_action", j_string "local_full_stop")]%string.

Definition on_control_channel_error (channel : Z) (error : string) : M V unit :=
  print_event "vehicle_control_data_channel_error" [("error", j_string error)]%string;;
  on_control_channel_close channel.

(** ** The watchdog *)

(** A tick that throws ends control: first the diagnostics, then the stop. *)
Definition tick_failed (error : string) : M V unit :=
  emit_diagnostic "vehicle_vcu_runtime_failed" "vcu_runtime_operation_failed" "vcu_control_tick" error
    true [("safety_action", j_string "local_full_stop_control_disabled_video_continues")]%string;;
  try_catch_std (on_service (close vcu_fault))
    (fun e => report_close_error "vcu_control_tick" (Some (what e))
                [("safety_action", j_string "physical_estop_required_video_continues")]%string);;
  runtime_update (fun s => s <| vr_service_started := false |>);;
  invalidate_trusted_gear;;
  drop_service;;
  set_issue_code "vcu_runtime_operation_failed";;
  send_vcu_handshake_status_locked "adapter_runtime_failed";;
  s ← runtime;
  close_channel (vr_control_channel s).

(** Status twice a second, telemetry when there is a new record. *)
Definition report_status_locked (timestamp_ms : Z) : M V unit :=
  s ← runtime;
  when (vr_link_open s &&
        match vr_last_vcu_status_ms s with Some last => 500 <=? timestamp_ms - last | None => true end)
    (send_vcu_handshake_status_locked "status_update";;
     runtime_update (fun s => s <| vr_last_vcu_status_ms := Some timestamp_ms |>));;
  s ← runtime;
  when (vr_link_open s) send_latest_vehicle_telemetry_locked.

Definition tick_control_service : M V unit :=
  flags_seen;;
  s ← runtime;
  if vr_stop_requested s || vr_control_inhibited s || negb (service_running s) then mret tt
  else
    timestamp_ms ← media_now_ms;
    failed ← try_catch_std (on_service (tick timestamp_ms);; mret None)
               (fun e => mret (Some (what e)));
    match failed with
    | Some error => tick_failed error
    | None => report_status_locked timestamp_ms
    end.

(** ** Attempts *)

(** The locked part of [stop_pipeline]: the channel to close. *)
Definition detach_control_locked : M V (option Z) :=
  s ← runtime;
  runtime_update (fun s => s <| vr_control_channel := None |> <| vr_link_open := false |>);;
  invalidate_trusted_gear;;
  (if service_running s then
     try_catch_std (on_service (close session_lost))
       (fun e => report_close_error "vcu_adapter_close" (Some (what e))
                   [("safety_action", j_string "local_full_stop_requested")]%string)
   else mret tt);;
  runtime_update (fun s => s <| vr_service_started := false |>);;
  drop_service;;
  mret (vr_control_channel s).

(** The assignments [start_pipeline] begins with. *)
Definition begin_attempt (lanes : list Lane) : M V unit :=
  runtime_update (fun s => s <| vr_pipeline_failure := PipelineFailure_none |>
                             <| vr_stop_requested := false |>
                             <| vr_link_opened_this_attempt := false |> <| vr_lanes := lanes |>).

(** [start_native_control_transport]; the threads are those of VehicleThreads. *)
Definition start_native_control_transport : M V unit :=
  flags_seen;;
  s ← runtime;
  if negb (rt_control_enabled (cfg_runtime (vr_config s))) || vr_stop_requested s then mret tt
  else
    lift (throw_if (vr_transport_running s)
            (LogicError "native control transport threads are already running"));;
    runtime_update (fun s => s <| vr_fresh_gear := None |> <| vr_estop_gear := None |>
                               <| vr_last_accepted_monotonic_ms := 0 |>);;
    runtime_update (set_counter transport_consecutive_errors 0);;
    cutoff_ms ← media_now_ms;
    runtime_update (fun s => s <| vr_freshness_cutoff_at_ms := cutoff_ms |>
                               <| vr_transport_running := true |>).

(** The session an attempt is for: control is inhibited if the latch says so. *)
Definition admit_session : M V bool :=
  s ← runtime;
  inherited ← on_latch (latch_enter_session (msc_session_id (vr_signaling s)));
  runtime_update (fun s => s <| vr_control_inhibited := inherited |>);;
  when inherited
    (emit_diagnostic "vehicle_control_inhibition_retained"
       "critical_camera_control_inhibition_retained" "camera_safety"
       "a critical-camera fault already inhibited control for this active session" false
       [("safety_action", j_string "control_disabled_video_may_continue")]%string);;
  mret inherited.
End cameras.
