(* ===== verification/VehicleThreads.v ===== *)
(** VehicleThreads: the threads of the media runtime (webrtc_media.cpp:850-962, 1073-1205,
    2075-2188, 2382-2523, 2627-2678, 3167-3301, 3390-3397, 3563-3652, 3741-3764;
    mine_teleop.cpp:541-651).

    - [runtime_step], everything one of the threads does without interruption;
      [runtime_steps], an execution: the steps of all threads in some order;
    - [VehicleThreads]: the steps the others take between two of this thread's;
    - the functions made of several steps: the channel's callbacks, [set_pipeline_error],
      [inhibit_control_for_critical_camera], the loops of the receiver and of the watchdog, the
      beginning and the end of an attempt, the reaction of the service loop to its errors.

    [rounds] bounds the turns of a loop that runs until it is stopped. *)
From S2P Require Export VehicleCameras.

Inductive runtime_step {J : JsonApi} : Type :=
(* the data channel *)
| StepData (channel : Z) (data : string)
| StepLinkOpened (channel : Z)
| StepLinkClosed (channel : Z)
| StepLinkError (channel : Z) (error : string)
(* the native connection and the watchdog *)
| StepEnvelope (envelope : json)
| StepTransportError (error : string) (protocol_error : bool)
| StepTick
(* cameras *)
| StepFrame (lane : nat)
| StepLaneDisabled (lane : nat)
| StepInhibit
| StepLatch
| StepCameraStop
| StepFindStale
(* the main thread *)
| StepStart
| StepStatus (result : string)
| StepIssueCode (code : string)
| StepPipelineFailure (failure : PipelineFailure)
| StepRequestStop
| StepFaultStop (issue_code : string)
| StepDetach
| StepAttempt (lanes : list Lane)
| StepTransport
| StepPublish (channel : Z)
| StepSignal (type : string) (payload : json)
| StepTimeSync (sample_count : Z).

Section threads.
Context {J : JsonApi} {A W : Type} {VA : VehicleAdapter A}.
Context {Http : HttpTransport W} {Clock : ClockApi W} {Sort : SampleSort}.
Context {Sockets : WebSocketApi W} {Host : RuntimeHost A W}.
Notation V := (VehicleProcess A W).

Definition quietly {R} (m : M V R) : M V unit := m;; mret tt.

Definition run_step (step : runtime_step) : M V unit :=
  match step with
  | StepData channel data => handle_control_message (Some channel) data DataChannel
  | StepLinkOpened channel => quietly (link_opened_locked channel)
  | StepLinkClosed channel => on_control_channel_close channel
  | StepLinkError channel error => on_control_channel_error channel error
  | StepEnvelope envelope => handle_native_control_websocket_envelope envelope
  | StepTransportError error protocol_error => note_native_control_transport_error error protocol_error
  | StepTick => tick_control_service
  | StepFrame lane => count_encoded lane
  | StepLaneDisabled lane => update_lane lane (fun l => l <| ln_disabled := true |>)
  | StepInhibit => quietly inhibit_exchange
  | StepLatch => quietly inhibit_latch
  | StepCameraStop => quietly camera_stop_locked
  | StepFindStale => quietly find_stale_lane
  | StepStart => quietly start_control_service
  | StepStatus result => send_vcu_handshake_status_locked result
  | StepIssueCode code => set_issue_code code
  | StepPipelineFailure failure => quietly (note_pipeline_failure failure)
  | StepRequestStop => request_stop
  | StepFaultStop issue_code => quietly (fault_stop_locked issue_code)
  | StepDetach => quietly detach_control_locked
  | StepAttempt lanes => begin_attempt lanes
  | StepTransport => start_native_control_transport
  | StepPublish channel => publish_channel_locked channel
  | StepSignal type payload => on_client (send_signal type payload)
  | StepTimeSync sample_count => quietly (on_client (synchronize_time sample_count))
  end.

(** An exception ends the function it is thrown in; what it did stays. *)
Definition runtime_steps (steps : list runtime_step) (p : V) : V :=
  foldl (fun p step => (run_step step p).2) p steps.
End threads.

Class VehicleThreads {J : JsonApi} (W : Type) : Type := {
  vt_steps : W -> list runtime_step * W;
}.

Section functions.
Context {J : JsonApi} {A W : Type} {VA : VehicleAdapter A}.
Context {Http : HttpTransport W} {Clock : ClockApi W} {Sort : SampleSort}.
Context {Sockets : WebSocketApi W} {Host : RuntimeHost A W} {Threads : VehicleThreads W}.
Notation V := (VehicleProcess A W).

(** The other threads, before a lock is had and while this one waits. *)
Definition threads_run : M V unit := fun p =>
  let '(steps, w) := vt_steps (vp_host p) in
  (Ok tt, runtime_steps steps (p <| vp_host := w |>)).

Definition locked {R} (m : M V R) : M V R := threads_run;; m.

(** ** Faults *)

Definition stop_control_for_pipeline_fault (issue_code : string) : M V unit :=
  stopped ← locked (fault_stop_locked issue_code);
  report_close_error "media_pipeline_safety" stopped.1
    [("safety_action", j_string "physical_estop_required")]%string;;
  close_channel stopped.2.

Definition set_pipeline_error (failure : PipelineFailure) (details : list (string * json)) : M V unit :=
  first ← locked (note_pipeline_failure failure);
  if negb first then mret tt
  else
    request_stop;;
    stop_control_for_pipeline_fault (pf_issue_code failure);;
    emit_diagnostic "vehicle_media_pipeline_failed" (pf_issue_code failure) (pf_stage failure)
      (pf_error failure) (pf_retryable failure)
      (details ++ [("safety_action", j_string "local_full_stop")]%string).

Definition inhibit_control_for_critical_camera (lane : Lane) (failure : string) : M V unit :=
  before ← inhibit_exchange;
  if (before : bool) then mret tt
  else
    latch_error ← locked inhibit_latch;
    stopped ← locked camera_stop_locked;
    now ← monotonic_ms;
    let last_encoded_ms := ln_last_encoded_steady_ms lane in
    let age := if 0 <? last_encoded_ms then j_int (now - last_encoded_ms) else j_null in
    let camera := ("camera_id"%string, j_string (cam_id (ln_camera lane))) in
    emit_diagnostic "vehicle_control_inhibited_by_camera" "critical_camera_control_inhibited"
      "camera_safety" failure false
      [camera; ("device", j_string (cam_device (ln_camera lane)));
       ("safety_action", j_string "local_full_stop_control_channel_closed_video_continues");
       ("encoded_frames", j_uint (ln_encoded lane));
       ("last_encoded_age_ms", age);
       ("startup_timeout_ms", j_int kCriticalCameraStartupTimeoutMs)]%string;;
    match latch_error with
    | None => mret tt
    | Some error =>
        emit_diagnostic "vehicle_control_inhibition_latch_failed" "critical_camera_control_latch_failed"
          "camera_safety" error false
          [camera; ("safety_action",
                    j_string "local_full_stop_physical_estop_if_state_uncertain")]%string
    end;;
    report_close_error "camera_safety" stopped.1
      [camera; ("safety_action", j_string "physical_estop_required_video_continues")]%string;;
    close_channel stopped.2.

Definition enforce_critical_camera_freshness : M V unit :=
  threads_run;;
  stale ← find_stale_lane;
  match stale with
  | None => mret tt
  | Some lane =>
      frame_timeout_ms ← gets (fun p => vr_frame_timeout_ms (vp_runtime p));
      inhibit_control_for_critical_camera lane
        ("critical camera encoded output has been stale for more than " +:+
         to_string_Z frame_timeout_ms +:+ " ms")
  end.

Definition camera_safety_action (decision : CameraFailureDecision) : string :=
  match cfd_inhibit_control decision, cfd_lane_action decision with
  | true, ReopenLane => "local_full_stop_and_reopen_camera_lane"
  | true, DisableLane => "local_full_stop_and_disable_failed_camera_lane"
  | false, ReopenLane => "reopen_noncritical_camera_lane_only"
  | false, DisableLane => "disable_noncritical_camera_lane_only"
  end.

(** Its reports of the frames and of the source are left out. *)
Definition emit_camera_failure (lane : Lane) (failure : string) (failure_count : Z)
    (decision : CameraFailureDecision) : M V unit :=
  let issue := classify_camera_issue failure in
  let camera := ln_camera lane in
  emit_diagnostic "vehicle_camera_failed" (ci_code issue) (ci_stage issue) failure (ci_retryable issue)
    [("camera_id", j_string (cam_id camera)); ("device", j_string (cam_device camera));
     ("profile", j_string (cam_realtime_profile camera)); ("encoded_frames", j_uint (ln_encoded lane));
     ("critical_for_control", j_bool (cam_critical_for_control camera));
     ("failure_count", j_int failure_count); ("reopen_attempts", j_int (cam_reopen_attempts camera));
     ("safety_action", j_string (camera_safety_action decision))]%string.

Definition gstreamer_failure (failure : string) : bool :=
  starts_with "cannot allocate GStreamer camera buffer" failure ||
  starts_with "GStreamer appsrc rejected camera frame" failure.

(** A camera source that failed: whether the lane is tried again.  A failure of the pipeline
    behind it ends the attempt. *)
Definition handle_camera_failure (i : nat) (failure : string) : M V bool :=
  stop ← stop_seen;
  s ← runtime;
  match vr_lanes s !! i with
  | None => mret false
  | Some lane =>
      let issue := classify_camera_issue failure in
      let camera := ln_camera lane in
      let fields := [("camera_id", j_string (cam_id camera)); ("device", j_string (cam_device camera))]%string in
      if (stop : bool) then mret false
      else if gstreamer_failure failure then
        set_pipeline_error
          (mkPipelineFailure ("camera lane " +:+ cam_id camera +:+ ": " +:+ failure) (ci_code issue)
             (ci_stage issue) (ci_retryable issue))
          (fields ++ [("failure_scope", j_string "gstreamer_pipeline")]%string);;
        mret false
      else
        let failure_count := ln_failure_count lane + 1 in
        update_lane i (fun l => l <| ln_failure_count := failure_count |>);;
        decision ← lift (camera_failure_decision camera failure_count (ci_retryable issue));
        when (cfd_inhibit_control decision) (inhibit_control_for_critical_camera lane failure);;
        update_lane i (fun l => l <| ln_error := failure |>);;
        emit_camera_failure lane failure failure_count decision;;
        let critical := cam_critical_for_control camera in
        let fields := fields ++ [("critical_for_control", j_bool critical)]%string in
        match cfd_lane_action decision with
        | DisableLane =>
            update_lane i (fun l => l <| ln_disabled := true |>);;
            emit_diagnostic "vehicle_camera_lane_disabled" "camera_reopen_exhausted" "camera_reopen"
              failure false
              (fields ++ [("failure_count", j_int failure_count); ("reopen_count", j_int (ln_reopen_count lane));
                          ("safety_action",
                           j_string (if critical
                                     then "control_inhibited_disable_failed_camera_lane_video_continues"
                                     else "disable_noncritical_camera_lane_only"))]%string);;
            mret false
        | ReopenLane =>
            update_lane i (fun l => l <| ln_reopen_count ::= Z.add 1 |>);;
            emit_diagnostic "vehicle_camera_reopen_scheduled" "camera_lane_reopen_scheduled"
              "camera_reopen" failure true
              (fields ++ [("reopen_count", j_int (ln_reopen_count lane + 1));
                          ("reopen_attempts", j_int (cam_reopen_attempts camera));
                          ("retry_after_ms", j_int (cam_reopen_backoff_ms camera));
                          ("safety_action",
                           j_string (if critical
                                     then "local_full_stop_reopen_camera_lane_video_continues"
                                     else "reopen_noncritical_camera_lane_only"))]%string);;
            threads_run;;
            stop ← stop_seen; mret (negb stop)
        end
  end.

(** ** The data channel *)

Definition configure_control_data_channel : M V unit :=
  s ← runtime;
  if negb (rt_control_enabled (cfg_runtime (vr_config s))) then mret tt
  else
    channel ← on_world (fun w => let '(channel, w) := mh_create_channel w in (Ok channel, w));
    match channel with
    | None =>
        set_pipeline_error
          (mkPipelineFailure "webrtcbin failed to create the control data channel"
             "control_data_channel_create_failed" "webrtc_data_channel" false) [];;
        throw (RuntimeError "webrtcbin failed to create the control data channel")
    | Some channel => locked (publish_channel_locked channel)
    end.

Definition start_control_when_cameras_ready : M V unit :=
  flags_seen;;
  s ← runtime;
  if negb (rt_control_enabled (cfg_runtime (vr_config s))) || vr_control_inhibited s then mret tt
  else
    ready ← critical_cameras_ready;
    waiting ← (if (ready : bool) then locked waiting_for_cameras_locked else mret false);
    if negb waiting then mret tt
    else
      adapter_ready ← locked start_control_service;
      locked (send_vcu_handshake_status_locked
                (if (adapter_ready : bool) then "critical_cameras_ready" else "adapter_start_failed"));;
      if (adapter_ready : bool) then mret tt
      else channel ← locked failed_channel_locked; close_channel channel.

Definition on_control_channel_open (channel : Z) : M V unit :=
  current ← locked (link_opened_locked channel);
  if negb current then close_channel (Some channel)
  else
    cameras_ready ← critical_cameras_ready;
    flags_seen;;
    s ← runtime;
    let control_inhibited := vr_control_inhibited s in
    adapter_ready ←
      (if control_inhibited then locked (set_issue_code "critical_camera_failed");; mret false
       else if (cameras_ready : bool) then locked start_control_service
       else locked (set_issue_code "critical_camera_not_ready");; mret false);
    locked (send_vcu_handshake_status_locked "driver_connected");;
    print_event "vehicle_control_data_channel_open"
      [driver_field s; ("ordered", j_bool false); ("max_retransmits", j_int 0);
       ("adapter_ready", j_bool adapter_ready); ("critical_cameras_ready", j_bool cameras_ready);
       ("control_inhibited", j_bool control_inhibited)]%string;;
    waiting ← locked (s ← runtime; mret (String.eqb (vr_issue_code s) "critical_camera_not_ready"));
    if control_inhibited || (cameras_ready && negb adapter_ready && negb waiting)
    then close_channel (Some channel) else mret tt.

(** ** The receiver and the watchdog *)

Definition kNativeControlWebSocketConnectTimeout : Z := 1000.
Definition kNativeControlWebSocketReceiveTimeout : Z := 100.
Definition kNativeControlReconnectInitialDelay : Z := 100.
Definition kNativeControlReconnectMaximumDelay : Z := 1000.
Definition kNativeControlWatchdogInterval : Z := 50000000.   (* nanoseconds *)

Definition set_delay (f : Z -> Z) : M V unit := modify (fun p => p <| vp_reconnect_delay ::= f |>).

(** What the receiver does with a message; a delivery resets the delay of a reconnection. *)
Definition handle_received (message : json) : M V unit :=
  locked (handle_native_control_websocket_envelope message);;
  event ← lift (value_string "event" "" message);
  when (String.eqb event "signaling_messages")
    (set_delay (fun _ => kNativeControlReconnectInitialDelay));;
  runtime_update (set_counter transport_consecutive_errors 0).

(** The inner loop, which ends when it is stopped or by an exception. *)
Fixpoint receive_rounds (rounds : nat) : M V unit :=
  match rounds with
  | O => mret tt
  | S rounds =>
      threads_run;;
      stop ← stop_seen;
      if (stop : bool) then mret tt
      else
        received ← native_ws (ws_receive_json kNativeControlWebSocketReceiveTimeout);
        match received with
        | ReceivedTimeout => receive_rounds rounds
        | ReceivedClosed => throw (RuntimeError "native control WebSocket closed")
        | ReceivedMessage message => handle_received message;; receive_rounds rounds
        end
  end.

(** A connection of the receiver, unless it was stopped while it connected. *)
Definition open_native_connection : M V bool :=
  url ← on_client native_control_websocket_url;
  s ← runtime;
  h ← on_world (ws_open kNativeControlWebSocketConnectTimeout (cl_resolve_entries (cfg_cloud (vr_config s)))
                  url (device_header (msc_device_token (vr_signaling s))));
  modify (fun p => p <| vp_websocket := Some h |>);;
  stop ← stop_seen;
  if (stop : bool) then mret false
  else
    runtime_update (fun s => s <| vr_websocket_connected := true |>);;
    count websocket_connections;;
    s ← runtime;
    when (1 <? vr_counters s websocket_connections) (count websocket_reconnects);;
    runtime_update (set_counter transport_consecutive_errors 0);;
    at_ms ← media_now_ms;
    runtime_update (fun s => s <| vr_last_connected_at_ms := at_ms |>);;
    mret true.

Definition is_invalid_argument (e : exn) : bool :=
  match e with InvalidArgument _ => true | _ => false end.

Definition error_text (e : exn) : string :=
  if is_std_exception e then what e else "unknown native control WebSocket failure".

Definition not_connected_any_more : M V unit :=
  runtime_update (fun s => s <| vr_websocket_connected := false |>).

(** A connection from its beginning to its end: whether the receiver goes on. *)
Definition native_connection (rounds : nat) : M V bool :=
  count websocket_connection_attempts;;
  try_catch
    (opened ← open_native_connection;
     if negb opened then mret false else receive_rounds rounds;; mret true)
    (fun e =>
       stop ← stop_seen;
       when (negb stop) (note_native_control_transport_error (error_text e) (is_invalid_argument e));;
       mret true).

Fixpoint native_control_websocket_loop (attempts rounds : nat) : M V unit :=
  match attempts with
  | O => mret tt
  | S attempts =>
      stop ← stop_seen;
      go_on ← (if (stop : bool) then mret false else native_connection rounds);
      not_connected_any_more;;
      threads_run;;
      stop ← stop_seen;
      if negb go_on || stop then mret tt
      else
        set_delay (fun delay => Z.min (delay * 2) kNativeControlReconnectMaximumDelay);;
        native_control_websocket_loop attempts rounds
  end.

Definition native_control_websocket_thread (attempts rounds : nat) : M V unit :=
  set_delay (fun _ => kNativeControlReconnectInitialDelay);;
  native_control_websocket_loop attempts rounds.

(** The ticks a watchdog that is late leaves out. *)
Definition watchdog_next (completed_ns next_tick_ns : Z) : Z * Z :=
  if next_tick_ns <? completed_ns then
    let overdue_ms := (completed_ns - next_tick_ns) ÷ 1000000 in
    let skipped := overdue_ms ÷ 50 + 1 in
    (skipped, next_tick_ns + kNativeControlWatchdogInterval * skipped)
  else (0, next_tick_ns).

Fixpoint native_control_watchdog_loop (rounds : nat) (next_tick_ns : Z) : M V unit :=
  match rounds with
  | O => mret tt
  | S rounds =>
      threads_run;;
      stop ← stop_seen;
      if (stop : bool) then mret tt
      else
        let next_tick_ns := next_tick_ns + kNativeControlWatchdogInterval in
        count watchdog_ticks;;
        try_catch (locked tick_control_service) (fun _ => mret tt);;
        completed_ns ← on_world steady_now_ns;
        let '(skipped, next_tick_ns) := watchdog_next completed_ns next_tick_ns in
        add_counter watchdog_skipped_intervals skipped;;
        native_control_watchdog_loop rounds next_tick_ns
  end.

(** ** Attempts *)

(** [stop_pipeline]; then both threads have been joined. *)
Definition stop_pipeline : M V unit :=
  request_stop;;
  channel ← locked detach_control_locked;
  threads_run;;
  runtime_update (fun s => s <| vr_transport_running := false |>);;
  close_channel channel.

Definition flush_outgoing_signals : M V unit :=
  threads_run;;
  s ← runtime;
  runtime_update (fun s => s <| vr_pending_signals := [] |>);;
  foldr (fun signal rest => on_client (send_signal signal.1 signal.2);; threads_run;; rest) (mret tt)
    (vr_pending_signals s).

(** The time synchronisation of a running attempt: a failure ends the attempt when it is
    required. *)
Definition refresh_media_time_sync : M V unit :=
  s ← runtime;
  let safety := cfg_field_safety (vr_config s) in
  due ← on_client (time_sync_refresh_due (fs_time_sync_interval_ms safety));
  if negb due then mret tt
  else
    failed ← try_catch_std
      (status ← on_client (synchronize_time (fs_time_sync_samples safety));
       mret (if fs_require_time_sync safety &&
                negb (acceptable status (fs_max_time_sync_uncertainty_ms safety))
             then Some (mkPipelineFailure
                          ("media time synchronization uncertainty exceeds " +:+
                           to_string_Z (fs_max_time_sync_uncertainty_ms safety) +:+ "ms")
                          "media_runtime_time_sync_uncertainty_exceeded" "time_sync_refresh" true)
             else None))
      (fun e =>
         mret (if fs_require_time_sync safety
               then Some (mkPipelineFailure ("media time synchronization failed: " +:+ what e)
                            "media_runtime_time_sync_failed" "time_sync_refresh" true)
               else None));
    match failed with Some failure => set_pipeline_error failure [] | None => mret tt end.

(** The beginning of [run]: the clock, the registration, the session and its latch; the
    diagnostics of a failure are left out, the exception is the same. *)
Definition require_time : M V unit :=
  s ← runtime;
  let safety := cfg_field_safety (vr_config s) in
  status ← on_client (synchronize_time (fs_time_sync_samples safety));
  lift (throw_if (fs_require_time_sync safety &&
                  negb (acceptable status (fs_max_time_sync_uncertainty_ms safety)))
          (RuntimeError ("media time synchronization uncertainty " +:+
                         to_string_Z (ts_uncertainty_ms status) +:+ "ms exceeds limit " +:+
                         to_string_Z (fs_max_time_sync_uncertainty_ms safety) +:+ "ms"))).

Fixpoint await_session (rounds : nat) (continuous : bool) (deadline_ms : Z) : M V unit :=
  match rounds with
  | O => mret tt
  | S rounds =>
      discovered ← on_client discover_session;
      if (discovered : bool) then mret tt
      else
        now ← media_now_ms;
        lift (throw_if (negb continuous && (deadline_ms <=? now))
                (RuntimeError "timed out waiting for an active driver session"));;
        await_session rounds continuous deadline_ms
  end.

Definition prepare_session (rounds : nat) (continuous : bool) : M V bool :=
  require_time;;
  on_client register_online;;
  now ← media_now_ms;
  await_session rounds continuous (now + 5000);;
  admit_session.
End functions.

(** ** The service loop *)

(** What [run_vehicle_media_loop] does about the end of a runtime by an exception: it builds the
    next after a delay, with the same sequence and latch, or it gives up. *)
Definition media_loop_retries (service : bool) (e : exn) : option Z :=
  if negb service then None
  else
    match e with
    | HttpStatusError status message issue_code _ =>
        match classify_media_signaling_error status message issue_code with
        | SessionEnded => Some 250
        | ConnectionRefresh | SignalingUnavailable => Some 1000
        | ConnectionStale | SequenceConflict | Fatal => None
        end
    | HttpTransportError _ => Some 1000
    | _ => None
    end.
