(* ===== verification/VehicleFrames.v ===== *)
(** VehicleFrames: what the steps of the media runtime keep.

    - [host_keeps]: a property of the machine that nothing but the end of an adapter can break;
    - [calm]: a computation that leaves the service, the latch, the frozen gear and the session
      alone; the output, the clock and the counters are calm;
    - [frame_of]: properties of the service, the latch and the frozen gear that every call the
      runtime makes of them keeps; [frame_steps]: so does every execution. *)
From S2P Require Export VehicleThreads.

(** A property of the machine that only the end of an adapter bears on. *)
Record host_keeps {J : JsonApi} {A W : Type} {Http : HttpTransport W} {Clock : ClockApi W}
    {Sockets : WebSocketApi W} {Host : RuntimeHost A W} (P : W -> Prop) : Prop := {
  hk_http x w : P w -> P (http_perform x w).2;
  hk_now w : P w -> P (clk_now_ms w).2;
  hk_steady w : P w -> P (clk_steady_ns w).2;
  hk_print text w : P w -> P (mh_print text w);
  hk_send channel text w : P w -> P (mh_channel_send channel text w);
  hk_close channel w : P w -> P (mh_channel_close channel w);
  hk_create config w : P w -> P (mh_create_adapter config w).2;
  hk_raised w : P w -> P (mh_raised w).2;
  hk_ws_send message timeout h w : P w -> P (ws_send_json message timeout (h, w)).2.2;
}.

Section frames.
Context {J : JsonApi} {A W : Type} {VA : VehicleAdapter A}.
Context {Http : HttpTransport W} {Clock : ClockApi W} {Sort : SampleSort}.
Context {Sockets : WebSocketApi W} {Host : RuntimeHost A W}.
Context (P : W -> Prop) (HP : host_keeps (A := A) P).
Notation V := (VehicleProcess A W).
Notation Rt := (VehicleRuntime J A).
Notation Svc := (VehicleControlService J A).

(** What [calm] is about. *)
Definition core (s : Rt) : option Svc * CriticalCameraControlLatch * option string * string :=
  (vr_service s, vr_latch s, vr_estop_gear s, msc_session_id (vr_signaling s)).

Definition calm {R} (m : M V R) : Prop := forall p, P (vp_host p) ->
  core (vp_runtime (m p).2) = core (vp_runtime p) /\ P (vp_host (m p).2).

Lemma calm_ret {R} (r : R) : calm (mret r).
Proof. by intros p H. Qed.
Lemma calm_throw {R} e : calm (throw (A := R) e).
Proof. by intros p H. Qed.
Lemma calm_lift {R} (r : result R) : calm (lift r).
Proof. by intros p H. Qed.
Lemma calm_runtime : calm runtime.
Proof. by intros p H. Qed.
Lemma calm_update f : (forall s, core (f s) = core s) -> calm (runtime_update f).
Proof. intros Hf p H. simpl. by rewrite Hf. Qed.

Lemma calm_bind {R S} (m : M V R) (f : R -> M V S) : calm m -> (forall r, calm (f r)) -> calm (m ≫= f).
Proof.
  intros Hm Hf p H. specialize (Hm p H). unfold mbind, M_bind.
  destruct (m p) as [[r | e] q]; simpl in *; [| done].
  destruct Hm as [Hc HP']. destruct (Hf r q HP') as [Hc' HP'']. by rewrite Hc'.
Qed.

Lemma calm_try {R} (m : M V R) h : calm m -> (forall e, calm (h e)) -> calm (try_catch m h).
Proof.
  intros Hm Hh p H. specialize (Hm p H). unfold try_catch.
  destruct (m p) as [[r | e] q]; simpl in *; [done |].
  destruct Hm as [Hc HP']. destruct (Hh e q HP') as [Hc' HP'']. by rewrite Hc'.
Qed.

Lemma calm_try_std {R} (m : M V R) h : calm m -> (forall e, calm (h e)) -> calm (try_catch_std m h).
Proof.
  intros Hm Hh. apply calm_try; [done |]. intros e. destruct (is_std_exception e); [done | apply calm_throw].
Qed.

Lemma calm_when b m : calm m -> calm (when b m).
Proof. destruct b; [done | intros _; apply calm_ret]. Qed.

Lemma calm_world f : (forall w, P w -> P (f w)) -> calm (world_update f).
Proof. intros Hf p H. simpl. auto. Qed.

Lemma calm_on_world {R} (m : M W R) : (forall w, P w -> P (m w).2) -> calm (on_world m).
Proof.
  intros Hm p H. specialize (Hm _ H). unfold on_world, zoom.
  destruct (m (vp_host p)) as [r w]. done.
Qed.

(** A call of the client that keeps the session. *)
Lemma calm_client {R} (m : M (MediaSignalingClient * W) R) :
  (forall c w, P w -> msc_session_id (m (c, w)).2.1 = msc_session_id c /\ P (m (c, w)).2.2) ->
  calm (on_client m).
Proof.
  intros Hm p H. destruct (Hm (vr_signaling (vp_runtime p)) _ H) as [H1 H2].
  unfold on_client, zoom. destruct (m _) as [r [c w]]. simpl in *. unfold core. simpl. by rewrite H1.
Qed.
End frames.

Create HintDb calm.
#[export] Hint Resolve calm_ret calm_throw calm_lift calm_runtime : calm.
#[export] Hint Extern 1 (calm _ (runtime_update _)) => (apply calm_update; intros; reflexivity) : calm.

(** One syntax-directed step of a proof of calm. *)
Ltac calm_step :=
  match goal with
  | |- forall _, _ => intro
  | |- calm _ (mret _) => apply calm_ret
  | |- calm _ (mbind _ _) => apply calm_bind
  | |- calm _ (try_catch_std _ _) => apply calm_try_std
  | |- calm _ (try_catch _ _) => apply calm_try
  | |- calm _ (when _ _) => apply calm_when
  | |- calm _ (if ?b then _ else _) => destruct b
  | |- calm _ (match ?x with _ => _ end) => destruct x
  | |- calm _ (let _ := _ in _) => cbv zeta
  | |- calm _ _ => solve [eauto with calm]
  end.
Ltac calm_auto := repeat calm_step.

Section calm.
Context {J : JsonApi} {A W : Type} {VA : VehicleAdapter A}.
Context {Http : HttpTransport W} {Clock : ClockApi W} {Sort : SampleSort}.
Context {Sockets : WebSocketApi W} {Host : RuntimeHost A W}.
Context (P : W -> Prop) (HP : host_keeps (A := A) P).
Notation V := (VehicleProcess A W).
Notation calm := (calm (A := A) P).

Lemma system_now_keeps w : P w -> P (system_now_ms w).2.
Proof. intros H. unfold system_now_ms. pose proof (hk_now P HP w H). by destruct (clk_now_ms w). Qed.
Lemma steady_now_keeps w : P w -> P (steady_now_ns w).2.
Proof. intros H. unfold steady_now_ns. pose proof (hk_steady P HP w H). by destruct (clk_steady_ns w). Qed.

Lemma calm_monotonic : calm monotonic_ms.
Proof. unfold monotonic_ms. calm_auto. apply calm_on_world, steady_now_keeps. Qed.

(** *** The machine of the client: whole computations keep [P] *)
Lemma keeps_system_now : keeps P (system_now_ms (W := W)).
Proof. exact system_now_keeps. Qed.
Lemma keeps_steady_now : keeps P (steady_now_ns (W := W)).
Proof. exact steady_now_keeps. Qed.
Lemma keeps_transfer exchange : keeps P (transfer exchange).
Proof.
  intros w H. unfold transfer. pose proof (hk_http P HP exchange w H).
  by destruct (http_perform exchange w) as [[] ?].
Qed.
#[local] Hint Resolve keeps_system_now keeps_steady_now keeps_transfer : keeps.

Lemma keeps_get_json url headers : keeps P (get_json url headers).
Proof. unfold get_json, http_get, request. keeps_auto. Qed.
Lemma keeps_post_json_response url payload : keeps P (post_json_response url payload).
Proof. unfold post_json_response, post_json, request. keeps_auto. Qed.
#[local] Hint Resolve keeps_get_json keeps_post_json_response : keeps.

Lemma keeps_since_anchor clock : keeps P (since_anchor clock).
Proof. unfold since_anchor. keeps_auto. Qed.
#[local] Hint Resolve keeps_since_anchor : keeps.

Lemma keeps_synchronized_now clock : keeps P (synchronized_now_ms clock).
Proof. unfold synchronized_now_ms. keeps_auto. Qed.

Lemma keeps_take_samples origin n : keeps P (take_samples origin n).
Proof.
  induction n; simpl; [keeps_auto |]. unfold take_sample. keeps_auto.
Qed.
#[local] Hint Resolve keeps_synchronized_now keeps_take_samples : keeps.

Lemma keeps_synchronize origin n : keeps P (synchronize origin n).
Proof. unfold synchronize. keeps_auto. Qed.
#[local] Hint Resolve keeps_synchronize : keeps.

(** The client keeps its session and [P]. *)
Definition kept_session (session : string) (cw : MediaSignalingClient * W) : Prop :=
  msc_session_id cw.1 = session /\ P cw.2.

Lemma session_host {R} session (m : M W R) : keeps P m -> keeps (kept_session session) (client_host m).
Proof.
  intros Hm. apply keeps_zoom. intros [c w] [H1 H2]. split; [done |]. by apply Hm.
Qed.

Lemma kept_session_update session f :
  (forall c, msc_session_id (f c) = msc_session_id c) -> keeps (kept_session session) (media_client_update f).
Proof. intros Hf [c w] [H1 H2]. split; [by simpl; rewrite Hf | done]. Qed.

Lemma client_calm {R} (m : M (MediaSignalingClient * W) R) :
  (forall session, keeps (kept_session session) m) -> calm (on_client m).
Proof. intros Hm. apply calm_client. intros c w H. exact (Hm (msc_session_id c) (c, w) (conj eq_refl H)). Qed.

#[local] Hint Resolve session_host : keeps.
#[local] Hint Extern 1 (keeps _ (media_client_update _)) => (apply kept_session_update; intros; reflexivity) : keeps.

Lemma calm_now_ms : calm media_now_ms.
Proof. apply client_calm. intros session. unfold client_now_ms, client_get. keeps_auto. Qed.

Lemma calm_synchronize_time n : calm (on_client (synchronize_time n)).
Proof. apply client_calm. intros session. unfold synchronize_time, client_get. keeps_auto. Qed.

Lemma calm_send_signal type payload : calm (on_client (send_signal type payload)).
Proof.
  apply client_calm. intros session. unfold send_signal, require_session, require_connection, client_get,
    client_now_ms, client_get. keeps_auto.
  apply keeps_zoom. by intros [c w] [H1 H2].
Qed.
#[local] Hint Resolve calm_now_ms calm_monotonic : calm.

(** *** Output, counters, flags *)
Lemma calm_add_counter c n : calm (add_counter c n).
Proof. unfold add_counter. eauto with calm. Qed.

Lemma calm_count c : calm (count c).
Proof. apply calm_add_counter. Qed.

Lemma calm_flags_seen : calm flags_seen.
Proof.
  intros p H. unfold flags_seen. pose proof (hk_raised P HP _ H) as H'.
  by destruct (mh_raised (vp_host p)) as [[stop inhibited] w].
Qed.
#[local] Hint Resolve calm_count calm_add_counter calm_flags_seen : calm.

Lemma calm_stopping : calm stop_seen.
Proof. unfold stop_seen. calm_auto. Qed.
Lemma calm_control_usable : calm control_usable.
Proof. unfold control_usable. calm_auto. Qed.
Lemma calm_invalidate : calm invalidate_trusted_gear.
Proof. unfold invalidate_trusted_gear. calm_auto. Qed.

Lemma calm_print_line value : calm (print_line value).
Proof. unfold print_line. calm_auto. apply calm_world, hk_print, HP. Qed.
#[local] Hint Resolve calm_print_line : calm.

Lemma calm_print_event_at at_ms event fields : calm (print_event_at at_ms event fields).
Proof. unfold print_event_at. calm_auto. Qed.
#[local] Hint Resolve calm_print_event_at : calm.
Lemma calm_print_event event fields : calm (print_event event fields).
Proof. unfold print_event. calm_auto. Qed.
Lemma calm_emit event issue stage error retryable details :
  calm (emit_diagnostic event issue stage error retryable details).
Proof. unfold emit_diagnostic. calm_auto. Qed.
#[local] Hint Resolve calm_print_event calm_emit : calm.
Lemma calm_report stage error details : calm (report_close_error stage error details).
Proof. unfold report_close_error. calm_auto. Qed.

Lemma calm_close_channel channel : calm (close_channel channel).
Proof. unfold close_channel. calm_auto. apply calm_world. intros w H. by apply hk_close. Qed.
Lemma calm_channel_send value : calm (channel_send value).
Proof. unfold channel_send. calm_auto. apply calm_world. intros w H. by apply hk_send. Qed.
Lemma calm_next_status_seq : calm next_status_seq.
Proof. unfold next_status_seq. calm_auto. Qed.
Lemma calm_set_issue code : calm (set_issue_code code).
Proof. unfold set_issue_code. eauto with calm. Qed.
#[local] Hint Resolve calm_stopping calm_control_usable calm_invalidate calm_report calm_close_channel
  calm_channel_send calm_next_status_seq calm_set_issue : calm.

Lemma calm_rejected command_seq intent_seq issue :
  calm (send_control_command_rejected_locked command_seq intent_seq issue).
Proof. unfold send_control_command_rejected_locked. calm_auto. Qed.
#[local] Hint Resolve calm_rejected : calm.

Lemma calm_note_handshake_state status : calm (note_handshake_state status).
Proof. unfold note_handshake_state. calm_auto. Qed.
Lemma calm_note_refused command intent_seq result : calm (note_refused command intent_seq result).
Proof. unfold note_refused. calm_auto. Qed.
Lemma calm_refuse_legacy : calm refuse_legacy_command.
Proof. unfold refuse_legacy_command. calm_auto. Qed.
Lemma calm_override command : calm (override_estop_gear command).
Proof. unfold override_estop_gear. calm_auto. Qed.
Lemma calm_transport_error error protocol_error :
  calm (note_native_control_transport_error error protocol_error).
Proof. unfold note_native_control_transport_error. calm_auto. Qed.

Lemma calm_native_send ack timeout : calm (native_ws (ws_send_json ack timeout)).
Proof.
  intros p H. unfold native_ws. destruct (vp_websocket p) as [h |]; [| done].
  pose proof (hk_ws_send P HP ack timeout h _ H) as H'.
  by destruct (ws_send_json ack timeout (h, vp_host p)) as [r [h' w]].
Qed.

Lemma calm_update_lane i f : calm (update_lane i f).
Proof. unfold update_lane. eauto with calm. Qed.
#[local] Hint Resolve calm_update_lane : calm.
Lemma calm_count_encoded i : calm (count_encoded i).
Proof. unfold count_encoded. calm_auto. Qed.
Lemma calm_lanes_ready timeout lanes : calm (lanes_ready timeout lanes).
Proof. induction lanes; simpl; calm_auto. Qed.
#[local] Hint Resolve calm_lanes_ready : calm.
Lemma calm_cameras_ready : calm critical_cameras_ready.
Proof. unfold critical_cameras_ready. calm_auto. Qed.
Lemma calm_inhibit_exchange : calm inhibit_exchange.
Proof. unfold inhibit_exchange. calm_auto. Qed.
Lemma calm_note_failure failure : calm (note_pipeline_failure failure).
Proof. unfold note_pipeline_failure. calm_auto. Qed.
Lemma calm_request_stop : calm request_stop.
Proof. unfold request_stop. eauto with calm. Qed.
Lemma calm_begin_attempt lanes : calm (begin_attempt lanes).
Proof. unfold begin_attempt. eauto with calm. Qed.
Lemma calm_publish channel : calm (publish_channel_locked channel).
Proof. unfold publish_channel_locked. calm_auto. Qed.
Lemma calm_link_opened channel : calm (link_opened_locked channel).
Proof. unfold link_opened_locked. calm_auto. Qed.
End calm.

#[export] Hint Resolve calm_now_ms calm_monotonic calm_synchronize_time calm_send_signal calm_add_counter
  calm_count calm_flags_seen calm_stopping calm_control_usable calm_invalidate calm_print_line
  calm_print_event_at calm_print_event calm_emit calm_report calm_close_channel calm_channel_send calm_next_status_seq
  calm_set_issue calm_rejected calm_note_handshake_state calm_note_refused calm_refuse_legacy
  calm_override calm_transport_error calm_native_send calm_update_lane calm_count_encoded
  calm_lanes_ready calm_cameras_ready calm_inhibit_exchange calm_note_failure calm_request_stop
  calm_begin_attempt calm_publish calm_link_opened : calm.

(** ** Properties of the service, the latch and the frozen gear *)

(** The calls the runtime makes of a service. *)
Record service_keeps {J : JsonApi} {A : Type} {VA : VehicleAdapter A}
    (SI : VehicleControlService J A -> Prop) : Prop := {
  sk_start : keeps SI start;
  sk_command c t : keeps SI (receive_command c t);
  sk_profile r t : keeps SI (receive_session_profile r t);
  sk_request : keeps SI request_vcu_handshake;
  sk_disconnect : keeps SI disconnect_vcu_handshake;
  sk_tick t : keeps SI (tick t);
  sk_close context : keeps SI (close context);
  sk_handshake_status : keeps SI (on_adapter va_vcu_handshake_status);
  sk_status : keeps SI (on_adapter va_status);
}.

(** The machine when the runtime lets go of an adapter. *)
Record released_well {J : JsonApi} {A W : Type} {VA : VehicleAdapter A} {Host : RuntimeHost A W}
    (SI : VehicleControlService J A -> Prop) (P : W -> Prop) : Prop := {
  rw_service svc w : SI svc -> P w -> P (mh_release_adapter (svc_adapter (destroy svc).2) w);
  rw_adapter config a w w' :
    (mh_create_adapter config w).1 = Ok a -> P w' -> P (mh_release_adapter a w');
}.

(** A service on a new adapter. *)
Definition new_service {J : JsonApi} {A W : Type} {VA : VehicleAdapter A} {Host : RuntimeHost A W}
    (svc : VehicleControlService J A) : Prop :=
  exists config driver session token (w : W) a,
    (mh_create_adapter config w).1 = Ok a /\
    VehicleControlService_new config driver session token a 100 = Ok svc.

Section frame.
Context {J : JsonApi} {A W : Type} {VA : VehicleAdapter A}.
Context {Http : HttpTransport W} {Clock : ClockApi W} {Sort : SampleSort}.
Context {Sockets : WebSocketApi W} {Host : RuntimeHost A W}.
Context (P : W -> Prop) (SI : VehicleControlService J A -> Prop).
Context (L : string -> CriticalCameraControlLatch -> Prop) (G : option string -> Prop).
Context (HP : host_keeps (A := A) P) (HS : service_keeps SI) (HR : released_well SI P).
Context (HG : forall gear, G None -> G (Some gear)).
Notation V := (VehicleProcess A W).
Notation Rt := (VehicleRuntime J A).
Notation Svc := (VehicleControlService J A).

Definition frame_of (p : V) : Prop :=
  let s := vp_runtime p in
  match vr_service s with Some svc => SI svc | None => True end /\
  L (msc_session_id (vr_signaling s)) (vr_latch s) /\ G (vr_estop_gear s) /\ P (vp_host p).

Lemma frame_calm {R} (m : M V R) : calm P m -> keeps frame_of m.
Proof.
  intros Hm p (H1 & H2 & H3 & H4). destruct (Hm p H4) as [Hc HP']. injection Hc as E1 E2 E3 E4.
  unfold frame_of. by rewrite E1, E2, E3, E4.
Qed.

Lemma frame_service {R} (m : M Svc R) : keeps SI m -> keeps frame_of (on_service m).
Proof.
  intros Hm p (H1 & H2). unfold on_service. destruct (vr_service (vp_runtime p)) as [svc |] eqn:E.
  - specialize (Hm svc H1). destruct (m svc) as [r svc']. done.
  - split; [by simpl; rewrite E | done].
Qed.

Lemma frame_drop : keeps frame_of drop_service.
Proof.
  intros p H. pose proof H as (H1 & H2 & H3 & H4).
  unfold drop_service, mbind, M_bind, runtime, gets, world_update, runtime_update, modify.
  destruct (vr_service (vp_runtime p)) as [svc |] eqn:E; [| exact H].
  split; [done |]. split; [done |]. split; [done |]. simpl. by apply (rw_service _ _ HR).
Qed.

Lemma keeps_service_get : keeps SI get.
Proof. apply keeps_get. Qed.
Lemma keeps_service_gets {R} (f : Svc -> R) : keeps SI (gets f).
Proof. apply keeps_gets. Qed.
End frame.

#[export] Hint Resolve sk_start sk_command sk_profile sk_request sk_disconnect sk_tick sk_close
  sk_handshake_status sk_status : keeps.
#[export] Hint Extern 2 (keeps (frame_of _ _ _ _) (on_service _)) =>
  (apply frame_service; solve [eauto with keeps]) : keeps.
#[export] Hint Extern 3 (keeps (frame_of _ _ _ _) drop_service) => (apply frame_drop; assumption) : keeps.
#[export] Hint Extern 4 (keeps (frame_of _ _ _ _) _) =>
  (apply frame_calm; solve [eauto with calm | calm_auto]) : keeps.

Section steps.
Context {J : JsonApi} {A W : Type} {VA : VehicleAdapter A}.
Context {Http : HttpTransport W} {Clock : ClockApi W} {Sort : SampleSort}.
Context {Sockets : WebSocketApi W} {Host : RuntimeHost A W}.
Context (P : W -> Prop) (SI : VehicleControlService J A -> Prop).
Context (L : string -> CriticalCameraControlLatch -> Prop) (G : option string -> Prop).
Context (HP : host_keeps (A := A) P) (HS : service_keeps SI) (HR : released_well SI P).
Context (HG : forall gear, G None -> G (Some gear)).
Notation V := (VehicleProcess A W).
Notation frame := (frame_of P SI L G).

Lemma frame_close_service context : keeps frame (close_service context).
Proof. unfold close_service. keeps_auto. Qed.

Lemma frame_telemetry : keeps frame send_latest_vehicle_telemetry_locked.
Proof. unfold send_latest_vehicle_telemetry_locked. keeps_auto. Qed.
Lemma frame_profile_status result : keeps frame (send_session_control_profile_status_locked result).
Proof. unfold send_session_control_profile_status_locked. keeps_auto. Qed.
Lemma frame_report : keeps frame handshake_report.
Proof. unfold handshake_report. keeps_auto. Qed.
#[local] Hint Resolve frame_close_service frame_telemetry frame_profile_status frame_report : keeps.
Lemma frame_status result : keeps frame (send_vcu_handshake_status_locked result).
Proof. unfold send_vcu_handshake_status_locked. keeps_auto. Qed.
#[local] Hint Resolve frame_status : keeps.

Lemma frame_profile_request channel request : keeps frame (receive_profile_request channel request).
Proof. unfold receive_profile_request. keeps_auto. Qed.
Lemma frame_handshake_command action : keeps frame (handshake_command action).
Proof. unfold handshake_command. keeps_auto. Qed.
#[local] Hint Resolve frame_handshake_command : keeps.
Lemma frame_handshake_request channel action : keeps frame (receive_handshake_command channel action).
Proof. unfold receive_handshake_command. keeps_auto. Qed.

Lemma frame_admits : keeps frame authority_admits.
Proof. unfold authority_admits, profile_active, handshake_admits. keeps_auto. Qed.
Lemma frame_heartbeat command t : keeps frame (heartbeat_admits command t).
Proof. unfold heartbeat_admits. keeps_auto. Qed.
#[local] Hint Resolve frame_admits frame_heartbeat : keeps.
Lemma frame_gate command fresh t : keeps frame (native_gate command fresh t).
Proof. unfold native_gate. keeps_auto. Qed.
#[local] Hint Resolve frame_gate frame_profile_request frame_handshake_request : keeps.

(** The gear is only frozen when none is. *)
Lemma frame_freeze gear p :
  frame p -> vr_estop_gear (vp_runtime p) = None ->
  frame (p <| vp_runtime ::= fun s => s <| vr_estop_gear := Some gear |> |>).
Proof.
  intros (H1 & H2 & H3 & H4) E. split; [exact H1 |]. split; [exact H2 |]. split; [| exact H4].
  simpl. rewrite E in H3. by apply HG.
Qed.

Lemma keeps_freeze {B} gear (m : M V B) (p : V) :
  vr_estop_gear (vp_runtime p) = None -> keeps frame m -> frame p ->
  frame ((runtime_update (fun s => s <| vr_estop_gear := Some gear |>);; m) p).2.
Proof. intros E Hm H. unfold mbind, M_bind. simpl. by apply Hm, frame_freeze. Qed.

(** What is read is the runtime itself. *)
Lemma keeps_runtime {B} (f : VehicleRuntime J A -> M V B) :
  (forall p, frame p -> frame (f (vp_runtime p) p).2) -> keeps frame (runtime ≫= f).
Proof. intros Hf p H. exact (Hf p H). Qed.

Lemma frame_freeze_after_error command : keeps frame (freeze_gear_after_error command).
Proof.
  unfold freeze_gear_after_error. apply keeps_runtime. intros p H.
  destruct (vr_service (vp_runtime p)) as [svc |]; [| done].
  destruct (cmd_estop command) eqn:Ec; [| done].
  destruct (bool_decide (vr_estop_gear (vp_runtime p) = None)) eqn:E; [| done].
  destruct (bool_decide _) in |- *; [| done].
  apply keeps_freeze; [by eapply bool_decide_eq_true | | done]. keeps_auto.
Qed.

Lemma frame_note_gear command effective fresh : keeps frame (note_gear command effective fresh).
Proof.
  unfold note_gear. apply keeps_runtime. intros p H.
  destruct (cmd_estop command && _) eqn:E.
  - bool_prop. apply keeps_freeze; [by eapply bool_decide_eq_true | | done]. keeps_auto.
  - destruct (negb (cmd_estop command) && fresh); [| done]. revert p H E.
    intros p H _. revert p H. change (keeps frame (runtime_update (A := A) (W := W)
      (fun s => s <| vr_fresh_gear := Some (cmd_gear effective) |>);; count fresh_gear_updates)).
    keeps_auto.
Qed.
#[local] Hint Resolve frame_freeze_after_error frame_note_gear : keeps.

Lemma frame_note_accepted command effective fresh heartbeat t t' :
  keeps frame (note_accepted command effective fresh heartbeat t t').
Proof. unfold note_accepted. keeps_auto. Qed.
#[local] Hint Resolve frame_note_accepted : keeps.

Lemma frame_native_command message : keeps frame (receive_native_command message).
Proof. unfold receive_native_command. keeps_auto. Qed.
#[local] Hint Resolve frame_native_command : keeps.

Lemma frame_message channel data transport : keeps frame (handle_control_message channel data transport).
Proof. unfold handle_control_message, dispatch_control_message. keeps_auto. Qed.
#[local] Hint Resolve frame_message : keeps.

Lemma frame_envelope envelope : keeps frame (handle_native_control_websocket_envelope envelope).
Proof. unfold handle_native_control_websocket_envelope, handle_delivery, apply_delivery. keeps_auto. Qed.
#[local] Hint Resolve frame_envelope : keeps.

(** *** Cameras, faults, the channel *)
Lemma frame_latch {R} (m : M CriticalCameraControlLatch R) : (forall here, keeps (L here) m) -> keeps frame (on_latch m).
Proof.
  intros Hm p (H1 & H2 & H3). specialize (Hm _ _ H2). unfold on_latch, zoom.
  by destruct (m (vr_latch (vp_runtime p))) as [r l].
Qed.

Lemma frame_camera_stop : keeps frame camera_stop_locked.
Proof. unfold camera_stop_locked. keeps_auto. Qed.
Lemma frame_fault_stop issue : keeps frame (fault_stop_locked issue).
Proof. unfold fault_stop_locked. keeps_auto. Qed.
Lemma frame_detach : keeps frame detach_control_locked.
Proof. unfold detach_control_locked. keeps_auto. Qed.
Lemma frame_link_closed channel : keeps frame (on_control_channel_close channel).
Proof. unfold on_control_channel_close. keeps_auto. Qed.
#[local] Hint Resolve frame_link_closed : keeps.
Lemma frame_link_error channel error : keeps frame (on_control_channel_error channel error).
Proof. unfold on_control_channel_error. keeps_auto. Qed.
Lemma frame_tick : keeps frame tick_control_service.
Proof. unfold tick_control_service, tick_failed, report_status_locked. keeps_auto. Qed.

(** A step that resets the frozen gear. *)
Lemma frame_transport : G None -> keeps frame start_native_control_transport.
Proof.
  intros Hn. unfold start_native_control_transport. keeps_auto.
  apply keeps_modify. intros p (H1 & H2 & _ & H4). done.
Qed.

(** *** Starting *)
Lemma frame_retract : keeps frame retract_service.
Proof. unfold retract_service. keeps_auto. Qed.
#[local] Hint Resolve frame_retract : keeps.

Lemma frame_start_failed : keeps frame start_failed_locked.
Proof. unfold start_failed_locked. keeps_auto. Qed.
#[local] Hint Resolve frame_start_failed : keeps.

Lemma frame_open : keeps frame open_service.
Proof. unfold open_service. keeps_auto. Qed.

Lemma frame_created (svc : VehicleControlService J A) p : SI svc -> frame p ->
  frame (p <| vp_runtime ::= fun s => s <| vr_service := Some svc |> |>).
Proof. intros H (H1 & H2). done. Qed.

Lemma frame_create : (forall here l svc, L here l -> new_service (W := W) svc -> SI svc) -> keeps frame create_service.
Proof.
  intros Hnew. unfold create_service. keeps_step; [keeps_auto |]. intros _.
  keeps_step; [keeps_auto |]. intros _. apply keeps_runtime. intros p H.
  pose proof H as (H1 & H2 & H3 & H4). unfold mbind at 1, M_bind at 1, on_world, zoom.
  pose proof (hk_create P HP (vr_config (vp_runtime p)) _ H4) as Hc.
  destruct (mh_create_adapter _ _) as [[a | e] w] eqn:Ea; [| done]. simpl in Hc.
  assert (Hw : frame (p <| vp_host := w |>)) by done. revert Hw. generalize (p <| vp_host := w |>).
  intros q Hq. pose proof Hq as (_ & Hl & _ & Hq4).
  destruct (VehicleControlService_new _ _ _ _ _ _) as [svc | e] eqn:Es.
  - assert (Hsvc : SI svc).
    { apply (Hnew _ _ _ Hl). do 6 eexists. split; [| exact Es]. by rewrite Ea. }
    revert q Hq Hl Hq4. intros q Hq _ _. unfold mbind at 1, M_bind at 1. simpl.
    pose proof (frame_drop P SI L G HR q Hq) as Hd. unfold mbind at 1, M_bind at 1.
    destruct (drop_service q) as [[u | e] r]; [| done]. simpl in Hd.
    assert (Hr := frame_created svc r Hsvc Hd). by apply frame_open.
  - unfold mbind, M_bind. simpl. destruct Hq as (Q1 & Q2 & Q3 & Q4). split_and!; try done.
    simpl. apply (rw_adapter _ _ HR (vr_config (vp_runtime p)) a (vp_host p)); [by rewrite Ea | done].
Qed.
End steps.

(** *** Every step *)

(** What the latch of a property of the runtime must satisfy. *)
Record latch_keeps (L : string -> CriticalCameraControlLatch -> Prop) : Prop := {
  lk_inhibit session here : keeps (L here) (latch_inhibit session);
  lk_grace session t here : keeps (L here) (latch_startup_grace_active session t);
  lk_arm session here : keeps (L here) (latch_arm_for_control session);
}.

Section all_steps.
Context {J : JsonApi} {A W : Type} {VA : VehicleAdapter A}.
Context {Http : HttpTransport W} {Clock : ClockApi W} {Sort : SampleSort}.
Context {Sockets : WebSocketApi W} {Host : RuntimeHost A W}.
Context (P : W -> Prop) (SI : VehicleControlService J A -> Prop).
Context (L : string -> CriticalCameraControlLatch -> Prop) (G : option string -> Prop).
Context (HP : host_keeps (A := A) P) (HS : service_keeps SI) (HR : released_well SI P).
Context (HG : forall gear, G None -> G (Some gear)) (HL : latch_keeps L).
Context (Hnew : forall here l svc, L here l -> ccl_inhibited l = false -> new_service (W := W) svc -> SI svc).
Notation V := (VehicleProcess A W).
Notation frame := (frame_of P SI L G).

Lemma frame_start_locked : keeps frame start_locked.
Proof.
  unfold start_locked. keeps_step; [keeps_auto |]. intros _. apply keeps_runtime. intros p H.
  destruct (service_running _); [done |]. destruct (_ || _); [done |].
  destruct (vr_control_inhibited _).
  { revert p H. change (keeps frame (set_issue_code (A := A) (W := W) "critical_camera_failed";; mret (Some false))).
    keeps_auto. }
  revert p H. intros p0 H0. generalize (msc_session_id (vr_signaling (vp_runtime p0))). intros session.
  revert p0 H0. apply keeps_bind; [keeps_auto |]. intros ready.
  destruct (negb ready); [keeps_auto |]. intros p H.
  pose proof (frame_latch P SI L G _ (lk_arm _ HL session) p H) as Hq. unfold mbind, M_bind.
  destruct (on_latch (latch_arm_for_control session) p) as [[armed | e] q] eqn:E; [| done].
  simpl in Hq. destruct armed; simpl; [| revert q Hq E; intros q Hq _; revert q Hq].
  - assert (Hi : ccl_inhibited (vr_latch (vp_runtime q)) = false).
    { unfold on_latch, zoom, latch_arm_for_control in E. run_monad.
      destruct (string_empty session || _); simplify_eq/=.
      by destruct (ccl_inhibited _) eqn:Ei; simplify_eq/=. }
    assert (Hf : frame_of P SI (fun here l => L here l /\ ccl_inhibited l = false) G q).
    { destruct Hq as (Q1 & Q2 & Q3). split_and!; [exact Q1 | exact Q2 | exact Hi | |]; apply Q3. }
    assert (Hc : keeps (frame_of P SI (fun here l => L here l /\ ccl_inhibited l = false) G) create_service).
    { apply frame_create; try done. intros here l svc [Hl Hl']. by apply (Hnew here l). }
    specialize (Hc q Hf). destruct (create_service q) as [[c | e] r]; simpl in *;
      destruct Hc as (C1 & [C2 _] & C3); done.
  - change (keeps frame (set_issue_code (A := A) (W := W) "critical_camera_failed";; mret (Some false))).
    keeps_auto.
Qed.

Lemma frame_start : keeps frame start_control_service.
Proof.
  unfold start_control_service. apply keeps_runtime. intros p H.
  destruct (negb _); [done |]. revert p H. intros p H. generalize (vr_config (vp_runtime p)).
  intros config. revert p H. apply keeps_try_std.
  - apply keeps_bind; [apply frame_start_locked | keeps_auto].
  - intros e. apply keeps_bind; [by apply frame_start_failed | keeps_auto].
Qed.

Lemma frame_find_stale : keeps frame find_stale_lane.
Proof.
  unfold find_stale_lane. keeps_auto. apply frame_latch. intros here. apply lk_grace, HL.
Qed.

Lemma frame_inhibit_latch : keeps frame inhibit_latch.
Proof. unfold inhibit_latch. keeps_auto. apply frame_latch. intros here. keeps_auto. apply lk_inhibit, HL. Qed.

(** Of the steps one resets the frozen gear. *)
Lemma frame_step step : (step = StepTransport -> G None) -> keeps frame (run_step step).
Proof.
  intros Ht. destruct step; simpl; unfold quietly;
    try (apply keeps_bind; [| intros; apply keeps_ret]).
  all: try solve [keeps_auto].
  - by apply frame_message.
  - by apply frame_link_closed.
  - by apply frame_link_error.
  - by apply frame_envelope.
  - by apply frame_tick.
  - by apply frame_inhibit_latch.
  - by apply frame_camera_stop.
  - by apply frame_find_stale.
  - by apply frame_start.
  - by apply frame_status.
  - by apply frame_fault_stop.
  - by apply frame_detach.
  - apply frame_transport; auto.
Qed.

Lemma frame_steps steps p :
  Forall (fun step => step = StepTransport -> G None) steps -> frame p -> frame (runtime_steps steps p).
Proof.
  intros Hs. revert p. induction Hs as [| step steps Hstep _ IH]; intros p H; [done |].
  apply IH. by apply frame_step.
Qed.
End all_steps.
