(* ===== verification/VehicleStops.v ===== *)
(** VehicleStops: how the control of the vehicle ends.

    - [Recorded], a machine that keeps the adapters the runtime has let go of; every service
      closes with a stop ([rested]);
    - the latch of a critical camera: once inhibited, no execution has a service
      ([frame_closed]), and what a critical camera's failure leaves;
    - the frozen gear of an emergency stop. *)
From S2P Require Export VehicleFrames ServiceCalls.

(** ** A machine that keeps the adapters *)

Record Recorded (A W : Type) := mkRecorded { rc_inner : W; rc_released : list (Logged A) }.
Arguments mkRecorded {A W}.
Arguments rc_inner {A W}.
Arguments rc_released {A W}.

Section recorded.
Context {J : JsonApi} {A W : Type} {VA : VehicleAdapter A}.
Context {Http : HttpTransport W} {Clock : ClockApi W} {Sort : SampleSort}.
Context {Sockets : WebSocketApi W} {Host : RuntimeHost A W}.
Notation R := (Recorded A W).

(** A call of the machine beneath. *)
Definition beneath {X} (f : W -> X * W) (r : R) : X * R :=
  let '(x, w) := f (rc_inner r) in (x, mkRecorded w (rc_released r)).

Definition beneath_socket {H X} (m : M (H * W) X) : M (H * R) X := fun '(h, r) =>
  let '(x, (h, w)) := m (h, rc_inner r) in (x, (h, mkRecorded w (rc_released r))).

#[global] Instance recorded_http : HttpTransport R := {|
  http_perform exchange := beneath (http_perform exchange);
  curl_escape := curl_escape (W := W);
|}.

#[global] Instance recorded_clock : ClockApi R := {|
  clk_now_ms := beneath clk_now_ms;
  clk_steady_ns := beneath clk_steady_ns;
|}.

#[global] Instance recorded_sockets : WebSocketApi R := {|
  ws := ws;
  ws_open timeout resolve url headers := beneath (ws_open timeout resolve url headers);
  ws_connected := ws_connected;
  ws_url := ws_url;
  ws_send_json message timeout := beneath_socket (ws_send_json message timeout);
  ws_receive_json timeout := beneath_socket (ws_receive_json timeout);
  ws_close := beneath_socket ws_close;
|}.

(** A new adapter has been asked for nothing; one the runtime lets go of is kept. *)
#[global] Instance recorded_host : RuntimeHost (Logged A) R := {|
  mh_print text r := mkRecorded (mh_print text (rc_inner r)) (rc_released r);
  mh_create_channel := beneath mh_create_channel;
  mh_channel_send channel text r :=
    mkRecorded (mh_channel_send channel text (rc_inner r)) (rc_released r);
  mh_channel_close channel r := mkRecorded (mh_channel_close channel (rc_inner r)) (rc_released r);
  mh_create_adapter config := adapter ← beneath (mh_create_adapter config); mret (mkLogged adapter []);
  mh_release_adapter adapter r :=
    mkRecorded (mh_release_adapter (lg_inner adapter) (rc_inner r)) (rc_released r ++ [adapter]);
  mh_raised := beneath mh_raised;
|}.

Lemma beneath_released {X} (f : W -> X * W) (r : R) : rc_released (beneath f r).2 = rc_released r.
Proof. unfold beneath. by destruct (f (rc_inner r)). Qed.

(** Only the end of an adapter is recorded. *)
Lemma recorded_keeps (K : list (Logged A) -> Prop) :
  host_keeps (A := Logged A) (fun r : R => K (rc_released r)).
Proof.
  split; intros; simpl; rewrite ?beneath_released; try done.
  - unfold mbind, M_bind. pose proof (beneath_released (mh_create_adapter config) w) as E.
    destruct (beneath (mh_create_adapter config) w) as [[a | e] r]; simpl in *; by rewrite E.
  - unfold beneath_socket. by case_match; simplify_eq/=; case_match.
Qed.

Lemma created_idle config (r : R) a : (mh_create_adapter config r).1 = Ok a -> lg_calls a = [].
Proof.
  simpl. unfold mbind, M_bind. destruct (beneath (mh_create_adapter config) r) as [[b | e] q]; [| done].
  by intros [= <-].
Qed.
End recorded.

(** ** Closing *)

(** Nothing was applied after the last stop. *)
Definition at_rest (calls : list adapter_call) : bool :=
  match last calls with Some (CallApply _) => false | _ => true end.

Section rest.
Context {J : JsonApi} {A : Type} {VA : VehicleAdapter A}.
Notation Svc := (VehicleControlService J (Logged A)).

(** Outside an open service the adapter is at rest. *)
Definition rested (s : Svc) : Prop :=
  svc_started s = true \/ at_rest (lg_calls (svc_adapter s)) = true.

Definition resting (s : Svc) : Prop := at_rest (lg_calls (svc_adapter s)) = true.

Lemma quiet_resting {X} (m : M (Logged A) X) (s : Svc) : quiet m -> resting s -> resting (on_adapter m s).2.
Proof.
  intros Hq H. unfold resting in *. rewrite on_adapter_state. simpl.
  destruct Hq; simpl; rewrite ?inner_calls, ?logging_calls; try done.
  unfold at_rest. by rewrite last_snoc.
Qed.

Lemma resting_frame : handler_frame resting.
Proof.
  split.
  - intros X m Hq s. by apply quiet_resting.
  - intros f Hf s H. unfold resting. simpl. by rewrite (ls_adapter _ _ (Hf s)).
Qed.

(** Closing an open service stops it, whatever fails. *)
Lemma close_rests context (s : Svc) : rested s -> resting (close context s).2.
Proof.
  intros H. unfold close, mbind at 1, M_bind at 1, gets.
  destruct (svc_started s) eqn:E; [| by destruct H as [H | H]; [rewrite E in H |]].
  cbn [negb].
  assert (Hs : leads (fun _ : Svc => True) resting
                 (on_adapter (va_apply_safe_stop software_estop_output context))).
  { intros q _. unfold resting. rewrite on_adapter_state. simpl. rewrite logging_calls.
    unfold at_rest. by rewrite last_snoc. }
  refine (leads_then _ resting _ _ Hs _ s I). intros _. pose proof resting_frame as HF.
  apply keeps_bind; [by apply clear_session_profile_keeps | intros _].
  apply keeps_bind; [apply (hf_quiet _ HF); constructor | intros _]. by apply keeps_modify.
Qed.

Lemma destroy_rests (s : Svc) : rested s -> resting (destroy s).2.
Proof.
  intros H. pose proof (close_rests (mkVehicleStopContext Session SessionLost) s H) as Hc.
  unfold destroy, try_catch. by destruct (close _ s) as [[u | e] q].
Qed.

(** *** An open service stays open until it is closed *)

Definition opened (s : Svc) : Prop := svc_started s = true.

Lemma open_adapter {X} (m : M (Logged A) X) : keeps opened (on_adapter m).
Proof. intros s H. by rewrite on_adapter_state. Qed.
Lemma open_receiver {X} (m : M ControlReceiver X) : keeps opened (on_receiver m).
Proof. intros s H. by rewrite on_receiver_state. Qed.
Lemma open_safety {X} (m : M SafetyStateMachine X) : keeps opened (on_safety m).
Proof. intros s H. by rewrite on_safety_state. Qed.
#[local] Hint Resolve open_adapter open_receiver open_safety : keeps.
#[local] Hint Extern 1 (keeps opened (modify _)) => (apply keeps_modify; intros; assumption) : keeps.

Lemma open_clear : keeps opened clear_session_profile.
Proof. unfold clear_session_profile. keeps_auto. Qed.
#[local] Hint Resolve open_clear : keeps.
Lemma open_refresh : keeps opened refresh_adapter_safe_stop_state.
Proof. unfold refresh_adapter_safe_stop_state. keeps_auto. Qed.
Lemma open_stop_now t context : keeps opened (apply_safe_stop_now t context).
Proof. unfold apply_safe_stop_now. keeps_auto. Qed.
Lemma open_require : keeps opened require_started.
Proof. unfold require_started. keeps_auto. Qed.
Lemma open_state : keeps opened safety_state.
Proof. unfold safety_state. keeps_auto. Qed.
#[local] Hint Resolve open_refresh open_stop_now open_require open_state : keeps.

Lemma open_watchdog t : keeps opened (evaluate_control_watchdog t).
Proof. unfold evaluate_control_watchdog, watchdog_react. keeps_auto. Qed.
Lemma open_fault_stop t reason : keeps opened (fault_stop t reason).
Proof. unfold fault_stop. keeps_auto. Qed.
#[local] Hint Resolve open_watchdog open_fault_stop : keeps.

Lemma open_command command t : keeps opened (receive_command command t).
Proof.
  unfold receive_command, process_command, feedback_gate, commit_command, commit_apply,
    apply_or_reject, commit_stop. keeps_auto.
Qed.

Lemma open_profile request t : keeps opened (receive_session_profile request t).
Proof.
  unfold receive_session_profile, replay_session_profile, parking_interlock, apply_session_profile,
    configure_profile, reject_and_cache, cache_result. keeps_auto.
Qed.

Lemma open_request : keeps opened request_vcu_handshake.
Proof. unfold request_vcu_handshake. keeps_auto. Qed.
Lemma open_disconnect : keeps opened disconnect_vcu_handshake.
Proof. unfold disconnect_vcu_handshake. keeps_auto. Qed.
Lemma open_tick t : keeps opened (tick t).
Proof. unfold tick, record_telemetry, build_telemetry. keeps_auto. Qed.

(** *** Every call of the runtime *)

(** A call that needs an open service. *)
Lemma rested_guarded {X} (m : M Svc X) : keeps opened (require_started;; m) -> keeps rested (require_started;; m).
Proof.
  intros Hm s H. destruct (svc_started s) eqn:E; [left; by apply Hm |].
  unfold require_started, mbind, M_bind, gets, lift. by rewrite E.
Qed.

Lemma rested_start : keeps rested start.
Proof.
  intros s H. destruct (svc_started s) eqn:E.
  { unfold start, mbind at 1, M_bind at 1, gets. by rewrite E. }
  right. apply (start_keeps _ resting_frame); [| by destruct H as [H | H]; [rewrite E in H |]].
  intros op _ q Hq. unfold resting. by rewrite on_safety_state.
Qed.

Lemma rested_adapter {X} (m : M (Logged A) X) : quiet m -> keeps rested (on_adapter m).
Proof. intros Hm s [H | H]; [left; by apply open_adapter | right; by apply quiet_resting]. Qed.

Lemma rested_calls : service_keeps rested.
Proof.
  split.
  - apply rested_start.
  - intros c t. by apply rested_guarded, open_command.
  - intros r t. by apply rested_guarded, open_profile.
  - by apply rested_guarded, open_request.
  - by apply rested_guarded, open_disconnect.
  - intros t. by apply rested_guarded, open_tick.
  - intros context s H. right. by apply close_rests.
  - apply rested_adapter. constructor.
  - apply rested_adapter. constructor.
Qed.

Lemma new_rested config driver session token (a : Logged A) t (s : Svc) :
  VehicleControlService_new config driver session token a t = Ok s -> lg_calls a = [] -> rested s.
Proof.
  unfold VehicleControlService_new. intros H Ha.
  repeat (apply result_bind_ok in H as (? & _ & H)). injection H as <-. right.
  unfold resting. simpl. by rewrite Ha.
Qed.
End rest.

Section released.
Context {J : JsonApi} {A W : Type} {VA : VehicleAdapter A}.
Context {Http : HttpTransport W} {Clock : ClockApi W} {Sort : SampleSort}.
Context {Sockets : WebSocketApi W} {Host : RuntimeHost A W}.
Notation V := (VehicleProcess (Logged A) (Recorded A W)).

Definition all_rest (adapters : list (Logged A)) : Prop :=
  Forall (fun a => at_rest (lg_calls a) = true) adapters.

Lemma released_rest : released_well (A := Logged A) (W := Recorded A W) rested (fun r => all_rest (rc_released r)).
Proof.
  split.
  - intros svc r Hs Hr. apply Forall_app. split; [done |]. apply Forall_singleton.
    by apply destroy_rests.
  - intros config a r r' Ha Hr. apply Forall_app. split; [done |]. apply Forall_singleton.
    by rewrite (created_idle config r a Ha).
Qed.

Lemma rest_steps steps (p : V) :
  match vr_service (vp_runtime p) with Some svc => rested svc | None => True end ->
  all_rest (rc_released (vp_host p)) -> all_rest (rc_released (vp_host (runtime_steps steps p))).
Proof.
  intros Hs Hr.
  assert (H : frame_of (fun r => all_rest (rc_released r)) rested (fun _ _ => True) (fun _ => True)
                (runtime_steps steps p)); [| by apply H].
  apply frame_steps; try done.
  - apply (recorded_keeps all_rest).
  - apply rested_calls.
  - apply released_rest.
  - intros here l svc _ _ (config & driver & session & token & r & a & Ha & Hn).
    apply (new_rested _ _ _ _ _ _ _ Hn), (created_idle config r), Ha.
  - by apply Forall_true.
Qed.
End released.

(** ** The latch of a critical camera *)

Definition latch_of (session : string) (l : CriticalCameraControlLatch) : Prop :=
  string_empty session = false /\ ccl_session_id l = session.

Definition latch_closed (session : string) (l : CriticalCameraControlLatch) : Prop :=
  latch_of session l /\ ccl_inhibited l = true.

(** Runs a computation of the latch. *)
Ltac latch_run := intros; unfold mbind, M_bind, get, gets, put, lift, mret, M_ret, throw_if in *; simpl;
  repeat (case_match; simpl in *; simplify_eq/=); try done.

Lemma latch_of_keeps : latch_keeps latch_of.
Proof.
  split; intros session; intros; intros l [H1 H2];
    unfold latch_inhibit, latch_startup_grace_active, latch_arm_for_control, latch_needs_session, latch_of in *;
    latch_run.
Qed.

Lemma latch_closed_keeps : latch_keeps latch_closed.
Proof.
  split; intros session; intros; intros l [[H1 H2] H3];
    unfold latch_inhibit, latch_startup_grace_active, latch_arm_for_control, latch_needs_session,
      latch_closed, latch_of in *;
    latch_run.
Qed.

(** The latch of a session closes. *)
Lemma latch_inhibit_closes session (l : CriticalCameraControlLatch) :
  latch_of session l ->
  exists b, latch_inhibit session l = (Ok b, l <| ccl_inhibited := true |>).
Proof.
  intros [Hs Hl]. eexists. unfold latch_inhibit, latch_needs_session. run_monad.
  rewrite Hl, Hs. simpl. by rewrite String.eqb_refl.
Qed.

(** A session that is entered again stays inhibited. *)
Lemma latch_reentered session (l l' : CriticalCameraControlLatch) (b : bool) :
  latch_closed session l -> latch_enter_session session l = (Ok b, l') -> b = true /\ l' = l.
Proof.
  intros [[H0 H1] H2]. unfold latch_enter_session, latch_needs_session in *. run_monad. rewrite H1, String.eqb_refl.
  destruct (string_empty session); [done |]. simpl. intros [= <- <-]. by rewrite H2.
Qed.

Section cameras.
Context {J : JsonApi} {A W : Type} {VA : VehicleAdapter A}.
Context {Http : HttpTransport W} {Clock : ClockApi W} {Sort : SampleSort}.
Context {Sockets : WebSocketApi W} {Host : RuntimeHost A W}.
Notation V := (VehicleProcess A W).
Notation Svc := (VehicleControlService J A).

Lemma anything_kept : host_keeps (A := A) (fun _ : W => True).
Proof. split; done. Qed.
Lemma any_service : service_keeps (fun _ : Svc => True).
Proof. split; done. Qed.
Lemma no_service : service_keeps (fun _ : Svc => False).
Proof. split; intros; intros s []. Qed.
Lemma any_release (SI : Svc -> Prop) : released_well SI (fun _ : W => True).
Proof. split; done. Qed.

(** A service may run; the latch is that of the session. *)
Definition frame_session : V -> Prop :=
  frame_of (fun _ => True) (fun _ => True) latch_of (fun _ => True).
(** A service may run, the latch is closed. *)
Definition frame_closing : V -> Prop :=
  frame_of (fun _ => True) (fun _ => True) latch_closed (fun _ => True).
(** No service runs and none will. *)
Definition frame_closed : V -> Prop :=
  frame_of (fun _ => True) (fun _ => False) latch_closed (fun _ => True).

Lemma frame_closed_iff p : frame_closed p <->
  vr_service (vp_runtime p) = None /\
  latch_closed (msc_session_id (vr_signaling (vp_runtime p))) (vr_latch (vp_runtime p)).
Proof. unfold frame_closed, frame_of. destruct (vr_service (vp_runtime p)); intuition congruence. Qed.

Lemma session_steps steps p : frame_session p -> frame_session (runtime_steps steps p).
Proof.
  apply frame_steps; eauto using anything_kept, any_service, any_release, latch_of_keeps.
  by apply Forall_true.
Qed.

Lemma closing_steps steps p : frame_closing p -> frame_closing (runtime_steps steps p).
Proof.
  apply frame_steps; eauto using anything_kept, any_service, any_release, latch_closed_keeps.
  by apply Forall_true.
Qed.

Lemma closed_steps steps p : frame_closed p -> frame_closed (runtime_steps steps p).
Proof.
  apply frame_steps; eauto using anything_kept, no_service, any_release, latch_closed_keeps.
  - intros here l svc [_ H] H'. congruence.
  - by apply Forall_true.
Qed.

(** The steps keep the session. *)
Lemma steps_session steps p :
  msc_session_id (vr_signaling (vp_runtime (runtime_steps steps p))) =
  msc_session_id (vr_signaling (vp_runtime p)).
Proof.
  set (s := msc_session_id (vr_signaling (vp_runtime p))).
  assert (H : frame_of (fun _ => True) (fun _ : Svc => True) (fun here _ => here = s) (fun _ => True)
                (runtime_steps steps p)); [| by apply H].
  apply frame_steps; eauto using anything_kept, any_service, any_release.
  - split; intros; intros l H; exact H.
  - by apply Forall_true.
  - subst s. unfold frame_of. by destruct (vr_service _).
Qed.

(** *** The session is entered again *)

(** The client's calls leave the latch and the service alone. *)
Definition latch_is (l : CriticalCameraControlLatch) (p : V) : Prop :=
  vr_service (vp_runtime p) = None /\ vr_latch (vp_runtime p) = l.

Lemma latch_is_client {X} l (m : M (MediaSignalingClient * W) X) : keeps (latch_is l) (on_client m).
Proof. intros p H. unfold on_client, zoom. by destruct (m _). Qed.
#[local] Hint Resolve latch_is_client : keeps.

Lemma latch_is_now l : keeps (latch_is l) media_now_ms.
Proof. apply latch_is_client. Qed.
#[local] Hint Resolve latch_is_now : keeps.

Lemma latch_is_await l rounds continuous deadline_ms :
  keeps (latch_is l) (await_session rounds continuous deadline_ms : M V unit).
Proof. induction rounds; simpl; keeps_auto. Qed.
#[local] Hint Resolve latch_is_await : keeps.

Lemma latch_is_runtime l : keeps (latch_is l) runtime.
Proof. apply keeps_gets. Qed.
#[local] Hint Resolve latch_is_runtime : keeps.

Lemma admit_closed session (p q : V) (b : bool) :
  vr_service (vp_runtime p) = None -> latch_closed session (vr_latch (vp_runtime p)) ->
  admit_session p = (Ok b, q) -> msc_session_id (vr_signaling (vp_runtime q)) = session ->
  b = true /\ frame_closed q.
Proof.
  intros Hn Hc H Hs. unfold admit_session, runtime in H. unfold mbind at 1, M_bind at 1, gets in H.
  unfold mbind at 1, M_bind at 1, on_latch, zoom in H.
  destruct (latch_enter_session _ _) as [[inherited | e] l] eqn:El; [| done].
  set (p1 := p <| vp_runtime ::= _ |>) in H. set (rest := (runtime_update _;; _)) in H.
  assert (Hcalm : calm (fun _ => True) rest).
  { pose proof anything_kept. subst rest. calm_auto. }
  destruct (Hcalm p1 I) as [Hcore _]. rewrite H in Hcore. injection Hcore as E1 E2 E3 E4.
  rewrite <- Hs, E4 in Hc. destruct (latch_reentered _ _ _ _ Hc El) as [-> ->].
  split.
  - subst rest. unfold mbind, M_bind, runtime_update, modify, when, mret, M_ret in H.
    by destruct (emit_diagnostic _ _ _ _ _ _ _) as [[u | e] q1]; simplify_eq/=.
  - apply frame_closed_iff. rewrite E1, E2, E4. done.
Qed.

Lemma prepare_closed session rounds continuous (p q : V) (b : bool) :
  vr_service (vp_runtime p) = None -> latch_closed session (vr_latch (vp_runtime p)) ->
  prepare_session rounds continuous p = (Ok b, q) ->
  msc_session_id (vr_signaling (vp_runtime q)) = session -> b = true /\ frame_closed q.
Proof.
  intros Hn Hc H Hs.
  assert (Hpost : hoare (latch_is (vr_latch (vp_runtime p))) (prepare_session (A := A) (W := W) rounds continuous)
    (fun b q => msc_session_id (vr_signaling (vp_runtime q)) = session -> b = true /\ frame_closed q)
    (fun _ => True)).
  { unfold prepare_session, require_time.
    apply hoare_keeps_bind; [keeps_auto | done | intros _].
    apply hoare_keeps_bind; [keeps_auto | done | intros _].
    apply hoare_keeps_bind; [keeps_auto | done | intros now].
    apply hoare_keeps_bind; [keeps_auto | done | intros _].
    intros r [Hr1 Hr2]. destruct (admit_session r) as [[b' | e] r'] eqn:E; [| done].
    intros Hs'. apply (admit_closed session r r' b'); [done | by rewrite Hr2 | done | done]. }
  specialize (Hpost p (conj Hn eq_refl)). rewrite H in Hpost. by apply Hpost.
Qed.

(** A new runtime takes the latch it is given, and has no service. *)
Lemma runtime_new config url token connection sequence latch timeout (w w' : W) (s : VehicleRuntime J A) :
  VehicleRuntime_new config url token connection sequence latch timeout w = (Ok s, w') ->
  vr_service s = None /\ vr_latch s = latch.
Proof.
  unfold VehicleRuntime_new, mbind, M_bind, lift, throw_if, mret, M_ret.
  destruct (MediaSignalingClient_new _ _ _ _ _ w) as [[c | e] w1]; [| done].
  destruct (timeout <=? 0); [done |]. by intros [= <- _].
Qed.
End cameras.

(** ** A critical camera fails *)

(** From [I], [m] ends in [K], unless something that is not a [std::exception] ends it. *)
Definition settles {S X} (I K : S -> Prop) (m : M S X) : Prop :=
  forall p, I p -> (m p).1 = Throw ForeignException \/ K (m p).2.

Lemma settles_then {S X Y} (I K : S -> Prop) (m : M S X) (f : X -> M S Y) :
  settles I K m -> (forall x, keeps K (f x)) -> settles I K (m ≫= f).
Proof.
  intros Hm Hf p H. specialize (Hm p H). unfold mbind, M_bind.
  destruct (m p) as [[x | e] q]; simpl in *.
  - destruct Hm as [? | Hm]; [done | right]. by apply Hf.
  - destruct Hm as [[= ->] | Hm]; auto.
Qed.

(** A step that only ends normally. *)
Lemma settles_after {S X Y} (I I' K : S -> Prop) (m : M S X) (f : X -> M S Y) :
  (forall p, I p -> is_ok (m p).1 = true) -> leads I I' m -> (forall x, settles I' K (f x)) ->
  settles I K (m ≫= f).
Proof.
  intros Hok Hm Hf p H. specialize (Hm p H). specialize (Hok p H). unfold mbind, M_bind.
  destruct (m p) as [[x | e] q]; [by apply Hf | done].
Qed.

Section failure.
Context {J : JsonApi} {A W : Type} {VA : VehicleAdapter A}.
Context {Http : HttpTransport W} {Clock : ClockApi W} {Sort : SampleSort}.
Context {Sockets : WebSocketApi W} {Host : RuntimeHost A W}.
Notation V := (VehicleProcess A W).

(** What is thrown past [close_service] is not a [std::exception]. *)
Lemma close_service_settles context :
  settles frame_closing frame_closed (close_service context : M V _).
Proof.
  intros p H.
  assert (Hf : frame_closing (close_service context p).2).
  { revert p H. apply frame_close_service; eauto using anything_kept, any_service, any_release. }
  assert (He : (close_service context p).1 = Throw ForeignException \/
               vr_service (vp_runtime (close_service context p).2) = None).
  { unfold close_service, drop_service, runtime, runtime_update, world_update, mbind, M_bind, gets, modify,
      try_catch_std, try_catch, mret, M_ret.
    destruct (service_running _).
    - destruct (on_service (close context) p) as [[u | e] q]; simpl.
      + by destruct (vr_service (vp_runtime q)) eqn:E; right; simpl.
      + destruct e; simpl; try (by destruct (vr_service (vp_runtime q)) eqn:E; right; simpl). by left.
    - simpl. by destruct (vr_service (vp_runtime p)) eqn:E; right; simpl. }
  destruct He as [He | He]; [by left | right]. apply frame_closed_iff.
  split; [done |]. apply Hf.
Qed.

Lemma others_session {Threads : VehicleThreads W} : keeps frame_session (threads_run : M V unit).
Proof.
  intros p H. unfold threads_run. destruct (vt_steps (vp_host p)) as [steps w]. simpl.
  by apply session_steps.
Qed.

Lemma others_closing {Threads : VehicleThreads W} : keeps frame_closing (threads_run : M V unit).
Proof.
  intros p H. unfold threads_run. destruct (vt_steps (vp_host p)) as [steps w]. simpl.
  by apply closing_steps.
Qed.

Lemma others_ok {Threads : VehicleThreads W} (p : V) : is_ok (threads_run p).1 = true.
Proof. unfold threads_run. by destruct (vt_steps (vp_host p)). Qed.

Lemma invalidate_ok (p : V) : is_ok (invalidate_trusted_gear p).1 = true.
Proof.
  unfold invalidate_trusted_gear, runtime, mbind, M_bind, gets.
  by destruct (vr_fresh_gear (vp_runtime p)).
Qed.

#[local] Hint Resolve anything_kept any_service no_service any_release : keeps.

Lemma closing_calm {X} (m : M V X) : calm (fun _ => True) m -> keeps frame_closing m.
Proof. apply frame_calm. Qed.
Lemma closed_calm {X} (m : M V X) : calm (fun _ => True) m -> keeps frame_closed m.
Proof. apply frame_calm. Qed.

(** The locked part: the issue, the end of the service, then messages. *)
Lemma camera_stop_settles : settles frame_closing frame_closed (camera_stop_locked : M V _).
Proof.
  pose proof anything_kept as HP. unfold camera_stop_locked.
  apply (settles_after _ frame_closing); [done | apply closing_calm; calm_auto | intros _].
  apply (settles_after _ frame_closing); [auto using invalidate_ok | apply closing_calm; calm_auto | intros _].
  apply settles_then; [apply close_service_settles | intros error].
  apply keeps_bind; [by apply frame_status; auto with keeps | intros _].
  apply closed_calm. calm_auto.
Qed.

Context {Threads : VehicleThreads W}.

Lemma others_closed : keeps frame_closed (threads_run : M V unit).
Proof.
  intros p H. unfold threads_run. destruct (vt_steps (vp_host p)) as [steps w]. simpl.
  by apply closed_steps.
Qed.

(** The latch of the session closes. *)
Lemma inhibit_latch_closes : leads frame_session frame_closing (inhibit_latch : M V _).
Proof.
  intros p (H1 & H2 & H3). unfold inhibit_latch, runtime, try_catch_std, try_catch, on_latch, zoom.
  unfold mbind, M_bind, gets.
  destruct (latch_inhibit_closes _ _ H2) as [b ->]. destruct H2 as [Hs Hl]. split; [exact H1 |].
  split; [| exact H3]. by split_and!.
Qed.

Lemma inhibit_latch_ok (p : V) : frame_session p -> is_ok (inhibit_latch p).1 = true.
Proof.
  intros (H1 & H2 & H3). unfold inhibit_latch, runtime, try_catch_std, try_catch, on_latch, zoom.
  unfold mbind, M_bind, gets. by destruct (latch_inhibit_closes _ _ H2) as [b ->].
Qed.

Lemma exchange_first (p : V) : vr_control_inhibited (vp_runtime p) = false ->
  (mh_raised (vp_host p)).1.2 = false -> (inhibit_exchange p).1 = Ok false.
Proof.
  intros H1 H2. unfold inhibit_exchange, flags_seen, runtime, runtime_update, mbind, M_bind, gets, modify.
  destruct (mh_raised (vp_host p)) as [[stop inhibited] w]. simpl in *. by rewrite H1, H2.
Qed.

(** The same with the lock taken first. *)
Lemma locked_latch (p : V) : frame_session p ->
  is_ok (locked inhibit_latch p).1 = true /\ frame_closing (locked inhibit_latch p).2.
Proof.
  intros H. pose proof (others_ok p) as Ho. pose proof (others_session p H) as Hs.
  unfold locked, mbind, M_bind. destruct (threads_run p) as [[u | e] q]; [| done].
  split; [by apply inhibit_latch_ok | by apply inhibit_latch_closes].
Qed.

Lemma locked_stop : settles frame_closing frame_closed (locked camera_stop_locked : M V _).
Proof.
  apply (settles_after _ frame_closing); [auto using others_ok | apply others_closing |].
  intros _. apply camera_stop_settles.
Qed.

Lemma inhibit_settles lane failure :
  settles (fun p => frame_session p /\ (inhibit_exchange p).1 = Ok false) frame_closed
    (inhibit_control_for_critical_camera lane failure : M V unit).
Proof.
  pose proof anything_kept as HP. intros p [H Hx]. unfold inhibit_control_for_critical_camera.
  assert (Hq : frame_session (inhibit_exchange p).2).
  { apply frame_calm; [| done]. by apply calm_inhibit_exchange. }
  set (rest := fun before : bool => if before then _ else _).
  assert (Hs : settles frame_session frame_closed (rest false)).
  { subst rest. cbv beta iota.
    apply (settles_after _ frame_closing); [by intros; apply locked_latch | by intros ? ?; apply locked_latch |].
    intros latch_error. apply settles_then; [apply locked_stop | intros stopped].
    apply closed_calm. calm_auto. }
  specialize (Hs _ Hq). unfold mbind at 1 2, M_bind at 1 2.
  destruct (inhibit_exchange p) as [r q]. simpl in Hx, Hs. subst r. exact Hs.
Qed.
End failure.

(** ** The frozen gear *)

Section gear.
Context {J : JsonApi} {A W : Type} {VA : VehicleAdapter A}.
Context {Http : HttpTransport W} {Clock : ClockApi W} {Sort : SampleSort}.
Context {Sockets : WebSocketApi W} {Host : RuntimeHost A W}.
Notation V := (VehicleProcess A W).

Lemma gear_steps steps gear (p : V) :
  vr_estop_gear (vp_runtime p) = Some gear -> Forall (fun step => step <> StepTransport) steps ->
  vr_estop_gear (vp_runtime (runtime_steps steps p)) = Some gear.
Proof.
  intros Hg Hs.
  assert (H : frame_of (fun _ => True) (fun _ : VehicleControlService J A => True) (fun _ _ => True)
                (fun g => g = Some gear) (runtime_steps steps p)); [| by apply H].
  apply frame_steps; eauto using anything_kept, any_service, any_release.
  - done.
  - by split.
  - eapply Forall_impl; [exact Hs | done].
  - unfold frame_of. by destruct (vr_service _).
Qed.
End gear.
