(* ===== verification/VehicleAdmission.v ===== *)
(** VehicleAdmission: what a native command must pass to reach the vehicle service.

    - [polled], [near]: what the runtime does before it decides only looks;
    - [admitted], [native_outcome]: what is forwarded, and ([native_spec]) that nothing else is;
    - [scan_delivery] against its specification: the newest of the messages that read well. *)
From S2P Require Export VehicleStops.

Section admission.
Context {J : JsonApi} {A W : Type} {VA : VehicleAdapter A}.
Context {Http : HttpTransport W} {Clock : ClockApi W} {Sort : SampleSort}.
Context {Sockets : WebSocketApi W} {Host : RuntimeHost A W}.
Notation V := (VehicleProcess A W).
Notation Rt := (VehicleRuntime J A).
Notation Svc := (VehicleControlService J A).

(** ** Looking *)

(** The service after it was asked for its adapter's status, any number of times. *)
Inductive polled (svc : Svc) : Svc -> Prop :=
| polled_none : polled svc svc
| polled_status svc' : polled svc svc' -> polled svc (on_adapter va_status svc').2
| polled_handshake svc' : polled svc svc' -> polled svc (on_adapter va_vcu_handshake_status svc').2.

Lemma polled_adapter svc svc' : polled svc svc' -> exists a, svc' = svc <| svc_adapter := a |>.
Proof.
  intros H. induction H as [| svc' H [a ->] | svc' H [a ->]].
  - exists (svc_adapter svc). by destruct svc.
  - rewrite on_adapter_state. simpl. eauto.
  - rewrite on_adapter_state. simpl. eauto.
Qed.

Definition serves (svc : Svc) (p : V) : Prop :=
  exists svc', vr_service (vp_runtime p) = Some svc' /\ polled svc svc'.

(** [p] differs from [s0] in what the decision does not rest on. *)
Record near (s0 : Rt) (svc : Svc) (p : V) : Prop := {
  nr_serves : serves svc p;
  nr_config : vr_config (vp_runtime p) = vr_config s0;
  nr_fresh_gear : vr_fresh_gear (vp_runtime p) = vr_fresh_gear s0;
  nr_estop_gear : vr_estop_gear (vp_runtime p) = vr_estop_gear s0;
  nr_last_accepted : vr_last_accepted_monotonic_ms (vp_runtime p) = vr_last_accepted_monotonic_ms s0;
}.

Lemma near_refl (p : V) svc : vr_service (vp_runtime p) = Some svc -> near (vp_runtime p) svc p.
Proof. intros H. split; try done. exists svc. by split; [| constructor]. Qed.

Lemma near_count s0 svc c n : keeps (near s0 svc) (add_counter c n).
Proof. intros p [H1 H2 H3 H4 H5]. by split. Qed.

Lemma near_flags s0 svc : keeps (near s0 svc) flags_seen.
Proof.
  intros p [H1 H2 H3 H4 H5]. unfold flags_seen.
  destruct (mh_raised (vp_host p)) as [[stop inhibited] w]. by split.
Qed.

Lemma near_runtime s0 svc : keeps (near s0 svc) runtime.
Proof. apply keeps_gets. Qed.

(** Asking the service for a status. *)
Lemma near_ask {X} s0 svc (m : M Svc X) :
  (forall svc', polled svc svc' -> polled svc (m svc').2) -> keeps (near s0 svc) (on_service m).
Proof.
  intros Hm p [(svc' & E & Hp) H2 H3 H4 H5]. unfold on_service. rewrite E.
  specialize (Hm svc' Hp). destruct (m svc') as [x svc2]. split; try done. by exists svc2.
Qed.

Lemma near_get s0 svc : keeps (near s0 svc) (on_service get).
Proof. apply near_ask. done. Qed.
Lemma near_state s0 svc : keeps (near s0 svc) (on_service safety_state).
Proof. apply near_ask. done. Qed.
Lemma near_status s0 svc : keeps (near s0 svc) (on_service (on_adapter va_status)).
Proof. apply near_ask. intros svc'. apply polled_status. Qed.
Lemma near_handshake s0 svc : keeps (near s0 svc) (on_service (on_adapter va_vcu_handshake_status)).
Proof. apply near_ask. intros svc'. apply polled_handshake. Qed.

Lemma serves_invalidate svc : keeps (serves svc) (invalidate_trusted_gear : M V unit).
Proof.
  intros p H. unfold invalidate_trusted_gear, runtime, mbind, M_bind, gets.
  by destruct (vr_fresh_gear (vp_runtime p)).
Qed.
End admission.
#[export] Hint Resolve near_count near_flags near_runtime near_get near_state near_status
  near_handshake : keeps.

Section gate.
Context {J : JsonApi} {L : JsonLaws} {A W : Type} {VA : VehicleAdapter A}.
Context {Http : HttpTransport W} {Clock : ClockApi W} {Sort : SampleSort}.
Context {Sockets : WebSocketApi W} {Host : RuntimeHost A W}.
Notation V := (VehicleProcess A W).
Notation Rt := (VehicleRuntime J A).
Notation Svc := (VehicleControlService J A).

(** ** What admits a command *)

Definition bench (s : Rt) : Prop := fs_commissioning_mode (cfg_field_safety (vr_config s)) = "bench"%string.

(** The adapter said it is ready: the handshake, or a mock on the bench. *)
Definition vehicle_ready (s : Rt) (svc : Svc) : Prop :=
  exists svc', polled svc svc' /\
    ((exists status, (on_adapter va_vcu_handshake_status svc').1 = Ok status /\ vh_ready status = true) \/
     (bench s /\ exists status, (on_adapter va_status svc').1 = Ok status /\
                                ast_adapter_type status = "mock"%string)).

Definition usable (s : Rt) : Prop :=
  vr_stop_requested s = false /\ vr_control_inhibited s = false /\ vr_service_started s = true /\
  vr_link_open s = true.

(** A heartbeat continues what an accepted command began. *)
Definition continues (s : Rt) (svc : Svc) (c : ControlCommand) (acquired_ms : Z) : Prop :=
  sm_state (svc_safety svc) = SafetyControlActive /\
  0 < vr_last_accepted_monotonic_ms s <= acquired_ms /\
  acquired_ms - vr_last_accepted_monotonic_ms s < cc_degraded_timeout_ms (cfg_control (vr_config s)) /\
  vr_fresh_gear s = Some (cmd_gear c).

(** An ordinary command. *)
Definition admitted (s : Rt) (svc : Svc) (c : ControlCommand) (fresh : bool) (acquired_ms : Z) : Prop :=
  is_Some (svc_active_session_profile svc) /\ vehicle_ready s svc /\
  (fresh = true \/ stale_safe_heartbeat c false = true /\ continues s svc c acquired_ms).

Definition gate_answer (s : Rt) (svc : Svc) (c : ControlCommand) (fresh : bool) (acquired_ms : Z)
    (c' : ControlCommand) : Prop :=
  usable s /\
  (cmd_estop c = true /\ c' = c <| cmd_gear := estop_gear s c |> \/
   cmd_estop c = false /\ c' = c /\ admitted s svc c fresh acquired_ms).

Lemma usable_hoare (p : V) svc : vr_service (vp_runtime p) = Some svc ->
  hoare (fun q => q = p) control_usable
    (fun b q => near (vp_runtime p) svc q /\ (b = true -> usable (vp_runtime p))) (serves svc).
Proof.
  intros Hs q ->. unfold control_usable, runtime, mbind, M_bind, gets, mret, M_ret.
  pose proof (near_flags _ _ p (near_refl p svc Hs)) as Hn. unfold flags_seen in *.
  destruct (mh_raised (vp_host p)) as [[stop inhibited] w]. simpl in *. split; [exact Hn |].
  unfold service_running, usable. simpl. intros H. bool_prop.
  repeat match goal with H : orb _ _ = false |- _ => apply orb_false_iff in H as [? ?] end. done.
Qed.

Lemma active_hoare s0 svc :
  hoare (near s0 svc) profile_active
    (fun b q => near s0 svc q /\ (b = true -> is_Some (svc_active_session_profile svc))) (serves svc).
Proof.
  unfold profile_active. intros p H. pose proof H as [(svc' & E & Hp) _ _ _ _].
  destruct (polled_adapter _ _ Hp) as [a ->]. unfold mbind at 1, M_bind at 1.
  unfold on_service. rewrite E. unfold get, lift.
  assert (Hq : near s0 svc (p <| vp_runtime ::= fun s => s <| vr_service := Some (svc <| svc_adapter := a |>) |> |>)).
  { destruct H as [_ H2 H3 H4 H5]. split; try done. by exists (svc <| svc_adapter := a |>). }
  destruct (session_control_profile _ ≫= _) as [b | e] eqn:Ea; [| apply Hq].
  split; [exact Hq |]. intros ->. apply result_bind_ok in Ea as (profile & Ep & Ea).
  unfold session_control_profile in Ep. apply result_bind_ok in Ep as (effective & _ & Ep).
  injection Ep as <-. rewrite (value_bool_at _ _ _ (j_bool (bool_decide (is_Some (svc_active_session_profile svc))))) in Ea.
  - rewrite get_bool_bool in Ea. injection Ea as Ea. by apply bool_decide_eq_true in Ea.
  - apply is_object_object.
  - apply j_at_object; [by apply (bool_decide_unpack _) | done].
Qed.

Lemma near_serves s0 svc (p : V) : near s0 svc p -> serves svc p.
Proof. by intros []. Qed.
#[local] Hint Resolve near_serves : core.

(** An answer of the service that is kept with the state it was given in. *)
Lemma ask_hoare {X} s0 svc (m : M Svc X) :
  (forall svc', polled svc svc' -> polled svc (m svc').2) ->
  hoare (near s0 svc) (on_service m)
    (fun x q => near s0 svc q /\ exists svc', polled svc svc' /\ (m svc').1 = Ok x) (near s0 svc).
Proof.
  intros Hm p H. pose proof (near_ask s0 svc m Hm p H) as Hq.
  destruct H as [(svc' & E & Hp) _ _ _ _]. unfold on_service in *. rewrite E in *.
  destruct (m svc') as [[x | e] svc2] eqn:Em; [| exact Hq].
  split; [exact Hq |]. exists svc'. by rewrite Em.
Qed.

Lemma ready_hoare s0 svc :
  hoare (near s0 svc) handshake_admits
    (fun b q => near s0 svc q /\ (b = true -> vehicle_ready s0 svc)) (serves svc).
Proof.
  unfold handshake_admits. intros p H. pose proof H as [_ Hc _ _ _].
  unfold runtime, mbind at 1, M_bind at 1, gets. unfold mbind at 1, M_bind at 1.
  pose proof (ask_hoare s0 svc (on_adapter va_status) (polled_status svc) p H) as Hs.
  destruct (on_service (on_adapter va_status) p) as [[status | e] q]; [| by apply near_serves in Hs].
  destruct Hs as [Hq (svc' & Hp & Ha)]. rewrite Hc.
  destruct (String.eqb _ "bench" && String.eqb _ "mock") eqn:E.
  - bool_prop. split; [exact Hq |]. intros _. exists svc'. split; [done |]. right. split; [done |].
    by exists status.
  - unfold try_catch, mbind, M_bind.
    pose proof (ask_hoare s0 svc (on_adapter va_vcu_handshake_status) (polled_handshake svc) q Hq) as Hh.
    destruct (on_service (on_adapter va_vcu_handshake_status) q) as [[h | e] r]; [| by split].
    destruct Hh as [Hr (svc2 & Hp2 & Ha2)]. split; [exact Hr |]. intros Hready. exists svc2.
    split; [done |]. left. by exists h.
Qed.

Lemma keeps_serves_count svc c n : keeps (serves svc) (add_counter c n : M V unit).
Proof. by intros p H. Qed.

Lemma authority_hoare s0 svc :
  hoare (near s0 svc) authority_admits
    (fun b q => serves svc q /\
       (b = true -> near s0 svc q /\ is_Some (svc_active_session_profile svc) /\ vehicle_ready s0 svc))
    (serves svc).
Proof.
  unfold authority_admits. eapply hoare_bind; [apply active_hoare | intros active].
  intros p [H Ha]. revert p H.
  apply (hoare_bind (near s0 svc) (fun b q => near s0 svc q /\ (b = true -> vehicle_ready s0 svc)));
    [apply ready_hoare | intros ready].
  destruct (active && ready) eqn:E.
  - bool_prop. apply hoare_ret. intros q [Hq Hr]. split; [by apply (near_serves s0) | auto].
  - apply (hoare_pre _ (serves svc)); [by intros q [[Hq _ _ _ _] _] |].
    apply hoare_keeps_bind; [apply serves_invalidate | done | intros _].
    apply hoare_keeps_bind; [apply keeps_serves_count | done | intros _].
    apply hoare_ret. done.
Qed.

Lemma heartbeat_hoare s0 svc c acquired_ms :
  hoare (near s0 svc) (heartbeat_admits c acquired_ms)
    (fun b q => serves svc q /\ (b = true -> continues s0 svc c acquired_ms)) (serves svc).
Proof.
  unfold heartbeat_admits.
  eapply hoare_bind.
  { eapply (hoare_conseq _ _ _ _ _ (serves svc)); [done | | apply near_serves |
      apply (ask_hoare s0 svc safety_state); done]. intros state q Hq. exact Hq. }
  intros state p [H (svc' & Hp & Hst)]. simpl in Hst. injection Hst as <-.
  destruct (polled_adapter _ _ Hp) as [a ->]. simpl in *.
  pose proof H as [Hs Hc Hg _ Hl]. unfold runtime, mbind, M_bind, gets. rewrite Hc, Hg, Hl.
  destruct (bool_decide (sm_state (svc_safety svc) = SafetyControlActive)) eqn:E1; simpl;
    [| split; [exact Hs | done]].
  destruct (_ || _ || _) eqn:E2; simpl; [split; [exact Hs | done] |].
  destruct (bool_decide (vr_fresh_gear s0 = _)) eqn:E3; simpl; (split; [exact Hs |]); [| done].
  intros _. bool_prop. apply bool_decide_eq_true in E1, E3.
  repeat match goal with H : orb _ _ = false |- _ => apply orb_false_iff in H as [? ?] end. bool_prop.
  split_and!; try done; lia.
Qed.

Lemma override_hoare s0 svc c :
  hoare (near s0 svc) (override_estop_gear c)
    (fun c' q => near s0 svc q /\ c' = c <| cmd_gear := estop_gear s0 c |>) (near s0 svc).
Proof.
  intros p H. pose proof H as [_ _ Hf He _]. unfold override_estop_gear, runtime, mbind, M_bind, gets, when.
  replace (estop_gear (vp_runtime p) c) with (estop_gear s0 c) by (unfold estop_gear; by rewrite Hf, He).
  destruct (negb _); [| by split]. pose proof (near_count s0 svc estop_gear_overrides 1 p H) as Hq.
  unfold count. by destruct (add_counter estop_gear_overrides 1 p) as [[u | e] q] eqn:E; simplify_eq/=.
Qed.

(** Fresh input, or a heartbeat that continues. *)
Lemma final_hoare s0 svc c (fresh : bool) acquired_ms :
  negb fresh && negb (stale_safe_heartbeat c fresh) = false ->
  hoare (near s0 svc)
    (if stale_safe_heartbeat c fresh then heartbeat_admits c acquired_ms else mret true : M V bool)
    (fun b q => serves svc q /\ (b = true -> fresh = true \/
       stale_safe_heartbeat c false = true /\ continues s0 svc c acquired_ms)) (serves svc).
Proof.
  intros Ef. destruct fresh; simpl in Ef.
  - replace (stale_safe_heartbeat c true) with false
      by (unfold stale_safe_heartbeat; simpl; by rewrite andb_false_r).
    apply hoare_ret. intros r Hr'. split; [by apply (near_serves s0) | auto].
  - apply negb_false_iff in Ef. rewrite Ef.
    eapply hoare_conseq; [done | | done | apply heartbeat_hoare]. intros b r [H1 H2].
    split; [done | auto].
Qed.

Lemma gate_hoare (p : V) svc c fresh acquired_ms : vr_service (vp_runtime p) = Some svc ->
  hoare (fun q => q = p) (native_gate c fresh acquired_ms)
    (fun a q => serves svc q /\
       forall c', a = Some c' -> gate_answer (vp_runtime p) svc c fresh acquired_ms c') (serves svc).
Proof.
  intros Hs. set (s0 := vp_runtime p).
  assert (Hnone : forall k n, hoare (near s0 svc) (add_counter k n;; mret None : M V (option ControlCommand))
    (fun a q => serves svc q /\ forall c', a = Some c' -> gate_answer s0 svc c fresh acquired_ms c')
    (serves svc)).
  { intros k n q Hq. split; [by apply (near_serves s0), near_count | done]. }
  unfold native_gate. eapply hoare_bind; [by apply usable_hoare | intros usable].
  destruct usable; cbn [negb]; [| eapply hoare_pre; [| apply Hnone]; by intros q []].
  intros q [Hq Hu]. specialize (Hu eq_refl). fold s0 in Hq, Hu. revert q Hq.
  change (hoare (near s0 svc) (if cmd_estop c then override_estop_gear c ≫= (fun c => mret (Some c)) else
    if negb fresh && negb (stale_safe_heartbeat c fresh) then
      count stale_nonzero_intents_discarded;; mret None
    else authorised ← authority_admits;
      if negb authorised then mret None else
      admitted ← (if stale_safe_heartbeat c fresh then heartbeat_admits c acquired_ms else mret true);
      mret (if (admitted : bool) then Some c else None))
    (fun a q => serves svc q /\ forall c', a = Some c' -> gate_answer s0 svc c fresh acquired_ms c')
    (serves svc)).
  destruct (cmd_estop c) eqn:Ee.
  { eapply hoare_bind; [eapply hoare_conseq; [done | | apply near_serves | apply (override_hoare s0 svc)];
      intros c' q Hc'; exact Hc' |].
    intros c' q [Hq ->]. split; [by apply (near_serves s0) |]. intros c' [= <-]. split; [done |]. by left. }
  destruct (negb fresh && _) eqn:Ef; [apply Hnone |].
  eapply hoare_bind; [apply authority_hoare | intros authorised].
  destruct authorised; cbn [negb]; [| intros q [Hq _]; by split].
  intros q [_ Hq]. destruct (Hq eq_refl) as (Hn & Hp & Hr). revert q Hn Hq. intros q Hn _.
  pose proof (final_hoare s0 svc c fresh acquired_ms Ef q Hn) as Hfinal.
  unfold mbind at 1, M_bind at 1.
  match type of Hfinal with match ?m with _ => _ end => destruct m as [[b | e] r] end; [| done].
  destruct Hfinal as [H1 H2]. split; [exact H1 |]. destruct b; [| done]. intros c' [= <-].
  split; [done |]. right. split_and!; try done. split_and!; auto.
Qed.

(** ** A native command *)

Definition service_is (x : option Svc) (p : V) : Prop := vr_service (vp_runtime p) = x.

Lemma service_is_calm {X} x (m : M V X) : calm (fun _ => True) m -> keeps (service_is x) m.
Proof. intros Hm p H. destruct (Hm p I) as [Hc _]. injection Hc as E _ _ _. unfold service_is. by rewrite E. Qed.

Lemma service_is_update x f : (forall s, vr_service (f s) = vr_service s) -> keeps (service_is x) (runtime_update f : M V unit).
Proof. intros Hf p H. unfold service_is. simpl. by rewrite Hf. Qed.
#[local] Hint Extern 1 (keeps (service_is _) (runtime_update _)) =>
  (apply service_is_update; intros; reflexivity) : keeps.
#[local] Hint Extern 4 (keeps (service_is _) _) =>
  (apply service_is_calm; pose proof (anything_kept (A := A) (W := W)); solve [calm_auto]) : keeps.

Lemma service_is_freeze x command : keeps (service_is x) (freeze_gear_after_error command : M V unit).
Proof. unfold freeze_gear_after_error. keeps_auto. Qed.
Lemma service_is_accepted x command effective fresh heartbeat t t' :
  keeps (service_is x) (note_accepted command effective fresh heartbeat t t' : M V unit).
Proof. unfold note_accepted, note_gear. keeps_auto. Qed.
Lemma service_is_refused x command intent_seq result :
  keeps (service_is x) (note_refused command intent_seq result : M V unit).
Proof. keeps_auto. Qed.

(** The clocks do not touch the runtime. *)
Lemma monotonic_runtime (p : V) : vp_runtime (monotonic_ms p).2 = vp_runtime p.
Proof.
  unfold monotonic_ms, on_world, zoom, mbind, M_bind. by destruct (steady_now_ns (vp_host p)) as [[] ?].
Qed.

Lemma now_client c (w : W) : (client_now_ms (c, w)).2.1 = c.
Proof.
  unfold client_now_ms, client_get, client_host, zoom, mbind, M_bind, gets. simpl.
  by destruct (synchronized_now_ms (msc_clock c) w).
Qed.

Lemma now_runtime (p : V) : vp_runtime (media_now_ms p).2 = vp_runtime p.
Proof.
  unfold media_now_ms, on_client, zoom. pose proof (now_client (vr_signaling (vp_runtime p)) (vp_host p)) as E.
  destruct (client_now_ms _) as [r [c w]]. simpl in *. subst c. by destruct p as [[] ? ? ?].
Qed.

(** What a native message did: nothing but looking, or one command that was admitted. *)
Definition forwarded (p : V) (svc : Svc) (message : json) (q : V) : Prop :=
  exists c c' fresh acquired_ms received_ms svc',
    ControlCommand_from_json message = Ok c /\ value_bool "intent_fresh" false message = Ok fresh /\
    (monotonic_ms p).1 = Ok acquired_ms /\ (media_now_ms (monotonic_ms p).2).1 = Ok received_ms /\
    gate_answer (vp_runtime p) svc c fresh acquired_ms c' /\ polled svc svc' /\
    vr_service (vp_runtime q) = Some (receive_command c' received_ms svc').2.

Definition native_outcome (p : V) (svc : Svc) (message : json) (q : V) : Prop :=
  serves svc q \/ forwarded p svc message q.

(** The call and the reports about it. *)
Lemma apply_native (c c' : ControlCommand) (fresh : bool) intent_seq acquired_ms received_ms svc (q : V) :
  vr_service (vp_runtime q) = Some svc ->
  vr_service (vp_runtime
    ((result ← try_catch (on_service (receive_command c' received_ms))
                 (fun e => freeze_gear_after_error c';; throw e);
      match rr_accepted result, rr_command result with
      | true, Some effective =>
          note_accepted c' effective fresh (stale_safe_heartbeat c' fresh) received_ms acquired_ms
      | _, _ => note_refused c' intent_seq result
      end) q).2) = Some (receive_command c' received_ms svc).2.
Proof.
  intros Hs. set (x := Some (receive_command c' received_ms svc).2).
  assert (Hcall : leads (fun p => p = q) (service_is x) (on_service (receive_command c' received_ms))).
  { intros p ->. unfold on_service, service_is. rewrite Hs.
    unfold x. by destruct (receive_command c' received_ms svc). }
  refine (leads_then (fun p => p = q) (service_is x) _ _ _ _ q eq_refl).
  - apply leads_try; [exact Hcall | intros e].
    apply keeps_bind; [apply service_is_freeze | intros _; apply keeps_throw].
  - intros result.
    destruct (rr_accepted result); [destruct (rr_command result) |];
      eauto using service_is_accepted, service_is_refused.
Qed.

Lemma native_spec (p : V) svc message :
  vr_service (vp_runtime p) = Some svc -> native_outcome p svc message (receive_native_command message p).2.
Proof.
  intros Hs. assert (Hp : serves svc p) by (exists svc; split; [done | constructor]).
  unfold receive_native_command. unfold mbind at 1, M_bind at 1, lift at 1.
  destruct (ControlCommand_from_json message) as [c | e] eqn:Ec; [| by left].
  unfold mbind at 1, M_bind at 1, lift at 1. destruct (value_uint64 _ _ _) as [intent_seq | e]; [| by left].
  unfold mbind at 1, M_bind at 1, lift at 1. destruct (throw_if _ _) as [u | e]; [| by left].
  unfold mbind at 1, M_bind at 1, lift at 1. destruct (value_bool _ _ _) as [fresh | e] eqn:Ef; [| by left].
  pose proof (monotonic_runtime p) as E1. unfold mbind at 1, M_bind at 1.
  destruct (monotonic_ms p) as [[acquired | e] p1] eqn:Em; simpl in E1.
  2: { left. unfold serves. simpl. by rewrite E1. }
  pose proof (now_runtime p1) as E2. unfold mbind at 1, M_bind at 1.
  destruct (media_now_ms p1) as [[received | e] p2] eqn:En; simpl in E2.
  2: { left. unfold serves. simpl. by rewrite E2, E1. }
  assert (Hs2 : vr_service (vp_runtime p2) = Some svc) by (by rewrite E2, E1).
  pose proof (gate_hoare p2 svc c fresh acquired Hs2 p2 eq_refl) as Hg. unfold mbind at 1, M_bind at 1.
  destruct (native_gate c fresh acquired p2) as [[[c' |] | e] q]; [| by left; apply Hg | by left].
  destruct Hg as [(svc' & Hq & Hpoll) Ha]. specialize (Ha c' eq_refl). rewrite E2, E1 in Ha. right.
  exists c, c', fresh, acquired, received, svc'. rewrite Em. simpl. rewrite En.
  split_and!; try done. by apply apply_native.
Qed.
End gate.
