(* ===== verification/VehicleDelivery.v ===== *)
(** VehicleDelivery: the way of an emergency stop from the native connection to the adapter.

    - [scan_selects_estop]: the newest emergency stop of a delivery that reads well is the one
      that counts, whatever else is in it;
    - [native_estop]: it reaches the service, in the gear the runtime gives it;
    - [estop_delivery]: a delivery with one, and what handling it does. *)
From S2P Require Export VehicleAdmission.

(** ** Which message counts *)

Section scan.
Context {J : JsonApi}.

(** [message] reads as an emergency stop with this cursor. *)
Definition reads_as (cursor : Z) (message : json) (k : Z) (c : ControlCommand) : Prop :=
  scan_message cursor message = Ok (k, c).

(** What does not read well is refused with an ordinary exception. *)
Definition readable (cursor : Z) (message : json) : Prop :=
  forall e, scan_message cursor message = Throw e -> is_std_exception e = true.

(** The emergency stops among [messages] have cursors that satisfy [P]. *)
Definition estops_satisfy (cursor : Z) (P : Z -> Prop) (messages : list json) : Prop :=
  Forall (fun message => forall k c, reads_as cursor message k c -> cmd_estop c = true -> P k) messages.

Lemma scan_step_ok cursor scan message : readable cursor message ->
  exists scan', scan_step cursor scan message = Ok scan'.
Proof.
  intros H. unfold scan_step. destruct (scan_message cursor message) as [[k c] | e] eqn:E; [by eexists |].
  rewrite (H e E). by eexists.
Qed.

Lemma scan_ok cursor messages scan : Forall (readable cursor) messages ->
  exists scan', fold_result (scan_step cursor) scan messages = Ok scan'.
Proof.
  intros H. revert scan. induction H as [| message messages Hm _ IH]; intros scan; simpl; [by eexists |].
  destruct (scan_step_ok cursor scan message Hm) as [scan' ->]. apply IH.
Qed.

(** Messages whose stops are older keep the best stop below [bound]. *)
Lemma scan_before cursor bound messages scan scan' :
  estops_satisfy cursor (fun k => k <= bound) messages -> scn_newest_estop_cursor scan <= bound ->
  fold_result (scan_step cursor) scan messages = Ok scan' -> scn_newest_estop_cursor scan' <= bound.
Proof.
  intros H. revert scan. induction H as [| message messages Hm _ IH]; intros scan Hs E; simpl in E.
  { by injection E as <-. }
  apply result_bind_ok in E as (scan1 & E1 & E). apply (IH scan1); [| done].
  unfold scan_step in E1. destruct (scan_message cursor message) as [[k c] | e] eqn:Em.
  - injection E1 as <-. simpl. destruct (cmd_estop c && _) eqn:Ec; [| done]. bool_prop.
    by apply (Hm k c).
  - destruct (is_std_exception e); [| done]. by injection E1 as <-.
Qed.

(** Messages whose stops are older do not replace it. *)
Lemma scan_after cursor messages scan scan' :
  estops_satisfy cursor (fun k => k < scn_newest_estop_cursor scan) messages ->
  fold_result (scan_step cursor) scan messages = Ok scan' -> scn_newest_estop scan' = scn_newest_estop scan.
Proof.
  revert scan. induction messages as [| message messages IH]; intros scan H E; simpl in E.
  { by injection E as <-. }
  apply Forall_cons in H as [Hm H]. apply result_bind_ok in E as (scan1 & E1 & E).
  assert (Hsame : scn_newest_estop scan1 = scn_newest_estop scan /\
                  scn_newest_estop_cursor scan1 = scn_newest_estop_cursor scan).
  { unfold scan_step in E1. destruct (scan_message cursor message) as [[k c] | e] eqn:Em.
    - injection E1 as <-. simpl. destruct (cmd_estop c) eqn:Ec; [| done]. simpl.
      specialize (Hm k c Em Ec). simpl in Hm. by rewrite (proj2 (Z.leb_gt _ _) Hm).
    - destruct (is_std_exception e); [| done]. by injection E1 as <-. }
  destruct Hsame as [Hsame1 Hsame2]. rewrite <- Hsame1. apply IH; [| done]. by rewrite Hsame2.
Qed.

Lemma scan_selects_estop cursor before message after k c :
  Forall (readable cursor) (before ++ message :: after) ->
  reads_as cursor message k c -> cmd_estop c = true -> 0 <= k ->
  estops_satisfy cursor (fun k' => k' <= k) before -> estops_satisfy cursor (fun k' => k' < k) after ->
  exists scan, scan_delivery cursor (before ++ message :: after) = Ok scan /\
    scn_newest_estop scan = Some message.
Proof.
  intros Hr Hm Hc Hk Hbefore Hafter.
  destruct (scan_ok cursor _ DeliveryScan_new Hr) as [scan E]. exists scan. split; [exact E |].
  unfold scan_delivery in *. revert E.
  rewrite fold_result_app. intros E. apply result_bind_ok in E as (scan1 & E1 & E).
  pose proof (scan_before _ k _ DeliveryScan_new _ Hbefore Hk E1) as H1. simpl in E.
  apply result_bind_ok in E as (scan2 & E2 & E).
  unfold scan_step in E2. rewrite Hm, Hc, (proj2 (Z.leb_le _ _) H1) in E2. simpl in E2.
  injection E2 as E2. rewrite <- E2 in E. set (scan3 := mkDeliveryScan _ _ _ _ _ _) in E.
  by rewrite (scan_after cursor after scan3 scan Hafter E).
Qed.
End scan.

(** ** An emergency stop *)

Section estop.
Context {J : JsonApi} {L : JsonLaws} {A W : Type} {VA : VehicleAdapter A}.
Context {Http : HttpTransport W} {Clock : ClockApi W} {Sort : SampleSort}.
Context {Sockets : WebSocketApi W} {Host : RuntimeHost A W}.
Notation V := (VehicleProcess A W).
Notation Rt := (VehicleRuntime J A).
Notation Svc := (VehicleControlService J A).

(** No other thread raises a flag. *)
Definition undisturbed : Prop := forall w : W, (mh_raised w).1 = (false, false).

Lemma gate_estop (q : V) svc c fresh acquired_ms :
  undisturbed -> usable (vp_runtime q) -> vr_service (vp_runtime q) = Some svc -> cmd_estop c = true ->
  exists q', native_gate c fresh acquired_ms q =
               (Ok (Some (c <| cmd_gear := estop_gear (vp_runtime q) c |>)), q') /\
             vr_service (vp_runtime q') = Some svc.
Proof.
  intros Hu (U1 & U2 & U3 & U4) Hs Hc.
  unfold native_gate, control_usable, override_estop_gear, flags_seen, runtime, count, add_counter, runtime_update.
  unfold mbind, M_bind, gets, modify, when, mret, M_ret.
  pose proof (Hu (vp_host q)) as Hh. destruct (mh_raised (vp_host q)) as [[stop inhibited] w]. simpl in Hh.
  injection Hh as -> ->. unfold service_running. simpl. rewrite U1, U2, U3, U4, Hs. simpl. rewrite Hc.
  unfold estop_gear. simpl. destruct (negb _); eexists; by split.
Qed.

(** The fields a native command is read for, besides the command. *)
Record native_fields (payload : json) : Prop := {
  nf_intent_seq : exists n, value_uint64 "intent_seq" 0 payload = Ok n /\ n <> 0;
  nf_fresh : exists b, value_bool "intent_fresh" false payload = Ok b;
}.

Lemma scan_fields cursor message payload k c :
  reads_as cursor message k c -> j_at "payload" message = Ok payload ->
  ControlCommand_from_json payload = Ok c /\ is_object payload = true /\ native_fields payload.
Proof.
  unfold reads_as, scan_message. intros H Hp.
  apply result_bind_ok in H as (type & _ & H). apply result_bind_ok in H as (? & _ & H).
  apply result_bind_ok in H as (? & _ & H). apply result_bind_ok in H as (? & _ & H).
  rewrite Hp in H. simpl in H.
  apply result_bind_ok in H as ([] & Hobj & H). apply throw_if_ok, negb_false_iff in Hobj.
  apply result_bind_ok in H as (command & Hc & H). apply result_bind_ok in H as (n & Hn & H).
  apply result_bind_ok in H as ([] & Hn0 & H). apply throw_if_ok in Hn0.
  apply result_bind_ok in Hn as (field & Hat & Hn).
  apply result_bind_ok in H as (fresh & Hf & H). apply result_bind_ok in H as ([] & Hb & H).
  injection H as _ <-. split_and!; [done | done |]. apply throw_if_ok, orb_false_iff in Hb as [Hb1 Hb2].
  apply negb_false_iff in Hb1, Hb2. rewrite Hb1 in Hf. split.
  - exists n. rewrite (value_uint64_at _ _ _ field) by done. split; [done |]. by apply Z.eqb_neq.
  - destruct (get_bool_boolean fresh Hb2) as [b Hb]. exists b. by rewrite (value_bool_at _ _ _ fresh).
Qed.

(** The runtime's answer to an emergency stop on the native connection: the clock's reading and
    the command in its gear. *)
Lemma native_estop (q : V) svc payload c t t' :
  undisturbed -> usable (vp_runtime q) -> vr_service (vp_runtime q) = Some svc ->
  ControlCommand_from_json payload = Ok c -> cmd_estop c = true -> native_fields payload ->
  (monotonic_ms q).1 = Ok t' -> (media_now_ms (monotonic_ms q).2).1 = Ok t ->
  vr_service (vp_runtime (receive_native_command payload q).2) =
    Some (receive_command (c <| cmd_gear := estop_gear (vp_runtime q) c |>) t svc).2.
Proof.
  intros Hu Hus Hs Hc He [(n & Hn & Hn0) (fresh & Hf)] Ht' Ht.
  unfold receive_native_command. rewrite Hc, Hn, Hf. unfold mbind at 1 2 3 4, M_bind at 1 2 3 4, lift.
  rewrite (proj2 (Z.eqb_neq _ _) Hn0). simpl throw_if. cbv beta iota.
  pose proof (monotonic_runtime q) as E1. destruct (monotonic_ms q) as [r1 q1] eqn:Em. simpl in Ht', Ht, E1.
  rewrite (bind_run _ _ q t' q1) by (by rewrite Em, Ht').
  pose proof (now_runtime q1) as E2. destruct (media_now_ms q1) as [r2 q2] eqn:En. simpl in Ht, E2.
  rewrite (bind_run _ _ q1 t q2) by (by rewrite En, Ht).
  assert (E : vp_runtime q2 = vp_runtime q) by congruence.
  destruct (gate_estop q2 svc c fresh t') as (q3 & Hg & Hs3); try done; try (by rewrite E).
  rewrite (bind_run _ _ q2 _ q3 Hg). rewrite E. by apply apply_native.
Qed.

(** ** The delivery *)

Definition counting (f : Counter -> Z) (p : V) : V := p <| vp_runtime ::= fun s => s <| vr_counters := f |> |>.

Lemma counting_add f c n p : exists f', (add_counter c n (counting f p)) = (Ok tt, counting f' p).
Proof. eexists. reflexivity. Qed.

Lemma counting_none (p : V) : p = counting (vr_counters (vp_runtime p)) p.
Proof. by destruct p as [[] ? ? ?]. Qed.

(** The clocks do not read the counters. *)
Lemma counting_monotonic f p :
  monotonic_ms (counting f p) = ((monotonic_ms p).1, counting f (monotonic_ms p).2).
Proof.
  unfold monotonic_ms, on_world, zoom, mbind, M_bind, mret, M_ret. simpl.
  by destruct (steady_now_ns (vp_host p)) as [[] ?].
Qed.

Lemma counting_now f p : (media_now_ms (counting f p)).1 = (media_now_ms p).1.
Proof. unfold media_now_ms, on_client, zoom. simpl. by destruct (client_now_ms _) as [r [c w]]. Qed.

(** A delivery whose newest emergency stop is [c], in the message with this payload. *)
Record estop_delivery (envelope payload : json) (c : ControlCommand) : Prop := {
  ed_object : is_object envelope = true;
  ed_error : j_contains "error" envelope = false;
  ed_event : value_string "event" "" envelope = Ok "signaling_messages"%string;
  ed_messages : exists field cursor messages before message after k,
    j_at "delivery_cursor" envelope = Ok field /\ get_uint64 field = Ok cursor /\ cursor <> 0 /\
    j_at "messages" envelope = Ok messages /\ is_array messages = true /\
    j_elements messages = before ++ message :: after /\
    Forall (readable cursor) (before ++ message :: after) /\
    reads_as cursor message k c /\ 0 <= k /\ j_at "payload" message = Ok payload /\
    estops_satisfy cursor (fun k' => k' <= k) before /\ estops_satisfy cursor (fun k' => k' < k) after;
  ed_estop : cmd_estop c = true;
  ed_kind : exists event, value_string "event" "" payload = Ok event /\ event <> "vcu_handshake_command"%string;
  ed_text : exists data, j_dump payload = Ok data /\ j_parse data = Ok payload /\
    string_empty data = false /\ Z.of_nat (String.length data) <= kMaxControlMessage;
}.

(** What reads as a command has the type of one and says when it was sent. *)
Lemma command_fields payload c : ControlCommand_from_json payload = Ok c ->
  value_string "type" "" payload = Ok "control_command"%string /\
  value_bool "estop" false payload = Ok (cmd_estop c) /\
  exists field t, j_at "sent_at_utc_ms" payload = Ok field /\ get_int64 field = Ok t.
Proof.
  unfold ControlCommand_from_json, ProtocolMetadata_from_json. intros H.
  apply result_bind_ok in H as (? & _ & H). apply result_bind_ok in H as (type & Ht & H).
  apply result_bind_ok in H as ([] & Htype & H). apply throw_if_ok, negb_false_iff, String.eqb_eq in Htype.
  apply result_bind_ok in H as (command & Hc & H). apply result_bind_ok in H as (? & _ & H).
  injection H as <-. apply rethrow_json_ok in Hc.
  apply result_bind_ok in Hc as (md & Hm & Hc).
  apply result_bind_ok in Hm as (? & _ & Hm). apply result_bind_ok in Hm as (md' & Hm & _).
  apply rethrow_json_ok in Hm.
  do 5 (apply result_bind_ok in Hm as (? & _ & Hm)). apply result_bind_ok in Hm as (t & Hsent & _).
  apply result_bind_ok in Hsent as (field & Hat & Hget).
  do 4 (apply result_bind_ok in Hc as (? & _ & Hc)). apply result_bind_ok in Hc as (e & He & Hc).
  do 2 (apply result_bind_ok in Hc as (? & _ & Hc)). injection Hc as <-.
  split_and!; [congruence | done | by exists field, t].
Qed.

Section delivered.
Context (p : V) (svc : Svc) (payload : json) (c : ControlCommand) (t t' : Z).
Context (Hquiet : undisturbed) (Husable : usable (vp_runtime p)) (Hs : vr_service (vp_runtime p) = Some svc).
Context (Ht' : (monotonic_ms p).1 = Ok t') (Ht : (media_now_ms (monotonic_ms p).2).1 = Ok t).
Context (He : cmd_estop c = true).

Let delivered : V -> Prop :=
  service_is (Some (receive_command (c <| cmd_gear := estop_gear (vp_runtime p) c |>) t svc).2).

Lemma command_delivered f : ControlCommand_from_json payload = Ok c -> native_fields payload ->
  delivered (receive_native_command payload (counting f p)).2.
Proof.
  intros Hc Hf. unfold delivered, service_is. rewrite (native_estop _ svc _ c t t'); try done.
  - by rewrite counting_monotonic.
  - rewrite counting_monotonic. simpl. by rewrite counting_now.
Qed.

Lemma message_delivered f data : j_parse data = Ok payload -> string_empty data = false ->
  Z.of_nat (String.length data) <= kMaxControlMessage ->
  (exists event, value_string "event" "" payload = Ok event /\ event <> "vcu_handshake_command"%string) ->
  ControlCommand_from_json payload = Ok c -> native_fields payload ->
  delivered (handle_control_message None data NativeSignaling (counting f p)).2.
Proof.
  intros Hparse Hempty Hlen (event & Hevent & Hkind) Hc Hf. pose proof (anything_kept (A := A) (W := W)) as HP.
  unfold handle_control_message. rewrite Hempty, (proj2 (Z.ltb_ge _ _) Hlen). cbn [orb].
  destruct (command_fields payload c Hc) as (Htype & _).
  assert (Hd : delivered ((message ← lift (j_parse data); dispatch_control_message None NativeSignaling message)
                            (counting f p)).2).
  { unfold mbind, M_bind, lift. rewrite Hparse. unfold dispatch_control_message. rewrite Htype, Hevent.
    unfold mbind, M_bind, lift. simpl String.eqb. cbv iota.
    rewrite (proj2 (String.eqb_neq _ _) Hkind). cbn [bool_decide]. by apply command_delivered. }
  refine (leads_try (fun q => q = counting f p) delivered _ _ _ _ _ eq_refl).
  - intros q ->. exact Hd.
  - intros e. destruct (is_std_exception e); [| apply keeps_throw]. apply service_is_calm. calm_auto.
Qed.

Lemma ack_calm scan cursor : calm (fun _ => True)
  (ack ← lift (delivery_ack_of cursor payload);
   native_ws (ws_send_json ack kNativeControlWebSocketSendTimeout);;
   count delivery_acks_sent;;
   at_ms ← media_now_ms;
   runtime_update (fun s => s <| vr_last_message_at_ms := at_ms |>);;
   lift (throw_if (negb (string_empty (scn_first_protocol_issue scan)))
           (sibling_error (scn_first_protocol_issue scan))) : M V unit).
Proof. pose proof (anything_kept (A := A) (W := W)) as HP. calm_auto. Qed.

Let counted (q : V) : Prop := exists f, q = counting f p.

Lemma counted_add k n (m : M V unit) : leads counted delivered m -> leads counted delivered (add_counter k n;; m).
Proof.
  intros Hm q [f ->]. destruct (counting_add f k n p) as [f' E].
  rewrite (bind_run _ _ _ _ _ E). apply Hm. by exists f'.
Qed.

Lemma counted_lift {X} (r : result X) x (m : X -> M V unit) :
  r = Ok x -> leads counted delivered (m x) -> leads counted delivered (lift r ≫= m).
Proof. intros -> Hm q Hq. by apply Hm. Qed.

Lemma apply_delivered data : j_dump payload = Ok data -> j_parse data = Ok payload ->
  string_empty data = false -> Z.of_nat (String.length data) <= kMaxControlMessage ->
  (exists event, value_string "event" "" payload = Ok event /\ event <> "vcu_handshake_command"%string) ->
  ControlCommand_from_json payload = Ok c -> native_fields payload ->
  leads counted delivered (apply_delivery payload).
Proof.
  intros Hdump Hparse Hempty Hlen Hkind Hc Hf. destruct (command_fields payload c Hc) as (_ & Hestop & field & sent & Hat & Hget).
  unfold apply_delivery. eapply counted_lift; [by rewrite Hat; simpl |].
  eapply counted_lift; [exact Hestop |]. intros q [f ->].
  unfold runtime, mbind at 1, M_bind at 1, gets. rewrite He. cbn [negb andb].
  rewrite (bind_run _ _ _ data (counting f p)) by (unfold lift; by rewrite Hdump).
  by apply message_delivered.
Qed.

Lemma envelope_delivered envelope : estop_delivery envelope payload c ->
  delivered (handle_native_control_websocket_envelope envelope p).2.
Proof.
  intros [Hobj Herr Hev (field & cursor & messages & before & message & after & k & Hat & Hget & Hc0 & Hms &
    Harr & Hel & Hread & Hm & Hk & Hpay & Hb & Ha) _ Hkind (data & Hdump & Hparse & Hempty & Hlen)].
  destruct (scan_fields _ _ _ _ _ Hm Hpay) as (Hc & Hpobj & Hfields).
  destruct (scan_selects_estop cursor before message after k c) as (scan & Hscan & Hsel); try done.
  assert (Hl : leads counted delivered (handle_native_control_websocket_envelope envelope));
    [| apply Hl; exists (vr_counters (vp_runtime p)); apply counting_none].
  unfold handle_native_control_websocket_envelope. rewrite Hobj, Herr.
  eapply counted_lift; [done |]. eapply counted_lift; [done |]. eapply counted_lift; [done |].
  eapply counted_lift; [exact Hev |]. cbn [String.eqb]. simpl (String.eqb _ _). cbv iota.
  eapply counted_lift; [done |]. unfold handle_delivery.
  eapply counted_lift; [by rewrite Hat; simpl |].
  eapply counted_lift; [by rewrite (proj2 (Z.eqb_neq _ _) Hc0) |].
  eapply counted_lift; [exact Hms |]. cbv zeta. rewrite Harr, Hel.
  eapply counted_lift; [by rewrite bool_decide_eq_false_2 by (by destruct before) |].
  apply counted_add, counted_add. eapply counted_lift; [exact Hscan |].
  assert (Hsome : forall m : M V unit, leads counted delivered m ->
    leads counted delivered (match scn_newest scan with
      | Some _ => when (1 <? scn_valid_messages scan)
                    (add_counter websocket_superseded_messages (scn_valid_messages scan - 1))
      | None => mret tt end;; m)).
  { intros m Hm'. destruct (scn_newest scan); [| exact Hm']. unfold when.
    destruct (1 <? _); [by apply counted_add | exact Hm']. }
  apply Hsome. unfold selected_message. rewrite Hsel. eapply counted_lift; [done |].
  eapply counted_lift; [exact Hpay |]. apply leads_then; [by apply (apply_delivered data) |].
  intros _. apply service_is_calm, ack_calm.
Qed.
End delivered.
End estop.
