(* ===== verification/VehicleProperties.v ===== *)
(** VehicleProperties: the theorems about the vehicle's media runtime, with witnesses.

    - [adapters_stopped_before_release], [camera_inhibition_lasts], [camera_failure_ends_control]:
      how control ends, and that it stays ended;
    - [native_command_admitted], [frozen_gear_held]: what reaches the vehicle service;
    - [console_command_scanned], [estop_delivery_stops_vehicle]: from the driver's console to
      the adapter.

    The witnesses run on a small machine: [Bench] of DriverDemo with a data channel and mock
    adapters, where nobody raises a flag and no other thread takes a step; [demo_vehicle] is
    the process in a session, its channel open, with a service or without. *)
From S2P Require Export VehicleDelivery ServiceProperties DriverProperties Signaling.

Local Notation value := JsonModel.value.

(** ** A vehicle process for the witnesses *)

#[global] Instance bench_host : RuntimeHost (J := JsonModel.api) MockVehicleAdapter Bench := {|
  mh_print _ w := w;
  mh_create_channel w := (Some 1, w);
  mh_channel_send _ _ w := w;
  mh_channel_close _ w := w;
  mh_create_adapter _ := fun w => (Ok MockVehicleAdapter_new, w);
  mh_release_adapter _ w := w;
  mh_raised w := (false, false, w);
|}.

(** The machine that keeps its adapters. *)
Definition Yard : Type := Recorded MockVehicleAdapter Bench.
Definition DemoVehicle : Type := VehicleProcess (J := JsonModel.api) (Logged MockVehicleAdapter) Yard.

#[global] Instance yard_threads : VehicleThreads (J := JsonModel.api) Yard := {| vt_steps w := ([], w) |}.

Definition demo_latch : CriticalCameraControlLatch := mkCriticalCameraControlLatch "session-1" false false None.

Definition demo_media_client : MediaSignalingClient :=
  mkMediaSignalingClient "http://127.0.0.1:8765" "truck-1" "secret" "connection-1" 1 SynchronizedClock_new
    "session-1" "driver-1" "token" MediaSignalingSequence_new.

Definition demo_camera : CameraConfig :=
  mkCameraConfig "front" true true 3 1000 "v4l2" "/dev/video0" 1280 720 30 "front" "".

(** A critical camera whose last frame is of 900 ms. *)
Definition demo_lane : Lane := mkLane demo_camera 10 900 900 0 0 false "" 100.

(** The session on its channel; it is 1000 ms. *)
Definition demo_runtime (config : VehicleConfig) (latch : CriticalCameraControlLatch) (lanes : list Lane)
    (service : option Demo) : VehicleRuntime JsonModel.api (Logged MockVehicleAdapter) :=
  mkVehicleRuntime config demo_media_client latch 500 (Some 1) lanes false [] PipelineFailure_none service
    (Some "D"%string) None true (bool_decide (is_Some service)) "" true false true true 900 900 true
    (fun _ => 0) 0 0 0 0 0 None 0 0 "" "" None "" None.

Definition demo_process (config : VehicleConfig) (latch : CriticalCameraControlLatch) (lanes : list Lane)
    (service : option Demo) : DemoVehicle :=
  mkVehicleProcess (demo_runtime config latch lanes service)
    (mkRecorded (mkBench 1000 [] [] [] []) []) (Some (mkBenchSocket true "")) 100.

Definition demo_vehicle (latch : CriticalCameraControlLatch) (lanes : list Lane) (service : option Demo) :
    option DemoVehicle :=
  option_map (fun config => demo_process config latch lanes service) (demo_config kMaxOrdinaryBrakePressureBar).

(** A fact about a demonstration process, by evaluation. *)
Lemma vehicle_fact {X} (f : DemoVehicle -> X) (o : option DemoVehicle) (x : X) (p : DemoVehicle) :
  option_map f o = Some x -> o = Some p -> f p = x.
Proof. intros H ->. by injection H. Qed.

(** Control starts on a new adapter and ends with the attempt. *)
Example demo_starts :
  option_map (fun p : DemoVehicle =>
      let q := runtime_steps [StepStart] p in
      (vr_service_started (vp_runtime q), vr_issue_code (vp_runtime q),
       length (rc_released (vp_host (runtime_steps [StepDetach] q)))))
    (demo_vehicle demo_latch [demo_lane] None) = Some (true, ""%string, 1%nat).
Proof. vm_compute. reflexivity. Qed.

(** ** Messages *)

(** A command of the driver, as the server delivers it. *)
Definition demo_sample (command : ControlCommand) (fresh : bool) : NativeControlIntentSample :=
  mkNativeControlIntentSample true fresh (negb fresh)
    (mkNativeControlIntent "page-1" 8 (cmd_gear command) (cmd_steering command) (cmd_throttle command)
       (cmd_brake command) (cmd_estop command)).

Definition demo_payload (command : ControlCommand) (fresh : bool) : value :=
  control_payload (J := JsonModel.api) (demo_sample command fresh) command.

Definition demo_delivered (cursor : Z) (command : ControlCommand) (fresh : bool) : value :=
  Message_to_json (J := JsonModel.api)
    (mkMessage (ControlCommand_metadata command) "driver-1" "truck-1" "control_command"
       (demo_payload command fresh) 1000 1000 cursor).

Definition demo_delivery (cursor : Z) (messages : list value) : value :=
  j_object (JsonApi := JsonModel.api)
    [("event", j_string "signaling_messages"); ("delivery_cursor", j_uint cursor);
     ("messages", j_array messages)]%string.

(** What the browser sends. *)
Definition demo_profile_text : string :=
  match SessionControlProfileRequest_to_json (J := JsonModel.api)
          (demo_request 1 (demo_profile (d_lit 10 0) (d_lit 100 0))) with
  | Ok request => JsonModel.print request
  | Throw _ => ""
  end.

(** A session, a profile, a command, a camera that fails. *)
Definition demo_vehicle_drive : list runtime_step :=
  [StepStart; StepData 1 demo_profile_text;
   StepEnvelope (demo_delivery 1 [demo_delivered 1 (demo_command 1 1000 d_zero d_one d_zero false) true]);
   StepTick].

Example demo_drives_vehicle :
  option_map (fun p : DemoVehicle =>
      let q := runtime_steps demo_vehicle_drive p in
      (option_map (fun svc => (sm_state (svc_safety svc), length (applied svc))) (vr_service (vp_runtime q)),
       map (fun a => (length (lg_calls a), at_rest (lg_calls a)))
         (rc_released (vp_host (runtime_steps [StepCameraStop] q)))))
    (demo_vehicle demo_latch [demo_lane] None) =
  Some (Some (SafetyControlActive, 1%nat), [(2%nat, true)]).
Proof. vm_compute. reflexivity. Qed.

Lemma vehicle_exists (o : option DemoVehicle) : bool_decide (is_Some o) = true -> o <> None.
Proof. intros H%bool_decide_eq_true E. rewrite E in H. by destruct H. Qed.

(** Closes the goal by a fact about the process, or because there is one. *)
Tactic Notation "vehicle_eval" uconstr(f) constr(o) :=
  apply (vehicle_fact f o); [vm_compute; reflexivity | done].
Ltac vehicle_none E := exfalso; refine (vehicle_exists _ _ E); vm_compute; reflexivity.

(** Without a service, with a camera that is ready. *)
Definition demo_idle : option DemoVehicle := demo_vehicle demo_latch [demo_lane] None.

Lemma demo_vehicle_is latch lanes service p : demo_vehicle latch lanes service = Some p ->
  exists config, demo_config kMaxOrdinaryBrakePressureBar = Some config /\ p = demo_process config latch lanes service.
Proof.
  unfold demo_vehicle. destruct (demo_config _) as [config |]; [| done]. intros [= <-]. by exists config.
Qed.

Lemma demo_idle_is p : demo_idle = Some p ->
  exists config, p = demo_process config demo_latch [demo_lane] None.
Proof.
  unfold demo_idle. intros H. destruct (demo_vehicle_is demo_latch [demo_lane] None p H) as (config & _ & ->).
  by exists config.
Qed.

(** ** The end of control *)

(** C7. No adapter is abandoned while it drives.  Whatever the threads of the media runtime do,
    in any order and with any adapter and machine, and whatever throws: every adapter the
    runtime lets go of has been asked for a stop after the last command it was asked to
    apply. *)
Theorem adapters_stopped_before_release {J : JsonApi} {A W : Type} {VA : VehicleAdapter A}
    {Http : HttpTransport W} {Clock : ClockApi W} {Sort : SampleSort} {Sockets : WebSocketApi W}
    {Host : RuntimeHost A W} (steps : list runtime_step)
    (p : VehicleProcess (Logged A) (Recorded A W)) :
  vr_service (vp_runtime p) = None -> rc_released (vp_host p) = [] ->
  Forall (fun adapter => at_rest (lg_calls adapter) = true) (rc_released (vp_host (runtime_steps steps p))).
Proof. intros Hs Hr. apply rest_steps; [by rewrite Hs | rewrite Hr; constructor]. Qed.

Lemma adapters_stopped_before_release_witness :
  match demo_idle with
  | Some p =>
      let q := runtime_steps (demo_vehicle_drive ++ [StepCameraStop]) p in
      map (fun adapter => length (lg_calls adapter)) (rc_released (vp_host q)) = [2%nat] /\
      Forall (fun adapter => at_rest (lg_calls adapter) = true) (rc_released (vp_host q))
  | None => False
  end.
Proof.
  destruct demo_idle as [p |] eqn:E; [split |].
  - vehicle_eval (fun p => map (fun adapter => length (lg_calls adapter))
      (rc_released (vp_host (runtime_steps (demo_vehicle_drive ++ [StepCameraStop]) p)))) demo_idle.
  - apply (adapters_stopped_before_release (demo_vehicle_drive ++ [StepCameraStop]) p).
    + by destruct (demo_idle_is p E) as [config ->].
    + by destruct (demo_idle_is p E) as [config ->].
  - vehicle_none E.
Defined.

(** C10. A critical camera's failure disables control for the session.  Once the latch is
    inhibited in the session and no service runs, no execution of the runtime's threads starts
    one; and when the process builds another runtime around the latch, on any machine, and
    enters the same session again, it learns that control is inhibited, and is back in this
    situation. *)
Theorem camera_inhibition_lasts {J : JsonApi} {A W : Type} {VA : VehicleAdapter A}
    {Http : HttpTransport W} {Clock : ClockApi W} {Sort : SampleSort} {Sockets : WebSocketApi W}
    {Host : RuntimeHost A W} (steps : list runtime_step) (p : VehicleProcess A W) (session : string) :
  let inhibited (q : VehicleProcess A W) :=
    vr_service (vp_runtime q) = None /\ latch_closed session (vr_latch (vp_runtime q)) /\
    msc_session_id (vr_signaling (vp_runtime q)) = session in
  inhibited p ->
  let q := runtime_steps steps p in
  inhibited q /\
  forall config url token connection sequence timeout_ms w s w' websocket delay rounds continuous answer q',
    VehicleRuntime_new config url token connection sequence (vr_latch (vp_runtime q)) timeout_ms w = (Ok s, w') ->
    prepare_session rounds continuous (mkVehicleProcess s w' websocket delay) = (Ok answer, q') ->
    msc_session_id (vr_signaling (vp_runtime q')) = session -> answer = true /\ inhibited q'.
Proof.
  intros inhibited (H1 & H2 & H3) q.
  assert (Hq : inhibited q).
  { assert (Hf : frame_closed q) by (apply closed_steps, frame_closed_iff; by rewrite H3).
    pose proof (steps_session steps p) as Es. fold q in Es. rewrite H3 in Es.
    apply frame_closed_iff in Hf as [F1 F2]. rewrite Es in F2. done. }
  split; [exact Hq |].
  intros config url token connection sequence timeout_ms w s w' websocket delay rounds continuous answer q' Hnew Hprep Hs.
  destruct (runtime_new _ _ _ _ _ _ _ _ _ _ Hnew) as [Hn Hl]. destruct Hq as (_ & Hq & _).
  set (r := mkVehicleProcess s w' websocket delay) in Hprep.
  assert (Hr : latch_closed session (vr_latch (vp_runtime r))) by (simpl; by rewrite Hl).
  destruct (prepare_closed session rounds continuous r q' answer Hn Hr Hprep Hs) as [Ha Hc].
  apply frame_closed_iff in Hc as [Hc1 Hc2]. rewrite Hs in Hc2. done.
Qed.

Lemma camera_inhibition_lasts_witness :
  let latch := mkCriticalCameraControlLatch "session-1" true true None in
  match demo_vehicle latch [demo_lane] None with
  | Some p =>
      let q := runtime_steps [StepStart; StepTick; StepDetach; StepAttempt [demo_lane]; StepTransport;
                              StepPublish 2; StepLinkOpened 2; StepStart] p in
      vr_issue_code (vp_runtime q) = "critical_camera_failed"%string /\
      vr_service (vp_runtime q) = None /\ latch_closed "session-1" (vr_latch (vp_runtime q))
  | None => False
  end.
Proof.
  intros latch. destruct (demo_vehicle latch [demo_lane] None) as [p |] eqn:E.
  - set (steps := [StepStart; _; _; _; _; _; _; _]). split.
    + vehicle_eval (fun p => vr_issue_code (vp_runtime (runtime_steps steps p))) (demo_vehicle latch [demo_lane] None).
    + assert (Hp : vr_service (vp_runtime p) = None /\ latch_closed "session-1" (vr_latch (vp_runtime p)) /\
                   msc_session_id (vr_signaling (vp_runtime p)) = "session-1"%string)
        by (destruct (demo_vehicle_is latch [demo_lane] None p E) as (config & _ & ->); by repeat split).
      destruct (camera_inhibition_lasts steps p "session-1" Hp) as [(H1 & H2 & _) _]. exact (conj H1 H2).
  - vehicle_none E.
Defined.

(** C8. When a critical camera fails, control ends.  While the other threads do what they like
    between its steps, the reaction to the failure of a critical camera leaves no vehicle
    service and the latch of the session inhibited, if it is the first in the session and
    unless the adapter throws what is not a [std::exception]. *)
Theorem camera_failure_ends_control {J : JsonApi} {A W : Type} {VA : VehicleAdapter A}
    {Http : HttpTransport W} {Clock : ClockApi W} {Sort : SampleSort} {Sockets : WebSocketApi W}
    {Host : RuntimeHost A W} {Threads : VehicleThreads W} (lane : Lane) (failure : string)
    (p : VehicleProcess A W) :
  latch_of (msc_session_id (vr_signaling (vp_runtime p))) (vr_latch (vp_runtime p)) ->
  vr_control_inhibited (vp_runtime p) = false -> (mh_raised (vp_host p)).1.2 = false ->
  let q := (inhibit_control_for_critical_camera lane failure p).2 in
  (inhibit_control_for_critical_camera lane failure p).1 = Throw ForeignException \/
  vr_service (vp_runtime q) = None /\
  latch_closed (msc_session_id (vr_signaling (vp_runtime q))) (vr_latch (vp_runtime q)).
Proof.
  intros Hl Hi Hr q. destruct (inhibit_settles lane failure p) as [H | H]; [| by left | right].
  - split; [| by apply exchange_first]. split_and!; try done. by destruct (vr_service (vp_runtime p)).
  - by apply frame_closed_iff in H.
Qed.

(** ** What reaches the service *)

(** C6. Only admitted commands reach the vehicle service.  A message on the native connection
    either makes the runtime look at the service's status and no more, or is read as a command
    that the service gets once, at the synchronised time: in a runtime whose control is up and
    not inhibited, an emergency stop, in the gear frozen or last trusted; or an ordinary
    command as it was sent, while a session profile is active and the adapter said it is ready,
    which is fresh or else asks for nothing, in the trusted gear, of a vehicle in active
    control, soon enough after the last accepted command. *)
Theorem native_command_admitted {J : JsonApi} {L : JsonLaws} {A W : Type} {VA : VehicleAdapter A}
    {Http : HttpTransport W} {Clock : ClockApi W} {Sort : SampleSort} {Sockets : WebSocketApi W}
    {Host : RuntimeHost A W} (message : json) (p : VehicleProcess A W) (svc : VehicleControlService J A) :
  vr_service (vp_runtime p) = Some svc ->
  native_outcome p svc message (receive_native_command message p).2.
Proof. apply native_spec. Qed.

(** C14. The gear of an emergency stop is frozen.  Once an emergency stop has frozen a gear, no
    execution that does not start another native connection changes it, and every further
    emergency stop that reaches the service carries it. *)
Theorem frozen_gear_held {J : JsonApi} {L : JsonLaws} {A W : Type} {VA : VehicleAdapter A}
    {Http : HttpTransport W} {Clock : ClockApi W} {Sort : SampleSort} {Sockets : WebSocketApi W}
    {Host : RuntimeHost A W} (steps : list runtime_step) (message : json) (gear : string)
    (p : VehicleProcess A W) (svc : VehicleControlService J A) (c : ControlCommand) :
  let q := runtime_steps steps p in
  let q' := (receive_native_command message q).2 in
  vr_estop_gear (vp_runtime p) = Some gear -> Forall (fun step => step <> StepTransport) steps ->
  vr_service (vp_runtime q) = Some svc -> ControlCommand_from_json message = Ok c -> cmd_estop c = true ->
  vr_estop_gear (vp_runtime q) = Some gear /\
  (serves svc q' \/ exists t svc', polled svc svc' /\
     vr_service (vp_runtime q') = Some (receive_command (c <| cmd_gear := gear |>) t svc').2).
Proof.
  intros q q' Hg Hsteps Hs Hc He.
  assert (Hq : vr_estop_gear (vp_runtime q) = Some gear) by (by apply gear_steps).
  split; [exact Hq |].
  destruct (native_spec q svc message Hs) as [H | (c1 & c' & fresh & acquired & received & svc' & H1 & _ & _ & _ & H2 & H3 & H4)];
    [by left | right].
  rewrite Hc in H1. injection H1 as <-. destruct H2 as (_ & [[_ ->] | [H2 _]]); [| congruence].
  unfold estop_gear in H4. rewrite Hq in H4. by exists received, svc'.
Qed.

(** ** From the console to the adapter *)

(** A pair that is written in the list. *)
Ltac listed := repeat first [apply list_elem_of_here | apply list_elem_of_further].

Lemma payload_fields {J : JsonApi} {L : JsonLaws} smp command key v :
  (key, v) ∈ [("intent_seq", j_uint (int_intent_seq (smp_intent smp)));
              ("intent_fresh", j_bool (smp_fresh smp && negb (smp_requires_fresh_input smp)));
              ("intent_requires_fresh_input", j_bool (smp_requires_fresh_input smp))]%string ->
  j_at key (control_payload smp command) = Ok v.
Proof.
  intros H. apply j_at_set_all_in; [| by apply (bool_decide_unpack _) | done].
  exact (proj1 (proj1 (has_command_to_json command))).
Qed.

Lemma message_fields {J : JsonApi} {L : JsonLaws} (message : Message J) key v :
  (key, v) ∈ [("sender", j_string (msg_sender message)); ("recipient", j_string (msg_recipient message));
              ("type", j_string (msg_type message)); ("payload", msg_payload message);
              ("queued_at_utc_ms", j_int (msg_queued_at_utc_ms message));
              ("delivery_cursor", j_uint (msg_delivery_cursor message))]%string ->
  j_at key (Message_to_json message) = Ok v.
Proof. intros H. apply j_at_set_all_in; [apply is_object_object | by apply (bool_decide_unpack _) | done]. Qed.

(** C26. The vehicle understands the console.  A valid command the console has made from a sample
    of the driver's intent, in its envelope, as the server delivers it in a message with a
    positive cursor not above the delivery's, is a command the vehicle considers: read back
    with its cursor as it was made. *)
Theorem console_command_scanned {J : JsonApi} {L : JsonLaws} (smp : NativeControlIntentSample)
    (command : ControlCommand) (message : Message J) (delivery_cursor : Z) :
  let k := msg_delivery_cursor message in
  msg_type message = "control_command"%string -> msg_payload message = control_payload smp command ->
  metadata_typed (ControlCommand_metadata command) = true -> ControlCommand_validate command = Ok tt ->
  is_u64 k = true -> 0 < k <= delivery_cursor ->
  is_u64 (int_intent_seq (smp_intent smp)) = true -> 0 < int_intent_seq (smp_intent smp) ->
  scan_message delivery_cursor (Message_to_json message) = Ok (k, command).
Proof.
  intros k Htype Hpay Hmd Hv Hk Hk0 Hi Hi0.
  assert (Hobj : is_object (Message_to_json message) = true) by apply is_object_set_all, is_object_object.
  pose proof (control_payload_has smp command) as Hhas.
  pose proof (payload_fields smp command "intent_fresh"%string _ ltac:(listed)) as Hfresh.
  pose proof (payload_fields smp command "intent_seq"%string _ ltac:(listed)) as Hseq.
  pose proof (message_fields message "type"%string _ ltac:(listed)) as Ht.
  pose proof (message_fields message "payload"%string _ ltac:(listed)) as Hp.
  pose proof (message_fields message "delivery_cursor"%string _ ltac:(listed)) as Hc.
  unfold scan_message. rewrite Hobj, (value_string_at _ _ _ _ Hobj Ht), get_string_string, Htype, Hc, Hp, Hpay.
  fold k. cbn [mbind result_bind negb]. rewrite (get_uint64_uint _ Hk).
  cbn [mbind result_bind negb orb throw_if String.eqb]. simpl (String.eqb _ _).
  rewrite (proj2 (Z.eqb_neq k 0)), (proj2 (Z.ltb_ge delivery_cursor k)) by lia.
  cbn [mbind result_bind negb orb throw_if]. rewrite (proj1 (proj1 Hhas)).
  cbn [mbind result_bind negb orb throw_if]. rewrite (ControlCommand_from_json_has _ _ Hhas Hmd Hv).
  cbn [mbind result_bind negb orb throw_if]. rewrite Hseq, (j_contains_at _ _ _ Hfresh), Hfresh.
  cbn [mbind result_bind negb orb throw_if]. rewrite (get_uint64_uint _ Hi), is_boolean_bool.
  cbn. by rewrite (proj2 (Z.eqb_neq _ 0)) by lia.
Qed.

Lemma console_command_scanned_witness :
  let command := demo_command 2 1000 d_zero d_zero d_zero true in
  scan_message 9 (demo_delivered 7 command false) = Ok (7, command).
Proof.
  intros command.
  apply (console_command_scanned (J := JsonModel.api) (demo_sample command false) command
    (mkMessage (J := JsonModel.api) (ControlCommand_metadata command) "driver-1" "truck-1" "control_command"
       (demo_payload command false) 1000 1000 7) 9); try reflexivity; simpl; lia.
Defined.

(** C3. An emergency stop gets through.  A delivery on the native connection may hold messages
    that are not commands, or newer commands, or older emergency stops; and the driver's
    clock, or a fault of the connection since, may make it late.  If control is up and no
    thread takes it down meanwhile, and the receiver of the open service admits the newest
    emergency stop that reads as a command, in the gear the runtime gives it, then after the
    delivery has been handled the safety machine is in ESTOP, no session profile is active,
    and the last call of the actuators is the operator's full stop. *)
Theorem estop_delivery_stops_vehicle {J : JsonApi} {L : JsonLaws} {A W : Type} {VA : VehicleAdapter A}
    {Http : HttpTransport W} {Clock : ClockApi W} {Sort : SampleSort} {Sockets : WebSocketApi W}
    {Host : RuntimeHost (Logged A) W} (p : VehicleProcess (Logged A) W)
    (svc : VehicleControlService J (Logged A)) (envelope payload : json) (c : ControlCommand) (now steady : Z) :
  undisturbed (A := Logged A) (W := W) -> usable (vp_runtime p) -> vr_service (vp_runtime p) = Some svc ->
  (monotonic_ms p).1 = Ok steady -> (media_now_ms (monotonic_ms p).2).1 = Ok now -> 0 <= now ->
  estop_delivery envelope payload c ->
  svc_started svc = true ->
  admissible (svc_receiver svc) (c <| cmd_gear := estop_gear (vp_runtime p) c |>) now ->
  exists svc', vr_service (vp_runtime (handle_native_control_websocket_envelope envelope p).2) = Some svc' /\
    sm_state (svc_safety svc') = SafetyEstop /\ svc_active_session_profile svc' = None /\
    applied svc' = applied svc /\ stop_called svc'.
Proof.
  intros Hq Hu Hs Hm Hn Hn0 Hd Hstarted Hadm.
  pose proof (envelope_delivered p svc payload c now steady Hq Hu Hs Hm Hn (ed_estop _ _ _ Hd) envelope Hd) as H.
  eexists. split; [exact H |].
  assert (He : cmd_estop (c <| cmd_gear := estop_gear (vp_runtime p) c |>) = true) by exact (ed_estop _ _ _ Hd).
  destruct (receive_estop_called _ now svc Hstarted He Hn0 Hadm) as [(H1 & H2 & H3) H4]. done.
Qed.

(** Late, between something else and a newer command. *)
Definition demo_stop : ControlCommand := demo_command 2 400 d_zero d_zero d_zero true.
Definition demo_stop_delivery : value :=
  demo_delivery 9 [JsonModel.JString "noise"; demo_delivered 7 demo_stop false;
                   demo_delivered 8 (demo_command 3 1000 d_zero d_one d_zero false) true].

Lemma demo_stop_found : estop_delivery (J := JsonModel.api) demo_stop_delivery (demo_payload demo_stop false) demo_stop.
Proof.
  split; try reflexivity.
  - exists (JsonModel.JInt 9), 9, (JsonModel.JArray [JsonModel.JString "noise"; demo_delivered 7 demo_stop false;
      demo_delivered 8 (demo_command 3 1000 d_zero d_one d_zero false) true]), [JsonModel.JString "noise"],
      (demo_delivered 7 demo_stop false), [demo_delivered 8 (demo_command 3 1000 d_zero d_one d_zero false) true], 7.
    split_and!; try reflexivity; try lia.
    + repeat constructor; intros e H; vm_compute in H; by simplify_eq.
    + repeat constructor; intros k c H; vm_compute in H; by simplify_eq.
    + repeat constructor; intros k c H; vm_compute in H; simplify_eq; done.
  - exists ""%string. by split.
  - exists (JsonModel.print (demo_payload demo_stop false)).
    split_and!; [reflexivity | vm_compute; reflexivity | vm_compute; reflexivity |].
    apply Z.leb_le. vm_compute. reflexivity.
Qed.

(** The receiver of the demonstration service. *)
Lemma demo_receiver s : demo_active = Some s ->
  svc_receiver s = mkControlReceiver "truck-1" "driver-1" "session-1" 200 1 true "token" 5000 None None.
Proof. intros E. demo_eval svc_receiver demo_active. Qed.

Lemma estop_delivery_stops_vehicle_witness :
  match demo_config kMaxOrdinaryBrakePressureBar, demo_active with
  | Some config, Some svc =>
      let p := demo_process config demo_latch [demo_lane] (Some svc) in
      let q : DemoVehicle := 
        (handle_native_control_websocket_envelope (A := Logged MockVehicleAdapter) (W := Yard) demo_stop_delivery p).2 in
      exists svc', vr_service (vp_runtime q) = Some svc' /\
        sm_state (svc_safety svc') = SafetyEstop /\ svc_active_session_profile svc' = None /\
        applied svc' = applied svc /\ stop_called svc'
  | _, _ => False
  end.
Proof.
  destruct (demo_config _) as [config |] eqn:Ec.
  2: { refine (vehicle_exists (demo_vehicle demo_latch [demo_lane] None) _ _); [vm_compute; reflexivity |].
       unfold demo_vehicle. by rewrite Ec. }
  destruct demo_active as [svc |] eqn:E; [intros p q | demo_none E].
  apply (estop_delivery_stops_vehicle p svc demo_stop_delivery (demo_payload demo_stop false) demo_stop 1000 1000).
  - intros w. reflexivity.
  - by repeat split.
  - reflexivity.
  - reflexivity.
  - reflexivity.
  - lia.
  - apply demo_stop_found.
  - demo_eval svc_started demo_active.
  - rewrite (demo_receiver svc E). by split.
Defined.

(** ** Witnesses in a driving vehicle *)

(** The functions on the demonstration process. *)
Local Notation demo_run :=
  (runtime_steps (J := JsonModel.api) (A := Logged MockVehicleAdapter) (W := Yard)) (only parsing).
Local Notation demo_receive message p :=
  (receive_native_command (J := JsonModel.api) (A := Logged MockVehicleAdapter) (W := Yard) message p).2
  (only parsing).
Local Notation demo_fail :=
  (inhibit_control_for_critical_camera (J := JsonModel.api) (A := Logged MockVehicleAdapter) (W := Yard)
     demo_lane "no frames") (only parsing).

(** The runtime after the session's profile. *)
Definition demo_driven (p : DemoVehicle) : DemoVehicle :=
  runtime_steps [StepStart; StepData 1 demo_profile_text] p.

Definition serving (p : DemoVehicle) : bool :=
  match vr_service (vp_runtime p) with Some _ => true | None => false end.

Lemma serving_service p : serving p = true -> exists svc, vr_service (vp_runtime p) = Some svc.
Proof. unfold serving. destruct (vr_service _) as [svc |]; [by exists svc | done]. Qed.

(** The service it has then. *)
Lemma demo_driven_service p : demo_idle = Some p ->
  exists svc, vr_service (vp_runtime (demo_driven p)) = Some svc.
Proof. intros E. apply serving_service. vehicle_eval (fun p => serving (demo_driven p)) demo_idle. Qed.

Definition service_applied (p : DemoVehicle) : option nat :=
  option_map (fun svc => length (applied svc)) (vr_service (vp_runtime p)).

Lemma native_command_admitted_witness :
  let message := demo_payload (demo_command 1 1000 d_zero d_one d_zero false) true in
  match demo_idle with
  | Some p =>
      let q := demo_driven p in
      let q' := (demo_receive message q) in
      service_applied q' = Some 1%nat /\
      exists svc, vr_service (vp_runtime q) = Some svc /\ native_outcome q svc message q'
  | None => False
  end.
Proof.
  intros message. destruct demo_idle as [p |] eqn:E; [| vehicle_none E]. intros q q'. split.
  - vehicle_eval (fun p => service_applied (demo_receive message (demo_driven p))) demo_idle.
  - destruct (demo_driven_service p E) as [svc Hs]. exists svc. split; [exact Hs |].
    exact (native_command_admitted (J := JsonModel.api) (A := Logged MockVehicleAdapter) (W := Yard) message q svc Hs).
Defined.

Lemma camera_failure_ends_control_witness :
  match demo_idle with
  | Some p =>
      let q := demo_driven p in
      let q' := (demo_fail q).2 in
      length (rc_released (vp_host q')) = 1%nat /\
      ((demo_fail q).1 = Throw ForeignException \/
       vr_service (vp_runtime q') = None /\
       latch_closed (msc_session_id (vr_signaling (vp_runtime q'))) (vr_latch (vp_runtime q')))
  | None => False
  end.
Proof.
  destruct demo_idle as [p |] eqn:E; [| vehicle_none E]. intros q q'. split.
  - vehicle_eval (fun p => length (rc_released (vp_host (demo_fail (demo_driven p)).2))) demo_idle.
  - apply (camera_failure_ends_control (A := Logged MockVehicleAdapter) (W := Yard) demo_lane "no frames" q).
    + assert (H : msc_session_id (vr_signaling (vp_runtime q)) = "session-1"%string).
      { vehicle_eval (fun p => msc_session_id (vr_signaling (vp_runtime (demo_driven p)))) demo_idle. }
      rewrite H. split; [reflexivity |].
      vehicle_eval (fun p => ccl_session_id (vr_latch (vp_runtime (demo_driven p)))) demo_idle.
    + vehicle_eval (fun p => vr_control_inhibited (vp_runtime (demo_driven p))) demo_idle.
    + reflexivity.
Defined.

(** An emergency stop in D. *)
Definition demo_stopped (p : DemoVehicle) : DemoVehicle :=
  demo_run [StepEnvelope (J := JsonModel.api) demo_stop_delivery] (demo_driven p).

Lemma demo_stopped_gear p : demo_idle = Some p -> vr_estop_gear (vp_runtime (demo_stopped p)) = Some "D"%string.
Proof. intros E. vehicle_eval (fun p => vr_estop_gear (vp_runtime (demo_stopped p))) demo_idle. Qed.

Lemma demo_still_serves p : demo_idle = Some p ->
  exists svc, vr_service (vp_runtime (demo_run [StepTick] (demo_stopped p))) = Some svc.
Proof.
  intros E. apply serving_service. vehicle_eval (fun p => serving (demo_run [StepTick] (demo_stopped p))) demo_idle.
Qed.

(** Then one in R. *)
Definition demo_again : ControlCommand := demo_stop <| cmd_gear := "R"%string |> <| cmd_seq := 3 |>.

Lemma frozen_gear_held_witness :
  match demo_idle with
  | Some p =>
      exists svc,
        vr_estop_gear (vp_runtime (demo_run [StepTick] (demo_stopped p))) = Some "D"%string /\
        (serves svc (demo_receive (demo_payload demo_again false) (demo_run [StepTick] (demo_stopped p))) \/
         exists t svc', polled svc svc' /\
           vr_service (vp_runtime (demo_receive (demo_payload demo_again false) (demo_run [StepTick] (demo_stopped p)))) =
             Some (receive_command (demo_again <| cmd_gear := "D"%string |>) t svc').2)
  | None => False
  end.
Proof.
  destruct demo_idle as [p |] eqn:E; [| vehicle_none E].
  destruct (demo_still_serves p E) as [svc Hs]. exists svc.
  apply (frozen_gear_held (J := JsonModel.api) (A := Logged MockVehicleAdapter) (W := Yard) [StepTick]
    (demo_payload demo_again false) "D" (demo_stopped p) svc demo_again).
  - exact (demo_stopped_gear p E).
  - by repeat constructor.
  - exact Hs.
  - vm_compute. reflexivity.
  - reflexivity.
Defined.
